(* ===== verification/_CoqProject ===== *)
-Q . S2P
Prelude.v
UnicodeTables.v
GoStrings.v
SampleCodec.v
GoTime.v
GoValue.v
GoNet.v
GoPath.v
GoCrypto.v
AlertPacket.v
PlaylistModel.v
World.v
Secrets.v
AdminTokens.v
AlertRequest.v
AudioRetention.v
GoFloat.v
CapModel.v
CapArchive.v
CapRegistry.v
PlannerState.v
AlertCommit.v
Wav.v
AudioFiles.v
AuditLog.v
AuditLogSafety.v
AuditRename.v
Accounts.v
AccountsSafety.v
Sessions.v
GatewayRequest.v
AccountAuth.v
AccountAuthSafety.v
CapSame.v
SameRequest.v
PanelPayload.v
AccountCommands.v
AccountCommandsSafety.v
OriginationPolicy.v
OriginationSafety.v
Lead.v
AlertText.v
BridgeClient.v
StationText.v
EventBridge.v
AlertPrepare.v
RoutinePlan.v
RoutineBuild.v
RoutineBuildSafety.v
Preparation.v
AlertQueue.v
PreparationSafety.v
PreparationRuns.v
