(* ===== verification/Prelude.v ===== *)
(** * Haze weather radio: the Go services of a station

    A station of Haze receives alerts and forecasts, turns them into audio and
    hands the audio to a playout engine.  The Go service [haze-playlist]
    ([services/go/internal/playlist]) decides what each feed plays: it plans the
    routine programme, prepares priority alerts in the background, and puts both
    in directories that the engine watches.  This development models that
    service, with the packages it relies on for the shape of alerts
    ([internal/alertmodel], [internal/capmodel], parts of [internal/alerttext]),
    their SAME events ([internal/capsame]), their archive (parts of
    [internal/datastore]) and lead-in audio ([internal/lead]).  Operators reach the
    station through the web gateway ([internal/webgateway]); of it the development
    models who may do what: passwords and second factors, accounts, sessions, the
    audit log, the commands on accounts, and the policy that stands before the
    commands that originate alerts.  Paths below are relative to
    [services/go/internal].

    ** The parts and how they interact

    An event arrives on the bridge ([playlist/bridge.go]).  The event loop
    ([playlist/async.go], [playlist/service.go]) offers it to every feed it is
    for.  A priority alert gets a version, and a worker of the priority pool
    prepares it: its texts, the SAME header from the host program, its voice from
    a file, a download or speech synthesis, all assembled in one audio file.  The
    loop commits the result when its version is still the newest, which announces
    it to the engine.  A tick plans routine items with a second pool.  Playout
    reports move items from the queue to the air.

    A request to the panel carries a token.  The gateway finds the address it comes
    from, the session the token names and the account of the session; a command of
    the panel then passes a gate that applies the policy of the account to its
    payload and writes a record to the account's chained log before the command is
    executed.  A sign-in issues the token, after limits, password and second factor.

    ** The files

    - [Prelude]: results, a state monad with its notation, lemmas on lists, the
      tactics that walk through monadic code.
    - [UnicodeTables], [GoStrings], [GoTime], [GoValue], [GoPath]: what the code
      uses of Go's language and library: byte strings with UTF-8 and case mapping,
      instants and RFC 3339, values of type [any] and [fmt.Sprint], paths.
    - [AlertPacket] ([alertmodel/packet.go]): the packet, its normal form, and the
      legacy shape.
    - [PlaylistModel] ([playlist/config.go], [playlist/service.go]): records of
      configuration, feeds, items, manifests.
    - [World]: clock, files and messages; the class [Env] says which calls fail.
    - [AlertRequest], [AlertCommit], [AlertText], [AlertPrepare], [AlertQueue]:
      one alert from its request to its announcement.
    - [SameRequest] ([playlist/same.go]), [Wav] and [AudioFiles]
      ([playlist/audio.go]), [AudioRetention] ([playlist/audio_retention.go]),
      [Lead] ([lead/lead.go]): the parts an alert's audio is made of, and the
      removal of old files.
    - [BridgeClient] and [EventBridge] ([playlist/bridge.go]): a request from the
      caller's side, as a monadic operation; and the read loop with the lanes and
      the pending requests, as a step relation.
    - [GoFloat]: numbers as text, and the layouts of times that are read.
    - [CapModel] ([capmodel]): a CAP document, its normal form and its validation.
    - [CapArchive] ([datastore/sqlite.go]): the table of archived documents and the
      operations on its rows; [CapRegistry] ([playlist/alerts.go]): which of them
      are in effect for a feed.
    - [CapSame] ([capsame/event.go]): the SAME event code of a CAP alert.
    - [PlannerState] and [RoutinePlan] ([playlist/service.go]): a feed's timeline
      and controls, and what it plays next.
    - [StationText] ([playlist/config.go]): what the station says of itself;
      [RoutineBuild] ([playlist/service.go]): the making of a routine item, from
      rendering and speech to its file, with the guarantees in
      [RoutineBuildSafety].
    - [Preparation] ([playlist/async.go]): the loop and the two worker pools, as
      operations on the process and a step relation; [PreparationSafety] has the
      invariant with the Hoare logic it is proved in, [PreparationRuns] what
      follows for every run.

    - [GoCrypto], [GoNet], [SampleCodec]: SHA-256, HMAC and base64; addresses and
      networks; formats for the concrete instances.
    - [Secrets] ([webgateway/auth.go], [webgateway/account_auth.go]): password hashes
      and sealed second factors; [AdminTokens] ([webgateway/auth.go]): the signed
      tokens of the single operator and their revocation.
    - [AuditLog] ([webgateway/audit_log.go]): the chained logs and their signed heads,
      with what they guarantee in [AuditLogSafety] and, for renamed accounts,
      [AuditRename].
    - [Accounts] ([webgateway/accounts_store.go]): the table of accounts and its
      statements; [AccountsSafety]: what any sequence of them keeps.
    - [Sessions] ([webgateway/session_registry.go], [webgateway/account_auth.go]): the
      sessions in memory and the limiter of attempts, against references.
    - [GatewayRequest] and [AccountAuth] ([webgateway/account_auth.go]): the address and
      token of a request; sign-in, authentication, revocation and the lock policy over
      the accounts, the sessions and the limiters.  [AccountAuthSafety] has a Hoare
      logic over the table, in which the accounts evolve as others let them, and what
      follows for [Login] and [Authenticate].
    - [PanelPayload], [AccountCommands] ([webgateway/accounts_commands.go]): payloads, and
      each command on accounts; [AccountCommandsSafety]: what they may change.
    - [OriginationPolicy] ([webgateway/account_policy.go], [webgateway/account_audit.go],
      [handleCommand] of [webgateway/server.go], [webgateway/same_gateway.go]): the gate,
      the policy, and the SAME request that a payload becomes; [OriginationSafety]: what
      passes the gate.

    ** The model

    An operation that touches files or the clock is a function in [M World]; one
    that also changes a planner is in a state monad over the planner and the
    world.  Errors are values of [result] or [option].  A [time.Time] is its
    instant in nanoseconds; 64-bit integers are [Z] with [wrap64] where the code
    can wrap; bytes and strings are lists of bytes.  Maps with string keys are
    [gmap].  Goroutines are steps: the worker pools take a job, run its
    preparation as one operation, and send the result; the bridge's steps are the
    sections between two blocking operations.  The gateway serves many requests at a
    time: before every access of a request to the accounts or the sessions the
    operations of others take place, which [Others] chooses, and theorems hold for
    every choice.  A statement or transaction of the account store is atomic.

    What other programs and packages do is an interface, a type class that a
    definition takes as an argument: [JSON] (decoding), [Env] (which calls of the
    operating system fail), [Zones] (the time zone database), [Tools] (ffmpeg and
    HTTP), [Host] (the SAME generator), [Codecs] (XML and regular expressions),
    [Texts] (the rest of the alert wording), [Remote] (the renderer and the speech
    synthesiser), [ProductCodec], [MapOrder] (the order in which Go visits a map),
    [Documents] (the XML of a CAP document and the parts of a URL), [SameMapping]
    (the JSON of the mapping file), [ZoneNames] (abbreviations of time zones),
    [Chance] and [Workers] (which goroutine ends first), [SecretTools] (random bytes,
    Argon2id and XChaCha20-Poly1305), [AuditCodec] (the JSON of the audit log),
    [ClaimsCodec] (that of the operator's tokens), [Paseto] and [Totp] (tokens and
    one-time passwords), [AlertArchive] and [StationConfig] (searches of the archive and
    of the configuration).  Those whose behaviour a theorem relies on have a class of
    their documented laws: [SecretToolsOk], [AuditCodecOk], [ClaimsCodecOk], [PasetoOk].  [HasWorld]
    lets an operation of the world run in every state that contains it.  Inside the
    development,
    [Builder] stands between routine planning and the making of an item:
    [RoutinePlan] proves its client against the laws [BuilderOk], and
    [routine_BuilderOk] shows that [RoutineBuild] keeps them.  [PriorityBuilder]
    stands between the loop and the preparation of an alert.
    [LawfulBuilder] is the contract of the latter: [AlertQueue] proves its client
    against it, and [service_lawful] shows that the service's own preparation
    keeps it.  Every interface has a concrete instance of low priority, for the
    witnesses.

    ** What is proved

    - Alerts: in every run at most one alert per feed is in preparation, the
      pools and the channel keep their bounds, waiting alerts are started,
      shutdown gives every place back, and a request that was superseded or
      cancelled is never aired ([PreparationRuns]).  A preparation is invisible
      until it is committed, leaves complete audio or nothing
      ([prepare_alert_contract]), and a SAME alert is header, voice and end of
      message from the generator's samples ([prepare_alert_same]); an
      announcement follows complete files ([commitPriorityAlert_announces],
      [queuePriorityAlert_announces]).
    - The bridge: an answer reaches the request it is for, and the lane of alert
      events neither loses nor reorders them ([EventBridge]).
    - Audio: WAV files written are read back, the two readers agree, assembly
      keeps order and gaps, downloads are bounded, pruning removes nothing in use.
    - SAME and lead-in audio: requests to the generator are well formed whatever
      the event holds, lead audio stays under its directory.
    - CAP: a document that is accepted is well formed ([ParseCAP_valid]); the
      archive keeps one row per alert, feed and bucket; looking for a feed's alerts
      loses none in force; the code found for an alert is always a SAME event code,
      and the first choice of a fixed order.
    - Routine items: an item that was built plays and touches only its own files
      ([buildProduct_contract]); segments are joined in their order whatever order
      their workers end in ([segments_in_order]).
    - The programme: rotation is fair, fixed events are the earliest ones, filling
      the queue ends, a rebased item follows what is queued, controls and
      interruptions nest.
    - Signing in: a session is given out only over a secure connection, from an
      allowed address, for the password and a fresh second factor of the account as it
      is then, whatever happens in between ([Login_sound]); an accepted request fits its
      token, its session, its address and its account ([Authenticate_sound]); the address
      cannot be forged through headers ([clientIP_unforgeable]); a token of before is
      refused after a change of credentials ([changed_credentials_end_sessions]).
    - Accounts: the table stays well formed and keeps an administrator; the version of
      an account guards its credentials; a step of the second factor is used once;
      failures lock; a caller without privileges changes no more than the own password
      ([commands_confined]); the limiter and the registry equal their references.
    - Originating alerts: only what permission, rate and policy admit is executed, and
      not before it was recorded ([origination_gated]); the SAME request of such a payload
      has a permitted originator, the forced sender and its true origin
      ([policy_binds_request]).
    - The audit log: a success is the last entry of its log, verification finds every
      change, addition and loss while the signed heads stand ([tampering_detected]).
    - Packets: normal forms, idempotence and round trips of the two shapes.

    A few theorems show what the code does against its intent; they are named in
    the comments as such ([reader_can_stall], [silent_alert_accepted],
    [custom_text_out_of_range], [writeState_failed_recorded],
    [pause_during_alert_undone], [coverage_exceeds_limit], [regex_escape_folded],
    [silence_splits_a_frame], [riff_size_wraps], [expired_alert_lost],
    [stored_order_not_chronological], [warning_aired_as_watch],
    [unrelated_parameter_read_as_event], [download_never_pruned],
    [interrupted_append_is_final], [truncation_accepted], [stale_save_unlocks],
    [stale_save_drops_second_factor], [mapped_entry_misread], [blocked_event_aired]).

    ** Fuel

    Go loops without a structural measure take fuel: [fill_queue] one round per
    free place of the queue ([fill_queue_terminates]), [start_pending] one per
    waiting job ([startPending_settles]), [drain] one per result in the channel
    ([shutdown_drains]), [advance_hours] one per hour ([advance_hours_spec]), the
    walks over WAV files one per byte of input, the digits of a float as many as
    its width allows.  Everything else is structural.

    ** Not modelled

    Of the playlist service: the reading of the configuration files, dialling the
    bridge and its JSON wire format.  The segments of a product are prepared one
    after the other, in any order.  A worker's preparation is one step, so two
    preparations do not interleave their file operations; their work files have
    distinct names.  The file system has no permissions and all files are regular;
    symbolic links are a function of the [Codecs].

    Of the web gateway: the registry of sessions in Redis, cookies, the reading of the
    configuration and keys, the mutex that orders changes of accounts (theorems hold
    without it), the execution of commands that are not about accounts, which is an
    argument of the gate, the data of broadcast alerts, the archive and location pages,
    media and captions.  Timing differences between a wrong password and an unknown
    account are not modelled, though the check of a dummy password is.

    Other services (product rendering, data ingest, IVR, locations, the other stores,
    speech, webhooks) and the Rust programs are not modelled: they are parsing of
    third-party formats, network protocols, SQL, or another language. *)

From stdpp Require Export base list gmap strings option.
From Stdlib Require Export ZArith Lia Bool.
From Stdlib Require Ascii.
Export (notations) Stdlib.Strings.Ascii.

(** ** Results

    A Go function returning [(T, error)] returns [Ok v] or [Err e]; the error
    type of each component is an inductive with one constructor per failing
    branch. *)
Inductive result (E A : Type) : Type :=
| Ok (a : A)
| Err (e : E).
Arguments Ok {E A} a.
Arguments Err {E A} e.

Definition rbind {E A B : Type} (f : A -> result E B) (m : result E A) : result E B :=
  match m with
  | Ok a => f a
  | Err e => Err e
  end.

Definition rmap {E A B : Type} (f : A -> B) (m : result E A) : result E B :=
  rbind (fun a => Ok (f a)) m.

(** [fmt.Errorf("...: %w", err)]: wrap the error of a sub-computation. *)
Definition wrap_err {E E' A : Type} (f : E -> E') (m : result E A) : result E' A :=
  match m with
  | Ok a => Ok a
  | Err e => Err (f e)
  end.

Declare Scope haze_scope.
Delimit Scope haze_scope with haze.
Create HintDb haze.
Create Rewrite HintDb haze_rw.
#[export] Hint Unfold rbind rmap wrap_err : haze.

Notation "'let?' x ':=' m 'in' k" := (rbind (fun x => k) m)
  (at level 10, x pattern, m at level 100, k at level 200) : haze_scope.
Notation "'require' b 'else' e 'in' k" := (if (b : bool) then k else Err e)
  (at level 10, b at level 100, e at level 100, k at level 200) : haze_scope.

(** ** Tactics of the development *)

(** Case analysis on the scrutinee of some [match] or [if] of the goal or of a
    hypothesis, keeping its equation, then clean up. *)
Ltac go_case :=
  match goal with
  | |- context [match ?x with _ => _ end] =>
      lazymatch x with context [match _ with _ => _ end] => fail | _ => destruct x eqn:? end
  | H : context [match ?x with _ => _ end] |- _ =>
      lazymatch x with context [match _ with _ => _ end] => fail | _ => destruct x eqn:? end
  end; simplify_eq/=.

Ltac go_cases := repeat go_case.

(** Boolean connectives in hypotheses become propositions. *)
Ltac bool_hyps :=
  repeat match goal with
  | H : (_ && _)%bool = true |- _ => apply andb_true_iff in H as [? ?]
  | H : (_ || _)%bool = false |- _ => apply orb_false_iff in H as [? ?]
  | H : negb _ = true |- _ => apply negb_true_iff in H
  | H : negb _ = false |- _ => apply negb_false_iff in H
  | H : bool_decide _ = true |- _ => apply bool_decide_eq_true in H
  | H : bool_decide _ = false |- _ => apply bool_decide_eq_false in H
  | H : (_ =? _)%string = true |- _ => apply String.eqb_eq in H
  | H : (_ =? _)%string = false |- _ => apply String.eqb_neq in H
  | H : (_ <? _)%Z = true |- _ => apply Z.ltb_lt in H
  | H : (_ <? _)%Z = false |- _ => apply Z.ltb_ge in H
  | H : (_ <=? _)%Z = true |- _ => apply Z.leb_le in H
  | H : (_ <=? _)%Z = false |- _ => apply Z.leb_gt in H
  | H : (_ =? _)%Z = true |- _ => apply Z.eqb_eq in H
  | H : (_ =? _)%Z = false |- _ => apply Z.eqb_neq in H
  | H : (_ <? _)%nat = true |- _ => apply Nat.ltb_lt in H
  | H : (_ <? _)%nat = false |- _ => apply Nat.ltb_ge in H
  | H : (_ <=? _)%nat = true |- _ => apply Nat.leb_le in H
  | H : (_ <=? _)%nat = false |- _ => apply Nat.leb_gt in H
  end.

(** ** Machine integers

    Go's [int], [int64] and [time.Duration] are 64 bits wide and wrap. *)
Definition wrap64 (z : Z) : Z := ((z + 2 ^ 63) mod 2 ^ 64 - 2 ^ 63)%Z.
Definition int64_ok (z : Z) : Prop := (- 2 ^ 63 <= z < 2 ^ 63)%Z.
Definition max_int64 : Z := (2 ^ 63 - 1)%Z.
Definition min_int64 : Z := (- 2 ^ 63)%Z.

Lemma wrap64_id z : int64_ok z -> wrap64 z = z.
Proof. unfold int64_ok, wrap64. intros H. rewrite Z.mod_small by lia. lia. Qed.

Lemma wrap64_range z : int64_ok (wrap64 z).
Proof.
  unfold int64_ok, wrap64.
  pose proof (Z.mod_pos_bound (z + 2 ^ 63) (2 ^ 64) ltac:(lia)). lia.
Qed.

(** ** The deduplicating loop

    The services share one loop shape: normalise an entry, skip it when it is
    empty, compute a key, skip it when the key was seen, otherwise record the
    key and append the entry.  [f] is the body up to the key. *)
Section dedup.
Context {A B : Type} (f : A -> option (string * B)).

Fixpoint dedup_loop (seen : gset string) (l : list A) : list B :=
  match l with
  | [] => []
  | a :: l' =>
      match f a with
      | None => dedup_loop seen l'
      | Some (k, b) =>
          if decide (k ∈ seen) then dedup_loop seen l'
          else b :: dedup_loop ({[k]} ∪ seen) l'
      end
  end.

(** Everything kept comes from the input. *)
Lemma dedup_loop_in seen l b :
  In b (dedup_loop seen l) -> exists a k, In a l /\ f a = Some (k, b) /\ k ∉ seen.
Proof.
  revert seen. induction l as [|a l IH]; intros seen; simpl; [done|].
  destruct (f a) as [[k b']|] eqn:E.
  - case_decide; simpl.
    + intros (a' & k' & ? & ? & ?)%IH. eauto 10.
    + intros [->|(a' & k' & ? & ? & ?)%IH]; [eauto 10|]. exists a', k'. set_solver.
  - intros (a' & k' & ? & ? & ?)%IH. eauto 10.
Qed.

(** Nothing is lost: each admissible entry's key is kept or was seen. *)
Lemma dedup_loop_complete seen l a k b :
  In a l -> f a = Some (k, b) ->
  k ∈ seen \/ exists a' b', f a' = Some (k, b') /\ In b' (dedup_loop seen l).
Proof.
  revert seen. induction l as [|a0 l IH]; intros seen; simpl; [done|].
  intros [->|Hin] Hf.
  - rewrite Hf. case_decide; [by left|]. right. exists a, b. split; [done|by left].
  - destruct (f a0) as [[k0 b0]|] eqn:E; [|by apply IH].
    case_decide; [by apply IH|].
    destruct (IH ({[k0]} ∪ seen) Hin Hf) as [Hk|(a' & b' & ? & ?)].
    + apply elem_of_union in Hk as [->%elem_of_singleton|?]; [|by left].
      right. exists a0, b0. split; [done|by left].
    + right. exists a', b'. split; [done|by right].
Qed.

Lemma dedup_loop_length seen l : (length (dedup_loop seen l) <= length l)%nat.
Proof.
  revert seen. induction l as [|a l IH]; intros seen; simpl; [lia|].
  destruct (f a) as [[k b]|]; [case_decide|]; simpl;
    [specialize (IH seen)|specialize (IH ({[k]} ∪ seen))|specialize (IH seen)]; lia.
Qed.
End dedup.

(** The keys of what is kept are distinct. *)
Lemma dedup_loop_keys {A B} (f : A -> option (string * B)) (key : B -> string) seen l :
  (forall a k b, f a = Some (k, b) -> key b = k) ->
  NoDup (map key (dedup_loop f seen l)) /\
  forall b, In b (dedup_loop f seen l) -> key b ∉ seen.
Proof.
  intros Hk. revert seen. induction l as [|a l IH]; intros seen; simpl.
  { split; [constructor|done]. }
  destruct (f a) as [[k b]|] eqn:E; [|apply IH]. case_decide; [apply IH|].
  destruct (IH ({[k]} ∪ seen)) as [Hnd Hseen]. simpl. rewrite (Hk _ _ _ E). split.
  - constructor; [|done]. intros Hin%list_elem_of_In%in_map_iff.
    destruct Hin as (b' & Hb' & Hin%Hseen). set_solver.
  - intros b' [<-|Hin]; [by rewrite (Hk _ _ _ E)|]. apply Hseen in Hin. set_solver.
Qed.

(** Running the loop again changes nothing, when the body keeps its results. *)
Lemma dedup_loop_idem {A} (f : A -> option (string * A)) seen l :
  (forall a k b, f a = Some (k, b) -> f b = Some (k, b)) ->
  dedup_loop f seen (dedup_loop f seen l) = dedup_loop f seen l.
Proof.
  intros Hf. revert seen. induction l as [|a l IH]; intros seen; simpl; [done|].
  destruct (f a) as [[k b]|] eqn:E; [|apply IH]. case_decide; [apply IH|].
  simpl. rewrite (Hf _ _ _ E). rewrite decide_False by done. by rewrite IH.
Qed.

(** ** Maps built by successive assignments

    [out[k] = v] in sequence; [None] is an assignment guarded out. *)
Definition assign {V} (m : gmap string V) (kv : string * option V) : gmap string V :=
  match kv.2 with
  | Some v => <[kv.1 := v]> m
  | None => m
  end.
Definition assign_all {V} (m : gmap string V) (l : list (string * option V)) : gmap string V :=
  fold_left assign l m.

(** The last assignment to [k] wins. *)
Fixpoint assigned {V} (k : string) (l : list (string * option V)) : option V :=
  match l with
  | [] => None
  | (k', v) :: l' =>
      if String.eqb k' k then
        match assigned k l' with
        | Some w => Some w
        | None => v
        end
      else assigned k l'
  end.

Lemma assign_all_lookup {V} (l : list (string * option V)) m k :
  assign_all m l !! k = match assigned k l with Some v => Some v | None => m !! k end.
Proof.
  revert m. induction l as [|[k' v] l IH]; intros m; simpl; [done|].
  unfold assign_all in *. rewrite IH. unfold assign. simpl.
  destruct (String.eqb_spec k' k) as [->|].
  - destruct (assigned k l); [done|]. destruct v; [by rewrite lookup_insert_eq | done].
  - destruct (assigned k l); [done|]. destruct v; [by rewrite lookup_insert_ne | done].
Qed.

Lemma assigned_app {V} k (l l' : list (string * option V)) :
  assigned k (l ++ l') = match assigned k l' with Some w => Some w | None => assigned k l end.
Proof.
  induction l as [|[k' v] l IH]; simpl; [by destruct (assigned k l')|].
  rewrite IH. destruct (String.eqb k' k); [|done]. by destruct (assigned k l').
Qed.
