(* ===== verification/GoStrings.v ===== *)
(** Go strings: byte strings with the operations of the packages [strings],
    [unicode/utf8] and [path] that the services use.  A Go [string] is a
    [String.string], one [ascii] per byte; runes are code points in [Z].
    Malformed UTF-8 is handled as Go handles it: each bad byte decodes to
    U+FFFD with width one. *)

From S2P Require Import Prelude UnicodeTables.

#[local] Open Scope Z_scope.

(** ** Bytes and UTF-8 *)

Definition byte_val (a : Ascii.ascii) : Z := Z.of_N (Ascii.N_of_ascii a).
Definition byte_of (z : Z) : Ascii.ascii := Ascii.ascii_of_N (Z.to_N z).

Definition RuneError : Z := 65533.

Definition in_range (lo hi z : Z) : bool := (lo <=? z) && (z <=? hi).
Definition is_cont (a : Ascii.ascii) : bool := in_range 128 191 (byte_val a).

(** Accepted second bytes after the leading byte [b] of a 3 or 4 byte sequence
    ([utf8.acceptRanges]). *)
Definition second_ok (b : Z) (a : Ascii.ascii) : bool :=
  let v := byte_val a in
  if b =? 224 then in_range 160 191 v
  else if b =? 237 then in_range 128 159 v
  else if b =? 240 then in_range 144 191 v
  else if b =? 244 then in_range 128 143 v
  else in_range 128 191 v.

Definition cont_val (a : Ascii.ascii) : Z := byte_val a - 128.

(** [for _, r := range s]: the runes of a string. *)
Fixpoint runes (s : string) : list Z :=
  match s with
  | EmptyString => []
  | String a s1 =>
      let b := byte_val a in
      if b <? 128 then b :: runes s1
      else if in_range 194 223 b then
        match s1 with
        | String a1 s2 =>
            if is_cont a1 then ((b - 192) * 64 + cont_val a1) :: runes s2
            else RuneError :: runes s1
        | EmptyString => [RuneError]
        end
      else if in_range 224 239 b then
        match s1 with
        | String a1 (String a2 s3) =>
            if second_ok b a1 && is_cont a2
            then ((b - 224) * 4096 + cont_val a1 * 64 + cont_val a2) :: runes s3
            else RuneError :: runes s1
        | _ => RuneError :: runes s1
        end
      else if in_range 240 244 b then
        match s1 with
        | String a1 (String a2 (String a3 s4)) =>
            if second_ok b a1 && is_cont a2 && is_cont a3
            then ((b - 240) * 262144 + cont_val a1 * 4096 + cont_val a2 * 64 + cont_val a3)
                   :: runes s4
            else RuneError :: runes s1
        | _ => RuneError :: runes s1
        end
      else RuneError :: runes s1
  end.

(** Scalar values: what [utf8.AppendRune] encodes as itself. *)
Definition valid_rune (r : Z) : bool :=
  in_range 0 55295 r || in_range 57344 1114111 r.

(** [strings.Builder.WriteRune]. *)
Definition encode_rune (r0 : Z) : string :=
  let r := if valid_rune r0 then r0 else RuneError in
  if r <? 128 then String (byte_of r) EmptyString
  else if r <? 2048 then
    String (byte_of (192 + r / 64)) (String (byte_of (128 + r mod 64)) EmptyString)
  else if r <? 65536 then
    String (byte_of (224 + r / 4096))
      (String (byte_of (128 + (r / 64) mod 64)) (String (byte_of (128 + r mod 64)) EmptyString))
  else
    String (byte_of (240 + r / 262144))
      (String (byte_of (128 + (r / 4096) mod 64))
        (String (byte_of (128 + (r / 64) mod 64)) (String (byte_of (128 + r mod 64)) EmptyString))).

Fixpoint encode (l : list Z) : string :=
  match l with
  | [] => EmptyString
  | r :: l' => encode_rune r +:+ encode l'
  end.

(** [utf8.RuneCountInString]. *)
Definition RuneCountInString (s : string) : Z := Z.of_nat (length (runes s)).

(** ** Case mapping *)

Fixpoint table_lookup (t : list (Z * Z * Z * Z)) (r : Z) : option Z :=
  match t with
  | [] => None
  | (lo, hi, step, d) :: t' =>
      if in_range lo hi r && ((r - lo) mod step =? 0) then Some (r + d) else table_lookup t' r
  end.

(** [unicode.ToLower], [unicode.ToUpper]. *)
Definition rune_lower (r : Z) : Z :=
  if r <? 128 then (if in_range 65 90 r then r + 32 else r)
  else default r (table_lookup lower_table r).
Definition rune_upper (r : Z) : Z :=
  if r <? 128 then (if in_range 97 122 r then r - 32 else r)
  else default r (table_lookup upper_table r).

(** The representative of the [unicode.SimpleFold] class of a rune. *)
Definition rune_fold (r : Z) : Z :=
  if r <? 128 then rune_lower r
  else match table_lookup fold_exceptions r with
       | Some f => f
       | None => rune_lower r
       end.

(** [strings.ToLower], [strings.ToUpper]: [strings.Map] rewrites every rune,
    malformed bytes to U+FFFD. *)
Definition ToLower (s : string) : string := encode (map rune_lower (runes s)).
Definition ToUpper (s : string) : string := encode (map rune_upper (runes s)).

(** [strings.EqualFold]. *)
Definition EqualFold (s t : string) : bool :=
  bool_decide (map rune_fold (runes s) = map rune_fold (runes t)).

(** ** White space *)

(** [unicode.IsSpace]. *)
Definition IsSpace (r : Z) : bool :=
  in_range 9 13 r || (r =? 32) || (r =? 133) || (r =? 160) || (r =? 5760) ||
  in_range 8192 8202 r || (r =? 8232) || (r =? 8233) || (r =? 8239) || (r =? 8287) || (r =? 12288).

Definition space_runes : list Z :=
  [9; 10; 11; 12; 13; 32; 133; 160; 5760; 8192; 8193; 8194; 8195; 8196; 8197; 8198; 8199;
   8200; 8201; 8202; 8232; 8233; 8239; 8287; 12288].

Definition bytes_of (s : string) : list Ascii.ascii := String.list_ascii_of_string s.
Definition string_of (l : list Ascii.ascii) : string := String.string_of_list_ascii l.

(** White-space runes by the length of their encoding. *)
Definition space1 (a : Ascii.ascii) : bool := (byte_val a <? 128) && IsSpace (byte_val a).
Definition space2 (a b : Ascii.ascii) : bool :=
  in_range 194 223 (byte_val a) && is_cont b && IsSpace ((byte_val a - 192) * 64 + cont_val b).
Definition space3 (a b c : Ascii.ascii) : bool :=
  in_range 224 239 (byte_val a) && second_ok (byte_val a) b && is_cont c &&
  IsSpace ((byte_val a - 224) * 4096 + cont_val b * 64 + cont_val c).

(** Drop encoded white space from the front of a byte list; the tests say how
    two and three bytes at the front are read. *)
Fixpoint strip_with (s2 : Ascii.ascii -> Ascii.ascii -> bool)
    (s3 : Ascii.ascii -> Ascii.ascii -> Ascii.ascii -> bool)
    (l : list Ascii.ascii) : list Ascii.ascii :=
  match l with
  | [] => []
  | a :: l1 =>
      if space1 a then strip_with s2 s3 l1
      else match l1 with
           | [] => l
           | b :: l2 =>
               if s2 a b then strip_with s2 s3 l2
               else match l2 with
                    | [] => l
                    | c :: l3 => if s3 a b c then strip_with s2 s3 l3 else l
                    end
           end
  end.

Definition trim_left (l : list Ascii.ascii) : list Ascii.ascii := strip_with space2 space3 l.
(** [strings.TrimRightFunc] reads the last rune with [DecodeLastRune]: the
    bytes from the end, in reverse. *)
Definition trim_right (l : list Ascii.ascii) : list Ascii.ascii :=
  rev (strip_with (fun a b => space2 b a) (fun a b c => space3 c b a) (rev l)).

(** [strings.TrimSpace]. *)
Definition TrimSpace (s : string) : string := string_of (trim_right (trim_left (bytes_of s))).

(** ** Searching and splitting *)

Fixpoint HasPrefix (s p : string) : bool :=
  match p, s with
  | EmptyString, _ => true
  | String a p', String b s' => Ascii.eqb a b && HasPrefix s' p'
  | String _ _, EmptyString => false
  end.

Definition string_rev (s : string) : string := string_of (rev (bytes_of s)).
Definition HasSuffix (s p : string) : bool := HasPrefix (string_rev s) (string_rev p).

Fixpoint Contains (s p : string) : bool :=
  HasPrefix s p || match s with EmptyString => false | String _ s' => Contains s' p end.

(** [strings.Index], [None] for -1. *)
Fixpoint Index (s p : string) : option nat :=
  if HasPrefix s p then Some 0%nat
  else match s with
       | EmptyString => None
       | String _ s' => S <$> Index s' p
       end.

(** [strings.LastIndex], [None] for -1. *)
Fixpoint LastIndex (s p : string) : option nat :=
  match s with
  | EmptyString => if HasPrefix s p then Some 0%nat else None
  | String _ s' =>
      match LastIndex s' p with
      | Some i => Some (S i)
      | None => if HasPrefix s p then Some 0%nat else None
      end
  end.

(** [s[n:]] and [s[:n]] for [n <= len(s)]. *)
Fixpoint drop_bytes (n : nat) (s : string) : string :=
  match n, s with
  | O, _ => s
  | S n', String _ s' => drop_bytes n' s'
  | S _, EmptyString => EmptyString
  end.
Fixpoint take_bytes (n : nat) (s : string) : string :=
  match n, s with
  | S n', String a s' => String a (take_bytes n' s')
  | _, _ => EmptyString
  end.

Definition TrimSuffix (s p : string) : string :=
  if HasSuffix s p then take_bytes (String.length s - String.length p) s else s.
Definition TrimPrefix (s p : string) : string :=
  if HasPrefix s p then drop_bytes (String.length p) s else s.

(** [strings.Split] on a one-byte separator. *)
Fixpoint Split (sep : Ascii.ascii) (s : string) : list string :=
  match s with
  | EmptyString => [EmptyString]
  | String a s' =>
      if Ascii.eqb a sep then EmptyString :: Split sep s'
      else match Split sep s' with
           | p :: ps => String a p :: ps
           | [] => [String a EmptyString]
           end
  end.

(** [strings.FieldsFunc] for a separator test that gives all bytes from 128 up
    the same answer: splitting at bytes is then splitting at runes. *)
Fixpoint fields_go (sep : Ascii.ascii -> bool) (s : string) : list string * string :=
  match s with
  | EmptyString => ([], EmptyString)
  | String a s' =>
      let '(fs, cur) := fields_go sep s' in
      if sep a then ((if (cur =? "")%string then fs else cur :: fs), EmptyString)
      else (fs, String a cur)
  end.
Definition FieldsFunc (sep : Ascii.ascii -> bool) (s : string) : list string :=
  let '(fs, cur) := fields_go sep s in if (cur =? "")%string then fs else cur :: fs.

(** [strings.Join]. *)
Fixpoint Join (l : list string) (sep : string) : string :=
  match l with
  | [] => EmptyString
  | [x] => x
  | x :: l' => x +:+ sep +:+ Join l' sep
  end.

(** [strings.ReplaceAll] of one byte by another. *)
Fixpoint ReplaceByte (a b : Ascii.ascii) (s : string) : string :=
  match s with
  | EmptyString => EmptyString
  | String c s' => String (if Ascii.eqb c a then b else c) (ReplaceByte a b s')
  end.

(** A loop over the runes of a string that writes the ASCII runes passing a
    test to a builder. *)
Fixpoint filter_bytes (f : Z -> bool) (s : string) : string :=
  match s with
  | EmptyString => EmptyString
  | String a s' => if f (byte_val a) then String a (filter_bytes f s') else filter_bytes f s'
  end.

Definition is_digit (z : Z) : bool := in_range 48 57 z.
Definition is_lower (z : Z) : bool := in_range 97 122 z.
Definition is_upper (z : Z) : bool := in_range 65 90 z.

(** ** Facts: bytes *)

Ltac ranges := unfold in_range in *; rewrite ?andb_true_iff, ?andb_false_iff, ?Z.leb_le, ?Z.leb_gt in *.

Lemma byte_val_range a : 0 <= byte_val a < 256.
Proof. unfold byte_val. pose proof (Ascii.N_ascii_bounded a). lia. Qed.

Lemma byte_val_of z : 0 <= z < 256 -> byte_val (byte_of z) = z.
Proof.
  intros H. unfold byte_val, byte_of. rewrite Ascii.N_ascii_embedding by lia. lia.
Qed.

Lemma byte_val_inj a b : byte_val a = byte_val b -> a = b.
Proof.
  unfold byte_val. intros H%N2Z.inj.
  rewrite <- (Ascii.ascii_N_embedding a), <- (Ascii.ascii_N_embedding b). by f_equal.
Qed.

Lemma bytes_of_string_of l : bytes_of (string_of l) = l.
Proof. apply String.list_ascii_of_string_of_list_ascii. Qed.
Lemma string_of_bytes_of s : string_of (bytes_of s) = s.
Proof. apply String.string_of_list_ascii_of_string. Qed.
Lemma bytes_of_app s t : bytes_of (s +:+ t) = bytes_of s ++ bytes_of t.
Proof. induction s as [|a s IH]; simpl; [done|]. by rewrite <- IH. Qed.
Lemma string_app_assoc s t u : (s +:+ t) +:+ u = s +:+ (t +:+ u).
Proof. induction s as [|a s IH]; [done|]. exact (f_equal (String a) IH). Qed.
Lemma string_app_nil_r s : s +:+ "" = s.
Proof. induction s as [|a s IH]; [done|]. exact (f_equal (String a) IH). Qed.
Lemma bytes_of_inj s t : bytes_of s = bytes_of t -> s = t.
Proof. intros H. rewrite <- (string_of_bytes_of s), H. apply string_of_bytes_of. Qed.
Lemma length_bytes_of s : length (bytes_of s) = String.length s.
Proof. induction s; simpl; [done|]. by f_equal. Qed.

(** ** Facts: trimming *)

(** Does a byte list start with an encoded white-space rune? *)
Definition starts_space (s2 : Ascii.ascii -> Ascii.ascii -> bool)
    (s3 : Ascii.ascii -> Ascii.ascii -> Ascii.ascii -> bool) (l : list Ascii.ascii) : bool :=
  match l with
  | [] => false
  | a :: l1 =>
      space1 a ||
      match l1 with
      | [] => false
      | b :: l2 => s2 a b || match l2 with [] => false | c :: _ => s3 a b c end
      end
  end.

Section strip.
Context (s2 : Ascii.ascii -> Ascii.ascii -> bool)
        (s3 : Ascii.ascii -> Ascii.ascii -> Ascii.ascii -> bool).

(** Walk down [strip_with] along its three guards. *)
Ltac strip_step l IH fin :=
  destruct l as [|a l1]; [done|]; cbn [strip_with];
  destruct (space1 a) eqn:Ea; [apply (IH l1)|];
  destruct l1 as [|b l2]; [fin|];
  destruct (s2 a b) eqn:Eb; [apply (IH l2)|];
  destruct l2 as [|c l3]; [fin|];
  destruct (s3 a b c) eqn:Ec; [apply (IH l3)|fin].

Lemma strip_starts l : starts_space s2 s3 (strip_with s2 s3 l) = false.
Proof.
  revert l. fix IH 1. intros l.
  strip_step l IH ltac:(cbn; rewrite Ea, ?Eb, ?Ec; reflexivity).
Qed.

Lemma strip_fixed l : starts_space s2 s3 l = false -> strip_with s2 s3 l = l.
Proof.
  destruct l as [|a [|b [|c l]]]; simpl; intros; bool_hyps;
    repeat match goal with H : _ = false |- _ => rewrite H end; done.
Qed.

Lemma strip_suffix l : exists p, l = p ++ strip_with s2 s3 l.
Proof.
  revert l. fix IH 1. intros l.
  destruct l as [|a l1]; [by exists []|]; cbn [strip_with].
  destruct (space1 a); [destruct (IH l1) as [p Hp]; exists (a :: p); simpl; by rewrite <- Hp|].
  destruct l1 as [|b l2]; [by exists []|].
  destruct (s2 a b);
    [destruct (IH l2) as [p Hp]; exists (a :: b :: p); simpl; by rewrite <- Hp|].
  destruct l2 as [|c l3]; [by exists []|].
  destruct (s3 a b c); [|by exists []].
  destruct (IH l3) as [p Hp]; exists (a :: b :: c :: p); simpl; by rewrite <- Hp.
Qed.

Lemma starts_space_app l l' :
  starts_space s2 s3 l = true -> starts_space s2 s3 (l ++ l') = true.
Proof.
  destruct l as [|a [|b [|c l]]]; simpl; intros H; try done.
  - rewrite orb_false_r in H. by rewrite H.
  - destruct (space1 a), (s2 a b); simpl in *; done.
Qed.
End strip.

Definition space_left (l : list Ascii.ascii) : bool := starts_space space2 space3 l.
Definition space_right (l : list Ascii.ascii) : bool :=
  starts_space (fun a b => space2 b a) (fun a b c => space3 c b a) (rev l).

(** No white space at either end. *)
Definition trimmed (s : string) : Prop :=
  space_left (bytes_of s) = false /\ space_right (bytes_of s) = false.

Lemma TrimSpace_trimmed s : trimmed (TrimSpace s).
Proof.
  unfold trimmed, TrimSpace. rewrite bytes_of_string_of. split.
  - unfold trim_right.
    destruct (strip_suffix (fun a b => space2 b a) (fun a b c => space3 c b a)
                (rev (trim_left (bytes_of s)))) as [p Hp].
    set (t := strip_with _ _ (rev (trim_left (bytes_of s)))) in *.
    apply (f_equal (@rev _)) in Hp. rewrite rev_involutive, rev_app_distr in Hp.
    destruct (space_left (rev t)) eqn:E; [|done].
    pose proof (starts_space_app _ _ _ (rev p) E) as Ht. rewrite <- Hp in Ht.
    unfold trim_left in Ht. by rewrite strip_starts in Ht.
  - unfold space_right, trim_right. rewrite rev_involutive. apply strip_starts.
Qed.

Lemma trimmed_TrimSpace s : trimmed s -> TrimSpace s = s.
Proof.
  intros [Hl Hr]. unfold TrimSpace, trim_left, trim_right.
  rewrite (strip_fixed _ _ (bytes_of s)) by exact Hl.
  rewrite strip_fixed by exact Hr. rewrite rev_involutive. apply string_of_bytes_of.
Qed.

Lemma TrimSpace_idem s : TrimSpace (TrimSpace s) = TrimSpace s.
Proof. apply trimmed_TrimSpace, TrimSpace_trimmed. Qed.
#[export] Hint Rewrite TrimSpace_idem : haze_rw.

(** ** Facts: searching *)

Lemma HasPrefix_spec s p : HasPrefix s p = true <-> exists t, s = p +:+ t.
Proof.
  revert s. induction p as [|a p IH]; intros s.
  - split; [by exists s | by destruct s].
  - destruct s as [|b s]; simpl; [split; [done | by intros [t ?]]|].
    rewrite andb_true_iff, Ascii.eqb_eq, IH. split.
    + intros [-> [t ->]]. by exists t.
    + intros [t [= -> ->]]. eauto.
Qed.

Lemma HasPrefix_refl_app p t : HasPrefix (p +:+ t) p = true.
Proof. apply HasPrefix_spec. by exists t. Qed.

Lemma string_rev_involutive s : string_rev (string_rev s) = s.
Proof.
  unfold string_rev. by rewrite bytes_of_string_of, rev_involutive, string_of_bytes_of.
Qed.
Lemma string_rev_app s t : string_rev (s +:+ t) = string_rev t +:+ string_rev s.
Proof.
  apply bytes_of_inj. unfold string_rev.
  by rewrite !bytes_of_app, !bytes_of_string_of, rev_app_distr.
Qed.

Lemma HasSuffix_spec s p : HasSuffix s p = true <-> exists t, s = t +:+ p.
Proof.
  unfold HasSuffix. rewrite HasPrefix_spec. split; intros [t Ht].
  - exists (string_rev t). rewrite <- (string_rev_involutive s), Ht, string_rev_app.
    by rewrite string_rev_involutive.
  - exists (string_rev t). by rewrite Ht, string_rev_app.
Qed.

Lemma Contains_spec s p : Contains s p = true <-> exists a b, s = a +:+ p +:+ b.
Proof.
  induction s as [|c s IH]; cbn [Contains]; rewrite orb_true_iff, HasPrefix_spec.
  - split; [intros [[t Ht]|?]; [by exists "", t | done]|].
    intros (a & b & H). left. destruct a; [by exists b | done].
  - rewrite IH. split.
    + intros [[t Ht] | (a & b & ->)]; [by exists "", t | by exists (String c a), b].
    + intros ([|a0 a] & b & H); [left; by exists b|]. injection H as -> ->. right. eauto.
Qed.

Lemma take_bytes_app s t : take_bytes (String.length s) (s +:+ t) = s.
Proof. induction s as [|a s IH]; [by destruct t|]. cbn. by f_equal. Qed.
Lemma drop_bytes_app s t : drop_bytes (String.length s) (s +:+ t) = t.
Proof. induction s as [|a s IH]; [by destruct t|]. done. Qed.

Lemma filter_bytes_forall f s :
  Forall (fun a => f (byte_val a) = true) (bytes_of (filter_bytes f s)).
Proof.
  induction s as [|a s IH]; simpl; [constructor|].
  destruct (f (byte_val a)) eqn:E; simpl; [by constructor | done].
Qed.

Lemma filter_bytes_id f s :
  Forall (fun a => f (byte_val a) = true) (bytes_of s) -> filter_bytes f s = s.
Proof.
  induction s as [|a s IH]; simpl; [done|]. intros H. inversion H as [|?? Ha Hs]; subst.
  rewrite Ha. f_equal. by apply IH.
Qed.

Lemma filter_bytes_idem f s : filter_bytes f (filter_bytes f s) = filter_bytes f s.
Proof. apply filter_bytes_id, filter_bytes_forall. Qed.

(** ** Facts: UTF-8 *)

Ltac zdivmod := Z.to_euclidean_division_equations; lia.

Definition rune_ok (r : Z) : Prop := valid_rune r = true.

Lemma rune_ok_range r : rune_ok r <-> 0 <= r <= 55295 \/ 57344 <= r <= 1114111.
Proof. unfold rune_ok, valid_rune. rewrite orb_true_iff. ranges. lia. Qed.

Lemma is_cont_of z : 0 <= z < 64 -> is_cont (byte_of (128 + z)) = true.
Proof. intros. unfold is_cont. rewrite byte_val_of by lia. ranges. lia. Qed.

(** The four shapes of an encoded rune. *)
Inductive encoded : Z -> string -> Prop :=
| encoded1 r : 0 <= r < 128 -> encoded r (String (byte_of r) "")
| encoded2 r h l : 2 <= h < 32 -> 0 <= l < 64 -> r = h * 64 + l ->
    encoded r (String (byte_of (192 + h)) (String (byte_of (128 + l)) ""))
| encoded3 r h m l : 0 <= h < 16 -> 0 <= m < 64 -> 0 <= l < 64 ->
    r = h * 4096 + m * 64 + l -> (h = 0 -> 32 <= m) -> (h = 13 -> m < 32) ->
    encoded r (String (byte_of (224 + h)) (String (byte_of (128 + m))
                (String (byte_of (128 + l)) "")))
| encoded4 r h m n l : 0 <= h < 5 -> 0 <= m < 64 -> 0 <= n < 64 -> 0 <= l < 64 ->
    r = h * 262144 + m * 4096 + n * 64 + l -> (h = 0 -> 16 <= m) -> (h = 4 -> m < 16) ->
    encoded r (String (byte_of (240 + h)) (String (byte_of (128 + m))
                (String (byte_of (128 + n)) (String (byte_of (128 + l)) "")))).

Lemma encode_rune_encoded r : rune_ok r -> encoded r (encode_rune r).
Proof.
  intros H. unfold encode_rune. rewrite H. apply rune_ok_range in H.
  destruct (r <? 128) eqn:E1; bool_hyps; [constructor; lia|].
  destruct (r <? 2048) eqn:E2; bool_hyps; [constructor; zdivmod|].
  destruct (r <? 65536) eqn:E3; bool_hyps; constructor; zdivmod.
Qed.

Ltac byte_tests :=
  unfold is_cont, second_ok, cont_val in *; rewrite ?byte_val_of in * by lia.

(** Decide a boolean arithmetic condition of the goal. *)
Ltac bool_true b := replace b with true by (symmetry; ranges; lia).

Lemma second_ok_of3 h m : 0 <= h < 16 -> 0 <= m < 64 -> (h = 0 -> 32 <= m) ->
  (h = 13 -> m < 32) -> second_ok (224 + h) (byte_of (128 + m)) = true.
Proof.
  intros. byte_tests.
  repeat case_match; bool_hyps; ranges; lia.
Qed.

Lemma second_ok_of4 h m : 0 <= h < 5 -> 0 <= m < 64 -> (h = 0 -> 16 <= m) ->
  (h = 4 -> m < 16) -> second_ok (240 + h) (byte_of (128 + m)) = true.
Proof. intros. byte_tests. repeat case_match; bool_hyps; ranges; lia. Qed.

Lemma runes_encoded r e s : encoded r e -> runes (e +:+ s) = r :: runes s.
Proof.
  destruct 1; simpl; rewrite ?byte_val_of by lia.
  - by replace (r <? 128) with true by lia.
  - replace (192 + h <? 128) with false by lia.
    replace (in_range 194 223 (192 + h)) with true by (symmetry; ranges; lia).
    rewrite is_cont_of by lia. unfold cont_val. rewrite byte_val_of by lia. f_equal. lia.
  - replace (224 + h <? 128) with false by lia.
    replace (in_range 194 223 (224 + h)) with false by (symmetry; ranges; lia).
    replace (in_range 224 239 (224 + h)) with true by (symmetry; ranges; lia).
    rewrite second_ok_of3, is_cont_of by done. unfold cont_val.
    rewrite !byte_val_of by lia. simpl. f_equal. lia.
  - replace (240 + h <? 128) with false by lia.
    replace (in_range 194 223 (240 + h)) with false by (symmetry; ranges; lia).
    replace (in_range 224 239 (240 + h)) with false by (symmetry; ranges; lia).
    replace (in_range 240 244 (240 + h)) with true by (symmetry; ranges; lia).
    rewrite second_ok_of4, !is_cont_of by done. unfold cont_val.
    rewrite !byte_val_of by lia. simpl. f_equal. lia.
Qed.

(** Decoding inverts encoding on scalar values. *)
Lemma runes_encode l : Forall rune_ok l -> runes (encode l) = l.
Proof.
  induction 1 as [|r l Hr _ IH]; simpl; [done|].
  rewrite (runes_encoded r) by by apply encode_rune_encoded. by rewrite IH.
Qed.

(** Decoding yields scalar values only. *)
Lemma runes_ok s : Forall rune_ok (runes s).
Proof.
  revert s. fix IH 1. intros [|a s1]; [constructor|]. cbn [runes].
  pose proof (byte_val_range a). pose proof (IH s1) as IH1. assert (rune_ok RuneError) by done.
  destruct (byte_val a <? 128) eqn:E1; bool_hyps;
    [constructor; [apply rune_ok_range; lia | exact IH1]|].
  destruct (in_range 194 223 (byte_val a)) eqn:E2.
  { destruct s1 as [|a1 s2]; [by repeat constructor|].
    destruct (is_cont a1) eqn:C1; constructor; try done; try exact IH1; try apply IH.
    unfold is_cont, cont_val in *. ranges. apply rune_ok_range. lia. }
  destruct (in_range 224 239 (byte_val a)) eqn:E3.
  { destruct s1 as [|a1 [|a2 s3]]; try (constructor; [done | exact IH1]).
    destruct (second_ok (byte_val a) a1 && is_cont a2) eqn:C; constructor; try done; try exact IH1; try apply IH.
    bool_hyps. unfold second_ok, is_cont, cont_val in *. ranges. apply rune_ok_range.
    repeat case_match; bool_hyps; ranges; lia. }
  destruct (in_range 240 244 (byte_val a)) eqn:E4; [|constructor; [done | exact IH1]].
  destruct s1 as [|a1 [|a2 [|a3 s4]]]; try (constructor; [done | exact IH1]).
  destruct (second_ok (byte_val a) a1 && is_cont a2 && is_cont a3) eqn:C;
    constructor; try done; try exact IH1; try apply IH.
  bool_hyps. unfold second_ok, is_cont, cont_val in *. ranges. apply rune_ok_range.
  repeat case_match; bool_hyps; ranges; lia.
Qed.

Lemma encode_app l l' : encode (l ++ l') = encode l +:+ encode l'.
Proof.
  induction l as [|r l IH]; simpl; [done|]. apply bytes_of_inj.
  by rewrite IH, !bytes_of_app, app_assoc.
Qed.

Lemma IsSpace_range r : IsSpace r = true -> 0 <= r <= 12288.
Proof.
  unfold IsSpace. rewrite !orb_true_iff. ranges. rewrite !Z.eqb_eq. lia.
Qed.

(** White space at the front (resp. the end) of encoded text is a white-space
    rune at the front (resp. the end). *)
Lemma space_left_encoded r e s :
  encoded r e -> space_left (bytes_of (e +:+ s)) = IsSpace r.
Proof.
  rewrite bytes_of_app. unfold space_left, bytes_of.
  destruct 1; cbn [String.list_ascii_of_string app starts_space].
  all: unfold space1, space2, space3; rewrite ?byte_val_of by lia.
  - replace (r <? 128) with true by lia. simpl.
    destruct (IsSpace r) eqn:E; [done|]. simpl.
    replace (in_range 194 223 r) with false by (symmetry; ranges; lia).
    replace (in_range 224 239 r) with false by (symmetry; ranges; lia).
    destruct (String.list_ascii_of_string s) as [|? [|? ?]]; done.
  - replace (192 + h <? 128) with false by lia. simpl.
    replace (in_range 194 223 (192 + h)) with true by (symmetry; ranges; lia).
    replace (in_range 224 239 (192 + h)) with false by (symmetry; ranges; lia).
    rewrite is_cont_of by lia. unfold cont_val. rewrite byte_val_of by lia. simpl.
    replace ((192 + h - 192) * 64 + (128 + l - 128)) with r by lia.
    destruct (IsSpace r); [done|]. by destruct (String.list_ascii_of_string s).
  - replace (224 + h <? 128) with false by lia. simpl.
    replace (in_range 194 223 (224 + h)) with false by (symmetry; ranges; lia).
    replace (in_range 224 239 (224 + h)) with true by (symmetry; ranges; lia).
    rewrite second_ok_of3, !is_cont_of by done. unfold cont_val. rewrite !byte_val_of by lia.
    cbn [andb orb]. f_equal. lia.
  - replace (240 + h <? 128) with false by lia. simpl.
    replace (in_range 194 223 (240 + h)) with false by (symmetry; ranges; lia).
    replace (in_range 224 239 (240 + h)) with false by (symmetry; ranges; lia). simpl.
    destruct (IsSpace r) eqn:E; [|done]. apply IsSpace_range in E. lia.
Qed.

Lemma space_right_encoded r e s :
  encoded r e -> space_right (bytes_of (s +:+ e)) = IsSpace r.
Proof.
  intros He. unfold space_right. rewrite bytes_of_app, rev_app_distr.
  unfold bytes_of. destruct He; cbn [String.list_ascii_of_string rev app].
  all: unfold starts_space, space1, space2, space3.
  all: rewrite ?is_cont_of by lia; rewrite ?byte_val_of by lia.
  - replace (r <? 128) with true by lia. simpl.
    assert (is_cont (byte_of r) = false) as Hc.
    { unfold is_cont. rewrite byte_val_of by lia. ranges. lia. }
    rewrite Hc. destruct (IsSpace r); [done|]. simpl.
    destruct (rev (String.list_ascii_of_string s)) as [|? [|? ?]]; simpl; try done;
      rewrite ?andb_false_r; done.
  - replace (128 + l <? 128) with false by lia. simpl.
    replace (in_range 194 223 (192 + h)) with true by (symmetry; ranges; lia).
    unfold cont_val. rewrite byte_val_of by lia. simpl.
    replace ((192 + h - 192) * 64 + (128 + l - 128)) with r by lia.
    destruct (IsSpace r); [done|].
    destruct (rev (String.list_ascii_of_string s)) as [|c ?]; [done|]. simpl.
    assert (second_ok (byte_val c) (byte_of (192 + h)) = false) as ->.
    { byte_tests. repeat case_match; ranges; lia. }
    by rewrite andb_false_r.
  - replace (128 + l <? 128) with false by lia. simpl.
    replace (in_range 194 223 (128 + m)) with false by (symmetry; ranges; lia).
    replace (in_range 224 239 (224 + h)) with true by (symmetry; ranges; lia).
    rewrite second_ok_of3 by done. unfold cont_val. rewrite !byte_val_of by lia.
    cbn [andb orb]. f_equal. lia.
  - replace (128 + l <? 128) with false by lia. simpl.
    replace (in_range 194 223 (128 + n)) with false by (symmetry; ranges; lia).
    replace (in_range 224 239 (128 + m)) with false by (symmetry; ranges; lia). simpl.
    destruct (IsSpace r) eqn:E; [|done]. apply IsSpace_range in E. lia.
Qed.

(** ** Facts: case mapping *)

(** Every rune a table maps, with its image. *)
Definition table_images (t : list (Z * Z * Z * Z)) : list Z :=
  concat (map (fun '(lo, hi, step, d) =>
    map (fun i => lo + Z.of_nat i + d) (seq 0 (Z.to_nat (hi - lo + 1)))) t).

Lemma table_lookup_image t r v : table_lookup t r = Some v -> In v (table_images t).
Proof.
  induction t as [|[[[lo hi] step] d] t IH]; simpl; [done|]. unfold table_images. simpl.
  rewrite in_app_iff. destruct (in_range lo hi r && _) eqn:E.
  - intros [= <-]. left. bool_hyps. ranges. apply in_map_iff.
    exists (Z.to_nat (r - lo)). split; [lia|]. apply in_seq. lia.
  - intros H. right. by apply IH.
Qed.

Lemma table_images_forall (P : Z -> bool) t r v :
  forallb P (table_images t) = true -> table_lookup t r = Some v -> P v = true.
Proof. intros H Hv. apply table_lookup_image in Hv. by apply (proj1 (forallb_forall _ _) H). Qed.

Lemma rune_lower_ok r : rune_ok r -> rune_ok (rune_lower r).
Proof.
  intros H. unfold rune_lower. destruct (r <? 128) eqn:E.
  - apply rune_ok_range in H. bool_hyps. destruct (in_range 65 90 r) eqn:E';
      apply rune_ok_range; ranges; lia.
  - destruct (table_lookup lower_table r) eqn:L; [|done].
    eapply (table_images_forall valid_rune); [|done]. by vm_compute.
Qed.

Lemma IsSpace_rune_lower r : IsSpace (rune_lower r) = true -> IsSpace r = true.
Proof.
  unfold rune_lower. destruct (r <? 128) eqn:E.
  - destruct (in_range 65 90 r) eqn:E'; [|done]. ranges. unfold IsSpace.
    rewrite !orb_true_iff, !Z.eqb_eq. ranges. lia.
  - destruct (table_lookup lower_table r) eqn:L; [|done]. simpl. intros Hs.
    assert (negb (IsSpace z) = true) as Hn.
    { eapply (table_images_forall (fun z => negb (IsSpace z))); [|done]. by vm_compute. }
    by rewrite Hs in Hn.
Qed.

(** The runes a table actually hits. *)
Definition table_domain (t : list (Z * Z * Z * Z)) : list Z :=
  concat (map (fun '(lo, hi, step, d) =>
    filter (fun r => (r - lo) mod step = 0)
      (map (fun i => lo + Z.of_nat i) (seq 0 (Z.to_nat (hi - lo + 1))))) t).

Lemma table_lookup_domain t r v : table_lookup t r = Some v -> In r (table_domain t).
Proof.
  induction t as [|[[[lo hi] step] d] t IH]; simpl; [done|]. unfold table_domain. simpl.
  rewrite in_app_iff. destruct (in_range lo hi r && _) eqn:E; [|by right; apply IH].
  intros _. left. bool_hyps. ranges. apply list_elem_of_In, list_elem_of_filter. split; [done|].
  apply list_elem_of_In, in_map_iff. exists (Z.to_nat (r - lo)). split; [lia|].
  apply in_seq. lia.
Qed.

Lemma rune_lower_idem r : rune_lower (rune_lower r) = rune_lower r.
Proof.
  unfold rune_lower at 2 3. destruct (r <? 128) eqn:E.
  - destruct (in_range 65 90 r) eqn:E'; unfold rune_lower.
    + assert ((r + 32 <? 128) = true /\ in_range 65 90 (r + 32) = false) as [-> ->]; [|done].
      split; ranges; lia.
    + by rewrite E, E'.
  - destruct (table_lookup lower_table r) as [v|] eqn:L.
    + assert (forallb (fun r => match table_lookup lower_table r with
                | Some v => rune_lower v =? v | None => true end)
                (table_domain lower_table) = true) as H by by vm_compute.
      rewrite forallb_forall in H. specialize (H r (table_lookup_domain _ _ _ L)).
      rewrite L in H. by apply Z.eqb_eq in H.
    + simpl. unfold rune_lower. by rewrite E, L.
Qed.

Lemma Forall_rune_lower l : Forall rune_ok l -> Forall rune_ok (map rune_lower l).
Proof. induction 1; simpl; constructor; [by apply rune_lower_ok | done]. Qed.

Lemma runes_ToLower s : runes (ToLower s) = map rune_lower (runes s).
Proof. apply runes_encode, Forall_rune_lower, runes_ok. Qed.

Lemma ToLower_idem s : ToLower (ToLower s) = ToLower s.
Proof.
  unfold ToLower at 1. rewrite runes_ToLower. unfold ToLower. f_equal.
  rewrite map_map. apply map_ext, rune_lower_idem.
Qed.
#[export] Hint Rewrite ToLower_idem : haze_rw.

(** ** Facts: trimmed text stays trimmed under [ToLower] *)

(** One step of decoding: a prefix of the text encodes the first rune, unless
    that rune is U+FFFD standing for a malformed byte. *)
Lemma runes_step a s1 : exists e rest r,
  String a s1 = e +:+ rest /\ runes (String a s1) = r :: runes rest /\
  (encoded r e \/ r = RuneError) /\ (String.length rest <= String.length s1)%nat.
Proof.
  assert (forall x y, byte_val x = y -> x = byte_of y) as Hb.
  { intros x y <-. apply byte_val_inj. symmetry. apply byte_val_of, byte_val_range. }
  pose proof (byte_val_range a) as Ra.
  assert (forall x, is_cont x = true -> x = byte_of (128 + cont_val x) /\ 0 <= cont_val x < 64)
    as Hc.
  { intros x Hx. unfold is_cont, cont_val in *. ranges. split; [apply Hb|]; lia. }
  assert (exists e rest r, String a s1 = e +:+ rest /\ RuneError :: runes s1 = r :: runes rest /\
    (encoded r e \/ r = RuneError) /\ (String.length rest <= String.length s1)%nat) as Hbad.
  { exists (String a ""), s1, RuneError. repeat split; auto. }
  cbn [runes]. destruct (byte_val a <? 128) eqn:E1; bool_hyps.
  { exists (String a ""), s1, (byte_val a). repeat split; [|lia].
    left. rewrite (Hb a (byte_val a)) at 2 by done. constructor. lia. }
  destruct (in_range 194 223 (byte_val a)) eqn:E2.
  { destruct s1 as [|a1 s2]; [done|]. destruct (is_cont a1) eqn:C1; [|done].
    eexists (String a (String a1 "")), s2, _. repeat split; [|simpl; lia].
    left. destruct (Hc a1 C1) as [Q1 ?]. rewrite Q1 at 2. ranges.
    rewrite (Hb a (192 + (byte_val a - 192))) at 2 by lia. constructor; lia. }
  destruct (in_range 224 239 (byte_val a)) eqn:E3.
  { destruct s1 as [|a1 [|a2 s3]]; [done|done|].
    destruct (second_ok (byte_val a) a1 && is_cont a2) eqn:C; [|done]. bool_hyps.
    assert (is_cont a1 = true) as C1.
    { unfold second_ok, is_cont in *. repeat case_match; bool_hyps; ranges; lia. }
    eexists (String a (String a1 (String a2 ""))), s3, _. repeat split; [|simpl; lia].
    left. destruct (Hc a1 C1) as [Q1 ?], (Hc a2) as [Q2 ?]; [done|].
    rewrite Q1 at 2. rewrite Q2 at 2. ranges.
    rewrite (Hb a (224 + (byte_val a - 224))) at 2 by lia.
    unfold second_ok, is_cont, cont_val in *.
    constructor; repeat case_match; bool_hyps; ranges; lia. }
  destruct (in_range 240 244 (byte_val a)) eqn:E4; [|done].
  destruct s1 as [|a1 [|a2 [|a3 s4]]]; [done|done|done|].
  destruct (second_ok (byte_val a) a1 && is_cont a2 && is_cont a3) eqn:C; [|done]. bool_hyps.
  assert (is_cont a1 = true) as C1.
  { unfold second_ok, is_cont in *. repeat case_match; bool_hyps; ranges; lia. }
  eexists (String a (String a1 (String a2 (String a3 "")))), s4, _. repeat split; [|simpl; lia].
  left. destruct (Hc a1 C1) as [Q1 ?], (Hc a2) as [Q2 ?], (Hc a3) as [Q3 ?]; [done..|].
  rewrite Q1 at 2. rewrite Q2 at 2. rewrite Q3 at 2. ranges.
  rewrite (Hb a (240 + (byte_val a - 240))) at 2 by lia.
  unfold second_ok, is_cont, cont_val in *.
  constructor; repeat case_match; bool_hyps; ranges; lia.
Qed.

Lemma IsSpace_RuneError r : r = RuneError -> IsSpace r = true -> False.
Proof. intros -> H. vm_compute in H. done. Qed.

Lemma head_space s r l : runes s = r :: l -> IsSpace r = true -> space_left (bytes_of s) = true.
Proof.
  destruct s as [|a s1]; [done|]. intros Hr Hs.
  destruct (runes_step a s1) as (e & rest & r' & Heq & H & He & _).
  rewrite Hr in H. injection H as <- _. rewrite Heq. destruct He as [He|He].
  - by rewrite (space_left_encoded r).
  - by destruct (IsSpace_RuneError r).
Qed.

Lemma runes_nil s : runes s = [] -> s = "".
Proof.
  destruct s as [|a s1]; [done|]. destruct (runes_step a s1) as (? & ? & ? & ? & -> & _). done.
Qed.

Lemma last_space s r l :
  runes s = l ++ [r] -> IsSpace r = true -> space_right (bytes_of s) = true.
Proof.
  intros Hr Hs. remember (String.length s) as n eqn:Hn.
  revert s l Hr Hn. induction (lt_wf n) as [n _ IH]. intros s l Hr ->.
  destruct s as [|a s1]; [by destruct l|].
  destruct (runes_step a s1) as (e & rest & r' & Heq & H & He & Hlen).
  rewrite H in Hr. rewrite Heq. destruct l as [|r0 l]; injection Hr as -> Hrest.
  - apply runes_nil in Hrest as ->. destruct He as [He|He]; [|by destruct (IsSpace_RuneError r)].
    pose proof (space_right_encoded r e "" He) as Hsp. simpl in Hsp. rewrite Hs in Hsp.
    rewrite <- Hsp. f_equal. rewrite bytes_of_app. apply app_nil_r.
  - assert (space_right (bytes_of rest) = true) as Hsp.
    { eapply (IH (String.length rest)); [simpl; lia|done|done]. }
    unfold space_right in *. rewrite bytes_of_app, rev_app_distr. by apply starts_space_app.
Qed.

Lemma trimmed_ToLower s : trimmed s -> trimmed (ToLower s).
Proof.
  intros [Hl Hr]. unfold trimmed, ToLower. pose proof (runes_ok s) as Hok. split.
  - destruct (runes s) as [|r l] eqn:E; [done|]. simpl. inversion Hok; subst.
    rewrite (space_left_encoded (rune_lower r)) by by apply encode_rune_encoded, rune_lower_ok.
    destruct (IsSpace (rune_lower r)) eqn:Es; [|done]. apply IsSpace_rune_lower in Es.
    by rewrite (head_space s r l) in Hl.
  - destruct (runes s) as [|r0 l0 _] eqn:E using rev_ind; [done|].
    apply Forall_app in Hok as [_ Hok]. inversion Hok; subst.
    rewrite map_app, encode_app. cbn [map encode].
    assert (encode_rune (rune_lower r0) +:+ "" = encode_rune (rune_lower r0)) as ->.
    { apply bytes_of_inj. rewrite bytes_of_app. apply app_nil_r. }
    rewrite (space_right_encoded (rune_lower r0)) by by apply encode_rune_encoded, rune_lower_ok.
    destruct (IsSpace (rune_lower r0)) eqn:Es; [|done]. apply IsSpace_rune_lower in Es.
    by rewrite (last_space s r0 l0) in Hr.
Qed.

Lemma TrimSpace_ToLower_TrimSpace s :
  TrimSpace (ToLower (TrimSpace s)) = ToLower (TrimSpace s).
Proof. apply trimmed_TrimSpace, trimmed_ToLower, TrimSpace_trimmed. Qed.
#[export] Hint Rewrite TrimSpace_ToLower_TrimSpace : haze_rw.

(** Clients reason about these by their lemmas and evaluate them with
    [vm_compute]. *)
#[global] Opaque TrimSpace ToLower ToUpper EqualFold.
