(* ===== verification/SampleCodec.v ===== *)
(** Text formats that are read back.  The concrete instances of the interfaces
    that stand for JSON and for encryption use them. *)

From S2P Require Import Prelude UnicodeTables GoStrings.

#[local] Open Scope Z_scope.
#[local] Open Scope string_scope.

(** Every byte after a mark, so that the end is known. *)
Fixpoint framed (s : string) : string :=
  match s with "" => "0" | String c s' => String "1" (String c (framed s')) end.

Fixpoint pos_text (p : positive) : string :=
  match p with xH => "." | xO q => String "0" (pos_text q) | xI q => String "1" (pos_text q) end.
Fixpoint read_pos (s : string) : option (positive * string) :=
  match s with
  | String c s' =>
      if Ascii.eqb c "." then Some (xH, s')
      else if Ascii.eqb c "0" then prod_map xO id <$> read_pos s' else prod_map xI id <$> read_pos s'
  | "" => None
  end.
Definition Z_text (z : Z) : string :=
  match z with Z0 => "z" | Zpos p => String "p" (pos_text p) | Zneg p => String "n" (pos_text p) end.
Definition read_Z (s : string) : option (Z * string) :=
  match s with
  | String c s' => if Ascii.eqb c "z" then Some (0, s')
                   else if Ascii.eqb c "p" then prod_map Zpos id <$> read_pos s' else prod_map Zneg id <$> read_pos s'
  | "" => None
  end.
Fixpoint read_framed (s : string) : option (string * string) :=
  match s with
  | String "1" (String c s') => prod_map (String c) id <$> read_framed s'
  | String _ s' => Some ("", s')
  | "" => None
  end.

Lemma read_pos_text p s : read_pos (pos_text p +:+ s) = Some (p, s).
Proof.
  induction p as [p IH|p IH|]; [..|done].
  - change (prod_map xI id <$> read_pos (pos_text p +:+ s) = Some (xI p, s)). by rewrite IH.
  - change (prod_map xO id <$> read_pos (pos_text p +:+ s) = Some (xO p, s)). by rewrite IH.
Qed.
Lemma read_Z_text z s : read_Z (Z_text z +:+ s) = Some (z, s).
Proof.
  destruct z as [|p|p]; [done|..].
  - change (prod_map Zpos id <$> read_pos (pos_text p +:+ s) = Some (Zpos p, s)). by rewrite read_pos_text.
  - change (prod_map Zneg id <$> read_pos (pos_text p +:+ s) = Some (Zneg p, s)). by rewrite read_pos_text.
Qed.
Lemma read_framed_text t s : read_framed (framed t +:+ s) = Some (t, s).
Proof.
  induction t as [|c t IH]; [done|].
  change (prod_map (String c) id <$> read_framed (framed t +:+ s) = Some (String c t, s)). by rewrite IH.
Qed.
Lemma framed_prefix s t x y : framed s +:+ x = framed t +:+ y -> s = t.
Proof.
  revert t. induction s as [|c s IH]; intros [|d t] E; cbn in E; try done.
  injection E as -> E. f_equal. by apply IH.
Qed.

(** A list, after its length. *)
Fixpoint read_list {A} (read : string -> option (A * string)) (n : nat) (s : string) : option (list A * string) :=
  match n with
  | O => Some ([], s)
  | S n' => r ← read s; prod_map (cons r.1) id <$> read_list read n' r.2
  end.
Definition list_text {A} (text : A -> string) (l : list A) : string :=
  Z_text (Z.of_nat (length l)) +:+ foldr (fun a acc => text a +:+ acc) "" l.
Definition read_list_text {A} (read : string -> option (A * string)) (s : string) : option (list A * string) :=
  r ← read_Z s; read_list read (Z.to_nat r.1) r.2.

Lemma read_list_text_text {A} (read : string -> option (A * string)) (text : A -> string) l s :
  (forall a s, In a l -> read (text a +:+ s) = Some (a, s)) -> read_list_text read (list_text text l +:+ s) = Some (l, s).
Proof.
  intros Hr. unfold read_list_text, list_text. rewrite string_app_assoc, read_Z_text. cbn [mbind option_bind fst snd].
  rewrite Nat2Z.id. induction l as [|a l IH]; [done|]. cbn [length foldr read_list].
  rewrite string_app_assoc, Hr by by left. cbn [mbind option_bind fst snd].
  rewrite IH; [done|]. intros b t Hb. apply Hr. by right.
Qed.
