(* ===== verification/GoTime.v ===== *)
(** Instants, durations and RFC 3339 text, as the package [time] defines them.
    A [time.Time] is its instant: nanoseconds since the Unix epoch, in [Z].
    A [time.Duration] is a 64-bit count of nanoseconds. *)

From S2P Require Import Prelude UnicodeTables GoStrings.

#[local] Open Scope Z_scope.

(** ** Durations *)

Definition Millisecond : Z := 1000000.
Definition Second : Z := 1000 * Millisecond.
Definition Minute : Z := 60 * Second.
Definition Hour : Z := 60 * Minute.

(** ** The civil calendar

    Days are counted from 1970-01-01 in the proleptic Gregorian calendar. *)

Definition era_days : Z := 146097.

(** Year of the era (from 1 March), month and day of a day of a 400 year era. *)
Definition civil_of_era_day (doe : Z) : Z * Z * Z :=
  let yoe := (doe - doe / 1460 + doe / 36524 - doe / 146096) / 365 in
  let doy := doe - (365 * yoe + yoe / 4 - yoe / 100) in
  let mp := (5 * doy + 2) / 153 in
  let d := doy - (153 * mp + 2) / 5 + 1 in
  let m := if mp <? 10 then mp + 3 else mp - 9 in
  (yoe, m, d).

Definition era_day_of_civil (yoe m d : Z) : Z :=
  let doy := (153 * (if 2 <? m then m - 3 else m + 9) + 2) / 5 + d - 1 in
  yoe * 365 + yoe / 4 - yoe / 100 + doy.

Definition civil_of_days (days : Z) : Z * Z * Z :=
  let z := days + 719468 in
  let '(yoe, m, d) := civil_of_era_day (z mod era_days) in
  (yoe + (z / era_days) * 400 + (if m <=? 2 then 1 else 0), m, d).

Definition days_of_civil (y m d : Z) : Z :=
  let y' := y - (if m <=? 2 then 1 else 0) in
  (y' / 400) * era_days + era_day_of_civil (y' mod 400) m d - 719468.

Definition is_leap (y : Z) : bool :=
  (y mod 4 =? 0) && (negb (y mod 100 =? 0) || (y mod 400 =? 0)).

(** [time.daysIn]. *)
Definition daysIn (m y : Z) : Z :=
  if m =? 2 then (if is_leap y then 29 else 28)
  else if (m =? 4) || (m =? 6) || (m =? 9) || (m =? 11) then 30 else 31.

(** ** Instants *)

Definition day_ns : Z := 24 * Hour.

(** [time.Time{}]: 1 January of year 1. *)
Definition zeroTime : Z := -62135596800 * Second.
Definition IsZero (t : Z) : bool := t =? zeroTime.
Definition Before (t u : Z) : bool := t <? u.
Definition After (t u : Z) : bool := u <? t.
Definition Add (t d : Z) : Z := t + d.
(** [Time.Sub] saturates at the bounds of [Duration]. *)
Definition Sub (t u : Z) : Z := Z.max min_int64 (Z.min max_int64 (t - u)).

(** ** Formatting *)

Definition digit (n : Z) : Ascii.ascii := byte_of (48 + n mod 10).

(** [appendInt(b, n, w)] for [0 <= n < 10^w]: [w] digits. *)
Fixpoint pad (w : nat) (n : Z) : string :=
  match w with
  | O => EmptyString
  | S w' => String (digit (n / 10 ^ Z.of_nat w')) (pad w' n)
  end.

(** The fraction digits with their trailing zeros dropped. *)
Fixpoint drop_zeros (s : string) : string :=
  match s with
  | EmptyString => EmptyString
  | String a s' =>
      match drop_zeros s' with
      | EmptyString => if Ascii.eqb a (digit 0) then EmptyString else String a EmptyString
      | s'' => String a s''
      end
  end.

(** [appendNano] for the [.999999999] verb. *)
Definition format_nano (ns : Z) : string :=
  match drop_zeros (pad 9 ns) with
  | EmptyString => EmptyString
  | f => "." +:+ f
  end.

Definition format_seconds (t : Z) : string :=
  let '(y, m, d) := civil_of_days (t / day_ns) in
  let sod := (t mod day_ns) / Second in
  pad 4 y +:+ "-" +:+ pad 2 m +:+ "-" +:+ pad 2 d +:+ "T" +:+
  pad 2 (sod / 3600) +:+ ":" +:+ pad 2 ((sod / 60) mod 60) +:+ ":" +:+ pad 2 (sod mod 60).

(** [t.UTC().Format(time.RFC3339)] and [t.UTC().Format(time.RFC3339Nano)], for
    years of four digits. *)
Definition FormatRFC3339 (t : Z) : string := format_seconds t +:+ "Z".
Definition FormatRFC3339Nano (t : Z) : string :=
  format_seconds t +:+ format_nano (t mod Second) +:+ "Z".

(** [Format(time.RFC3339Nano)] of a time kept in a zone [off] seconds east of
    UTC at that time. *)
Definition format_offset (off : Z) : string :=
  if off =? 0 then "Z"
  else
    let zone := Z.quot off 60 in
    (if zone <? 0 then "-" else "+") +:+ pad 2 (Z.abs zone / 60) +:+ ":" +:+ pad 2 (Z.abs zone mod 60).
Definition FormatRFC3339NanoIn (off t : Z) : string :=
  format_seconds (t + off * Second) +:+ format_nano (t mod Second) +:+ format_offset off.

(** ** Parsing *)

Definition digit_val (a : Ascii.ascii) : option Z :=
  if is_digit (byte_val a) then Some (byte_val a - 48) else None.

(** Exactly [w] digits. *)
Fixpoint get_digits (w : nat) (acc : Z) (s : string) : option (Z * string) :=
  match w, s with
  | O, _ => Some (acc, s)
  | S w', String a s' => d ← digit_val a; get_digits w' (acc * 10 + d) s'
  | S _, EmptyString => None
  end.

(** [getnum(value, false)]: one or two digits. *)
Definition getnum_loose (s : string) : option (Z * string) :=
  match s with
  | String a s' =>
      d ← digit_val a;
      match s' with
      | String b s'' =>
          match digit_val b with
          | Some e => Some (d * 10 + e, s'')
          | None => Some (d, s')
          end
      | EmptyString => Some (d, s')
      end
  | EmptyString => None
  end.

(** [getnum(value, true)]: two digits. *)
Definition getnum (s : string) : option (Z * string) := get_digits 2 0 s.

Definition expect (c : Ascii.ascii) (s : string) : option string :=
  match s with
  | String a s' => if Ascii.eqb a c then Some s' else None
  | EmptyString => None
  end.

(** A value the text gives, with its range check. *)
Definition in_bounds (lo hi : Z) (v : Z) : option unit :=
  if in_range lo hi v then Some () else None.

(** [parseNanoseconds]: the first nine digits count; [w] is the weight of the
    next digit. *)
Fixpoint frac_digits (w : Z) (s : string) : Z * string :=
  match s with
  | String a s' =>
      match digit_val a with
      | Some d => let '(v, rest) := frac_digits (w / 10) s' in (d * w + v, rest)
      | None => (0, s)
      end
  | EmptyString => (0, s)
  end.

Definition is_comma_or_period (a : Ascii.ascii) : bool :=
  (byte_val a =? 44) || (byte_val a =? 46).

Definition parse_frac (s : string) : Z * string :=
  match s with
  | String a (String b s' as s1) =>
      if is_comma_or_period a && is_digit (byte_val b) then frac_digits 100000000 s1 else (0, s)
  | _ => (0, s)
  end.

(** The zone: [Z], or a signed [hh:mm], which must end the text.  Offsets of
    24 hours and of 60 minutes are let through, as in Go. *)
Definition parse_zone (s : string) : option Z :=
  match s with
  | String a s1 =>
      if Ascii.eqb a (byte_of 90) then (if (s1 =? "")%string then Some 0 else None)
      else
        '(h, s2) ← getnum s1; s3 ← expect (byte_of 58) s2; '(m, s4) ← getnum s3;
        _ ← in_bounds 0 24 h; _ ← in_bounds 0 60 m;
        if (s4 =? "")%string then
          (if Ascii.eqb a (byte_of 43) then Some ((h * 60 + m) * 60)
           else if Ascii.eqb a (byte_of 45) then Some (- ((h * 60 + m) * 60)) else None)
        else None
  | EmptyString => None
  end.

(** [time.Parse] for the layouts [RFC3339Nano] and [RFC3339].  Both read an
    optional fraction after the seconds, so they accept the same texts with the
    same instants; so does the strict fast path the library tries first, on the
    texts it accepts. *)
Definition time_Parse (s : string) : option Z :=
  '(y, s) ← get_digits 4 0 s; s ← expect (byte_of 45) s;
  '(mo, s) ← getnum s; _ ← in_bounds 1 12 mo; s ← expect (byte_of 45) s;
  '(d, s) ← getnum s; s ← expect (byte_of 84) s;
  '(h, s) ← getnum_loose s; _ ← in_bounds 0 23 h; s ← expect (byte_of 58) s;
  '(mi, s) ← getnum s; _ ← in_bounds 0 59 mi; s ← expect (byte_of 58) s;
  '(sec, s) ← getnum s; _ ← in_bounds 0 59 sec;
  let '(ns, s) := parse_frac s in
  off ← parse_zone s;
  _ ← in_bounds 1 (daysIn mo y) d;
  Some ((days_of_civil y mo d * 86400 + h * 3600 + mi * 60 + sec - off) * Second + ns).

(** ** The calendar *)

(** [f] holds of the [n] integers from [z] up. *)
Fixpoint all_from (f : Z -> bool) (z : Z) (n : nat) : bool :=
  match n with
  | O => true
  | S n' => f z && all_from f (z + 1) n'
  end.

Lemma all_from_spec f z n x : all_from f z n = true -> z <= x < z + Z.of_nat n -> f x = true.
Proof.
  revert z. induction n as [|n IH]; intros z H Hx; [lia|]. simpl in H. bool_hyps.
  destruct (decide (z = x)) as [->|]; [done|]. apply (IH (z + 1)); [done|lia].
Qed.

(** The first and the last day of a year of the era, and the year of a day. *)
Definition year_first (y : Z) : Z := 365 * y + y / 4 - y / 100.
Definition year_last (y : Z) : Z := if y =? 399 then era_days - 1 else year_first (y + 1) - 1.
Definition days_skipping (doe : Z) : Z := doe - doe / 1460 + doe / 36524 - doe / 146096.

Lemma days_skipping_mono x y : x <= y -> days_skipping x <= days_skipping y.
Proof.
  intros H. unfold days_skipping. change 146096 with (36524 * 4).
  rewrite <- !Z.div_div by lia.
  pose proof (Z.div_le_mono x y 36524 ltac:(lia) H).
  revert H0. generalize (x / 36524) (y / 36524). intros a b Hab. zdivmod.
Qed.

(** The year arithmetic is right at the ends of every year of the era. *)
Definition year_ok (y : Z) : bool :=
  (days_skipping (year_first y) / 365 =? y) && (days_skipping (year_last y) / 365 =? y) &&
  (year_last y - year_first y =? (if is_leap (y + 1) then 365 else 364)).
Lemma years_ok : all_from year_ok 0 400 = true.
Proof. vm_compute. reflexivity. Qed.

(** The month arithmetic is right on every day of a year. *)
Definition month_day (doy : Z) : Z * Z :=
  let mp := (5 * doy + 2) / 153 in
  (if mp <? 10 then mp + 3 else mp - 9, doy - (153 * mp + 2) / 5 + 1).
Definition day_ok (doy : Z) : bool :=
  let '(m, d) := month_day doy in
  ((153 * (if 2 <? m then m - 3 else m + 9) + 2) / 5 + d - 1 =? doy) &&
  in_range 1 12 m && in_range 1 (daysIn m (if doy =? 365 then 4 else 1)) d &&
  Bool.eqb (m <=? 2) (306 <=? doy).
Lemma days_ok : all_from day_ok 0 366 = true.
Proof. vm_compute. reflexivity. Qed.

Lemma year_of_day doe : 0 <= doe < era_days ->
  let y := days_skipping doe / 365 in
  0 <= y <= 399 /\ year_first y <= doe <= year_last y.
Proof.
  intros H y. assert (0 <= y <= 399) as Hy.
  { unfold y. pose proof (days_skipping_mono 0 doe ltac:(lia)).
    pose proof (days_skipping_mono doe 146096 ltac:(unfold era_days in H; lia)).
    change (days_skipping 0) with 0 in *. change (days_skipping 146096) with 145999 in *. zdivmod. }
  assert (forall z, 0 <= z <= 399 -> days_skipping (year_first z) / 365 = z /\
    days_skipping (year_last z) / 365 = z) as Hok.
  { intros z Hz. pose proof (all_from_spec _ _ _ z years_ok ltac:(lia)) as E.
    unfold year_ok in E. by bool_hyps. }
  assert (forall a b, a <= b -> days_skipping a / 365 <= days_skipping b / 365) as Hmono.
  { intros a b Hab. apply Z.div_le_mono; [lia|]. by apply days_skipping_mono. }
  split; [done|]. split.
  - destruct (Z.le_gt_cases (year_first y) doe) as [|Hlt]; [done|].
    destruct (decide (y = 0)) as [->|]; [change (year_first 0) with 0 in *; lia|].
    destruct (Hok (y - 1) ltac:(lia)) as [_ Hl]. unfold year_last in Hl.
    replace (y - 1 =? 399) with false in Hl by lia.
    pose proof (Hmono doe (year_first y - 1) ltac:(lia)).
    replace (y - 1 + 1) with y in Hl by lia. fold y in H0. lia.
  - destruct (Z.le_gt_cases doe (year_last y)) as [|Hlt]; [done|].
    unfold year_last in Hlt. destruct (y =? 399) eqn:E; [lia|]. bool_hyps.
    destruct (Hok (y + 1) ltac:(lia)) as [Hf _].
    pose proof (Hmono (year_first (y + 1)) doe ltac:(lia)). fold y in H0. lia.
Qed.

Lemma year_last_before y : 0 <= y < 399 -> year_last y < year_first 399.
Proof.
  intros H. unfold year_last, year_first. replace (y =? 399) with false by lia.
  change (399 / 4) with 99. change (399 / 100) with 3. zdivmod.
Qed.

Lemma daysIn_leap m y y' : is_leap y = is_leap y' -> daysIn m y = daysIn m y'.
Proof. unfold daysIn. by intros ->. Qed.
Lemma daysIn_le m y y' : is_leap y = false -> daysIn m y <= daysIn m y'.
Proof. unfold daysIn. intros ->. destruct (m =? 2), (is_leap y'); lia. Qed.

Lemma era_day_facts doe yoe m d : 0 <= doe < era_days -> civil_of_era_day doe = (yoe, m, d) ->
  era_day_of_civil yoe m d = doe /\ 1 <= m <= 12 /\
  1 <= d <= daysIn m (yoe + (if m <=? 2 then 1 else 0)) /\ 0 <= yoe <= 399 /\
  (doe < 146037 <-> yoe + (if m <=? 2 then 1 else 0) <= 399).
Proof.
  intros H Hc. destruct (year_of_day doe H) as [Hy Hdoy]. unfold civil_of_era_day in Hc.
  fold (days_skipping doe) in Hc. set (y := days_skipping doe / 365) in *.
  fold (year_first y) in Hc. set (doy := doe - year_first y) in *.
  assert (0 <= doy <= 365 /\ (doy = 365 -> is_leap (y + 1) = true)) as [Hr Hleap].
  { pose proof (all_from_spec _ _ _ y years_ok ltac:(lia)) as E. unfold year_ok in E. bool_hyps.
    destruct (is_leap (y + 1)); split; lia. }
  pose proof (all_from_spec _ _ _ doy days_ok ltac:(lia)) as E.
  unfold day_ok, month_day in E. injection Hc as <- Hm Hd. rewrite Hm, Hd in E. bool_hyps.
  match goal with H : Bool.eqb _ _ = true |- _ => apply eqb_prop in H as Hfeb end. ranges.
  assert (era_day_of_civil y m d = doe) as He.
  { unfold era_day_of_civil. unfold doy, year_first in *. lia. }
  assert (d <= daysIn m (y + (if m <=? 2 then 1 else 0))) as Hdim.
  { destruct (doy =? 365) eqn:E365; bool_hyps.
    - replace (306 <=? doy) with true in Hfeb by lia. rewrite Hfeb.
      rewrite (daysIn_leap m (y + 1) 4) by by apply Hleap. lia.
    - pose proof (daysIn_le m 1 (y + (if m <=? 2 then 1 else 0)) ltac:(done)). lia. }
  split_and!; try done; try lia.
  rewrite Hfeb. assert (doe = year_first y + doy) as Hdoe by (unfold doy; lia).
  assert (year_first 399 = 145731) as H399 by done.
  destruct (decide (y = 399)) as [Hy9|].
  - rewrite Hy9 in *. destruct (306 <=? doy) eqn:E306; bool_hyps; lia.
  - pose proof (year_last_before y ltac:(lia)). destruct (306 <=? doy); lia.
Qed.

Lemma is_leap_400 y k : is_leap (y + k * 400) = is_leap y.
Proof.
  unfold is_leap.
  replace ((y + k * 400) mod 4) with (y mod 4) by zdivmod.
  replace ((y + k * 400) mod 100) with (y mod 100) by zdivmod.
  by replace ((y + k * 400) mod 400) with (y mod 400) by zdivmod.
Qed.

Lemma daysIn_400 m y k : daysIn m (y + k * 400) = daysIn m y.
Proof. unfold daysIn. by rewrite is_leap_400. Qed.

Lemma civil_of_days_spec days y m d : civil_of_days days = (y, m, d) ->
  days_of_civil y m d = days /\ 1 <= m <= 12 /\ 1 <= d <= daysIn m y.
Proof.
  unfold civil_of_days. set (z := days + 719468).
  destruct (civil_of_era_day (z mod era_days)) as [[yoe m'] d'] eqn:E. intros [= <- <- <-].
  pose proof (Z.mod_pos_bound z era_days ltac:(done)) as Hb.
  destruct (era_day_facts _ _ _ _ Hb E) as (He & Hm & Hd & Hy & _).
  set (b := if m' <=? 2 then 1 else 0) in *.
  split; [|split; [done|]].
  - unfold days_of_civil. fold b.
    replace (yoe + z / era_days * 400 + b - b) with (yoe + z / era_days * 400) by lia.
    rewrite Z.div_add, Z.mod_add, Z.div_small, Z.mod_small by lia. rewrite He.
    pose proof (Z.div_mod z era_days ltac:(done)). lia.
  - replace (yoe + z / era_days * 400 + b) with (yoe + b + z / era_days * 400) by lia.
    by rewrite daysIn_400.
Qed.

(** ** Digits *)

Lemma digit_val_digit n : digit_val (digit n) = Some (n mod 10).
Proof.
  unfold digit_val, digit. pose proof (Z.mod_pos_bound n 10 ltac:(lia)).
  rewrite byte_val_of by lia. unfold is_digit.
  replace (in_range 48 57 (48 + n mod 10)) with true by (symmetry; ranges; lia).
  f_equal. lia.
Qed.

Lemma is_digit_digit n : is_digit (byte_val (digit n)) = true.
Proof.
  unfold digit. pose proof (Z.mod_pos_bound n 10 ltac:(lia)).
  rewrite byte_val_of by lia. unfold is_digit. ranges. lia.
Qed.

(** The value of the last [w + 1] digits of [n], by its leading digit. *)
Lemma mod_pow_step n w :
  n mod 10 ^ Z.of_nat (S w) = (n / 10 ^ Z.of_nat w) mod 10 * 10 ^ Z.of_nat w + n mod 10 ^ Z.of_nat w.
Proof.
  assert (0 < 10 ^ Z.of_nat w) by (apply Z.pow_pos_nonneg; lia).
  rewrite Nat2Z.inj_succ, Z.pow_succ_r by lia.
  rewrite (Z.mul_comm 10), Z.rem_mul_r by lia. lia.
Qed.

Lemma get_digits_pad w acc n s :
  get_digits w acc (pad w n +:+ s) =
    Some (acc * 10 ^ Z.of_nat w + n mod 10 ^ Z.of_nat w, s).
Proof.
  revert acc. induction w as [|w IH]; intros acc.
  - simpl. rewrite Z.mod_1_r. do 2 f_equal. lia.
  - simpl. rewrite digit_val_digit. simpl.
    rewrite IH, mod_pow_step. do 2 f_equal.
    rewrite Nat2Z.inj_succ, Z.pow_succ_r by lia. lia.
Qed.

Lemma getnum_pad n s : 0 <= n < 100 -> getnum (pad 2 n +:+ s) = Some (n, s).
Proof.
  intros. unfold getnum. rewrite get_digits_pad. do 2 f_equal.
  change (10 ^ Z.of_nat 2) with 100. rewrite Z.mod_small; lia.
Qed.

Lemma getnum_loose_pad n s : 0 <= n < 100 -> getnum_loose (pad 2 n +:+ s) = Some (n, s).
Proof.
  intros. simpl. rewrite !digit_val_digit. simpl.
  do 2 f_equal. change (10 ^ Z.of_nat 1) with 10. change (10 ^ Z.of_nat 0) with 1. zdivmod.
Qed.

Lemma expect_lit c a s : a = c -> expect c (String a "" +:+ s) = Some s.
Proof. intros ->. simpl. by rewrite Ascii.eqb_refl. Qed.

Lemma bind_some {A B} (f : A -> option B) a : Some a ≫= f = f a.
Proof. done. Qed.

Lemma in_bounds_ok lo hi v : lo <= v <= hi -> in_bounds lo hi v = Some ().
Proof. intros H. unfold in_bounds. by replace (in_range lo hi v) with true by (symmetry; ranges; lia). Qed.

(** ** Fractions *)

Lemma frac_digits_cons w a s : is_digit (byte_val a) = true ->
  frac_digits w (String a s) =
    let '(v, rest) := frac_digits (w / 10) s in ((byte_val a - 48) * w + v, rest).
Proof. intros H. cbn [frac_digits]. unfold digit_val. by rewrite H. Qed.

Lemma frac_drop_zeros w p :
  Forall (fun a => is_digit (byte_val a) = true) (bytes_of p) ->
  frac_digits w (drop_zeros p +:+ "Z") = frac_digits w (p +:+ "Z").
Proof.
  revert w. induction p as [|a p IH]; intros w Hp; [done|].
  inversion Hp as [|? ? Ha Hp']; subst. specialize (IH (w / 10) Hp').
  change (String a p +:+ "Z") with (String a (p +:+ "Z")).
  rewrite (frac_digits_cons w a (p +:+ "Z")), <- IH by done.
  cbn [drop_zeros]. destruct (drop_zeros p) as [|b q] eqn:E.
  - destruct (Ascii.eqb a (digit 0)) eqn:Ez.
    + by apply Ascii.eqb_eq in Ez as ->.
    + by rewrite <- frac_digits_cons.
  - by rewrite <- frac_digits_cons.
Qed.

Lemma frac_digits_pad w n :
  frac_digits (10 ^ Z.of_nat w) (pad (S w) n +:+ "Z") = (n mod 10 ^ Z.of_nat (S w), "Z").
Proof.
  assert (forall w n, frac_digits (10 ^ Z.of_nat w / 10) (pad w n +:+ "Z")
            = (n mod 10 ^ Z.of_nat w, "Z")) as H.
  { clear. induction w as [|w IH]; intros n.
    - simpl. by rewrite Z.mod_1_r.
    - change (pad (S w) n +:+ "Z") with (String (digit (n / 10 ^ Z.of_nat w)) (pad w n +:+ "Z")).
      rewrite frac_digits_cons by apply is_digit_digit.
      replace (byte_val (digit (n / 10 ^ Z.of_nat w)) - 48) with ((n / 10 ^ Z.of_nat w) mod 10).
      2: { unfold digit. pose proof (Z.mod_pos_bound (n / 10 ^ Z.of_nat w) 10 ltac:(lia)).
           rewrite byte_val_of; lia. }
      replace (10 ^ Z.of_nat (S w) / 10) with (10 ^ Z.of_nat w).
      + by rewrite IH, mod_pow_step.
      + rewrite Nat2Z.inj_succ, Z.pow_succ_r by lia.
        by rewrite Z.mul_comm, Z.div_mul by done. }
  rewrite <- H. f_equal. rewrite Nat2Z.inj_succ, Z.pow_succ_r by lia.
  by rewrite Z.mul_comm, Z.div_mul by done.
Qed.

Lemma pad_digits w n : Forall (fun a => is_digit (byte_val a) = true) (bytes_of (pad w n)).
Proof. induction w; simpl; constructor; [apply is_digit_digit | done]. Qed.

Lemma drop_zeros_digits p :
  Forall (fun a => is_digit (byte_val a) = true) (bytes_of p) ->
  Forall (fun a => is_digit (byte_val a) = true) (bytes_of (drop_zeros p)).
Proof.
  induction p as [|a p IH]; intros H; [done|]. inversion H as [|? ? Ha Hp]; subst.
  specialize (IH Hp). cbn [drop_zeros]. destruct (drop_zeros p) as [|b q].
  - destruct (Ascii.eqb a (digit 0)); [done | by constructor].
  - by constructor.
Qed.

Lemma parse_format_nano ns : 0 <= ns < Second -> parse_frac (format_nano ns +:+ "Z") = (ns, "Z").
Proof.
  intros Hns. unfold format_nano.
  pose proof (frac_drop_zeros (10 ^ Z.of_nat 8) _ (pad_digits 9 ns)) as H.
  rewrite frac_digits_pad in H. change (10 ^ Z.of_nat 9) with Second in H.
  rewrite Z.mod_small in H by done.
  pose proof (drop_zeros_digits _ (pad_digits 9 ns)) as Hd.
  destruct (drop_zeros (pad 9 ns)) as [|a f]; [by injection H as <-|].
  inversion Hd as [|? ? Ha _]; subst. simpl in H |- *. by rewrite Ha.
Qed.

(** ** The round trip *)

(** Instants whose UTC year has at most four digits: 0000-01-01 up to
    10000-01-01. *)
Definition formattable (t : Z) : Prop := -62167219200 * Second <= t < 253402300800 * Second.

Lemma civil_year_range days y m d : civil_of_days days = (y, m, d) ->
  -719528 <= days < 2932897 -> 0 <= y <= 9999.
Proof.
  unfold civil_of_days. set (z := days + 719468).
  destruct (civil_of_era_day (z mod era_days)) as [[yoe m'] d'] eqn:E. intros [= <- <- <-] Hr.
  pose proof (Z.mod_pos_bound z era_days ltac:(done)) as Hb.
  destruct (era_day_facts _ _ _ _ Hb E) as (_ & _ & _ & Hy & Hl).
  pose proof (Z.div_mod z era_days ltac:(done)) as Hz. unfold era_days in *.
  destruct (m' <=? 2); lia.
Qed.

Lemma seconds_split t :
  let days := t / day_ns in
  let sod := (t mod day_ns) / Second in
  t = (days * 86400 + sod / 3600 * 3600 + (sod / 60) mod 60 * 60 + sod mod 60) * Second + t mod Second /\
  0 <= sod < 86400.
Proof. cbv zeta. unfold day_ns, Hour, Minute, Second, Millisecond. zdivmod. Qed.

(** Run the parser over text laid out by [format_seconds]. *)
Ltac parse_steps :=
  repeat first
    [ progress cbv beta iota
    | rewrite bind_some
    | rewrite expect_lit by done
    | rewrite getnum_pad by zdivmod
    | rewrite getnum_loose_pad by zdivmod
    | rewrite (in_bounds_ok 1 12) by zdivmod
    | rewrite (in_bounds_ok 0 23) by zdivmod
    | rewrite (in_bounds_ok 0 59) by zdivmod ].

(** The text of an instant parses back to it: the predicted start and finish
    the planner keeps as text are the instants it computed. *)
Lemma time_Parse_FormatRFC3339Nano t :
  formattable t -> time_Parse (FormatRFC3339Nano t) = Some t.
Proof.
  intros Hf. unfold FormatRFC3339Nano, format_seconds.
  destruct (seconds_split t) as [Ht Hs].
  set (days := t / day_ns) in *. set (sod := (t mod day_ns) / Second) in *.
  destruct (civil_of_days days) as [[y m] d] eqn:E.
  assert (0 <= y <= 9999) as Hy.
  { eapply civil_year_range; [done|].
    unfold formattable, days, day_ns, Hour, Minute, Second, Millisecond in *. zdivmod. }
  destruct (civil_of_days_spec _ _ _ _ E) as (Hd & Hm & Hdd).
  assert (1 <= d <= 31) as Hd31.
  { unfold daysIn in Hdd. repeat case_match; lia. }
  unfold time_Parse. rewrite !string_app_assoc, get_digits_pad.
  rewrite Z.add_0_l, (Z.mod_small y) by (change (10 ^ Z.of_nat 4) with 10000; lia). parse_steps.
  rewrite parse_format_nano by by apply Z.mod_pos_bound.
  change (parse_zone "Z") with (Some 0). parse_steps.
  rewrite (in_bounds_ok 1 (daysIn m y)) by done. parse_steps.
  f_equal. rewrite Hd, Z.sub_0_r. by symmetry.
Qed.
