(* ===== verification/GoValue.v ===== *)
(** Dynamic values.  Events and alerts travel through the services as
    [map[string]any]; this file has the Go structs an [any] may hold (the alert
    packet and its parts, [internal/alertmodel/packet.go]), the type [any]
    itself, [fmt.Sprint], and the accessors of [internal/playlist/bridge.go].

    A [float64] is an IEEE 754 datum of the Standard Library's [SpecFloat]. *)

From stdpp Require Import pretty sorting.
From Stdlib Require Import SpecFloat.
From S2P Require Import Prelude UnicodeTables GoStrings GoTime.

#[local] Open Scope Z_scope.
#[local] Set Warnings "-register-all".

(** ** Floats *)

Abbreviation float64 := spec_float.

Definition f64_of_Z (z : Z) : float64 :=
  match z with
  | Z0 => S754_zero false
  | _ => binary_normalize 53 1024 z 0 false
  end.
Definition f64_mul (x y : float64) : float64 := SFmul 53 1024 x y.
Definition f64_ltb (x y : float64) : bool := SFltb x y.
Definition f64_leb (x y : float64) : bool := SFleb x y.
Definition f64_eqb (x y : float64) : bool := SFeqb x y.

(** [int(x)] truncates toward zero; NaN, infinities and values out of range
    give the most negative integer, as on amd64. *)
Definition f64_trunc (x : float64) : Z :=
  match x with
  | S754_zero _ => 0
  | S754_finite s m e =>
      let q := if 0 <=? e then Z.pos m * 2 ^ e else Z.pos m / 2 ^ (- e) in
      let v := if s then - q else q in
      if in_range min_int64 max_int64 v then v else min_int64
  | _ => min_int64
  end.

(** ** The alert packet ([packet.go]) *)

Record Content := MkContent {
  Title : string; Headline : string; Event : string; EventName : string;
  Severity : string; Urgency : string; Certainty : string; Description : string;
  Instruction : string; CustomText : string; BackgroundColor : string }.

Record Timing := MkTiming {
  SentAt : string; EffectiveAt : string; OnsetAt : string; ExpiresAt : string;
  ScheduledFor : string }.

Record ThreatArea := MkThreatArea {
  TA_Status : string; TA_Description : string; Polygons : list string;
  CAPCPLocations : list string }.

Record GeoPoint := MkGeoPoint { Latitude : float64; Longitude : float64 }.

Record StormInfo := MkStormInfo {
  Speed : string; SpeedValue : option float64; SpeedUnit : string;
  DirectionDegrees : option float64; GeometryType : string; Points : list GeoPoint;
  StormTime : string; MotionDescription : string; PositionDescription : string;
  ReferenceLocationPoints : string }.

Record LocationIdentifier := MkLocationIdentifier {
  Authority : string; Scheme : string; IdentValue : string }.

Record LocationReference := MkLocationReference {
  CanonicalID : string; CandidateID : string; LocName : string; LocKind : string;
  Country : string; Region : string;
  RawIdentifiers : list LocationIdentifier; CanonicalIdentifiers : list LocationIdentifier;
  MatchScore : float64; MatchConfidence : string; MatchMethod : string;
  SourceQuality : float64; CatalogGeneration : string; Actionable : bool; Ambiguous : bool }.

Record Areas := MkAreas {
  Names : list string; Codes : list string; Locations : list LocationReference;
  ThreatAreas : list ThreatArea }.

Record SAME := MkSAME {
  Include : bool; SuppressedReason : string; SameEvent : string; SameEventName : string;
  EventSource : string; EventReason : string; EventConfidence : string;
  AlertClass : string; Phenomenon : string; Originator : string; OriginatorName : string;
  WeatherService : string; SameLocations : list string; Duration : string;
  SameSentAt : string; BeginsAt : string; SameExpiresAt : string; Tone : string;
  Callsign : string; Header : string; Translation : string }.

Record Audio := MkAudio {
  URL : string; MimeType : string; Language : string; AudioDescription : string;
  Authoritative : bool; Path : string; Format : string; SampleRate : Z; Channels : Z;
  Bytes : Z; AudioSource : string }.

Record Options := MkOptions { BroadcastImmediate : bool; PrependSAMETranslation : bool }.

Record Presentation := MkPresentation { SpeechText : string; BannerText : string }.

(** [M] is the type of the [Meta] map, [map[string]any] below. *)
Record PacketOf (M : Type) := MkPacket {
  Version : Z; ID : string; Source : string; FeedID : string; FeedIDs : list string;
  MessageType : string; PContent : Content; PTiming : Timing; PAreas : Areas;
  Storm : option StormInfo; PSAME : option SAME; PAudio : option Audio;
  POptions : Options; PPresentation : Presentation; Meta : M }.
Arguments MkPacket {M}.
Arguments Version {M}. Arguments ID {M}. Arguments Source {M}. Arguments FeedID {M}.
Arguments FeedIDs {M}. Arguments MessageType {M}. Arguments PContent {M}.
Arguments PTiming {M}. Arguments PAreas {M}. Arguments Storm {M}. Arguments PSAME {M}.
Arguments PAudio {M}. Arguments POptions {M}. Arguments PPresentation {M}. Arguments Meta {M}.

(** ** [any] *)

Inductive any : Type :=
| ANil
| ABool (b : bool)
| AString (s : string)
| AInt (z : Z)
| AInt64 (z : Z)
| AFloat (f : float64)
| ANumber (s : string)                        (* json.Number *)
| AStrings (l : list string)                  (* []string *)
| AList (l : list any)                        (* []any *)
| AMap (m : gmap string any)                  (* map[string]any *)
| APacket (p : PacketOf (gmap string any))    (* alertmodel.Packet *)
| APacketPtr (p : option (PacketOf (gmap string any)))
| ALocationReferences (l : list LocationReference)
| AThreatAreas (l : list ThreatArea)
| AStorm (s : StormInfo)
| AStormPtr (s : option StormInfo).

Abbreviation Packet := (PacketOf (gmap string any)).
(** A Go map: [nil] behaves as the empty map when read. *)
Abbreviation obj := (gmap string any).

(** ** [strconv] and [fmt.Sprint] *)

Definition Itoa (z : Z) : string := pretty z.

Lemma pretty_N_go_digits x acc : Forall (fun a => is_digit (byte_val a) = true) (bytes_of acc) ->
  Forall (fun a => is_digit (byte_val a) = true) (bytes_of (pretty_N_go x acc)).
Proof.
  revert acc. induction (N.lt_wf_0 x) as [x _ IH]. intros acc Hacc.
  destruct (decide (x = 0)%N) as [->|Hx]; [by rewrite pretty_N_go_0|].
  rewrite pretty_N_go_step by lia. apply IH; [apply N.div_lt; lia|].
  simpl. constructor; [|done].
  assert (x `mod` 10 < 10)%N by (apply N.mod_lt; lia).
  destruct (x `mod` 10)%N as [|p]; [done|]. unfold pretty_N_char.
  do 4 (try destruct p as [p|p|]); done.
Qed.
Lemma Itoa_digits z : (0 <= z)%Z -> Forall (fun a => is_digit (byte_val a) = true) (bytes_of (Itoa z)).
Proof.
  intros Hz. destruct z as [|p|p]; [by repeat constructor| |lia].
  change (Itoa (Z.pos p)) with (pretty (N.pos p)). unfold pretty, pretty_N. rewrite decide_False by done.
  by apply pretty_N_go_digits.
Qed.

(** The shortest decimal [d * 10^k] that reads back as the float [m * 2^e]: the
    first number of digits at which truncating or rounding up the exact value
    stays inside the interval of reals that round to it.  The interval includes
    its ends when the mantissa is even. *)
Section shortest.
Context (m : positive) (e : Z).

(** The value and the ends of its interval are [val], [lo] and [hi] over [den]. *)
Definition fl_scale : Z := if 0 <=? e - 2 then 2 ^ (e - 2) else 1.
Definition fl_den : Z := if 0 <=? e - 2 then 1 else 2 ^ (2 - e).
Definition fl_val : Z := 4 * Z.pos m * fl_scale.
Definition fl_hi : Z := (4 * Z.pos m + 2) * fl_scale.
Definition fl_lo : Z :=
  (4 * Z.pos m - (if (Z.pos m =? 2 ^ 52) && (-1074 <? e) then 1 else 2)) * fl_scale.

(** Compare [d * 10^k] with [x / den]. *)
Definition fl_cmp (d k x : Z) : comparison :=
  if 0 <=? k then (d * 10 ^ k * fl_den ?= x) else (d * fl_den ?= x * 10 ^ (- k)).
Definition fl_inside (c : comparison) : bool :=
  match c with Eq => Z.even (Z.pos m) | Lt => true | Gt => false end.

(** The least [dp] with [val / den < 10^dp]. *)
Fixpoint fl_point (fuel : nat) (dp : Z) : Z :=
  match fuel with
  | O => dp
  | S fuel' =>
      match fl_cmp 1 dp fl_val with Gt => dp | _ => fl_point fuel' (dp + 1) end
  end.

Fixpoint fl_digits (fuel : nat) (k : Z) : Z * Z :=
  let down := if 0 <=? k then fl_val / (fl_den * 10 ^ k) else fl_val * 10 ^ (- k) / fl_den in
  let okdown := fl_inside (CompOpp (fl_cmp down k fl_lo)) in
  let okup := fl_inside (fl_cmp (down + 1) k fl_hi) in
  match fuel, okdown, okup with
  | _, true, true =>
      (match fl_cmp (2 * down + 1) k (2 * fl_val) with
       | Lt => down + 1
       | Gt => down
       | Eq => if Z.even down then down else down + 1
       end, k)
  | _, true, false => (down, k)
  | _, false, true => (down + 1, k)
  | O, _, _ => (down, k)
  | S fuel', _, _ => fl_digits fuel' (k - 1)
  end.

Definition shortest_decimal : Z * Z := fl_digits 17 (fl_point 660 (-330) - 1).
End shortest.

Fixpoint zeros (n : nat) : string :=
  match n with O => EmptyString | S n' => "0" +:+ zeros n' end.

(** [strconv.FormatFloat(f, 'g', -1, 64)], which [fmt] uses for [%v]. *)
Definition format_float (f : float64) : string :=
  match f with
  | S754_nan => "NaN"
  | S754_infinity s => if s then "-Inf" else "+Inf"
  | S754_zero s => if s then "-0" else "0"
  | S754_finite s m e =>
      let '(d, k) := shortest_decimal m e in
      let dp := Z.of_nat (String.length (Itoa d)) + k in
      let digs := drop_zeros (Itoa d) in
      let nd := Z.of_nat (String.length digs) in
      let exp := dp - 1 in
      (if s then "-" else "") +:+
      (if (exp <? -4) || (6 <=? exp) then
         take_bytes 1 digs +:+
         (if 1 <? nd then "." +:+ drop_bytes 1 digs else "") +:+
         "e" +:+ (if exp <? 0 then "-" else "+") +:+
         (if Z.abs exp <? 10 then "0" else "") +:+ Itoa (Z.abs exp)
       else if dp <=? 0 then "0." +:+ zeros (Z.to_nat (- dp)) +:+ digs
       else if nd <=? dp then digs +:+ zeros (Z.to_nat (dp - nd))
       else take_bytes (Z.to_nat dp) digs +:+ "." +:+ drop_bytes (Z.to_nat dp) digs)
  end.

Definition Sprint_bool (b : bool) : string := if b then "true" else "false".

(** Byte order of the keys, for the entries of a printed map. *)
Definition entry_le (a b : string * string) : Prop := String.leb a.1 b.1 = true.
#[export] Instance entry_le_dec : RelDecision entry_le.
Proof. intros a b. unfold entry_le. apply _. Defined.

(** [fmt.Sprint(v)].  How a Go struct or pointer prints is not needed by any
    caller and is left to [sprint_struct]. *)
Section Sprint.
Context (sprint_struct : any -> string).

Fixpoint Sprint (v : any) : string :=
  match v with
  | ANil => "<nil>"
  | ABool b => Sprint_bool b
  | AString s => s
  | AInt z | AInt64 z => Itoa z
  | AFloat f => format_float f
  | ANumber s => s
  | AStrings l => "[" +:+ Join l " " +:+ "]"
  | AList l => "[" +:+ Join (map Sprint l) " " +:+ "]"
  | AMap m =>
      "map[" +:+
      Join (map (fun kv => kv.1 +:+ ":" +:+ kv.2)
             (merge_sort entry_le (map_to_list (Sprint <$> m)))) " " +:+ "]"
  | _ => sprint_struct v
  end.
End Sprint.

(** ** Accessors ([bridge.go]) *)

Definition stringAt (source : obj) (key : string) : string :=
  match source !! key with
  | Some (AString value) => TrimSpace value
  | _ => ""
  end.

Definition mapAt (source : obj) (key : string) : obj :=
  match source !! key with
  | Some (AMap m) => m
  | _ => ∅
  end.

Fixpoint firstText (message data : obj) (keys : list string) : string :=
  match keys with
  | [] => ""
  | key :: keys' =>
      if negb (stringAt message key =? "")%string then stringAt message key
      else if negb (stringAt data key =? "")%string then stringAt data key
      else firstText message data keys'
  end.

(** A present, non-nil value. *)
Definition present (m : obj) (key : string) : option any :=
  match m !! key with
  | Some ANil => None
  | o => o
  end.

Fixpoint firstValue (message data : obj) (keys : list string) : any :=
  match keys with
  | [] => ANil
  | key :: keys' =>
      match present message key, present data key with
      | Some v, _ => v
      | None, Some v => v
      | None, None => firstValue message data keys'
      end
  end.

Definition mem (s : string) (l : list string) : bool := existsb (String.eqb s) l.

Definition boolAny (value : any) : bool :=
  match value with
  | ABool b => b
  | AString s => mem (ToLower (TrimSpace s)) ["1"; "true"; "yes"; "y"; "on"; "broadcast immediate"]
  | _ => false
  end.

(** The non-blank entries, trimmed. *)
Definition trimmed_nonblank (l : list string) : list string :=
  base.filter (fun s => s <> "") (map TrimSpace l).

Section stringListAny.
Context (sprint_struct : any -> string).

Definition stringListAny (value : any) : list string :=
  match value with
  | AList typed => trimmed_nonblank (map (Sprint sprint_struct) typed)
  | AStrings typed => trimmed_nonblank typed
  | AString typed => if (TrimSpace typed =? "")%string then [] else [TrimSpace typed]
  | _ => []
  end.
End stringListAny.

(** [playlistCriticalEvent], [playlistLifecycleEvent]. *)
Definition playlistCriticalEvent (msgType : string) : bool :=
  mem (TrimSpace msgType) ["cap.alert.broadcast.requested"; "cap.alert.cancelled"].
Definition playlistLifecycleEvent (msgType : string) : bool :=
  mem (TrimSpace msgType)
    ["playout.accepted"; "playout.started"; "playout.interrupted"; "playout.completed";
     "alert.playout.started"; "alert.playout.completed"; "service.ready"; "system.shutdown"].

(** ** Facts *)

Lemma mem_spec s l : mem s l = true <-> In s l.
Proof.
  unfold mem. rewrite existsb_exists. split.
  - intros (x & Hx & ->%String.eqb_eq). done.
  - intros H. exists s. split; [done | apply String.eqb_refl].
Qed.

Lemma stringAt_trimmed m k : TrimSpace (stringAt m k) = stringAt m k.
Proof. unfold stringAt. repeat case_match; try done. apply TrimSpace_idem. Qed.

Lemma firstText_trimmed m d ks : TrimSpace (firstText m d ks) = firstText m d ks.
Proof.
  induction ks as [|k ks IH]; simpl; [done|]. repeat case_match; try done; apply stringAt_trimmed.
Qed.
#[export] Hint Rewrite stringAt_trimmed firstText_trimmed : haze_rw.

Lemma stringAt_insert m k v k' : stringAt (<[k := v]> m) k' =
  if decide (k = k') then match v with AString s => TrimSpace s | _ => "" end else stringAt m k'.
Proof.
  unfold stringAt. destruct (decide (k = k')) as [->|].
  - by rewrite lookup_insert_eq.
  - by rewrite lookup_insert_ne.
Qed.

(** The event message is [nil] at most call sites. *)
Lemma firstText_empty_l d ks : firstText ∅ d ks =
  default "" (head (base.filter (fun s => s <> "") (map (stringAt d) ks))).
Proof.
  induction ks as [|k ks IH]; simpl; [done|].
  destruct (stringAt d k =? "")%string eqn:E; bool_hyps; simpl.
  - rewrite filter_cons_False by tauto. done.
  - by rewrite filter_cons_True.
Qed.
