(* ===== verification/GoNet.v ===== *)
(** What the gateway uses of Go's package [net]: IP addresses and their text,
    CIDR networks, and the host of a host and port. *)

From S2P Require Import Prelude UnicodeTables GoStrings GoTime GoValue.

#[local] Open Scope Z_scope.
#[local] Open Scope string_scope.
#[local] Open Scope haze_scope.

(** ** Addresses: sixteen octets *)

Definition IP : Type := list Z.
Definition v4InV6Prefix : list Z := [0; 0; 0; 0; 0; 0; 0; 0; 0; 0; 255; 255].
(** [IP.To4]. *)
Definition To4 (ip : IP) : option (list Z) :=
  if bool_decide (take 12 ip = v4InV6Prefix) then Some (drop 12 ip) else None.

(** A decimal field of an IPv4 address. *)
Definition decimal (s : string) : Z := foldl (fun acc a => acc * 10 + (byte_val a - 48)) 0 (bytes_of s).
Definition parse_octet (s : string) : option Z :=
  if (s =? "") || negb (forallb (fun a => is_digit (byte_val a)) (bytes_of s)) ||
     (HasPrefix s "0" && (1 <? String.length s)%nat) || (3 <? String.length s)%nat || (255 <? decimal s)%Z
  then None
  else Some (decimal s).
Definition parseIPv4Fields (s : string) : option (list Z) :=
  match Split "."%char s with
  | [a; b; c; d] => a ← parse_octet a; b ← parse_octet b; c ← parse_octet c; d ← parse_octet d; Some [a; b; c; d]
  | _ => None
  end.

Definition hex_value (a : Ascii.ascii) : option Z :=
  let v := byte_val a in
  if is_digit v then Some (v - 48)
  else if in_range 97 102 v then Some (v - 87)
  else if in_range 65 70 v then Some (v - 55)
  else None.
(** The hexadecimal digits at the front: their value, how many, and the rest. *)
Fixpoint hex_digits (s : string) (acc : Z) (n : nat) : Z * nat * string :=
  match s with
  | String a s' => match hex_value a with Some d => hex_digits s' (acc * 16 + d) (S n) | None => (acc, n, s) end
  | "" => (acc, n, s)
  end.

(** The loop of [parseIPv6] over the fields: the octets so far, and where the
    ellipsis was.  There are at most eight fields. *)
Fixpoint parse_fields (fuel : nat) (s : string) (ip : list Z) (ellipsis : option nat) :
    option (list Z * option nat * string) :=
  match fuel with
  | O => Some (ip, ellipsis, s)
  | S fuel' =>
      if (16 <=? length ip)%nat then Some (ip, ellipsis, s)
      else
        let '(acc, off, rest) := hex_digits s 0 O in
        if (off =? 0)%nat || (4 <? off)%nat then None
        else
          match rest with
          | String "." _ =>
              if match ellipsis with None => negb (length ip =? 12)%nat | Some _ => false end then None
              else if (16 <? length ip + 4)%nat then None
              else four ← parseIPv4Fields s; Some ((ip ++ four)%list, ellipsis, "")
          | _ =>
              let ip := (ip ++ [acc / 256; acc mod 256])%list in
              match rest with
              | "" => Some (ip, ellipsis, "")
              | String ":" "" => None
              | String ":" (String ":" rest') =>
                  match ellipsis with
                  | Some _ => None
                  | None =>
                      if rest' =? "" then Some (ip, Some (length ip), "")
                      else parse_fields fuel' rest' ip (Some (length ip))
                  end
              | String ":" rest' => parse_fields fuel' rest' ip ellipsis
              | _ => None
              end
          end
  end.
Definition parseIPv6 (s : string) : option IP :=
  let parsed :=
    match s with
    | String ":" (String ":" "") => Some ([], Some O, "")
    | String ":" (String ":" rest) => parse_fields 8 rest [] (Some O)
    | _ => parse_fields 8 s [] None
    end in
  match parsed with
  | None => None
  | Some (ip, ellipsis, rest) =>
      if negb (rest =? "") then None
      else
        match ellipsis with
        | None => if (length ip <? 16)%nat then None else Some ip
        | Some e => if (length ip <? 16)%nat then Some (take e ip ++ repeat 0 (16 - length ip) ++ drop e ip)%list else None
        end
  end.

(** [netip.ParseAddr] without a zone: the address, and whether it is of 32 bits. *)
Fixpoint first_mark (l : list Ascii.ascii) : option Ascii.ascii :=
  match l with
  | [] => None
  | a :: l' => if Ascii.eqb a "." || Ascii.eqb a ":" || Ascii.eqb a "%" then Some a else first_mark l'
  end.
Definition ParseAddr (s : string) : option (IP * bool) :=
  match first_mark (bytes_of s) with
  | Some "."%char => four ← parseIPv4Fields s; Some ((v4InV6Prefix ++ four)%list, true)
  | Some ":"%char => if existsb (Ascii.eqb "%") (bytes_of s) then None else ip ← parseIPv6 s; Some (ip, false)
  | _ => None
  end.
Definition ParseIP (s : string) : option IP := fst <$> ParseAddr s.

(** *** [IP.String] *)

Definition hex_lower (v : Z) : Ascii.ascii := byte_of (if (v <? 10)%Z then 48 + v else 87 + v).
Fixpoint hex_text (fuel : nat) (v : Z) : string :=
  match fuel with
  | O => ""
  | S fuel' => if (v <? 16)%Z then String (hex_lower v) "" else hex_text fuel' (v / 16) +:+ String (hex_lower (v mod 16)) ""
  end.
Fixpoint groups (l : list Z) : list Z :=
  match l with
  | a :: b :: l' => (a * 256 + b)%Z :: groups l'
  | _ => []
  end.
(** How many zeros a list starts with, and the first of the longest runs of at
    least two zero groups: its start and its end. *)
Fixpoint zeros (l : list Z) : nat := match l with z :: l' => if (z =? 0)%Z then S (zeros l') else O | [] => O end.
Fixpoint longest_run (l : list Z) (i : nat) (best : nat * nat) : nat * nat :=
  match l with
  | [] => best
  | _ :: l' =>
      let n := zeros l in
      longest_run l' (S i) (if (1 <? n)%nat && (best.2 - best.1 <? n)%nat then (i, (i + n)%nat) else best)
  end.
Definition IPv6_text (ip : IP) : string :=
  let gs := groups ip in
  let '(first, last) := longest_run gs O (O, O) in
  let text l := Join (map (hex_text 4) l) ":" in
  if (first =? last)%nat then text gs else text (take first gs) +:+ "::" +:+ text (drop last gs).
Definition IP_String (ip : IP) : string :=
  match To4 ip with
  | Some four => Join (map Itoa four) "."
  | None => IPv6_text ip
  end.

(** ** Networks *)

Record IPNet := MkNet { net_IP : list Z; net_Mask : list Z }.
(** [CIDRMask]. *)
Definition mask_octet (n : Z) : Z := if (n <=? 0)%Z then 0 else if (8 <=? n)%Z then 255 else 256 - 2 ^ (8 - n).
Definition CIDRMask (n : Z) (octets : nat) : list Z := map (fun i => mask_octet (n - 8 * Z.of_nat i)) (seq 0 octets).
Definition mask_with (ip mask : list Z) : list Z := zip_with Z.land ip mask.

Definition ParseCIDR (s : string) : option IPNet :=
  match Index s "/" with
  | None => None
  | Some i =>
      match ParseAddr (take_bytes i s) with
      | None => None
      | Some (ip, is4) =>
          let m := drop_bytes (S i) s in
          if (m =? "") || negb (forallb (fun a => is_digit (byte_val a)) (bytes_of m)) ||
             ((if is4 then 32 else 128) <? decimal m)%Z
          then None
          else if (is4 : bool) then let mask := CIDRMask (decimal m) 4 in Some (MkNet (mask_with (drop 12 ip) mask) mask)
          else let mask := CIDRMask (decimal m) 16 in Some (MkNet (mask_with ip mask) mask)
      end
  end.

(** [IPNet.Contains]: the number of the network and its mask are taken as four
    octets when the number is an IPv4 one. *)
Definition Contains (n : IPNet) (ip : IP) : bool :=
  let number := if (length (net_IP n) =? 4)%nat then net_IP n else default (net_IP n) (To4 (net_IP n)) in
  let mask := if (length (net_Mask n) =? 16)%nat && (length number =? 4)%nat then drop 12 (net_Mask n) else net_Mask n in
  let ip := default ip (To4 ip) in
  (length ip =? length number)%nat && bool_decide (mask_with number mask = mask_with ip mask).

(** ** Hosts *)

(** [net.SplitHostPort]. *)
Definition SplitHostPort (hostport : string) : option string :=
  match LastIndex hostport ":" with
  | None => None
  | Some i =>
      let result host j k :=
        if match Index (drop_bytes j hostport) "[" with Some _ => true | None => false end ||
           match Index (drop_bytes k hostport) "]" with Some _ => true | None => false end
        then None else Some host in
      if HasPrefix hostport "[" then
        match Index hostport "]" with
        | None => None
        | Some e => if (S e =? i)%nat then result (take_bytes (e - 1) (drop_bytes 1 hostport)) 1%nat (S e) else None
        end
      else
        let host := take_bytes i hostport in
        match Index host ":" with Some _ => None | None => result host O O end
  end.
