(* ===== verification/GoPath.v ===== *)
(** File paths: the lexical operations of [path] and [path/filepath] on a
    slash-separated system.  Paths are taken apart into components. *)

From S2P Require Import Prelude UnicodeTables GoStrings.

#[local] Open Scope string_scope.

Definition slash : Ascii.ascii := "/"%char.
Definition IsAbs (path : string) : bool := HasPrefix path "/".

(** The non-empty components of a path. *)
Definition components (path : string) : list string :=
  base.filter (fun c => c <> "") (Split slash path).

(** Resolve [.] and [..]; the stack holds the components kept, last first. *)
Fixpoint resolve (rooted : bool) (stack l : list string) : list string :=
  match l with
  | [] => rev stack
  | c :: l' =>
      if c =? "." then resolve rooted stack l'
      else if c =? ".." then
        match stack with
        | top :: stack' =>
            if top =? ".." then resolve rooted (".." :: stack) l' else resolve rooted stack' l'
        | [] => resolve rooted (if rooted then [] else [".."]) l'
        end
      else resolve rooted (c :: stack) l'
  end.

Definition resolved (path : string) : list string :=
  resolve (IsAbs path) [] (components path).

(** A path with the given root and components. *)
Definition unresolve (rooted : bool) (l : list string) : string :=
  if rooted then "/" +:+ Join l "/" else match l with [] => "." | _ => Join l "/" end.

(** [path.Clean], [filepath.Clean]. *)
Definition Clean (path : string) : string := unresolve (IsAbs path) (resolved path).

(** [filepath.Join]. *)
Definition JoinPath (elems : list string) : string :=
  match base.filter (fun e => e <> "") elems with
  | [] => ""
  | elems => Clean (Join elems "/")
  end.

(** [filepath.Base]. *)
Definition Base (path : string) : string :=
  if path =? "" then "." else List.last (components path) "/".

(** [filepath.Dir]: everything before the last slash, cleaned. *)
Definition Dir (path : string) : string :=
  match LastIndex path "/" with
  | Some i => Clean (take_bytes (S i) path)
  | None => "."
  end.

(** [filepath.Ext]: from the last dot of the last element. *)
Definition Ext (path : string) : string :=
  let name := List.last (Split slash path) "" in
  match LastIndex name "." with
  | Some i => drop_bytes i name
  | None => ""
  end.

(** [filepath.Abs] in the working directory [cwd]. *)
Definition Abs (cwd path : string) : string :=
  if IsAbs path then Clean path else JoinPath [cwd; path].

(** What is left of two component lists after their common front. *)
Fixpoint diverge (base targ : list string) : list string * list string :=
  match base, targ with
  | b :: base', t :: targ' => if b =? t then diverge base' targ' else (base, targ)
  | _, _ => (base, targ)
  end.

(** [filepath.Rel]; [None] is its error. *)
Definition Rel (basepath targpath : string) : option string :=
  let base := Clean basepath in
  let targ := Clean targpath in
  if base =? targ then Some "."
  else if Bool.eqb (IsAbs base) (IsAbs targ) then
    let base_components := if base =? "." then [] else components base in
    let '(base', targ') := diverge base_components (components targ) in
    if from_option (fun b => b =? "..") false (head base') then None
    else Some (Join (map (fun _ => "..") base' ++ targ') "/")
  else None.

(** ** Facts *)

(** Components without separators; none of them is [.]. *)
Definition plain (c : string) : Prop := c <> "" /\ c <> "." /\ ~ In slash (bytes_of c).

Lemma Split_no_sep sep s : Forall (fun c => ~ In sep (bytes_of c)) (Split sep s).
Proof.
  induction s as [|a s IH]; simpl; [apply Forall_singleton; simpl; tauto|].
  destruct (Ascii.eqb_spec a sep) as [->|Hne]; [constructor; [simpl; tauto | done]|].
  destruct (Split sep s) as [|p ps]; [apply Forall_singleton; simpl; naive_solver|].
  inversion IH as [|? ? Hp Hps]; subst. constructor; [|done].
  simpl. intros [?|?]; [by subst|done].
Qed.

Lemma components_spec path :
  Forall (fun c => c <> "" /\ ~ In slash (bytes_of c)) (components path).
Proof.
  unfold components. apply Forall_forall. intros c [Hc Hin]%list_elem_of_In%list_elem_of_filter.
  split; [done|]. pose proof (Split_no_sep slash path) as H. rewrite Forall_forall in H.
  by apply H, list_elem_of_In.
Qed.

Lemma Split_app sep c s : ~ In sep (bytes_of c) ->
  Split sep (c +:+ String sep s) = c :: Split sep s.
Proof.
  induction c as [|a c IH]; simpl; intros H.
  - by rewrite Ascii.eqb_refl.
  - destruct (Ascii.eqb_spec a sep) as [->|]; [naive_solver|].
    change (String.append c (String sep s)) with (c +:+ String sep s). by rewrite IH by tauto.
Qed.

Lemma Split_last sep c : ~ In sep (bytes_of c) -> Split sep c = [c].
Proof.
  induction c as [|a c IH]; simpl; intros H; [done|].
  destruct (Ascii.eqb_spec a sep) as [->|]; [naive_solver|]. by rewrite IH by tauto.
Qed.

(** Splitting undoes joining. *)
Lemma Split_Join l : l <> [] -> Forall (fun c => ~ In slash (bytes_of c)) l ->
  Split slash (Join l "/") = l.
Proof.
  intros Hne H. induction H as [|c l Hc Hl IH]; [done|].
  destruct l as [|c' l]; [by apply Split_last|].
  change (Join (c :: c' :: l) "/") with (c +:+ String slash (Join (c' :: l) "/")).
  rewrite Split_app by done. by rewrite IH.
Qed.

Lemma filter_nonempty l : Forall (fun c => c <> "") l -> base.filter (fun c => c <> "") l = l.
Proof. induction 1; [done|]. rewrite filter_cons_True by done. by f_equal. Qed.

Lemma components_Join l : Forall (fun c => c <> "" /\ ~ In slash (bytes_of c)) l ->
  components (Join l "/") = l.
Proof.
  intros H. destruct l as [|c l]; [done|]. unfold components. rewrite Split_Join; [|done|].
  - apply filter_nonempty. eapply List.Forall_impl; [|done]. by intros ? [].
  - eapply List.Forall_impl; [|done]. by intros ? [].
Qed.

Lemma components_slash s : components ("/" +:+ s) = components s.
Proof. unfold components. simpl. by rewrite filter_cons_False by tauto. Qed.

Lemma resolve_subset rooted stack l c :
  In c (resolve rooted stack l) -> In c stack \/ In c l /\ c <> "." \/ c = "..".
Proof.
  revert stack. induction l as [|x l IH]; intros stack; simpl; [rewrite <- in_rev; tauto|].
  destruct (String.eqb_spec x "."); [intros [|[[]|]]%IH; tauto|].
  destruct (String.eqb_spec x "..") as [->|].
  - destruct stack as [|top stack].
    + destruct rooted; intros [|[[]|]]%IH; simpl in *; naive_solver.
    + destruct (String.eqb_spec top "..") as [->|]; intros [|[[]|]]%IH; simpl in *; naive_solver.
  - intros [[]|[[]|]]%IH; subst; tauto.
Qed.

Lemma dots_plain : plain "..".
Proof. split; [done|]. split; [done|]. simpl. intros [|[|]]; done. Qed.

Lemma resolved_plain path : Forall plain (resolved path).
Proof.
  apply Forall_forall. intros c Hin%resolve_subset.
  destruct Hin as [[]|[[Hin Hne]| ->]]; [|apply dots_plain].
  pose proof (components_spec path) as H. rewrite Forall_forall in H.
  apply H in Hin as []. by split_and!.
Qed.

(** Joining a plain last component to a directory. *)
Lemma resolve_app_plain rooted stack l c : c <> "." -> c <> ".." ->
  resolve rooted stack (l ++ [c])%list = (resolve rooted stack l ++ [c])%list.
Proof.
  intros H1 H2. revert stack. induction l as [|x l IH]; intros stack; simpl.
  - rewrite (proj2 (String.eqb_neq c ".")), (proj2 (String.eqb_neq c "..")) by done. done.
  - repeat case_match; auto.
Qed.

Lemma Split_nonempty sep s : Split sep s <> [].
Proof.
  destruct s as [|a s]; simpl; [done|]. destruct (Ascii.eqb a sep); [done|].
  by destruct (Split sep s).
Qed.

Lemma Split_app_sep sep s t :
  Split sep (s +:+ String sep t) = (Split sep s ++ Split sep t)%list.
Proof.
  induction s as [|a s IH]; simpl; [by rewrite Ascii.eqb_refl|].
  change (String.append s (String sep t)) with (s +:+ String sep t). rewrite IH.
  destruct (Ascii.eqb a sep); [done|].
  pose proof (Split_nonempty sep s). by destruct (Split sep s).
Qed.

Lemma components_app_slash s t :
  components (s +:+ "/" +:+ t) = (components s ++ components t)%list.
Proof. unfold components. change ("/" +:+ t) with (String slash t). by rewrite Split_app_sep, list.filter_app. Qed.

Lemma components_plain c : c <> "" -> ~ In slash (bytes_of c) -> components c = [c].
Proof.
  intros H1 H2. unfold components. rewrite Split_last by done. by rewrite filter_cons_True.
Qed.

Lemma IsAbs_app s t : s <> "" -> IsAbs (s +:+ t) = IsAbs s.
Proof.
  destruct s as [|a s]; [done|]. intros _. unfold IsAbs. simpl. f_equal.
  by destruct (String.append s t), s.
Qed.

Lemma Join_snoc l c sep : l <> [] -> Join (l ++ [c])%list sep = Join l sep +:+ sep +:+ c.
Proof.
  induction l as [|x l IH]; [done|]. intros _. destruct l as [|y l]; [done|].
  change (Join ((x :: y :: l) ++ [c])%list sep) with (x +:+ sep +:+ Join ((y :: l) ++ [c])%list sep).
  rewrite IH by done. change (Join (x :: y :: l) sep) with (x +:+ sep +:+ Join (y :: l) sep).
  by rewrite !string_app_assoc.
Qed.

Lemma resolved_app s c : s <> "" -> plain c -> c <> ".." ->
  resolved (s +:+ "/" +:+ c) = (resolve (IsAbs s) [] (components s) ++ [c])%list.
Proof.
  intros Hs (Hne & Hdot & Hsl) Hdots. unfold resolved.
  rewrite IsAbs_app, components_app_slash, (components_plain c) by done.
  by apply resolve_app_plain.
Qed.

Lemma components_unresolve rooted l : l <> [] -> Forall plain l ->
  components (unresolve rooted l) = l.
Proof.
  intros Hne Hl. assert (components (Join l "/") = l) as E.
  { apply components_Join. eapply List.Forall_impl; [|exact Hl]. by intros c (? & ? & ?). }
  unfold unresolve. destruct rooted; [by rewrite components_slash|]. by destruct l.
Qed.

(** A joined path ends with the name joined last. *)
Lemma JoinPath_last l : base.filter (fun e => e <> "") l <> [] -> exists rooted r, forall c,
  plain c -> c <> ".." -> JoinPath (l ++ [c])%list = unresolve rooted (r ++ [c])%list /\
    Forall plain (r ++ [c])%list.
Proof.
  intros Hl. set (l' := base.filter (fun e => e <> "") l) in *.
  exists (IsAbs (Join l' "/")), (resolve (IsAbs (Join l' "/")) [] (components (Join l' "/"))).
  intros c Hc Hdots. unfold JoinPath.
  rewrite list.filter_app, filter_cons_True, filter_nil by by destruct Hc. fold l'.
  destruct (l' ++ [c])%list as [|e0 es] eqn:E; [by destruct l'|]. rewrite <- E.
  rewrite Join_snoc by done. clear E e0 es.
  assert (Join l' "/" <> "") as Hj.
  { assert (Forall (fun e => e <> "") l') as Hf.
    { apply Forall_forall. intros e He%list_elem_of_In%list_elem_of_filter. tauto. }
    destruct Hf as [|e es He Hes]; [done|]. destruct es; [done|]. by destruct e. }
  unfold Clean. rewrite IsAbs_app by done.
  pose proof (resolved_plain (Join l' "/" +:+ "/" +:+ c)) as Hp.
  by rewrite resolved_app in * by done.
Qed.
Lemma JoinPath_snoc l c : base.filter (fun e => e <> "") l <> [] -> plain c -> c <> ".." ->
  exists rooted r, JoinPath (l ++ [c])%list = unresolve rooted (r ++ [c])%list /\
    Forall plain (r ++ [c])%list.
Proof. intros Hl Hc Hd. destruct (JoinPath_last l Hl) as (rooted & r & Hr). eauto. Qed.

(** A suffix of a joined path belongs to its last name. *)
Lemma JoinPath_extend l c t : base.filter (fun e => e <> "") l <> [] -> plain c -> c <> ".." ->
  plain (c +:+ t) -> c +:+ t <> ".." -> JoinPath (l ++ [c])%list +:+ t = JoinPath (l ++ [c +:+ t])%list.
Proof.
  intros Hl Hc Hd Hc' Hd'. destruct (JoinPath_last l Hl) as (rooted & r & Hr).
  rewrite (proj1 (Hr c Hc Hd)), (proj1 (Hr _ Hc' Hd')). unfold unresolve.
  assert (E : Join (r ++ [c])%list "/" +:+ t = Join (r ++ [c +:+ t])%list "/").
  { destruct r as [|r0 r]; [done|]. rewrite !Join_snoc by done. by rewrite !string_app_assoc. }
  destruct rooted; [by rewrite <- E, string_app_assoc|]. destruct r as [|r0 r]; [done|]. exact E.
Qed.

(** The last element of a joined path is the name joined last. *)
Lemma Base_JoinPath l c : base.filter (fun e => e <> "") l <> [] -> plain c -> c <> ".." ->
  Base (JoinPath (l ++ [c])%list) = c.
Proof.
  intros Hl Hc Hdots. destruct (JoinPath_snoc l c Hl Hc Hdots) as (rooted & r & -> & Hp).
  assert (components (unresolve rooted (r ++ [c])%list) = (r ++ [c])%list) as Ec.
  { apply components_unresolve; [by destruct r|done]. }
  unfold Base. destruct (unresolve rooted (r ++ [c])%list) as [|a s] eqn:E.
  - simpl in Ec. by destruct r.
  - simpl. rewrite Ec. apply last_last.
Qed.

Lemma JoinPath_suffix l c : base.filter (fun e => e <> "") l <> [] -> plain c -> c <> ".." ->
  exists front, JoinPath (l ++ [c])%list = front +:+ c.
Proof.
  intros Hl Hc Hdots. destruct (JoinPath_snoc l c Hl Hc Hdots) as (rooted & r & -> & _).
  unfold unresolve. destruct r as [|r0 r].
  - destruct rooted; [by exists "/" | by exists ""].
  - rewrite Join_snoc by done. destruct rooted.
    + exists ("/" +:+ Join (r0 :: r) "/" +:+ "/"). by rewrite !string_app_assoc.
    + exists (Join (r0 :: r) "/" +:+ "/"). simpl. by rewrite string_app_assoc.
Qed.

(** ** Facts: cleaned paths *)

Definition no_dots (l : list string) : Prop := Forall (fun c => c <> "." /\ c <> "..") l.

Lemma resolve_no_dots rooted stack l : no_dots l -> resolve rooted stack l = (rev stack ++ l)%list.
Proof.
  intros Hl. revert stack. induction Hl as [|c l [H1 H2] Hl IH]; intros stack; simpl; [by rewrite app_nil_r|].
  rewrite (proj2 (String.eqb_neq c ".")), (proj2 (String.eqb_neq c "..")) by done.
  rewrite IH. simpl. by rewrite <- app_assoc.
Qed.

Lemma resolve_app_no_dots rooted stack l l' : no_dots l' ->
  resolve rooted stack (l ++ l')%list = (resolve rooted stack l ++ l')%list.
Proof.
  intros Hl. revert stack. induction l as [|x l IH]; intros stack; simpl; [by apply resolve_no_dots|].
  repeat case_match; auto.
Qed.

(** A resolved path climbs first, if at all, and only when it is not rooted. *)
Definition climbs (rooted : bool) (l : list string) : Prop :=
  exists k down, l = (repeat ".." k ++ down)%list /\ ~ In ".." down /\ (rooted = true -> k = O).

Lemma resolve_climbs rooted stack l : climbs rooted (rev stack) -> climbs rooted (resolve rooted stack l).
Proof.
  revert stack. induction l as [|c l IH]; intros stack Hs; simpl; [done|].
  destruct (String.eqb_spec c "."); [by apply IH|].
  destruct Hs as (k & down & Hr & Hd & Hk). destruct (String.eqb_spec c "..") as [->|Hne].
  - destruct stack as [|top stack].
    { apply IH. destruct rooted; [exists O, []|exists 1%nat, []]; split_and!; try done; by intros []. }
    simpl in Hr. destruct down as [|d down _] using rev_ind.
    + rewrite app_nil_r in Hr. destruct k as [|k]; [by destruct (rev stack)|].
      cbn [repeat] in Hr. rewrite repeat_cons in Hr. apply app_inj_tail in Hr as [Hr ->]. simpl. apply IH. simpl.
      exists (S (S k)), []. rewrite app_nil_r. split_and!; [|by intros []|].
      * rewrite Hr. rewrite <- repeat_cons. symmetry. apply (repeat_cons (S k)).
      * intros Hroot. by specialize (Hk Hroot).
    + rewrite app_assoc in Hr. apply app_inj_tail in Hr as [Hr ->].
      rewrite in_app_iff in Hd. destruct (String.eqb_spec d "..") as [->|]; [destruct Hd; right; by left|].
      apply IH. exists k, down. split_and!; [done| |done]. tauto.
  - apply IH. simpl. exists k, (down ++ [c])%list. rewrite Hr, app_assoc. split_and!; [done| |done].
    rewrite in_app_iff. simpl. intuition.
Qed.

Lemma resolved_climbs path : climbs (IsAbs path) (resolved path).
Proof. apply resolve_climbs. exists O, []. by split_and!; [|intros []|]. Qed.

Lemma resolve_climbing rooted l : climbs rooted l -> Forall (fun c => c <> ".") l ->
  resolve rooted [] l = l.
Proof.
  intros (k & down & -> & Hd & Hk) Hdot. apply Forall_app in Hdot as [_ Hdot].
  assert (Hdown : no_dots down).
  { apply List.Forall_forall. intros c Hc. rewrite List.Forall_forall in Hdot. split; [by apply Hdot|].
    by intros ->. }
  rewrite resolve_app_no_dots by done. f_equal. destruct rooted; [by rewrite Hk|].
  assert (H : forall j, resolve false (repeat ".." j) (repeat ".." k) = repeat ".." (j + k)).
  { clear. induction k as [|k IH]; intros j; simpl; [rewrite Nat.add_0_r|].
    - induction j as [|j IH]; simpl; [done|]. rewrite IH. symmetry. apply repeat_cons.
    - destruct j as [|j]; simpl; [exact (IH 1%nat)|]. etrans; [exact (IH (S (S j)))|].
      simpl. by rewrite Nat.add_succ_r. }
  apply (H O).
Qed.

Lemma IsAbs_unresolve rooted l : Forall plain l -> IsAbs (unresolve rooted l) = rooted.
Proof.
  intros Hl. unfold unresolve. destruct rooted; [apply HasPrefix_refl_app|]. destruct Hl as [|c l (Hne & _ & Hs) _]; [done|].
  destruct c as [|a c]; [done|]. unfold IsAbs.
  assert (E : exists t, Join (String a c :: l) "/" = String a t).
  { destruct l as [|c' l]; [by exists c|]. by exists (c +:+ "/" +:+ Join (c' :: l) "/"). }
  destruct E as [t ->]. cbn [HasPrefix].
  destruct (Ascii.eqb_spec "/"%char a) as [<-|]; cbn [andb]; [|done].
  exfalso. apply Hs. by left.
Qed.

Lemma resolved_Clean path : resolved (Clean path) = resolved path.
Proof.
  unfold Clean. pose proof (resolved_plain path) as Hp. unfold resolved at 1.
  rewrite IsAbs_unresolve by done. destruct (decide (resolved path = [])) as [E|Hne].
  - rewrite E. by destruct (IsAbs path).
  - rewrite components_unresolve by done. apply resolve_climbing; [apply resolved_climbs|].
    eapply List.Forall_impl; [|exact Hp]. by intros c (_ & ? & _).
Qed.

Lemma IsAbs_Clean path : IsAbs (Clean path) = IsAbs path.
Proof. unfold Clean. by rewrite IsAbs_unresolve by apply resolved_plain. Qed.

(** Cleaning twice is cleaning once. *)
Lemma Clean_idem path : Clean (Clean path) = Clean path.
Proof. unfold Clean at 1. by rewrite resolved_Clean, IsAbs_Clean. Qed.

(** A cleaned path shows its components, unless there are none. *)
Lemma components_Clean path : resolved path <> [] -> components (Clean path) = resolved path.
Proof. intros Hne. unfold Clean. apply components_unresolve; [done|apply resolved_plain]. Qed.

(** ** Facts: the path of a file in a directory of a base directory *)

Lemma JoinPath_pair base : base <> "" -> exists rooted r, forall c, plain c -> c <> ".." ->
  JoinPath [base; c] = unresolve rooted (r ++ [c])%list /\ Forall plain (r ++ [c])%list /\
  forall x, plain x -> x <> ".." ->
    JoinPath [base; c; x] = unresolve rooted (r ++ [c; x])%list /\ Forall plain (r ++ [c; x])%list.
Proof.
  intros Hb. exists (IsAbs base), (resolve (IsAbs base) [] (components base)).
  intros c Hc Hcd. pose proof Hc as (Hc0 & _).
  assert (Hr : resolved (base +:+ "/" +:+ c) = (resolve (IsAbs base) [] (components base) ++ [c])%list)
    by by apply resolved_app.
  assert (Habs : IsAbs (base +:+ "/" +:+ c) = IsAbs base) by by apply IsAbs_app.
  split; [|split].
  - unfold JoinPath. rewrite !filter_cons_True, filter_nil by done. cbn [Join]. unfold Clean.
    change (Join [base; c] "/") with (base +:+ "/" +:+ c). by rewrite Habs, Hr.
  - rewrite <- Hr. apply resolved_plain.
  - intros x Hx Hxd. pose proof Hx as (Hx0 & _).
    assert (Hr2 : resolved ((base +:+ "/" +:+ c) +:+ "/" +:+ x)
                  = (resolve (IsAbs base) [] (components base) ++ [c; x])%list).
    { rewrite resolved_app by (by destruct base || done). rewrite Habs.
      change (resolve (IsAbs base) [] (components (base +:+ "/" +:+ c))) with
        (resolve (IsAbs base) [] (components (base +:+ "/" +:+ c))).
      unfold resolved in Hr. rewrite Habs in Hr. by rewrite Hr, <- app_assoc. }
    split; [|rewrite <- Hr2; apply resolved_plain].
    unfold JoinPath. rewrite !filter_cons_True, filter_nil by done. unfold Clean.
    assert (E : Join [base; c; x] "/" = (base +:+ "/" +:+ c) +:+ "/" +:+ x) by (cbn [Join]; by rewrite !string_app_assoc).
    rewrite E, IsAbs_app, Habs, Hr2 by by destruct base. done.
Qed.

Lemma unresolve_inj rooted l l' : l <> [] -> l' <> [] -> Forall plain l -> Forall plain l' ->
  unresolve rooted l = unresolve rooted l' -> l = l'.
Proof.
  intros H1 H2 P1 P2 E. rewrite <- (components_unresolve rooted l), <- (components_unresolve rooted l') by done.
  by rewrite E.
Qed.

Lemma LastIndex_none sep x : ~ In sep (bytes_of x) -> LastIndex x (String sep "") = None.
Proof.
  induction x as [|a x IH]; [done|]. intros Hn. cbn [LastIndex]. rewrite IH by (cbn in Hn; tauto).
  cbn [HasPrefix]. destruct (Ascii.eqb_spec sep a) as [<-|]; [|by destruct x]. exfalso. apply Hn. by left.
Qed.
(** The last separator is before the part that has none. *)
Lemma LastIndex_app sep s x : ~ In sep (bytes_of x) ->
  LastIndex (s +:+ String sep x) (String sep "") = Some (String.length s).
Proof.
  intros Hn. induction s as [|a s IH].
  - change ("" +:+ String sep x) with (String sep x). cbn [LastIndex]. rewrite LastIndex_none by done.
    cbn [HasPrefix]. rewrite Ascii.eqb_refl. by destruct x.
  - change (String a s +:+ String sep x) with (String a (s +:+ String sep x)). cbn [LastIndex]. by rewrite IH.
Qed.
Lemma take_bytes_S s a x : take_bytes (S (String.length s)) (s +:+ String a x) = s +:+ String a "".
Proof. induction s as [|b s IH]; [by destruct x|]. change (String b s +:+ String a x) with (String b (s +:+ String a x)).
  cbn [String.length]. change (take_bytes (S (S (String.length s))) (String b (s +:+ String a x))) with
    (String b (take_bytes (S (String.length s)) (s +:+ String a x))). by rewrite IH. Qed.

Lemma Dir_JoinPath_pair base c x : base <> "" -> plain c -> c <> ".." -> plain x -> x <> ".." ->
  Dir (JoinPath [base; c; x]) = JoinPath [base; c].
Proof.
  intros Hb Hc Hcd Hx Hxd. destruct (JoinPath_pair base Hb) as (rooted & r & Hr).
  destruct (Hr c Hc Hcd) as (E & Hp & Hr2). destruct (Hr2 x Hx Hxd) as [-> _].
  assert (E' : unresolve rooted (r ++ [c; x])%list = unresolve rooted (r ++ [c])%list +:+ String slash x).
  { rewrite (app_assoc r [c] [x] : (r ++ [c; x])%list = ((r ++ [c]) ++ [x])%list).
    unfold unresolve. destruct rooted.
    - rewrite Join_snoc by by destruct r. by rewrite string_app_assoc.
    - destruct (r ++ [c])%list as [|e l] eqn:El; [by destruct r|]. cbn [app]. rewrite <- El. cbn [app] in El.
      change (e :: (l ++ [x])%list) with ((e :: l) ++ [x])%list. rewrite <- El.
      rewrite Join_snoc by by destruct r. done. }
  assert (Hs : ~ In slash (bytes_of x)) by apply Hx.
  unfold Dir. rewrite E', (LastIndex_app slash _ x Hs), take_bytes_S, <- E.
  assert (Hne : JoinPath [base; c] <> "").
  { rewrite E. unfold unresolve. destruct rooted; [done|]. destruct (r ++ [c])%list as [|e l] eqn:El; [by destruct r|].
    rewrite list.Forall_cons in Hp. destruct Hp as [[He _] _]. destruct l; [done|]. by destruct e. }
  assert (Hcl : Clean (JoinPath [base; c]) = JoinPath [base; c]).
  { unfold JoinPath. rewrite !filter_cons_True, filter_nil by (done || apply Hc). apply Clean_idem. }
  rewrite <- Hcl at 2. unfold Clean, resolved.
  change (JoinPath [base; c] +:+ String slash "") with (JoinPath [base; c] +:+ "/" +:+ "").
  rewrite IsAbs_app, components_app_slash by done. by rewrite app_nil_r.
Qed.
