(* ===== verification/GoCrypto.v ===== *)
(** What the web gateway uses of Go's packages [crypto/sha256], [crypto/hmac],
    [encoding/base64], [encoding/hex] and [encoding/binary].  Byte slices are
    byte strings. *)

From S2P Require Import Prelude UnicodeTables GoStrings.

#[local] Open Scope Z_scope.

(** Bytes as numbers. *)
Definition octets (s : string) : list Z := map byte_val (bytes_of s).
Definition of_octets (l : list Z) : string := string_of (map byte_of l).

(** ** SHA-256 (FIPS 180-4)

    Words are 32-bit numbers in [Z]. *)

Definition w32 (z : Z) : Z := Z.land z (Z.ones 32).
Definition add32 (x y : Z) : Z := w32 (x + y).
Definition rotr (n x : Z) : Z := Z.lor (Z.shiftr x n) (w32 (Z.shiftl x (32 - n))).
Definition not32 (x : Z) : Z := Z.lxor x (Z.ones 32).

Definition Ch (x y z : Z) : Z := Z.lxor (Z.land x y) (Z.land (not32 x) z).
Definition Maj (x y z : Z) : Z := Z.lxor (Z.land x y) (Z.lxor (Z.land x z) (Z.land y z)).
Definition Sigma0 (x : Z) : Z := Z.lxor (rotr 2 x) (Z.lxor (rotr 13 x) (rotr 22 x)).
Definition Sigma1 (x : Z) : Z := Z.lxor (rotr 6 x) (Z.lxor (rotr 11 x) (rotr 25 x)).
Definition sigma0 (x : Z) : Z := Z.lxor (rotr 7 x) (Z.lxor (rotr 18 x) (Z.shiftr x 3)).
Definition sigma1 (x : Z) : Z := Z.lxor (rotr 17 x) (Z.lxor (rotr 19 x) (Z.shiftr x 10)).

(** The constants are the first 32 bits of the fractions of the cube roots of the
    first 64 primes, and of the square roots of the first eight. *)
Definition is_prime (n : nat) : bool := forallb (fun d => negb (n mod d =? 0)%nat) (seq 2 (n - 2)).
Definition first_primes (count : nat) : list Z := map Z.of_nat (take count (List.filter is_prime (seq 2 310))).
(** The largest [r] below [2 ^ bits] with [r ^ 3 <= n]. *)
Fixpoint cube_root (bits : nat) (n r : Z) : Z :=
  match bits with
  | O => r
  | S bits' => let r' := r + 2 ^ Z.of_nat bits' in cube_root bits' n (if (r' ^ 3 <=? n)%Z then r' else r)
  end.
Definition round_constants : list Z :=
  Eval vm_compute in map (fun p => w32 (cube_root 36 (p * 2 ^ 96) 0)) (first_primes 64).

Record Digest := MkDigest {
  h_a : Z; h_b : Z; h_c : Z; h_d : Z; h_e : Z; h_f : Z; h_g : Z; h_h : Z }.

Definition initial_digest : Digest :=
  Eval vm_compute in
  match map (fun p => w32 (Z.sqrt (p * 2 ^ 64))) (first_primes 8) with
  | [a; b; c; d; e; f; g; h] => MkDigest a b c d e f g h
  | _ => MkDigest 0 0 0 0 0 0 0 0
  end.

Definition sha_round (k w : Z) (d : Digest) : Digest :=
  let t1 := w32 (h_h d + Sigma1 (h_e d) + Ch (h_e d) (h_f d) (h_g d) + k + w) in
  let t2 := w32 (Sigma0 (h_a d) + Maj (h_a d) (h_b d) (h_c d)) in
  MkDigest (add32 t1 t2) (h_a d) (h_b d) (h_c d) (add32 (h_d d) t1) (h_e d) (h_f d) (h_g d).

(** The message schedule is kept as the window of the next sixteen words. *)
Definition next_word (w : list Z) : Z :=
  let at_ n := nth n w 0 in w32 (sigma1 (at_ 14%nat) + at_ 9%nat + sigma0 (at_ 1%nat) + at_ 0%nat).
Fixpoint sha_rounds (ks w : list Z) (d : Digest) : Digest :=
  match ks with
  | [] => d
  | k :: ks' => sha_rounds ks' (tl w ++ [next_word w])%list (sha_round k (hd 0 w) d)
  end.

Definition add_digests (x y : Digest) : Digest :=
  MkDigest (add32 (h_a x) (h_a y)) (add32 (h_b x) (h_b y)) (add32 (h_c x) (h_c y)) (add32 (h_d x) (h_d y))
    (add32 (h_e x) (h_e y)) (add32 (h_f x) (h_f y)) (add32 (h_g x) (h_g y)) (add32 (h_h x) (h_h y)).
Definition sha_block (d : Digest) (w : list Z) : Digest := add_digests (sha_rounds round_constants w d) d.

(** [w] big-endian bytes of a number, as [binary.BigEndian] writes them. *)
Fixpoint big_endian (w : nat) (z : Z) : list Z :=
  match w with
  | O => []
  | S w' => (Z.shiftr z (8 * Z.of_nat w') mod 256) :: big_endian w' z
  end.

Fixpoint words (l : list Z) : list Z :=
  match l with
  | a :: b :: c :: d :: r => (((a * 256 + b) * 256 + c) * 256 + d) :: words r
  | _ => []
  end.
Fixpoint sha_blocks (n : nat) (ws : list Z) (d : Digest) : Digest :=
  match n with
  | O => d
  | S n' => sha_blocks n' (skipn 16 ws) (sha_block d (firstn 16 ws))
  end.

(** The message with the bit 1, zeros and its length in bits. *)
Definition sha_padded (l : list Z) : list Z :=
  let n := Z.of_nat (length l) in
  (l ++ [128] ++ repeat 0 (Z.to_nat ((55 - n) mod 64)) ++ big_endian 8 (8 * n))%list.
Definition digest_bytes (d : Digest) : list Z :=
  concat (map (big_endian 4) [h_a d; h_b d; h_c d; h_d d; h_e d; h_f d; h_g d; h_h d]).
Definition sha256_octets (l : list Z) : list Z :=
  let m := sha_padded l in
  digest_bytes (sha_blocks (length m / 64) (words m) initial_digest).

(** [sha256.Sum256]. *)
Definition sha256 (s : string) : string := of_octets (sha256_octets (octets s)).
Definition sha256_Size : nat := 32.

(** ** HMAC (RFC 2104) *)

Definition hmac_pad (b : Z) (key : list Z) : list Z :=
  map (Z.lxor b) (key ++ repeat 0 (64 - length key))%list.
Definition hmac_sha256 (key message : string) : string :=
  let key := if Nat.ltb 64 (String.length key) then sha256_octets (octets key) else octets key in
  of_octets (sha256_octets (hmac_pad 0x5c key ++ sha256_octets (hmac_pad 0x36 key ++ octets message)))%list.

(** ** Base64 and hexadecimal text *)

Definition url_alphabet : string := "ABCDEFGHIJKLMNOPQRSTUVWXYZabcdefghijklmnopqrstuvwxyz0123456789-_".
Definition std_alphabet : string := "ABCDEFGHIJKLMNOPQRSTUVWXYZabcdefghijklmnopqrstuvwxyz0123456789+/".

Fixpoint byte_index (a : Ascii.ascii) (l : list Ascii.ascii) : option Z :=
  match l with
  | [] => None
  | b :: l' => if Ascii.eqb a b then Some 0 else Z.succ <$> byte_index a l'
  end.

Section base64.
Variable alphabet : string.

Definition char64 (v : Z) : Ascii.ascii := nth (Z.to_nat v) (bytes_of alphabet) "A"%char.
Definition val64 (a : Ascii.ascii) : option Z := byte_index a (bytes_of alphabet).

Fixpoint encode64 (l : list Z) : list Ascii.ascii :=
  match l with
  | a :: b :: c :: r =>
      char64 (a / 4) :: char64 (a mod 4 * 16 + b / 16) :: char64 (b mod 16 * 4 + c / 64) ::
      char64 (c mod 64) :: encode64 r
  | [a; b] => [char64 (a / 4); char64 (a mod 4 * 16 + b / 16); char64 (b mod 16 * 4)]
  | [a] => [char64 (a / 4); char64 (a mod 4 * 16)]
  | [] => []
  end.

(** Groups of four characters; the result holds the bytes before the first
    character that does not fit, and whether there was none.  The bits of the
    last character that no byte needs are not looked at. *)
Fixpoint decode64 (l : list Ascii.ascii) : list Z * bool :=
  match l with
  | [] => ([], true)
  | a :: l1 =>
      match val64 a, l1 with
      | Some va, b :: l2 =>
          match val64 b, l2 with
          | Some vb, [] => ([va * 4 + vb / 16], true)
          | Some vb, c :: l3 =>
              match val64 c, l3 with
              | Some vc, [] => ([va * 4 + vb / 16; vb mod 16 * 16 + vc / 4], true)
              | Some vc, d :: l4 =>
                  match val64 d with
                  | Some vd =>
                      let '(r, ok) := decode64 l4 in
                      (va * 4 + vb / 16 :: vb mod 16 * 16 + vc / 4 :: vc mod 4 * 64 + vd :: r, ok)
                  | None => ([], false)
                  end
              | None, _ => ([], false)
              end
          | None, _ => ([], false)
          end
      | _, _ => ([], false)
      end
  end.

Definition line_break (a : Ascii.ascii) : bool := (byte_val a =? 10) || (byte_val a =? 13).
(** [EncodeToString] of an encoding without padding. *)
Definition base64_Encode (s : string) : string := string_of (encode64 (octets s)).
(** [DecodeString]: line breaks in the text are skipped; the bytes come with
    whether there was no error. *)
Definition base64_Decode (s : string) : string * bool :=
  let '(l, ok) := decode64 (List.filter (fun a => negb (line_break a)) (bytes_of s)) in (of_octets l, ok).
End base64.

(** [base64.RawURLEncoding] and [base64.RawStdEncoding]. *)
Definition RawURL_Encode : string -> string := base64_Encode url_alphabet.
Definition RawURL_Decode : string -> string * bool := base64_Decode url_alphabet.
Definition RawStd_Encode : string -> string := base64_Encode std_alphabet.
Definition RawStd_Decode : string -> string * bool := base64_Decode std_alphabet.

(** [hex.EncodeToString]. *)
Definition hex_digit (v : Z) : Ascii.ascii := byte_of (if v <? 10 then 48 + v else 87 + v).
Definition hex_Encode (s : string) : string :=
  string_of (concat (map (fun b => [hex_digit (b / 16); hex_digit (b mod 16)]) (octets s))).

(** ** Test vectors *)

Example sha256_abc :
  hex_Encode (sha256 "abc") = "ba7816bf8f01cfea414140de5dae2223b00361a396177a9cb410ff61f20015ad"%string.
Proof. vm_compute. reflexivity. Qed.
Example hmac_test : hex_Encode (hmac_sha256 "Jefe" "what do ya want for nothing?")
  = "5bdcc146bf60754e6a042426089575c75a003f089d2739839dec58b964ec3843"%string.
Proof. vm_compute. reflexivity. Qed.
Example base64_test : RawURL_Encode "hello?~" = "aGVsbG8_fg"%string /\ RawURL_Decode "aGVs
bG8_fh" = ("hello?~"%string, true).
Proof. vm_compute. done. Qed.

(** ** Facts *)

Lemma octets_of_octets l : Forall (fun z => 0 <= z < 256) l -> octets (of_octets l) = l.
Proof.
  intros Hl. unfold octets, of_octets. rewrite bytes_of_string_of, map_map.
  induction Hl as [|z l Hz _ IH]; [done|]. cbn [map]. by rewrite byte_val_of, IH by done.
Qed.
Lemma of_octets_octets s : of_octets (octets s) = s.
Proof.
  unfold octets, of_octets. rewrite map_map. transitivity (string_of (bytes_of s)); [|apply string_of_bytes_of].
  f_equal. induction (bytes_of s) as [|a l IH]; [done|]. cbn [map]. rewrite IH. f_equal.
  apply byte_val_inj. rewrite byte_val_of; [done|apply byte_val_range].
Qed.
Lemma octets_range s : Forall (fun z => 0 <= z < 256) (octets s).
Proof. unfold octets. apply list.Forall_forall. intros z Hz. apply list_elem_of_In, in_map_iff in Hz
  as (a & <- & _). apply byte_val_range. Qed.
Lemma octets_inj s t : octets s = octets t -> s = t.
Proof. intros E. by rewrite <- (of_octets_octets s), E, of_octets_octets. Qed.
Lemma length_octets s : length (octets s) = String.length s.
Proof. unfold octets. by rewrite length_map, length_bytes_of. Qed.
Lemma octets_app s t : octets (s +:+ t) = (octets s ++ octets t)%list.
Proof. unfold octets. by rewrite bytes_of_app, map_app. Qed.
Lemma String_length_app s t : String.length (s +:+ t) = (String.length s + String.length t)%nat.
Proof. by rewrite <- !length_bytes_of, bytes_of_app, length_app. Qed.

Lemma length_big_endian w z : length (big_endian w z) = w.
Proof. induction w as [|w IH]; [done|]. cbn. by rewrite IH. Qed.
Lemma big_endian_range w z : Forall (fun z => 0 <= z < 256) (big_endian w z).
Proof. induction w as [|w IH]; constructor; [|done]. apply Z.mod_pos_bound. lia. Qed.

Lemma big_endian_mod w x y : big_endian w x = big_endian w y ->
  x mod 2 ^ (8 * Z.of_nat w) = y mod 2 ^ (8 * Z.of_nat w).
Proof.
  induction w as [|w IH]; intros E; [by rewrite !Z.mod_1_r|].
  cbn in E. injection E as E1 E2. apply IH in E2.
  rewrite !Z.shiftr_div_pow2 in E1 by lia.
  replace (2 ^ (8 * Z.of_nat (S w))) with (2 ^ (8 * Z.of_nat w) * 2 ^ 8)
    by (rewrite <- Z.pow_add_r by lia; f_equal; lia).
  rewrite !Z.rem_mul_r by lia. change (2 ^ 8) with 256. by rewrite E1, E2.
Qed.
(** Numbers below [256 ^ w] are known by their [w] bytes. *)
Lemma big_endian_inj w x y : 0 <= x < 2 ^ (8 * Z.of_nat w) -> 0 <= y < 2 ^ (8 * Z.of_nat w) ->
  big_endian w x = big_endian w y -> x = y.
Proof. intros Hx Hy E. apply big_endian_mod in E. by rewrite !Z.mod_small in E by done. Qed.

Lemma digest_octets d : length (digest_bytes d) = 32%nat /\ Forall (fun z => 0 <= z < 256) (digest_bytes d).
Proof.
  split; [done|]. apply List.Forall_concat, List.Forall_forall.
  intros l Hl. apply in_map_iff in Hl as (z & <- & _). apply big_endian_range.
Qed.
Lemma sha256_length s : String.length (sha256 s) = 32%nat.
Proof. unfold sha256. rewrite <- length_octets, octets_of_octets; apply digest_octets. Qed.
Lemma hmac_length k m : String.length (hmac_sha256 k m) = 32%nat.
Proof. unfold hmac_sha256. rewrite <- length_octets, octets_of_octets; apply digest_octets. Qed.

(** *** Base64 *)

Definition alphabet_ok (alphabet : string) : bool :=
  forallb (fun v => bool_decide (val64 alphabet (char64 alphabet v) = Some v) &&
                    negb (line_break (char64 alphabet v))) (map Z.of_nat (seq 0 64)).

Section base64_facts.
Context (alphabet : string) (Hok : alphabet_ok alphabet = true).

Lemma char64_ok v : 0 <= v < 64 ->
  val64 alphabet (char64 alphabet v) = Some v /\ line_break (char64 alphabet v) = false.
Proof.
  intros Hv. unfold alphabet_ok in Hok. rewrite forallb_forall in Hok.
  assert (Hin : In v (map Z.of_nat (seq 0 64))).
  { apply in_map_iff. exists (Z.to_nat v). rewrite in_seq. lia. }
  apply Hok in Hin. apply andb_true_iff in Hin as [E L].
  split; [by apply bool_decide_eq_true_1 in E | by apply negb_true_iff].
Qed.

Ltac chars := repeat rewrite (fun v H => proj1 (char64_ok v H)) by zdivmod.

Lemma triple_ind {A} (P : list A -> Prop) : P [] -> (forall a, P [a]) -> (forall a b, P [a; b]) ->
  (forall a b c l, P l -> P (a :: b :: c :: l)) -> forall l, P l.
Proof.
  intros H0 H1 H2 H3. fix IH 1. intros [|a [|b [|c l]]]; [done|apply H1|apply H2|apply H3, IH].
Qed.

(** A list of bytes, and the bits its last character carries besides. *)
Lemma decode64_encode64 l : Forall (fun z => 0 <= z < 256) l ->
  decode64 alphabet (encode64 alphabet l) = (l, true).
Proof.
  induction l as [|a|a b|a b c l IH] using triple_ind; intros Hl; [done|..];
    rewrite ?list.Forall_cons in Hl; cbn [encode64 decode64].
  - chars. repeat f_equal. zdivmod.
  - chars. repeat f_equal; zdivmod.
  - chars. rewrite IH by tauto. repeat f_equal; zdivmod.
Qed.

Lemma encode64_chars l : Forall (fun z => 0 <= z < 256) l ->
  Forall (fun a => exists v, 0 <= v < 64 /\ a = char64 alphabet v) (encode64 alphabet l).
Proof.
  induction l as [|a|a b|a b c l IH] using triple_ind; intros Hl; [done|..];
    rewrite ?list.Forall_cons in Hl; cbn [encode64]; repeat constructor;
    try (eexists; split; [|reflexivity]; zdivmod).
  apply IH. tauto.
Qed.

Lemma chars_no_breaks l : Forall (fun a => exists v, 0 <= v < 64 /\ a = char64 alphabet v) l ->
  List.filter (fun a => negb (line_break a)) l = l.
Proof.
  induction 1 as [|a k (v & Hv & ->) _ IH]; [done|].
  cbn [List.filter]. by rewrite (proj2 (char64_ok v Hv)), IH.
Qed.

Lemma base64_Decode_Encode s : base64_Decode alphabet (base64_Encode alphabet s) = (s, true).
Proof.
  unfold base64_Decode, base64_Encode. rewrite bytes_of_string_of, chars_no_breaks by apply encode64_chars, octets_range.
  rewrite decode64_encode64 by apply octets_range. by rewrite of_octets_octets.
Qed.

(** The last character of a text of [3 n + 2] bytes has two bits that no byte
    needs: four characters read the same. *)
Lemma encode64_malleable l : Forall (fun z => 0 <= z < 256) l -> (length l mod 3 = 2)%nat ->
  exists k v, encode64 alphabet l = (k ++ [char64 alphabet (4 * v)])%list /\ 0 <= v < 16 /\
    Forall (fun a => exists v, 0 <= v < 64 /\ a = char64 alphabet v) k /\
    forall r, 0 <= r < 4 -> decode64 alphabet (k ++ [char64 alphabet (4 * v + r)]) = (l, true).
Proof.
  induction l as [|a|a b|a b c l IH] using triple_ind; intros Hl Hn; [done|done|..].
  - rewrite ?list.Forall_cons in Hl.
    exists [char64 alphabet (a / 4); char64 alphabet (a mod 4 * 16 + b / 16)], (b mod 16).
    split; [by rewrite (Z.mul_comm 4)|]. split; [zdivmod|]. split.
    { repeat constructor; eexists; (split; [|reflexivity]); zdivmod. }
    intros r Hr. cbn [app decode64]. chars. repeat f_equal; zdivmod.
  - rewrite ?list.Forall_cons in Hl. destruct IH as (k & v & E & Hv & Hk & Hd); [tauto| |].
    { cbn [length] in Hn. replace (S (S (S (length l)))) with (length l + 1 * 3)%nat in Hn by lia.
      by rewrite Nat.Div0.mod_add in Hn. }
    exists (char64 alphabet (a / 4) :: char64 alphabet (a mod 4 * 16 + b / 16) ::
        char64 alphabet (b mod 16 * 4 + c / 64) :: char64 alphabet (c mod 64) :: k), v.
    cbn [encode64]. rewrite E. split; [done|]. split; [done|]. split.
    { repeat constructor; try done; eexists; (split; [|reflexivity]); zdivmod. }
    intros r Hr. cbn [app decode64]. chars. rewrite Hd by done. repeat f_equal; zdivmod.
Qed.
End base64_facts.

Lemma url_alphabet_ok : alphabet_ok url_alphabet = true.
Proof. by vm_compute. Qed.
Lemma std_alphabet_ok : alphabet_ok std_alphabet = true.
Proof. by vm_compute. Qed.

Lemma RawURL_Decode_Encode s : RawURL_Decode (RawURL_Encode s) = (s, true).
Proof. apply base64_Decode_Encode, url_alphabet_ok. Qed.
Lemma RawStd_Decode_Encode s : RawStd_Decode (RawStd_Encode s) = (s, true).
Proof. apply base64_Decode_Encode, std_alphabet_ok. Qed.
Lemma RawURL_Encode_inj s t : RawURL_Encode s = RawURL_Encode t -> s = t.
Proof. intros E. apply (f_equal RawURL_Decode) in E. rewrite !RawURL_Decode_Encode in E. congruence. Qed.
#[export] Hint Rewrite RawURL_Decode_Encode RawStd_Decode_Encode sha256_length hmac_length : haze_rw.

(** The characters of the URL alphabet are letters, digits, [-] and [_]. *)
Definition url_char (a : Ascii.ascii) : bool :=
  is_digit (byte_val a) || is_lower (byte_val a) || is_upper (byte_val a) || (byte_val a =? 45) || (byte_val a =? 95).
Lemma char64_url v : 0 <= v < 64 -> url_char (char64 url_alphabet v) = true.
Proof.
  intros Hv. assert (H : forallb (fun v => url_char (char64 url_alphabet v)) (map Z.of_nat (seq 0 64)) = true)
    by by vm_compute.
  rewrite forallb_forall in H. apply H, in_map_iff. exists (Z.to_nat v). rewrite in_seq. lia.
Qed.
Definition url_text (s : string) : Prop := Forall (fun a => url_char a = true) (bytes_of s).
Lemma RawURL_text s : url_text (RawURL_Encode s).
Proof.
  unfold url_text, RawURL_Encode, base64_Encode. rewrite bytes_of_string_of.
  eapply list.Forall_impl; [apply encode64_chars, octets_range|].
  intros a (v & Hv & ->). by apply char64_url.
Qed.

#[export] Hint Resolve RawURL_text : haze.
#[global] Opaque sha256 hmac_sha256 RawURL_Encode RawURL_Decode RawStd_Encode RawStd_Decode.
