(* ===== verification/AlertPacket.v ===== *)
(** The alert packet ([services/go/internal/alertmodel/packet.go]): the
    canonical alert payload, its normalisation, and the translation to and from
    the older flat event shape.

    Normalisation mutates [Storm] and [SAME] through their pointers; here the
    result carries the new values.  The caller's copy sees the same values
    after the call, and normalising again changes nothing
    ([Normalize_idempotent]). *)

From S2P Require Import Prelude UnicodeTables GoStrings GoTime GoValue.

#[local] Open Scope Z_scope.
#[local] Open Scope string_scope.

Definition packetVersion : Z := 1.

Definition clean (value : string) : string := TrimSpace value.
(** [strings.ToLower(clean(s))]. *)
Definition clean_lower (value : string) : string := ToLower (clean value).

Definition NUL : string := String (byte_of 0) "".

(** ** Compact lists *)

Definition uniqueClean_entry (value : string) : option (string * string) :=
  let text := clean value in
  if text =? "" then None else Some (ToLower text, text).
Definition uniqueClean (values : list string) : list string :=
  dedup_loop uniqueClean_entry ∅ values.

Definition identifier_key (i : LocationIdentifier) : string :=
  ToLower (Authority i) +:+ NUL +:+ Scheme i +:+ NUL +:+ IdentValue i.

Definition normalizeLocationIdentifier (i : LocationIdentifier) :
    option (string * LocationIdentifier) :=
  let i := MkLocationIdentifier (clean (Authority i)) (clean_lower (Scheme i)) (clean (IdentValue i)) in
  if (Scheme i =? "") || (IdentValue i =? "") then None else Some (identifier_key i, i).
Definition normalizeLocationIdentifiers (values : list LocationIdentifier) : list LocationIdentifier :=
  dedup_loop normalizeLocationIdentifier ∅ values.

(** The raw identifiers of a reference go through a loop of their own, with the
    same body. *)
Definition normalizeRawIdentifiers (values : list LocationIdentifier) : list LocationIdentifier :=
  dedup_loop normalizeLocationIdentifier ∅ values.

Definition confident (confidence : string) : bool :=
  (confidence =? "exact") || (confidence =? "high").

(** The body of the loop of [normalizeLocationReferences], up to the key. *)
Definition normalizeLocationReference (r : LocationReference) : option (string * LocationReference) :=
  let canonicalID := clean (CanonicalID r) in
  let candidateID := clean (CandidateID r) in
  let confidence := clean_lower (MatchConfidence r) in
  let raw := normalizeRawIdentifiers (RawIdentifiers r) in
  let canonical := normalizeLocationIdentifiers (CanonicalIdentifiers r) in
  let uncertain := Ambiguous r || negb (confident confidence) in
  let actionable := if uncertain then false else Actionable r in
  let candidateID :=
    if uncertain then (if candidateID =? "" then canonicalID else candidateID) else candidateID in
  let canonicalID := if uncertain then "" else canonicalID in
  let actionable := if canonicalID =? "" then false else actionable in
  let key := ToLower canonicalID in
  let key := match key, raw with
             | "", identifier :: _ => identifier_key identifier
             | _, _ => key
             end in
  if key =? "" then None
  else Some (key,
    MkLocationReference canonicalID candidateID (clean (LocName r)) (clean (LocKind r))
      (clean (Country r)) (clean (Region r)) raw canonical (MatchScore r) confidence
      (clean (MatchMethod r)) (SourceQuality r) (clean (CatalogGeneration r))
      actionable (Ambiguous r)).
Definition normalizeLocationReferences (values : list LocationReference) : list LocationReference :=
  dedup_loop normalizeLocationReference ∅ values.

Definition normalizeThreatArea (a : ThreatArea) : option (string * ThreatArea) :=
  let status := clean_lower (TA_Status a) in
  let polygons := uniqueClean (Polygons a) in
  let a := MkThreatArea status (clean (TA_Description a)) polygons (uniqueClean (CAPCPLocations a)) in
  if (status =? "") || (length polygons =? 0)%nat then None
  else Some (status +:+ NUL +:+ Join polygons NUL, a).
Definition normalizeThreatAreas (values : list ThreatArea) : list ThreatArea :=
  dedup_loop normalizeThreatArea ∅ values.

(** ** [Packet.Normalize] *)

Definition normalizeStorm (s : StormInfo) : StormInfo :=
  MkStormInfo (clean (Speed s)) (SpeedValue s) (clean_lower (SpeedUnit s)) (DirectionDegrees s)
    (clean_lower (GeometryType s)) (Points s) (clean (StormTime s)) (clean (MotionDescription s))
    (clean (PositionDescription s)) (clean (ReferenceLocationPoints s)).

Definition normalizeSAME (s : SAME) : SAME :=
  MkSAME (Include s) (SuppressedReason s) (SameEvent s) (SameEventName s) (EventSource s)
    (EventReason s) (EventConfidence s) (AlertClass s) (Phenomenon s) (Originator s)
    (OriginatorName s) (WeatherService s) (uniqueClean (SameLocations s)) (Duration s)
    (SameSentAt s) (BeginsAt s) (SameExpiresAt s) (Tone s) (Callsign s) (Header s) (Translation s).

Definition normalizeAreas (a : Areas) : Areas :=
  MkAreas (uniqueClean (Names a)) (uniqueClean (Codes a))
    (normalizeLocationReferences (Locations a)) (normalizeThreatAreas (ThreatAreas a)).

Definition Normalize (p : Packet) : Packet :=
  MkPacket (if Version p =? 0 then packetVersion else Version p)%Z
    (clean (ID p)) (clean (Source p)) (clean (FeedID p)) (uniqueClean (FeedIDs p))
    (clean (MessageType p)) (PContent p) (PTiming p) (normalizeAreas (PAreas p))
    (normalizeStorm <$> Storm p) (normalizeSAME <$> PSAME p) (PAudio p) (POptions p)
    (PPresentation p) (Meta p).

(** ** Reading transport maps *)

Definition BodyText (p : Packet) : string :=
  if negb (clean (CustomText (PContent p)) =? "") then clean (CustomText (PContent p))
  else Join (trimmed_nonblank [Description (PContent p); Instruction (PContent p)]) " ".

Fixpoint firstNonBlank (values : list string) : string :=
  match values with
  | [] => ""
  | value :: values' => if negb (clean value =? "") then clean value else firstNonBlank values'
  end.

Fixpoint packet_firstValue (data : obj) (keys : list string) : any :=
  match keys with
  | [] => ANil
  | key :: keys' =>
      match data !! key with
      | Some value => value
      | None => packet_firstValue data keys'
      end
  end.

Definition boolValueDefault (value : any) (fallback : bool) : bool :=
  match value with
  | ABool b => b
  | AString s =>
      if mem (clean_lower s) ["true"; "1"; "yes"; "on"; "enabled"] then true
      else if mem (clean_lower s) ["false"; "0"; "no"; "off"; "disabled"] then false
      else fallback
  | AFloat f => negb (f64_eqb f (f64_of_Z 0))
  | AInt z => negb (z =? 0)%Z
  | _ => fallback
  end.
Definition boolValue (value : any) : bool := boolValueDefault value false.

(** The decimal digits at the front of a string, with how many there are. *)
Fixpoint leading_digits (acc : Z) (s : string) : Z * nat * string :=
  match s with
  | String a s' =>
      if is_digit (byte_val a) then
        let '(v, n, rest) := leading_digits (acc * 10 + (byte_val a - 48)) s' in (v, S n, rest)
      else (acc, O, s)
  | EmptyString => (acc, O, s)
  end.
(** A signed decimal of 64 bits at the front of [s], and what follows it. *)
Definition scan_int64 (s : string) : option (Z * string) :=
  let '(sign, s) :=
    match s with
    | String a s' =>
        if Ascii.eqb a "-"%char then (-1, s') else if Ascii.eqb a "+"%char then (1, s') else (1, s)
    | EmptyString => (1, s)
    end in
  match leading_digits 0 s with
  | (_, O, _) => None
  | (v, _, rest) => if in_range min_int64 max_int64 (sign * v) then Some (sign * v, rest) else None
  end.
(** [strconv.ParseInt(s, 10, 64)]. *)
Definition ParseInt (s : string) : option Z :=
  match scan_int64 s with Some (v, "") => Some v | _ => None end.

Definition intValue (value : any) : Z :=
  match value with
  | AInt z | AInt64 z => z
  | AFloat f => f64_trunc f
  | ANumber s => default 0 (ParseInt s)
  | AString s => match scan_int64 (clean s) with Some (v, _) => v | None => 0 end
  | _ => 0
  end.

Definition has_key (data : obj) (key : string) : bool :=
  match data !! key with Some _ => true | None => false end.
Definition hasSAMEFields (data : obj) : bool :=
  existsb (has_key data)
    ["include_same"; "same_event"; "same_originator"; "same_locations"; "same_translation"; "same_intro"].
Definition hasAudioFields (data : obj) : bool :=
  existsb (has_key data) ["audio_url"; "authoritative_url"; "audio_path"; "audio_format"; "sample_rate"].

(** How [encoding/json] reads a value back as one of the structs. *)
Class JSON := {
  json_Packet_of_map : obj -> option Packet;
  json_Packet_of_string : string -> option Packet;
  json_LocationReferences : any -> option (list LocationReference);
  json_ThreatAreas : any -> option (list ThreatArea);
  json_StormInfo : any -> option StormInfo;
  sprint_struct : any -> string
}.

Section transport.
Context `{JSON}.

Definition Sprint := GoValue.Sprint sprint_struct.

(** The text of a value, when it is neither blank nor [<nil>]. *)
Definition legible (value : any) : option string :=
  let text := clean (Sprint value) in
  if (text =? "") || (text =? "<nil>") then None else Some text.

Fixpoint packet_firstText (data : obj) (keys : list string) : string :=
  match keys with
  | [] => ""
  | key :: keys' =>
      match data !! key ≫= legible with
      | Some text => text
      | None => packet_firstText data keys'
      end
  end.

Definition stringList (value : any) : list string :=
  uniqueClean
    match value with
    | AStrings typed => typed
    | AList typed => omap legible typed
    | AString typed => trimmed_nonblank (Split ","%char (clean typed))
    | _ => []
    end.

Definition locationReferences (value : any) : list LocationReference :=
  match value with
  | ANil => []
  | ALocationReferences typed => normalizeLocationReferences typed
  | _ => match json_LocationReferences value with
         | Some references => normalizeLocationReferences references
         | None => []
         end
  end.

Definition threatAreas (value : any) : list ThreatArea :=
  match value with
  | ANil => []
  | AThreatAreas typed => normalizeThreatAreas typed
  | _ => match json_ThreatAreas value with
         | Some areas => normalizeThreatAreas areas
         | None => []
         end
  end.

Definition stormInfo (value : any) : option StormInfo :=
  match value with
  | ANil => None
  | AStormPtr typed => typed
  | AStorm typed => Some typed
  | _ => json_StormInfo value
  end.

Definition packetFromAny (value : any) : option Packet :=
  match value with
  | APacket typed => Some typed
  | APacketPtr typed => typed
  | AMap typed => json_Packet_of_map typed
  | AString typed => json_Packet_of_string typed
  | _ => None
  end.

(** [Packet{}]. *)
Definition zeroPacket : Packet :=
  MkPacket 0 "" "" "" [] "" (MkContent "" "" "" "" "" "" "" "" "" "" "") (MkTiming "" "" "" "" "")
    (MkAreas [] [] [] []) None None None (MkOptions false false) (MkPresentation "" "") ∅.

Definition legacyContent (data : obj) : Content :=
  let text := packet_firstText data in
  let customText := text ["custom_text"; "voice_message"; "text"; "message"] in
  let speechText := text ["alert_text"; "tts_text"] in
  MkContent (text ["title"; "header"]) (text ["headline"]) (text ["event"])
    (text ["same_event_name"; "event_name"]) (text ["severity"]) (text ["urgency"])
    (text ["certainty"]) (text ["description"]) (text ["instruction"])
    (if (customText =? "") && negb (speechText =? "") then speechText else customText)
    (text ["background_color"]).

Definition legacyTiming (data : obj) : Timing :=
  let text := packet_firstText data in
  MkTiming (text ["alert_sent_at"; "sent"]) (text ["effective"; "effective_at"])
    (text ["onset"; "onset_at"]) (text ["alert_expires_at"; "expires"; "expires_at"])
    (text ["scheduled_for"; "schedule_at"]).

Definition legacyAreas (data : obj) : Areas :=
  MkAreas (stringList (packet_firstValue data ["area_names"; "areas"]))
    (stringList (packet_firstValue data ["same_locations"; "locations"]))
    (locationReferences (packet_firstValue data ["canonical_locations"]))
    (threatAreas (packet_firstValue data ["threat_areas"])).

Definition legacySAME (data : obj) : SAME :=
  let text := packet_firstText data in
  MkSAME (boolValueDefault (packet_firstValue data ["include_same"]) true)
    (text ["same_suppressed_reason"]) (text ["same_event"]) (text ["same_event_name"])
    (text ["same_event_source"]) (text ["same_event_reason"]) (text ["same_event_confidence"])
    (text ["same_alert_class"]) (text ["same_event_phenomenon"]) (text ["same_originator"])
    (text ["same_originator_name"]) (text ["same_weather_service"])
    (stringList (packet_firstValue data ["same_locations"; "locations"]))
    (text ["same_duration"]) (text ["same_sent_at"]) (text ["same_begins_at"])
    (text ["same_expires_at"]) (text ["same_tone"]) (text ["same_callsign"])
    (text ["same_header"]) (text ["same_translation"; "same_intro"]).

Definition legacyAudio (data : obj) : Audio :=
  let text := packet_firstText data in
  MkAudio (text ["audio_url"; "authoritative_url"]) (text ["audio_mime_type"])
    (text ["audio_language"]) (text ["audio_description"])
    (boolValue (packet_firstValue data ["audio_authoritative"])) (text ["audio_path"])
    (text ["audio_format"; "format"]) (intValue (packet_firstValue data ["sample_rate"]))
    (intValue (packet_firstValue data ["channels"]))
    (intValue (packet_firstValue data ["audio_bytes"])) (text ["source"]).

(** A [nil] map is [None]. *)
Definition LegacyFromMap (data : option obj) : Packet :=
  match data with
  | None => zeroPacket
  | Some data =>
      let text := packet_firstText data in
      MkPacket packetVersion (text ["alert_id"; "id"; "identifier"; "subject"])
        (text ["cap_source"; "source"]) (text ["feed_id"])
        (stringList (packet_firstValue data ["feed_ids"])) (text ["message_type"; "msg_type"])
        (legacyContent data) (legacyTiming data) (legacyAreas data)
        (stormInfo (packet_firstValue data ["storm"; "storm_characteristics"]))
        (if hasSAMEFields data then Some (legacySAME data) else None)
        (if hasAudioFields data then Some (legacyAudio data) else None)
        (MkOptions (boolValue (packet_firstValue data ["broadcast_immediate"]))
           (boolValue (packet_firstValue data ["prepend_same_translation"])))
        (MkPresentation (text ["alert_text"; "tts_text"]) (text ["banner_text"])) ∅
  end.

Definition has_substance (p : Packet) : bool :=
  negb (ID p =? "") || negb (Event (PContent p) =? "") ||
  negb (Description (PContent p) =? "") || negb (CustomText (PContent p) =? "").

Definition FromMap (data : option obj) : Packet * bool :=
  match data with
  | None => (zeroPacket, false)
  | Some m =>
      match m !! "alert_packet" ≫= packetFromAny with
      | Some packet => (Normalize packet, true)
      | None => let packet := Normalize (LegacyFromMap data) in (packet, has_substance packet)
      end
  end.
End transport.

(** ** The flat shape *)

(** [setText(out, key, value)]: a guarded assignment. *)
Definition setText (key value : string) : string * option any :=
  (key, if clean value =? "" then None else Some (AString (clean value))).
Definition set (key : string) (v : any) : string * option any := (key, Some v).
Definition set_if (b : bool) (key : string) (v : any) : string * option any :=
  (key, if b then Some v else None).
Definition setStrings (key : string) (l : list string) : string * option any :=
  set_if (0 <? length l)%nat key (AStrings l).

Definition sameFields (s : SAME) : list (string * option any) :=
  [set "include_same" (ABool (Include s));
   setText "same_suppressed_reason" (SuppressedReason s);
   setText "same_event" (SameEvent s); setText "same_event_name" (SameEventName s);
   setText "same_event_source" (EventSource s); setText "same_event_reason" (EventReason s);
   setText "same_event_confidence" (EventConfidence s);
   setText "same_alert_class" (AlertClass s); setText "same_event_phenomenon" (Phenomenon s);
   setText "same_originator" (Originator s); setText "same_originator_name" (OriginatorName s);
   setText "same_weather_service" (WeatherService s);
   setStrings "same_locations" (SameLocations s); setText "same_duration" (Duration s);
   setText "same_sent_at" (SameSentAt s); setText "same_begins_at" (BeginsAt s);
   setText "same_expires_at" (SameExpiresAt s); setText "same_tone" (Tone s);
   setText "same_callsign" (Callsign s); setText "same_header" (Header s);
   setText "same_intro" (Translation s); setText "same_translation" (Translation s)].

Definition audioFields (a : Audio) : list (string * option any) :=
  [setText "audio_url" (URL a); setText "authoritative_url" (URL a);
   setText "audio_mime_type" (MimeType a); setText "audio_language" (Language a);
   setText "audio_description" (AudioDescription a);
   set_if (Authoritative a) "audio_authoritative" (ABool true);
   setText "audio_path" (Path a); setText "audio_format" (Format a);
   set_if (0 <? SampleRate a)%Z "sample_rate" (AInt (SampleRate a));
   set_if (0 <? Channels a)%Z "channels" (AInt (Channels a));
   set_if (0 <? Bytes a)%Z "audio_bytes" (AInt (Bytes a))].

Definition areaFields (a : Areas) : list (string * option any) :=
  [setStrings "area_names" (Names a); setStrings "locations" (Codes a);
   set_if (0 <? length (Locations a))%nat "canonical_locations" (ALocationReferences (Locations a));
   set_if (0 <? length (ThreatAreas a))%nat "threat_areas" (AThreatAreas (ThreatAreas a))].

Definition contentFields (p : Packet) : list (string * option any) :=
  let c := PContent p in
  let t := PTiming p in
  [setText "title" (firstNonBlank [Headline c; Title c]); setText "headline" (Headline c);
   setText "event" (firstNonBlank [Event c; EventName c]);
   setText "severity" (Severity c); setText "urgency" (Urgency c);
   setText "certainty" (Certainty c); setText "description" (Description c);
   setText "instruction" (Instruction c); setText "background_color" (BackgroundColor c);
   setText "alert_sent_at" (SentAt t); setText "effective" (EffectiveAt t);
   setText "onset" (OnsetAt t); setText "alert_expires_at" (ExpiresAt t);
   setText "scheduled_for" (ScheduledFor t)].

Definition optionFields (p : Packet) : list (string * option any) :=
  [("storm", (fun s => AStormPtr (Some s)) <$> Storm p);
   set_if (negb (SpeechText (PPresentation p) =? "")) "alert_text" (AString (SpeechText (PPresentation p)));
   set_if (negb (BannerText (PPresentation p) =? "")) "banner_text" (AString (BannerText (PPresentation p)));
   set_if (BroadcastImmediate (POptions p)) "broadcast_immediate" (ABool true);
   set_if (PrependSAMETranslation (POptions p)) "prepend_same_translation" (ABool true)].

(** The assignments of [LegacyFields], in order. *)
Definition legacy_assignments (p : Packet) : list (string * option any) :=
  [set "alert_id" (AString (ID p)); set "message_type" (AString (MessageType p));
   set "source" (AString (Source p)); set "alert_source" (AString (Source p));
   set "cap_source" (AString (Source p)); setText "feed_id" (FeedID p);
   setStrings "feed_ids" (FeedIDs p)] ++
  contentFields p ++ areaFields (PAreas p) ++ optionFields p ++
  from_option sameFields [] (PSAME p) ++ from_option audioFields [] (PAudio p).

Definition LegacyFields (packet : Packet) : obj :=
  assign_all ∅ (legacy_assignments (Normalize packet)).

Definition WithLegacyFields (packet : Packet) (extra : obj) : obj :=
  <["alert_packet" := APacket (Normalize packet)]> (extra ∪ LegacyFields packet).

Definition MergePacketFields `{JSON} (data : option obj) : option obj :=
  match FromMap data with
  | (_, false) => data
  | (packet, true) =>
      Some (<["alert_packet" := APacket (Normalize packet)]>
              (default ∅ data ∪ LegacyFields packet))
  end.

(** What the flat shape keeps of a packet: the view its readers get back. *)
Definition flat_text (s : string) : string :=
  let text := clean s in if text =? "<nil>" then "" else text.

Definition flat_SAME (s : SAME) (codes : list string) : SAME :=
  MkSAME (Include s) (flat_text (SuppressedReason s)) (flat_text (SameEvent s))
    (flat_text (SameEventName s)) (flat_text (EventSource s)) (flat_text (EventReason s))
    (flat_text (EventConfidence s)) (flat_text (AlertClass s)) (flat_text (Phenomenon s))
    (flat_text (Originator s)) (flat_text (OriginatorName s)) (flat_text (WeatherService s))
    codes (flat_text (Duration s)) (flat_text (SameSentAt s)) (flat_text (BeginsAt s))
    (flat_text (SameExpiresAt s)) (flat_text (Tone s)) (flat_text (Callsign s))
    (flat_text (Header s)) (flat_text (Translation s)).

(** The codes a flat event is targeted at: the SAME locations when there are
    any, the area codes otherwise. *)
Definition flat_codes (p : Packet) : list string :=
  match uniqueClean (from_option SameLocations [] (PSAME p)) with
  | [] => uniqueClean (Codes (PAreas p))
  | codes => codes
  end.

Definition flat_content (p : Packet) : Content :=
  let c := PContent p in
  MkContent (flat_text (firstNonBlank [Headline c; Title c])) (flat_text (Headline c))
    (flat_text (firstNonBlank [Event c; EventName c]))
    (from_option (fun s => flat_text (SameEventName s)) "" (PSAME p))
    (flat_text (Severity c)) (flat_text (Urgency c)) (flat_text (Certainty c))
    (flat_text (Description c)) (flat_text (Instruction c))
    (flat_text (SpeechText (PPresentation p))) (flat_text (BackgroundColor c)).

Definition flat_timing (t : Timing) : Timing :=
  MkTiming (flat_text (SentAt t)) (flat_text (EffectiveAt t)) (flat_text (OnsetAt t))
    (flat_text (ExpiresAt t)) (flat_text (ScheduledFor t)).

(** Audio without an address, a path, a format or a rate is dropped. *)
Definition flat_audio (source : string) (a : Audio) : option Audio :=
  if (clean (URL a) =? "") && (clean (Path a) =? "") && (clean (Format a) =? "") &&
     negb (0 <? SampleRate a)%Z
  then None
  else Some (MkAudio (flat_text (URL a)) (flat_text (MimeType a)) (flat_text (Language a))
    (flat_text (AudioDescription a)) (Authoritative a) (flat_text (Path a)) (flat_text (Format a))
    (Z.max 0 (SampleRate a)) (Z.max 0 (Channels a)) (Z.max 0 (Bytes a)) (flat_text source)).

Definition flat_view (p : Packet) : Packet :=
  MkPacket packetVersion (flat_text (ID p)) (flat_text (Source p)) (flat_text (FeedID p))
    (uniqueClean (FeedIDs p)) (flat_text (MessageType p)) (flat_content p) (flat_timing (PTiming p))
    (MkAreas (uniqueClean (Names (PAreas p))) (flat_codes p)
       (normalizeLocationReferences (Locations (PAreas p)))
       (normalizeThreatAreas (ThreatAreas (PAreas p))))
    (normalizeStorm <$> Storm p)
    ((fun s => flat_SAME s (flat_codes p)) <$> PSAME p)
    (PAudio p ≫= flat_audio (Source p))
    (POptions p)
    (MkPresentation (flat_text (SpeechText (PPresentation p)))
       (flat_text (BannerText (PPresentation p)))) ∅.

(** ** Facts *)

#[local] Arguments clean : simpl never.

Lemma clean_idem s : clean (clean s) = clean s.
Proof. apply TrimSpace_idem. Qed.
Lemma clean_lower_idem s : clean_lower (clean_lower s) = clean_lower s.
Proof.
  unfold clean_lower, clean. rewrite TrimSpace_ToLower_TrimSpace. apply ToLower_idem.
Qed.
Lemma clean_nil : clean "" = "".
Proof. by vm_compute. Qed.
#[export] Hint Rewrite clean_idem clean_lower_idem clean_nil : haze_rw.

Lemma uniqueClean_entry_fixed v k t :
  uniqueClean_entry v = Some (k, t) -> uniqueClean_entry t = Some (k, t).
Proof.
  unfold uniqueClean_entry. intros H. go_cases; autorewrite with haze_rw in *; congruence.
Qed.
Lemma uniqueClean_idem l : uniqueClean (uniqueClean l) = uniqueClean l.
Proof. apply dedup_loop_idem, uniqueClean_entry_fixed. Qed.

Lemma normalizeLocationIdentifier_fixed i k j :
  normalizeLocationIdentifier i = Some (k, j) -> normalizeLocationIdentifier j = Some (k, j).
Proof.
  unfold normalizeLocationIdentifier at 1. intros H. simpl in H. go_cases.
  unfold normalizeLocationIdentifier. simpl. autorewrite with haze_rw. by rewrite Heqb.
Qed.
Lemma normalizeLocationIdentifiers_idem l :
  normalizeLocationIdentifiers (normalizeLocationIdentifiers l) = normalizeLocationIdentifiers l.
Proof. apply dedup_loop_idem, normalizeLocationIdentifier_fixed. Qed.
Lemma normalizeRawIdentifiers_idem l :
  normalizeRawIdentifiers (normalizeRawIdentifiers l) = normalizeRawIdentifiers l.
Proof. apply normalizeLocationIdentifiers_idem. Qed.
#[export] Hint Rewrite uniqueClean_idem normalizeLocationIdentifiers_idem
  normalizeRawIdentifiers_idem : haze_rw.

Lemma normalizeLocationReference_fixed r k r' :
  normalizeLocationReference r = Some (k, r') -> normalizeLocationReference r' = Some (k, r').
Proof.
  unfold normalizeLocationReference. intros H.
  destruct (Ambiguous r || negb (confident (clean_lower (MatchConfidence r)))) eqn:E;
    simpl in H.
  - destruct (_ =? "") eqn:Ek in H; simplify_eq; simpl.
    autorewrite with haze_rw. rewrite E. simpl.
    destruct (clean (CandidateID r) =? "") eqn:Ec;
      autorewrite with haze_rw; simpl; rewrite ?Ec; rewrite ?Ek; [|done].
    destruct (clean (CanonicalID r) =? "") eqn:Ei; [|done]. bool_hyps. by rewrite Ei.
  - destruct (_ =? "") eqn:Ek in H; simplify_eq; simpl.
    autorewrite with haze_rw. rewrite E, Ek. simpl.
    destruct (clean (CanonicalID r) =? ""); done.
Qed.
Lemma normalizeLocationReferences_idem l :
  normalizeLocationReferences (normalizeLocationReferences l) = normalizeLocationReferences l.
Proof. apply dedup_loop_idem, normalizeLocationReference_fixed. Qed.

Lemma normalizeThreatArea_fixed a k b :
  normalizeThreatArea a = Some (k, b) -> normalizeThreatArea b = Some (k, b).
Proof.
  unfold normalizeThreatArea at 1. intros H. simpl in H. go_cases.
  unfold normalizeThreatArea. simpl. autorewrite with haze_rw. by rewrite Heqb0.
Qed.
Lemma normalizeThreatAreas_idem l :
  normalizeThreatAreas (normalizeThreatAreas l) = normalizeThreatAreas l.
Proof. apply dedup_loop_idem, normalizeThreatArea_fixed. Qed.
#[export] Hint Rewrite normalizeLocationReferences_idem normalizeThreatAreas_idem : haze_rw.

Lemma normalizeStorm_idem s : normalizeStorm (normalizeStorm s) = normalizeStorm s.
Proof. unfold normalizeStorm; simpl. by autorewrite with haze_rw. Qed.
Lemma normalizeSAME_idem s : normalizeSAME (normalizeSAME s) = normalizeSAME s.
Proof. unfold normalizeSAME; simpl. by autorewrite with haze_rw. Qed.
Lemma normalizeAreas_idem a : normalizeAreas (normalizeAreas a) = normalizeAreas a.
Proof. unfold normalizeAreas; simpl. by autorewrite with haze_rw. Qed.
#[export] Hint Rewrite normalizeStorm_idem normalizeSAME_idem normalizeAreas_idem : haze_rw.

Lemma Normalize_idem p : Normalize (Normalize p) = Normalize p.
Proof.
  unfold Normalize; simpl. autorewrite with haze_rw.
  f_equal.
  - destruct (Version p =? 0)%Z eqn:E; [done|]. by rewrite E.
  - destruct (Storm p); simpl; by autorewrite with haze_rw.
  - destruct (PSAME p); simpl; by autorewrite with haze_rw.
Qed.
#[export] Hint Rewrite Normalize_idem : haze_rw.

(** ** Facts: reading the flat shape *)

Lemma LegacyFields_lookup p k :
  LegacyFields p !! k = assigned k (legacy_assignments (Normalize p)).
Proof. unfold LegacyFields. rewrite assign_all_lookup. by destruct (assigned _ _). Qed.

Lemma flat_text_clean s : flat_text (clean s) = flat_text s.
Proof. unfold flat_text. by autorewrite with haze_rw. Qed.
#[export] Hint Rewrite flat_text_clean : haze_rw.

Lemma firstNonBlank_clean vs : clean (firstNonBlank vs) = firstNonBlank vs.
Proof.
  induction vs as [|v vs IH]; simpl; [apply clean_nil|].
  destruct (negb (clean v =? "")); [apply clean_idem | done].
Qed.

Section reading.
Context `{JSON}.

Definition legible_text (s : string) : option string :=
  if flat_text s =? "" then None else Some (flat_text s).

Lemma legible_string s : legible (AString s) = legible_text s.
Proof.
  unfold legible, legible_text, flat_text. simpl. destruct (clean s =? "") eqn:E; simpl.
  - bool_hyps. by rewrite E.
  - destruct (clean s =? "<nil>"); simpl; [done|]. by rewrite E.
Qed.

(** The guarded assignments as a reader meets them. *)
Lemma legible_setText s :
  (if clean s =? "" then None else Some (AString (clean s))) ≫= legible = legible_text s.
Proof.
  destruct (clean s =? "") eqn:E; simpl.
  - bool_hyps. unfold legible_text, flat_text. by rewrite E.
  - rewrite legible_string. unfold legible_text. by rewrite flat_text_clean.
Qed.

Lemma legible_nonempty s :
  (if negb (s =? "") then Some (AString s) else None) ≫= legible = legible_text s.
Proof.
  destruct (s =? "") eqn:E; simpl; [|apply legible_string].
  bool_hyps. subst. unfold legible_text, flat_text. by rewrite clean_nil.
Qed.

Lemma legible_text_default s :
  match legible_text s with Some t => t | None => "" end = flat_text s.
Proof.
  unfold legible_text. destruct (flat_text s =? "") eqn:E; bool_hyps; congruence.
Qed.

Lemma legible_text_twice s :
  match legible_text s with Some t => t | None => flat_text s end = flat_text s.
Proof. unfold legible_text. by destruct (flat_text s =? ""). Qed.

Lemma stringList_assigned l :
  stringList match (if (0 <? length l)%nat then Some (AStrings l) else None) with
             | Some v => v | None => ANil end = uniqueClean l.
Proof. by destruct l. Qed.

Lemma intValue_assigned z :
  intValue match (if (0 <? z)%Z then Some (AInt z) else None) with
           | Some v => v | None => ANil end = Z.max 0 z.
Proof. destruct (0 <? z)%Z eqn:E; bool_hyps; simpl; lia. Qed.

Lemma boolValue_assigned b :
  boolValue match (if (b : bool) then Some (ABool true) else None) with
            | Some v => v | None => ANil end = b.
Proof. by destruct b. Qed.

Lemma stringList_assigned_first l l' :
  stringList match (if (0 <? length (uniqueClean l))%nat then Some (AStrings (uniqueClean l))
                    else None) with
             | Some v => v
             | None => match (if (0 <? length (uniqueClean l'))%nat
                              then Some (AStrings (uniqueClean l')) else None) with
                       | Some v => v | None => ANil end
             end = match uniqueClean l with [] => uniqueClean l' | codes => codes end.
Proof.
  destruct (uniqueClean l) eqn:E; simpl.
  - rewrite stringList_assigned. by autorewrite with haze_rw.
  - rewrite <- E. apply uniqueClean_idem.
Qed.

Lemma locationReferences_assigned l :
  locationReferences match (if (0 <? length l)%nat then Some (ALocationReferences l) else None) with
                     | Some v => v | None => ANil end = normalizeLocationReferences l.
Proof. by destruct l. Qed.

Lemma threatAreas_assigned l :
  threatAreas match (if (0 <? length l)%nat then Some (AThreatAreas l) else None) with
              | Some v => v | None => ANil end = normalizeThreatAreas l.
Proof. by destruct l. Qed.

Lemma if_nonempty s : (if negb (s =? "") then s else "") = s.
Proof. destruct (s =? "") eqn:E; simpl; [by bool_hyps | done]. Qed.

End reading.

(** Reduce a lookup of a literal key in the flat shape to its assignment. *)
Ltac flat_lookup p :=
  rewrite ?LegacyFields_lookup;
  unfold legacy_assignments, contentFields, areaFields, optionFields, sameFields, audioFields,
    setStrings, setText, set, set_if;
  destruct p as [????????? storm [same|] [audio|] ???];
  cbn -[clean uniqueClean flat_text legible Z.ltb Nat.ltb normalizeLocationReferences
        normalizeThreatAreas legible_text].

Ltac flat_texts :=
  rewrite ?legible_setText, ?legible_nonempty, ?legible_string, ?legible_text_default,
    ?legible_text_twice, ?stringList_assigned, ?stringList_assigned_first, ?intValue_assigned, ?boolValue_assigned,
    ?locationReferences_assigned, ?threatAreas_assigned, ?if_nonempty;
  autorewrite with haze_rw.

Section flat.
Context `{JSON}.

Lemma legacyContent_flat p : legacyContent (LegacyFields p) = flat_content p.
Proof.
  unfold legacyContent, flat_content, packet_firstText. flat_lookup p. all: by flat_texts.
Qed.

Lemma legacyTiming_flat p : legacyTiming (LegacyFields p) = flat_timing (PTiming p).
Proof.
  unfold legacyTiming, flat_timing, packet_firstText. flat_lookup p. all: by flat_texts.
Qed.

Lemma legacyAreas_flat p : legacyAreas (LegacyFields p) = PAreas (flat_view p).
Proof.
  unfold legacyAreas, flat_view, flat_codes, packet_firstValue. flat_lookup p.
  all: by flat_texts.
Qed.

Lemma legacySAME_flat p :
  (if hasSAMEFields (LegacyFields p) then Some (legacySAME (LegacyFields p)) else None) =
  (fun s => flat_SAME s (flat_codes p)) <$> PSAME p.
Proof.
  unfold hasSAMEFields. cbn [existsb].
  unfold has_key, legacySAME, flat_SAME, flat_codes, packet_firstValue,
    packet_firstText.
  flat_lookup p. all: by flat_texts.
Qed.

Lemma has_set_text s :
  match (if clean s =? "" then None else Some (AString (clean s))) with
  | Some _ => true | None => false end = negb (clean s =? "").
Proof. by destruct (clean s =? ""). Qed.
Lemma has_set_int z :
  match (if (0 <? z)%Z then Some (AInt z) else None) with
  | Some _ => true | None => false end = (0 <? z)%Z.
Proof. by destruct (0 <? z)%Z. Qed.

Lemma legacyAudio_flat p :
  (if hasAudioFields (LegacyFields p) then Some (legacyAudio (LegacyFields p)) else None) =
  PAudio p ≫= flat_audio (Source p).
Proof.
  unfold hasAudioFields. cbn [existsb].
  unfold has_key, legacyAudio, flat_audio, packet_firstValue, packet_firstText.
  flat_lookup p. all: try done. all: rewrite ?has_set_text, ?has_set_int; flat_texts.
  all: destruct (clean (URL audio) =? ""), (clean (Path audio) =? ""),
    (clean (Format audio) =? ""), (0 <? SampleRate audio)%Z; done.
Qed.

Lemma legacy_storm p :
  stormInfo (packet_firstValue (LegacyFields p) ["storm"; "storm_characteristics"]) =
  normalizeStorm <$> Storm p.
Proof. unfold packet_firstValue. flat_lookup p. all: by destruct storm. Qed.

Lemma has_substance_ID p : ID p <> "" -> has_substance p = true.
Proof. intros Hp. unfold has_substance. destruct (String.eqb_spec (ID p) ""); done. Qed.
End flat.

(** A message after the overlay: its own fields first, the packet's second. *)
Lemma MergePacketFields_lookup `{JSON} (data : obj) (k : string) : k <> "alert_packet" ->
  exists out, MergePacketFields (Some data) = Some out /\
    out !! k = match data !! k with
               | Some v => Some v
               | None => let '(p, ok) := FromMap (Some data) in
                         if ok then LegacyFields p !! k else None
               end.
Proof.
  intros Hk. unfold MergePacketFields. destruct (FromMap (Some data)) as [p []].
  - eexists. split; [done|]. rewrite lookup_insert_ne, lookup_union by done. simpl.
    by destruct (data !! k), (LegacyFields p !! k).
  - exists data. split; [done|]. by destruct (data !! k).
Qed.

(** ** Properties *)

(** A decoder that rejects everything, for concrete runs. *)
#[export] Instance reject_JSON : JSON | 1000 := {
  json_Packet_of_map _ := None; json_Packet_of_string _ := None;
  json_LocationReferences _ := None; json_ThreatAreas _ := None; json_StormInfo _ := None;
  sprint_struct _ := "" }.

(** The transport round trip.  A packet sent with [WithLegacyFields], with
    whatever extra transport fields, is read back by [FromMap] as the same
    packet in normal form, and is reported present. *)
Theorem FromMap_WithLegacyFields `{JSON} (p : Packet) (extra : obj) :
  FromMap (Some (WithLegacyFields p extra)) = (Normalize p, true).
Proof.
  unfold FromMap, WithLegacyFields. rewrite lookup_insert_eq. simpl. by rewrite !Normalize_idem.
Qed.

(** Confidence gates targeting.  After [Normalize], a location reference
    that is still actionable names a canonical location, is not ambiguous, and
    was matched with exact or high confidence. *)
Theorem Normalize_actionable (p : Packet) (r : LocationReference) :
  In r (Locations (PAreas (Normalize p))) -> Actionable r = true ->
  CanonicalID r <> "" /\ Ambiguous r = false /\
  (MatchConfidence r = "exact" \/ MatchConfidence r = "high").
Proof.
  simpl. intros Hin Ha. apply dedup_loop_in in Hin as (r0 & k & _ & Hf & _).
  unfold normalizeLocationReference in Hf.
  destruct (Ambiguous r0 || negb (confident (clean_lower (MatchConfidence r0)))) eqn:E; simpl in Hf.
  { destruct (_ =? "") in Hf; simplify_eq; done. }
  bool_hyps. destruct (clean (CanonicalID r0) =? "") eqn:Ec; simpl in Hf.
  { destruct (_ =? "") in Hf; simplify_eq; done. }
  destruct (_ =? "") in Hf; simplify_eq; simpl in *. bool_hyps.
  split; [done|]. split; [done|]. unfold confident in *.
  rewrite orb_true_iff, !String.eqb_eq in *. tauto.
Qed.

Definition sample_reference : LocationReference :=
  MkLocationReference " CA:062100 " "" "Truro" "zone" "CA" "NS"
    [MkLocationIdentifier "eccc" " CLC " "013300"] [] (f64_of_Z 1) " High" "name" (f64_of_Z 1)
    "g1" true false.
Definition sample_packet : Packet :=
  MkPacket 0 " alert-1 " "cap" "f1" ["f1"; "F1 "; ""] "Alert"
    (MkContent "" "" "tornado" "" "" "" "" "A tornado." "" "" "") (MkTiming "" "" "" "" "")
    (MkAreas ["Truro"] [] [sample_reference; sample_reference] []) None None None
    (MkOptions true false) (MkPresentation "" "") ∅.

Definition sample_normal : LocationReference :=
  MkLocationReference "CA:062100" "" "Truro" "zone" "CA" "NS"
    [MkLocationIdentifier "eccc" "clc" "013300"] [] (f64_of_Z 1) "high" "name" (f64_of_Z 1)
    "g1" true false.

Lemma Normalize_actionable_witness :
  In sample_normal (Locations (PAreas (Normalize sample_packet))) /\ CanonicalID sample_normal <> "".
Proof.
  assert (In sample_normal (Locations (PAreas (Normalize sample_packet)))) as Hin.
  { vm_compute. left. reflexivity. }
  split; [exact Hin|]. exact (proj1 (Normalize_actionable sample_packet sample_normal Hin eq_refl)).
Defined.

(** The flat round trip.  The older flat shape of a packet reads back as
    [flat_view]: every text field that survives flattening is its trimmed
    self, the lists and the storm are in normal form, the SAME and audio parts
    are kept, and the codes are the SAME locations when there are any. *)
Theorem LegacyFromMap_LegacyFields `{JSON} (p : Packet) :
  LegacyFromMap (Some (LegacyFields p)) = flat_view p.
Proof.
  unfold LegacyFromMap, flat_view.
  rewrite legacyContent_flat, legacyTiming_flat, legacyAreas_flat, legacySAME_flat,
    legacyAudio_flat, legacy_storm.
  unfold packet_firstText, packet_firstValue.
  flat_lookup p. all: flat_texts. all: by destruct POptions.
Qed.

(** Explicit transport fields win.  Overlaying the packet's fields keeps
    every field the message already had, apart from [alert_packet] itself. *)
Theorem MergePacketFields_keeps `{JSON} (data : obj) (k : string) (v : any) :
  data !! k = Some v -> k <> "alert_packet" ->
  exists out, MergePacketFields (Some data) = Some out /\ out !! k = Some v.
Proof.
  intros Hk Hne. destruct (MergePacketFields_lookup data k Hne) as (out & Ho & Hl).
  exists out. by rewrite Hk in Hl.
Qed.

Lemma MergePacketFields_keeps_witness :
  exists out, MergePacketFields (Some {["alert_id" := AString "a"; "event" := AInt 3]}) = Some out /\
              out !! "event" = Some (AInt 3).
Proof. apply MergePacketFields_keeps; [reflexivity | discriminate]. Defined.

(** Overlaying is idempotent: a message that passes through a second
    service that merges again is unchanged. *)
Theorem MergePacketFields_idempotent `{JSON} (data : option obj) :
  MergePacketFields (MergePacketFields data) = MergePacketFields data.
Proof.
  unfold MergePacketFields at 2 3. destruct (FromMap data) as [p b] eqn:E. destruct b.
  2: { unfold MergePacketFields. by rewrite E. }
  unfold MergePacketFields, FromMap. rewrite lookup_insert_eq. simpl.
  rewrite !Normalize_idem. f_equal.
  assert (LegacyFields (Normalize p) = LegacyFields p) as ->.
  { unfold LegacyFields. by rewrite Normalize_idem. }
  apply map_eq. intros k. destruct (decide (k = "alert_packet")) as [->|].
  { by rewrite !lookup_insert_eq. }
  rewrite !lookup_insert_ne by done. rewrite lookup_union, !lookup_insert_ne by done.
  rewrite lookup_union. destruct (default ∅ data !! k), (LegacyFields p !! k); done.
Qed.

(** Compact lists.  In a normalised packet the feed names, area names and
    codes are non-blank, trimmed and distinct up to case, and every
    non-blank input entry is represented. *)
Theorem uniqueClean_compact (l : list string) :
  NoDup (map ToLower (uniqueClean l)) /\
  (forall s, In s (uniqueClean l) -> s <> "" /\ clean s = s) /\
  (forall s, In s l -> clean s <> "" ->
     exists t, In t (uniqueClean l) /\ ToLower t = ToLower (clean s)).
Proof.
  assert (forall s k t, uniqueClean_entry s = Some (k, t) ->
    t = clean s /\ k = ToLower t /\ t <> "") as He.
  { unfold uniqueClean_entry. intros s k t H. go_cases. bool_hyps. done. }
  split; [|split].
  - apply (dedup_loop_keys uniqueClean_entry ToLower). intros s k t Hs.
    by destruct (He _ _ _ Hs) as (_ & -> & _).
  - intros s (a & k & _ & (-> & _ & ?)%He & _)%dedup_loop_in.
    split; [done | apply clean_idem].
  - intros s Hin Hne. destruct (dedup_loop_complete uniqueClean_entry ∅ l s
      (ToLower (clean s)) (clean s)) as [Hk|(a & t & Ha & Ht)]; [done| |set_solver|].
    + unfold uniqueClean_entry. by rewrite (proj2 (String.eqb_neq _ _) Hne).
    + exists t. split; [done|]. by destruct (He _ _ _ Ha) as (_ & <- & _).
Qed.
