(* ===== verification/PlaylistModel.v ===== *)
(** The playlist service's data: its configuration
    ([services/go/internal/playlist/config.go]), the feeds with their
    transmitters and languages, and the items, manifests and preparations of
    [service.go].

    Of the configuration file the fields the service reads are kept.  A time
    zone is the offset from UTC, in seconds, at each second of Unix time; the
    zone database is a parameter. *)

From S2P Require Import Prelude UnicodeTables GoStrings GoTime GoValue.

#[local] Open Scope Z_scope.
#[local] Open Scope string_scope.

(** ** Configuration *)

Record minuteScheduleConfig := MkMinuteSchedule {
  scheduleEnabled : option bool; Minutes : list Z }.

Definition schedule_enabled (s : minuteScheduleConfig) (fallback : bool) : bool :=
  match scheduleEnabled s with
  | None => fallback
  | Some b => b
  end.

Definition minutesOr (s : minuteScheduleConfig) (defaults : list Z) : list Z :=
  if (length (Minutes s) =? 0)%nat then defaults else Minutes s.

Record chimesConfig := MkChimes {
  chimesEnabled : bool; halfHourEnabled : bool; topOfHourEnabled : bool }.

Record playoutConfig := MkPlayout {
  cfgSampleRate : Z; cfgChannels : Z; PlaylistOrder : list string; PackageGapS : float64;
  StationIDSchedule : minuteScheduleConfig; DateTimeSchedule : minuteScheduleConfig;
  Chimes : chimesConfig }.

Record transmitterXML := MkTransmitter {
  NetworkName : string; Pronounciation : string; Pronunciation : string;
  HostName : string; SiteName : string; TxCallsign : string; Relationship : string;
  FrequencyGPCLK : string; FrequencyValue : string }.

Record feedLangXML := MkFeedLang { Code : string; Interval : string }.

Record coverageRegionXML := MkRegion { RegionID : string; Subregions : list string }.

Record feedXML := MkFeed {
  feed_ID : string; EnabledRaw : string; Timezone : string; Routine : string; SAMEFlag : string;
  Langs : list feedLangXML; Regions : list coverageRegionXML; Transmitters : list transmitterXML }.

Record loadedConfig := MkConfig {
  RustPlayoutEnabled : bool; MaxQueued : Z; FixedToleranceS : Z; Playout : playoutConfig;
  OnAirName : any; AlertUpdateTonePolicy : string; Feeds : list feedXML;
  BaseDir : string; OutputDir : string }.

(** ** Small readers *)

Definition fallbackText (value fallback : string) : string :=
  if TrimSpace value =? "" then TrimSpace fallback else TrimSpace value.

Definition xmlBool (raw : string) (fallback : bool) : bool :=
  let v := ToLower (TrimSpace raw) in
  if v =? "" then fallback
  else if mem v ["1"; "true"; "yes"; "on"; "enabled"] then true
  else if mem v ["0"; "false"; "no"; "off"; "disabled"] then false
  else fallback.

Definition feedRoutineEnabled (feed : feedXML) : bool := xmlBool (Routine feed) true.
Definition feedSAMEEnabled (feed : feedXML) : bool := xmlBool (SAMEFlag feed) true.

Definition enabledFeeds (cfg : loadedConfig) : list feedXML :=
  List.filter (fun feed =>
    negb ((TrimSpace (feed_ID feed) =? "") || negb (xmlBool (EnabledRaw feed) true)) &&
    negb (negb (feedRoutineEnabled feed) && negb (feedSAMEEnabled feed))) (Feeds cfg).

(** ** Transmitters *)

Definition frequencyText (t : transmitterXML) : string := TrimSpace (FrequencyValue t).

Definition transmitter_empty (t : transmitterXML) : bool :=
  (TrimSpace (SiteName t) =? "") && (TrimSpace (TxCallsign t) =? "") &&
  (TrimSpace (Relationship t) =? "") && (TrimSpace (HostName t) =? "") &&
  (frequencyText t =? "").

Definition transmitterList (feed : feedXML) : list transmitterXML :=
  List.filter (fun t => negb (transmitter_empty t)) (Transmitters feed).

Definition relationship (t : transmitterXML) : string :=
  let r := ToLower (TrimSpace (Relationship t)) in
  if r =? "secondary/repeater" then "secondary" else if r =? "" then "unknown" else r.

Definition isRelationship (t : transmitterXML) (wanted : string) : bool :=
  let current := relationship t in
  let wanted := ToLower (TrimSpace wanted) in
  (current =? wanted) || ((wanted =? "repeater") && (current =? "secondary")).

Definition identified (t : transmitterXML) : bool :=
  negb (TrimSpace (TxCallsign t) =? "") || negb (TrimSpace (SiteName t) =? "").

(** [transmitterXML{}]. *)
Definition noTransmitter : transmitterXML := MkTransmitter "" "" "" "" "" "" "" "" "".

Definition stationTransmitter (feed : feedXML) : transmitterXML :=
  let transmitters := transmitterList feed in
  match List.find (fun t => isRelationship t "primary") transmitters with
  | Some t => t
  | None =>
      match List.find (fun t =>
          negb (isRelationship t "replaces") && negb (isRelationship t "ip") && identified t)
          transmitters with
      | Some t => t
      | None =>
          match List.find identified transmitters with
          | Some t => t
          | None => default noTransmitter (head transmitters)
          end
      end
  end.

Definition replacementTransmitter (feed : feedXML) : option transmitterXML :=
  List.find (fun t => isRelationship t "replaces") (transmitterList feed).

Definition feedName (feed : feedXML) : string :=
  let name := TrimSpace (SiteName (stationTransmitter feed)) in
  if name =? "" then TrimSpace (feed_ID feed) else name.
Definition feedCallsign (feed : feedXML) : string := TrimSpace (TxCallsign (stationTransmitter feed)).
Definition feedFrequencyMHz (feed : feedXML) : string := frequencyText (stationTransmitter feed).

(** ** Languages *)

Definition normalizeLangKey (lang : string) : string :=
  ToLower (ReplaceByte "_"%char "-"%char (TrimSpace lang)).

Definition feedLanguage_entry (lang : feedLangXML) : option (string * feedLangXML) :=
  let code := TrimSpace (Code lang) in
  if code =? "" then None
  else Some (normalizeLangKey code, MkFeedLang code (TrimSpace (Interval lang))).
Definition feedLanguages (feed : feedXML) : list feedLangXML :=
  dedup_loop feedLanguage_entry ∅ (Langs feed).

Definition feedLanguage (feed : feedXML) : string :=
  match feedLanguages feed with
  | lang :: _ => Code lang
  | [] => "en-US"
  end.

(** ** Zones *)

Abbreviation Location := (Z -> Z).
Class Zones := { LoadLocation : string -> option Location; LocalZone : Location }.

Definition feedTimezone (feed : feedXML) : string := fallbackText (Timezone feed) "Local".
Definition feedLocation `{Zones} (feed : feedXML) : Location :=
  match LoadLocation (feedTimezone feed) with
  | Some loc => loc
  | None => LocalZone
  end.

(** ** Items, manifests, preparations *)

Record playlistItem := MkItem {
  QueueID : string; item_FeedID : string; Kind : string; PackageID : string; item_Title : string;
  AudioPath : string; DurationMS : Z; QueuedAt : string; TargetStartAt : string;
  PredictedStartAt : string; PredictedFinishAt : string; Status : string; item_Source : string }.

Definition set_Status (s : string) (i : playlistItem) : playlistItem :=
  MkItem (QueueID i) (item_FeedID i) (Kind i) (PackageID i) (item_Title i) (AudioPath i)
    (DurationMS i) (QueuedAt i) (TargetStartAt i) (PredictedStartAt i) (PredictedFinishAt i) s
    (item_Source i).

Record priorityAlertManifest := MkManifest {
  man_ID : string; man_AlertID : string; man_AlertPacket : option Packet; man_Type : string;
  man_Status : string; man_CreatedAt : string; man_FeedIDs : list string; man_Header : string;
  man_Event : string; man_AlertText : string; man_BannerText : string; man_AlertSentAt : string;
  man_AlertExpiresAt : string; man_MessageType : string; man_BroadcastImmediate : bool;
  man_AudioPath : string; man_Format : string; man_SampleRate : Z; man_Channels : Z;
  man_AudioBytes : Z; man_Source : string; man_Priority : string; man_AuthoritativeURL : string;
  man_LastError : string }.

Record priorityAlertPreparation := MkPreparation {
  Manifest : priorityAlertManifest; Data : obj; AlertText : string; SAMEHeader : string;
  prep_AudioPath : string; FinalAudioPath : string }.

Record fixedEvent := MkFixed {
  fixed_Kind : string; fixed_PackageID : string; fixed_Title : string; Target : Z }.

(** The state of a planner.  [bridge] is whether the event bridge is there; the
    configuration, shared by all planners, is passed to the operations. *)
Record feedPlanner := MkPlanner {
  bridge : bool; feed : feedXML; mode : string; modeBeforePriority : string; priorityActive : Z;
  startupPrimerAt : Z; startupPrimerPending : bool; pendingAfterCurrent : string; cursor : Z;
  routineLanguageCount : Z; routineAltLangIndex : Z; nextRoutineRetryAt : Z;
  lastPendingReplayAt : Z; lastAudioCleanup : Z; queue : list playlistItem;
  current : option playlistItem; lastFixed : gmap string Z; lastError : string;
  lastStateBody : string; lastStateWriteAt : Z }.

(** Field assignment. *)
Definition set_mode (v : string) (p : feedPlanner) : feedPlanner :=
  MkPlanner (bridge p) (feed p) v (modeBeforePriority p) (priorityActive p) (startupPrimerAt p)
    (startupPrimerPending p) (pendingAfterCurrent p) (cursor p) (routineLanguageCount p)
    (routineAltLangIndex p) (nextRoutineRetryAt p) (lastPendingReplayAt p) (lastAudioCleanup p)
    (queue p) (current p) (lastFixed p) (lastError p) (lastStateBody p) (lastStateWriteAt p).
Definition set_modeBeforePriority (v : string) (p : feedPlanner) : feedPlanner :=
  MkPlanner (bridge p) (feed p) (mode p) v (priorityActive p) (startupPrimerAt p)
    (startupPrimerPending p) (pendingAfterCurrent p) (cursor p) (routineLanguageCount p)
    (routineAltLangIndex p) (nextRoutineRetryAt p) (lastPendingReplayAt p) (lastAudioCleanup p)
    (queue p) (current p) (lastFixed p) (lastError p) (lastStateBody p) (lastStateWriteAt p).
Definition set_priorityActive (v : Z) (p : feedPlanner) : feedPlanner :=
  MkPlanner (bridge p) (feed p) (mode p) (modeBeforePriority p) v (startupPrimerAt p)
    (startupPrimerPending p) (pendingAfterCurrent p) (cursor p) (routineLanguageCount p)
    (routineAltLangIndex p) (nextRoutineRetryAt p) (lastPendingReplayAt p) (lastAudioCleanup p)
    (queue p) (current p) (lastFixed p) (lastError p) (lastStateBody p) (lastStateWriteAt p).
Definition set_startupPrimerPending (v : bool) (p : feedPlanner) : feedPlanner :=
  MkPlanner (bridge p) (feed p) (mode p) (modeBeforePriority p) (priorityActive p)
    (startupPrimerAt p) v (pendingAfterCurrent p) (cursor p) (routineLanguageCount p)
    (routineAltLangIndex p) (nextRoutineRetryAt p) (lastPendingReplayAt p) (lastAudioCleanup p)
    (queue p) (current p) (lastFixed p) (lastError p) (lastStateBody p) (lastStateWriteAt p).
Definition set_pendingAfterCurrent (v : string) (p : feedPlanner) : feedPlanner :=
  MkPlanner (bridge p) (feed p) (mode p) (modeBeforePriority p) (priorityActive p)
    (startupPrimerAt p) (startupPrimerPending p) v (cursor p) (routineLanguageCount p)
    (routineAltLangIndex p) (nextRoutineRetryAt p) (lastPendingReplayAt p) (lastAudioCleanup p)
    (queue p) (current p) (lastFixed p) (lastError p) (lastStateBody p) (lastStateWriteAt p).
Definition set_cursor (v : Z) (p : feedPlanner) : feedPlanner :=
  MkPlanner (bridge p) (feed p) (mode p) (modeBeforePriority p) (priorityActive p)
    (startupPrimerAt p) (startupPrimerPending p) (pendingAfterCurrent p) v (routineLanguageCount
    p) (routineAltLangIndex p) (nextRoutineRetryAt p) (lastPendingReplayAt p) (lastAudioCleanup
    p) (queue p) (current p) (lastFixed p) (lastError p) (lastStateBody p) (lastStateWriteAt p).
Definition set_routineLanguageCount (v : Z) (p : feedPlanner) : feedPlanner :=
  MkPlanner (bridge p) (feed p) (mode p) (modeBeforePriority p) (priorityActive p)
    (startupPrimerAt p) (startupPrimerPending p) (pendingAfterCurrent p) (cursor p) v
    (routineAltLangIndex p) (nextRoutineRetryAt p) (lastPendingReplayAt p) (lastAudioCleanup p)
    (queue p) (current p) (lastFixed p) (lastError p) (lastStateBody p) (lastStateWriteAt p).
Definition set_routineAltLangIndex (v : Z) (p : feedPlanner) : feedPlanner :=
  MkPlanner (bridge p) (feed p) (mode p) (modeBeforePriority p) (priorityActive p)
    (startupPrimerAt p) (startupPrimerPending p) (pendingAfterCurrent p) (cursor p)
    (routineLanguageCount p) v (nextRoutineRetryAt p) (lastPendingReplayAt p) (lastAudioCleanup
    p) (queue p) (current p) (lastFixed p) (lastError p) (lastStateBody p) (lastStateWriteAt p).
Definition set_nextRoutineRetryAt (v : Z) (p : feedPlanner) : feedPlanner :=
  MkPlanner (bridge p) (feed p) (mode p) (modeBeforePriority p) (priorityActive p)
    (startupPrimerAt p) (startupPrimerPending p) (pendingAfterCurrent p) (cursor p)
    (routineLanguageCount p) (routineAltLangIndex p) v (lastPendingReplayAt p) (lastAudioCleanup
    p) (queue p) (current p) (lastFixed p) (lastError p) (lastStateBody p) (lastStateWriteAt p).
Definition set_lastPendingReplayAt (v : Z) (p : feedPlanner) : feedPlanner :=
  MkPlanner (bridge p) (feed p) (mode p) (modeBeforePriority p) (priorityActive p)
    (startupPrimerAt p) (startupPrimerPending p) (pendingAfterCurrent p) (cursor p)
    (routineLanguageCount p) (routineAltLangIndex p) (nextRoutineRetryAt p) v (lastAudioCleanup
    p) (queue p) (current p) (lastFixed p) (lastError p) (lastStateBody p) (lastStateWriteAt p).
Definition set_lastAudioCleanup (v : Z) (p : feedPlanner) : feedPlanner :=
  MkPlanner (bridge p) (feed p) (mode p) (modeBeforePriority p) (priorityActive p)
    (startupPrimerAt p) (startupPrimerPending p) (pendingAfterCurrent p) (cursor p)
    (routineLanguageCount p) (routineAltLangIndex p) (nextRoutineRetryAt p) (lastPendingReplayAt
    p) v (queue p) (current p) (lastFixed p) (lastError p) (lastStateBody p) (lastStateWriteAt
    p).
Definition set_queue (v : list playlistItem) (p : feedPlanner) : feedPlanner :=
  MkPlanner (bridge p) (feed p) (mode p) (modeBeforePriority p) (priorityActive p)
    (startupPrimerAt p) (startupPrimerPending p) (pendingAfterCurrent p) (cursor p)
    (routineLanguageCount p) (routineAltLangIndex p) (nextRoutineRetryAt p) (lastPendingReplayAt
    p) (lastAudioCleanup p) v (current p) (lastFixed p) (lastError p) (lastStateBody p)
    (lastStateWriteAt p).
Definition set_current (v : option playlistItem) (p : feedPlanner) : feedPlanner :=
  MkPlanner (bridge p) (feed p) (mode p) (modeBeforePriority p) (priorityActive p)
    (startupPrimerAt p) (startupPrimerPending p) (pendingAfterCurrent p) (cursor p)
    (routineLanguageCount p) (routineAltLangIndex p) (nextRoutineRetryAt p) (lastPendingReplayAt
    p) (lastAudioCleanup p) (queue p) v (lastFixed p) (lastError p) (lastStateBody p)
    (lastStateWriteAt p).
Definition set_lastFixed (v : gmap string Z) (p : feedPlanner) : feedPlanner :=
  MkPlanner (bridge p) (feed p) (mode p) (modeBeforePriority p) (priorityActive p)
    (startupPrimerAt p) (startupPrimerPending p) (pendingAfterCurrent p) (cursor p)
    (routineLanguageCount p) (routineAltLangIndex p) (nextRoutineRetryAt p) (lastPendingReplayAt
    p) (lastAudioCleanup p) (queue p) (current p) v (lastError p) (lastStateBody p)
    (lastStateWriteAt p).
Definition set_lastError (v : string) (p : feedPlanner) : feedPlanner :=
  MkPlanner (bridge p) (feed p) (mode p) (modeBeforePriority p) (priorityActive p)
    (startupPrimerAt p) (startupPrimerPending p) (pendingAfterCurrent p) (cursor p)
    (routineLanguageCount p) (routineAltLangIndex p) (nextRoutineRetryAt p) (lastPendingReplayAt
    p) (lastAudioCleanup p) (queue p) (current p) (lastFixed p) v (lastStateBody p)
    (lastStateWriteAt p).
Definition set_lastStateBody (v : string) (p : feedPlanner) : feedPlanner :=
  MkPlanner (bridge p) (feed p) (mode p) (modeBeforePriority p) (priorityActive p)
    (startupPrimerAt p) (startupPrimerPending p) (pendingAfterCurrent p) (cursor p)
    (routineLanguageCount p) (routineAltLangIndex p) (nextRoutineRetryAt p) (lastPendingReplayAt
    p) (lastAudioCleanup p) (queue p) (current p) (lastFixed p) (lastError p) v
    (lastStateWriteAt p).
Definition set_lastStateWriteAt (v : Z) (p : feedPlanner) : feedPlanner :=
  MkPlanner (bridge p) (feed p) (mode p) (modeBeforePriority p) (priorityActive p)
    (startupPrimerAt p) (startupPrimerPending p) (pendingAfterCurrent p) (cursor p)
    (routineLanguageCount p) (routineAltLangIndex p) (nextRoutineRetryAt p) (lastPendingReplayAt
    p) (lastAudioCleanup p) (queue p) (current p) (lastFixed p) (lastError p) (lastStateBody p)
    v.
