(* ===== verification/World.v ===== *)
(** What the services touch outside their own memory: the wall clock, the event
    bridge, the file system and the CAP archive, with the state monad the
    operations are written in.

    The clock and the faults are oracles ([Env]): the [n]-th reading of the
    clock is [clock n], and [fault n] is the error of the [n]-th operation that
    can fail.  Theorems hold for every oracle. *)

From S2P Require Import Prelude UnicodeTables GoStrings GoTime GoValue GoPath.
From S2P Require Import PlaylistModel.

#[local] Open Scope Z_scope.
#[local] Open Scope string_scope.

(** ** State-passing operations *)

Definition M (S A : Type) : Type := S -> A * S.
Definition ret {S A} (a : A) : M S A := fun s => (a, s).
Definition mbind {S A B} (f : A -> M S B) (m : M S A) : M S B :=
  fun s => let '(a, s') := m s in f a s'.
Definition gets {S A} (f : S -> A) : M S A := fun s => (f s, s).
Definition modify {S} (f : S -> S) : M S unit := fun s => (tt, f s).
Definition whenb {S} (b : bool) (m : M S unit) : M S unit := if b then m else ret tt.

Notation "'let!' x ':=' m 'in' k" := (mbind (fun x => k) m)
  (at level 10, x pattern, m at level 100, k at level 200) : haze_scope.
Notation "m ';;;' k" := (mbind (fun _ => k) m)
  (at level 100, k at level 200, right associativity) : haze_scope.
#[local] Open Scope haze_scope.

(** [for _, a := range l { f(a) }] over a snapshot of [l]. *)
Fixpoint for_each {S A} (f : A -> M S unit) (l : list A) : M S unit :=
  match l with
  | [] => ret tt
  | a :: l' => f a ;;; for_each f l'
  end.

(** The same loop, left at the first [true]. *)
Fixpoint for_until {S A} (f : A -> M S bool) (l : list A) : M S bool :=
  match l with
  | [] => ret false
  | a :: l' => let! stop := f a in if (stop : bool) then ret true else for_until f l'
  end.

(** ** The outside world *)

(** The state file of a feed. *)
Record statePayload := MkState {
  st_feed_id : string; st_feed_name : string; st_mode : string; st_priority_active : bool;
  st_pending_after_current : string; st_current : option playlistItem;
  st_queue : list playlistItem; st_next : option playlistItem; st_last_error : string }.

(** A file written by this service is kept as the value that was written; other
    files are their bytes. *)
Inductive fileData :=
| Raw (s : string)
| ManifestFile (m : priorityAlertManifest)
| StateFile (s : statePayload) (updated_at : string).

Record File := MkFile { f_data : fileData; f_modified : Z }.

(** A row of the table of archived CAP documents
    ([internal/datastore/schema.go]).  The document is kept compressed and read
    back whole; the times are RFC 3339 text in the table, here their instants. *)
Record archiveRow := MkRow {
  row_AlertID : string; row_FeedID : string; row_Bucket : string; row_Status : string;
  row_Reason : string; row_Sender : string; row_Source : string; row_SentAt : option Z;
  row_UpdatedAt : option Z; row_ExpiresAt : option Z; row_Event : string; row_Headline : string;
  row_RawXML : string; row_Metadata : obj; row_StoredAt : Z }.

Record World := MkWorld {
  reads : nat;                    (* clock readings so far *)
  attempts : nat;                 (* fallible operations so far *)
  files : gmap string File;       (* regular files by absolute path *)
  published : list obj;           (* messages sent on the bridge, oldest first *)
  archive : option (list archiveRow) }.   (* the CAP archive, when there is a store *)

(** What the service reads of a queue manifest on disk. *)
Record manifestStatus := MkManifestStatus {
  ms_ID : string; ms_Status : string; ms_ClaimedAt : string; ms_PlayedAt : string;
  ms_FailedAt : string }.

Class Env := {
  clock : nat -> Z;
  fault : nat -> option string;
  cwd : string;
  (* encoding/json *)
  json_manifestStatus : string -> option manifestStatus;
  json_state : statePayload -> option string;
  (* hex.EncodeToString of the n-th reading of crypto/rand *)
  random_hex : nat -> option string }.

Section world.
Context `{Env}.

(** [time.Now()]. *)
Definition now : M World Z := fun w =>
  (clock (reads w), MkWorld (S (reads w)) (attempts w) (files w) (published w) (archive w)).

(** The outcome of the next operation that can fail. *)
Definition attempt : M World (option string) := fun w =>
  (fault (attempts w), MkWorld (reads w) (S (attempts w)) (files w) (published w) (archive w)).

Definition set_files (f : gmap string File -> gmap string File) : M World unit :=
  modify (fun w => MkWorld (reads w) (attempts w) (f (files w)) (published w) (archive w)).

(** [os.Remove], its error ignored. *)
Definition remove_file (path : string) : M World unit := set_files (delete path).

(** [bridgeClient.Publish]: the message is stamped and sent, or an error is
    returned. *)
Definition Publish (message : obj) : M World (option string) :=
  let! message :=
    match message !! "timestamp" with
    | Some _ => ret message
    | None => let! stamp := now in
              ret (<["timestamp" := AString (FormatRFC3339Nano stamp)]> message)
    end in
  let! err := attempt in
  match err with
  | Some e => ret (Some e)
  | None =>
      modify (fun w => MkWorld (reads w) (attempts w) (files w) (published w ++ [message]) (archive w)) ;;;
      ret None
  end.

Definition json_decode_status (d : fileData) : option manifestStatus :=
  match d with
  | Raw s => json_manifestStatus s
  | ManifestFile m => Some (MkManifestStatus (man_ID m) (man_Status m) "" "" "")
  | StateFile _ _ => Some (MkManifestStatus "" "" "" "" "")
  end.

End world.

(** A component whose state holds the world. *)
Class HasWorld (S : Type) := { the_world : S -> World; with_world : World -> S -> S }.
Definition on_world {S A} `{HasWorld S} (m : M World A) : M S A := fun s =>
  let '(a, w) := m (the_world s) in (a, with_world w s).

(** ** Facts *)

Lemma for_each_nil {S A} (f : A -> M S unit) s : for_each f [] s = (tt, s).
Proof. done. Qed.
Lemma for_each_cons {S A} (f : A -> M S unit) a l s :
  for_each f (a :: l) s = for_each f l (f a s).2.
Proof. simpl. unfold mbind. by destruct (f a s). Qed.

(** An invariant of the body is an invariant of the loop. *)
Lemma for_each_ind {S A} (P : S -> Prop) (f : A -> M S unit) l s :
  P s -> (forall a s, In a l -> P s -> P (f a s).2) -> P (for_each f l s).2.
Proof.
  revert s. induction l as [|a l IH]; intros s Hs Hf; [done|].
  rewrite for_each_cons. apply IH; [apply Hf; [by left|done]|]. intros. apply Hf; [by right|done].
Qed.

Lemma mbind_eq {S A B} (f : A -> M S B) (m : M S A) s :
  mbind f m s = f (m s).1 (m s).2.
Proof. unfold mbind. by destruct (m s). Qed.

Lemma on_world_eq {S A} `{HasWorld S} (m : M World A) s :
  on_world m s = ((m (the_world s)).1, with_world (m (the_world s)).2 s).
Proof. unfold on_world. by destruct (m (the_world s)). Qed.

(** ** Invariants of operations *)

Definition preserves {S A} (P : S -> Prop) (m : M S A) : Prop := forall s, P s -> P (m s).2.

Section preserves.
Context {S : Type} (P : S -> Prop).

Lemma preserves_ret {A} (a : A) : preserves P (ret a).
Proof. by intros s. Qed.
Lemma preserves_gets {A} (f : S -> A) : preserves P (gets f).
Proof. by intros s. Qed.
Lemma preserves_bind {A B} (m : M S A) (k : A -> M S B) :
  preserves P m -> (forall a, preserves P (k a)) -> preserves P (mbind k m).
Proof. intros Hm Hk s Hs. rewrite mbind_eq. by apply Hk, Hm. Qed.
Lemma preserves_whenb b (m : M S unit) : (b = true -> preserves P m) -> preserves P (whenb b m).
Proof. destruct b; cbn; [auto|]. intros _. apply preserves_ret. Qed.
Lemma preserves_modify (f : S -> S) : (forall s, P s -> P (f s)) -> preserves P (modify f).
Proof. intros Hf s Hs. by apply Hf. Qed.
Lemma preserves_for_each {A} (f : A -> M S unit) l : Forall (fun a => preserves P (f a)) l -> preserves P (for_each f l).
Proof. intros Hf s Hs. apply for_each_ind; [done|]. intros a s' Ha Hs'. rewrite List.Forall_forall in Hf. by apply Hf. Qed.
End preserves.
#[export] Hint Resolve preserves_ret preserves_gets : haze.

(** One step through an operation: its parts keep the invariant. *)
Ltac keep :=
  first [ apply preserves_ret | apply preserves_gets
        | apply preserves_bind; [|intros ?] | apply preserves_whenb; intros ?
        | match goal with |- preserves _ (match ?x with _ => _ end) => destruct x eqn:? end ].
Ltac keeps := repeat (keep || solve [eauto with haze]).

(** Readings of the clock only grow in number. *)
Definition reads_from (n : nat) (w : World) : Prop := (n <= reads w)%nat.
Lemma reads_now `{Env} n : preserves (reads_from n) now.
Proof. intros w Hw. unfold reads_from in *. cbn. lia. Qed.
Lemma reads_attempt `{Env} n : preserves (reads_from n) attempt.
Proof. by intros w Hw. Qed.
#[export] Hint Resolve reads_now reads_attempt : haze.
