(* ===== verification/Secrets.v ===== *)
(** Secrets of the web gateway ([internal/webgateway/account_auth.go] and
    [auth.go]): random tokens, password hashes, and the encryption of the secret
    of a second factor.

    Argon2id and XChaCha20-Poly1305 are packages outside the repository and stand
    in the class [SecretTools]; the hash functions are those of [GoCrypto]. *)

From S2P Require Import Prelude UnicodeTables GoStrings SampleCodec GoTime GoValue GoPath GoCrypto AlertPacket.
From S2P Require Import PlaylistModel World.

#[local] Open Scope Z_scope.
#[local] Open Scope string_scope.
#[local] Open Scope haze_scope.

(** ** What is outside *)

Class SecretTools := {
  rand_Read : nat -> nat -> option string;      (* the n-th reading of crypto/rand, of so many bytes *)
  argon2_IDKey : string -> string -> Z -> Z -> Z -> nat -> string;   (* password, salt, time, memory, threads, length *)
  aead_Seal : string -> string -> string -> string -> string;        (* key, nonce, plaintext, additional data *)
  aead_Open : string -> string -> string -> string -> option string }.

(** What the packages document: lengths, and that only what was sealed with the
    same additional data is opened. *)
Class SecretToolsOk `{SecretTools} : Prop := {
  rand_length n len s : rand_Read n len = Some s -> String.length s = len;
  argon2_length p s t m th len : String.length (argon2_IDKey p s t m th len) = len;
  aead_opens key nonce plain ad : aead_Open key nonce (aead_Seal key nonce plain ad) ad = Some plain;
  aead_bound key nonce plain ad ad' : aead_Open key nonce (aead_Seal key nonce plain ad) ad' <> None -> ad' = ad;
  aead_longer key nonce plain ad : aead_Seal key nonce plain ad <> "" }.

Section secrets.
Context `{Env} `{SecretTools}.

(** [rand.Read]. *)
Definition random_bytes (len : nat) : M World (option string) := fun w =>
  (rand_Read (attempts w) len, MkWorld (reads w) (S (attempts w)) (files w) (published w) (archive w)).

(** [randomToken] of [auth.go]. *)
Definition randomToken : M World (option string) :=
  let! raw := random_bytes 32 in ret (RawURL_Encode <$> raw).

(** A byte of the slice is replaced. *)
Definition set_octet (n : nat) (f : Z -> Z) (l : list Z) : list Z := alter f n l.
Definition randomUUID : M World (option string) :=
  let! raw := random_bytes 16 in
  ret (match raw with
       | None => None
       | Some raw =>
           let l := set_octet 6 (fun b => Z.lor (Z.land b 0x0f) 0x40) (octets raw) in
           let l := set_octet 8 (fun b => Z.lor (Z.land b 0x3f) 0x80) l in
           let e := hex_Encode (of_octets l) in
           let part i j := take_bytes (j - i) (drop_bytes i e) in
           Some (part 0%nat 8%nat +:+ "-" +:+ part 8%nat 12%nat +:+ "-" +:+ part 12%nat 16%nat +:+ "-" +:+
                 part 16%nat 20%nat +:+ "-" +:+ drop_bytes 20 e)
       end).

(** ** Password hashes *)

Definition argonMemoryKiB : Z := 65536.
Definition argonIterations : Z := 3.
Definition argonParallelism : Z := 4.
Definition argonSaltLength : nat := 16.
Definition argonOutputLength : nat := 32.
Definition maxPasswordBytes : nat := 1024.

Record argon2Params := MkParams { ap_memory : Z; ap_time : Z; ap_parallelism : Z }.

(** [strings.Cut]. *)
Definition Cut (s sep : string) : option (string * string) :=
  match Index s sep with
  | Some n => Some (take_bytes n s, drop_bytes (n + String.length sep) s)
  | None => None
  end.

(** [strconv.ParseUint(s, 10, 32)]. *)
Definition ParseUint32 (s : string) : option Z :=
  if (s =? "") || negb (forallb (fun a => is_digit (byte_val a)) (bytes_of s)) then None
  else
    let v := foldl (fun acc a => acc * 10 + (byte_val a - 48)) 0 (bytes_of s) in
    if (v <? 2 ^ 32)%Z then Some v else None.

Fixpoint params_of (fields : list string) (p : argon2Params) : option argon2Params :=
  match fields with
  | [] => Some p
  | field :: fields' =>
      match Cut field "=" with
      | None => params_of fields' p
      | Some (key, value) =>
          match ParseUint32 value with
          | None => None
          | Some v =>
              params_of fields'
                (if key =? "m" then MkParams v (ap_time p) (ap_parallelism p)
                 else if key =? "t" then MkParams (ap_memory p) v (ap_parallelism p)
                 else if key =? "p" then MkParams (ap_memory p) (ap_time p) v
                 else p)
          end
      end
  end.
Definition parseArgon2Params (raw : string) : result string argon2Params :=
  match params_of (Split ","%char raw) (MkParams 0 0 0) with
  | None => Err "invalid number"
  | Some p =>
      if (ap_memory p =? 0)%Z || (ap_time p =? 0)%Z || (ap_parallelism p =? 0)%Z || (255 <? ap_parallelism p)%Z
      then Err "invalid argon2id parameters"
      else Ok p
  end.

Definition decodePHCBase64 (value : string) : result string string :=
  match RawStd_Decode value with
  | (raw, true) => Ok raw
  | (_, false) => Err "illegal base64 data"
  end.

(** [verifyArgon2IDPHC] of [auth.go], for the one operator password. *)
Definition verifyArgon2IDPHC (encoded password : string) : result string bool :=
  match Split "$"%char encoded with
  | [_; alg; _; params; salt; out] =>
      if negb (alg =? "argon2id") then Err "unsupported password hash"
      else
        let? params := parseArgon2Params params in
        let? salt := decodePHCBase64 salt in
        let? expected := decodePHCBase64 out in
        Ok (argon2_IDKey password salt (ap_time params) (ap_memory params) (ap_parallelism params)
              (String.length expected) =? expected)
  | _ => Err "unsupported password hash"
  end.

Definition pepperPassword (pepper password : string) : string := hmac_sha256 pepper password.

Definition parseSecureArgon2Hash (encoded : string) : result string (argon2Params * string * string) :=
  match Split "$"%char encoded with
  | [_; alg; version; params; salt; out] =>
      if negb (alg =? "argon2id") || negb (version =? "v=19") then Err "unsupported password hash"
      else
        let? params := parseArgon2Params params in
        if negb ((ap_memory params =? argonMemoryKiB)%Z && (ap_time params =? argonIterations)%Z &&
                 (ap_parallelism params =? argonParallelism)%Z)
        then Err "password hash does not use the required Argon2id profile"
        else
          match decodePHCBase64 salt with
          | Ok salt =>
              if (String.length salt <? argonSaltLength)%nat then Err "password hash salt is invalid"
              else
                match decodePHCBase64 out with
                | Ok expected =>
                    if (String.length expected <? argonOutputLength)%nat || (64 <? String.length expected)%nat
                    then Err "password hash output is invalid"
                    else Ok (params, salt, expected)
                | Err _ => Err "password hash output is invalid"
                end
          | Err _ => Err "password hash salt is invalid"
          end
  | _ => Err "unsupported password hash"
  end.

(** [utf8.ValidString]. *)
Definition ValidString (s : string) : bool := encode (runes s) =? s.

Definition argon_prefix : string :=
  "$argon2id$v=19$m=" +:+ Itoa argonMemoryKiB +:+ ",t=" +:+ Itoa argonIterations +:+ ",p=" +:+ Itoa argonParallelism +:+ "$".
Definition hashPassword (pepper password : string) : M World (result string string) :=
  if negb (ValidString password) || (RuneCountInString password <? 12)%Z
  then ret (Err "password must contain at least 12 characters")
  else if (maxPasswordBytes <? String.length password)%nat then ret (Err "password is too long")
  else
    let peppered := pepperPassword pepper password in
    let! salt := random_bytes argonSaltLength in
    match salt with
    | None => ret (Err "generate password salt")
    | Some salt =>
        let output := argon2_IDKey peppered salt argonIterations argonMemoryKiB argonParallelism argonOutputLength in
        ret (Ok (argon_prefix +:+ RawStd_Encode salt +:+ "$" +:+ RawStd_Encode output))
    end.

(** The wait for one of the two slots ends with an error when the request does. *)
Definition verifyPassword (pepper encoded password : string) : M World (result string bool) :=
  match parseSecureArgon2Hash encoded with
  | Err e => ret (Err e)
  | Ok (params, salt, expected) =>
      let peppered := pepperPassword pepper password in
      let! err := attempt in
      match err with
      | Some e => ret (Err e)
      | None =>
          ret (Ok (argon2_IDKey peppered salt (ap_time params) (ap_memory params) (ap_parallelism params)
                     (String.length expected) =? expected))
      end
  end.

(** ** The secret of the second factor *)

Definition aead_NonceSize : nat := 24.
Definition mfa_data (accountID : string) : string := "haze-mfa-secret:v2:" +:+ accountID.

Definition encryptMFASecret (mfaKey accountID secret : string) : M World (result string string) :=
  let accountID := TrimSpace accountID in
  if accountID =? "" then ret (Err "account ID is required to encrypt an MFA secret")
  else
    let! nonce := random_bytes aead_NonceSize in
    match nonce with
    | None => ret (Err "read random bytes")
    | Some nonce =>
        let sealed := aead_Seal mfaKey nonce secret (mfa_data accountID) in
        ret (Ok ("mfa2." +:+ RawURL_Encode (nonce +:+ sealed)))
    end.

Definition decryptMFASecret (mfaKey accountID encrypted : string) : result string string :=
  let accountID := TrimSpace accountID in
  if accountID =? "" then Err "account ID is required to decrypt an MFA secret"
  else if negb (HasPrefix encrypted "mfa2.") then Err "unsupported MFA secret format"
  else
    match RawURL_Decode (TrimPrefix encrypted "mfa2.") with
    | (_, false) => Err "illegal base64 data"
    | (raw, true) =>
        if (String.length raw <=? aead_NonceSize)%nat then Err "invalid MFA secret ciphertext"
        else
          match aead_Open mfaKey (take_bytes aead_NonceSize raw) (drop_bytes aead_NonceSize raw) (mfa_data accountID) with
          | None => Err "message authentication failed"
          | Some plain => Ok plain
          end
    end.

End secrets.

(** ** Facts *)

(** The characters of the standard alphabet do not separate the parts of a hash. *)
Lemma RawStd_Encode_no_dollar s : ~ In "$"%char (bytes_of (RawStd_Encode s)).
Proof.
  Transparent RawStd_Encode. unfold RawStd_Encode, base64_Encode. Opaque RawStd_Encode.
  rewrite bytes_of_string_of. intros Hin.
  pose proof (encode64_chars std_alphabet _ (octets_range s)) as Hc.
  rewrite List.Forall_forall in Hc. apply Hc in Hin as (v & Hv & E).
  assert (H : forallb (fun v => negb (Ascii.eqb (char64 std_alphabet v) "$")) (map Z.of_nat (seq 0 64)) = true)
    by by vm_compute.
  rewrite forallb_forall in H. assert (Hin : In v (map Z.of_nat (seq 0 64))).
  { apply in_map_iff. exists (Z.to_nat v). rewrite in_seq. lia. }
  apply H in Hin. by rewrite <- E, Ascii.eqb_refl in Hin.
Qed.

Section facts.
Context `{Env} `{SecretToolsOk}.

(** A hash as [hashPassword] writes it, read again. *)
Lemma parseSecureArgon2Hash_written salt out :
  (argonSaltLength <= String.length salt)%nat -> (argonOutputLength <= String.length out <= 64)%nat ->
  parseSecureArgon2Hash (argon_prefix +:+ RawStd_Encode salt +:+ "$" +:+ RawStd_Encode out) =
  Ok (MkParams argonMemoryKiB argonIterations argonParallelism, salt, out).
Proof.
  intros Hs Ho. unfold parseSecureArgon2Hash.
  replace argon_prefix with "$argon2id$v=19$m=65536,t=3,p=4$" by by vm_compute.
  change ("$argon2id$v=19$m=65536,t=3,p=4$" +:+ ?x) with
    ("" +:+ String "$" ("argon2id" +:+ String "$" ("v=19" +:+ String "$" ("m=65536,t=3,p=4" +:+ String "$" x)))).
  change ("$" +:+ ?x) with (String "$" x).
  rewrite !Split_app, Split_last by (try apply RawStd_Encode_no_dollar; cbn; intuition discriminate).
  replace (parseArgon2Params "m=65536,t=3,p=4")
    with (Ok (E := string) (MkParams argonMemoryKiB argonIterations argonParallelism)) by by vm_compute.
  cbn [rbind negb orb andb String.eqb Ascii.eqb Bool.eqb]. unfold decodePHCBase64.
  rewrite !RawStd_Decode_Encode. cbn [ap_memory ap_time ap_parallelism].
  rewrite !Z.eqb_refl. cbn [andb negb].
  replace (String.length salt <? argonSaltLength)%nat with false by (symmetry; apply Nat.ltb_ge; lia).
  replace (String.length out <? argonOutputLength)%nat with false by (symmetry; apply Nat.ltb_ge; lia).
  by replace (64 <? String.length out)%nat with false by (symmetry; apply Nat.ltb_ge; lia).
Qed.

(** What [hashPassword] returns, on every branch. *)
Lemma hashPassword_spec pepper password w : hashPassword pepper password w =
  if negb (ValidString password) || (RuneCountInString password <? 12)%Z
  then (Err "password must contain at least 12 characters", w)
  else if (maxPasswordBytes <? String.length password)%nat then (Err "password is too long", w)
  else match rand_Read (attempts w) argonSaltLength with
       | None => (Err "generate password salt", (random_bytes argonSaltLength w).2)
       | Some salt =>
           (Ok (argon_prefix +:+ RawStd_Encode salt +:+ "$" +:+
                RawStd_Encode (argon2_IDKey (pepperPassword pepper password) salt argonIterations argonMemoryKiB
                                 argonParallelism argonOutputLength)), (random_bytes argonSaltLength w).2)
       end.
Proof. unfold hashPassword. go_cases; try done; rewrite mbind_eq; cbn; by go_cases. Qed.

(** The stored hash accepts a password exactly when Argon2id gives the same
    output for it under the stored salt. *)
Definition password_key (pepper salt password : string) : string :=
  argon2_IDKey (pepperPassword pepper password) salt argonIterations argonMemoryKiB argonParallelism argonOutputLength.
Lemma verifyPassword_hash pepper password hash w w' other :
  (hashPassword pepper password w).1 = Ok hash ->
  exists salt, String.length salt = argonSaltLength /\
    (verifyPassword pepper hash other w').1 =
      match fault (attempts w') with
      | Some e => Err e
      | None => Ok (password_key pepper salt other =? password_key pepper salt password)
      end.
Proof.
  rewrite hashPassword_spec. intros E.
  destruct (negb (ValidString password) || (RuneCountInString password <? 12)%Z); [done|].
  destruct (maxPasswordBytes <? String.length password)%nat; [done|].
  destruct (rand_Read (attempts w) argonSaltLength) as [salt|] eqn:Hs; [|done]. injection E as <-.
  apply rand_length in Hs. exists salt. split; [done|]. unfold password_key.
  unfold verifyPassword. rewrite parseSecureArgon2Hash_written.
  - rewrite mbind_eq. cbn [attempt fst snd]. destruct (fault (attempts w')); [done|].
    cbn [fst ap_time ap_memory ap_parallelism]. by rewrite argon2_length.
  - by rewrite Hs.
  - rewrite argon2_length. vm_compute. lia.
Qed.

(** C34: a stored password hash accepts the password it was made from, whenever a
    slot for the computation is free; it accepts another one exactly when
    Argon2id gives both the same 32 bytes under the stored salt. *)
Theorem password_roundtrip pepper password hash w w' other :
  (hashPassword pepper password w).1 = Ok hash -> fault (attempts w') = None ->
  (verifyPassword pepper hash password w').1 = Ok true /\
  exists salt, String.length salt = argonSaltLength /\
    ((verifyPassword pepper hash other w').1 = Ok true <->
     password_key pepper salt other = password_key pepper salt password).
Proof.
  intros E Hf. split.
  - destruct (verifyPassword_hash pepper password hash w w' password E) as (salt & _ & ->).
    by rewrite Hf, String.eqb_refl.
  - destruct (verifyPassword_hash pepper password hash w w' other E) as (salt & Hs & ->).
    exists salt. split; [done|]. rewrite Hf. split.
    + intros Eq. injection Eq. by apply String.eqb_eq.
    + intros ->. by rewrite String.eqb_refl.
Qed.

Lemma decrypt_encrypted mfaKey id id' secret sealed w :
  (encryptMFASecret mfaKey id secret w).1 = Ok sealed ->
  decryptMFASecret mfaKey id' sealed =
    if TrimSpace id' =? "" then Err "account ID is required to decrypt an MFA secret"
    else if TrimSpace id' =? TrimSpace id then Ok secret else Err "message authentication failed".
Proof.
  unfold encryptMFASecret, decryptMFASecret. intros E.
  destruct (TrimSpace id =? "") eqn:Eid; [done|]. rewrite mbind_eq in E. cbn in E.
  destruct (rand_Read (attempts w) aead_NonceSize) as [nonce|] eqn:Hn; [|done]. injection E as <-.
  destruct (TrimSpace id' =? ""); [done|].
  rewrite HasPrefix_refl_app. cbn [negb]. unfold TrimPrefix. rewrite HasPrefix_refl_app, drop_bytes_app.
  rewrite RawURL_Decode_Encode. apply rand_length in Hn.
  pose proof (aead_longer mfaKey nonce secret (mfa_data (TrimSpace id))) as Hne.
  pose proof (aead_opens mfaKey nonce secret (mfa_data (TrimSpace id))) as Hopen.
  pose proof (aead_bound mfaKey nonce secret (mfa_data (TrimSpace id))) as Hbound.
  set (sealed := aead_Seal _ _ _ _) in *. clearbody sealed.
  replace (String.length (nonce +:+ sealed) <=? aead_NonceSize)%nat with false.
  2:{ symmetry. apply Nat.leb_gt. rewrite String_length_app, Hn. destruct sealed; [done|].
    change (String.length (String a sealed)) with (S (String.length sealed)). lia. }
  rewrite <- Hn, take_bytes_app, drop_bytes_app.
  destruct (String.eqb_spec (TrimSpace id') (TrimSpace id)) as [->|Hid]; [by rewrite Hopen|].
  destruct (aead_Open _ _ _ (mfa_data (TrimSpace id'))) eqn:Ho; [|done]. exfalso. apply Hid.
  assert (Hd : mfa_data (TrimSpace id') = mfa_data (TrimSpace id)).
  { apply Hbound. by rewrite Ho. }
  unfold mfa_data in Hd. apply (f_equal (drop_bytes (String.length "haze-mfa-secret:v2:"))) in Hd.
  by rewrite !drop_bytes_app in Hd.
Qed.

(** The secret of a second factor is read back for the account it was stored
    for, and for no other account, wherever its text is copied to. *)
Theorem MFA_secret_bound mfaKey id id' secret sealed w :
  (encryptMFASecret mfaKey id secret w).1 = Ok sealed ->
  decryptMFASecret mfaKey id sealed = Ok secret /\
  (TrimSpace id' <> TrimSpace id -> exists e, decryptMFASecret mfaKey id' sealed = Err e).
Proof.
  intros E. rewrite !(decrypt_encrypted mfaKey id _ secret sealed w E), String.eqb_refl. split.
  - unfold encryptMFASecret in E. by destruct (TrimSpace id =? "").
  - intros Hne. apply String.eqb_neq in Hne as ->. go_case; by eexists.
Qed.

End facts.

(** ** A concrete instance *)

#[export] Instance sample_SecretTools : SecretTools | 1000 := {|
  rand_Read n len := Some (of_octets (repeat (Z.of_nat n mod 256) len));
  argon2_IDKey p s t m th len :=
    of_octets (firstn len (octets (hmac_sha256 s p) ++ repeat 0 len)%list);
  aead_Seal key nonce plain ad := framed ad +:+ plain;
  aead_Open key nonce sealed ad :=
    if HasPrefix sealed (framed ad) then Some (TrimPrefix sealed (framed ad)) else None |}.

Lemma sample_SecretToolsOk : SecretToolsOk (H := sample_SecretTools).
Proof.
  constructor; cbn.
  - intros n len s E. injection E as <-. rewrite <- length_octets, octets_of_octets, repeat_length; [done|].
    apply List.Forall_forall. intros z Hz. apply repeat_spec in Hz as ->. apply Z.mod_pos_bound. lia.
  - intros p s t m th len. rewrite <- length_octets, octets_of_octets.
    + rewrite length_firstn, length_app, repeat_length. lia.
    + apply list.Forall_take, list.Forall_app. split; [apply octets_range|].
      apply List.Forall_forall. intros z Hz. apply repeat_spec in Hz as ->. lia.
  - intros _ _ plain ad. rewrite HasPrefix_refl_app. unfold TrimPrefix.
    by rewrite HasPrefix_refl_app, drop_bytes_app.
  - intros _ _ plain ad ad' Ho. destruct (HasPrefix (framed ad +:+ plain) (framed ad')) eqn:E; [|done].
    apply HasPrefix_spec in E as [x E]. symmetry. by eapply framed_prefix.
  - intros _ _ plain [|c ad]; done.
Qed.
#[export] Existing Instance sample_SecretToolsOk | 1000.
#[export] Instance steady_Env : Env | 2000 := {
  clock n := 1714564800 * Second + Z.of_nat n * Millisecond; fault _ := None; cwd := "/srv";
  json_manifestStatus _ := None; json_state _ := None; random_hex _ := None }.
Definition sample_world : World := MkWorld 0 0 ∅ [] None.

(** ** Witnesses *)

Definition demo_hash : string :=
  match (hashPassword "pepper" "correct horse battery" sample_world).1 with Ok h => h | Err _ => "" end.
Lemma password_roundtrip_witness :
  (verifyPassword "pepper" demo_hash "correct horse battery" sample_world).1 = Ok true /\
  exists salt, String.length salt = argonSaltLength /\
    ((verifyPassword "pepper" demo_hash "correct horse batterx" sample_world).1 = Ok true <->
     password_key "pepper" salt "correct horse batterx" = password_key "pepper" salt "correct horse battery").
Proof.
  apply (password_roundtrip "pepper" "correct horse battery" demo_hash sample_world); [|done].
  by vm_compute.
Defined.
Example another_password_refused :
  (verifyPassword "pepper" demo_hash "correct horse batterx" sample_world).1 = Ok false.
Proof. by vm_compute. Qed.

Definition demo_sealed : string :=
  match (encryptMFASecret "key" "u1" "JBSWY3DPEHPK3PXP" sample_world).1 with Ok s => s | Err _ => "" end.
Lemma MFA_secret_bound_witness :
  decryptMFASecret "key" "u1" demo_sealed = Ok "JBSWY3DPEHPK3PXP" /\
  (TrimSpace "u2" <> TrimSpace "u1" -> exists e, decryptMFASecret "key" "u2" demo_sealed = Err e).
Proof. apply (MFA_secret_bound "key" "u1" "u2" _ _ sample_world). by vm_compute. Defined.
