(* ===== verification/AdminTokens.v ===== *)
(** The web gateway's sign-in with one operator password ([AuthManager] of
    [internal/webgateway/auth.go], without account mode): signed session tokens
    and their revocation. *)

From S2P Require Import Prelude UnicodeTables GoStrings SampleCodec GoTime GoValue GoPath GoCrypto AlertPacket.
From S2P Require Import PlaylistModel World Secrets.

#[local] Open Scope Z_scope.
#[local] Open Scope string_scope.
#[local] Open Scope haze_scope.

(** [adminSessionClaims], and its JSON. *)
Record adminSessionClaims := MkClaims {
  cl_Subject : string; cl_IssuedAt : Z; cl_ExpiresAt : Z; cl_SessionID : string; cl_TokenNonce : string }.
Class ClaimsCodec := {
  claims_Marshal : adminSessionClaims -> string;
  claims_Unmarshal : string -> option adminSessionClaims }.
(** Text in letters, digits, [-] and [_] needs no escapes, and is read back. *)
Class ClaimsCodecOk `{ClaimsCodec} : Prop := {
  claims_read_back c : url_text (cl_Subject c) -> url_text (cl_SessionID c) -> url_text (cl_TokenNonce c) ->
    claims_Unmarshal (claims_Marshal c) = Some c }.

(** The parts of [AuthManager] that are fixed when it is made, with the
    environment variable [ADMIN_SESSION_SECRET]. *)
Record AuthConfig := MkAuthConfig {
  au_enabled : bool; au_password : string; au_passwordHash : string; au_ttl : Z; au_secret : string }.
Record AuthState := MkAuthState {
  au_world : World; au_sessions : gmap string Z; au_revoked : gmap string Z }.
#[export] Instance AuthState_world : HasWorld AuthState := {|
  the_world := au_world; with_world w s := MkAuthState w (au_sessions s) (au_revoked s) |}.
Definition set_sessions (f : gmap string Z -> gmap string Z) : M AuthState unit :=
  modify (fun s => MkAuthState (au_world s) (f (au_sessions s)) (au_revoked s)).
Definition set_revoked (f : gmap string Z -> gmap string Z) : M AuthState unit :=
  modify (fun s => MkAuthState (au_world s) (au_sessions s) (f (au_revoked s))).

(** [time.Time.Unix] and [time.Unix(n, 0)]. *)
Definition Unix (t : Z) : Z := t / Second.
Definition from_Unix (n : Z) : Z := n * Second.

Definition tokenDigest (token : string) : string := RawURL_Encode (sha256 token).

Section tokens.
Context `{Env} `{SecretTools} `{ClaimsCodec} (a : AuthConfig).

Definition sessionSigningKey : string :=
  let secret := TrimSpace (au_secret a) in
  if negb (secret =? "") then sha256 ("haze-admin-session-secret:" +:+ secret)
  else if negb (au_passwordHash a =? "") then sha256 ("haze-admin-session-hash:" +:+ au_passwordHash a)
  else sha256 ("haze-admin-session-password:" +:+ au_password a).
Definition signTokenPayload (encodedPayload : string) : string := hmac_sha256 sessionSigningKey encodedPayload.

Definition signSessionToken (sessionID : string) (issuedAt : Z) : M World (result string string) :=
  let! nonce := randomToken in
  match nonce with
  | None => ret (Err "read random bytes")
  | Some nonce =>
      let claims := MkClaims "admin" (Unix issuedAt) (Unix (Add issuedAt (au_ttl a))) sessionID nonce in
      let encodedPayload := RawURL_Encode (claims_Marshal claims) in
      ret (Ok ("haze1." +:+ encodedPayload +:+ "." +:+ RawURL_Encode (signTokenPayload encodedPayload)))
  end.

Definition sessionTokenExpiry (token : string) : option Z :=
  match Split "."%char token with
  | [version; payload; signature] =>
      if negb (version =? "haze1") then None
      else
        match RawURL_Decode signature with
        | (_, false) => None
        | (actual, true) =>
            if negb (actual =? signTokenPayload payload) then None
            else
              match RawURL_Decode payload with
              | (_, false) => None
              | (raw, true) =>
                  match claims_Unmarshal raw with
                  | None => None
                  | Some claims =>
                      if negb (cl_Subject claims =? "admin") || (cl_ExpiresAt claims <=? 0)%Z then None
                      else Some (from_Unix (cl_ExpiresAt claims))
                  end
              end
        end
  | _ => None
  end.

Definition cleanupRevokedLocked (now : Z) : M AuthState unit :=
  set_revoked (base.filter (fun '(_, expires) => After expires now = true)).
Definition cleanupSessionsLocked (now : Z) : M AuthState unit :=
  set_sessions (base.filter (fun '(token, expires) => After expires now && negb (HasPrefix token "haze1.") = true)).

(** [configured], and the check of the password. *)
Definition Configured : bool :=
  negb (au_enabled a) || negb (au_password a =? "") || negb (au_passwordHash a =? "").
Definition check_password (password : string) : option string :=
  if negb (au_passwordHash a =? "") then
    match verifyArgon2IDPHC (au_passwordHash a) password with
    | Err _ => Some "operator password hash is invalid"
    | Ok false => Some "incorrect password"
    | Ok true => None
    end
  else if au_password a =? "" then Some "operator password is not configured"
  else if negb (password =? au_password a) then Some "incorrect password"
  else None.

Definition Login (password : string) : M AuthState (result string string) :=
  if negb (au_enabled a) then ret (Ok "")
  else
    match check_password password with
    | Some e => ret (Err e)
    | None =>
        let! token := on_world randomToken in
        match token with
        | None => ret (Err "read random bytes")
        | Some token =>
            let! issuedAt := on_world now in
            let! token := on_world (signSessionToken token issuedAt) in
            match token with
            | Err e => ret (Err e)
            | Ok token =>
                let! now := on_world now in
                cleanupSessionsLocked now ;;;
                whenb (negb (bool_decide (is_Some (sessionTokenExpiry token))))
                  (set_sessions (insert token (Add now (au_ttl a)))) ;;;
                ret (Ok token)
            end
        end
    end.

Definition Logout (token : string) : M AuthState unit :=
  if token =? "" then ret tt
  else
    set_sessions (delete token) ;;;
    match sessionTokenExpiry token with
    | Some expires =>
        let! t := on_world now in
        whenb (After expires t) (set_revoked (insert (tokenDigest token) expires))
    | None => ret tt
    end ;;;
    let! now := on_world now in
    cleanupRevokedLocked now.

Definition ValidToken (token : string) : M AuthState bool :=
  if negb (au_enabled a) then ret true
  else if token =? "" then ret false
  else
    let! now := on_world now in
    cleanupRevokedLocked now ;;;
    cleanupSessionsLocked now ;;;
    let! revoked := gets au_revoked in
    match revoked !! tokenDigest token with
    | Some _ => ret false
    | None =>
        match sessionTokenExpiry token with
        | Some expires => ret (After expires now)
        | None =>
            let! sessions := gets au_sessions in
            match sessions !! token with
            | None => ret false
            | Some expires => if negb (After expires now) then set_sessions (delete token) ;;; ret false else ret true
            end
        end
    end.

(** What a client can make the manager do. *)
Inductive request := RLogin (password : string) | RLogout (token : string) | RCheck (token : string).
Definition handle (r : request) : M AuthState unit :=
  match r with
  | RLogin p => Login p ;;; ret tt
  | RLogout t => Logout t
  | RCheck t => ValidToken t ;;; ret tt
  end.
Definition handle_all (rs : list request) : M AuthState unit := for_each handle rs.

End tokens.

(** ** Tokens *)

Lemma url_text_no_dot s : url_text s -> ~ In "."%char (bytes_of s).
Proof. intros Hs Hin. unfold url_text in Hs. rewrite List.Forall_forall in Hs. by apply Hs in Hin. Qed.
#[export] Hint Resolve url_text_no_dot : haze.

(** Three parts, joined and split again. *)
Lemma Split_token p q : url_text p -> ~ In "."%char (bytes_of q) ->
  Split "."%char ("haze1." +:+ p +:+ "." +:+ q) = ["haze1"; p; q].
Proof.
  intros Hp Hq. change ("haze1." +:+ p +:+ "." +:+ q) with ("haze1" +:+ String "." (p +:+ String "." q)).
  rewrite !Split_app, Split_last; auto with haze. cbn. intuition discriminate.
Qed.

Section token_facts.
Context `{Env} `{SecretTools} `{ClaimsCodecOk} (a : AuthConfig).

Definition claims_expiry (c : adminSessionClaims) : option Z :=
  if negb (cl_Subject c =? "admin") || (cl_ExpiresAt c <=? 0)%Z then None else Some (from_Unix (cl_ExpiresAt c)).

(** A text whose last part decodes to the right signature is as good as the token. *)
Lemma sessionTokenExpiry_signed c signature :
  url_text (cl_Subject c) -> url_text (cl_SessionID c) -> url_text (cl_TokenNonce c) ->
  ~ In "."%char (bytes_of signature) ->
  let payload := RawURL_Encode (claims_Marshal c) in
  RawURL_Decode signature = (signTokenPayload a payload, true) ->
  sessionTokenExpiry a ("haze1." +:+ payload +:+ "." +:+ signature) = claims_expiry c.
Proof.
  intros H1' H2' H3' Hs payload Hd. unfold sessionTokenExpiry.
  rewrite Split_token; [|apply RawURL_text|done]. cbn [String.eqb Ascii.eqb Bool.eqb negb].
  rewrite Hd, String.eqb_refl. cbn [negb]. unfold payload. rewrite RawURL_Decode_Encode.
  by rewrite claims_read_back.
Qed.

Lemma randomToken_text w t : (randomToken w).1 = Some t -> url_text t.
Proof.
  unfold randomToken. rewrite mbind_eq. cbn. intros E. apply fmap_Some in E as (raw & _ & ->). apply RawURL_text.
Qed.

(** What a signed token is. *)
Lemma signSessionToken_spec sid t w token : (signSessionToken a sid t w).1 = Ok token ->
  exists nonce, url_text nonce /\
    let c := MkClaims "admin" (Unix t) (Unix (Add t (au_ttl a))) sid nonce in
    let payload := RawURL_Encode (claims_Marshal c) in
    token = "haze1." +:+ payload +:+ "." +:+ RawURL_Encode (signTokenPayload a payload).
Proof.
  unfold signSessionToken. rewrite mbind_eq. intros E. destruct (randomToken w).1 as [nonce|] eqn:Hn; [|done].
  injection E as <-. exists nonce. split; [by eapply randomToken_text|done].
Qed.

Lemma admin_text : url_text "admin".
Proof. repeat constructor. Qed.

Lemma signed_token_expiry sid t w token : url_text sid -> (signSessionToken a sid t w).1 = Ok token ->
  sessionTokenExpiry a token =
    if (Unix (Add t (au_ttl a)) <=? 0)%Z then None else Some (from_Unix (Unix (Add t (au_ttl a)))).
Proof.
  intros Hsid E. apply signSessionToken_spec in E as (nonce & Hnonce & ->).
  rewrite sessionTokenExpiry_signed; auto using admin_text with haze. apply RawURL_Decode_Encode.
Qed.

(** The signature has 32 bytes, so the last character of its text has two spare
    bits: another text reads as the same signature. *)
Lemma signature_malleable k m : exists s, s <> RawURL_Encode (hmac_sha256 k m) /\ url_text s /\
  RawURL_Decode s = (hmac_sha256 k m, true).
Proof.
  Transparent RawURL_Encode RawURL_Decode.
  unfold RawURL_Encode, RawURL_Decode, base64_Encode, base64_Decode, url_text.
  Opaque RawURL_Encode RawURL_Decode.
  set (h := hmac_sha256 k m). pose proof (octets_range h) as Hr.
  destruct (encode64_malleable url_alphabet url_alphabet_ok (octets h) Hr) as (k' & v & E & Hv & Hk & Hd).
  { by rewrite length_octets; unfold h; rewrite hmac_length. }
  exists (string_of (k' ++ [char64 url_alphabet (4 * v + 1)])).
  assert (Hc : Forall (fun a => exists v, 0 <= v < 64 /\ a = char64 url_alphabet v)
                 (k' ++ [char64 url_alphabet (4 * v + 1)])).
  { apply list.Forall_app. split; [done|]. constructor; [|constructor]. eexists. split; [|done]. lia. }
  rewrite !bytes_of_string_of. split; [|split].
  - rewrite E. intros Eq. apply (f_equal bytes_of) in Eq. rewrite !bytes_of_string_of in Eq.
    apply app_inj_tail in Eq as [_ Eq]. apply (f_equal (val64 url_alphabet)) in Eq.
    rewrite !(fun v Hv => proj1 (char64_ok _ url_alphabet_ok v Hv)) in Eq by lia. injection Eq. lia.
  - eapply list.Forall_impl; [exact Hc|]. intros b (x & Hx & ->). by apply char64_url.
  - rewrite chars_no_breaks with (alphabet := url_alphabet) by (done || apply url_alphabet_ok).
    rewrite Hd by lia. by rewrite of_octets_octets.
Qed.

(** So every token has a second text with the same claims. *)
Lemma token_malleable sid t w token : url_text sid -> (signSessionToken a sid t w).1 = Ok token ->
  exists token', token' <> token /\ sessionTokenExpiry a token' = sessionTokenExpiry a token.
Proof.
  intros Hsid E. rewrite (signed_token_expiry sid t w token) by done.
  apply signSessionToken_spec in E as (nonce & Hnonce & ->).
  set (c := MkClaims _ _ _ _ _). set (payload := RawURL_Encode _).
  destruct (signature_malleable (sessionSigningKey a) payload) as (s & Hne & Hs & Hd).
  exists ("haze1." +:+ payload +:+ "." +:+ s). split.
  - intros Eq. apply Hne. clear -Eq.
    change ("haze1." +:+ payload +:+ "." +:+ ?x) with ("haze1." +:+ (payload +:+ ("." +:+ x))) in Eq.
    apply (f_equal (drop_bytes (String.length "haze1."))) in Eq. rewrite !drop_bytes_app in Eq.
    apply (f_equal (drop_bytes (String.length payload))) in Eq. rewrite !drop_bytes_app in Eq.
    by injection Eq.
  - unfold payload. rewrite (sessionTokenExpiry_signed c s); auto using admin_text with haze.
Qed.
End token_facts.

(** ** Every run *)

Section runs.
Context `{Env} `{SecretTools} `{ClaimsCodecOk} (a : AuthConfig).

Lemma reads_random n len : preserves (reads_from n) (random_bytes len).
Proof. by intros w Hw. Qed.
#[local] Hint Resolve reads_random : haze.
Lemma reads_randomToken n : preserves (reads_from n) randomToken.
Proof. unfold randomToken. keeps. Qed.
#[local] Hint Resolve reads_randomToken : haze.
Lemma reads_sign n sid t : preserves (reads_from n) (signSessionToken a sid t).
Proof. unfold signSessionToken. keeps. Qed.
#[local] Hint Resolve reads_sign : haze.

(** A token that is out stays out: it is in the list of revoked tokens, or no
    later reading of the clock is before its expiry. *)
Definition out (token : string) (expires : Z) (s : AuthState) : Prop :=
  au_revoked s !! tokenDigest token = Some expires \/
  forall n, (reads (au_world s) <= n)%nat -> expires <= clock n.

Definition monotone_clock : Prop := forall n, clock n <= clock (S n).
Lemma clock_le (Hclock : monotone_clock) n m : (n <= m)%nat -> clock n <= clock m.
Proof. induction 1 as [|m _ IH]; [done|]. specialize (Hclock m). lia. Qed.

Section out.
Context (Hclock : monotone_clock) (token : string) (expires : Z).
Let P := out token expires.

Lemma out_world {A} (m : M World A) : (forall n, preserves (reads_from n) m) -> preserves P (on_world m).
Proof.
  intros Hm s [Hs|Hs]; rewrite on_world_eq; [by left|right]. cbn. intros n Hn. apply Hs.
  pose proof (Hm _ (au_world s) (Nat.le_refl _)) as Hw. unfold reads_from in Hw. cbn in Hn. lia.
Qed.
Lemma out_sessions f : preserves P (set_sessions f).
Proof. apply preserves_modify. by intros s [Hs|Hs]; [left|right]. Qed.

(** The clean-up with the time just read. *)
Lemma out_cleanup {B} (k : Z -> M AuthState B) : (forall t, preserves P (k t)) ->
  preserves P (let! t := on_world now in cleanupRevokedLocked t ;;; k t).
Proof.
  intros Hk s Hs. rewrite !mbind_eq, on_world_eq. cbn. apply Hk.
  destruct Hs as [Hs|Hs]; [|right; cbn; intros n Hn; apply Hs; lia].
  destruct (After expires (clock (reads (au_world s)))) eqn:Ha.
  - left. cbn. apply map_lookup_filter_Some. by split.
  - right. cbn. intros n Hn. unfold After in Ha. apply Z.ltb_ge in Ha.
    pose proof (clock_le Hclock _ n (Nat.lt_le_incl _ _ Hn)). lia.
Qed.
Lemma out_cleanup_last : preserves P (let! t := on_world now in cleanupRevokedLocked t).
Proof.
  intros s Hs. pose proof (out_cleanup (fun _ => ret tt) (fun _ => preserves_ret _ _) s Hs) as Hc.
  by rewrite !mbind_eq in Hc |- *.
Qed.
#[local] Hint Resolve out_world out_sessions out_cleanup_last : haze.

(** Another token with the same digest would overwrite the entry. *)
Lemma out_insert token' e : (tokenDigest token' = tokenDigest token -> e = expires) ->
  preserves P (set_revoked (insert (tokenDigest token') e)).
Proof.
  intros He. apply preserves_modify. intros s [Hs|Hs]; [left|by right]. cbn.
  destruct (decide (tokenDigest token' = tokenDigest token)) as [E|Hne].
  - rewrite E, lookup_insert_eq. by rewrite (He E).
  - by rewrite lookup_insert_ne.
Qed.

Lemma out_Logout token' :
  (tokenDigest token' = tokenDigest token -> sessionTokenExpiry a token' = Some expires) ->
  preserves P (Logout a token').
Proof.
  intros He. unfold Logout. destruct (token' =? ""); [apply preserves_ret|].
  apply preserves_bind; [auto with haze|intros _]. apply preserves_bind; [|intros _; apply out_cleanup_last].
  destruct (sessionTokenExpiry a token') as [e|] eqn:Hexp; [|apply preserves_ret].
  apply preserves_bind; [eauto with haze|intros t]. apply preserves_whenb. intros _.
  apply out_insert. intros E. apply He in E. congruence.
Qed.
Lemma out_Login password : preserves P (Login a password).
Proof. unfold Login, cleanupSessionsLocked. keeps. Qed.
Lemma out_ValidToken token' : preserves P (ValidToken a token').
Proof.
  unfold ValidToken. destruct (negb (au_enabled a)); [apply preserves_ret|].
  destruct (token' =? ""); [apply preserves_ret|]. apply out_cleanup. intros t. unfold cleanupSessionsLocked. keeps.
Qed.

(** The requests that cannot bring the token back. *)
Definition harmless (r : request) : Prop :=
  match r with RLogout t => tokenDigest t = tokenDigest token -> t = token | _ => True end.
Lemma out_handle r : sessionTokenExpiry a token = Some expires -> harmless r -> preserves P (handle a r).
Proof.
  intros He. destruct r as [p|t|t]; cbn; intros Hr.
  - apply preserves_bind; [apply out_Login|auto with haze].
  - apply out_Logout. intros E. by rewrite Hr.
  - apply preserves_bind; [apply out_ValidToken|auto with haze].
Qed.

Lemma out_invalid s : au_enabled a = true -> sessionTokenExpiry a token = Some expires -> P s ->
  (ValidToken a token s).1 = false.
Proof.
  intros Hen He Hs. unfold ValidToken. rewrite Hen. cbn [negb]. destruct (token =? ""); [done|].
  rewrite !mbind_eq, on_world_eq. cbn. rewrite He.
  destruct (base.filter _ (au_revoked s) !! tokenDigest token) as [e|] eqn:Hl; [done|]. cbn.
  unfold After. apply Z.ltb_ge. destruct Hs as [Hs|Hs]; [|by apply Hs].
  rewrite map_lookup_filter_None in Hl. destruct Hl as [Hl|Hl]; [congruence|].
  specialize (Hl _ Hs). unfold After in Hl. lia.
Qed.
End out.

Lemma Logout_out (Hclock : monotone_clock) token expires s : token <> "" ->
  sessionTokenExpiry a token = Some expires -> out token expires (Logout a token s).2.
Proof.
  intros Hne He. unfold Logout. apply String.eqb_neq in Hne as ->. rewrite He, !mbind_eq.
  apply (out_cleanup_last Hclock). rewrite on_world_eq. cbn.
  destruct (After expires (clock (reads (au_world s)))) eqn:Ha; cbn.
  - left. cbn. by rewrite lookup_insert_eq.
  - right. cbn. intros n Hn. unfold After in Ha. apply Z.ltb_ge in Ha.
    pose proof (clock_le Hclock _ n (Nat.lt_le_incl _ _ Hn)). lia.
Qed.

(** C23: a token that was logged out is refused ever after, whatever requests
    follow, as long as the clock does not go back and no other token that is
    logged out has its SHA-256 digest. *)
Theorem logged_out_stays_out (Hclock : monotone_clock) token expires rs s :
  au_enabled a = true -> sessionTokenExpiry a token = Some expires -> Forall (harmless token) rs ->
  (ValidToken a token (handle_all a rs (Logout a token s).2).2).1 = false.
Proof.
  intros Hen He Hrs. apply (out_invalid token expires); [done..|].
  apply (preserves_for_each (out token expires)).
  - eapply List.Forall_impl; [|exact Hrs]. intros r Hr. by apply out_handle.
  - apply Logout_out; [done| |done]. intros ->. by cbn in He.
Qed.

(** *** What is accepted *)

(** Unsigned sessions are never stored: a token of this service starts with its
    version. *)
Definition only_signed (s : AuthState) : Prop :=
  map_Forall (fun token _ => HasPrefix token "haze1." = true) (au_sessions s).

Lemma signed_prefix sid t w token : (signSessionToken a sid t w).1 = Ok token -> HasPrefix token "haze1." = true.
Proof. intros E. apply signSessionToken_spec in E as (nonce & _ & ->). apply HasPrefix_refl_app. Qed.

Lemma only_signed_world {A} (m : M World A) : preserves only_signed (on_world m).
Proof. intros s Hs. by rewrite on_world_eq. Qed.
Lemma only_signed_revoked f : preserves only_signed (set_revoked f).
Proof. by apply preserves_modify. Qed.
Lemma only_signed_filter now : preserves only_signed (cleanupSessionsLocked now).
Proof. apply preserves_modify. intros s Hs k v Hk. cbn in Hk. apply map_lookup_filter_Some in Hk as [Hk _]. by eapply Hs. Qed.
Lemma only_signed_delete k : preserves only_signed (set_sessions (delete k)).
Proof. apply preserves_modify. intros s Hs k' v Hk. cbn in Hk. apply lookup_delete_Some in Hk as [_ Hk]. by eapply Hs. Qed.
#[local] Hint Resolve only_signed_world only_signed_revoked only_signed_filter only_signed_delete : haze.

Lemma only_signed_Login password : preserves only_signed (Login a password).
Proof.
  unfold Login. destruct (negb (au_enabled a)); [apply preserves_ret|].
  destruct (check_password a password); [apply preserves_ret|].
  apply preserves_bind; [auto with haze|]. intros [sid|]; [|apply preserves_ret].
  apply preserves_bind; [auto with haze|]. intros issuedAt s Hs. rewrite mbind_eq, on_world_eq. cbn [fst snd].
  destruct (signSessionToken a sid issuedAt (the_world s)) as [[token|e] w] eqn:E; [|done]. cbn [fst snd].
  match goal with |- only_signed (?m ?s').2 => enough (preserves only_signed m) as Hk by by apply Hk end.
  apply preserves_bind; [auto with haze|intros t]. apply preserves_bind; [auto with haze|intros _].
  apply preserves_bind; [|intros _; apply preserves_ret]. apply preserves_whenb. intros _.
  apply preserves_modify. intros s' Hs' k v Hk. cbn in Hk. apply lookup_insert_Some in Hk as [[<- _]|[_ Hk]].
  - eapply signed_prefix. by rewrite E.
  - by eapply Hs'.
Qed.
Lemma only_signed_handle r : preserves only_signed (handle a r).
Proof.
  destruct r as [p|t|t]; cbn.
  - apply preserves_bind; [apply only_signed_Login|auto with haze].
  - unfold Logout, cleanupRevokedLocked. keeps.
  - apply preserves_bind; [|auto with haze]. unfold ValidToken, cleanupRevokedLocked. keeps.
Qed.

(** C24: after any requests, a token is accepted only when it has the signature of
    this service's key, claims that name the operator and an expiry in the
    future, and was not logged out. *)
Theorem accepted_token_signed rs w token :
  let s := (handle_all a rs (MkAuthState w ∅ ∅)).2 in
  au_enabled a = true -> (ValidToken a token s).1 = true ->
  exists payload signature claims,
    Split "."%char token = ["haze1"; payload; signature] /\
    RawURL_Decode signature = (hmac_sha256 (sessionSigningKey a) payload, true) /\
    claims_Unmarshal (RawURL_Decode payload).1 = Some claims /\ cl_Subject claims = "admin" /\
    (clock (reads (au_world s)) < from_Unix (cl_ExpiresAt claims))%Z.
Proof.
  intros s Hen Hv. assert (Hs : only_signed s).
  { apply (preserves_for_each only_signed); [|by intros k v Hk].
    apply List.Forall_forall. intros r _. apply only_signed_handle. }
  clearbody s. unfold ValidToken in Hv. rewrite Hen in Hv. cbn [negb] in Hv.
  destruct (token =? ""); [done|]. rewrite !mbind_eq, on_world_eq in Hv. cbn in Hv.
  destruct (base.filter _ (au_revoked s) !! _); [done|].
  destruct (sessionTokenExpiry a token) as [e|] eqn:He.
  - cbn in Hv. unfold After in Hv. apply Z.ltb_lt in Hv. unfold sessionTokenExpiry in He.
    destruct (Split "."%char token) as [|v [|p [|sig [|]]]]; try done.
    destruct (negb (v =? "haze1")) eqn:Ev; [done|]. bool_hyps. subst v.
    destruct (RawURL_Decode sig) as [actual []] eqn:Hsig; [|done].
    destruct (negb (actual =? signTokenPayload a p)) eqn:Ea; [done|]. bool_hyps. subst actual.
    destruct (RawURL_Decode p) as [raw []] eqn:Hp; [|done].
    destruct (claims_Unmarshal raw) as [c|] eqn:Hc; [|done].
    destruct (negb (cl_Subject c =? "admin") || (cl_ExpiresAt c <=? 0)%Z) eqn:Es; [done|]. bool_hyps.
    injection He as <-. exists p, sig, c. by rewrite Hp.
  - rewrite mbind_eq in Hv. cbn in Hv. destruct (base.filter _ (au_sessions s) !! token) as [x|] eqn:Hx; [|done].
    apply map_lookup_filter_Some in Hx as [Hx Hf]. apply Hs in Hx.
    rewrite Hx in Hf. by rewrite andb_false_r in Hf.
Qed.

(** What the code does not do.  The list of revoked tokens holds digests of
    token texts, but two bits of a signature's last character are not read, so
    every token has another text with the same claims: after a logout that other
    text is accepted until the token expires. *)
Theorem logout_bypassed sid t w token s :
  au_enabled a = true -> url_text sid -> (signSessionToken a sid t w).1 = Ok token ->
  let expires := Unix (Add t (au_ttl a)) in
  0 < expires -> (forall n, (n <= reads (au_world s) + 2)%nat -> clock n < from_Unix expires) ->
  au_revoked s = ∅ ->
  exists token', token' <> token /\
    (tokenDigest token' <> tokenDigest token ->
     let s' := (Logout a token s).2 in
     (ValidToken a token s').1 = false /\ (ValidToken a token' s').1 = true).
Proof.
  intros Hen Hsid E expires Hpos Hclk Hrev. pose proof (signed_token_expiry a sid t w token Hsid E) as He.
  destruct (token_malleable a sid t w token Hsid E) as (token' & Hne & He').
  exists token'. split; [done|]. intros Hdig. fold expires in He.
  rewrite (proj2 (Z.leb_gt _ _) Hpos) in He. rewrite He in He'. set (e := from_Unix expires) in *.
  assert (Haft : forall c, (c <= reads (au_world s) + 2)%nat -> After e (clock c) = true)
    by (intros c Hc; by apply Z.ltb_lt, Hclk).
  assert (Hn : forall x, sessionTokenExpiry a x = Some e -> (x =? "") = false).
  { intros x Hx. destruct (String.eqb_spec x ""); [by subst|done]. }
  assert (Hl : au_revoked (Logout a token s).2 = {[tokenDigest token := e]} /\
               reads (au_world (Logout a token s).2) = (reads (au_world s) + 2)%nat).
  { unfold Logout. rewrite Hn, He by done. rewrite !mbind_eq, !on_world_eq. cbn.
    rewrite Haft by lia. cbn. rewrite Hrev, insert_empty. split; [|lia].
    apply map_filter_singleton_True. apply Haft. lia. }
  set (s' := (Logout a token s).2) in *. clearbody s'. destruct Hl as [Hl Hr]. cbn zeta.
  unfold ValidToken. rewrite Hen, !Hn by done. cbn [negb]. rewrite !mbind_eq, !on_world_eq. cbn.
  rewrite Hr, Hl, map_filter_singleton_True by (apply Haft; lia).
  rewrite lookup_singleton_eq, lookup_singleton_ne by done. cbn. rewrite He'. cbn. split; [done|].
  apply Haft. lia.
Qed.

(** Signing in gives a token that is accepted until it expires, unless it is
    logged out. *)
Lemma Login_accepted password token s s' :
  au_enabled a = true -> (Login a password s).1 = Ok token ->
  let expires := Unix (Add (clock (reads (au_world s))) (au_ttl a)) in
  0 < expires -> clock (reads (au_world s')) < from_Unix expires -> au_revoked s' !! tokenDigest token = None ->
  check_password a password = None /\ (ValidToken a token s').1 = true.
Proof.
  intros Hen E expires Hpos Hclk Hrev. unfold Login in E. rewrite Hen in E. cbn [negb] in E.
  destruct (check_password a password); [done|]. split; [done|].
  rewrite mbind_eq, on_world_eq in E. cbn [fst snd] in E.
  destruct (randomToken (the_world s)).1 as [sid|] eqn:Hsid; [|done].
  assert (Hreads : reads (randomToken (au_world s)).2 = reads (au_world s)) by done.
  apply randomToken_text in Hsid. rewrite mbind_eq, on_world_eq in E. cbn [fst snd] in E.
  rewrite mbind_eq, on_world_eq in E. cbn [fst snd the_world AuthState_world au_world with_world now] in E.
  rewrite Hreads in E.
  destruct (signSessionToken a sid _ _).1 as [token'|] eqn:Hsign; [|done].
  rewrite !mbind_eq in E. injection E as ->.
  apply signed_token_expiry in Hsign as He; [|done]. fold expires in He.
  rewrite (proj2 (Z.leb_gt _ _) Hpos) in He. unfold ValidToken. rewrite Hen. cbn [negb].
  destruct (String.eqb_spec token "") as [->|_]; [by cbn in He|].
  rewrite !mbind_eq, on_world_eq. cbn.
  destruct (base.filter _ (au_revoked s') !! _) eqn:Hf.
  { apply map_lookup_filter_Some in Hf as [Hf _]. congruence. }
  rewrite He. by apply Z.ltb_lt.
Qed.
End runs.

(** ** A concrete instance *)

#[export] Instance sample_ClaimsCodec : ClaimsCodec | 1000 := {|
  claims_Marshal c := framed (cl_Subject c) +:+ framed (cl_SessionID c) +:+ framed (cl_TokenNonce c) +:+
    Z_text (cl_IssuedAt c) +:+ Z_text (cl_ExpiresAt c);
  claims_Unmarshal s :=
    p1 ← read_framed s; p2 ← read_framed p1.2; p3 ← read_framed p2.2; p4 ← read_Z p3.2; p5 ← read_Z p4.2;
    Some (MkClaims p1.1 p4.1 p5.1 p2.1 p3.1) |}.
Lemma sample_ClaimsCodecOk : ClaimsCodecOk (H := sample_ClaimsCodec).
Proof.
  constructor. intros [sub iat exp sid nonce] _ _ _. cbn.
  rewrite read_framed_text. cbn. rewrite read_framed_text. cbn. rewrite read_framed_text. cbn.
  rewrite read_Z_text. cbn. rewrite <- (string_app_nil_r (Z_text exp)), read_Z_text. done.
Qed.
#[export] Existing Instance sample_ClaimsCodecOk | 1000.

Definition demo_config : AuthConfig := MkAuthConfig true "operator" "" (12 * Hour) "".
Definition demo_start : AuthState := MkAuthState sample_world ∅ ∅.
Definition demo_token : string :=
  match (Login demo_config "operator" demo_start).1 with Ok t => t | Err _ => "" end.
Definition demo_expiry : Z := 1714608000 * Second.
Lemma demo_clock : monotone_clock.
Proof. intros n. cbn. unfold Millisecond. lia. Qed.

Lemma logged_out_stays_out_witness :
  (ValidToken demo_config demo_token (handle_all demo_config
     [RLogin "operator"; RCheck demo_token; RLogout demo_token; RCheck ""] (Logout demo_config demo_token demo_start).2).2).1
  = false.
Proof.
  apply (logged_out_stays_out demo_config demo_clock demo_token demo_expiry); [done|by vm_compute|].
  repeat constructor.
Defined.
Lemma accepted_token_signed_witness : exists payload signature claims,
  Split "."%char demo_token = ["haze1"; payload; signature] /\
  RawURL_Decode signature = (hmac_sha256 (sessionSigningKey demo_config) payload, true) /\
  claims_Unmarshal (RawURL_Decode payload).1 = Some claims /\ cl_Subject claims = "admin" /\
  (clock (reads (au_world (handle_all demo_config [RLogin "operator"] demo_start).2)) < from_Unix (cl_ExpiresAt claims))%Z.
Proof. apply (accepted_token_signed demo_config [RLogin "operator"] sample_world demo_token); [done|by vm_compute]. Defined.
Lemma logout_bypassed_witness : exists token', token' <> demo_token /\
  (tokenDigest token' <> tokenDigest demo_token ->
   let s' := (Logout demo_config demo_token demo_start).2 in
   (ValidToken demo_config demo_token s').1 = false /\ (ValidToken demo_config token' s').1 = true).
Proof.
  apply (logout_bypassed demo_config (RawURL_Encode (of_octets (repeat 0 32))) (clock 0) (random_bytes 32 sample_world).2);
    [done|apply RawURL_text|by vm_compute|done| |done].
  intros n Hn. assert (Hn' : (n <= 2)%nat) by exact Hn. destruct n as [|[|[|]]]; try lia; by vm_compute.
Defined.
(** The same, on the text of a token. *)
Definition respelled (token : string) : string :=
  string_of (removelast (bytes_of token) ++
    map (fun c => char64 url_alphabet (default 0 (val64 url_alphabet c) + 1)) (skipn (String.length token - 1) (bytes_of token))).
Example respelled_token_accepted :
  let s := (Logout demo_config demo_token demo_start).2 in
  (respelled demo_token =? demo_token) = false /\ (ValidToken demo_config demo_token s).1 = false /\
  (ValidToken demo_config (respelled demo_token) s).1 = true.
Proof. by vm_compute. Qed.
