(* ===== verification/AlertRequest.v ===== *)
(** Priority alert requests ([services/go/internal/playlist], the free
    functions of [service.go], [async.go] and [same.go] over alert data):
    identity, normalisation, staleness, and the removal of superseded files
    from the alert queue. *)

From stdpp Require Import pretty.
From S2P Require Import Prelude UnicodeTables GoStrings GoTime GoValue GoPath AlertPacket.
From S2P Require Import PlaylistModel World.

#[local] Open Scope Z_scope.
#[local] Open Scope string_scope.
#[local] Open Scope haze_scope.

(** ** Text helpers *)

(** [parseTime]; the zero time when the text is blank or malformed. *)
Definition parseTime (raw : string) : Z :=
  let raw := TrimSpace raw in
  if raw =? "" then zeroTime
  else match time_Parse raw with
       | Some t => t
       | None => zeroTime
       end.

Definition formatOptionalTime (value : Z) : string :=
  if IsZero value then "" else FormatRFC3339Nano value.

Definition safe_rune (z : Z) : bool :=
  is_lower z || is_upper z || is_digit z || (z =? 45)%Z || (z =? 95)%Z || (z =? 46)%Z.
Definition safeID (value : string) : string :=
  let builder := filter_bytes safe_rune value in
  if (String.length builder =? 0)%nat then "item" else builder.

Definition uniqueStrings_entry (value : string) : option (string * string) :=
  let value := TrimSpace value in
  if value =? "" then None else Some (value, value).
Definition uniqueStrings (values : list string) : list string :=
  dedup_loop uniqueStrings_entry ∅ values.

(** ** Requests *)

Section requests.
Context `{JSON} `{Env}.

Definition stringListAny : any -> list string := GoValue.stringListAny sprint_struct.

Definition priorityAlertIDs (data : obj) : list string :=
  let ids := stringListAny (firstValue ∅ data ["alert_ids"]) in
  let id := firstText ∅ data ["alert_id"; "id"; "subject"] in
  uniqueStrings (if negb (id =? "") then ids ++ [id] else ids).

Definition includeSameAlert (data : obj) : bool :=
  match data !! "include_same" with
  | Some (ABool typed) => typed
  | Some (AString typed) => xmlBool typed false
  | _ => false
  end.

Definition alertAttentionToneEnabled (data : obj) : bool :=
  let tone := ToUpper (TrimSpace (firstText ∅ data ["same_tone"; "tone_type"; "attention_tone"])) in
  negb (mem tone [""; "NONE"; "NO"; "OFF"; "DISABLED"]).

(** A request without an identity is named after the clock. *)
Definition normalizePriorityAlertRequest (data : obj) : M World (obj * string) :=
  let merged := default ∅ (MergePacketFields (Some data)) in
  let alertID := firstText ∅ merged ["alert_id"; "id"; "subject"] in
  let! alertID :=
    if alertID =? "" then let! t := now in ret ("cap-" +:+ Itoa t) else ret alertID in
  ret (<["alert_id" := AString alertID]> merged, alertID).

Definition priorityAlertRequestStale (data : obj) (t : Z) : bool :=
  let header := ToLower (firstText ∅ data ["title"; "header"]) in
  let expires := parseTime (firstText ∅ data ["alert_expires_at"; "expires"]) in
  let sent := parseTime (firstText ∅ data ["alert_sent_at"; "sent"]) in
  let event := ToUpper (firstText ∅ data ["same_event"; "event"]) in
  let limit :=
    if (event =? "SVR") || (event =? "TOR") || Contains header "severe thunderstorm warning" ||
       Contains header "tornado warning"
    then 30 * Minute else Hour in
  if EqualFold (firstText ∅ data ["message_type"; "msg_type"]) "Cancel" then true
  else if Contains header "ended" || Contains header "cancelled" || Contains header "canceled"
  then true
  else if boolAny (firstValue ∅ data ["force_broadcast"; "force"; "rebroadcast"]) then false
  else if negb (IsZero expires) && negb (Before t expires) then true
  else if IsZero sent || Before t sent then false
  else (limit <=? Sub t sent)%Z.

Definition eventDataWithIdentity (event : obj) : obj :=
  let copyData := mapAt event "data" in
  let subject := firstText event ∅ ["alert_id"; "id"; "subject"] in
  let copyData :=
    if (firstText ∅ copyData ["alert_id"; "id"; "subject"] =? "") && negb (subject =? "")
    then <["alert_id" := AString subject]> copyData else copyData in
  let feedID := firstText event ∅ ["feed_id"] in
  let copyData :=
    if (firstText ∅ copyData ["feed_id"] =? "") && negb (feedID =? "")
    then <["feed_id" := AString feedID]> copyData else copyData in
  match copyData !! "alert_ids", event !! "alert_ids" with
  | None, Some alertIDs => <["alert_ids" := alertIDs]> copyData
  | _, _ => copyData
  end.

Definition shouldDeferCAPPlayoutToRust (rustPlayoutEnabled : bool) (event : obj) : bool :=
  rustPlayoutEnabled &&
  mem (stringAt event "type") ["cap.alert.broadcast.requested"; "cap.alert.cancelled"].

(** ** The alert queue on disk *)

Definition alertManifestPath (baseDir id : string) : string :=
  JoinPath [baseDir; "runtime"; "queues"; "alerts"; id +:+ ".json"].
Definition alertAudioPath (baseDir id : string) : string :=
  JoinPath [baseDir; "runtime"; "audio"; "alerts"; id +:+ ".pcm16le"].

(** A queue entry a player may be holding. *)
Definition manifest_in_flight (m : manifestStatus) : bool :=
  if negb (TrimSpace (ms_PlayedAt m) =? "") || negb (TrimSpace (ms_FailedAt m) =? "") then false
  else mem (ToLower (TrimSpace (ms_Status m))) ["queued"; "claimed"; "event_queued"; "playing"] ||
       negb (TrimSpace (ms_ClaimedAt m) =? "").

Definition preserveInFlightAlertManifest (path : string) : M World bool :=
  gets (fun w =>
    match files w !! path ≫= fun f => json_decode_status (f_data f) with
    | Some m => manifest_in_flight m
    | None => false
    end).

Definition supersededIDs (feedID alertID : string) : list string :=
  [safeID ("000_" +:+ feedID +:+ "_" +:+ alertID +:+ "_same_header");
   safeID ("000_" +:+ feedID +:+ "_" +:+ alertID +:+ "_same");
   safeID ("001_" +:+ feedID +:+ "_" +:+ alertID +:+ "_cap");
   safeID ("002_" +:+ feedID +:+ "_" +:+ alertID +:+ "_same_eom");
   safeID ("cap_alert_" +:+ feedID +:+ "_" +:+ alertID)].

Definition cleanup_entry (baseDir keepID id : string) : M World unit :=
  if (id =? "") || (id =? keepID) then ret tt
  else
    let manifestPath := alertManifestPath baseDir id in
    let! preserve := preserveInFlightAlertManifest manifestPath in
    if (preserve : bool) then ret tt
    else remove_file manifestPath ;;; remove_file (alertAudioPath baseDir id).

Definition cleanupSupersededAlertQueueParts (baseDir feedID alertID keepID : string) :
    M World unit :=
  for_each (cleanup_entry baseDir keepID) (supersededIDs feedID alertID).

End requests.

(** ** Facts: identifiers *)

Lemma safeID_bytes s : Forall (fun a => safe_rune (byte_val a) = true) (bytes_of (safeID s)).
Proof.
  unfold safeID. destruct (_ =? 0)%nat; [by repeat constructor|]. apply filter_bytes_forall.
Qed.
Lemma safeID_nonempty s : safeID s <> "".
Proof.
  unfold safeID. destruct (String.length (filter_bytes safe_rune s) =? 0)%nat eqn:E; [done|].
  intros Hs. by rewrite Hs in E.
Qed.
Lemma safeID_idem s : safeID (safeID s) = safeID s.
Proof.
  pose proof (safeID_bytes s) as Hb. pose proof (safeID_nonempty s) as Hne.
  unfold safeID at 1. rewrite filter_bytes_id by done. by destruct (safeID s).
Qed.

(** A file name made of a safe identifier and an extension is one plain
    component. *)
Lemma safe_name_plain id ext :
  Forall (fun a => safe_rune (byte_val a) = true) (bytes_of id) -> id <> "" ->
  (2 < String.length ext)%nat -> ~ In slash (bytes_of ext) ->
  plain (id +:+ ext) /\ id +:+ ext <> "..".
Proof.
  intros Hid Hne Hlen Hext.
  assert (2 < String.length (id +:+ ext))%nat as Hl.
  { rewrite <- !length_bytes_of, bytes_of_app, length_app, !length_bytes_of. lia. }
  split; [split_and!|]; try (intros E; rewrite E in Hl; simpl in Hl; lia).
  rewrite bytes_of_app, in_app_iff. intros [Hin|]; [|done].
  rewrite List.Forall_forall in Hid. by apply Hid in Hin.
Qed.

Lemma string_app_inj_r s t u : s +:+ u = t +:+ u -> s = t.
Proof.
  intros H. apply (f_equal bytes_of) in H. rewrite !bytes_of_app in H.
  apply bytes_of_inj. by apply app_inv_tail in H.
Qed.

Section queue.
Context `{Env}.

Definition safe_id (id : string) : Prop := exists s, id = safeID s.

Lemma safe_id_plain id ext : safe_id id -> (2 < String.length ext)%nat ->
  ~ In slash (bytes_of ext) -> plain (id +:+ ext) /\ id +:+ ext <> "..".
Proof. intros [s ->]. apply safe_name_plain; [apply safeID_bytes | apply safeID_nonempty]. Qed.

Lemma alert_path_Base dir id ext b : safe_id id -> (2 < String.length ext)%nat ->
  ~ In slash (bytes_of ext) -> Base (JoinPath [b; "runtime"; dir; "alerts"; id +:+ ext]) = id +:+ ext.
Proof.
  intros Hid Hlen Hext. destruct (safe_id_plain id ext Hid Hlen Hext) as [Hp Hd].
  change [b; "runtime"; dir; "alerts"; id +:+ ext]
    with ([b; "runtime"; dir; "alerts"] ++ [id +:+ ext])%list.
  apply Base_JoinPath; [|done|done].
  change [b; "runtime"; dir; "alerts"] with ([b] ++ ["runtime"] ++ [dir; "alerts"])%list.
  rewrite !list.filter_app. simpl. by destruct (base.filter _ [b]).
Qed.

Lemma slash_json : ~ In slash (bytes_of ".json").
Proof. simpl. intuition discriminate. Qed.
Lemma slash_pcm : ~ In slash (bytes_of ".pcm16le").
Proof. simpl. intuition discriminate. Qed.

Lemma alertManifestPath_inj b id1 id2 : safe_id id1 -> safe_id id2 ->
  alertManifestPath b id1 = alertManifestPath b id2 -> id1 = id2.
Proof.
  intros H1 H2 E. apply (f_equal Base) in E. unfold alertManifestPath in E.
  rewrite !alert_path_Base in E by (try done; simpl; try lia; apply slash_json).
  by apply string_app_inj_r in E.
Qed.
Lemma alertAudioPath_inj b id1 id2 : safe_id id1 -> safe_id id2 ->
  alertAudioPath b id1 = alertAudioPath b id2 -> id1 = id2.
Proof.
  intros H1 H2 E. apply (f_equal Base) in E. unfold alertAudioPath in E.
  rewrite !alert_path_Base in E by (try done; simpl; try lia; apply slash_pcm).
  by apply string_app_inj_r in E.
Qed.
Lemma manifest_audio_disjoint b id1 id2 : safe_id id1 -> safe_id id2 ->
  alertManifestPath b id1 <> alertAudioPath b id2.
Proof.
  intros H1 H2 E. apply (f_equal Base) in E. unfold alertManifestPath, alertAudioPath in E.
  rewrite alert_path_Base in E by (try done; simpl; try lia; apply slash_json).
  rewrite alert_path_Base in E by (try done; simpl; try lia; apply slash_pcm).
  apply (f_equal string_rev) in E. rewrite !string_rev_app in E. discriminate.
Qed.

Lemma supersededIDs_safe feedID alertID id : In id (supersededIDs feedID alertID) -> safe_id id.
Proof. simpl. intros [<-|[<-|[<-|[<-|[<-|[]]]]]]; by eexists. Qed.

(** Is the manifest at [path] held by a player? *)
Definition in_flight (w : World) (path : string) : bool :=
  match files w !! path ≫= fun f => json_decode_status (f_data f) with
  | Some m => manifest_in_flight m
  | None => false
  end.

(** One entry: either nothing happens, or the two files of the id go. *)
Lemma cleanup_entry_files b keep id w :
  let w' := (cleanup_entry b keep id w).2 in
  reads w' = reads w /\ attempts w' = attempts w /\ published w' = published w /\
  files w' = if (id =? "") || (id =? keep) || in_flight w (alertManifestPath b id) then files w
             else delete (alertAudioPath b id) (delete (alertManifestPath b id) (files w)).
Proof.
  unfold cleanup_entry. destruct ((id =? "") || (id =? keep)); [done|]. simpl.
  unfold mbind, preserveInFlightAlertManifest, gets. simpl.
  unfold in_flight. by destruct (match _ ≫= _ with Some _ => _ | None => false end).
Qed.

(** The files of an id that is kept or in flight are untouched by a cleanup. *)
Definition protected_id (b keep id : string) (w : World) : Prop :=
  id = keep \/ in_flight w (alertManifestPath b id) = true.

Lemma cleanup_entry_protects b keep id id' w : safe_id id -> safe_id id' ->
  protected_id b keep id w ->
  let w' := (cleanup_entry b keep id' w).2 in
  files w' !! alertManifestPath b id = files w !! alertManifestPath b id /\
  files w' !! alertAudioPath b id = files w !! alertAudioPath b id.
Proof.
  intros Hid Hid' Hp. cbv zeta. destruct (cleanup_entry_files b keep id' w) as (_ & _ & _ & ->).
  destruct (decide (id' = id)) as [->|Hne].
  - destruct Hp as [->|Hp]; [rewrite String.eqb_refl, orb_true_r; done|].
    by rewrite Hp, orb_true_r.
  - destruct (_ || _); [done|].
    pose proof (alertManifestPath_inj b id' id Hid' Hid).
    pose proof (alertAudioPath_inj b id' id Hid' Hid).
    pose proof (manifest_audio_disjoint b id id' Hid Hid').
    pose proof (manifest_audio_disjoint b id' id Hid' Hid).
    rewrite !lookup_delete_ne by naive_solver. done.
Qed.

Lemma cleanup_protects b keep feedID alertID id w : safe_id id -> protected_id b keep id w ->
  let w' := (cleanupSupersededAlertQueueParts b feedID alertID keep w).2 in
  files w' !! alertManifestPath b id = files w !! alertManifestPath b id /\
  files w' !! alertAudioPath b id = files w !! alertAudioPath b id.
Proof.
  intros Hid Hp. unfold cleanupSupersededAlertQueueParts.
  apply (for_each_ind (fun w' =>
    files w' !! alertManifestPath b id = files w !! alertManifestPath b id /\
    files w' !! alertAudioPath b id = files w !! alertAudioPath b id)); [done|].
  intros id' w' Hin [Hm Ha]. rewrite <- Hm, <- Ha.
  apply cleanup_entry_protects; [done|by eapply supersededIDs_safe|].
  unfold protected_id, in_flight in *. by rewrite Hm.
Qed.

End queue.

Section exact.
Context `{Env}.

(** The ids a cleanup removes, and the files it removes for them. *)
Definition doomed (b keep : string) (w : World) (id : string) : bool :=
  negb ((id =? keep) || in_flight w (alertManifestPath b id)).
Definition doomed_path (b keep : string) (w : World) (ids : list string) (path : string) : bool :=
  existsb (fun id => doomed b keep w id &&
    ((path =? alertManifestPath b id) || (path =? alertAudioPath b id))) ids.

Lemma safe_id_nonempty id : safe_id id -> (id =? "") = false.
Proof. intros [s ->]. apply String.eqb_neq, safeID_nonempty. Qed.

Lemma cleanup_entry_lookup b keep id w path : safe_id id ->
  files (cleanup_entry b keep id w).2 !! path =
  if doomed_path b keep w [id] path then None else files w !! path.
Proof.
  intros Hid. destruct (cleanup_entry_files b keep id w) as (_ & _ & _ & ->).
  unfold doomed_path. cbn [existsb]. unfold doomed.
  rewrite (safe_id_nonempty id), orb_false_r by done. cbn [orb].
  destruct ((id =? keep) || in_flight w (alertManifestPath b id)); [done|]. cbn [negb andb].
  destruct (String.eqb_spec path (alertManifestPath b id)) as [->|]; cbn [orb].
  - destruct (decide (alertManifestPath b id = alertAudioPath b id)) as [->|].
    + apply lookup_delete_eq.
    + rewrite lookup_delete_ne by done. apply lookup_delete_eq.
  - destruct (String.eqb_spec path (alertAudioPath b id)) as [->|].
    + apply lookup_delete_eq.
    + by rewrite !lookup_delete_ne by done.
Qed.

(** Removing one id's files does not change which other ids are doomed. *)
Lemma doomed_after b keep id id' w : safe_id id -> safe_id id' ->
  doomed b keep (cleanup_entry b keep id w).2 id' = doomed b keep w id'.
Proof.
  intros Hid Hid'. unfold doomed, in_flight. rewrite cleanup_entry_lookup by done.
  unfold doomed_path. cbn [existsb]. rewrite orb_false_r.
  destruct (String.eqb_spec (alertManifestPath b id') (alertManifestPath b id)) as [E|Hne].
  - apply alertManifestPath_inj in E as ->; [|done|done]. cbn [orb]. rewrite andb_true_r.
    destruct (doomed b keep w id) eqn:D; unfold doomed, in_flight in D; [|by rewrite D].
    rewrite D. apply negb_true_iff, orb_false_iff in D as [-> _]. done.
  - destruct (String.eqb_spec (alertManifestPath b id') (alertAudioPath b id)) as [E|_].
    + by apply manifest_audio_disjoint in E.
    + cbn [orb]. by rewrite andb_false_r.
Qed.

Lemma cleanup_list_lookup b keep ids w path : Forall safe_id ids ->
  files (for_each (cleanup_entry b keep) ids w).2 !! path =
  if doomed_path b keep w ids path then None else files w !! path.
Proof.
  intros Hids. revert w. induction Hids as [|id ids Hid Hids IH]; intros w; [done|].
  rewrite for_each_cons, IH.
  assert (doomed_path b keep (cleanup_entry b keep id w).2 ids path =
          doomed_path b keep w ids path) as ->.
  { unfold doomed_path. clear IH. induction Hids as [|id' ids Hid' Hids IH]; [done|].
    cbn [existsb]. by rewrite IH, doomed_after. }
  rewrite cleanup_entry_lookup by done. unfold doomed_path. cbn [existsb].
  rewrite orb_false_r. by destruct (existsb _ ids), (doomed b keep w id && _).
Qed.
End exact.

(** ** Facts: numbers and identities *)

(** Printable text without spaces. *)
Definition wordb (a : Ascii.ascii) : bool := in_range 33 126 (byte_val a).

Lemma space_word a : wordb a = true -> space1 a = false.
Proof.
  unfold wordb, space1, IsSpace. intros H. ranges. right.
  rewrite !orb_false_iff. ranges. rewrite !Z.eqb_neq. lia.
Qed.

Lemma starts_word s2 s3 a l :
  wordb a = true -> (forall b, s2 a b = false) -> (forall b c, s3 a b c = false) ->
  starts_space s2 s3 (a :: l) = false.
Proof.
  intros Ha H2 H3. simpl. rewrite space_word by done. simpl.
  destruct l as [|b [|c l]]; rewrite ?H2, ?H3; done.
Qed.

Lemma word_range a : wordb a = true -> 33 <= byte_val a <= 126.
Proof. unfold wordb. intros H. ranges. lia. Qed.
Lemma in_range_false lo hi z : z < lo \/ hi < z -> in_range lo hi z = false.
Proof. unfold in_range. rewrite andb_false_iff, !Z.leb_gt. lia. Qed.

Lemma word_trimmed l : Forall (fun a => wordb a = true) l -> trimmed (string_of l).
Proof.
  intros Hl. unfold trimmed. rewrite bytes_of_string_of. split.
  - destruct Hl as [|a l Ha Hl]; [done|]. pose proof (word_range a Ha).
    unfold space_left. apply starts_word; [done| |]; intros; unfold space2, space3.
    + by rewrite in_range_false by lia.
    + by rewrite in_range_false by lia.
  - apply List.Forall_rev in Hl. unfold space_right. destruct Hl as [|a l' Ha Hl]; [done|].
    pose proof (word_range a Ha).
    apply starts_word; [done| |]; intros; unfold space2, space3, is_cont.
    + rewrite (in_range_false 128) by lia. by rewrite andb_false_r.
    + rewrite (in_range_false 128) by lia. by rewrite andb_false_r.
Qed.

Lemma Itoa_word z : Forall (fun a => wordb a = true) (bytes_of (Itoa z)).
Proof.
  assert (Hd : forall z, 0 <= z -> Forall (fun a => wordb a = true) (bytes_of (Itoa z))).
  { intros z' Hz. eapply List.Forall_impl; [|by apply Itoa_digits]. intros a.
    unfold wordb, is_digit. intros Ha. ranges. lia. }
  destruct z as [|q|q]; [by apply Hd..|]. change (Itoa (Z.neg q)) with ("-" +:+ Itoa (Z.pos q)).
  rewrite bytes_of_app. apply Forall_app. split; [by repeat constructor|by apply Hd].
Qed.

Section identity.
Context `{JSON} `{Env}.

Lemma firstText_head data k ks id : data !! k = Some (AString id) -> TrimSpace id = id -> id <> "" ->
  firstText ∅ data (k :: ks) = id.
Proof.
  intros Hk Ht Hne. simpl. unfold stringAt. rewrite lookup_empty, Hk, Ht. simpl.
  by rewrite (proj2 (String.eqb_neq id "")).
Qed.

(** A normalised request carries a trimmed, non-empty identity. *)
Lemma normalize_identity data w :
  let '(d, id, _) := normalizePriorityAlertRequest data w in
  id <> "" /\ TrimSpace id = id /\ d !! "alert_id" = Some (AString id).
Proof.
  unfold normalizePriorityAlertRequest, mbind.
  set (m := default ∅ (MergePacketFields (Some data))).
  set (t := firstText ∅ m ["alert_id"; "id"; "subject"]).
  destruct (String.eqb_spec t "") as [|Hne]; cbn -[firstText Itoa].
  - split; [done|]. split; [|by rewrite lookup_insert_eq].
    apply trimmed_TrimSpace. rewrite <- string_of_bytes_of. apply word_trimmed.
    change (String "c" ?x) with ("c" +:+ x).
    repeat (constructor; [done|]). apply Itoa_word.
  - split; [done|]. split; [apply firstText_trimmed | by rewrite lookup_insert_eq].
Qed.
End identity.

(** ** Properties *)

(** A request that carries an identity keeps it.  Normalising gives a
    trimmed, non-empty alert id, recorded in the data, and normalising the
    result again, at any time, gives the same id without reading the clock. *)
Theorem normalizePriorityAlertRequest_stable `{JSON} `{Env} (data : obj) (w w' : World) :
  let '(d, id, _) := normalizePriorityAlertRequest data w in
  id <> "" /\ TrimSpace id = id /\ d !! "alert_id" = Some (AString id) /\
  (normalizePriorityAlertRequest d w').1.2 = id /\ (normalizePriorityAlertRequest d w').2 = w'.
Proof.
  pose proof (normalize_identity data w) as Hn.
  destruct (normalizePriorityAlertRequest data w) as [[d id] w1]. destruct Hn as (Hne & Ht & Hd).
  split_and!; try done; unfold normalizePriorityAlertRequest, mbind;
    destruct (MergePacketFields_lookup d "alert_id" ltac:(done)) as (m & -> & Hm);
    rewrite Hd in Hm; cbn [default from_option Datatypes.id];
    rewrite (firstText_head m "alert_id" _ id) by done;
    rewrite (proj2 (String.eqb_neq id "")) by done; done.
Qed.

(** Staleness is permanent: a request that is stale at some time is stale
    at every later time. *)
Theorem priorityAlertRequestStale_mono (data : obj) (t t' : Z) :
  t <= t' -> priorityAlertRequestStale data t = true -> priorityAlertRequestStale data t' = true.
Proof.
  intros Ht. unfold priorityAlertRequestStale, Before, Sub.
  destruct (EqualFold _ _); [done|]. destruct (_ || _ || Contains _ "canceled"); [done|].
  destruct (boolAny _); [done|].
  set (expires := parseTime _). set (sent := parseTime (firstText ∅ data ["alert_sent_at"; "sent"])).
  set (limit := if _ : bool then 30 * Minute else Hour).
  destruct (negb (IsZero expires)); simpl.
  - destruct (Z.ltb_spec t expires), (Z.ltb_spec t' expires); simpl; try done; try lia.
    all: destruct (IsZero sent); simpl; [done|].
    all: destruct (Z.ltb_spec t sent), (Z.ltb_spec t' sent); simpl; try done; rewrite ?Z.leb_le; lia.
  - destruct (IsZero sent); simpl; [done|].
    destruct (Z.ltb_spec t sent), (Z.ltb_spec t' sent); simpl; try done; rewrite ?Z.leb_le; lia.
Qed.

Definition tornado_request : obj :=
  {["alert_id" := AString "t1"; "same_event" := AString "TOR";
    "sent" := AString "2024-05-01T12:00:00Z"]}.
Definition noon : Z := parseTime "2024-05-01T12:00:00Z".

Lemma priorityAlertRequestStale_mono_witness :
  priorityAlertRequestStale tornado_request (noon + 29 * Minute) = false /\
  priorityAlertRequestStale tornado_request (noon + 2 * Hour) = true.
Proof.
  split; [by vm_compute|].
  apply (priorityAlertRequestStale_mono tornado_request (noon + 30 * Minute)); by vm_compute.
Defined.

(** Cancellations cannot be forced on air: a request whose message type is
    a cancellation is stale at all times, whatever its force flags say. *)
Theorem priorityAlertRequestStale_cancel (data : obj) (t : Z) :
  EqualFold (firstText ∅ data ["message_type"; "msg_type"]) "Cancel" = true ->
  priorityAlertRequestStale data t = true.
Proof. intros H. unfold priorityAlertRequestStale. by rewrite H. Qed.

Lemma priorityAlertRequestStale_cancel_witness :
  priorityAlertRequestStale {["msg_type" := AString " CANCEL"; "force" := ABool true]} noon = true.
Proof. apply priorityAlertRequestStale_cancel. by vm_compute. Defined.

(** Clearing the queue for an alert removes exactly the manifest and the
    audio of the alert's queue ids that are neither the entry being kept nor in
    the hands of a player; every other file is left as it was. *)
Theorem cleanupSupersededAlertQueueParts_exact `{Env} (b feedID alertID keep path : string) (w : World) :
  files (cleanupSupersededAlertQueueParts b feedID alertID keep w).2 !! path =
  if doomed_path b keep w (supersededIDs feedID alertID) path then None else files w !! path.
Proof.
  apply cleanup_list_lookup. apply List.Forall_forall. intros id. apply supersededIDs_safe.
Qed.
