(* ===== verification/AudioRetention.v ===== *)
(** Removal of finished audio
    ([services/go/internal/playlist/audio_retention.go]). *)

From stdpp Require Import sorting.
From S2P Require Import Prelude UnicodeTables GoStrings GoTime GoValue GoPath AlertPacket.
From S2P Require Import PlaylistModel World AlertRequest.

#[local] Open Scope Z_scope.
#[local] Open Scope string_scope.
#[local] Open Scope haze_scope.

Definition cachedStartupFallbackMaxAge : Z := 30 * Minute.

Definition all_bytes (f : Z -> bool) (s : string) : bool :=
  forallb (fun a => f (byte_val a)) (bytes_of s).

Definition is_hex (z : Z) : bool := is_digit z || in_range 97 102 z.

(** [^(.+)-[0-9]{16,}-[a-f0-9]+\.wav$]: the group of a generated file name.  The
    last two hyphens of the name delimit the digits, which hold none. *)
Definition generatedProductAudio (name : string) : option string :=
  if HasSuffix name ".wav" then
    let stem := TrimSuffix name ".wav" in
    match LastIndex stem "-" with
    | None => None
    | Some i =>
        let hex := drop_bytes (S i) stem in
        let rest := take_bytes i stem in
        match LastIndex rest "-" with
        | None => None
        | Some j =>
            let digits := drop_bytes (S j) rest in
            let group := take_bytes j rest in
            if negb (hex =? "") && all_bytes is_hex hex &&
               (16 <=? String.length digits)%nat && all_bytes is_digit digits &&
               negb (group =? "") && negb (Contains group (String (byte_of 10) ""))
            then Some group else None
        end
    end
  else None.

(** [os.ReadDir]: the names in a directory in order, with their files. *)
Definition name_le (a b : string * File) : Prop := String.leb a.1 b.1 = true.
#[export] Instance name_le_dec : RelDecision name_le.
Proof. intros a b. unfold name_le. apply _. Defined.

Definition ReadDir (dir : string) (fs : gmap string File) : list (string * File) :=
  merge_sort name_le
    (omap (fun '(path, f) => if Dir path =? dir then Some (Base path, f) else None)
       (map_to_list fs)).

Record candidate := MkCandidate { cand_path : string; cand_group : string; cand_modified : Z }.

Section retention.
Context `{Env} (cfg : loadedConfig).

(** The operations of a planner act on the planner and the world. *)
Definition io {A} (m : M World A) : M (feedPlanner * World) A := fun s =>
  let '(a, w) := m s.2 in (a, (s.1, w)).
Definition modp (f : feedPlanner -> feedPlanner) : M (feedPlanner * World) unit :=
  modify (fun s => (f s.1, s.2)).

Definition playlist_dir (p : feedPlanner) : string :=
  JoinPath [OutputDir cfg; safeID (feed_ID (feed p))].

Definition protected_paths (p : feedPlanner) : list string :=
  map (fun item => Abs cwd (AudioPath item))
    (from_option (fun item => [item]) [] (current p) ++ queue p).

Definition generated_candidates (dir : string) (entries : list (string * File)) : list candidate :=
  omap (fun '(name, f) =>
    match generatedProductAudio name with
    | None => None
    | Some group => Some (MkCandidate (Abs cwd (JoinPath [dir; name])) group (f_modified f))
    end) entries.

(** The newest file of each group; the first one met on a tie. *)
Fixpoint latest_of (l : list candidate) (latest : gmap string candidate) : gmap string candidate :=
  match l with
  | [] => latest
  | f :: l' =>
      latest_of l'
        match latest !! cand_group f with
        | Some previous =>
            if After (cand_modified f) (cand_modified previous)
            then <[cand_group f := f]> latest else latest
        | None => <[cand_group f := f]> latest
        end
  end.

Definition prunable (p : feedPlanner) (latest : gmap string candidate) (t : Z) (f : candidate) : bool :=
  let age := Sub t (cand_modified f) in
  negb (mem (cand_path f) (protected_paths p) || (age <? 5 * Minute)%Z) &&
  negb (match latest !! cand_group f with
        | Some newest => (cand_path newest =? cand_path f) && (age <=? cachedStartupFallbackMaxAge)%Z
        | None => false
        end).

Definition prunePlaylistAudio (t : Z) : M (feedPlanner * World) unit :=
  let! p := gets fst in
  if (Sub t (lastAudioCleanup p) <? Minute)%Z || (OutputDir cfg =? "") || (feed_ID (feed p) =? "")
  then ret tt
  else
    modp (set_lastAudioCleanup t) ;;;
    let dir := playlist_dir p in
    let! entries := io (gets (fun w => ReadDir (Abs cwd dir) (files w))) in
    let files := generated_candidates dir entries in
    let latest := latest_of files ∅ in
    for_each (fun f => whenb (prunable p latest t f) (io (remove_file (cand_path f)))) files.

(** One entry of the alert queue directory. *)
Definition prune_played (t : Z) (entry : string * File) : M World unit :=
  if negb (Ext entry.1 =? ".json") then ret tt
  else
    match json_decode_status (f_data entry.2) with
    | None => ret tt
    | Some manifest =>
        let played := parseTime (ms_PlayedAt manifest) in
        let path := alertAudioPath (BaseDir cfg) (safeID (ms_ID manifest)) in
        if negb (ms_Status manifest =? "played") || (ms_ID manifest =? "") ||
           negb (safeID (ms_ID manifest) +:+ ".json" =? entry.1) then ret tt
        else if IsZero played || (Sub t played <? 15 * Minute)%Z then ret tt
        else
          let! info := gets (fun w => files w !! path) in
          match info with
          | None => ret tt
          | Some f =>
              if (Sub t (f_modified f) <? 15 * Minute)%Z then ret tt else remove_file path
          end
    end.

(** [Service.pruneCompletedAlertAudio]: [last] is [lastAlertAudioCleanup]. *)
Definition pruneCompletedAlertAudio (last t : Z) : M World Z :=
  if (Sub t last <? Minute)%Z then ret last
  else
    let dir := JoinPath [BaseDir cfg; "runtime"; "queues"; "alerts"] in
    let! entries := gets (fun w => ReadDir dir (files w)) in
    for_each (prune_played t) entries ;;; ret t.

End retention.

(** ** Facts *)

(** A loop of guarded removals removes only what its guard admits. *)
Lemma removals_lookup {S A} (get : S -> gmap string File) (path : A -> string) (ok : A -> bool)
    (f : A -> M S unit) l s k :
  (forall a s, get (f a s).2 = if ok a then delete (path a) (get s) else get s) ->
  get (for_each f l s).2 !! k =
  if existsb (fun a => ok a && (k =? path a)) l then None else get s !! k.
Proof.
  intros Hf. revert s. induction l as [|a l IH]; intros s; [done|].
  rewrite for_each_cons, IH, Hf. cbn [existsb].
  destruct (existsb (fun a0 => ok a0 && (k =? path a0)) l); [by rewrite orb_true_r|].
  rewrite orb_false_r. destruct (ok a); [|done]. cbn [andb].
  destruct (String.eqb_spec k (path a)) as [->|]; [apply lookup_delete_eq|].
  by rewrite lookup_delete_ne.
Qed.

Section facts.
Context `{Env} (cfg : loadedConfig).

(** The files a pruning pass removes. *)
Definition pruned_candidates (p : feedPlanner) (w : World) (t : Z) : list candidate :=
  let files := generated_candidates (playlist_dir cfg p)
    (ReadDir (Abs cwd (playlist_dir cfg p)) (files w)) in
  List.filter (prunable p (latest_of files ∅) t) files.

Lemma existsb_filter {A} (f g : A -> bool) l :
  existsb (fun a => f a && g a) l = existsb g (List.filter f l).
Proof.
  induction l as [|a l IH]; [done|]. simpl. destruct (f a); simpl; [by rewrite IH | done].
Qed.

Lemma prunePlaylistAudio_files t p w :
  let '(_, (p', w')) := prunePlaylistAudio cfg t (p, w) in
  (reads w' = reads w /\ attempts w' = attempts w /\ published w' = published w) /\
  (p' = p \/ p' = set_lastAudioCleanup t p) /\
  forall k, files w' !! k =
    if (Sub t (lastAudioCleanup p) <? Minute)%Z || (OutputDir cfg =? "") || (feed_ID (feed p) =? "")
    then files w !! k
    else if existsb (fun f => k =? cand_path f) (pruned_candidates p w t) then None else files w !! k.
Proof.
  unfold prunePlaylistAudio, mbind at 1, gets at 1. cbn [fst].
  destruct (_ || _ || _); [by split_and!; [..|left|]|].
  unfold mbind, gets, modp, modify, io at 1. cbn [fst snd].
  fold (pruned_candidates p w t).
  set (cs := generated_candidates _ _). set (step := fun f => whenb _ _).
  assert (forall f s, (step f s).2 = (s.1, (if prunable p (latest_of cs ∅) t f
    then (remove_file (cand_path f) s.2).2 else s.2))) as Hstep.
  { intros f [p0 w0]. unfold step, whenb. by destruct (prunable p (latest_of cs ∅) t f). }
  set (s0 := (set_lastAudioCleanup t p, w)).
  pose proof (for_each_ind (fun s => s.1 = set_lastAudioCleanup t p /\
    (reads s.2 = reads w /\ attempts s.2 = attempts w /\ published s.2 = published w))
    step cs s0) as Hinv.
  destruct Hinv as [Hp Hw]; [done| |].
  { intros f s _ [Hs1 Hs]. rewrite Hstep. simpl. split; [done|]. by destruct (prunable _ _ _ f). }
  pose proof (fun k => removals_lookup (fun s : feedPlanner * World => files s.2) cand_path
    (prunable p (latest_of cs ∅) t) step cs s0 k) as Hl.
  destruct (for_each step cs s0) as [u [p' w']]. simpl in *. subst p'.
  split; [done|]. split; [by right|]. intros k. rewrite Hl; [by rewrite existsb_filter|].
  intros f s. rewrite Hstep. simpl. by destruct (prunable p _ t f).
Qed.
End facts.

Section played.
Context `{Env} (cfg : loadedConfig).

(** What makes an entry of the queue directory release its audio. *)
Definition released (t : Z) (w : World) (entry : string * File) (path : string) : Prop :=
  exists m f, json_decode_status (f_data entry.2) = Some m /\ ms_Status m = "played" /\
    entry.1 = safeID (ms_ID m) +:+ ".json" /\
    path = alertAudioPath (BaseDir cfg) (safeID (ms_ID m)) /\
    (15 * Minute <= Sub t (parseTime (ms_PlayedAt m)))%Z /\
    files w !! path = Some f /\ (15 * Minute <= Sub t (f_modified f))%Z.

Lemma prune_played_files t entry w :
  files (prune_played cfg t entry w).2 = files w \/
  exists path, released t w entry path /\ files (prune_played cfg t entry w).2 = delete path (files w).
Proof.
  unfold prune_played. destruct (negb _); [by left|].
  destruct (json_decode_status (f_data entry.2)) as [m|] eqn:Em; [|by left].
  destruct (_ || _ || _) eqn:E; [by left|]. bool_hyps.
  destruct (_ || _) eqn:E2; [by left|]. bool_hyps.
  unfold mbind, gets. destruct (files w !! _) as [f|] eqn:Ef; [|by left].
  destruct (_ <? _)%Z eqn:E3; [by left|]. bool_hyps.
  right. eexists. split; [|done]. exists m, f. done.
Qed.
End played.

Lemma ReadDir_in dir fs name f : In (name, f) (ReadDir dir fs) ->
  exists path, fs !! path = Some f /\ Dir path = dir /\ Base path = name.
Proof.
  unfold ReadDir. intros Hin%list_elem_of_In. rewrite merge_sort_Permutation in Hin.
  apply list_elem_of_omap in Hin as ([path g] & Hin%elem_of_map_to_list & Hs).
  destruct (String.eqb_spec (Dir path) dir); simplify_eq. by exists path.
Qed.

(** ** Properties *)

(** A pruning pass spares everything on air or queued.  Any file it removes
    is a generated product file of the feed's own directory, is not the audio of
    the current or of a queued item, is at least five minutes old, and is not
    the newest of its product unless it is over thirty minutes old. *)
Theorem prunePlaylistAudio_safe `{Env} (cfg : loadedConfig) (t : Z) (p : feedPlanner) (w : World)
    (path : string) (f : File) :
  files w !! path = Some f -> files (prunePlaylistAudio cfg t (p, w)).2.2 !! path = None ->
  ~ In path (protected_paths p) /\
  exists c, In c (generated_candidates (playlist_dir cfg p)
                    (ReadDir (Abs cwd (playlist_dir cfg p)) (files w))) /\
    cand_path c = path /\ (5 * Minute <= Sub t (cand_modified c))%Z /\
    (forall newest, latest_of (generated_candidates (playlist_dir cfg p)
        (ReadDir (Abs cwd (playlist_dir cfg p)) (files w))) ∅ !! cand_group c = Some newest ->
      cand_path newest = path -> (cachedStartupFallbackMaxAge < Sub t (cand_modified c))%Z).
Proof.
  intros Hf Hgone. pose proof (prunePlaylistAudio_files cfg t p w) as Hp.
  destruct (prunePlaylistAudio cfg t (p, w)) as [u [p' w']]. simpl in Hgone.
  destruct Hp as (_ & _ & Hk). rewrite Hk in Hgone.
  destruct (_ || _ || _); [congruence|].
  destruct (existsb _ (pruned_candidates cfg p w t)) eqn:E; [|congruence].
  apply existsb_exists in E as (c & Hin & ->%String.eqb_eq).
  apply filter_In in Hin as [Hin Hpr]. unfold prunable in Hpr. bool_hyps.
  split. { intros Hm%mem_spec. congruence. }
  exists c. split_and!; try done. intros newest Hnew Hpath.
  rewrite Hnew, Hpath, String.eqb_refl in *. cbn [andb] in *. bool_hyps. done.
Qed.

(** Released alert audio was played.  A completed-alert pass removes a file
    only when an entry of the queue directory, named after its own id, says that
    the alert was played at least fifteen minutes ago, and the file is that
    alert's audio and is itself fifteen minutes old. *)
Theorem pruneCompletedAlertAudio_safe `{Env} (cfg : loadedConfig) (last t : Z) (w : World)
    (path : string) (f : File) :
  files w !! path = Some f -> files (pruneCompletedAlertAudio cfg last t w).2 !! path = None ->
  exists m manifest, files w !! m = Some manifest /\
    Dir m = JoinPath [BaseDir cfg; "runtime"; "queues"; "alerts"] /\
    released cfg t w (Base m, manifest) path.
Proof.
  intros Hf Hgone. unfold pruneCompletedAlertAudio in Hgone.
  destruct (_ <? _)%Z; [simpl in Hgone; congruence|].
  unfold mbind, gets in Hgone. set (l := ReadDir _ _) in Hgone.
  assert (forall k, files (for_each (prune_played cfg t) l w).2 !! k = files w !! k \/
    files (for_each (prune_played cfg t) l w).2 !! k = None /\
    exists e, In e l /\ released cfg t w e k) as Hinv.
  { apply (for_each_ind (fun w1 => forall k, files w1 !! k = files w !! k \/
      files w1 !! k = None /\ exists e, In e l /\ released cfg t w e k)); [by left|].
    intros e w1 Hin Hw1 k. destruct (prune_played_files cfg t e w1) as [->|(k' & Hr & ->)]; [auto|].
    destruct (decide (k = k')) as [->|]; [|rewrite lookup_delete_ne by done; auto].
    right. rewrite lookup_delete_eq. split; [done|]. exists e. split; [done|].
    destruct Hr as (m & f' & Hm & Hs & Hn & Hp & Ht & Hf' & Hold). exists m, f'.
    destruct (Hw1 k') as [<-|[Hnone _]]; [done|congruence]. }
  destruct (for_each (prune_played cfg t) l w) as [u w'] eqn:E. simpl in *.
  destruct (Hinv path) as [Hsame|(_ & [name g] & Hin & Hr)]; [congruence|].
  apply ReadDir_in in Hin as (m & Hm & Hd & <-). by exists m, g.
Qed.

(** A concrete world, in which the clock stands still and nothing fails. *)
#[export] Instance still_Env : Env | 1000 := {
  clock _ := parseTime "2024-05-01T12:00:00Z"; fault _ := None; cwd := "/srv";
  json_manifestStatus s := if s =? "played" then
    Some (MkManifestStatus "q1" "played" "" "2024-05-01T11:00:00Z" "") else None;
  json_state _ := Some ""; random_hex _ := Some "0a" }.

Definition sample_feed : feedXML := MkFeed "f1" "" "" "" "" [] [] [].
Definition sample_config : loadedConfig :=
  MkConfig false 4 20 (MkPlayout 48000 1 ["weather"] (f64_of_Z 0) (MkMinuteSchedule None [])
    (MkMinuteSchedule None []) (MkChimes false false false)) ANil "" [sample_feed] "/srv" "/out".
Definition sample_planner : feedPlanner :=
  MkPlanner true sample_feed "running" "" 0 0 false "" 0 0 0 zeroTime zeroTime zeroTime [] None ∅
    "" "" zeroTime.
Definition sample_world : World :=
  MkWorld 0 0 {["/out/f1/wx-1714560000000000000-ab.wav" := MkFile (Raw "x") (noon - 2 * Hour);
                "/srv/runtime/queues/alerts/q1.json" := MkFile (Raw "played") noon;
                "/srv/runtime/audio/alerts/q1.pcm16le" := MkFile (Raw "x") (noon - Hour)]} [] None.

Lemma prunePlaylistAudio_safe_witness :
  ~ In "/out/f1/wx-1714560000000000000-ab.wav" (protected_paths sample_planner).
Proof.
  apply (prunePlaylistAudio_safe sample_config noon sample_planner sample_world
    "/out/f1/wx-1714560000000000000-ab.wav" (MkFile (Raw "x") (noon - 2 * Hour))); by vm_compute.
Defined.

Lemma pruneCompletedAlertAudio_safe_witness :
  exists m manifest, files sample_world !! m = Some manifest /\
    Dir m = JoinPath [BaseDir sample_config; "runtime"; "queues"; "alerts"] /\
    released sample_config noon sample_world (Base m, manifest) "/srv/runtime/audio/alerts/q1.pcm16le".
Proof.
  apply (pruneCompletedAlertAudio_safe sample_config zeroTime noon sample_world
    "/srv/runtime/audio/alerts/q1.pcm16le" (MkFile (Raw "x") (noon - Hour))); by vm_compute.
Defined.
