(* ===== verification/GoFloat.v ===== *)
(** Reading floating-point numbers, words and times: [strconv.ParseFloat],
    [strings.Fields], and [time.Parse] with layouts other than RFC 3339.

    A number is read as its exact rational value, which is rounded once to the
    nearest [float64], ties to even. *)

From Stdlib Require Import SpecFloat.
From S2P Require Import Prelude UnicodeTables GoStrings GoTime GoValue.

#[local] Open Scope Z_scope.
#[local] Open Scope string_scope.

(** ** [strconv.ParseFloat(s, 64)] *)

Definition lower_byte (a : Ascii.ascii) : Z := Z.lor (byte_val a) 32.

(** The value of a digit in base 10, or in base 16 when [hex]. *)
Definition float_digit (hex : bool) (a : Ascii.ascii) : option Z :=
  if is_digit (byte_val a) then Some (byte_val a - 48)
  else if hex && in_range 97 102 (lower_byte a) then Some (lower_byte a - 87)
  else None.

Record mantissa := MkMantissa {
  mant : Z; after_dot : Z; sawdot : bool; sawdigits : bool; rest : string }.

(** The mantissa: digits, at most one point, and underscores. *)
Fixpoint read_mantissa (hex : bool) (m : mantissa) (s : string) : mantissa :=
  match s with
  | EmptyString => MkMantissa (mant m) (after_dot m) (sawdot m) (sawdigits m) ""
  | String a s' =>
      if Ascii.eqb a "_" then read_mantissa hex m s'
      else if Ascii.eqb a "." then
        if sawdot m then MkMantissa (mant m) (after_dot m) true (sawdigits m) s
        else read_mantissa hex (MkMantissa (mant m) (after_dot m) true (sawdigits m) "") s'
      else
        match float_digit hex a with
        | Some d =>
            read_mantissa hex
              (MkMantissa (mant m * (if hex then 16 else 10) + d)
                 (if sawdot m then after_dot m + 1 else after_dot m) (sawdot m) true "") s'
        | None => MkMantissa (mant m) (after_dot m) (sawdot m) (sawdigits m) s
        end
  end.

(** The digits of an exponent, which stops growing at 10000. *)
Fixpoint read_exponent (e : Z) (s : string) : Z * string :=
  match s with
  | String a s' =>
      if Ascii.eqb a "_" then read_exponent e s'
      else if is_digit (byte_val a) then
        read_exponent (if (e <? 10000)%Z then e * 10 + (byte_val a - 48) else e) s'
      else (e, s)
  | EmptyString => (e, s)
  end.
Definition starts_digit (s : string) : bool :=
  match s with String a _ => is_digit (byte_val a) | EmptyString => false end.
Definition exponent_part (hex : bool) (s : string) : option (Z * string) :=
  match s with
  | String c s' =>
      if (lower_byte c =? (if hex then 112 else 101))%Z then
        let '(sign, s') := match s' with
                           | String "+" s'' => (1, s'')
                           | String "-" s'' => (-1, s'')
                           | _ => (1, s')
                           end in
        if starts_digit s' then let '(e, s'') := read_exponent 0 s' in Some (sign * e, s'') else None
      else if hex then None else Some (0, s)
  | EmptyString => if hex then None else Some (0, s)
  end.

(** [underscoreOK] after the sign and the base prefix. *)
Inductive saw := SawStart | SawDigit | SawUnderscore | SawOther.
Fixpoint underscores_ok (hex : bool) (st : saw) (s : string) : bool :=
  match s with
  | EmptyString => match st with SawUnderscore => false | _ => true end
  | String a s' =>
      match float_digit hex a with
      | Some _ => underscores_ok hex SawDigit s'
      | None =>
          if Ascii.eqb a "_" then
            match st with SawDigit => underscores_ok hex SawUnderscore s' | _ => false end
          else match st with SawUnderscore => false | _ => underscores_ok hex SawOther s' end
      end
  end.

(** [m * base^e] rounded to the nearest float. *)
Definition round_decimal (neg : bool) (m e : Z) : float64 :=
  match m with
  | Zpos p =>
      if (0 <=? e)%Z then binary_normalize 53 1024 ((if neg then -1 else 1) * m * 10 ^ e) 0 neg
      else match 10 ^ (- e) with
           | Zpos q => SFdiv 53 1024 (S754_finite neg p 0) (S754_finite false q 0)
           | _ => S754_nan
           end
  | _ => S754_zero neg
  end.
Definition round_binary (neg : bool) (m e : Z) : float64 :=
  binary_normalize 53 1024 ((if neg then -1 else 1) * m) e neg.

Definition split_sign (s : string) : bool * string :=
  match s with
  | String "+" s' => (false, s')
  | String "-" s' => (true, s')
  | _ => (false, s)
  end.
Definition hex_prefix (s : string) : bool :=
  match s with
  | String "0" (String x (String _ _)) => (lower_byte x =? 120)%Z
  | _ => false
  end.

Definition parse_number (s : string) : option float64 :=
  let '(neg, s) := split_sign s in
  let hex := hex_prefix s in
  let body := if hex then drop_bytes 2 s else s in
  let m := read_mantissa hex (MkMantissa 0 0 false false "") body in
  if negb (sawdigits m) then None
  else
    '(e, tail) ← exponent_part hex (rest m);
    if negb (tail =? "") || negb (underscores_ok hex (if hex then SawDigit else SawStart) body) then None
    else
      let v := if hex then round_binary neg (mant m) (e - 4 * after_dot m)
               else round_decimal neg (mant m) (e - after_dot m) in
      match v with
      | S754_infinity _ => None            (* out of range *)
      | _ => Some v
      end.

(** Letters are compared in lower case, ASCII only. *)
Definition ascii_lower (s : string) : string :=
  string_of (map (fun a => if is_upper (byte_val a) then byte_of (byte_val a + 32) else a) (bytes_of s)).

(** [None] when [ParseFloat] returns an error. *)
Definition ParseFloat (s : string) : option float64 :=
  let '(neg, word) := split_sign s in
  if mem (ascii_lower word) ["inf"; "infinity"] then Some (S754_infinity neg)
  else if ascii_lower s =? "nan" then Some S754_nan
  else parse_number s.

(** [isFinite]. *)
Definition f64_finite (x : float64) : bool :=
  match x with S754_nan | S754_infinity _ => false | _ => true end.

(** ** [strings.Fields]

    White space is found at its first byte; the bytes of a malformed rune belong
    to a word.  A byte that starts an encoded space is never inside another
    rune. *)

Fixpoint fields_bytes (l : list Ascii.ascii) : list (list Ascii.ascii) * list Ascii.ascii :=
  let cut (p : list (list Ascii.ascii) * list Ascii.ascii) :=
    (match p.2 with [] => p.1 | w => w :: p.1 end, []) in
  match l with
  | [] => ([], [])
  | a :: l1 =>
      if space1 a then cut (fields_bytes l1)
      else
        let take_byte (p : list (list Ascii.ascii) * list Ascii.ascii) := (p.1, a :: p.2) in
        match l1 with
        | [] => take_byte (fields_bytes l1)
        | b :: l2 =>
            if space2 a b then cut (fields_bytes l2)
            else match l2 with
                 | [] => take_byte (fields_bytes l1)
                 | c :: l3 => if space3 a b c then cut (fields_bytes l3) else take_byte (fields_bytes l1)
                 end
        end
  end.
Definition Fields (s : string) : list string :=
  let '(fs, cur) := fields_bytes (bytes_of s) in
  map string_of (match cur with [] => fs | w => w :: fs end).

(** ** [time.Parse] with other layouts

    Year to day, a separator, the time of day with an optional fraction, and a
    zone. *)

(** The separator of a layout: a space stands for one or more. *)
Fixpoint skip_spaces (s : string) : string :=
  match s with
  | String a s' => if Ascii.eqb a " " then skip_spaces s' else s
  | EmptyString => ""
  end.
Definition separator (c : Ascii.ascii) (s : string) : option string :=
  if Ascii.eqb c " " then skip_spaces <$> expect " " s else expect c s.

Definition time_Parse_with (c : Ascii.ascii) (zone : string -> option Z) (s : string) : option Z :=
  '(y, s) ← get_digits 4 0 s; s ← expect "-" s;
  '(mo, s) ← getnum s; _ ← in_bounds 1 12 mo; s ← expect "-" s;
  '(d, s) ← getnum s; s ← separator c s;
  '(h, s) ← getnum_loose s; _ ← in_bounds 0 23 h; s ← expect ":" s;
  '(mi, s) ← getnum s; _ ← in_bounds 0 59 mi; s ← expect ":" s;
  '(sec, s) ← getnum s; _ ← in_bounds 0 59 sec;
  let '(ns, s) := parse_frac s in
  off ← zone s;
  _ ← in_bounds 1 (daysIn mo y) d;
  Some ((days_of_civil y mo d * 86400 + h * 3600 + mi * 60 + sec - off) * Second + ns).

(** No zone, as in [2006-01-02 15:04:05] and [2006-01-02T15:04:05]. *)
Definition no_zone (s : string) : option Z := if s =? "" then Some 0 else None.
Definition time_Parse_plain (c : Ascii.ascii) : string -> option Z := time_Parse_with c no_zone.

(** A zone as [-0700]: a sign and four digits. *)
Definition numeric_zone (s : string) : option Z :=
  match s with
  | String sign s =>
      '(h, s) ← getnum s; '(m, s) ← getnum s;
      _ ← in_bounds 0 24 h; _ ← in_bounds 0 60 m;
      if negb (s =? "") then None
      else if Ascii.eqb sign "+" then Some ((h * 60 + m) * 60)
      else if Ascii.eqb sign "-" then Some (- ((h * 60 + m) * 60))
      else None
  | EmptyString => None
  end.

(** ** Examples *)

Example ParseFloat_examples :
  ParseFloat "0.1" = Some (S754_finite false 7205759403792794 (-56)) /\
  ParseFloat "1_2.50e+1" = Some (S754_finite false 8796093022208000 (-46)) /\
  ParseFloat "-0x1.8p1" = Some (S754_finite true 6755399441055744 (-51)) /\
  ParseFloat "4.9e-324" = Some (S754_finite false 1 (-1074)) /\
  ParseFloat "1e309" = None /\ ParseFloat "-Inf" = Some (S754_infinity true) /\
  ParseFloat "1__0" = None /\ ParseFloat "" = None /\ ParseFloat "1.2.3" = None /\ ParseFloat "5 " = None.
Proof. vm_compute. by split_and!. Qed.

Example Fields_example : Fields "  km/h a  b " = ["km/h"; "a"; "b"].
Proof. by vm_compute. Qed.

Example time_Parse_examples :
  time_Parse_plain " " "2024-05-01  12:00:00" = time_Parse "2024-05-01T12:00:00Z" /\
  time_Parse_with "T" numeric_zone "2024-05-01T12:00:00.5-0430" = time_Parse "2024-05-01T16:30:00.5Z" /\
  time_Parse_with "T" numeric_zone "2024-05-01T12:00:00Z" = None.
Proof. by vm_compute. Qed.
