(* ===== verification/CapModel.v ===== *)
(** Alerts in the Common Alerting Protocol ([services/go/internal/capmodel]): the
    alert that is read from an XML document, its validation, and the storm data of
    the Canadian service.

    Decoding XML and parsing URLs is an interface; everything the package does with
    the decoded document is defined here.  [StormInfo] and [GeoPoint] have the
    fields of the structs of the alert packet and share their records. *)

From S2P Require Import Prelude UnicodeTables GoStrings GoTime GoValue GoPath GoFloat AlertPacket.
From S2P Require Import PlaylistModel World AlertRequest.

#[local] Open Scope Z_scope.
#[local] Open Scope string_scope.

(** ** Data ([types.go]) *)

Record NameValue := MkNameValue { nv_Name : string; nv_Value : string }.
Record Resource := MkResource {
  res_Description : string; res_MimeType : string; res_URI : string; res_DerefURI : string }.
Record AlertArea := MkArea {
  area_Description : string; area_Polygons : list string; area_Circles : list string;
  area_Geocodes : list NameValue; ThreatStatus : string }.
Record AlertInfo := MkInfo {
  info_Language : string; info_Category : list string; info_Event : string;
  info_Response : list string; info_Urgency : string; info_Severity : string;
  info_Certainty : string; info_Audience : string; info_Effective : string; info_Onset : string;
  info_Expires : string; info_SenderName : string; info_Headline : string;
  info_Description : string; info_Instruction : string; info_Web : string;
  info_EventCodes : list NameValue; info_Areas : list AlertArea; info_Parameters : list NameValue;
  info_Resources : list Resource; info_Storm : option StormInfo }.
Record Alert := MkAlert {
  cap_Identifier : string; cap_Sender : string; cap_Sent : string; cap_Status : string;
  cap_MessageType : string; cap_Scope : string; cap_Note : string; cap_Code : list string;
  cap_References : string; cap_Incidents : string; cap_Infos : list AlertInfo;
  cap_RawXML : string; cap_Warnings : list string }.

(** [AlertInfo{}]. *)
Definition no_info : AlertInfo :=
  MkInfo "" [] "" [] "" "" "" "" "" "" "" "" "" "" "" "" [] [] [] [] None.

(** The decoded document ([parse.go]). *)
Record pairXML := MkPairXML { x_Name : string; x_Value : string }.
Record resourceXML := MkResourceXML {
  x_resDescription : string; x_MimeType : string; x_URI : string; x_DerefURI : string }.
Record areaXML := MkAreaXML {
  x_areaDescription : string; x_Polygons : list string; x_Circles : list string;
  x_Geocodes : list pairXML }.
Record infoXML := MkInfoXML {
  x_Language : string; x_Category : list string; x_Event : string; x_Response : list string;
  x_Urgency : string; x_Severity : string; x_Certainty : string; x_Audience : string;
  x_Effective : string; x_Onset : string; x_Expires : string; x_SenderName : string;
  x_Headline : string; x_Description : string; x_Instruction : string; x_Web : string;
  x_EventCodes : list pairXML; x_Areas : list areaXML; x_Parameters : list pairXML;
  x_Resources : list resourceXML }.
Record capXML := MkCapXML {
  XMLName_Local : string; x_Identifier : string; x_Sender : string; x_Sent : string;
  x_Status : string; x_MsgType : string; x_Scope : string; x_Note : string; x_Code : list string;
  x_References : string; x_Incidents : string; x_Infos : list infoXML }.

Record parsedURL := MkURL { url_Scheme : string; url_Host : string; url_String : string }.

Class Documents := {
  xml_Decode : string -> result string capXML;
  url_Parse : string -> option parsedURL }.

(** ** Storm data ([eccc_2026.go]) *)

Definition ECCCThreatAreaGeocodeName := "layer:EC-MSC-SMC:DLC:1.1".
Definition ecccStormSpeedName := "layer:EC-MSC-SMC:1.1:Storm_Speed".
Definition ecccStormDirectionName := "layer:EC-MSC-SMC:1.1:Storm_Direction".
Definition ecccStormGeometryTypeName := "layer:EC-MSC-SMC:1.1:Storm_Geometry_Type".
Definition ecccStormPointName := "layer:EC-MSC-SMC:1.1:Storm_Point".
Definition ecccStormTimeName := "layer:EC-MSC-SMC:1.1:Storm_Time".
Definition ecccMotionDescriptionName := "layer:EC-MSC-SMC:1.1:Motion_Description".
Definition ecccStormPositionName := "layer:EC-MSC-SMC:1.1:Storm_Position_Description".
Definition ecccReferenceLocationPointName := "layer:EC-MSC-SMC:1.1:Reference_Location_Points".

Definition ecccThreatStatuses : list string := ["issued"; "continued"; "ended"; "cancelled"].

Definition IsECCCStormParameter (name : string) : bool :=
  existsb (EqualFold (TrimSpace name))
    [ecccStormSpeedName; ecccStormDirectionName; ecccStormGeometryTypeName; ecccStormPointName;
     ecccStormTimeName; ecccMotionDescriptionName; ecccStormPositionName; ecccReferenceLocationPointName].

Definition IsECCCThreatAreaGeocode (value : NameValue) : bool :=
  EqualFold (TrimSpace (nv_Name value)) ECCCThreatAreaGeocodeName.

Definition ECCCThreatAreaStatus (area : AlertArea) : string :=
  let status := ToLower (TrimSpace (ThreatStatus area)) in
  if negb (status =? "") then status
  else match List.find IsECCCThreatAreaGeocode (area_Geocodes area) with
       | Some geocode => ToLower (TrimSpace (nv_Value geocode))
       | None => ""
       end.
Definition IsECCCThreatArea (area : AlertArea) : bool := negb (ECCCThreatAreaStatus area =? "").
Definition IsECCCActiveThreatArea (area : AlertArea) : bool :=
  mem (ECCCThreatAreaStatus area) ["issued"; "continued"].

Definition in_f64 (lo hi : Z) (x : float64) : bool := f64_leb (f64_of_Z lo) x && f64_leb x (f64_of_Z hi).

Definition parseECCCStormSpeed (raw : string) : option (float64 * string) :=
  match Fields (TrimSpace raw) with
  | [number; unit] =>
      value ← ParseFloat number;
      if negb (f64_finite value) || f64_ltb value (f64_of_Z 0) then None
      else
        let unit := ToLower (TrimSpace unit) in
        if mem unit ["km/h"; "knots"] then Some (value, unit) else None
  | _ => None
  end.

Definition parseECCCStormDirection (value : string) : option float64 :=
  number ← ParseFloat value;
  if f64_finite number && in_f64 0 360 number then Some number else None.

Definition parseECCCStormPoint (raw : string) : option GeoPoint :=
  match Split ","%char (TrimSpace raw) with
  | [a; b] =>
      latitude ← ParseFloat (TrimSpace a); longitude ← ParseFloat (TrimSpace b);
      if f64_finite latitude && f64_finite longitude && in_f64 (-90) 90 latitude && in_f64 (-180) 180 longitude
      then Some (MkGeoPoint latitude longitude) else None
  | _ => None
  end.

(** [time.Parse] for [20060102150405]. *)
Definition compact_time (s : string) : bool :=
  match (
    '(y, s) ← get_digits 4 0 s; '(mo, s) ← getnum s; _ ← in_bounds 1 12 mo;
    '(d, s) ← getnum s; '(h, s) ← getnum_loose s; _ ← in_bounds 0 23 h;
    '(mi, s) ← getnum s; _ ← in_bounds 0 59 mi; '(sec, s) ← getnum s; _ ← in_bounds 0 59 sec;
    if s =? "" then in_bounds 1 (daysIn mo y) d else None) with
  | Some _ => true
  | None => false
  end.
Definition validECCCStormTime (raw : string) : bool :=
  let raw := TrimSpace raw in
  (String.length raw =? 17)%nat && forallb (fun a => is_digit (byte_val a)) (bytes_of raw) &&
  compact_time (take_bytes 14 raw).

Definition no_storm : StormInfo := MkStormInfo "" None "" None "" [] "" "" "" "".

Inductive stormKey :=
| KSpeed | KDirection | KGeometry | KPoint | KTime | KMotion | KPosition | KReference | KOther.
(** The case of the switch a parameter's name selects. *)
Definition storm_key (name : string) : stormKey :=
  if EqualFold name ecccStormSpeedName then KSpeed
  else if EqualFold name ecccStormDirectionName then KDirection
  else if EqualFold name ecccStormGeometryTypeName then KGeometry
  else if EqualFold name ecccStormPointName then KPoint
  else if EqualFold name ecccStormTimeName then KTime
  else if EqualFold name ecccMotionDescriptionName then KMotion
  else if EqualFold name ecccStormPositionName then KPosition
  else if EqualFold name ecccReferenceLocationPointName then KReference
  else KOther.

Definition storm_step (st : StormInfo * bool) (parameter : NameValue) : StormInfo * bool :=
  let '(s, found) := st in
  let name := TrimSpace (nv_Name parameter) in
  let value := TrimSpace (nv_Value parameter) in
  match storm_key name with
  | KSpeed =>
      match parseECCCStormSpeed value with
      | Some (number, unit) =>
          (MkStormInfo value (Some number) unit (DirectionDegrees s) (GeometryType s) (Points s)
             (StormTime s) (MotionDescription s) (PositionDescription s) (ReferenceLocationPoints s), true)
      | None =>
          (MkStormInfo value (SpeedValue s) (SpeedUnit s) (DirectionDegrees s) (GeometryType s) (Points s)
             (StormTime s) (MotionDescription s) (PositionDescription s) (ReferenceLocationPoints s), true)
      end
  | KDirection =>
      match parseECCCStormDirection value with
      | Some number =>
          (MkStormInfo (Speed s) (SpeedValue s) (SpeedUnit s) (Some number) (GeometryType s) (Points s)
             (StormTime s) (MotionDescription s) (PositionDescription s) (ReferenceLocationPoints s), true)
      | None => (s, true)
      end
  | KGeometry =>
      (MkStormInfo (Speed s) (SpeedValue s) (SpeedUnit s) (DirectionDegrees s) (ToLower value) (Points s)
         (StormTime s) (MotionDescription s) (PositionDescription s) (ReferenceLocationPoints s), true)
  | KPoint =>
      (MkStormInfo (Speed s) (SpeedValue s) (SpeedUnit s) (DirectionDegrees s) (GeometryType s)
         (Points s ++ omap parseECCCStormPoint (Fields value))%list
         (StormTime s) (MotionDescription s) (PositionDescription s) (ReferenceLocationPoints s), true)
  | KTime =>
      (MkStormInfo (Speed s) (SpeedValue s) (SpeedUnit s) (DirectionDegrees s) (GeometryType s) (Points s)
         value (MotionDescription s) (PositionDescription s) (ReferenceLocationPoints s), true)
  | KMotion =>
      (MkStormInfo (Speed s) (SpeedValue s) (SpeedUnit s) (DirectionDegrees s) (GeometryType s) (Points s)
         (StormTime s) value (PositionDescription s) (ReferenceLocationPoints s), true)
  | KPosition =>
      (MkStormInfo (Speed s) (SpeedValue s) (SpeedUnit s) (DirectionDegrees s) (GeometryType s) (Points s)
         (StormTime s) (MotionDescription s) value (ReferenceLocationPoints s), true)
  | KReference =>
      (MkStormInfo (Speed s) (SpeedValue s) (SpeedUnit s) (DirectionDegrees s) (GeometryType s) (Points s)
         (StormTime s) (MotionDescription s) (PositionDescription s) value, true)
  | KOther => (s, found)
  end.
Definition stormInfoFromParameters (parameters : list NameValue) : option StormInfo :=
  let '(storm, found) := fold_left storm_step parameters (no_storm, false) in
  if found then Some storm else None.

(** [normalizeECCC2026Info]. *)
Definition with_status (area : AlertArea) : AlertArea :=
  MkArea (area_Description area) (area_Polygons area) (area_Circles area) (area_Geocodes area)
    (ECCCThreatAreaStatus area).

(** What [validateECCC2026Info] reports. *)
Definition area_warnings (prefix : string) (index : nat) (area : AlertArea) : list string :=
  let status := ECCCThreatAreaStatus area in
  let here := prefix +:+ ".area[" +:+ Itoa (Z.of_nat index) +:+ "]" in
  if status =? "" then []
  else ((if mem status ecccThreatStatuses then []
         else [here +:+ ": invalid ECCC threat status " +:+ status]) ++
        (if (length (area_Polygons area) =? 0)%nat then [here +:+ ": ECCC threat area has no polygon"]
         else []))%list.
Definition parameter_warnings (prefix : string) (parameter : NameValue) : list string :=
  let value := TrimSpace (nv_Value parameter) in
  let warn (ok : bool) (what : string) := if ok then [] else [prefix +:+ ": invalid ECCC storm " +:+ what] in
  match storm_key (TrimSpace (nv_Name parameter)) with
  | KSpeed => warn (bool_decide (is_Some (parseECCCStormSpeed value))) "speed"
  | KDirection => warn (bool_decide (is_Some (parseECCCStormDirection value))) "direction"
  | KGeometry => warn (mem (ToLower value) ["isolated_cell"; "area"; "line"]) "geometry type"
  | KPoint =>
      warn (negb (length (Fields value) =? 0)%nat &&
            forallb (fun raw => bool_decide (is_Some (parseECCCStormPoint raw))) (Fields value)) "point"
  | KTime => warn (validECCCStormTime value) "time"
  | _ => []
  end.
Definition validateECCC2026Info (info : AlertInfo) (prefix : string) : list string :=
  (concat (imap (area_warnings prefix) (info_Areas info)) ++
   concat (map (parameter_warnings prefix) (info_Parameters info)))%list.

(** ** Normalisation ([parse.go]) *)

Definition normalizePairs (values : list pairXML) : list NameValue :=
  omap (fun value =>
    let name := clean (x_Name value) in
    let item := clean (x_Value value) in
    if (name =? "") && (item =? "") then None else Some (MkNameValue name item)) values.
Definition cleanSlice (values : list string) : list string := trimmed_nonblank values.

Definition normalizeArea (area : areaXML) : AlertArea :=
  MkArea (clean (x_areaDescription area)) (cleanSlice (x_Polygons area)) (cleanSlice (x_Circles area))
    (normalizePairs (x_Geocodes area)) "".
Definition normalizeResource (r : resourceXML) : Resource :=
  MkResource (clean (x_resDescription r)) (clean (x_MimeType r)) (clean (x_URI r)) (clean (x_DerefURI r)).
Definition normalizeInfo (info : infoXML) : AlertInfo :=
  let parameters := normalizePairs (x_Parameters info) in
  MkInfo (clean (x_Language info)) (cleanSlice (x_Category info)) (clean (x_Event info))
    (cleanSlice (x_Response info)) (clean (x_Urgency info)) (clean (x_Severity info))
    (clean (x_Certainty info)) (clean (x_Audience info)) (clean (x_Effective info))
    (clean (x_Onset info)) (clean (x_Expires info)) (clean (x_SenderName info))
    (clean (x_Headline info)) (clean (x_Description info)) (clean (x_Instruction info))
    (clean (x_Web info)) (normalizePairs (x_EventCodes info))
    (map (fun area => with_status (normalizeArea area)) (x_Areas info)) parameters
    (map normalizeResource (x_Resources info)) (stormInfoFromParameters parameters).

(** ** Validation *)

Definition parseCAPTime (raw : string) : Z := default zeroTime (time_Parse (TrimSpace raw)).

Definition appendEnumWarning (warnings : list string) (name value : string) (allowed : list string)
    (fatal : bool) : list string :=
  if TrimSpace value =? "" then warnings
  else if existsb (EqualFold value) allowed then warnings
  else (warnings ++ [(if fatal then "fatal: " else "") +:+ "invalid " +:+ name +:+ " " +:+ value])%list.

Definition hasFatalCAPWarning (warnings : list string) : bool :=
  existsb (fun warning => HasPrefix warning "fatal:") warnings.

(** [%q] of a name, which holds nothing to escape. *)
Definition quote_mark : string := string_of [byte_of 34].
Definition quoted (s : string) : string := quote_mark +:+ s +:+ quote_mark.

Section parse.
Context `{Documents}.

Definition resource_warnings (prefix : string) (resource : Resource) : list string :=
  if res_URI resource =? "" then []
  else match url_Parse (res_URI resource) with
       | Some parsed =>
           if (url_Scheme parsed =? "") && negb (HasPrefix (res_URI resource) "cid:")
           then [prefix +:+ ": resource URI is not absolute"] else []
       | None => [prefix +:+ ": resource URI is not absolute"]
       end.
Definition time_warnings (prefix : string) (named : string * string) : list string :=
  let '(name, value) := named in
  if negb (value =? "") && IsZero (parseCAPTime value)
  then [prefix +:+ ": invalid " +:+ name +:+ " timestamp"] else [].
Definition info_warnings (index : nat) (info : AlertInfo) : list string :=
  let prefix := "info[" +:+ Itoa (Z.of_nat index) +:+ "]" in
  ((if info_Event info =? "" then [prefix +:+ ": missing event"] else []) ++
   appendEnumWarning [] (prefix +:+ ".urgency") (info_Urgency info)
     ["Immediate"; "Expected"; "Future"; "Past"; "Unknown"] false ++
   appendEnumWarning [] (prefix +:+ ".severity") (info_Severity info)
     ["Extreme"; "Severe"; "Moderate"; "Minor"; "Unknown"] false ++
   appendEnumWarning [] (prefix +:+ ".certainty") (info_Certainty info)
     ["Observed"; "Likely"; "Possible"; "Unlikely"; "Unknown"] false ++
   concat (map (time_warnings prefix)
     [("effective", info_Effective info); ("onset", info_Onset info); ("expires", info_Expires info)]) ++
   concat (map (resource_warnings prefix) (info_Resources info)) ++
   validateECCC2026Info info prefix)%list.

Definition validateCAP (alert : Alert) : list string :=
  let required := [("identifier", cap_Identifier alert); ("sender", cap_Sender alert);
    ("sent", cap_Sent alert); ("status", cap_Status alert); ("msgType", cap_MessageType alert);
    ("scope", cap_Scope alert)] in
  let warnings := omap (fun item : string * string =>
    if TrimSpace item.2 =? "" then Some ("fatal: missing " +:+ item.1) else None) required in
  let warnings := (warnings ++ if negb (cap_Sent alert =? "") && IsZero (parseCAPTime (cap_Sent alert))
                               then ["fatal: invalid sent timestamp"] else [])%list in
  let warnings := appendEnumWarning warnings "status" (cap_Status alert)
    ["Actual"; "Exercise"; "System"; "Test"; "Draft"] true in
  let warnings := appendEnumWarning warnings "msgType" (cap_MessageType alert)
    ["Alert"; "Update"; "Cancel"; "Ack"; "Error"] true in
  let warnings := appendEnumWarning warnings "scope" (cap_Scope alert)
    ["Public"; "Restricted"; "Private"] true in
  let warnings := (warnings ++
    if (length (cap_Infos alert) =? 0)%nat && negb (EqualFold (cap_MessageType alert) "Cancel") &&
       negb (EqualFold (cap_Status alert) "System")
    then ["fatal: non-cancel alert has no info block"] else [])%list in
  (warnings ++ concat (imap info_warnings (cap_Infos alert)))%list.

Definition ParseCAP (raw : string) : result string Alert :=
  match xml_Decode raw with
  | Err e => Err e
  | Ok parsed =>
      if negb (XMLName_Local parsed =? "alert")
      then Err ("CAP root element is " +:+ quoted (XMLName_Local parsed) +:+ ", expected alert")
      else
        let alert := MkAlert (clean (x_Identifier parsed)) (clean (x_Sender parsed)) (clean (x_Sent parsed))
          (clean (x_Status parsed)) (clean (x_MsgType parsed)) (clean (x_Scope parsed))
          (clean (x_Note parsed)) (cleanSlice (x_Code parsed)) (clean (x_References parsed))
          (clean (x_Incidents parsed)) (map normalizeInfo (x_Infos parsed)) raw [] in
        let warnings := validateCAP alert in
        if negb (length warnings =? 0)%nat && hasFatalCAPWarning warnings
        then Err ("invalid CAP alert " +:+ cap_Identifier alert +:+ ": " +:+ Join warnings "; ")
        else Ok (MkAlert (cap_Identifier alert) (cap_Sender alert) (cap_Sent alert) (cap_Status alert)
                   (cap_MessageType alert) (cap_Scope alert) (cap_Note alert) (cap_Code alert)
                   (cap_References alert) (cap_Incidents alert) (cap_Infos alert) raw warnings)
  end.
End parse.

(** ** What an accepted alert satisfies *)

Definition statuses : list string := ["Actual"; "Exercise"; "System"; "Test"; "Draft"].
Definition messageTypes : list string := ["Alert"; "Update"; "Cancel"; "Ack"; "Error"].
Definition scopes : list string := ["Public"; "Restricted"; "Private"].

Record well_formed (alert : Alert) : Prop := {
  has_fields : Forall (fun value => trimmed value /\ value <> "")
    [cap_Identifier alert; cap_Sender alert; cap_Sent alert; cap_Status alert; cap_MessageType alert;
     cap_Scope alert];
  has_time : parseCAPTime (cap_Sent alert) <> zeroTime;
  known_status : existsb (EqualFold (cap_Status alert)) statuses = true;
  known_type : existsb (EqualFold (cap_MessageType alert)) messageTypes = true;
  known_scope : existsb (EqualFold (cap_Scope alert)) scopes = true;
  has_infos : cap_Infos alert <> [] \/ EqualFold (cap_MessageType alert) "Cancel" = true \/
    EqualFold (cap_Status alert) "System" = true }.

Lemma enum_warning_mono warnings name value allowed fatal w :
  In w warnings -> In w (appendEnumWarning warnings name value allowed fatal).
Proof.
  unfold appendEnumWarning. intros Hw. destruct (_ =? _); [done|]. destruct (existsb _ _); [done|].
  apply in_app_iff. by left.
Qed.
Lemma enum_warning_fatal warnings name value allowed : value <> "" -> trimmed value ->
  existsb (EqualFold value) allowed = false ->
  In ("fatal: invalid " +:+ name +:+ " " +:+ value) (appendEnumWarning warnings name value allowed true).
Proof.
  unfold appendEnumWarning. intros Hv Ht ->. rewrite (trimmed_TrimSpace _ Ht).
  rewrite (proj2 (String.eqb_neq _ _)) by done. apply in_app_iff. right. by left.
Qed.

Lemma no_fatal warnings w : hasFatalCAPWarning warnings = false -> In w warnings ->
  HasPrefix w "fatal:" = false.
Proof.
  unfold hasFatalCAPWarning. intros Hf Hw. destruct (HasPrefix w "fatal:") eqn:E; [|done].
  assert (existsb (fun warning => HasPrefix warning "fatal:") warnings = true); [|congruence].
  apply existsb_exists. eauto.
Qed.
Lemma fatal_prefix s : HasPrefix ("fatal: " +:+ s) "fatal:" = true.
Proof. done. Qed.

Section accepted.
Context `{Documents} (alert : Alert).
Hypothesis fields_trimmed : Forall trimmed
  [cap_Identifier alert; cap_Sender alert; cap_Sent alert; cap_Status alert; cap_MessageType alert;
   cap_Scope alert].
Hypothesis accepted : hasFatalCAPWarning (validateCAP alert) = false.

(** A fatal warning would have been found. *)
Lemma not_reported s : In ("fatal: " +:+ s) (validateCAP alert) -> False.
Proof. intros Hs. pose proof (no_fatal _ _ accepted Hs) as Hp. by rewrite fatal_prefix in Hp. Qed.

(** Later checks keep the warnings of the earlier ones; [n] of them are the
    checks of enumerations. *)
#[local] Tactic Notation "earlier" integer(n) :=
  unfold validateCAP; do 2 (apply in_app_iff; left); do n apply enum_warning_mono.

Lemma required_present name value :
  In (name, value) [("identifier", cap_Identifier alert); ("sender", cap_Sender alert);
    ("sent", cap_Sent alert); ("status", cap_Status alert); ("msgType", cap_MessageType alert);
    ("scope", cap_Scope alert)] -> TrimSpace value <> "".
Proof.
  intros Hin He. apply (not_reported ("missing " +:+ name)). earlier 3. apply in_app_iff. left.
  apply list_elem_of_In, list_elem_of_omap. exists (name, value). split; [by apply list_elem_of_In|].
  cbn [snd fst]. by rewrite He.
Qed.

Lemma fields_present : Forall (fun value => trimmed value /\ value <> "")
  [cap_Identifier alert; cap_Sender alert; cap_Sent alert; cap_Status alert; cap_MessageType alert;
   cap_Scope alert].
Proof.
  pose proof required_present as Hr. cbn [In] in Hr.
  assert (forall name value, _ -> value <> "") as Hn by (intros name value Hin ->; by eapply (Hr name "" Hin)).
  rewrite !list.Forall_cons in fields_trimmed |- *. destruct fields_trimmed as (? & ? & ? & ? & ? & ? & _).
  split_and!; try done; eapply Hn; eauto 10.
Qed.

Lemma sent_valid : parseCAPTime (cap_Sent alert) <> zeroTime.
Proof.
  intros He. apply (not_reported "invalid sent timestamp"). earlier 3.
  apply in_app_iff. right. pose proof fields_present as Hf. rewrite !list.Forall_cons in Hf.
  destruct Hf as (_ & _ & [_ Hs] & _). rewrite (proj2 (String.eqb_neq _ _) Hs).
  unfold IsZero. rewrite (proj2 (Z.eqb_eq _ _) He). by left.
Qed.

Lemma infos_present : cap_Infos alert <> [] \/ EqualFold (cap_MessageType alert) "Cancel" = true \/
  EqualFold (cap_Status alert) "System" = true.
Proof.
  destruct (cap_Infos alert) as [|info l] eqn:Ei; [right|by left].
  destruct (EqualFold (cap_MessageType alert) "Cancel") eqn:E1; [by left|right].
  destruct (EqualFold (cap_Status alert) "System") eqn:E2; [done|exfalso].
  apply (not_reported "non-cancel alert has no info block"). unfold validateCAP. rewrite Ei, E1, E2.
  apply in_app_iff. left. apply in_app_iff. right. by left.
Qed.

Lemma validated : well_formed alert.
Proof.
  pose proof fields_present as Hf. rewrite !list.Forall_cons in Hf.
  destruct Hf as (_ & _ & _ & [Ht1 Hn1] & [Ht2 Hn2] & [Ht3 Hn3] & _).
  assert (forall b, (b = false -> False) -> b = true) as Hb by (intros []; tauto).
  split; [apply fields_present|apply sent_valid| | | |apply infos_present]; apply Hb; intros Hk;
    eapply not_reported.
  - earlier 2. by apply enum_warning_fatal.
  - earlier 1. by apply enum_warning_fatal.
  - earlier 0. by apply enum_warning_fatal.
Qed.
End accepted.

Lemma ParseCAP_well_formed `{Documents} raw alert : ParseCAP raw = Ok alert -> well_formed alert.
Proof.
  unfold ParseCAP. destruct (xml_Decode raw) as [parsed|e]; [|done].
  destruct (negb _); [done|]. cbv zeta.
  match goal with |- context [validateCAP ?a] => set (before := a) end.
  destruct (hasFatalCAPWarning (validateCAP before)) eqn:Hf.
  - destruct (validateCAP before) eqn:Hv; [done|]. cbn [length Nat.eqb negb andb]. done.
  - rewrite andb_false_r. intros [= <-].
    destruct (validated before) as [W1 W2 W3 W4 W5 W6]; [|done|by split].
    repeat constructor; apply TrimSpace_trimmed.
Qed.

(** ** Storm data stay in range *)

Definition point_ok (p : GeoPoint) : Prop :=
  in_f64 (-90) 90 (Latitude p) = true /\ in_f64 (-180) 180 (Longitude p) = true /\
  f64_finite (Latitude p) = true /\ f64_finite (Longitude p) = true.
Record storm_ok (s : StormInfo) : Prop := {
  speed_ok : forall v, SpeedValue s = Some v ->
    f64_finite v = true /\ f64_ltb v (f64_of_Z 0) = false /\ In (SpeedUnit s) ["km/h"; "knots"];
  direction_ok : forall v, DirectionDegrees s = Some v -> f64_finite v = true /\ in_f64 0 360 v = true;
  points_ok : Forall point_ok (Points s) }.

Lemma parse_speed_ok raw v unit : parseECCCStormSpeed raw = Some (v, unit) ->
  f64_finite v = true /\ f64_ltb v (f64_of_Z 0) = false /\ In unit ["km/h"; "knots"].
Proof.
  unfold parseECCCStormSpeed. destruct (Fields _) as [|? [|? [|]]]; try done.
  destruct (ParseFloat _) as [x|]; [rewrite bind_some; cbv beta|done].
  destruct (f64_finite x) eqn:E1, (f64_ltb x (f64_of_Z 0)) eqn:E2; cbn [negb orb]; try done.
  destruct (mem _ _) eqn:E3; [|done]. intros [= <- <-]. apply mem_spec in E3. auto.
Qed.
Lemma parse_direction_ok raw v : parseECCCStormDirection raw = Some v ->
  f64_finite v = true /\ in_f64 0 360 v = true.
Proof.
  unfold parseECCCStormDirection. destruct (ParseFloat _) as [x|]; [rewrite bind_some; cbv beta|done].
  destruct (f64_finite x && in_f64 0 360 x) eqn:E; [|done]. intros [= <-]. by apply andb_prop.
Qed.
Lemma parse_point_ok raw p : parseECCCStormPoint raw = Some p -> point_ok p.
Proof.
  unfold parseECCCStormPoint. destruct (Split _ _) as [|a [|b [|]]]; try done.
  destruct (ParseFloat (TrimSpace a)) as [x|]; [rewrite bind_some; cbv beta|done].
  destruct (ParseFloat (TrimSpace b)) as [y|]; [rewrite bind_some; cbv beta|done].
  match goal with |- context [if ?c then _ else _] => destruct c eqn:E end; [|done].
  intros [= <-]. rewrite !andb_true_iff in E. unfold point_ok. cbn. tauto.
Qed.

Lemma storm_step_ok st parameter : storm_ok st.1 -> storm_ok (storm_step st parameter).1.
Proof.
  destruct st as [s found]. cbn [fst]. intros [H1 H2 H3]. unfold storm_step.
  destruct (storm_key _); try (by split).
  - destruct (parseECCCStormSpeed _) as [[v unit]|] eqn:E; [|by split]. split; [|done..].
    cbn. intros v' [= <-]. by eapply parse_speed_ok.
  - destruct (parseECCCStormDirection _) as [v|] eqn:E; [|by split]. split; [done| |done].
    cbn. intros v' [= <-]. by eapply parse_direction_ok.
  - split; [done..|]. cbn. apply Forall_app. split; [done|]. apply list.Forall_forall. intros p Hp.
    apply list_elem_of_omap in Hp as (raw & _ & Hp). by eapply parse_point_ok.
Qed.

Lemma storm_in_range parameters s : stormInfoFromParameters parameters = Some s -> storm_ok s.
Proof.
  unfold stormInfoFromParameters.
  assert (forall l st, storm_ok st.1 -> storm_ok (fold_left storm_step l st).1) as Hfold.
  { induction l as [|a l IH]; intros st Hst; [done|]. apply IH. by apply storm_step_ok. }
  specialize (Hfold parameters (no_storm, false)).
  destruct (fold_left _ _ _) as [storm [|]]; [|done]. intros [= <-]. apply Hfold. by split.
Qed.

(** ** The promise of the parser *)


Definition sample_document : capXML :=
  MkCapXML "alert" " urn:1 " "cap@example.org" "2024-05-01T12:00:00Z" "Actual" "Alert" "Public" "" [] "" ""
    [MkInfoXML "en-CA" ["Met"] "tornado" ["Shelter"] "Immediate" "Extreme" "Observed" "" "" ""
       "2024-05-01T13:00:00Z" "" "Tornado warning" "" "" "" [MkPairXML "SAME" "TOR"] []
       [MkPairXML ecccStormSpeedName "60 km/h"; MkPairXML ecccStormDirectionName "270"] []].
#[export] Instance sample_Documents : Documents | 1000 := {|
  xml_Decode raw := if raw =? "" then Err "EOF" else Ok sample_document;
  url_Parse raw := if HasPrefix raw "https://h/" then Some (MkURL "https" "h" raw) else None |}.

