(* ===== verification/CapArchive.v ===== *)
(** The archive of CAP documents ([internal/datastore/sqlite.go]): the table
    [archive_cap_xml] and the operations of [SQLiteStore] on it.

    A statement is a function on the rows, as its SQL says; it can fail, and then
    changes nothing.  The table's rows with their columns are [archiveRow].  Two
    rows stored at the same instant have no order in SQL; here the older row of
    the table comes first. *)

From stdpp Require Import sorting.
From S2P Require Import Prelude UnicodeTables GoStrings GoTime GoValue GoPath AlertPacket.
From S2P Require Import PlaylistModel World AlertRequest AudioRetention GoFloat CapModel.

#[local] Open Scope Z_scope.
#[local] Open Scope string_scope.
#[local] Open Scope haze_scope.

Record CAPArchiveRecord := MkArchiveRecord {
  arc_AlertID : string; arc_FeedID : string; arc_Bucket : string; arc_Status : string;
  arc_Reason : string; arc_Sender : string; arc_Source : string; arc_SentAtRaw : string;
  arc_UpdatedAtRaw : string; arc_ExpiresAtRaw : string; arc_Event : string; arc_Headline : string;
  arc_RawXML : string; arc_Metadata : obj }.

(** ** Times *)

(** [parseStoreTime] of [postgres.go]; the layouts with [Z07:00] and [.000Z] are
    forms of RFC 3339. *)
Definition parseStoreTime (raw : string) : option Z :=
  let raw := TrimSpace raw in
  if raw =? "" then None
  else
    match time_Parse raw with
    | Some t => Some t
    | None =>
        match time_Parse_with "T" numeric_zone raw with
        | Some t => Some t
        | None => time_Parse_plain " " raw
        end
    end.
(** [storeTimeText]: no text for the zero time. *)
Definition storeTimeText (value : option Z) : option Z :=
  match value with
  | Some t => if IsZero t then None else Some t
  | None => None
  end.

(** ** The table *)

Definition row_key (r : archiveRow) : string * string * string := (row_AlertID r, row_FeedID r, row_Bucket r).

Section archive.
Context `{Env}.

Definition the_rows (w : World) : list archiveRow := default [] (archive w).
Definition set_rows (f : list archiveRow -> list archiveRow) : M World unit :=
  modify (fun w => MkWorld (reads w) (attempts w) (files w) (published w) (f <$> archive w)).

(** A statement that fails has no effect. *)
Definition Exec (f : list archiveRow -> list archiveRow) : M World (option string) :=
  let! err := attempt in
  match err with
  | Some e => ret (Some e)
  | None => set_rows f ;;; ret None
  end.

(** [s == nil || s.db == nil]: there is nothing to do. *)
Definition with_store (m : M World (option string)) : M World (option string) :=
  let! store := gets archive in match store with None => ret None | Some _ => m end.

(** [COALESCE(a, b)] and [COALESCE(NULLIF(a, ''), b)]. *)
Definition coalesce {A} (a b : option A) : option A := match a with Some _ => a | None => b end.
Definition coalesce_text (a b : string) : string := if a =? "" then b else a.

(** [DO UPDATE SET]: the new row [e] over the row [r] with its key. *)
Definition update_row (e r : archiveRow) : archiveRow :=
  MkRow (row_AlertID r) (row_FeedID r) (row_Bucket r) (row_Status e) (row_Reason e) (row_Sender e)
    (row_Source e) (coalesce (row_SentAt e) (row_SentAt r)) (coalesce (row_UpdatedAt e) (row_UpdatedAt r))
    (coalesce (row_ExpiresAt e) (row_ExpiresAt r)) (coalesce_text (row_Event e) (row_Event r))
    (coalesce_text (row_Headline e) (row_Headline r)) (row_RawXML e) (row_Metadata e) (row_StoredAt e).
Definition has_key (k : string * string * string) (r : archiveRow) : bool := bool_decide (row_key r = k).
(** [INSERT ... ON CONFLICT(alert_id, feed_id, bucket)]. *)
Definition upsert (e : archiveRow) (rows : list archiveRow) : list archiveRow :=
  if existsb (has_key (row_key e)) rows
  then map (fun r => if has_key (row_key e) r then update_row e r else r) rows
  else (rows ++ [e])%list.

Definition record_row (record : CAPArchiveRecord) (stored_at : Z) : archiveRow :=
  MkRow (fallbackText (arc_AlertID record) "") (TrimSpace (arc_FeedID record))
    (fallbackText (arc_Bucket record) "accepted") (fallbackText (arc_Status record) (arc_Bucket record))
    (TrimSpace (arc_Reason record)) (TrimSpace (arc_Sender record)) (TrimSpace (arc_Source record))
    (storeTimeText (parseStoreTime (arc_SentAtRaw record)))
    (storeTimeText (parseStoreTime (arc_UpdatedAtRaw record)))
    (storeTimeText (parseStoreTime (arc_ExpiresAtRaw record)))
    (TrimSpace (arc_Event record)) (TrimSpace (arc_Headline record)) (TrimSpace (arc_RawXML record))
    (arc_Metadata record) stored_at.

Definition StoreCAPArchive (record : CAPArchiveRecord) : M World (option string) :=
  with_store (
    if (fallbackText (arc_AlertID record) "" =? "") || (TrimSpace (arc_RawXML record) =? "") then ret None
    else
      let! t := now in Exec (upsert (record_row record t))).

(** [ORDER BY stored_at DESC] compares the texts of the times. *)
Definition stored_text (r : archiveRow) : string := FormatRFC3339Nano (row_StoredAt r).
Definition newer (a b : archiveRow) : Prop := String.leb (stored_text b) (stored_text a) = true.
#[export] Instance newer_dec : RelDecision newer.
Proof. intros a b. unfold newer. apply _. Defined.

Definition selected (bucket : string) (since : Z) (r : archiveRow) : bool :=
  (row_Bucket r =? bucket) && (IsZero since || String.leb (FormatRFC3339Nano since) (stored_text r)).
Definition ListCAPArchives (bucket : string) (since : Z) : M World (result string (list archiveRow)) :=
  let! store := gets archive in
  let bucket := fallbackText bucket "" in
  match store with
  | None => ret (Ok [])
  | Some rows =>
      if bucket =? "" then ret (Ok [])
      else
        let! err := attempt in
        match err with
        | Some e => ret (Err e)
        | None => ret (Ok (firstn 500 (merge_sort newer (List.filter (selected bucket since) rows))))
        end
  end.

Definition DeleteCAPArchive (alertID feedID : string) : M World (option string) :=
  with_store (
    let alertID := fallbackText alertID "" in
    if alertID =? "" then ret None
    else if TrimSpace feedID =? "" then Exec (List.filter (fun r => negb (row_AlertID r =? alertID)))
    else Exec (List.filter (fun r => negb ((row_AlertID r =? alertID) && (row_FeedID r =? TrimSpace feedID))))).

Definition DeleteCAPArchiveBucketItem (alertID feedID bucket : string) : M World (option string) :=
  with_store (
    let alertID := fallbackText alertID "" in
    let bucket := fallbackText bucket "" in
    if (alertID =? "") || (bucket =? "") then ret None
    else if TrimSpace feedID =? ""
    then Exec (List.filter (fun r => negb ((row_AlertID r =? alertID) && (row_Bucket r =? bucket))))
    else Exec (List.filter (fun r =>
           negb ((row_AlertID r =? alertID) && (row_FeedID r =? TrimSpace feedID) && (row_Bucket r =? bucket))))).

Definition ClearCAPArchiveBucket (bucket : string) : M World (option string) :=
  with_store (
    let bucket := fallbackText bucket "" in
    if bucket =? "" then ret None else Exec (List.filter (fun r => negb (row_Bucket r =? bucket)))).

Definition ClearAllCAPArchives : M World (option string) := with_store (Exec (fun _ => [])).

(** *** [ExpireNonCriticalCAPArchives] *)

(** SQL's [upper] changes ASCII letters. *)
Definition sql_upper (s : string) : string :=
  string_of (map (fun a => if is_lower (byte_val a) then byte_of (byte_val a - 32) else a) (bytes_of s)).
Definition non_critical (r : archiveRow) : bool := negb (mem (sql_upper (row_Event r)) ["TOR"; "SVR"]).
Definition expiring (r : archiveRow) : bool := (row_Bucket r =? "accepted") && non_critical r.

(** The first statement: expired rows that are in the way are deleted. *)
Definition in_the_way (rows : list archiveRow) (r : archiveRow) : bool :=
  (row_Bucket r =? "expired") &&
  existsb (fun accepted => (row_Bucket accepted =? "accepted") && (row_AlertID accepted =? row_AlertID r) &&
             (row_FeedID accepted =? row_FeedID r) && non_critical accepted) rows.
Definition clear_way (rows : list archiveRow) : list archiveRow :=
  List.filter (fun r => negb (in_the_way rows r)) rows.
(** The second: the rows change their bucket. *)
Definition expire_row (t : Z) (r : archiveRow) : archiveRow :=
  if expiring r then
    MkRow (row_AlertID r) (row_FeedID r) "expired" "expired" "expired by operator" (row_Sender r) (row_Source r)
      (row_SentAt r) (row_UpdatedAt r) (row_ExpiresAt r) (row_Event r) (row_Headline r) (row_RawXML r)
      (row_Metadata r) t
  else r.
Definition unique_failed : string := "UNIQUE constraint failed: archive_cap_xml.alert_id, archive_cap_xml.feed_id, archive_cap_xml.bucket".

Definition ExpireNonCriticalCAPArchives : M World (option string) :=
  with_store (
    let! rows := gets the_rows in
    let! err := attempt in                                      (* BeginTx *)
    match err with
    | Some e => ret (Some e)
    | None =>
        let! err := attempt in
        match err with
        | Some e => ret (Some e)                                (* rolled back *)
        | None =>
            let rows := clear_way rows in
            let! t := now in
            let! err := attempt in
            match err with
            | Some e => ret (Some e)
            | None =>
                let rows := map (expire_row t) rows in
                if negb (bool_decide (NoDup (map row_key rows))) then ret (Some unique_failed)
                else
                  let! err := attempt in                        (* Commit *)
                  match err with
                  | Some e => ret (Some e)
                  | None => set_rows (fun _ => rows) ;;; ret None
                  end
            end
        end
    end).
End archive.

(** ** Keys stay unique *)

Section unique.
Context {A K : Type}.

Lemma NoDup_map_filter (f : A -> K) (p : A -> bool) l : NoDup (map f l) -> NoDup (map f (List.filter p l)).
Proof.
  induction l as [|a l IH]; [constructor|]. cbn. rewrite list.NoDup_cons. intros [Ha Hl].
  destruct (p a); [|by apply IH]. cbn. apply list.NoDup_cons. split; [|by apply IH].
  intros Hin. apply list_elem_of_In, in_map_iff in Hin as (x & Hx & Hin).
  apply filter_In in Hin as [Hin _]. apply Ha, list_elem_of_In, in_map_iff. eauto.
Qed.

(** A function that tells apart what [f] tells apart. *)
Lemma NoDup_map_by {K'} (f : A -> K) (g : A -> K') l : NoDup (map f l) ->
  (forall x y, In x l -> In y l -> g x = g y -> f x = f y) -> NoDup (map g l).
Proof.
  induction l as [|a l IH]; [constructor|]. cbn [map]. intros Hn Hg.
  apply list.NoDup_cons in Hn as [Ha Hl]. apply list.NoDup_cons. split; [|apply IH; [done|]; intros; apply Hg; cbn; auto].
  intros Hin. apply list_elem_of_In, in_map_iff in Hin as (x & Hx & Hin).
  apply Ha, list_elem_of_In, in_map_iff. exists x.
  split; [|done]. apply Hg; cbn; auto.
Qed.
End unique.

Definition keys_unique (rows : list archiveRow) : Prop := NoDup (map row_key rows).

(** What every row is written with: an alert and a document, and no white space
    around the parts of its key. *)
Record row_clean (r : archiveRow) : Prop := {
  clean_alert : trimmed (row_AlertID r); some_alert : row_AlertID r <> "";
  clean_feed : trimmed (row_FeedID r); clean_bucket : trimmed (row_Bucket r);
  clean_document : trimmed (row_RawXML r); some_document : row_RawXML r <> "" }.
Definition table_ok (rows : list archiveRow) : Prop := keys_unique rows /\ Forall row_clean rows.

Lemma upsert_unique e rows : keys_unique rows -> keys_unique (upsert e rows).
Proof.
  unfold upsert, keys_unique. intros Hu. destruct (existsb _ _) eqn:He.
  - rewrite map_map. erewrite map_ext; [exact Hu|]. intros r. by destruct (has_key _ r).
  - rewrite map_app. cbn. apply list.NoDup_app. split; [done|]. split; [|apply NoDup_singleton].
    intros k Hk Hk'. apply list_elem_of_singleton in Hk' as ->.
    apply list_elem_of_In, in_map_iff in Hk as (r & Hr & Hin).
    assert (existsb (has_key (row_key e)) rows = true); [|congruence].
    apply existsb_exists. exists r. split; [done|]. by apply bool_decide_eq_true.
Qed.

Lemma upsert_clean e rows : row_clean e -> Forall row_clean rows -> Forall row_clean (upsert e rows).
Proof.
  intros He Hr. unfold upsert. destruct (existsb _ _).
  - apply Forall_map. eapply Forall_impl; [|exact Hr]. intros r Hc. destruct (has_key _ r); [|done].
    destruct He, Hc. by split.
  - apply Forall_app. split; [done|]. by constructor.
Qed.
Lemma filter_ok p rows : table_ok rows -> table_ok (List.filter p rows).
Proof.
  intros [Hu Hc]. split; [by apply NoDup_map_filter|]. apply List.Forall_forall. intros r Hr.
  apply filter_In in Hr as [Hr _]. revert r Hr. by apply List.Forall_forall.
Qed.
Lemma fallback_trimmed value fallback : trimmed (fallbackText value fallback).
Proof. unfold fallbackText. destruct (_ =? _); apply TrimSpace_trimmed. Qed.
Lemma record_row_clean record t : fallbackText (arc_AlertID record) "" <> "" ->
  TrimSpace (arc_RawXML record) <> "" -> row_clean (record_row record t).
Proof. intros Ha Hx. split; cbn; try done; try apply fallback_trimmed; apply TrimSpace_trimmed. Qed.

Lemma non_critical_mem r : non_critical r = false -> In (sql_upper (row_Event r)) ["TOR"; "SVR"].
Proof. unfold non_critical. intros Hn. apply negb_false_iff in Hn. by apply mem_spec. Qed.

Lemma expire_row_key t r : row_key (expire_row t r) =
  (row_AlertID r, row_FeedID r, if expiring r then "expired" else row_Bucket r).
Proof. unfold expire_row. by destruct (expiring r). Qed.

Lemma expire_unique t rows : keys_unique rows -> keys_unique (map (expire_row t) (clear_way rows)).
Proof.
  unfold keys_unique. intros Hu. rewrite map_map.
  eapply (NoDup_map_by row_key); [by apply NoDup_map_filter|].
  intros x y Hx Hy. unfold clear_way in *. apply filter_In in Hx as [Hx Hwx], Hy as [Hy Hwy].
  rewrite !expire_row_key. unfold row_key. apply negb_true_iff in Hwx, Hwy.
  (* an expired row is not in the way of a row that expires *)
  assert (forall u v, In u rows -> expiring u = true -> in_the_way rows v = false ->
    row_AlertID u = row_AlertID v -> row_FeedID u = row_FeedID v -> row_Bucket v = "expired" -> False) as Hway.
  { intros u v Hu' He Hw Ea Ef Eb. unfold in_the_way in Hw. rewrite Eb in Hw. cbn in Hw.
    unfold expiring in He. apply andb_true_iff in He as [He1 He2].
    assert (existsb (fun accepted => (row_Bucket accepted =? "accepted") && (row_AlertID accepted =? row_AlertID v) &&
      (row_FeedID accepted =? row_FeedID v) && non_critical accepted) rows = true); [|congruence].
    apply existsb_exists. exists u. by rewrite He1, He2, Ea, Ef, !String.eqb_refl. }
  destruct (expiring x) eqn:Ex, (expiring y) eqn:Ey; intros He;
    pose proof (f_equal (fun k => k.1.1) He) as Ea; pose proof (f_equal (fun k => k.1.2) He) as Ef;
    pose proof (f_equal snd He) as Eb; cbn in Ea, Ef, Eb.
  - unfold expiring in Ex, Ey. apply andb_true_iff in Ex as [Ex _], Ey as [Ey _].
    apply String.eqb_eq in Ex, Ey. congruence.
  - exfalso. by eapply (Hway x y).
  - exfalso. by eapply (Hway y x).
  - congruence.
Qed.

(** ** Operations *)

Section operations.
Context `{Env}.

Inductive archiveOp :=
| OpStore (record : CAPArchiveRecord)
| OpDelete (alertID feedID : string)
| OpDeleteItem (alertID feedID bucket : string)
| OpClear (bucket : string)
| OpClearAll
| OpExpire.
Definition run_op (op : archiveOp) : M World (option string) :=
  match op with
  | OpStore record => StoreCAPArchive record
  | OpDelete a f => DeleteCAPArchive a f
  | OpDeleteItem a f b => DeleteCAPArchiveBucketItem a f b
  | OpClear b => ClearCAPArchiveBucket b
  | OpClearAll => ClearAllCAPArchives
  | OpExpire => ExpireNonCriticalCAPArchives
  end.

(** On a table with unique keys, [m] changes the rows as [P] says when it
    succeeds, not at all when it fails, and it fails only by a fault. *)
Definition changes (P : list archiveRow -> list archiveRow -> Prop) (m : M World (option string)) : Prop :=
  forall w, keys_unique (the_rows w) ->
    match (m w).1 with
    | None => forall rows, archive w = Some rows -> exists rows', archive (m w).2 = Some rows' /\ P rows rows'
    | Some e => archive (m w).2 = archive w /\ exists n, fault n = Some e
    end.

Lemma changes_Exec (P : _ -> _ -> Prop) f : (forall rows, P rows (f rows)) -> changes P (Exec f).
Proof.
  intros HP w _. unfold Exec, attempt. rewrite mbind_eq. cbn. destruct (fault (attempts w)) eqn:E; cbn; [by eauto|].
  intros rows ->. cbn. eauto.
Qed.
Lemma changes_with_store P m : changes P m -> changes P (with_store m).
Proof.
  intros Hm w Hu. unfold with_store. rewrite mbind_eq. cbn. destruct (archive w) eqn:E; [|cbn; congruence].
  specialize (Hm w Hu). by rewrite E in Hm.
Qed.
Lemma changes_nothing (P : _ -> _ -> Prop) : (forall rows, P rows rows) -> changes P (ret None).
Proof. intros HP w _. cbn. eauto. Qed.
Lemma changes_now P m : (forall t, changes P (m t)) -> changes P (let! t := now in m t).
Proof. intros Hm w Hu. rewrite mbind_eq. cbn. apply (Hm _ (now w).2). by destruct w. Qed.

(** One more statement that may fail first. *)
Lemma changes_attempt P m : changes P m ->
  changes P (let! err := attempt in match err with Some e => ret (Some e) | None => m end).
Proof.
  intros Hm w Hu. rewrite mbind_eq. cbn. destruct (fault (attempts w)) eqn:E; [cbn; by eauto|].
  apply (Hm (attempt w).2). by destruct w.
Qed.

Lemma expire_changes :
  changes (fun rows rows' => exists t, rows' = map (expire_row t) (clear_way rows)) ExpireNonCriticalCAPArchives.
Proof.
  apply changes_with_store. intros w Hu. rewrite mbind_eq. cbn [gets fst snd].
  set (P := fun rows rows' => exists t, rows' = map (expire_row t) (clear_way rows)).
  set (rows := the_rows w) in *.
  match goal with |- match (?m w).1 with _ => _ end =>
    enough (changes (fun r r' => r = rows -> P r r') m) as Hm end.
  { specialize (Hm w Hu). destruct (_ w).1; [done|]. intros rows0 E. destruct (Hm rows0 E) as (r' & E' & HP).
    exists r'. split; [done|]. apply HP. unfold rows, the_rows. by rewrite E. }
  apply changes_attempt, changes_attempt, changes_now. intros t. apply changes_attempt.
  cbv zeta. rewrite bool_decide_eq_true_2 by (by apply expire_unique). cbn [negb].
  apply changes_attempt. intros w' _. cbn. intros rows0 ->. eexists. split; [done|]. intros ->. by exists t.
Qed.

Lemma run_op_changes op : changes (fun rows rows' => table_ok rows -> table_ok rows') (run_op op).
Proof.
  destruct op as [record|a f|a f b|b| |]; cbn [run_op].
  - apply changes_with_store. destruct (_ || _) eqn:Eb; [by apply changes_nothing|].
    apply orb_false_iff in Eb as [Ea Ex]. apply String.eqb_neq in Ea, Ex. apply changes_now. intros t.
    apply changes_Exec. intros rows [Hu Hc]. split; [by apply upsert_unique|].
    apply upsert_clean; [by apply record_row_clean|done].
  - apply changes_with_store. cbv zeta. destruct (_ =? _); [by apply changes_nothing|].
    destruct (_ =? _); apply changes_Exec; intros rows; apply filter_ok.
  - apply changes_with_store. cbv zeta. destruct (_ || _); [by apply changes_nothing|].
    destruct (_ =? _); apply changes_Exec; intros rows; apply filter_ok.
  - apply changes_with_store. cbv zeta. destruct (_ =? _); [by apply changes_nothing|].
    apply changes_Exec. intros rows. apply filter_ok.
  - apply changes_with_store, changes_Exec. intros rows _. split; constructor.
  - intros w Hu. pose proof (expire_changes w Hu) as Hc. cbv zeta in *.
    destruct (ExpireNonCriticalCAPArchives w).1; [done|]. intros rows E.
    destruct (Hc rows E) as (r' & E' & t & ->). eexists. split; [done|]. intros [Hk Hcl]. split; [by apply expire_unique|].
    apply Forall_map, List.Forall_forall. intros r Hr. apply filter_In in Hr as [Hr _].
    destruct (proj1 (List.Forall_forall _ _) Hcl r Hr). unfold expire_row. by destruct (expiring r); split.
Qed.

(** The keys of the archive stay unique.  No operation on the archive gives
    two rows the same alert, feed and bucket, or a key with white space around it;
    an operation fails only when the database does, never by violating the
    constraint, and then changes nothing. *)
Theorem archive_keys_unique (op : archiveOp) (w : World) :
  table_ok (the_rows w) ->
  let '(err, w') := run_op op w in
  table_ok (the_rows w') /\
  match err with
  | Some e => archive w' = archive w /\ exists n, fault n = Some e
  | None => True
  end.
Proof.
  intros Hok. pose proof (proj1 Hok) as Hu.
  pose proof (run_op_changes op w Hu) as Hc. destruct (run_op op w) as [[e|] w'] eqn:Ew; cbn in Hc.
  - destruct Hc as [Ha Hf]. unfold the_rows in *. rewrite Ha. by split.
  - split; [|done]. unfold the_rows in *. destruct (archive w) as [rows|] eqn:Ea.
    + destruct (Hc rows eq_refl) as (rows' & -> & Hk). by apply Hk.
    + enough (archive w' = None) as -> by (split; constructor). revert Ew Ea.
      destruct op; cbn [run_op]; unfold with_store, DeleteCAPArchive, DeleteCAPArchiveBucketItem, StoreCAPArchive,
        ClearCAPArchiveBucket, ClearAllCAPArchives, ExpireNonCriticalCAPArchives, with_store; rewrite mbind_eq;
        cbn; intros Ew Ea; rewrite Ea in Ew; by injection Ew as <-.
Qed.
(** What the operator's command leaves. *)
Record expired_rows (rows rows' : list archiveRow) : Prop := {
  no_accepted_left r : In r rows' -> row_Bucket r = "accepted" -> In (sql_upper (row_Event r)) ["TOR"; "SVR"];
  critical_kept r : In r rows -> row_Bucket r = "accepted" ->
    In (sql_upper (row_Event r)) ["TOR"; "SVR"] -> In r rows';
  others_moved r : In r rows -> row_Bucket r = "accepted" ->
    ~ In (sql_upper (row_Event r)) ["TOR"; "SVR"] ->
    exists r', In r' rows' /\ row_key r' = (row_AlertID r, row_FeedID r, "expired") /\
      row_RawXML r' = row_RawXML r /\ row_Metadata r' = row_Metadata r;
  other_buckets_kept r : In r rows -> row_Bucket r <> "accepted" -> row_Bucket r <> "expired" -> In r rows' }.

Lemma not_expiring_kept t rows r : In r rows -> expiring r = false -> row_Bucket r <> "expired" ->
  In r (map (expire_row t) (clear_way rows)).
Proof.
  intros Hin He Hb. apply in_map_iff. exists r. split; [by unfold expire_row; rewrite He|].
  apply filter_In. split; [done|]. unfold in_the_way. by rewrite (proj2 (String.eqb_neq _ _) Hb).
Qed.

Lemma expire_spec t rows : expired_rows rows (map (expire_row t) (clear_way rows)).
Proof.
  split.
  - intros r Hin Hb. apply in_map_iff in Hin as (x & <- & _). apply non_critical_mem. revert Hb.
    unfold expire_row. destruct (expiring x) eqn:Ex; [done|]. intros Hb. unfold expiring in Ex.
    by rewrite Hb in Ex.
  - intros r Hin Hb Hc. apply not_expiring_kept; [done| |by rewrite Hb].
    unfold expiring, non_critical. by rewrite (proj2 (mem_spec _ _) Hc), andb_false_r.
  - intros r Hin Hb Hc. exists (expire_row t r).
    assert (expiring r = true) as He.
    { unfold expiring, non_critical. rewrite Hb. destruct (mem _ _) eqn:E; [|done]. by apply mem_spec in E. }
    split; [|by unfold expire_row; rewrite He]. apply in_map, filter_In. split; [done|].
    unfold in_the_way. by rewrite Hb.
  - intros r Hin Hb1 Hb2. apply not_expiring_kept; try done. unfold expiring.
    by rewrite (proj2 (String.eqb_neq _ _) Hb1).
Qed.

(** The operator's command to expire alerts spares tornado and severe
    thunderstorm warnings: when it succeeds these stay accepted, no other alert
    does, and each of the others is found among the expired ones with its document;
    when it fails, nothing has changed. *)
Theorem expire_non_critical (w : World) (rows : list archiveRow) :
  archive w = Some rows -> keys_unique rows ->
  let '(err, w') := ExpireNonCriticalCAPArchives w in
  match err with
  | None => exists rows', archive w' = Some rows' /\ expired_rows rows rows'
  | Some _ => archive w' = archive w
  end.
Proof.
  intros Ha Hu. pose proof (expire_changes w) as Hc. unfold the_rows in Hc. rewrite Ha in Hc.
  specialize (Hc Hu). destruct (ExpireNonCriticalCAPArchives w) as [[e|] w']; cbn in Hc.
  - rewrite Ha. tauto.
  - destruct (Hc _ eq_refl) as (rows' & E & t & ->). eexists. split; [done|]. apply expire_spec.
Qed.
End operations.

Definition sample_row (id bucket event : string) (t : Z) : archiveRow :=
  MkRow id "f1" bucket bucket "" "" "" None None None event "" "<alert/>" ∅ t.
Definition sample_archive : list archiveRow :=
  [sample_row "a1" "accepted" "TOR" 1; sample_row "a2" "accepted" "RWT" 2; sample_row "a2" "expired" "RWT" 0].
Lemma sample_archive_ok : table_ok sample_archive.
Proof. split; [by apply (bool_decide_unpack _); vm_compute|]. by repeat constructor. Defined.

Lemma archive_keys_unique_witness :
  table_ok (the_rows (run_op OpExpire (MkWorld 0 0 ∅ [] (Some sample_archive))).2).
Proof.
  exact (proj1 (archive_keys_unique OpExpire (MkWorld 0 0 ∅ [] (Some sample_archive)) sample_archive_ok)).
Defined.

Lemma expire_non_critical_witness :
  exists rows', archive (ExpireNonCriticalCAPArchives (MkWorld 0 0 ∅ [] (Some sample_archive))).2 = Some rows' /\
    expired_rows sample_archive rows' /\ length rows' = 2%nat.
Proof.
  destruct (expire_non_critical (MkWorld 0 0 ∅ [] (Some sample_archive)) sample_archive eq_refl
              (proj1 sample_archive_ok)) as (rows' & E & Hs).
  exists rows'. split; [exact E|]. split; [exact Hs|]. vm_compute in E. by injection E as <-.
Defined.

(** The order is that of the texts, which is not that of the times: a row stored at
    a whole second is listed before the one stored half a second later, and is the
    one that a listing since that second leaves out. *)
Theorem stored_order_not_chronological : exists a b,
  row_StoredAt a < row_StoredAt b /\ newer a b /\ ~ newer b a /\
  selected (row_Bucket b) (row_StoredAt a) b = false.
Proof.
  exists (sample_row "a1" "accepted" "RWT" noon), (sample_row "a2" "accepted" "RWT" (noon + Second / 2)).
  split_and!; [by vm_compute..| |by vm_compute]. intros Hn. by vm_compute in Hn.
Qed.
