(* ===== verification/CapRegistry.v ===== *)
(** The alerts a feed's routine programme speaks of ([internal/playlist/alerts.go]):
    which archived alerts are still rendered, and the move of the others out of
    the accepted ones. *)

From stdpp Require Import sorting.
From S2P Require Import Prelude UnicodeTables GoStrings GoTime GoValue GoPath AlertPacket.
From S2P Require Import PlaylistModel World AlertRequest AudioRetention GoFloat CapModel CapArchive.

#[local] Open Scope Z_scope.
#[local] Open Scope string_scope.
#[local] Open Scope haze_scope.

Definition alertRegistryGrace : Z := 10 * Minute.
Record capRegistryEntry := MkEntry { entry_UpdatedAt : Z; entry_Alert : Alert }.

Definition firstCAPInfo (alert : Alert) : AlertInfo :=
  match List.find (fun info => HasPrefix (ToLower (TrimSpace (info_Language info))) "en") (cap_Infos alert) with
  | Some info => info
  | None => default no_info (head (cap_Infos alert))
  end.
Definition firstNonBlankText (values : list string) : string := default "" (head (trimmed_nonblank values)).

Definition alertParam (info : AlertInfo) (name : string) : string :=
  match List.find (fun param => EqualFold (TrimSpace (nv_Name param)) name) (info_Parameters info) with
  | Some param => TrimSpace (nv_Value param)
  | None => ""
  end.

Definition capInfoExplicitEnd (info : AlertInfo) : bool :=
  if existsb (fun response => EqualFold response "AllClear") (info_Response info) then true
  else
    let status := ToLower (alertParam info "layer:EC-MSC-SMC:1.0:Alert_Location_Status") in
    let status := if status =? "" then ToLower (alertParam info "layer:EC-MSC-SMC:1.1:Alert_Location_Status")
                  else status in
    (status =? "ended") || Contains (ToLower (info_Headline info)) "ended".

(** The loop stops at the first block that is not an end. *)
Fixpoint all_end (sawEnd : bool) (infos : list AlertInfo) : bool :=
  match infos with
  | [] => sawEnd
  | info :: infos' => if capInfoExplicitEnd info then all_end true infos' else false
  end.
Definition isExplicitCAPEnd (alert : Alert) : bool :=
  if EqualFold (cap_MessageType alert) "Cancel" then true else all_end false (cap_Infos alert).

Definition capActiveOrAllInfos (infos : list AlertInfo) : list AlertInfo :=
  let active := List.filter (fun info => negb (capInfoExplicitEnd info)) infos in
  if existsb capInfoExplicitEnd infos && (0 <? length active)%nat then active else infos.

Definition latest (t : Z) (info : AlertInfo) : Z :=
  let parsed := parseTime (info_Expires info) in
  if negb (IsZero parsed) && After parsed t then parsed else t.
Definition alertExpiresAt (alert : Alert) : Z :=
  fold_left latest (capActiveOrAllInfos (cap_Infos alert)) zeroTime.

Definition isCAPEnded (alert : Alert) (t : Z) : bool :=
  isExplicitCAPEnd alert || (negb (IsZero (alertExpiresAt alert)) && After t (alertExpiresAt alert)).

(** The first of the texts that is a time. *)
Definition first_time (texts : list string) : Z :=
  default zeroTime (List.find (fun t => negb (IsZero t)) (map parseTime texts)).
Definition firstCAPTime (sent : string) (infos : list AlertInfo) : Z :=
  first_time (sent :: concat (map (fun info => [info_Effective info; info_Onset info; info_Expires info]) infos)).

Definition capRegistryAnchor (alert : Alert) (fallback : Z) : Z :=
  if isExplicitCAPEnd alert then
    let anchor := firstCAPTime (cap_Sent alert) (cap_Infos alert) in
    if negb (IsZero anchor) then anchor else fallback
  else fallback.

Definition isRenderableCAPEntry (entry : capRegistryEntry) (t : Z) : bool :=
  let alert := entry_Alert entry in
  if (cap_Identifier alert =? "") || EqualFold (cap_MessageType alert) "Cancel" then false
  else if isExplicitCAPEnd alert then
    let anchor := capRegistryAnchor alert (entry_UpdatedAt entry) in
    IsZero anchor || Before t (Add anchor alertRegistryGrace)
  else
    let expires := alertExpiresAt alert in
    if negb (IsZero expires) then Before t (Add expires alertRegistryGrace) else true.

Section registry.
Context `{Env} `{Documents}.

Definition expired_record (row : archiveRow) (alert : Alert) (t : Z) : CAPArchiveRecord :=
  let info := firstCAPInfo alert in
  MkArchiveRecord (row_AlertID row) (row_FeedID row) "expired" "expired"
    "expired or ended outside relay grace" (cap_Sender alert) (row_Source row) (cap_Sent alert)
    (FormatRFC3339Nano t) (info_Expires info) (info_Event info)
    (firstNonBlankText [info_Headline info; info_Event info]) (row_RawXML row)
    (list_to_map [("message_type", AString (cap_MessageType alert)); ("scope", AString (cap_Scope alert))]).

Definition archiveExpiredCAPRow (row : archiveRow) (alert : Alert) (t : Z) : M World unit :=
  let! store := gets archive in
  if bool_decide (store = None) || (TrimSpace (row_AlertID row) =? "") then ret tt
  else
    StoreCAPArchive (expired_record row alert t) ;;;
    DeleteCAPArchiveBucketItem (row_AlertID row) (row_FeedID row) "accepted" ;;; ret tt.

(** What the text of a row says of it. *)
Definition row_entry (row : archiveRow) : option capRegistryEntry :=
  match ParseCAP (TrimSpace (row_RawXML row)) with
  | Err _ => None
  | Ok alert =>
      if cap_Identifier alert =? "" then None
      else
        let updated := default zeroTime (row_UpdatedAt row) in
        Some (MkEntry (if IsZero updated then row_StoredAt row else updated) alert)
  end.

(** One row; [true] ends the loop. *)
Definition check_row (feedID : string) (t : Z) (row : archiveRow) : M World bool :=
  if negb (TrimSpace (row_FeedID row) =? feedID) then ret false
  else
    match row_entry row with
    | None => DeleteCAPArchiveBucketItem (row_AlertID row) (row_FeedID row) "accepted" ;;; ret false
    | Some entry =>
        if isRenderableCAPEntry entry t then ret true
        else archiveExpiredCAPRow row (entry_Alert entry) t ;;; ret false
    end.

Definition hasRoutineAlerts_of (feedID : string) (t : Z) : M World bool :=
  let! store := gets archive in
  match store with
  | None => ret false
  | Some _ =>
      let! rows := ListCAPArchives "accepted" zeroTime in
      match rows with
      | Err _ => ret false
      | Ok rows => for_until (check_row feedID t) rows
      end
  end.
End registry.

(** ** Which alerts are rendered *)

(** An alert that is no longer rendered is not rendered later. *)
Lemma renderable_antitone entry t t' : t <= t' -> isRenderableCAPEntry entry t' = true ->
  isRenderableCAPEntry entry t = true.
Proof.
  unfold isRenderableCAPEntry, Before, Add. intros Ht. destruct (_ || _); [done|].
  destruct (isExplicitCAPEnd _).
  - destruct (IsZero _); [done|]. cbn [orb]. rewrite !Z.ltb_lt. lia.
  - destruct (negb _); [|done]. rewrite !Z.ltb_lt. lia.
Qed.

Section loop.
Context `{Env} `{Documents} (feedID : string) (t : Z).

(** The row is of this feed and its alert is rendered. *)
Definition row_renders (row : archiveRow) : bool :=
  (TrimSpace (row_FeedID row) =? feedID) &&
  match row_entry row with Some entry => isRenderableCAPEntry entry t | None => false end.

Lemma check_row_result row w : (check_row feedID t row w).1 = row_renders row.
Proof.
  unfold check_row, row_renders. destruct (TrimSpace (row_FeedID row) =? feedID); [|done]. cbn [negb andb].
  destruct (row_entry row) as [entry|]; [|by rewrite mbind_eq].
  destruct (isRenderableCAPEntry entry t); [done|]. by rewrite mbind_eq.
Qed.
Lemma check_rows_result rows w : (for_until (check_row feedID t) rows w).1 = existsb row_renders rows.
Proof.
  revert w. induction rows as [|row rows IH]; intros w; [done|]. cbn [for_until existsb].
  rewrite mbind_eq, check_row_result. by destruct (row_renders row).
Qed.

(** The rows that a listing gives. *)
Definition listed (rows : list archiveRow) : list archiveRow :=
  firstn 500 (merge_sort newer (List.filter (selected "accepted" zeroTime) rows)).

Lemma listed_accepted rows row : In row (listed rows) -> In row rows /\ row_Bucket row = "accepted".
Proof.
  intros Hin.
  assert (In row (merge_sort newer (List.filter (selected "accepted" zeroTime) rows))) as Hin'.
  { rewrite <-(firstn_skipn 500 (merge_sort _ _)). apply in_app_iff. by left. }
  clear Hin. rename Hin' into Hin. apply list_elem_of_In in Hin. rewrite (merge_sort_Permutation newer) in Hin.
  apply list_elem_of_In, filter_In in Hin as [Hin Hs]. split; [done|].
  unfold selected in Hs. apply andb_true_iff in Hs as [Hs _]. by apply String.eqb_eq.
Qed.

(** ** What happens to the archive *)

Definition without (row : archiveRow) (cur : list archiveRow) : list archiveRow :=
  List.filter (fun r => negb ((row_AlertID r =? row_AlertID row) && (row_FeedID r =? row_FeedID row) &&
                              (row_Bucket r =? "accepted"))) cur.

(** [m] replaces the rows as [P] says, or by a fault leaves them. *)
Definition rewrites (P : list archiveRow -> list archiveRow -> Prop) {A} (m : M World A) : Prop :=
  forall w cur, archive w = Some cur -> exists cur', archive (m w).2 = Some cur' /\
    (P cur cur' \/ cur' = cur /\ exists n e, fault n = Some e).

Lemma rewrites_Exec f : rewrites (fun cur cur' => cur' = f cur) (Exec f).
Proof.
  intros w cur Hw. unfold Exec, attempt. rewrite mbind_eq. cbn. destruct (fault (attempts w)) eqn:E; cbn.
  - exists cur. split; [done|]. right. split; [done|]. by exists (attempts w), s.
  - rewrite Hw. cbn. eauto.
Qed.

Lemma rewrites_delete row : row_clean row -> row_FeedID row <> "" ->
  rewrites (fun cur cur' => cur' = without row cur)
    (DeleteCAPArchiveBucketItem (row_AlertID row) (row_FeedID row) "accepted").
Proof.
  intros [Ha Hna Hf _ _ _] Hnf w cur Hw. unfold DeleteCAPArchiveBucketItem, with_store.
  rewrite mbind_eq. cbn [gets fst snd]. rewrite Hw.
  change (fallbackText "accepted" "") with "accepted". unfold fallbackText.
  rewrite !(trimmed_TrimSpace _ Ha), !(trimmed_TrimSpace _ Hf).
  rewrite !(proj2 (String.eqb_neq _ _) Hna), (proj2 (String.eqb_neq _ _) Hnf). cbn [orb].
  by apply rewrites_Exec.
Qed.

Lemma rewrites_store record : fallbackText (arc_AlertID record) "" <> "" -> TrimSpace (arc_RawXML record) <> "" ->
  rewrites (fun cur cur' => exists t', cur' = upsert (record_row record t') cur) (StoreCAPArchive record).
Proof.
  intros Ha Hx w cur Hw. unfold StoreCAPArchive, with_store. rewrite mbind_eq. cbn [gets fst snd]. rewrite Hw.
  rewrite !(proj2 (String.eqb_neq _ _)) by done. cbn [orb]. rewrite mbind_eq.
  destruct (rewrites_Exec (upsert (record_row record (now w).1)) (now w).2 cur) as (cur' & E & HP); [done|].
  exists cur'. split; [done|]. destruct HP as [->|HP]; [left; eauto|by right].
Qed.

(** The rows that a pass over the feed's alerts leaves alone. *)
Definition protected (r : archiveRow) : Prop :=
  row_FeedID r <> feedID \/ (row_Bucket r <> "accepted" /\ row_Bucket r <> "expired") \/
  (row_Bucket r = "accepted" /\ row_renders r = true).
(** Where the document of the accepted row [r] is. *)
Definition archived (cur : list archiveRow) (r : archiveRow) : Prop :=
  In r cur \/ row_entry r = None \/
  exists r', In r' cur /\ row_key r' = (row_AlertID r, row_FeedID r, "expired") /\ row_RawXML r' = row_RawXML r.
Definition no_faults : Prop := forall n, fault n = None.

(** [rows] is the table at the start of the pass, [cur] during it. *)
Record pass (rows cur : list archiveRow) : Prop := {
  pass_protected r : In r rows -> protected r -> In r cur;
  pass_archived r : no_faults -> In r rows -> row_FeedID r = feedID -> row_Bucket r = "accepted" ->
    archived cur r }.

Lemma same_row rows x r : table_ok rows -> In x rows -> In r rows -> row_key x = row_key r -> x = r.
Proof.
  intros [Hu _] Hx Hr Hk. apply list_elem_of_In, list_elem_of_lookup in Hx as [i Hi].
  apply list_elem_of_In, list_elem_of_lookup in Hr as [j Hj].
  assert (i = j) as ->; [|congruence].
  eapply (NoDup_lookup (map row_key rows)); [exact Hu|by rewrite list_lookup_fmap, Hi|].
  rewrite list_lookup_fmap, Hj. cbn [fmap option_fmap option_map]. by rewrite Hk.
Qed.

Lemma in_without x cur r : In r (without x cur) <->
  In r cur /\ ~ (row_key r = (row_AlertID x, row_FeedID x, "accepted")).
Proof.
  unfold without. rewrite filter_In, negb_true_iff. unfold row_key.
  split; intros [Hin Hk]; (split; [done|]).
  - intros [= E1 E2 E3]. by rewrite E1, E2, E3, !String.eqb_refl in Hk.
  - destruct (row_AlertID r =? row_AlertID x) eqn:E1; [|done].
    destruct (row_FeedID r =? row_FeedID x) eqn:E2; [|done].
    destruct (row_Bucket r =? "accepted") eqn:E3; [|done].
    apply String.eqb_eq in E1, E2, E3. by rewrite E1, E2, E3 in Hk.
Qed.

Lemma in_upsert_other e cur r : In r cur -> row_key r <> row_key e -> In r (upsert e cur).
Proof.
  intros Hin Hk. unfold upsert. destruct (existsb _ _); [|apply in_app_iff; by left].
  apply in_map_iff. exists r. split; [|done]. unfold has_key. by rewrite bool_decide_eq_false_2.
Qed.
Lemma in_upsert_key e cur : exists r, In r (upsert e cur) /\ row_key r = row_key e /\ row_RawXML r = row_RawXML e.
Proof.
  unfold upsert. destruct (existsb _ _) eqn:E.
  - apply existsb_exists in E as (r & Hr & Hk). exists (update_row e r).
    unfold has_key in Hk. apply bool_decide_eq_true in Hk. split; [|by split].
    apply in_map_iff. exists r. split; [|done]. unfold has_key. by rewrite bool_decide_eq_true_2.
  - exists e. split; [|done]. apply in_app_iff. right. by left.
Qed.

Section one_row.
Context (rows : list archiveRow) (x : archiveRow).
Hypothesis table : table_ok rows.
Hypothesis listed_x : In x rows.
Hypothesis accepted_x : row_Bucket x = "accepted".
Hypothesis feed_x : row_FeedID x = feedID.
Hypothesis stale_x : row_renders x = false.

(** Deleting [x] is safe once its document is elsewhere, or of no use. *)
Lemma pass_without cur : pass rows cur ->
  (no_faults -> row_entry x = None \/ exists r', In r' cur /\
     row_key r' = (row_AlertID x, row_FeedID x, "expired") /\ row_RawXML r' = row_RawXML x) ->
  pass rows (without x cur).
Proof.
  intros [P1 P2] Hx. split.
  - intros r Hin Hp. apply in_without. split; [by apply P1|]. intros Hk.
    assert (x = r) as <-. { apply (same_row rows); try done. by rewrite Hk, <-accepted_x. }
    destruct Hp as [Hp|[[Hp _]|[_ Hp]]]; congruence.
  - intros r Hnf Hin Hf Hb. destruct (decide (row_key x = row_key r)) as [Hkr|Hne].
    + assert (x = r) as <- by (by apply (same_row rows)). right. destruct (Hx Hnf) as [?|(r' & Hr' & Hk & Hd)]; [by left|right]. exists r'.
      split; [|done]. apply in_without. split; [done|]. by rewrite Hk.
    + destruct (P2 r Hnf Hin Hf Hb) as [Hc|[?|(r' & Hr' & Hk & Hd)]]; [left| |].
      * apply in_without. split; [done|]. intros Hk. apply Hne. by rewrite Hk, <-accepted_x.
      * right. by left.
      * right. right. exists r'. split; [|done]. apply in_without. split; [done|]. by rewrite Hk.
Qed.

Lemma pass_upsert cur e : pass rows cur -> row_key e = (row_AlertID x, feedID, "expired") ->
  row_RawXML e = row_RawXML x -> pass rows (upsert e cur).
Proof.
  intros [P1 P2] He Hd. split.
  - intros r Hin Hp. apply in_upsert_other; [by apply P1|]. rewrite He. unfold row_key.
    intros [= E1 E2 E3]. destruct Hp as [Hp|[[_ Hp]|[Hp _]]]; congruence.
  - intros r Hnf Hin Hf Hb. destruct (P2 r Hnf Hin Hf Hb) as [Hc|[?|(r' & Hr' & Hk & Hd')]]; [left| |].
    + apply in_upsert_other; [done|]. rewrite He. unfold row_key. rewrite Hb. congruence.
    + right. by left.
    + right. right. destruct (decide (row_key r' = row_key e)) as [Hke|Hke].
      * destruct (in_upsert_key e cur) as (u & Hu & Hku & Hdu). exists u. split; [done|].
        split; [by rewrite Hku, <-Hke|]. rewrite Hdu, Hd.
        assert (r = x) as ->; [|done]. apply (same_row rows); try done.
        unfold row_key. rewrite Hb, accepted_x, Hf, feed_x. rewrite Hk, He in Hke. congruence.
      * exists r'. split; [by apply in_upsert_other|done].
Qed.
End one_row.

Lemma expired_record_key x alert t' : row_clean x ->
  row_key (record_row (expired_record x alert t) t') = (row_AlertID x, row_FeedID x, "expired") /\
  row_RawXML (record_row (expired_record x alert t) t') = row_RawXML x.
Proof.
  intros [Ha Hna Hf _ Hd _]. unfold row_key. cbn. change (fallbackText "expired" "accepted") with "expired".
  unfold fallbackText. rewrite !(trimmed_TrimSpace _ Ha), (proj2 (String.eqb_neq _ _) Hna).
  by rewrite (trimmed_TrimSpace _ Hf), (trimmed_TrimSpace _ Hd).
Qed.

Lemma check_row_pass rows x cur w : table_ok rows -> feedID <> "" -> In x rows -> row_Bucket x = "accepted" ->
  pass rows cur -> archive w = Some cur ->
  exists cur', archive (check_row feedID t x w).2 = Some cur' /\ pass rows cur'.
Proof.
  intros Hok Hne Hin Hacc Hp Hw. pose proof (proj1 (List.Forall_forall _ _) (proj2 Hok) x Hin) as Hx.
  pose proof (check_row_result x w) as Hres. unfold row_renders in Hres. unfold check_row.
  destruct (TrimSpace (row_FeedID x) =? feedID) eqn:Hf; cbn [negb]; [|by eauto].
  apply String.eqb_eq in Hf. rewrite (trimmed_TrimSpace _ (clean_feed _ Hx)) in Hf.
  assert (row_renders x = match row_entry x with Some e => isRenderableCAPEntry e t | None => false end) as Hr.
  { unfold row_renders. rewrite (trimmed_TrimSpace _ (clean_feed _ Hx)), Hf, String.eqb_refl. done. }
  destruct (row_entry x) as [entry|] eqn:He.
  - destruct (isRenderableCAPEntry entry t); [by eauto|]. rewrite mbind_eq. cbn [ret snd].
    unfold archiveExpiredCAPRow. rewrite mbind_eq. cbn [gets fst snd]. rewrite Hw, bool_decide_eq_false_2 by done.
    rewrite (trimmed_TrimSpace _ (clean_alert _ Hx)), (proj2 (String.eqb_neq _ _) (some_alert _ Hx)). cbn [orb].
    rewrite mbind_eq.
    destruct (rewrites_store (expired_record x (entry_Alert entry) t)) with (w := w) (cur := cur)
      as (cur1 & E1 & H1); [| |done|].
    { cbn. unfold fallbackText. rewrite (trimmed_TrimSpace _ (clean_alert _ Hx)).
      by rewrite (proj2 (String.eqb_neq _ _) (some_alert _ Hx)); apply some_alert. }
    { cbn. rewrite (trimmed_TrimSpace _ (clean_document _ Hx)). by apply some_document. }
    rewrite mbind_eq. cbn [ret snd].
    destruct (rewrites_delete x Hx ltac:(by rewrite Hf) (StoreCAPArchive (expired_record x (entry_Alert entry) t) w).2
      cur1 E1) as (cur2 & E2 & H2). exists cur2. split; [done|].
    assert (pass rows cur1) as Hp1.
    { destruct H1 as [(t' & ->)|[-> _]]; [|done]. destruct (expired_record_key x (entry_Alert entry) t' Hx).
      apply (pass_upsert rows x); try done; congruence. }
    destruct H2 as [->|[-> _]]; [|done]. apply pass_without; try done. intros Hnf. right.
    destruct H1 as [(t' & ->)|[_ (n & e & Hn)]]; [|by rewrite Hnf in Hn].
    destruct (in_upsert_key (record_row (expired_record x (entry_Alert entry) t) t') cur) as (r & Hrin & Hk & Hd).
    destruct (expired_record_key x (entry_Alert entry) t' Hx) as [Hk' Hd'].
    exists r. split; [done|]. split; congruence.
  - rewrite mbind_eq. cbn [ret snd].
    destruct (rewrites_delete x Hx ltac:(by rewrite Hf) w cur Hw) as (cur2 & E2 & H2).
    exists cur2. split; [done|]. destruct H2 as [->|[-> _]]; [|done]. apply pass_without; try done.
    intros _. by left.
Qed.

Lemma check_rows_pass rows l cur w : table_ok rows -> feedID <> "" ->
  (forall x, In x l -> In x rows /\ row_Bucket x = "accepted") ->
  pass rows cur -> archive w = Some cur ->
  exists cur', archive (for_until (check_row feedID t) l w).2 = Some cur' /\ pass rows cur'.
Proof.
  intros Hok Hne. revert cur w. induction l as [|x l IH]; intros cur w Hl Hp Hw; [by eauto|].
  cbn [for_until]. rewrite mbind_eq. destruct (Hl x (or_introl eq_refl)) as [Hx Hb].
  destruct (check_row_pass rows x cur w Hok Hne Hx Hb Hp Hw) as (cur1 & E1 & H1).
  destruct (check_row feedID t x w).1; [by eauto|]. apply (IH cur1); [|done|done].
  intros y Hy. apply Hl. by right.
Qed.
End loop.

(** ** The feed's alerts *)

Section promises.
Context `{Env} `{Documents}.

(** A feed has alerts for its routine programme exactly when an accepted row
    of the feed is read as an alert that is still in effect, among the rows that
    one listing gives; none when there is no archive or it cannot be read. *)
Theorem hasRoutineAlerts_exact (feedID : string) (t : Z) (w : World) :
  (hasRoutineAlerts_of feedID t w).1 =
  match archive w, fault (attempts w) with
  | Some rows, None => existsb (row_renders feedID t) (listed rows)
  | _, _ => false
  end.
Proof.
  unfold hasRoutineAlerts_of. rewrite mbind_eq. cbn [gets fst snd]. destruct (archive w) as [rows|] eqn:Ha; [|done].
  rewrite mbind_eq. unfold ListCAPArchives. rewrite mbind_eq. cbn [gets fst snd]. rewrite Ha.
  change (fallbackText "accepted" "") with "accepted". cbn [String.eqb].
  rewrite mbind_eq. unfold attempt. cbn [fst snd].
  destruct (fault (attempts w)); [done|]. cbn [ret fst snd]. apply check_rows_result.
Qed.

(** Looking for the alerts of a feed touches nothing else.  Rows of other
    feeds, of other buckets, and alerts still in effect stay; and when the database
    works, each accepted alert of the feed that is gone afterwards is found among the
    expired ones with its document, unless the document could not be read. *)
Theorem hasRoutineAlerts_keeps (feedID : string) (t : Z) (w : World) (rows : list archiveRow) :
  archive w = Some rows -> table_ok rows -> feedID <> "" ->
  exists rows', archive (hasRoutineAlerts_of feedID t w).2 = Some rows' /\
  (forall r, In r rows ->
     row_FeedID r <> feedID \/ (row_Bucket r <> "accepted" /\ row_Bucket r <> "expired") \/
       (row_Bucket r = "accepted" /\ row_renders feedID t r = true) -> In r rows') /\
  ((forall n, fault n = None) -> forall r, In r rows -> row_FeedID r = feedID -> row_Bucket r = "accepted" ->
     In r rows' \/ row_entry r = None \/
     exists r', In r' rows' /\ row_key r' = (row_AlertID r, feedID, "expired") /\ row_RawXML r' = row_RawXML r).
Proof.
  intros Ha Hok Hne.
  assert (exists rows', archive (hasRoutineAlerts_of feedID t w).2 = Some rows' /\ pass feedID t rows rows')
    as (rows' & E & [P1 P2]).
  { assert (pass feedID t rows rows) as Hp by (split; [done|by left]).
    unfold hasRoutineAlerts_of. rewrite mbind_eq. cbn [gets fst snd]. rewrite Ha.
    rewrite mbind_eq. unfold ListCAPArchives. rewrite mbind_eq. cbn [gets fst snd]. rewrite Ha.
    change (fallbackText "accepted" "") with "accepted". cbn [String.eqb].
    rewrite mbind_eq. unfold attempt. cbn [fst snd]. destruct (fault (attempts w)); [by exists rows|].
    cbn [ret fst snd]. apply (check_rows_pass feedID t rows _ rows); try done. apply listed_accepted. }
  exists rows'. split; [done|]. split; [done|]. intros Hnf r Hin Hf Hb.
  rewrite <-Hf. by apply P2.
Qed.
End promises.

(** A tornado warning of feed "f1" that ended at one o'clock, and a table with it
    and an alert of another feed. *)
Definition ended_table : list archiveRow :=
  [sample_row "a1" "accepted" "TOR" 1;
   MkRow "a2" "f2" "accepted" "accepted" "" "" "" None None None "RWT" "" "<alert/>" ∅ 2].
Lemma ended_table_ok : table_ok ended_table.
Proof. split; [by apply (bool_decide_unpack _); vm_compute|]. by repeat constructor. Defined.

Lemma hasRoutineAlerts_keeps_witness :
  let w' := (hasRoutineAlerts_of "f1" (noon + 2 * Hour) (MkWorld 0 0 ∅ [] (Some ended_table))).2 in
  exists rows', archive w' = Some rows' /\
    In (MkRow "a2" "f2" "accepted" "accepted" "" "" "" None None None "RWT" "" "<alert/>" ∅ 2) rows' /\
    ~ In (sample_row "a1" "accepted" "TOR" 1) rows'.
Proof.
  destruct (hasRoutineAlerts_keeps "f1" (noon + 2 * Hour) (MkWorld 0 0 ∅ [] (Some ended_table)) ended_table
              eq_refl ended_table_ok ltac:(discriminate)) as (rows' & E & Hp & _).
  exists rows'. split; [exact E|]. split; [apply Hp; [by right; left|by left]|].
  vm_compute in E. injection E as <-. intros [Hr|[Hr|[]]]; discriminate Hr.
Defined.

(** A database that fails to store the expired copy and then deletes the accepted
    one: the error of the first is ignored, and the alert is gone from the archive. *)
Definition flaky_Env : Env := {|
  clock := clock; fault n := if (n =? 1)%nat then Some "disk full" else None; cwd := cwd;
  json_manifestStatus := json_manifestStatus; json_state := json_state; random_hex := random_hex |}.
Theorem expired_alert_lost :
  archive (@hasRoutineAlerts_of flaky_Env _ "f1" (noon + 2 * Hour)
    (MkWorld 0 0 ∅ [] (Some [sample_row "a1" "accepted" "TOR" 1]))).2 = Some [].
Proof. by vm_compute. Qed.
