(* ===== verification/PlannerState.v ===== *)
(** The feed planner's timeline and controls
    ([services/go/internal/playlist/service.go]): what is on air, what is
    queued and when it will play, operator controls, priority interruptions,
    and the state file. *)

From S2P Require Import Prelude UnicodeTables GoStrings GoTime GoValue GoPath AlertPacket.
From S2P Require Import PlaylistModel World AlertRequest AudioRetention.

#[local] Open Scope Z_scope.
#[local] Open Scope string_scope.
#[local] Open Scope haze_scope.

Definition serviceID : string := "haze-playlist".
Definition startupPrimerDelay : Z := 2 * Second.
Definition pendingReplayInterval : Z := 2 * Second.
Definition playlistStateHeartbeat : Z := 5 * Second.

(** A planner operation. *)
Abbreviation PM := (M (feedPlanner * World)).

Definition message (l : list (string * any)) : obj := list_to_map l.

(** ** The timeline *)

Definition packageGap (cfg : loadedConfig) : Z :=
  let gap := PackageGapS (Playout cfg) in
  if f64_leb gap (f64_of_Z 0) then 0 else f64_trunc (f64_mul gap (f64_of_Z Second)).

Definition itemScheduleDuration (cfg : loadedConfig) (durationMS : Z) : Z :=
  wrap64 (wrap64 (durationMS * Millisecond) + packageGap cfg).

Definition later (end_ : Z) (item : playlistItem) : Z :=
  let finish := parseTime (PredictedFinishAt item) in
  if After finish end_ then finish else end_.

Definition timelineEnd (p : feedPlanner) (t : Z) : Z :=
  let end_ := match current p with Some item => later t item | None => t end in
  fold_left later (queue p) end_.

Definition predictedStart (t timeline_end target : Z) : Z :=
  let start := timeline_end in
  let start := if Before start t then t else start in
  if negb (IsZero target) && Before start target then target else start.

Definition queuedCount (p : feedPlanner) : Z :=
  match current p with
  | Some _ => Z.of_nat (length (queue p)) + 1
  | None => Z.of_nat (length (queue p))
  end.

Definition firstQueued (l : list playlistItem) : option playlistItem := head l.

Definition rebasePreparedItem (cfg : loadedConfig) (p : feedPlanner) (item : playlistItem) (t : Z) :
    playlistItem :=
  let target := parseTime (TargetStartAt item) in
  let start := predictedStart t (timelineEnd p t) target in
  MkItem (QueueID item) (item_FeedID item) (Kind item) (PackageID item) (item_Title item)
    (AudioPath item) (DurationMS item) (FormatRFC3339Nano t) (TargetStartAt item)
    (FormatRFC3339Nano start)
    (FormatRFC3339Nano (Add start (itemScheduleDuration cfg (DurationMS item)))) "queued"
    (item_Source item).

(** [applyRoutinePlanningState]; a preparation may come without a planner. *)
Definition applyRoutinePlanningState (prepared : option feedPlanner) (p : feedPlanner) : feedPlanner :=
  match prepared with
  | None => p
  | Some s =>
      set_cursor (cursor s) (set_routineLanguageCount (routineLanguageCount s)
        (set_routineAltLangIndex (routineAltLangIndex s)
        (set_nextRoutineRetryAt (nextRoutineRetryAt s)
        (set_lastError (lastError s) (set_lastFixed (lastFixed s) p)))))
  end.

Section planner.
Context `{Env} (cfg : loadedConfig).

Definition newFeedPlanner (f : feedXML) : M World feedPlanner :=
  let! t := now in
  ret (MkPlanner true f "running" "" 0 (Add t startupPrimerDelay) true "" 0 0 0 zeroTime zeroTime
    zeroTime [] None ∅ "" "" zeroTime).

(** ** The state file *)

Definition state_payload (p : feedPlanner) : statePayload :=
  MkState (feed_ID (feed p)) (feedName (feed p)) (mode p) (0 <? priorityActive p)%Z
    (pendingAfterCurrent p) (current p) (queue p) (firstQueued (queue p)) (lastError p).

Definition statePath (p : feedPlanner) : string :=
  JoinPath [BaseDir cfg; "runtime"; "playlists"; safeID (feed_ID (feed p)) +:+ ".json"].

(** Install the state at its path: the two renames of the code. *)
Definition rename_state (path : string) (s : statePayload) (t : Z) : M World unit :=
  let install := set_files (insert path (MkFile (StateFile s (FormatRFC3339Nano t)) t)) in
  let! err := attempt in
  match err with
  | None => install
  | Some _ =>
      remove_file path ;;;
      let! err := attempt in
      match err with
      | None => install
      | Some _ => ret tt
      end
  end.

Definition writeState : PM unit :=
  let! p := gets fst in
  let payload := state_payload p in
  match json_state payload with
  | None => ret tt
  | Some body =>
      let! t := io now in
      if (body =? lastStateBody p) && (Sub t (lastStateWriteAt p) <? playlistStateHeartbeat)%Z
      then ret tt
      else
        (* the directory and the temporary file *)
        let! err := io attempt in
        match err with
        | Some _ => ret tt
        | None =>
            io (rename_state (statePath p) payload t) ;;;
            (* the error tested here is the one of the encoder *)
            modp (fun p => set_lastStateWriteAt t (set_lastStateBody body p))
        end
  end.

(** ** Messages to the player *)

Definition control_message (feedID action : string) : obj :=
  message [("type", AString "playlist.control"); ("source", AString serviceID);
    ("feed_id", AString feedID);
    ("data", AMap (message [("feed_id", AString feedID); ("action", AString action)]))].

Definition publishPlayoutControl (action : string) : PM unit :=
  let! p := gets fst in
  if negb (bridge p) then ret tt
  else
    let! err := io (Publish (control_message (feed_ID (feed p)) action)) in
    match err with
    | Some e => modp (set_lastError e)
    | None => ret tt
    end.

Definition ready_message (item : playlistItem) : obj :=
  message [("type", AString "playlist.item.ready"); ("source", AString serviceID);
    ("feed_id", AString (item_FeedID item));
    ("data", AMap (message [
       ("queue_id", AString (QueueID item)); ("feed_id", AString (item_FeedID item));
       ("kind", AString (Kind item)); ("package_id", AString (PackageID item));
       ("title", AString (item_Title item)); ("audio_path", AString (AudioPath item));
       ("duration_ms", AInt64 (DurationMS item)); ("queued_at", AString (QueuedAt item));
       ("target_start_at", AString (TargetStartAt item));
       ("predicted_start_at", AString (PredictedStartAt item));
       ("predicted_finish_at", AString (PredictedFinishAt item));
       ("not_before", AString (PredictedStartAt item)); ("source", AString (item_Source item))]))].

Definition publishReady (item : playlistItem) : PM (option string) :=
  let! p := gets fst in
  if negb (bridge p) then ret (Some "event bridge is unavailable")
  else
    let! err := io (Publish (ready_message item)) in
    match err with
    | Some e => ret (Some e)
    | None => let! t := io now in modp (set_lastPendingReplayAt t) ;;; ret None
    end.

(** The body shared by the loops that publish items: [true] ends the loop. *)
Definition publish_or_stop (item : playlistItem) : PM bool :=
  let! err := publishReady item in
  match err with
  | Some e => modp (set_lastError e) ;;; ret true
  | None => ret false
  end.

Definition replayItemsAt (t : Z) (includeCurrent : bool) : PM unit :=
  modp (set_lastPendingReplayAt t) ;;;
  let! p := gets fst in
  let items :=
    ((if includeCurrent then
        match current p with Some c => [set_Status "queued" c] | None => [] end
      else []) ++ queue p)%list in
  for_until publish_or_stop items ;;; ret tt.

Definition replayPendingItems : PM unit := let! t := io now in replayItemsAt t true.

Definition replayPendingItemsIfDue (t : Z) : PM unit :=
  let! p := gets fst in
  if (length (queue p) =? 0)%nat then ret tt
  else if negb (IsZero (lastPendingReplayAt p)) &&
          (Sub t (lastPendingReplayAt p) <? pendingReplayInterval)%Z then ret tt
  else replayItemsAt t false.

(** ** Controls and playout events *)

Definition control_mode (action : string) : feedPlanner -> feedPlanner :=
  if action =? "pause" then set_mode "paused"
  else if action =? "resume" then set_mode "running"
  else if action =? "restart" then
    fun p => set_queue [] (set_current None (set_cursor 0 (set_mode "running" p)))
  else if action =? "flush_restart" then
    fun p => set_mode "running" (set_cursor 0 (set_current None (set_queue [] p)))
  else if action =? "flush_stop" then
    fun p => set_mode "stopped" (set_current None (set_queue [] p))
  else if mem action ["pause_after_current"; "flush_restart_after_current"; "flush_stop_after_current"]
  then set_pendingAfterCurrent action
  else fun p => p.

Definition applyControl (action : string) : PM unit :=
  modp (control_mode (ToLower (TrimSpace action))) ;;;
  modp (set_lastStateWriteAt zeroTime) ;;; writeState.

Definition markPriorityStarted : PM unit :=
  let! p := gets fst in
  whenb (priorityActive p =? 0)%Z
    (modp (set_modeBeforePriority (mode p)) ;;; publishPlayoutControl "pause") ;;;
  modp (fun p => set_priorityActive (wrap64 (priorityActive p + 1)) p) ;;;
  modp (set_mode "priority") ;;; writeState.

Definition markPriorityCompleted : PM unit :=
  let! p := gets fst in
  whenb (0 <? priorityActive p)%Z (modp (set_priorityActive (priorityActive p - 1))) ;;;
  let! p := gets fst in
  whenb (priorityActive p =? 0)%Z
    (modp (fun p => set_modeBeforePriority "" (set_mode (fallbackText (modeBeforePriority p) "running") p)) ;;;
     let! p := gets fst in
     whenb (mode p =? "running") (publishPlayoutControl "resume")) ;;;
  writeState.

(** The first item with the id, and the queue without it. *)
Fixpoint take_item (queueID : string) (l : list playlistItem) :
    option (playlistItem * list playlistItem) :=
  match l with
  | [] => None
  | item :: l' =>
      if QueueID item =? queueID then Some (item, l')
      else match take_item queueID l' with
           | Some (found, rest) => Some (found, item :: rest)
           | None => None
           end
  end.

Definition markStarted (queueID : string) : PM unit :=
  let! p := gets fst in
  if queueID =? "" then ret tt
  else
    match current p with
    | Some c =>
        if QueueID c =? queueID then
          modp (set_current (Some (set_Status "playing" c))) ;;; writeState
        else
          match take_item queueID (queue p) with
          | Some (item, rest) =>
              modp (fun p => set_queue rest (set_current (Some (set_Status "playing" item)) p)) ;;;
              writeState
          | None => ret tt
          end
    | None =>
        match take_item queueID (queue p) with
        | Some (item, rest) =>
            modp (fun p => set_queue rest (set_current (Some (set_Status "playing" item)) p)) ;;;
            writeState
        | None => ret tt
        end
    end.

(** Is the current item the one an event names?  No name means any. *)
Definition names_current (queueID : string) (p : feedPlanner) : option playlistItem :=
  match current p with
  | Some c => if (queueID =? "") || (QueueID c =? queueID) then Some c else None
  | None => None
  end.

Definition markInterrupted (queueID : string) : PM unit :=
  let! p := gets fst in
  match names_current queueID p with
  | Some c => modp (set_current (Some (set_Status "interrupted" c))) ;;; writeState
  | None => ret tt
  end.

Definition after_current (p : feedPlanner) : feedPlanner :=
  let pending := pendingAfterCurrent p in
  if pending =? "pause_after_current" then set_queue [] (set_mode "paused" p)
  else if pending =? "flush_restart_after_current" then
    set_cursor 0 (set_queue [] (set_mode "running" p))
  else if pending =? "flush_stop_after_current" then set_queue [] (set_mode "stopped" p)
  else p.

Definition markCompleted (queueID : string) : PM unit :=
  modp (fun p => match names_current queueID p with Some _ => set_current None p | None => p end) ;;;
  modp after_current ;;;
  modp (set_pendingAfterCurrent "") ;;;
  let! t := io now in
  prunePlaylistAudio cfg t ;;; writeState.

Definition dropCompleted : PM unit :=
  let! t := io now in
  modp (fun p => set_queue (List.filter (fun item =>
    let finish := parseTime (PredictedFinishAt item) in
    negb (negb (IsZero finish) && Before finish (Add t (- (5 * Minute))))) (queue p)) p).

Definition is_alerts_item (item : playlistItem) : bool :=
  EqualFold (TrimSpace (PackageID item)) "alerts".

Definition invalidateRoutineAlerts (stopCurrent : bool) : PM unit :=
  let! p := gets fst in
  let removed := existsb is_alerts_item (queue p) in
  modp (set_queue (List.filter (fun item => negb (is_alerts_item item)) (queue p))) ;;;
  let! removed :=
    if stopCurrent && from_option is_alerts_item false (current p) then
      modp (set_current None) ;;; publishPlayoutControl "flush_restart" ;;; ret true
    else ret removed in
  whenb removed writeState.

Definition prepareInsertPosition (data : obj) : PM unit :=
  if negb (ToLower (firstText ∅ data ["position"]) =? "next") then ret tt
  else
    modp (set_queue []) ;;;
    let! p := gets fst in
    if bridge p then
      io (Publish (control_message (feed_ID (feed p)) "flush_pending")) ;;; ret tt
    else ret tt.

Definition isPlayoutReadyEvent (event : obj) : bool :=
  EqualFold (stringAt event "source") "haze-playout" ||
  EqualFold (firstText event (mapAt event "data") ["service"]) "haze-playout".

Definition cancelPriorityAlerts `{JSON} (data : obj) : PM unit :=
  let! p := gets fst in
  for_each (fun alertID =>
      io (cleanupSupersededAlertQueueParts (BaseDir cfg) (feed_ID (feed p)) alertID ""))
    (priorityAlertIDs data) ;;;
  writeState.

End planner.

(** ** Facts: times as text *)

Lemma digits_words l : Forall (fun a => is_digit (byte_val a) = true) l ->
  Forall (fun a => wordb a = true) l.
Proof.
  intros H. eapply List.Forall_impl; [|exact H]. intros a Ha. unfold is_digit, wordb in *.
  ranges. lia.
Qed.

Lemma pad_words w n : Forall (fun a => wordb a = true) (bytes_of (pad w n)).
Proof. apply digits_words, pad_digits. Qed.

Lemma format_seconds_words t : Forall (fun a => wordb a = true) (bytes_of (format_seconds t)).
Proof.
  unfold format_seconds. destruct (civil_of_days _) as [[y m] d].
  rewrite !bytes_of_app. repeat (apply Forall_app; split);
    first [apply pad_words | repeat constructor].
Qed.

Lemma FormatRFC3339Nano_words t :
  Forall (fun a => wordb a = true) (bytes_of (FormatRFC3339Nano t)).
Proof.
  unfold FormatRFC3339Nano. rewrite !bytes_of_app. repeat (apply Forall_app; split).
  - apply format_seconds_words.
  - unfold format_nano.
    pose proof (drop_zeros_digits _ (pad_digits 9 (t mod Second))) as H.
    destruct (drop_zeros _); [constructor|]. rewrite bytes_of_app. apply Forall_app.
    split; [by repeat constructor | by apply digits_words].
  - by repeat constructor.
Qed.

(** What the planner writes as text it reads back as the same instant. *)
Lemma parseTime_Format t : formattable t -> parseTime (FormatRFC3339Nano t) = t.
Proof.
  intros Hf. unfold parseTime.
  assert (TrimSpace (FormatRFC3339Nano t) = FormatRFC3339Nano t) as ->.
  { apply trimmed_TrimSpace. rewrite <- string_of_bytes_of. apply word_trimmed, FormatRFC3339Nano_words. }
  rewrite time_Parse_FormatRFC3339Nano by done.
  destruct (String.eqb_spec (FormatRFC3339Nano t) "") as [E|]; [|done].
  apply time_Parse_FormatRFC3339Nano in Hf. rewrite E in Hf. by vm_compute in Hf.
Qed.

(** ** Facts: the timeline *)

Lemma later_max e item : later e item = Z.max e (parseTime (PredictedFinishAt item)).
Proof. unfold later, After. destruct (Z.ltb_spec e (parseTime (PredictedFinishAt item))); lia. Qed.

Definition finishes (l : list playlistItem) : list Z := map (fun i => parseTime (PredictedFinishAt i)) l.

Lemma fold_later l e : fold_left later l e = fold_left Z.max (finishes l) e.
Proof. revert e. induction l as [|i l IH]; intros e; simpl; [done|]. by rewrite later_max, IH. Qed.

Lemma fold_max_ge l e : e <= fold_left Z.max l e.
Proof. revert e. induction l as [|x l IH]; intros e; simpl; [lia|]. specialize (IH (Z.max e x)). lia. Qed.
Lemma fold_max_in l e x : In x l -> x <= fold_left Z.max l e.
Proof.
  revert e. induction l as [|y l IH]; intros e; simpl; [done|]. intros [->|H]; [|by apply IH].
  pose proof (fold_max_ge l (Z.max e x)). lia.
Qed.
Lemma fold_max_attained l e : fold_left Z.max l e = e \/ In (fold_left Z.max l e) l.
Proof.
  revert e. induction l as [|x l IH]; intros e; simpl; [by left|].
  destruct (IH (Z.max e x)) as [->|]; [|tauto]. destruct (Z.max_spec e x) as [[_ ->]|[_ ->]]; tauto.
Qed.

(** Everything that will play, in order. *)
Definition programme (p : feedPlanner) : list playlistItem :=
  (from_option (fun i => [i]) [] (current p) ++ queue p)%list.

Lemma timelineEnd_fold p t : timelineEnd p t = fold_left Z.max (finishes (programme p)) t.
Proof.
  unfold timelineEnd, programme. destruct (current p); simpl.
  - by rewrite fold_later, later_max.
  - apply fold_later.
Qed.

Lemma timelineEnd_snoc p item t :
  timelineEnd (set_queue (queue p ++ [item])%list p) t =
  Z.max (timelineEnd p t) (parseTime (PredictedFinishAt item)).
Proof.
  rewrite !timelineEnd_fold. unfold programme, finishes. simpl. rewrite app_assoc, map_app, fold_left_app.
  done.
Qed.

(** ** Facts: what writing and publishing leave alone *)

(** A planner without its bookkeeping of the state file. *)
Definition bare (p : feedPlanner) : feedPlanner := set_lastStateBody "" (set_lastStateWriteAt 0 p).

Lemma take_item_spec id l :
  match take_item id l with
  | Some (item, rest) => exists front back, l = (front ++ item :: back)%list /\ QueueID item = id /\
      Forall (fun i => QueueID i <> id) front /\ rest = (front ++ back)%list
  | None => Forall (fun i => QueueID i <> id) l
  end.
Proof.
  induction l as [|i l IH]; simpl; [constructor|].
  destruct (String.eqb_spec (QueueID i) id) as [E|E]; [by exists [], l|].
  destruct (take_item id l) as [[item rest]|]; [|by constructor].
  destruct IH as (front & back & -> & Hq & Hf & ->). exists (i :: front), back. auto.
Qed.

Section frames.
Context `{Env} (cfg : loadedConfig).

Lemma rename_state_frame path s t w :
  let w' := (rename_state path s t w).2 in
  reads w' = reads w /\ published w' = published w /\
  forall k, k <> path -> files w' !! k = files w !! k.
Proof.
  unfold rename_state, mbind, attempt. simpl.
  destruct (fault _); simpl.
  - destruct (fault _); simpl; (split; [done|]; split; [done|]); intros k Hk.
    + by rewrite lookup_delete_ne.
    + by rewrite lookup_insert_ne, lookup_delete_ne.
  - split; [done|]. split; [done|]. intros k Hk. by rewrite lookup_insert_ne.
Qed.

Lemma writeState_frame p w :
  let '(_, (p', w')) := writeState cfg (p, w) in
  bare p' = bare p /\ published w' = published w /\
  forall k, k <> statePath cfg p -> files w' !! k = files w !! k.
Proof.
  unfold writeState, mbind, gets, io, now, attempt, modp, modify. cbn [fst snd].
  destruct (json_state _) as [body|]; [|done]. cbn [fst snd].
  destruct (_ && _); [done|]. simpl. destruct (fault _); simpl; [done|].
  pose proof (rename_state_frame (statePath cfg p) (state_payload p) (clock (reads w))
    (MkWorld (S (reads w)) (S (attempts w)) (files w) (published w) (archive w))) as Hf.
  destruct (rename_state _ _ _ _) as [u w'] eqn:E. simpl in Hf. destruct Hf as (_ & Hp & Hk).
  split; [done|]. split; [done|]. intros k Hne. by apply Hk.
Qed.

(** Fields a state write leaves alone, one by one. *)
Lemma bare_fields p q : bare p = bare q ->
  bridge p = bridge q /\ feed p = feed q /\ mode p = mode q /\
  modeBeforePriority p = modeBeforePriority q /\ priorityActive p = priorityActive q /\
  queue p = queue q /\ current p = current q /\ cursor p = cursor q /\
  pendingAfterCurrent p = pendingAfterCurrent q /\ lastError p = lastError q.
Proof.
  intros Hb. split_and!; [apply (f_equal bridge) in Hb|apply (f_equal feed) in Hb
    |apply (f_equal mode) in Hb|apply (f_equal modeBeforePriority) in Hb
    |apply (f_equal priorityActive) in Hb|apply (f_equal queue) in Hb|apply (f_equal current) in Hb
    |apply (f_equal cursor) in Hb|apply (f_equal pendingAfterCurrent) in Hb
    |apply (f_equal lastError) in Hb]; exact Hb.
Qed.

(** A control message: the planner changes in nothing but its last error. *)
Lemma publishPlayoutControl_frame action p w :
  let '(_, (p', w')) := publishPlayoutControl action (p, w) in
  (p' = p \/ exists e, p' = set_lastError e p) /\ files w' = files w /\
  exists sent, published w' = (published w ++ sent)%list /\ (length sent <= 1)%nat /\
    (bridge p = true -> fault (attempts w) = None -> p' = p /\ sent =
       [<["timestamp" := AString (FormatRFC3339Nano (clock (reads w)))]>
          (control_message (feed_ID (feed p)) action)]).
Proof.
  unfold publishPlayoutControl, mbind, gets, io, Publish, now, attempt, modp, modify, ret. cbn [fst snd].
  destruct (bridge p); cbn [negb].
  - assert (control_message (feed_ID (feed p)) action !! "timestamp" = None) as -> by done.
    unfold mbind. cbn [fst snd reads attempts published files].
    destruct (fault (attempts w)) as [e|]; cbn [fst snd reads attempts published files].
    + split; [right; by eexists|]. split; [done|]. exists []. rewrite app_nil_r. split; [done|].
      split; [simpl; lia|]. done.
    + split; [by left|]. split; [done|]. eexists. split; [done|]. split; [simpl; lia|]. done.
  - split; [by left|]. split; [done|]. exists []. rewrite app_nil_r. split; [done|].
    split; [simpl; lia|]. done.
Qed.
End frames.

(** ** Facts: the handlers as transitions *)

(** The actions of the control messages on the bridge. *)
Definition action_of (m : obj) : string := stringAt (mapAt m "data") "action".
Definition actions (w : World) : list string := map action_of (published w).

Section transitions.
Context `{Env} (cfg : loadedConfig).

Lemma action_of_control feedID action stamp :
  action_of (<["timestamp" := stamp]> (control_message feedID action)) = TrimSpace action.
Proof. done. Qed.

(** The fields the priority events read and write. *)
Record prioView := MkPrio {
  pv_mode : string; pv_before : string; pv_active : Z; pv_programme : list playlistItem;
  pv_bridge : bool }.
Definition prio_view (p : feedPlanner) : prioView :=
  MkPrio (mode p) (modeBeforePriority p) (priorityActive p) (programme p) (bridge p).

Lemma writeState_prio p w :
  let '(_, (p', w')) := writeState cfg (p, w) in prio_view p' = prio_view p /\ actions w' = actions w.
Proof.
  pose proof (writeState_frame cfg p w) as Hf. destruct (writeState cfg (p, w)) as [u [p' w']].
  destruct Hf as (Hb & Hp & _). apply bare_fields in Hb as (? & ? & ? & ? & ? & ? & ? & _).
  unfold prio_view, programme, actions. split; [by f_equal; [..|congruence|]|congruence].
Qed.

Lemma publishPlayoutControl_prio action p w :
  (forall n, fault n = None) -> bridge p = true ->
  let '(_, (p', w')) := publishPlayoutControl action (p, w) in
  prio_view p' = prio_view p /\ actions w' = (actions w ++ [TrimSpace action])%list.
Proof.
  intros Hok Hb. pose proof (publishPlayoutControl_frame action p w) as Hf.
  destruct (publishPlayoutControl action (p, w)) as [u [p' w']].
  destruct Hf as (_ & _ & sent & Hp & _ & Hs). destruct (Hs Hb (Hok _)) as [-> ->].
  split; [done|]. unfold actions. by rewrite Hp, map_app.
Qed.

Lemma markPriorityStarted_step p w :
  (forall n, fault n = None) -> bridge p = true ->
  let '(_, (p', w')) := markPriorityStarted cfg (p, w) in
  prio_view p' = MkPrio "priority"
    (if (priorityActive p =? 0)%Z then mode p else modeBeforePriority p)
    (wrap64 (priorityActive p + 1)) (programme p) true /\
  actions w' = (actions w ++ if (priorityActive p =? 0)%Z then ["pause"] else [])%list.
Proof.
  intros Hok Hb. unfold markPriorityStarted, mbind at 1, gets. cbn [fst].
  destruct (priorityActive p =? 0)%Z eqn:E; unfold whenb.
  - unfold mbind, modp, modify. cbn [fst snd].
    pose proof (publishPlayoutControl_prio "pause" (set_modeBeforePriority (mode p) p) w Hok Hb) as Hc.
    destruct (publishPlayoutControl "pause" _) as [u [p1 w1]]. destruct Hc as [Hv Ha]. cbn [fst snd].
    pose proof (writeState_prio (set_mode "priority"
      (set_priorityActive (wrap64 (priorityActive p1 + 1)) p1)) w1) as Hw.
    destruct (writeState cfg _) as [u' [p' w']]. destruct Hw as [Hv' Ha'].
    rewrite Hv', Ha', Ha. unfold prio_view, programme in *. simpl in *. simplify_eq/=. split; [|done].
    f_equal; congruence.
  - unfold mbind, modp, modify, ret. cbn [fst snd].
    pose proof (writeState_prio (set_mode "priority"
      (set_priorityActive (wrap64 (priorityActive p + 1)) p)) w) as Hw.
    destruct (writeState cfg _) as [u' [p' w']]. destruct Hw as [Hv' Ha'].
    rewrite Hv', Ha', app_nil_r. split; [|done]. unfold prio_view, programme. simpl. by rewrite Hb.
Qed.

Lemma markPriorityCompleted_step p w :
  (forall n, fault n = None) -> bridge p = true ->
  let active := if (0 <? priorityActive p)%Z then (priorityActive p - 1)%Z else priorityActive p in
  let restored := fallbackText (modeBeforePriority p) "running" in
  let '(_, (p', w')) := markPriorityCompleted cfg (p, w) in
  prio_view p' =
    (if (active =? 0)%Z then MkPrio restored "" 0 (programme p) true
     else MkPrio (mode p) (modeBeforePriority p) active (programme p) true) /\
  actions w' = (actions w ++
    if (active =? 0)%Z && (restored =? "running") then ["resume"] else [])%list.
Proof.
  intros Hok Hb active restored. unfold markPriorityCompleted, mbind at 1, gets at 1. cbn [fst].
  set (p0 := if (0 <? priorityActive p)%Z then set_priorityActive (priorityActive p - 1) p else p).
  assert (whenb (0 <? priorityActive p)%Z (modp (set_priorityActive (priorityActive p - 1))) (p, w)
    = (tt, (p0, w))) as Hw0.
  { unfold p0. by destruct (0 <? priorityActive p)%Z. }
  unfold mbind at 1. rewrite Hw0. unfold mbind at 1, gets at 1. cbn [fst].
  assert (priorityActive p0 = active /\ modeBeforePriority p0 = modeBeforePriority p /\
    mode p0 = mode p /\ programme p0 = programme p /\ bridge p0 = true) as (Ha0 & Hm0 & Hmo0 & Hp0 & Hb0).
  { unfold p0, active. by destruct (0 <? priorityActive p)%Z. }
  rewrite Ha0. destruct (active =? 0)%Z eqn:E; unfold whenb at 1.
  - unfold mbind, modp, modify, gets. cbn [fst snd]. rewrite Hm0. fold restored.
    set (p1 := set_modeBeforePriority "" (set_mode restored p0)).
    change (mode p1) with restored. unfold whenb. cbn [andb].
    destruct (restored =? "running").
    + pose proof (publishPlayoutControl_prio "resume" p1 w Hok Hb0) as Hc.
      destruct (publishPlayoutControl "resume" _) as [u [p2 w2]]. destruct Hc as [Hv Ha].
      pose proof (writeState_prio p2 w2) as Hw. destruct (writeState cfg _) as [u' [p' w']].
      destruct Hw as [-> ->]. rewrite Hv, Ha. split; [|done]. apply Z.eqb_eq in E.
      unfold prio_view, p1, programme in *. simpl. by rewrite Ha0, Hb0, E, <- Hp0.
    + pose proof (writeState_prio p1 w) as Hw. unfold ret. destruct (writeState cfg _) as [u' [p' w']].
      destruct Hw as [-> ->]. rewrite app_nil_r. split; [|done]. apply Z.eqb_eq in E.
      unfold prio_view, p1, programme in *. simpl. by rewrite Ha0, Hb0, E, <- Hp0.
  - unfold mbind, ret. pose proof (writeState_prio p0 w) as Hw.
    destruct (writeState cfg _) as [u' [p' w']]. destruct Hw as [-> ->].
    rewrite app_nil_r. split; [|done]. unfold prio_view. congruence.
Qed.

(** Alert playout events: [true] is a start. *)
Definition priority_event (start : bool) : PM unit :=
  if start then markPriorityStarted cfg else markPriorityCompleted cfg.

(** From depth [d], the events close what is open exactly at their end. *)
Fixpoint closes (d : nat) (events : list bool) : Prop :=
  match events with
  | [] => False
  | [false] => d = 1%nat
  | true :: events' => closes (S d) events'
  | false :: events' => (2 <= d)%nat /\ closes (pred d) events'
  end.

Lemma priority_events_close events d p w before :
  (forall n, fault n = None) -> (1 <= d)%nat -> (Z.of_nat (d + length events) < max_int64)%Z ->
  closes d events ->
  prio_view p = MkPrio "priority" before (Z.of_nat d) (programme p) true ->
  let '(_, (p', w')) := for_each priority_event events (p, w) in
  prio_view p' = MkPrio (fallbackText before "running") "" 0 (programme p) true /\
  actions w' = (actions w ++
    if fallbackText before "running" =? "running" then ["resume"] else [])%list.
Proof.
  intros Hok. revert d p w. induction events as [|e events IH]; intros d p w Hd Hlen Hc Hv; [done|].
  pose proof (f_equal pv_active Hv) as Ha. pose proof (f_equal pv_before Hv) as Hbf.
  pose proof (f_equal pv_bridge Hv) as Hb. pose proof (f_equal pv_mode Hv) as Hm. simpl in Ha, Hbf, Hb, Hm.
  cbn [for_each]. unfold mbind. destruct e; cbn [priority_event].
  - pose proof (markPriorityStarted_step p w Hok Hb) as Hs.
    destruct (markPriorityStarted cfg (p, w)) as [u [p1 w1]]. destruct Hs as [Hv1 Ha1].
    rewrite Ha in Hv1, Ha1. replace (Z.of_nat d =? 0)%Z with false in * by lia.
    rewrite app_nil_r in Ha1. rewrite wrap64_id in Hv1 by (unfold int64_ok, max_int64 in *; simpl in Hlen; lia).
    pose proof (f_equal pv_programme Hv1) as Hp. simpl in Hp.
    specialize (IH (S d) p1 w1). destruct (for_each priority_event events (p1, w1)) as [u' [p' w']].
    rewrite Hp, Ha1 in IH. apply IH; [lia|simpl in Hlen; lia|by destruct events|].
    rewrite Hv1, Hbf. f_equal. lia.
  - pose proof (markPriorityCompleted_step p w Hok Hb) as Hs. rewrite Ha, Hbf, Hm in Hs.
    destruct (markPriorityCompleted cfg (p, w)) as [u [p1 w1]].
    replace (0 <? Z.of_nat d)%Z with true in Hs by lia. destruct Hs as [Hv1 Ha1].
    destruct events as [|e' events].
    + simpl in Hc. subst d. done.
    + destruct Hc as [Hd2 Hc]. replace (Z.of_nat d - 1 =? 0)%Z with false in * by lia.
      rewrite app_nil_r in Ha1. pose proof (f_equal pv_programme Hv1) as Hp. simpl in Hp.
      specialize (IH (pred d) p1 w1).
      destruct (for_each priority_event (e' :: events) (p1, w1)) as [u' [p' w']].
      rewrite Hp, Ha1 in IH. apply IH; [lia|simpl in *; lia|done|]. rewrite Hv1. f_equal. lia.
Qed.
End transitions.

Section writing.
Context `{Env} (cfg : loadedConfig).

(** The state file shows what the planner believes it last wrote. *)
Definition state_shown (p : feedPlanner) (w : World) : Prop :=
  exists s stamp m, files w !! statePath cfg p = Some (MkFile (StateFile s stamp) m) /\
    json_state s = Some (lastStateBody p).

Lemma writeState_clean p w body :
  (forall n, fault n = None) -> json_state (state_payload p) = Some body ->
  let t := clock (reads w) in
  let '(_, (p', w')) := writeState cfg (p, w) in
  if (body =? lastStateBody p) && (Sub t (lastStateWriteAt p) <? playlistStateHeartbeat)%Z
  then p' = p /\ files w' = files w
  else p' = set_lastStateWriteAt t (set_lastStateBody body p) /\
       files w' = <[statePath cfg p := MkFile (StateFile (state_payload p) (FormatRFC3339Nano t)) t]>
                    (files w).
Proof.
  intros Hok Hbody t. unfold writeState, mbind at 1, gets. cbn [fst]. rewrite Hbody.
  unfold mbind, io, now, attempt, modp, modify, rename_state, set_files. cbn [fst snd reads].
  fold t. destruct (_ && _); [done|]. unfold mbind, attempt, modify. cbn. by rewrite !Hok.
Qed.
End writing.

(** ** Properties *)

(** Prepared items are laid end to end.  An item rebased onto a planner is
    predicted to start no earlier than the end of everything on air and queued,
    nor before its target; once it is appended, the timeline ends where it
    finishes, one scheduled duration after its start. *)
Theorem rebasePreparedItem_appends (cfg : loadedConfig) (p : feedPlanner) (item : playlistItem) (t : Z) :
  let item' := rebasePreparedItem cfg p item t in
  let start := parseTime (PredictedStartAt item') in
  formattable (predictedStart t (timelineEnd p t) (parseTime (TargetStartAt item))) ->
  formattable (predictedStart t (timelineEnd p t) (parseTime (TargetStartAt item)) +
               itemScheduleDuration cfg (DurationMS item)) ->
  0 <= itemScheduleDuration cfg (DurationMS item) ->
  t <= start /\ (forall i, In i (programme p) -> parseTime (PredictedFinishAt i) <= start) /\
  (parseTime (TargetStartAt item) <> zeroTime -> parseTime (TargetStartAt item) <= start) /\
  timelineEnd (set_queue (queue p ++ [item'])%list p) t =
    start + itemScheduleDuration cfg (DurationMS item).
Proof.
  intros item' start. set (s := predictedStart _ _ _). intros Hs Hf Hd.
  assert (start = s) as -> by by apply parseTime_Format.
  assert (parseTime (PredictedFinishAt item') = s + itemScheduleDuration cfg (DurationMS item))
    as Hfin by by apply parseTime_Format.
  assert (timelineEnd p t <= s /\ t <= s) as [He Ht].
  { unfold s, predictedStart, Before.
    destruct (timelineEnd p t <? t)%Z eqn:?, (negb _); cbn [andb];
      repeat case_match; bool_hyps; lia. }
  split; [done|]. split_and!.
  - intros i Hi. etrans; [|exact He]. rewrite timelineEnd_fold. apply fold_max_in.
    exact (in_map (fun i => parseTime (PredictedFinishAt i)) _ _ Hi).
  - intros Hne. unfold s, predictedStart, Before, IsZero.
    rewrite (proj2 (Z.eqb_neq _ _) Hne). cbn [negb andb].
    destruct (timelineEnd p t <? t)%Z; case_match; bool_hyps; lia.
  - rewrite timelineEnd_snoc, Hfin. lia.
Qed.

Definition sample_item (id package finish : string) : playlistItem :=
  MkItem id "f1" "product" package "Title" "/out/f1/a.wav" 30000 "" "" "" finish "queued" "routine".

Lemma rebasePreparedItem_appends_witness :
  let p := set_queue [sample_item "a" "wx" "2024-05-01T12:00:40Z"] sample_planner in
  timelineEnd (set_queue (queue p ++ [rebasePreparedItem sample_config p (sample_item "b" "wx" "") noon])%list p) noon
  = noon + 70 * Second.
Proof.
  intros p.
  destruct (rebasePreparedItem_appends sample_config p (sample_item "b" "wx" "") noon) as (_ & _ & _ & E);
    [vm_compute; split; congruence | vm_compute; split; congruence | vm_compute; discriminate|].
  rewrite E. by vm_compute.
Defined.

(** C32: alerts nest.  From normal operation, a start event followed by events
    that close it exactly at their end returns the planner to the mode it had
    (running, when that was blank) with the same programme, having sent the
    player one pause and, when it is running again, one resume. *)
Theorem priority_events_bracket `{Env} (cfg : loadedConfig) (events : list bool) (p : feedPlanner) (w : World) :
  (forall n, fault n = None) -> bridge p = true -> priorityActive p = 0 ->
  (Z.of_nat (S (length events)) < max_int64)%Z -> closes 1 events ->
  let '(_, (p', w')) := for_each (priority_event cfg) (true :: events) (p, w) in
  mode p' = fallbackText (mode p) "running" /\ priorityActive p' = 0 /\ programme p' = programme p /\
  actions w' = (actions w ++ ["pause"] ++
    if fallbackText (mode p) "running" =? "running" then ["resume"] else [])%list.
Proof.
  intros Hok Hb Ha Hlen Hc. cbn [for_each]. unfold mbind. cbn [priority_event].
  pose proof (markPriorityStarted_step cfg p w Hok Hb) as Hs. rewrite Ha in Hs.
  destruct (markPriorityStarted cfg (p, w)) as [u [p1 w1]]. destruct Hs as [Hv1 Ha1].
  pose proof (f_equal pv_programme Hv1) as Hp. simpl in Hp.
  pose proof (priority_events_close cfg events 1 p1 w1 (mode p) Hok) as H1.
  destruct (for_each (priority_event cfg) events (p1, w1)) as [u' [p' w']].
  destruct H1 as [Hv' Ha']; [lia|lia|done|by rewrite Hv1, Hp|].
  rewrite Ha1 in Ha'. split; [exact (f_equal pv_mode Hv')|]. split; [exact (f_equal pv_active Hv')|].
  split; [rewrite <- Hp; exact (f_equal pv_programme Hv')|]. by rewrite Ha', <- app_assoc.
Qed.

Lemma priority_events_bracket_witness :
  let '(_, (p', w')) := for_each (priority_event sample_config) [true; true; false; false]
    (sample_planner, sample_world) in
  mode p' = "running" /\ priorityActive p' = 0 /\ programme p' = [] /\ actions w' = ["pause"; "resume"].
Proof.
  apply (priority_events_bracket sample_config [true; false; false] sample_planner sample_world);
    [reflexivity | reflexivity | reflexivity | reflexivity | simpl; lia].
Defined.

(** An item that starts playing moves from the queue to the air exactly
    once: when the event names the current item only its status changes;
    otherwise the first queued item with the id becomes current, the others
    keep their order; an unknown id changes nothing. *)
Theorem markStarted_moves `{Env} (cfg : loadedConfig) (id : string) (p : feedPlanner) (w : World) :
  id <> "" ->
  let '(_, (p', _)) := markStarted cfg id (p, w) in
  match current p with
  | Some c => QueueID c = id -> current p' = Some (set_Status "playing" c) /\ queue p' = queue p
  | None => True
  end /\
  ((forall c, current p = Some c -> QueueID c <> id) ->
   (exists front item back, queue p = (front ++ item :: back)%list /\ QueueID item = id /\
      Forall (fun i => QueueID i <> id) front /\
      current p' = Some (set_Status "playing" item) /\ queue p' = (front ++ back)%list) \/
   Forall (fun i => QueueID i <> id) (queue p) /\ p' = p).
Proof.
  intros Hid. unfold markStarted, mbind at 1, gets. cbn [fst].
  rewrite (proj2 (String.eqb_neq id "")) by done.
  pose proof (take_item_spec id (queue p)) as Htake.
  assert (forall f, let '(_, (p', _)) := (modp f ;;; writeState cfg) (p, w) in bare p' = bare (f p)) as Hw.
  { intros f. unfold mbind, modp, modify. cbn [fst snd].
    pose proof (writeState_frame cfg (f p) w) as Hf. destruct (writeState cfg (f p, w)) as [u [p' w']].
    by destruct Hf as [Hf _]. }
  assert (forall o, (forall c, current p = Some c -> QueueID c <> id) ->
    take_item id (queue p) = o ->
    let '(_, (p', _)) := match o with
      | Some (item, rest) => (modp (fun p => set_queue rest (set_current (Some (set_Status "playing" item)) p)) ;;;
              writeState cfg) (p, w)
      | None => ret tt (p, w) end in
   (exists front item back, queue p = (front ++ item :: back)%list /\ QueueID item = id /\
      Forall (fun i => QueueID i <> id) front /\
      current p' = Some (set_Status "playing" item) /\ queue p' = (front ++ back)%list) \/
   Forall (fun i => QueueID i <> id) (queue p) /\ p' = p) as Hmove.
  { intros o Hcur Ho. rewrite Ho in Htake. destruct o as [[item rest]|]; [|by right].
    pose proof (Hw (fun p => set_queue rest (set_current (Some (set_Status "playing" item)) p))) as Hb.
    destruct (mbind _ _ (p, w)) as [u [p' w']]. left.
    destruct Htake as (front & back & Hq & Hi & Hf & ->). exists front, item, back.
    apply bare_fields in Hb as (_ & _ & _ & _ & _ & Hqq & Hcc & _). auto. }
  destruct (current p) as [c|] eqn:Ec.
  - destruct (String.eqb_spec (QueueID c) id) as [E|E].
    + pose proof (Hw (set_current (Some (set_Status "playing" c)))) as Hb.
      destruct (mbind _ _ (p, w)) as [u [p' w']].
      apply bare_fields in Hb as (_ & _ & _ & _ & _ & Hqq & Hcc & _).
      split; [auto|]. intros Hne. by destruct (Hne c).
    + specialize (Hmove _ ltac:(intros c' [= <-]; done) eq_refl).
      destruct (take_item id (queue p)) as [[item rest]|].
      * destruct (mbind _ _ (p, w)) as [u [p' w']]. by split.
      * by split.
  - specialize (Hmove _ ltac:(intros c' [=]) eq_refl).
    destruct (take_item id (queue p)) as [[item rest]|].
    + destruct (mbind _ _ (p, w)) as [u [p' w']]. by split.
    + by split.
Qed.

(** The state file follows the planner.  When nothing fails, after a state
    write the file on disk shows the planner's current state, provided that it
    showed what the planner last wrote before. *)
Theorem writeState_shows `{Env} (cfg : loadedConfig) (p : feedPlanner) (w : World) (body : string) :
  (forall n, fault n = None) -> json_state (state_payload p) = Some body ->
  lastStateBody p <> body \/ state_shown cfg p w ->
  let '(_, (p', w')) := writeState cfg (p, w) in
  state_shown cfg p' w' /\ lastStateBody p' = body.
Proof.
  intros Hok Hbody Hinv. pose proof (writeState_clean cfg p w body Hok Hbody) as Hw.
  destruct (writeState cfg (p, w)) as [u [p' w']]. cbv zeta in Hw.
  destruct (_ && _) eqn:E in Hw; destruct Hw as [-> Hf].
  - bool_hyps. destruct Hinv as [|(s & stamp & m & Hl & Hj)]; [congruence|].
    split; [|done]. exists s, stamp, m. by rewrite Hf.
  - split; [|done]. exists (state_payload p), (FormatRFC3339Nano (clock (reads w))), (clock (reads w)).
    split; [rewrite Hf; apply lookup_insert_eq | done].
Qed.

Lemma writeState_shows_witness :
  let '(_, (p', w')) := writeState sample_config (set_lastStateBody "old" sample_planner, sample_world) in
  state_shown sample_config p' w' /\ lastStateBody p' = "".
Proof.
  apply (writeState_shows sample_config (set_lastStateBody "old" sample_planner) sample_world "");
    [reflexivity | reflexivity | left; discriminate].
Defined.


Definition full_disk : Env := {|
  clock _ := noon; fault n := if (n =? 0)%nat then None else Some "no space"; cwd := "/";
  json_manifestStatus _ := None; json_state _ := Some "{}"; random_hex _ := None |}.


(** A repeated control is acknowledged.  When nothing fails and the clock
    has passed its first seconds, any control, even one that leaves the state
    as it was, writes the state file afresh with the time of the control. *)
Theorem applyControl_acknowledged `{Env} (cfg : loadedConfig) (action : string) (p : feedPlanner) (w : World) :
  (forall n, fault n = None) -> (forall s, json_state s <> None) ->
  zeroTime + playlistStateHeartbeat <= clock (reads w) ->
  let '(_, (p', w')) := applyControl cfg action (p, w) in
  bare p' = bare (control_mode (ToLower (TrimSpace action)) p) /\
  files w' !! statePath cfg p' = Some (MkFile
    (StateFile (state_payload p') (FormatRFC3339Nano (clock (reads w)))) (clock (reads w))).
Proof.
  intros Hok Hj Ht. unfold applyControl, mbind, modp, modify. cbn [fst snd].
  set (p1 := set_lastStateWriteAt zeroTime (control_mode _ p)).
  destruct (json_state (state_payload p1)) as [body|] eqn:Hb; [|by apply Hj in Hb].
  pose proof (writeState_clean cfg p1 w body Hok Hb) as Hw.
  cbv zeta in Hw.
  assert ((Sub (clock (reads w)) (lastStateWriteAt p1) <? playlistStateHeartbeat)%Z = false) as E.
  { change (lastStateWriteAt p1) with zeroTime. unfold Sub. apply Z.ltb_ge.
    unfold max_int64, min_int64, playlistStateHeartbeat, Second, Millisecond in *. lia. }
  rewrite E in Hw.
  rewrite andb_false_r in Hw. destruct (writeState cfg (p1, w)) as [u [p' w']].
  destruct Hw as [-> ->]. split; [done|]. apply lookup_insert_eq.
Qed.

Lemma applyControl_acknowledged_witness :
  let '(_, (p', w')) := applyControl sample_config "flush_stop" (sample_planner, sample_world) in
  bare p' = bare (control_mode (ToLower (TrimSpace "flush_stop")) sample_planner) /\
  files w' !! statePath sample_config p' = Some (MkFile
    (StateFile (state_payload p') (FormatRFC3339Nano (clock 0))) (clock 0)).
Proof.
  exact (applyControl_acknowledged sample_config "flush_stop" sample_planner sample_world
    (fun _ => eq_refl) ltac:(discriminate) ltac:(vm_compute; discriminate)).
Defined.

(** An operator's pause during an alert does not survive it: the planner
    goes back to the mode it had before the alert, and tells the player to
    resume. *)
Theorem pause_during_alert_undone `{Env} (cfg : loadedConfig) (p : feedPlanner) (w : World) :
  (forall n, fault n = None) -> bridge p = true -> priorityActive p = 0 -> mode p = "running" ->
  let '(_, (p1, w1)) := markPriorityStarted cfg (p, w) in
  let '(_, (p2, w2)) := applyControl cfg "pause" (p1, w1) in
  let '(_, (p3, w3)) := markPriorityCompleted cfg (p2, w2) in
  mode p2 = "paused" /\ mode p3 = "running" /\ actions w3 = (actions w ++ ["pause"; "resume"])%list.
Proof.
  intros Hok Hb Ha Hm. pose proof (markPriorityStarted_step cfg p w Hok Hb) as Hs. rewrite Ha, Hm in Hs.
  destruct (markPriorityStarted cfg (p, w)) as [u1 [p1 w1]]. destruct Hs as [Hv1 Ha1].
  unfold applyControl, mbind at 1 2, modp, modify. cbn [fst snd].
  change (control_mode (ToLower (TrimSpace "pause"))) with (control_mode (ToLower (TrimSpace "pause"))).
  assert (ToLower (TrimSpace "pause") = "pause") as -> by by vm_compute.
  change (control_mode "pause" p1) with (set_mode "paused" p1).
  pose proof (writeState_prio cfg (set_lastStateWriteAt zeroTime (set_mode "paused" p1)) w1) as Hw.
  destruct (writeState cfg _) as [u2 [p2 w2]]. destruct Hw as [Hv2 Ha2].
  pose proof (f_equal pv_bridge Hv1) as Hb1. pose proof (f_equal pv_bridge Hv2) as Hb2.
  pose proof (f_equal pv_active Hv1) as Hac1. pose proof (f_equal pv_active Hv2) as Hac2.
  pose proof (f_equal pv_before Hv1) as Hbe1. pose proof (f_equal pv_before Hv2) as Hbe2.
  simpl in *. rewrite Hb1 in Hb2. rewrite Hac1 in Hac2. rewrite Hbe1 in Hbe2.
  pose proof (markPriorityCompleted_step cfg p2 w2 Hok Hb2) as Hc. rewrite Hac2, Hbe2 in Hc.
  destruct (markPriorityCompleted cfg (p2, w2)) as [u3 [p3 w3]].
  assert (fallbackText "running" "running" = "running") as Hfb by by vm_compute.
  rewrite Hfb in Hc. destruct Hc as [Hv3 Ha3].
  split; [exact (f_equal pv_mode Hv2)|]. split; [exact (f_equal pv_mode Hv3)|].
  rewrite Ha3, Ha2, Ha1. by rewrite <- app_assoc.
Qed.

Lemma pause_during_alert_undone_witness :
  let '(_, (p1, w1)) := markPriorityStarted sample_config (sample_planner, sample_world) in
  let '(_, (p2, w2)) := applyControl sample_config "pause" (p1, w1) in
  let '(_, (p3, w3)) := markPriorityCompleted sample_config (p2, w2) in
  mode p2 = "paused" /\ mode p3 = "running" /\ actions w3 = ["pause"; "resume"].
Proof. apply (pause_during_alert_undone sample_config sample_planner sample_world); reflexivity. Defined.

Lemma markStarted_moves_witness :
  let p := set_queue [sample_item "a" "wx" ""; sample_item "b" "wx" ""] sample_planner in
  let '(_, (p', _)) := markStarted sample_config "b" (p, sample_world) in
  exists front item back, queue p = (front ++ item :: back)%list /\ QueueID item = "b" /\
      Forall (fun i => QueueID i <> "b") front /\
      current p' = Some (set_Status "playing" item) /\ queue p' = (front ++ back)%list.
Proof.
  intros p. pose proof (markStarted_moves sample_config "b" p sample_world ltac:(discriminate)) as H.
  destruct (markStarted sample_config "b" (p, sample_world)) as [u [p' w']].
  destruct H as [_ H]. destruct H as [H|[H _]]; [discriminate|exact H|].
  exfalso. inversion H as [|? ? _ H']. inversion H' as [|? ? Hb]. by apply Hb.
Defined.

(** A withdrawn alert is off the programme.  Invalidating routine alerts
    leaves no alerts package in the queue and keeps the other items in order;
    with [stopCurrent] the item on air is not one either, and otherwise it is
    not touched. *)
Theorem invalidateRoutineAlerts_clears `{Env} (cfg : loadedConfig) (stop : bool) (p : feedPlanner) (w : World) :
  let '(_, (p', _)) := invalidateRoutineAlerts cfg stop (p, w) in
  queue p' = List.filter (fun i => negb (is_alerts_item i)) (queue p) /\
  (forall i, In i (queue p') -> is_alerts_item i = false) /\
  current p' = (if stop && from_option is_alerts_item false (current p) then None else current p) /\
  (stop = true -> from_option is_alerts_item false (current p') = false).
Proof.
  assert (forall b (q : feedPlanner) v, let '(_, (p', _)) := whenb b (writeState cfg) (q, v) in
    queue p' = queue q /\ current p' = current q) as Hw.
  { intros b q v. destruct b; [|done]. simpl. pose proof (writeState_frame cfg q v) as Hf.
    destruct (writeState cfg (q, v)) as [u [p' w']]. destruct Hf as [Hb _].
    apply bare_fields in Hb as (_ & _ & _ & _ & _ & ? & ? & _). done. }
  unfold invalidateRoutineAlerts, mbind at 1, gets. cbn [fst].
  unfold mbind, modp, modify. cbn [fst snd].
  set (q := set_queue (List.filter _ (queue p)) p).
  assert (forall i, In i (queue q) -> is_alerts_item i = false) as Hclear.
  { intros i Hi. unfold q in Hi. simpl in Hi. apply filter_In in Hi as [_ Hi]. by bool_hyps. }
  destruct (stop && from_option is_alerts_item false (current p)) eqn:E.
  - cbn [fst snd]. pose proof (publishPlayoutControl_frame "flush_restart" (set_current None q) w) as Hc.
    destruct (publishPlayoutControl "flush_restart" _) as [u [p1 w1]].
    destruct Hc as (Hp1 & _). assert (queue p1 = queue q /\ current p1 = None) as [Hq1 Hc1].
    { destruct Hp1 as [->|[e ->]]; done. }
    unfold ret. specialize (Hw true p1 w1). destruct (whenb true _ _) as [u' [p' w']].
    destruct Hw as [Hq Hc]. split_and!; [by rewrite Hq, Hq1| |by rewrite Hc|].
    + rewrite Hq, Hq1. exact Hclear.
    + intros _. by rewrite Hc, Hc1.
  - unfold ret. specialize (Hw (existsb is_alerts_item (queue p)) q w).
    destruct (whenb _ _ _) as [u' [p' w']]. destruct Hw as [Hq Hc].
    split_and!; [done| |done|].
    + by rewrite Hq.
    + intros ->. rewrite Hc. exact E.
Qed.

Lemma invalidateRoutineAlerts_clears_witness :
  let p := set_current (Some (sample_item "a" " Alerts" "")) sample_planner in
  let '(_, (p', _)) := invalidateRoutineAlerts sample_config true (p, sample_world) in
  from_option is_alerts_item false (current p') = false.
Proof.
  intros p. pose proof (invalidateRoutineAlerts_clears sample_config true p sample_world) as H.
  destruct (invalidateRoutineAlerts sample_config true (p, sample_world)) as [u [p' w']].
  destruct H as (_ & _ & _ & H). exact (H eq_refl).
Defined.
