(* ===== verification/AlertCommit.v ===== *)
(** Putting a prepared alert on the queue
    ([services/go/internal/playlist/service.go] and [audio.go]): atomic file
    replacement, the queue manifest, the packet announced with it, and the
    acknowledgement of automation dispatches. *)

From S2P Require Import Prelude UnicodeTables GoStrings GoTime GoValue GoPath AlertPacket.
From S2P Require Import PlaylistModel World AlertRequest AudioRetention PlannerState.

#[local] Open Scope Z_scope.
#[local] Open Scope string_scope.
#[local] Open Scope haze_scope.

Section commit.
Context `{JSON} `{Env} (cfg : loadedConfig).

(** ** Files *)

(** [queueID]: unique by the clock and random bytes. *)
Definition queueID (prefix : string) : M World string := fun w =>
  match random_hex (reads w) with
  | None => let '(t, w) := now w in (safeID (prefix +:+ "-" +:+ Itoa t), w)
  | Some hex => let '(t, w) := now w in (safeID (prefix +:+ "-" +:+ Itoa t +:+ "-" +:+ hex), w)
  end.

(** [os.Rename] of a file that is there. *)
Definition move (source target : string) (fs : gmap string File) : gmap string File :=
  match fs !! source with
  | Some f => <[target := f]> (delete source fs)
  | None => fs
  end.
Definition Rename (source target : string) : M World (option string) :=
  let! err := attempt in
  match err with
  | Some e => ret (Some e)
  | None => set_files (move source target) ;;; ret None
  end.

Definition exists_file (path : string) : M World bool :=
  gets (fun w => match files w !! path with Some _ => true | None => false end).

Definition not_found (path : string) : string := "stat " +:+ path +:+ ": no such file or directory".

Definition replaceFileAtomically (sourcePath targetPath : string) : M World (option string) :=
  let! there := exists_file sourcePath in
  if negb there then ret (Some (not_found sourcePath))
  else
    let! firstErr := Rename sourcePath targetPath in
    match firstErr with
    | None => ret None
    | Some firstErr =>
        let! there := exists_file targetPath in
        if negb there then ret (Some firstErr)
        else
          let! q := queueID "replace" in
          let backupPath := targetPath +:+ "." +:+ q +:+ ".bak" in
          let! err := Rename targetPath backupPath in
          match err with
          | Some e => ret (Some e)
          | None =>
              let! err := Rename sourcePath targetPath in
              match err with
              | Some e => Rename backupPath targetPath ;;; ret (Some e)
              | None => remove_file backupPath ;;; ret None
              end
          end
    end.

Definition writePriorityAlertManifest (path : string) (manifest : priorityAlertManifest) :
    M World (option string) :=
  (* the directory and the encoder *)
  let! err := attempt in
  match err with
  | Some e => ret (Some e)
  | None =>
      let! q := queueID "manifest" in
      let tmp := path +:+ "." +:+ q +:+ ".tmp" in
      let! err := attempt in
      match err with
      | Some e => ret (Some e)
      | None =>
          let! t := gets (fun w => clock (pred (reads w))) in
          set_files (insert tmp (MkFile (ManifestFile manifest) t)) ;;;
          let! err := replaceFileAtomically tmp path in
          match err with
          | Some e => remove_file tmp ;;; ret (Some e)
          | None => ret None
          end
      end
  end.

Definition installPreparedAlertAudio (sourcePath targetPath : string) : M World (option string) :=
  if (TrimSpace sourcePath =? "") || (TrimSpace targetPath =? "") then
    ret (Some "prepared alert audio path is missing")
  else
    let! err := attempt in
    match err with
    | Some e => ret (Some e)
    | None => replaceFileAtomically sourcePath targetPath
    end.

(** ** The announcement *)

Definition zeroAudio : Audio := MkAudio "" "" "" "" false "" "" 0 0 0 "".
(** [&alertmodel.SAME{Include: true}]. *)
Definition includedSAME : SAME :=
  MkSAME true "" "" "" "" "" "" "" "" "" "" "" [] "" "" "" "" "" "" "" "".

Definition manifest_SAME (s : SAME) (m : priorityAlertManifest) (sameHeader : string) : SAME :=
  MkSAME (Include s) (SuppressedReason s) (fallbackText (SameEvent s) (man_Event m))
    (SameEventName s) (EventSource s) (EventReason s) (EventConfidence s) (AlertClass s)
    (Phenomenon s) (Originator s) (OriginatorName s) (WeatherService s) (SameLocations s)
    (Duration s) (SameSentAt s) (BeginsAt s) (SameExpiresAt s) (Tone s) (Callsign s)
    (fallbackText (Header s) sameHeader) (Translation s).

Definition manifest_Audio (a : Audio) (m : priorityAlertManifest) : Audio :=
  MkAudio (fallbackText (URL a) (man_AuthoritativeURL m)) (MimeType a) (Language a)
    (AudioDescription a) (Authoritative a || negb (man_AuthoritativeURL m =? ""))
    (man_AudioPath m) (man_Format m) (man_SampleRate m) (man_Channels m) (man_AudioBytes m)
    (man_Source m).

Definition alertPacketForManifest (p : feedPlanner) (data : obj) (m : priorityAlertManifest)
    (alertText sameHeader : string) : Packet :=
  let packet :=
    match FromMap (Some data) with
    | (packet, true) => packet
    | (_, false) => LegacyFromMap (Some data)
    end in
  let c := PContent packet in
  let t := PTiming packet in
  let same :=
    match PSAME packet with
    | None => if man_Priority m =? "same" then Some includedSAME else None
    | Some s => Some s
    end in
  Normalize (MkPacket (Version packet) (fallbackText (ID packet) (man_AlertID m)) (Source packet)
    (feed_ID (feed p)) [feed_ID (feed p)] (fallbackText (MessageType packet) (man_MessageType m))
    (MkContent (fallbackText (Title c) (man_Header m)) (Headline c)
       (fallbackText (Event c) (man_Event m)) (EventName c) (Severity c) (Urgency c) (Certainty c)
       (Description c) (Instruction c) (CustomText c) (BackgroundColor c))
    (MkTiming (fallbackText (SentAt t) (man_AlertSentAt m)) (EffectiveAt t) (OnsetAt t)
       (fallbackText (ExpiresAt t) (man_AlertExpiresAt m)) (ScheduledFor t))
    (PAreas packet) (Storm packet) ((fun s => manifest_SAME s m sameHeader) <$> same)
    (Some (manifest_Audio (default zeroAudio (PAudio packet)) m))
    (MkOptions (BroadcastImmediate (POptions packet) || man_BroadcastImmediate m)
       (PrependSAMETranslation (POptions packet)))
    (MkPresentation (TrimSpace alertText) (TrimSpace (man_BannerText m))) (Meta packet)).

(** A field copied from the request: [key: firstText(nil, data, key)]. *)
Definition copied (data : obj) (key : string) : string * any := (key, AString (firstText ∅ data [key])).

Definition ready_base (p : feedPlanner) (m : priorityAlertManifest) (data : obj)
    (alertText sameHeader : string) : obj :=
  let text keys := firstText ∅ data keys in
  message (
    [("feed_id", AString (feed_ID (feed p))); ("alert_id", AString (man_AlertID m));
     ("queue_id", AString (man_ID m)); ("manifest_id", AString (man_ID m));
     ("audio_path", AString (man_AudioPath m)); ("audio_format", AString (man_Format m));
     ("sample_rate", AInt (man_SampleRate m)); ("channels", AInt (man_Channels m));
     ("audio_bytes", AInt (man_AudioBytes m)); ("source", AString (man_Source m));
     ("priority", AString (man_Priority m)); ("message_type", AString (man_MessageType m));
     ("alert_sent_at", AString (man_AlertSentAt m));
     ("alert_expires_at", AString (man_AlertExpiresAt m));
     ("broadcast_immediate", ABool (man_BroadcastImmediate m));
     ("authoritative_url", AString (man_AuthoritativeURL m));
     ("title", AString (fallbackText (text ["headline"; "title"; "header"]) (man_Header m)));
     ("header", AString (man_Header m));
     ("event", AString (fallbackText (text ["same_event"; "event"]) (man_Event m)));
     ("alert_text", AString (fallbackText alertText (text ["alert_text"; "tts_text"; "text"; "message"])));
     ("banner_text", AString (fallbackText (man_BannerText m) (text ["banner_text"])));
     ("same_header", AString sameHeader)] ++
    map (copied data) ["description"; "instruction"; "severity"; "urgency"; "certainty";
      "same_event"; "same_event_name"; "same_originator"; "same_originator_name";
      "same_weather_service"; "same_duration"; "same_sent_at"; "same_begins_at";
      "same_expires_at"; "same_tone"; "background_color"])%list.

Definition ready_payload (p : feedPlanner) (m : priorityAlertManifest) (data : obj)
    (alertText sameHeader : string) : obj :=
  let payload := WithLegacyFields (alertPacketForManifest p data m alertText sameHeader)
    (ready_base p m data alertText sameHeader) in
  let locations := stringListAny (firstValue ∅ data ["same_locations"; "locations"]) in
  if (0 <? length locations)%nat then <["same_locations" := AStrings locations]> payload else payload.

Definition publishAlertAudioReady (m : priorityAlertManifest) (data : obj)
    (alertText sameHeader : string) : PM unit :=
  let! p := gets fst in
  if negb (bridge p) then ret tt
  else
    io (Publish (message [("type", AString "cap.alert.audio.ready"); ("source", AString serviceID);
      ("feed_id", AString (feed_ID (feed p))); ("subject", AString (man_AlertID m));
      ("data", AMap (ready_payload p m data alertText sameHeader))])) ;;; ret tt.

Definition publishAutomationDispatchStatus (data : obj) (status errorText : string) : PM unit :=
  let! p := gets fst in
  let dispatchKey := firstText ∅ data ["dispatch_key"] in
  let status := ToLower (TrimSpace status) in
  if negb (bridge p) || (dispatchKey =? "") then ret tt
  else if negb (mem status ["accepted"; "completed"; "failed"]) then ret tt
  else
    let statusData := message [("dispatch_key", AString dispatchKey); copied data "automation_id";
      ("feed_id", AString (feed_ID (feed p))); copied data "scheduled_for"; copied data "alert_id"] in
    let statusData :=
      if negb (TrimSpace errorText =? "")
      then <["error" := AString (TrimSpace errorText)]> statusData else statusData in
    io (Publish (message [("type", AString ("automation.dispatch." +:+ status));
      ("source", AString serviceID); ("subject", AString dispatchKey);
      ("data", AMap statusData)])) ;;; ret tt.

(** ** Commit and discard *)

Definition commitPriorityAlert (prepared : priorityAlertPreparation) : PM (option string) :=
  let! p := gets fst in
  let manifest := Manifest prepared in
  io (cleanupSupersededAlertQueueParts (BaseDir cfg) (feed_ID (feed p)) (man_AlertID manifest)
        (man_ID manifest)) ;;;
  let! err := io (installPreparedAlertAudio (prep_AudioPath prepared) (FinalAudioPath prepared)) in
  match err with
  | Some e => ret (Some e)
  | None =>
      let! err := io (writePriorityAlertManifest
        (alertManifestPath (BaseDir cfg) (man_ID manifest)) manifest) in
      match err with
      | Some e => io (remove_file (FinalAudioPath prepared)) ;;; ret (Some e)
      | None =>
          publishAlertAudioReady manifest (Data prepared) (AlertText prepared) (SAMEHeader prepared) ;;;
          publishAutomationDispatchStatus (Data prepared) "completed" "" ;;; ret None
      end
  end.

Definition discardPriorityAlertPreparation (prepared : priorityAlertPreparation) : M World unit :=
  if TrimSpace (prep_AudioPath prepared) =? "" then ret tt
  else for_each remove_file [prep_AudioPath prepared; prep_AudioPath prepared +:+ ".tmp";
         prep_AudioPath prepared +:+ ".voice"].

(** The temporary files of routine work: only generated files of the planner
    below the output directory are removed. *)
Definition discard_item (root : string) (item : playlistItem) : M World unit :=
  let path := TrimSpace (AudioPath item) in
  if (path =? "") || (TrimSpace (QueueID item) =? "") then ret tt
  else if negb (HasPrefix (Base path) (safeID (QueueID item))) then ret tt
  else
    let absolute := Abs cwd path in
    match Rel root absolute with
    | None => ret tt
    | Some relative =>
        if (relative =? "..") || HasPrefix relative "../" then ret tt else remove_file absolute
    end.

(** [discardRoutinePreparation]; [planner] says whether it came with one. *)
Definition discardRoutinePreparation (planner : bool) (items : list playlistItem) : M World unit :=
  if negb planner || (TrimSpace (OutputDir cfg) =? "") then ret tt
  else for_each (discard_item (Abs cwd (OutputDir cfg))) items.

End commit.

(** ** Facts: file replacement *)

Definition ends_with (suffix path : string) : Prop := exists front, path = front +:+ suffix.

Section replacement.
Context `{Env}.

Lemma queueID_frame prefix w :
  let '(_, w') := queueID prefix w in
  files w' = files w /\ published w' = published w /\ attempts w' = attempts w.
Proof. unfold queueID, now. by destruct (random_hex (reads w)). Qed.

Lemma Rename_spec s t w :
  let '(err, w') := Rename s t w in
  published w' = published w /\
  files w' = match err with None => move s t (files w) | Some _ => files w end.
Proof. unfold Rename, mbind, attempt. by destruct (fault (attempts w)). Qed.

Lemma move_target s t fs f : fs !! s = Some f -> move s t fs !! t = Some f.
Proof. intros Hf. unfold move. rewrite Hf. apply lookup_insert_eq. Qed.
Lemma move_other s t fs k : k <> s -> k <> t -> move s t fs !! k = fs !! k.
Proof.
  intros Hs Ht. unfold move. destruct (fs !! s); [|done].
  by rewrite lookup_insert_ne, lookup_delete_ne.
Qed.
Lemma move_source s t fs f : fs !! s = Some f -> s <> t -> move s t fs !! s = None.
Proof. intros Hf Hne. unfold move. rewrite Hf, lookup_insert_ne by done. apply lookup_delete_eq. Qed.

Lemma backup_differs t q k : ~ ends_with ".bak" k -> k <> t +:+ "." +:+ q +:+ ".bak".
Proof.
  intros Hk ->. apply Hk. exists (t +:+ "." +:+ q). by rewrite !string_app_assoc.
Qed.

(** Every outcome of a replacement. *)
Inductive replaced (s t : string) (fs fs' : gmap string File) : option string -> Prop :=
| replaced_done f : fs !! s = Some f -> fs' !! t = Some f ->
    (forall k, k <> s -> k <> t -> ~ ends_with ".bak" k -> fs' !! k = fs !! k) ->
    replaced s t fs fs' None
| replaced_same e : fs' = fs -> replaced s t fs fs' (Some e)
| replaced_restored e : fs' !! t = fs !! t -> fs' !! s = fs !! s ->
    (forall k, k <> s -> k <> t -> ~ ends_with ".bak" k -> fs' !! k = fs !! k) ->
    replaced s t fs fs' (Some e)
| replaced_backed_up e backup : fs' !! backup = fs !! t -> fs' !! s = fs !! s ->
    (forall k, k <> s -> k <> t -> ~ ends_with ".bak" k -> fs' !! k = fs !! k) ->
    replaced s t fs fs' (Some e).

Lemma replaceFileAtomically_spec s t w :
  s <> t -> ~ ends_with ".bak" s -> ~ ends_with ".bak" t ->
  let '(err, w') := replaceFileAtomically s t w in
  published w' = published w /\ replaced s t (files w) (files w') err.
Proof.
  intros Hst Hs Ht. unfold replaceFileAtomically, mbind at 1, exists_file, gets.
  destruct (files w !! s) as [f|] eqn:Ef; cbn [negb]; [|split; [done|by constructor]].
  unfold mbind at 1. pose proof (Rename_spec s t w) as H1.
  destruct (Rename s t w) as [[e1|] w1]; destruct H1 as [Hp1 Hf1].
  2: { split; [done|]. eapply replaced_done; [done|rewrite Hf1; by apply move_target|].
       intros k ? ? _. rewrite Hf1. by apply move_other. }
  unfold mbind at 1. destruct (files w1 !! t) as [g|] eqn:Eg; cbn [negb];
    [|split; [done|by constructor]].
  unfold mbind at 1. pose proof (queueID_frame "replace" w1) as Hq.
  destruct (queueID "replace" w1) as [q w2]. destruct Hq as (Hfq & Hpq & _).
  set (backup := t +:+ "." +:+ q +:+ ".bak").
  assert (backup <> s /\ backup <> t) as [Hbs Hbt].
  { split; apply not_eq_sym; by apply backup_differs. }
  unfold mbind at 1. pose proof (Rename_spec t backup w2) as H3.
  destruct (Rename t backup w2) as [[e3|] w3]; destruct H3 as [Hp3 Hf3].
  { split; [congruence|]. apply replaced_same. congruence. }
  assert (files w2 = files w) as Hw2 by congruence. rewrite Hw2 in Hf3.
  rewrite Hf1 in Eg. unfold mbind at 1. pose proof (Rename_spec s t w3) as H4.
  destruct (Rename s t w3) as [[e4|] w4]; destruct H4 as [Hp4 Hf4].
  - unfold mbind at 1. pose proof (Rename_spec backup t w4) as H5.
    assert (files w4 !! backup = Some g) as Hb4.
    { rewrite Hf4, Hf3. by apply move_target. }
    assert (files w4 !! s = files w !! s) as Hs4.
    { rewrite Hf4, Hf3. apply move_other; [done|by apply not_eq_sym]. }
    assert (forall k, k <> s -> k <> t -> ~ ends_with ".bak" k -> files w4 !! k = files w !! k) as Hk4.
    { intros k _ ? Hk. rewrite Hf4, Hf3. apply move_other; [done|by apply backup_differs]. }
    destruct (Rename backup t w4) as [[e5|] w5]; destruct H5 as [Hp5 Hf5];
      (split; [cbn; congruence|]); cbn [snd].
    + apply replaced_backed_up with backup; rewrite Hf5; [congruence|done|done].
    + apply replaced_restored; rewrite Hf5.
      * rewrite (move_target _ _ _ g) by done. congruence.
      * by rewrite move_other by by apply not_eq_sym.
      * intros k ? ? Hk. rewrite move_other; [by apply Hk4|by apply backup_differs|done].
  - unfold mbind, remove_file, set_files, modify, ret. cbn [published files].
    assert (files w3 !! s = Some f) as Hs3.
    { rewrite Hf3. rewrite move_other; [done|done|by apply not_eq_sym]. }
    split; [congruence|]. apply replaced_done with f; [done| |].
    + rewrite lookup_delete_ne by done. rewrite Hf4. by apply move_target.
    + intros k ? ? Hk. pose proof (backup_differs t q k Hk).
      rewrite lookup_delete_ne by (by apply not_eq_sym). rewrite Hf4, move_other by done.
      rewrite Hf3. by apply move_other.
Qed.
End replacement.

Lemma ends_with_clash a b sa sb k :
  head (bytes_of (string_rev sa)) = Some a -> head (bytes_of (string_rev sb)) = Some b -> a <> b ->
  ends_with sa k -> ends_with sb k -> False.
Proof.
  intros Ha Hb Hne [x ->] [y E]. apply (f_equal string_rev) in E. rewrite !string_rev_app in E.
  apply (f_equal (fun s => head (bytes_of s))) in E. rewrite !bytes_of_app in E.
  destruct (bytes_of (string_rev sa)), (bytes_of (string_rev sb)); simpl in *; congruence.
Qed.

(** Paths with different last letters in their extensions. *)
Ltac ends_clash :=
  match goal with
  | H1 : ends_with ?a ?k, H2 : ends_with ?b ?k |- _ =>
      exfalso; refine (ends_with_clash _ _ a b k eq_refl eq_refl _ H1 H2); discriminate
  end.

Section queue_paths.
Context `{Env}.

Lemma alert_path_ends dir id ext b : safe_id id -> (2 < String.length ext)%nat ->
  ~ In slash (bytes_of ext) -> ends_with ext (JoinPath [b; "runtime"; dir; "alerts"; id +:+ ext]).
Proof.
  intros Hid Hlen Hext. destruct (safe_id_plain id ext Hid Hlen Hext) as [Hp Hd].
  change [b; "runtime"; dir; "alerts"; id +:+ ext]
    with ([b; "runtime"; dir; "alerts"] ++ [id +:+ ext])%list.
  destruct (JoinPath_suffix [b; "runtime"; dir; "alerts"] (id +:+ ext)) as [front ->]; [|done|done|].
  - change [b; "runtime"; dir; "alerts"] with ([b] ++ ["runtime"] ++ [dir; "alerts"])%list.
    rewrite !list.filter_app. simpl. by destruct (base.filter _ [b]).
  - exists (front +:+ id). by rewrite string_app_assoc.
Qed.

Lemma manifest_path_ends b id : safe_id id -> ends_with ".json" (alertManifestPath b id).
Proof. intros Hid. apply alert_path_ends; [done|simpl; lia|apply slash_json]. Qed.
Lemma audio_path_ends b id : safe_id id -> ends_with ".pcm16le" (alertAudioPath b id).
Proof. intros Hid. apply alert_path_ends; [done|simpl; lia|apply slash_pcm]. Qed.

Lemma writePriorityAlertManifest_spec b id m w audio : safe_id id ->
  ends_with ".pcm16le" audio ->
  let path := alertManifestPath b id in
  let '(err, w') := writePriorityAlertManifest path m w in
  published w' = published w /\ (files w' !! audio : option File) = files w !! audio /\
  (err = None -> exists t, files w' !! path = Some (MkFile (ManifestFile m) t)).
Proof.
  intros Hid Ha path. pose proof (manifest_path_ends b id Hid) as Hend. fold path in Hend.
  unfold writePriorityAlertManifest, mbind at 1, attempt.
  destruct (fault (attempts w)) as [e|]; [done|]. cbn [fst snd].
  unfold mbind at 1. pose proof (queueID_frame "manifest"
    (MkWorld (reads w) (S (attempts w)) (files w) (published w) (archive w))) as Hq.
  destruct (queueID "manifest" _) as [q w1]. destruct Hq as (Hf1 & Hp1 & _).
  unfold mbind at 1, attempt. simpl in Hf1, Hp1. set (tmp := path +:+ "." +:+ q +:+ ".tmp").
  assert (ends_with ".tmp" tmp) as Htmp.
  { exists (path +:+ "." +:+ q). unfold tmp. by rewrite !string_app_assoc. }
  destruct (fault (attempts w1)) as [e|]; [cbn; by rewrite Hf1, Hp1|].
  unfold mbind at 1, gets. cbn [fst snd reads]. unfold mbind at 1, set_files, modify. cbn [reads attempts files published].
  set (t := clock _). set (w2 := MkWorld (reads w1) _ _ _ _).
  assert (tmp <> path) as Htp by (intros E; rewrite E in Htmp; ends_clash).
  pose proof (replaceFileAtomically_spec tmp path w2 Htp) as Hr. unfold mbind at 1.
  assert (audio <> tmp) as Hat by (intros ->; ends_clash).
  assert (audio <> path) as Hap by (intros ->; ends_clash).
  assert (~ ends_with ".bak" audio) as Hab by (intros ?; ends_clash).
  destruct (replaceFileAtomically tmp path w2) as [err w3].
  destruct Hr as [Hp3 Hr]; [intros ?; ends_clash|intros ?; ends_clash|].
  assert (files w2 !! audio = files w !! audio) as Ha2.
  { unfold w2. cbn [files]. rewrite lookup_insert_ne by done. by rewrite Hf1. }
  assert (files w3 !! audio = files w !! audio) as Ha3.
  { rewrite <- Ha2. inversion Hr as [? ? ? Hk|? Hs|? ? ? Hk|? ? ? ? Hk]; subst;
      [by apply Hk|congruence|by apply Hk|by apply Hk]. }
  assert (published w3 = published w) as Hpw by (rewrite Hp3; exact Hp1).
  destruct err as [e|].
  - cbn. rewrite lookup_delete_ne by done. done.
  - cbn. split; [done|]. split; [done|]. intros _. inversion Hr as [f Hf Hf' _|?|?|?]; subst.
    exists t. rewrite Hf'. rewrite <- Hf. unfold w2. cbn [files]. apply lookup_insert_eq.
Qed.
End queue_paths.

(** ** Facts: relative paths *)

Lemma diverge_spec b t :
  let '(b', t') := diverge b t in exists front, b = (front ++ b')%list /\ t = (front ++ t')%list.
Proof.
  revert t. induction b as [|x b IH]; intros [|y t]; simpl; try by exists [].
  destruct (String.eqb_spec x y) as [->|]; [|by exists []].
  specialize (IH t). destruct (diverge b t) as [b' t']. destruct IH as (front & -> & ->).
  by exists (y :: front).
Qed.

(** A target whose relative path does not climb lies below the base. *)
Lemma Rel_below basepath targpath relative :
  Rel basepath targpath = Some relative -> IsAbs (Clean basepath) = true ->
  (relative =? "..") || HasPrefix relative "../" = false ->
  exists rest, components (Clean targpath) = (components (Clean basepath) ++ rest)%list.
Proof.
  unfold Rel. intros Hr Habs Hup. destruct (String.eqb_spec (Clean basepath) (Clean targpath)) as [->|Hne].
  { exists []. by rewrite app_nil_r. }
  destruct (Bool.eqb _ _); [|done].
  destruct (String.eqb_spec (Clean basepath) ".") as [E|_]; [by rewrite E in Habs|].
  pose proof (diverge_spec (components (Clean basepath)) (components (Clean targpath))) as Hd.
  destruct (diverge _ _) as [base' targ']. destruct Hd as (front & -> & ->).
  destruct base' as [|b base']; [exists targ'; by rewrite app_nil_r|]. exfalso.
  simpl in Hr. destruct (b =? ".."); [done|]. injection Hr as <-.
  destruct (map (fun _ => "..") base' ++ targ')%list as [|c l]; [discriminate|].
  apply orb_false_iff in Hup as [_ Hup].
  pose proof (HasPrefix_refl_app "../" (Join (c :: l) "/")) as E.
  exact (eq_true_false_abs _ E Hup).
Qed.

(** ** Properties *)

(** What preparing an alert guarantees of its paths. *)
Definition prepared_paths (cfg : loadedConfig) (prepared : priorityAlertPreparation) : Prop :=
  safe_id (man_ID (Manifest prepared)) /\
  FinalAudioPath prepared = alertAudioPath (BaseDir cfg) (man_ID (Manifest prepared)) /\
  ends_with ".tmp" (prep_AudioPath prepared).

Lemma Publish_files `{Env} m w : files (Publish m w).2 = files w.
Proof.
  unfold Publish, mbind, now, attempt, modify, ret.
  destruct (m !! "timestamp"); cbn; by destruct (fault _).
Qed.

Lemma publishAlertAudioReady_files `{JSON} `{Env} m data text header p w :
  let '(_, (p', w')) := publishAlertAudioReady m data text header (p, w) in
  p' = p /\ files w' = files w.
Proof.
  unfold publishAlertAudioReady, mbind, gets, io, ret. cbn [fst snd].
  destruct (negb (bridge p)); [done|].
  cbn [fst snd]. match goal with |- context [Publish ?msg w] => pose proof (Publish_files msg w) as Hf;
    destruct (Publish msg w) as [e w'] end. done.
Qed.

Lemma publishAutomationDispatchStatus_files `{JSON} `{Env} data status error p w :
  let '(_, (p', w')) := publishAutomationDispatchStatus data status error (p, w) in
  p' = p /\ files w' = files w.
Proof.
  unfold publishAutomationDispatchStatus, mbind, gets, io, ret. cbn [fst snd].
  destruct (_ || _); [done|]. destruct (negb _); [done|].
  cbn [fst snd]. match goal with |- context [Publish ?msg w] => pose proof (Publish_files msg w) as Hf;
    destruct (Publish msg w) as [e w'] end. done.
Qed.

(** A cleanup sends nothing and leaves temporary files alone. *)
Lemma cleanup_keeps_temporary `{Env} b keep feedID alertID path w : ends_with ".tmp" path ->
  let w' := (cleanupSupersededAlertQueueParts b feedID alertID keep w).2 in
  published w' = published w /\ files w' !! path = files w !! path.
Proof.
  intros Hend. unfold cleanupSupersededAlertQueueParts.
  apply (for_each_ind (fun w' => published w' = published w /\ files w' !! path = files w !! path)); [done|].
  intros id w' Hin [<- <-]. apply supersededIDs_safe in Hin.
  destruct (cleanup_entry_files b keep id w') as (_ & _ & -> & ->). split; [done|].
  destruct (_ || _); [done|]. pose proof (manifest_path_ends b id Hin) as Hm.
  pose proof (audio_path_ends b id Hin) as Ha.
  rewrite !lookup_delete_ne; [done| |]; intros E; rewrite E in *; ends_clash.
Qed.

(** Committing: on success the manifest is on the queue and the prepared audio has
    become the alert's audio. *)
Lemma commit_outcome `{JSON} `{Env} (cfg : loadedConfig) (prepared : priorityAlertPreparation)
    (p : feedPlanner) (w : World) :
  prepared_paths cfg prepared ->
  let '(err, (p', w')) := commitPriorityAlert cfg prepared (p, w) in
  p' = p /\
  match err with
  | None =>
      (exists t, files w' !! alertManifestPath (BaseDir cfg) (man_ID (Manifest prepared)) =
         Some (MkFile (ManifestFile (Manifest prepared)) t)) /\
      (exists f, files w !! prep_AudioPath prepared = Some f /\ files w' !! FinalAudioPath prepared = Some f)
  | Some _ => published w' = published w
  end.
Proof.
  intros (Hid & Hfinal & Htmp). pose proof (audio_path_ends (BaseDir cfg) _ Hid) as Haudio.
  rewrite <- Hfinal in Haudio.
  unfold commitPriorityAlert, mbind at 1, gets. cbn [fst]. unfold mbind at 1, io at 1. cbn [fst snd].
  pose proof (cleanup_keeps_temporary (BaseDir cfg) (man_ID (Manifest prepared)) (feed_ID (feed p))
    (man_AlertID (Manifest prepared)) (prep_AudioPath prepared) w Htmp) as [Hpub Hkeep].
  destruct (cleanupSupersededAlertQueueParts _ _ _ _ w) as [u w1]. cbn [snd] in *.
  unfold mbind at 1, io at 1. cbn [fst snd].
  assert (let '(err, w2) := installPreparedAlertAudio (prep_AudioPath prepared) (FinalAudioPath prepared) w1 in
    published w2 = published w /\ (err = None -> exists f, files w1 !! prep_AudioPath prepared = Some f /\
      files w2 !! FinalAudioPath prepared = Some f)) as Hi.
  { unfold installPreparedAlertAudio. destruct (_ || _); [done|]. unfold mbind at 1, attempt.
    destruct (fault (attempts w1)) as [e|]; [done|]. cbn -[replaceFileAtomically].
    pose proof (replaceFileAtomically_spec (prep_AudioPath prepared) (FinalAudioPath prepared)
      (MkWorld (reads w1) (S (attempts w1)) (files w1) (published w1) (archive w1))) as Hr.
    destruct (replaceFileAtomically _ _ _) as [err w2].
    destruct Hr as [Hp Hr]; [intros E; rewrite E in Htmp; ends_clash|intros ?; ends_clash|intros ?; ends_clash|].
    split; [by rewrite Hp|]. intros ->. inversion Hr as [f Hf Hf' _|?|?|?]; subst. eauto. }
  destruct (installPreparedAlertAudio _ _ w1) as [[e|] w2]; destruct Hi as [Hp2 Hf2]; [done|].
  destruct (Hf2 eq_refl) as (f & Hf0 & Hf). unfold mbind at 1, io at 1. cbn [fst snd].
  pose proof (writePriorityAlertManifest_spec (BaseDir cfg) (man_ID (Manifest prepared))
    (Manifest prepared) w2 (FinalAudioPath prepared) Hid Haudio) as Hm. cbv zeta in Hm.
  destruct (writePriorityAlertManifest _ _ w2) as [[e|] w3]; destruct Hm as (Hp3 & Ha3 & Hm3).
  { cbn. split; [done|]. congruence. }
  destruct (Hm3 eq_refl) as [t Ht]. unfold mbind at 1.
  pose proof (publishAlertAudioReady_files (Manifest prepared) (Data prepared) (AlertText prepared)
    (SAMEHeader prepared) p w3) as H4.
  destruct (publishAlertAudioReady _ _ _ _ (p, w3)) as [u4 [p4 w4]]. destruct H4 as [-> Hf4].
  unfold mbind. pose proof (publishAutomationDispatchStatus_files (Data prepared) "completed" "" p w4) as H5.
  destruct (publishAutomationDispatchStatus _ _ _ (p, w4)) as [u5 [p5 w5]]. destruct H5 as [-> Hf5].
  cbn. rewrite Hf5, Hf4. split; [done|]. split; [by exists t|]. exists f. rewrite Ha3. by rewrite <- Hkeep.
Qed.

(** C7: an alert is announced only when it is on the queue.  If committing a
    prepared alert succeeds, its manifest is in the queue directory and its
    audio is at the path the manifest's id names; if it fails, nothing has been
    sent to any other service. *)
Theorem commitPriorityAlert_announces `{JSON} `{Env} (cfg : loadedConfig)
    (prepared : priorityAlertPreparation) (p : feedPlanner) (w : World) :
  prepared_paths cfg prepared ->
  let '(err, (_, w')) := commitPriorityAlert cfg prepared (p, w) in
  match err with
  | None =>
      (exists t, files w' !! alertManifestPath (BaseDir cfg) (man_ID (Manifest prepared)) =
         Some (MkFile (ManifestFile (Manifest prepared)) t)) /\
      (exists f, files w' !! FinalAudioPath prepared = Some f)
  | Some _ => published w' = published w
  end.
Proof.
  intros Hpaths. pose proof (commit_outcome cfg prepared p w Hpaths) as Ho.
  destruct (commitPriorityAlert cfg prepared (p, w)) as [[e|] [p' w']]; [apply Ho|].
  destruct Ho as (_ & Hm & f & _ & Hf). by split; [|exists f].
Qed.

Definition sample_manifest : priorityAlertManifest :=
  MkManifest "001_f1_t1_cap" "t1" None "cap_alert" "pending" "" ["f1"] "Tornado" "TOR" "" "" "" ""
    "" false "runtime/audio/alerts/001_f1_t1_cap.pcm16le" "pcm_s16le" 48000 1 2 "cap-tts" "cap" "" "".
Definition sample_prepared : priorityAlertPreparation :=
  MkPreparation sample_manifest tornado_request "Take cover." ""
    "/srv/runtime/audio/alerts/001_f1_t1_cap.pcm16le.alert-prepare-1.tmp"
    (alertAudioPath "/srv" "001_f1_t1_cap").
Definition prepared_world : World :=
  MkWorld 0 0 {["/srv/runtime/audio/alerts/001_f1_t1_cap.pcm16le.alert-prepare-1.tmp" :=
    MkFile (Raw "x") noon]} [] None.

Lemma commitPriorityAlert_announces_witness :
  (commitPriorityAlert sample_config sample_prepared (sample_planner, prepared_world)).1 = None /\
  let '(err, (_, w')) := commitPriorityAlert sample_config sample_prepared (sample_planner, prepared_world) in
  match err with
  | None => (exists t, files w' !! alertManifestPath "/srv" "001_f1_t1_cap" =
               Some (MkFile (ManifestFile sample_manifest) t)) /\
            (exists f, files w' !! FinalAudioPath sample_prepared = Some f)
  | Some _ => published w' = published prepared_world
  end.
Proof.
  split; [by vm_compute|].
  apply (commitPriorityAlert_announces sample_config sample_prepared sample_planner prepared_world).
  split; [|split].
  - exists "001_f1_t1_cap". by vm_compute.
  - reflexivity.
  - exists "/srv/runtime/audio/alerts/001_f1_t1_cap.pcm16le.alert-prepare-1". reflexivity.
Defined.

(** A replacement never loses what it replaces.  Whatever fails, either the
    target holds the new file, or the source is still there and the old target
    is still on disk, under its own name or under a backup name. *)
Theorem replaceFileAtomically_no_loss `{Env} (source target : string) (w : World) :
  source <> target -> ~ ends_with ".bak" source -> ~ ends_with ".bak" target ->
  let '(err, w') := replaceFileAtomically source target w in
  match err with
  | None => files w' !! target = files w !! source /\ files w !! source <> None
  | Some _ => files w' !! source = files w !! source /\
              exists kept, files w' !! kept = files w !! target
  end.
Proof.
  intros Hst Hs Ht. pose proof (replaceFileAtomically_spec source target w Hst Hs Ht) as Hr.
  destruct (replaceFileAtomically source target w) as [err w']. destruct Hr as [_ Hr].
  inversion Hr as [f Hf Hf' _|e Hsame|e He1 He2 _|e b Hb1 Hb2 _]; subst.
  - rewrite Hf, Hf'. done.
  - rewrite Hsame. split; [done|]. by exists target.
  - split; [done|]. by exists target.
  - split; [done|]. by exists b.
Qed.

Definition replacing_world : World :=
  MkWorld 0 1 {["/a.tmp" := MkFile (Raw "new") 0; "/a.json" := MkFile (Raw "old") 0]} [] None.

Lemma replaceFileAtomically_no_loss_witness :
  let '(err, w') := @replaceFileAtomically full_disk "/a.tmp" "/a.json" replacing_world in
  match err with
  | None => files w' !! "/a.json" = files replacing_world !! "/a.tmp" /\
            files replacing_world !! "/a.tmp" <> None
  | Some _ => files w' !! "/a.tmp" = files replacing_world !! "/a.tmp" /\
              exists kept, files w' !! kept = files replacing_world !! "/a.json"
  end.
Proof.
  apply (@replaceFileAtomically_no_loss full_disk "/a.tmp" "/a.json" replacing_world);
    [discriminate| |]; intros [x E]; apply (f_equal string_rev) in E;
    rewrite string_rev_app in E; discriminate.
Defined.

(** Discarding routine work stays inside the output directory.  With an
    absolute working directory, a file that a discard removes lies below the
    output directory, and its name starts with the queue id of one of the
    discarded items. *)
Theorem discardRoutinePreparation_confined `{Env} (cfg : loadedConfig) (planner : bool)
    (items : list playlistItem) (w : World) (path : string) (f : File) :
  IsAbs (Clean (Abs cwd (OutputDir cfg))) = true ->
  files w !! path = Some f ->
  files (discardRoutinePreparation cfg planner items w).2 !! path = None ->
  exists item rest, In item items /\ path = Abs cwd (TrimSpace (AudioPath item)) /\
    HasPrefix (Base (TrimSpace (AudioPath item))) (safeID (QueueID item)) = true /\
    components (Clean path) = (components (Clean (Abs cwd (OutputDir cfg))) ++ rest)%list.
Proof.
  intros Habs Hf Hgone. unfold discardRoutinePreparation in Hgone.
  destruct (_ || _); [simpl in Hgone; congruence|].
  set (root := Abs cwd (OutputDir cfg)) in *.
  set (admitted := fun item =>
    negb ((TrimSpace (AudioPath item) =? "") || (TrimSpace (QueueID item) =? "")) &&
    HasPrefix (Base (TrimSpace (AudioPath item))) (safeID (QueueID item)) &&
    match Rel root (Abs cwd (TrimSpace (AudioPath item))) with
    | Some relative => negb ((relative =? "..") || HasPrefix relative "../")
    | None => false
    end).
  rewrite (removals_lookup files (fun item => Abs cwd (TrimSpace (AudioPath item))) admitted) in Hgone.
  2: { intros item v. unfold discard_item, admitted. destruct (_ || _); [done|]. cbn [negb andb].
       destruct (HasPrefix (Base _) _); [|done]. cbn [negb andb].
       destruct (Rel root _) as [relative|]; [|done]. by destruct (_ || _). }
  destruct (existsb _ items) eqn:E; [|congruence].
  apply existsb_exists in E as (item & Hin & E). bool_hyps. subst path. unfold admitted in *. bool_hyps.
  destruct (Rel root _) as [relative|] eqn:Er; [|done]. bool_hyps.
  destruct (Rel_below _ _ _ Er Habs) as [rest Hrest]; [by apply orb_false_iff; split; [apply String.eqb_neq|]|].
  by exists item, rest.
Qed.

Lemma discardRoutinePreparation_confined_witness :
  exists item rest, In item [sample_item "a" "wx" ""] /\
    "/out/f1/a.wav" = Abs cwd (TrimSpace (AudioPath item)) /\
    HasPrefix (Base (TrimSpace (AudioPath item))) (safeID (QueueID item)) = true /\
    components (Clean "/out/f1/a.wav") = (components (Clean (Abs cwd (OutputDir sample_config))) ++ rest)%list.
Proof.
  apply (discardRoutinePreparation_confined sample_config true [sample_item "a" "wx" ""]
    (MkWorld 0 0 {["/out/f1/a.wav" := MkFile (Raw "x") 0]} [] None) "/out/f1/a.wav" (MkFile (Raw "x") 0));
    by vm_compute.
Defined.
