(* ===== verification/Wav.v ===== *)
(** PCM audio in memory ([internal/playlist/audio.go], [same.go] and
    [service.go]): RIFF/WAVE files as bytes, the two readers of the service
    ([wavInfo], which walks a file, and [wavPCM16], which slices a buffer), the
    header its writer puts in front of the samples, silence, and the gap kept
    between the parts of an alert. *)

From Stdlib Require Import SpecFloat.
From S2P Require Import Prelude UnicodeTables GoStrings GoTime GoValue.

#[local] Open Scope Z_scope.
#[local] Set Warnings "-register-all".

(** ** Bytes *)

Abbreviation bytes := (list Ascii.ascii).
Definition zero_byte : Ascii.ascii := byte_of 0.
(** [make([]byte, n)]. *)
Definition make_bytes (n : Z) : bytes := replicate (Z.to_nat n) zero_byte.
(** [len(b)]. *)
Definition len (b : bytes) : Z := Z.of_nat (length b).
(** [b[i:j]], for bounds the code has checked. *)
Definition slice (b : bytes) (i j : Z) : bytes := take (Z.to_nat (j - i)) (drop (Z.to_nat i) b).
(** [string(b) == s]. *)
Definition is_text (s : string) (b : bytes) : bool := String.eqb (string_of b) s.

(** [binary.LittleEndian]: [le_bytes n] is the conversion to the unsigned
    integer of [n] bytes, which truncates, followed by its encoding. *)
Fixpoint le_val (l : bytes) : Z :=
  match l with
  | [] => 0
  | a :: l' => byte_val a + 256 * le_val l'
  end.
Fixpoint le_bytes (n : nat) (z : Z) : bytes :=
  match n with
  | O => []
  | S n' => byte_of (z mod 256) :: le_bytes n' (z / 256)
  end.

(** ** Reading WAV *)

Record audioInfo := MkAudioInfo {
  ai_SampleRate : Z; ai_Channels : Z; ai_DurationMS : Z; ai_Bytes : Z }.

(** What the chunk loops accumulate. *)
Record wavFormat := MkFormat {
  wf_audioFormat : Z; wf_channels : Z; wf_sampleRate : Z; wf_bitsPerSample : Z; wf_data : bytes }.
Definition no_format : wavFormat := MkFormat 0 0 0 0 [].

Definition read_fmt (chunk : bytes) (data : bytes) : wavFormat :=
  MkFormat (le_val (slice chunk 0 2)) (le_val (slice chunk 2 4)) (le_val (slice chunk 4 8))
    (le_val (slice chunk 14 16)) data.

(** The loop of [wavPCM16].  Offsets stay below the length of the buffer plus
    [2^32], so they do not wrap. *)
Fixpoint pcm16_chunks (fuel : nat) (raw : bytes) (offset : Z) (f : wavFormat) :
    result string wavFormat :=
  match fuel with
  | O => Ok f
  | S fuel' =>
      if negb (offset + 8 <=? len raw) then Ok f
      else
        let id := slice raw offset (offset + 4) in
        let size := le_val (slice raw (offset + 4) (offset + 8)) in
        let offset := offset + 8 in
        if (size <? 0) || (len raw <? offset + size) then Err "invalid WAV chunk size"
        else
          let chunk := slice raw offset (offset + size) in
          let next := offset + size in
          let next := if Z.rem next 2 =? 1 then next + 1 else next in
          if is_text "fmt " id then
            if len chunk <? 16 then Err "invalid WAV fmt chunk"
            else pcm16_chunks fuel' raw next (read_fmt chunk (wf_data f))
          else if is_text "data" id then
            pcm16_chunks fuel' raw next
              (MkFormat (wf_audioFormat f) (wf_channels f) (wf_sampleRate f) (wf_bitsPerSample f) chunk)
          else pcm16_chunks fuel' raw next f
  end.

Definition wavPCM16 (raw : bytes) : result string (bytes * audioInfo) :=
  if (len raw <? 44) || negb (is_text "RIFF" (slice raw 0 4)) ||
     negb (is_text "WAVE" (slice raw 8 12))
  then Err "not a RIFF/WAVE file"
  else
    match pcm16_chunks (length raw) raw 12 no_format with
    | Err e => Err e
    | Ok f =>
        if negb (wf_audioFormat f =? 1) || negb (wf_bitsPerSample f =? 16) || (wf_sampleRate f <=? 0) ||
           (wf_channels f <=? 0) || (len (wf_data f) =? 0)
        then Err "WAV is not PCM s16le"
        else
          let bytesPerSecond := wrap64 (wf_sampleRate f * wf_channels f * 2) in
          Ok (wf_data f, MkAudioInfo (wf_sampleRate f) (wf_channels f)
                (Z.quot (len (wf_data f) * 1000) bytesPerSecond) (len (wf_data f)))
    end.

(** [io.ReadFull] of [n] bytes: the bytes and the rest of the file. *)
Definition read_full (n : nat) (rest : bytes) : option (bytes * bytes) :=
  if (length rest <? n)%nat then None else Some (take n rest, drop n rest).

(** What [wavInfo] accumulates. *)
Record infoState := MkInfoState { is_rate : Z; is_channels : Z; is_bits : Z; is_data : Z }.

(** The loop of [wavInfo] over an open file: [rest] is what lies after the
    position, [remaining] the bytes the file's size leaves. *)
Fixpoint info_chunks (fuel : nat) (rest : bytes) (remaining : Z) (st : infoState) :
    result string infoState :=
  match fuel with
  | O => Ok st
  | S fuel' =>
      if negb (8 <=? remaining) then Ok st
      else
        match read_full 8 rest with
        | None => Err "unexpected EOF"
        | Some (chunkHeader, rest) =>
            let remaining := remaining - 8 in
            let size := le_val (slice chunkHeader 4 8) in
            let paddedSize := size + Z.rem size 2 in
            if remaining <? paddedSize then Err "invalid WAV chunk size"
            else if is_text "fmt " (slice chunkHeader 0 4) then
              if size <? 16 then Err "invalid WAV fmt chunk"
              else
                match read_full 16 rest with
                | None => Err "unexpected EOF"
                | Some (format, rest) =>
                    info_chunks fuel' (drop (Z.to_nat (paddedSize - 16)) rest) (remaining - paddedSize)
                      (MkInfoState (le_val (slice format 4 8)) (le_val (slice format 2 4))
                         (le_val (slice format 14 16)) (is_data st))
                end
            else if is_text "data" (slice chunkHeader 0 4) then
              let st := MkInfoState (is_rate st) (is_channels st) (is_bits st) size in
              if (0 <? is_rate st) && (0 <? is_channels st) && (0 <? is_bits st) then Ok st
              else info_chunks fuel' (drop (Z.to_nat paddedSize) rest) (remaining - paddedSize) st
            else info_chunks fuel' (drop (Z.to_nat paddedSize) rest) (remaining - paddedSize) st
        end
  end.

(** [wavInfo] on the contents of a file that could be opened; reading errors of
    an open file are not modelled. *)
Definition wav_info (content : bytes) : result string audioInfo :=
  match read_full 12 content with
  | None => Err "not a RIFF/WAVE file"
  | Some (header, rest) =>
      if negb (is_text "RIFF" (slice header 0 4)) || negb (is_text "WAVE" (slice header 8 12))
      then Err "not a RIFF/WAVE file"
      else
        match info_chunks (length content) rest (len content - 12) (MkInfoState 0 0 0 0) with
        | Err e => Err e
        | Ok st =>
            if (is_rate st <=? 0) || (is_channels st <=? 0) || (is_bits st <=? 0) || (is_data st <=? 0)
            then Err "WAV format is incomplete"
            else
              let bytesPerSecond := Z.quot (wrap64 (is_rate st * is_channels st * is_bits st)) 8 in
              if bytesPerSecond <=? 0 then Err "invalid WAV byte rate"
              else Ok (MkAudioInfo (is_rate st) (is_channels st)
                         (Z.quot (is_data st * 1000) bytesPerSecond) (is_data st))
        end
  end.

(** [pcmInfo] of a file of [size] bytes. *)
Definition pcm_info (size sampleRate channels : Z) : result string audioInfo :=
  let sampleRate := if sampleRate <=? 0 then 48000 else sampleRate in
  let channels := if channels <=? 0 then 1 else channels in
  let bytesPerSecond := wrap64 (sampleRate * channels * 2) in
  if bytesPerSecond <=? 0 then Err "invalid PCM byte rate"
  else Ok (MkAudioInfo sampleRate channels (Z.quot (wrap64 (size * 1000)) bytesPerSecond) size).

(** ** Writing WAV *)

(** The pieces [writeHeader] writes one after the other. *)
Definition header_pieces (sampleRate channels dataSize : Z) : list bytes :=
  let riffSize := 36 + dataSize in
  let byteRate := sampleRate * channels * 2 in
  let blockAlign := channels * 2 in
  [bytes_of "RIFF"; le_bytes 4 riffSize; bytes_of "WAVEfmt "; le_bytes 4 16; le_bytes 2 1;
   le_bytes 2 channels; le_bytes 4 sampleRate; le_bytes 4 byteRate; le_bytes 2 blockAlign;
   le_bytes 2 16; bytes_of "data"; le_bytes 4 dataSize].
Definition wav_header (sampleRate channels dataSize : Z) : bytes :=
  concat (header_pieces sampleRate channels dataSize).

(** ** Silence *)

(** [time.Duration.Seconds]. *)
Definition duration_seconds (d : Z) : float64 :=
  SFadd 53 1024 (f64_of_Z (Z.quot d Second))
    (SFdiv 53 1024 (f64_of_Z (Z.rem d Second)) (f64_of_Z 1000000000)).

Definition silencePCM (sampleRate channels duration : Z) : bytes :=
  let sampleRate := if sampleRate <=? 0 then 48000 else sampleRate in
  let channels := if channels <=? 0 then 1 else channels in
  let samples := f64_trunc (f64_mul (f64_mul (duration_seconds duration) (f64_of_Z sampleRate))
                              (f64_of_Z channels)) in
  if samples <=? 0 then [] else make_bytes (samples * 2).

(** The loop of [trailingPCM16SilentFrames] from [offset] down. *)
Fixpoint silent_frames (fuel : nat) (pcm : bytes) (frameBytes offset : Z) : Z :=
  match fuel with
  | O => 0
  | S fuel' =>
      if offset <? 0 then 0
      else if forallb (Ascii.eqb zero_byte) (slice pcm offset (offset + frameBytes))
      then 1 + silent_frames fuel' pcm frameBytes (offset - frameBytes)
      else 0
  end.
Definition trailingPCM16SilentFrames (pcm : bytes) (channels : Z) : Z :=
  let channels := if channels <=? 0 then 1 else channels in
  let frameBytes := channels * 2 in
  let completeBytes := len pcm - Z.rem (len pcm) frameBytes in
  silent_frames (length pcm) pcm frameBytes (completeBytes - frameBytes).

(** [trailingPCM16Silence]; the products are [time.Duration]s. *)
Definition trailingPCM16Silence (pcm : bytes) (sampleRate channels : Z) : Z :=
  let sampleRate := if sampleRate <=? 0 then 48000 else sampleRate in
  let channels := if channels <=? 0 then 1 else channels in
  Z.quot (wrap64 (trailingPCM16SilentFrames pcm channels * Second)) sampleRate.

Definition alertTransitionPadding (lead : bytes) (sampleRate channels minimum : Z) : bytes :=
  let sampleRate := if sampleRate <=? 0 then 48000 else sampleRate in
  let channels := if channels <=? 0 then 1 else channels in
  let minimumFrames := Z.quot (wrap64 (minimum * sampleRate + Second - 1)) Second in
  let remainingFrames := minimumFrames - trailingPCM16SilentFrames lead channels in
  if remainingFrames <=? 0 then [] else make_bytes (remainingFrames * channels * 2).

(** ** Facts: bytes *)

Lemma length_le_bytes n z : length (le_bytes n z) = n.
Proof. revert z. induction n as [|n IH]; intros z; simpl; [done|]. by rewrite IH. Qed.

Lemma le_val_le_bytes n z : 0 <= z < 256 ^ Z.of_nat n -> le_val (le_bytes n z) = z.
Proof.
  revert z. induction n as [|n IH]; intros z Hz.
  - simpl in *. lia.
  - rewrite Nat2Z.inj_succ, Z.pow_succ_r in Hz by lia. cbn [le_bytes le_val].
    rewrite byte_val_of by (apply Z.mod_pos_bound; lia).
    rewrite IH; [pose proof (Z.div_mod z 256); lia|].
    split; [apply Z.div_pos; lia|]. apply Z.div_lt_upper_bound; lia.
Qed.

(** Fields truncate. *)
Lemma le_bytes_wrap n z k : le_bytes n (z + k * 256 ^ Z.of_nat n) = le_bytes n z.
Proof.
  revert z. induction n as [|n IH]; intros z; [done|]. cbn [le_bytes].
  rewrite Nat2Z.inj_succ, Z.pow_succ_r by lia.
  replace (z + k * (256 * 256 ^ Z.of_nat n)) with (z + (k * 256 ^ Z.of_nat n) * 256) by lia.
  rewrite Z.mod_add, Z.div_add by lia. by rewrite IH.
Qed.

Lemma le_val_range l : 0 <= le_val l < 256 ^ len l.
Proof.
  unfold len. induction l as [|a l IH]; cbn [le_val length]; [simpl; lia|].
  rewrite Nat2Z.inj_succ, Z.pow_succ_r by lia. pose proof (byte_val_range a). nia.
Qed.

Lemma len_app a b : len (a ++ b) = len a + len b.
Proof. unfold len. rewrite length_app. lia. Qed.
Lemma len_nonneg b : 0 <= len b.
Proof. unfold len. lia. Qed.
Lemma len_make_bytes n : 0 <= n -> len (make_bytes n) = n.
Proof. intros. unfold len, make_bytes. rewrite length_replicate. lia. Qed.

Lemma slice_app_l a b i j : 0 <= i -> j <= len a -> slice (a ++ b) i j = slice a i j.
Proof.
  intros Hi Hj. unfold slice, len in *. destruct (decide (j <= i)).
  - by replace (Z.to_nat (j - i)) with O by lia.
  - rewrite drop_app_le by lia. rewrite take_app_le; [done|]. rewrite length_drop. lia.
Qed.
Lemma slice_app_r a b i j : len a <= i -> slice (a ++ b) i j = slice b (i - len a) (j - len a).
Proof.
  intros Hi. unfold slice, len in *. rewrite drop_app_ge by lia.
  f_equal; [lia|]. f_equal. lia.
Qed.

(** ** Facts: the chunk loops, one chunk at a time *)

Section chunks.
Context (fuel : nat) (raw : bytes) (offset size : Z) (f : wavFormat).

Lemma pcm16_end : len raw < offset + 8 -> pcm16_chunks fuel raw offset f = Ok f.
Proof.
  intros H. destruct fuel; [done|]. cbn [pcm16_chunks].
  by replace (offset + 8 <=? len raw) with false by lia.
Qed.

Hypothesis Hsize : le_val (slice raw (offset + 4) (offset + 8)) = size.
Hypothesis Hfits : offset + 8 + size <= len raw.

Lemma pcm16_chunk id : slice raw offset (offset + 4) = bytes_of id ->
  pcm16_chunks (S fuel) raw offset f =
  (let chunk := slice raw (offset + 8) (offset + 8 + size) in
   let next := if Z.rem (offset + 8 + size) 2 =? 1 then offset + 8 + size + 1 else offset + 8 + size in
   if String.eqb id "fmt " then
     if len chunk <? 16 then Err "invalid WAV fmt chunk"
     else pcm16_chunks fuel raw next (read_fmt chunk (wf_data f))
   else if String.eqb id "data" then
     pcm16_chunks fuel raw next
       (MkFormat (wf_audioFormat f) (wf_channels f) (wf_sampleRate f) (wf_bitsPerSample f) chunk)
   else pcm16_chunks fuel raw next f).
Proof.
  intros Hid. pose proof (le_val_range (slice raw (offset + 4) (offset + 8))) as Hpos.
  rewrite Hsize in Hpos. cbn [pcm16_chunks]. rewrite Hsize, Hid. unfold is_text.
  rewrite string_of_bytes_of, !(String.eqb_sym id).
  replace (offset + 8 <=? len raw) with true by lia.
  by replace ((size <? 0) || (len raw <? offset + 8 + size)) with false by lia.
Qed.
End chunks.

Section info_chunks.
Context (fuel : nat) (id : string) (size : Z) (body rest : bytes) (remaining : Z) (st : infoState).
Hypothesis Hid : length (bytes_of id) = 4%nat.
Hypothesis Hsize : 0 <= size < 2 ^ 32.
Hypothesis Hfits : 8 + size + Z.rem size 2 <= remaining.

(** A chunk in front of [rest] with its padded [body]. *)
Lemma info_chunk : len body = size + Z.rem size 2 ->
  info_chunks (S fuel) (bytes_of id ++ le_bytes 4 size ++ body ++ rest) remaining st =
  (if String.eqb id "fmt " then
     if size <? 16 then Err "invalid WAV fmt chunk"
     else
       let format := take 16 body in
       info_chunks fuel rest (remaining - 8 - (size + Z.rem size 2))
         (MkInfoState (le_val (slice format 4 8)) (le_val (slice format 2 4))
            (le_val (slice format 14 16)) (is_data st))
   else if String.eqb id "data" then
     let st := MkInfoState (is_rate st) (is_channels st) (is_bits st) size in
     if (0 <? is_rate st) && (0 <? is_channels st) && (0 <? is_bits st) then Ok st
     else info_chunks fuel rest (remaining - 8 - (size + Z.rem size 2)) st
   else info_chunks fuel rest (remaining - 8 - (size + Z.rem size 2)) st).
Proof.
  intros Hbody. cbn [info_chunks].
  pose proof (Z.rem_bound_pos size 2 ltac:(lia) ltac:(lia)) as Hrem.
  replace (8 <=? remaining) with true by lia. cbn [negb].
  set (tl := body ++ rest).
  assert (E : read_full 8 (bytes_of id ++ le_bytes 4 size ++ tl) =
    Some (bytes_of id ++ le_bytes 4 size, tl)).
  { unfold read_full. rewrite app_assoc. set (h := _ ++ le_bytes 4 size).
    assert (Hh : length h = 8%nat) by (unfold h; rewrite length_app, length_le_bytes, Hid; done).
    rewrite length_app, Hh. change (_ <? 8)%nat with false. cbn iota.
    rewrite <- Hh. by rewrite take_app_length, drop_app_length. }
  rewrite E. clear E.
  assert (E : slice (bytes_of id ++ le_bytes 4 size) 4 8 = le_bytes 4 size).
  { rewrite slice_app_r by (unfold len; lia). unfold len. rewrite Hid. done. }
  rewrite E, le_val_le_bytes by (simpl; lia). clear E.
  assert (E : slice (bytes_of id ++ le_bytes 4 size) 0 4 = bytes_of id).
  { rewrite slice_app_l by (unfold len; lia). unfold slice. simpl. rewrite drop_0.
    apply take_ge. lia. }
  rewrite E. clear E. unfold is_text. rewrite string_of_bytes_of, !(String.eqb_sym id).
  replace (remaining - 8 <? size + Z.rem size 2) with false by lia.
  assert (Hdrop : drop (Z.to_nat (size + Z.rem size 2)) tl = rest).
  { unfold tl. rewrite <- Hbody. unfold len. rewrite Nat2Z.id. apply drop_app_length. }
  rewrite Hdrop. destruct (String.eqb "fmt " id); [|done].
  destruct (Z.ltb_spec size 16) as [|Hs]; [done|].
  unfold read_full. unfold len in Hbody.
  rewrite (proj2 (Nat.ltb_ge (length tl) 16)) by (unfold tl; rewrite length_app; lia).
  rewrite drop_drop. replace (16 + Z.to_nat (size + Z.rem size 2 - 16))%nat
    with (Z.to_nat (size + Z.rem size 2)) by lia. rewrite Hdrop.
  unfold tl. by rewrite take_app_le by lia.
Qed.
End info_chunks.

(** ** Facts: the readers on well-formed files *)

(** A chunk with its padding. *)
Definition chunk_bytes (c : string * bytes) : bytes :=
  bytes_of c.1 ++ le_bytes 4 (len c.2) ++ c.2 ++ make_bytes (Z.rem (len c.2) 2).
Definition chunks_bytes (l : list (string * bytes)) : bytes := concat (map chunk_bytes l).

Definition chunk_ok (c : string * bytes) : Prop := length (bytes_of c.1) = 4%nat /\ len c.2 < 2 ^ 32.
(** A chunk the readers skip. *)
Definition other_chunk (c : string * bytes) : Prop := chunk_ok c /\ c.1 <> "fmt " /\ c.1 <> "data".

Lemma even_pad n : 0 <= n -> Z.rem (n + Z.rem n 2) 2 = 0 /\
  (if Z.rem n 2 =? 1 then n + 1 else n) = n + Z.rem n 2.
Proof.
  intros Hn. pose proof (Z.rem_bound_pos n 2 Hn ltac:(lia)) as Hr.
  destruct (Z.eqb_spec (Z.rem n 2) 1) as [E|E].
  - rewrite E. split; [|done]. pose proof (Z.quot_rem n 2 ltac:(lia)).
    replace (n + 1) with ((n ÷ 2 + 1) * 2) by lia. by apply Z.rem_mul.
  - replace (Z.rem n 2) with 0 by lia. rewrite Z.add_0_r. split; [lia|done].
Qed.

Lemma len_chunk c : chunk_ok c -> len (chunk_bytes c) = 8 + (len c.2 + Z.rem (len c.2) 2).
Proof.
  intros [Hid _]. unfold chunk_bytes. pose proof (len_nonneg c.2).
  rewrite !len_app, len_make_bytes by (apply Z.rem_nonneg; lia).
  assert (len (bytes_of c.1) = 4) as -> by (unfold len; lia).
  assert (len (le_bytes 4 (len c.2)) = 4) as -> by done. lia.
Qed.

(** [wavPCM16] on the chunk after [pre]. *)
Lemma pcm16_at fuel pre c post f : chunk_ok c -> Z.rem (len pre) 2 = 0 ->
  pcm16_chunks (S fuel) (pre ++ chunk_bytes c ++ post) (len pre) f =
  (let raw := pre ++ chunk_bytes c ++ post in
   let next := len (pre ++ chunk_bytes c) in
   if String.eqb c.1 "fmt " then
     if len c.2 <? 16 then Err "invalid WAV fmt chunk"
     else pcm16_chunks fuel raw next (read_fmt c.2 (wf_data f))
   else if String.eqb c.1 "data" then
     pcm16_chunks fuel raw next
       (MkFormat (wf_audioFormat f) (wf_channels f) (wf_sampleRate f) (wf_bitsPerSample f) c.2)
   else pcm16_chunks fuel raw next f).
Proof.
  intros Hc Hpre. pose proof Hc as [Hid Hlen]. pose proof (len_nonneg c.2) as Hn.
  pose proof (len_nonneg pre). pose proof (len_nonneg post).
  pose proof (Z.rem_bound_pos (len c.2) 2 Hn ltac:(lia)) as Hr.
  set (raw := pre ++ chunk_bytes c ++ post).
  assert (Hid4 : len (bytes_of c.1) = 4) by (unfold len; lia).
  assert (Hraw : len raw = len pre + 8 + (len c.2 + Z.rem (len c.2) 2) + len post)
    by (unfold raw; rewrite !len_app, len_chunk by done; lia).
  assert (Hin : forall i j, 0 <= i -> j <= 8 + len c.2 -> slice raw (len pre + i) (len pre + j) =
    slice (bytes_of c.1 ++ le_bytes 4 (len c.2) ++ c.2) i j).
  { intros i j Hi Hj. unfold raw, chunk_bytes. rewrite slice_app_r by lia.
    rewrite !app_assoc. set (front := (bytes_of c.1 ++ _) ++ c.2).
    assert (Hfront : len front = 8 + len c.2).
    { unfold front. rewrite !len_app, Hid4. change (len (le_bytes 4 (len c.2))) with 4. lia. }
    rewrite !slice_app_l by (rewrite ?len_app, ?len_make_bytes; lia). f_equal; lia. }
  assert (Eid : slice raw (len pre) (len pre + 4) = bytes_of c.1).
  { rewrite <- (Z.add_0_r (len pre)) at 1. rewrite Hin by lia. rewrite slice_app_l by lia.
    unfold slice. simpl. rewrite drop_0. apply take_ge. lia. }
  assert (Esize : le_val (slice raw (len pre + 4) (len pre + 8)) = len c.2).
  { rewrite Hin by lia. rewrite slice_app_r by lia. rewrite Hid4.
    change (4 - 4) with 0. change (8 - 4) with 4. rewrite slice_app_l by (try change (len (le_bytes 4 (len c.2))) with 4; lia).
    change (slice _ 0 4) with (le_bytes 4 (len c.2)). apply le_val_le_bytes. simpl. lia. }
  assert (Ebody : slice raw (len pre + 8) (len pre + 8 + len c.2) = c.2).
  { rewrite <- Z.add_assoc. rewrite Hin by lia. rewrite app_assoc.
    assert (len (bytes_of c.1 ++ le_bytes 4 (len c.2)) = 8) as E8 by (rewrite len_app, Hid4; done).
    rewrite slice_app_r by lia. rewrite E8. unfold slice.
    replace (8 + len c.2 - 8 - (8 - 8)) with (len c.2) by lia. simpl. rewrite drop_0.
    unfold len. rewrite Nat2Z.id. apply firstn_all. }
  rewrite (pcm16_chunk fuel raw (len pre) (len c.2) f Esize ltac:(lia) c.1 Eid).
  rewrite Ebody. cbv zeta. rewrite (len_app pre), len_chunk by done.
  destruct (even_pad (len pre + 8 + len c.2) ltac:(lia)) as [_ ->].
  replace (len pre + 8 + len c.2 + Z.rem (len pre + 8 + len c.2) 2)
    with (len pre + (8 + (len c.2 + Z.rem (len c.2) 2))); [done|].
  assert (Z.rem (len pre + 8 + len c.2) 2 = Z.rem (len c.2) 2); [|lia].
  rewrite !Z.rem_mod_nonneg in * by lia.
  rewrite <- Z.add_mod_idemp_l, <- (Z.add_mod_idemp_l (len pre)), Hpre by lia. done.
Qed.

Lemma rem2_add a b : 0 <= a -> 0 <= b -> Z.rem a 2 = 0 -> Z.rem b 2 = 0 -> Z.rem (a + b) 2 = 0.
Proof.
  intros Ha Hb. rewrite !Z.rem_mod_nonneg by lia. intros Ea Eb. rewrite Z.add_mod, Ea, Eb by lia. done.
Qed.

Lemma len_chunk_even pre c : chunk_ok c -> Z.rem (len pre) 2 = 0 ->
  Z.rem (len (pre ++ chunk_bytes c)) 2 = 0.
Proof.
  intros Hc Hpre. rewrite len_app, len_chunk by done.
  pose proof (len_nonneg pre). pose proof (len_nonneg c.2) as Hn.
  pose proof (Z.rem_bound_pos (len c.2) 2 Hn ltac:(lia)).
  apply rem2_add; [lia|lia|done|]. apply rem2_add; [lia|lia|done|]. by apply even_pad.
Qed.

(** Both loops pass over chunks of no interest. *)
Lemma pcm16_skip fuel pre l post f : Forall other_chunk l -> Z.rem (len pre) 2 = 0 ->
  pcm16_chunks (length l + fuel) (pre ++ chunks_bytes l ++ post) (len pre) f =
  pcm16_chunks fuel (pre ++ chunks_bytes l ++ post) (len (pre ++ chunks_bytes l)) f /\
  Z.rem (len (pre ++ chunks_bytes l)) 2 = 0.
Proof.
  intros Hl. revert pre. induction Hl as [|c l (Hc & Hf & Hd) Hl IH]; intros pre Hpre.
  { change (chunks_bytes []) with (@nil Ascii.ascii). by rewrite app_nil_r. }
  change (chunks_bytes (c :: l)) with (chunk_bytes c ++ chunks_bytes l). rewrite <- app_assoc.
  change (length (c :: l) + fuel)%nat with (S (length l + fuel)). rewrite pcm16_at by done.
  rewrite (proj2 (String.eqb_neq _ _) Hf), (proj2 (String.eqb_neq _ _) Hd). cbv zeta.
  destruct (IH (pre ++ chunk_bytes c) (len_chunk_even _ _ Hc Hpre)) as [E He].
  rewrite <- !app_assoc in *. by rewrite E.
Qed.

Lemma info_at fuel c post st : chunk_ok c ->
  info_chunks (S fuel) (chunk_bytes c ++ post) (len (chunk_bytes c ++ post)) st =
  (if String.eqb c.1 "fmt " then
     if len c.2 <? 16 then Err "invalid WAV fmt chunk"
     else
       let format := take 16 c.2 in
       info_chunks fuel post (len post)
         (MkInfoState (le_val (slice format 4 8)) (le_val (slice format 2 4))
            (le_val (slice format 14 16)) (is_data st))
   else if String.eqb c.1 "data" then
     let st := MkInfoState (is_rate st) (is_channels st) (is_bits st) (len c.2) in
     if (0 <? is_rate st) && (0 <? is_channels st) && (0 <? is_bits st) then Ok st
     else info_chunks fuel post (len post) st
   else info_chunks fuel post (len post) st).
Proof.
  intros Hc. pose proof Hc as [Hid Hlen]. pose proof (len_nonneg c.2) as Hn.
  pose proof (Z.rem_bound_pos (len c.2) 2 Hn ltac:(lia)) as Hr. pose proof (len_nonneg post).
  assert (E : len (chunk_bytes c ++ post) = 8 + (len c.2 + Z.rem (len c.2) 2) + len post)
    by (rewrite len_app, len_chunk by done; lia).
  rewrite E. unfold chunk_bytes. rewrite <- !app_assoc, (app_assoc c.2).
  rewrite info_chunk; [|done|lia|lia|rewrite len_app, len_make_bytes by lia; done].
  replace (8 + (len c.2 + Z.rem (len c.2) 2) + len post - 8 - (len c.2 + Z.rem (len c.2) 2))
    with (len post) by lia.
  destruct (String.eqb c.1 "fmt "); [|done]. destruct (Z.ltb_spec (len c.2) 16); [done|].
  by rewrite take_app_le by (unfold len in *; lia).
Qed.

Lemma info_skip fuel l post st : Forall other_chunk l ->
  info_chunks (length l + fuel) (chunks_bytes l ++ post) (len (chunks_bytes l ++ post)) st =
  info_chunks fuel post (len post) st.
Proof.
  intros Hl. induction Hl as [|c l (Hc & Hf & Hd) Hl IH]; [done|].
  change (chunks_bytes (c :: l)) with (chunk_bytes c ++ chunks_bytes l). rewrite <- app_assoc.
  change (length (c :: l) + fuel)%nat with (S (length l + fuel)). rewrite info_at by done.
  by rewrite (proj2 (String.eqb_neq _ _) Hf), (proj2 (String.eqb_neq _ _) Hd).
Qed.

Lemma le_val_slice b i j : 0 <= i <= j -> 0 <= le_val (slice b i j) < 256 ^ (j - i).
Proof.
  intros Hij. pose proof (le_val_range (slice b i j)) as [H1 H2]. split; [done|].
  eapply Z.lt_le_trans; [exact H2|]. apply Z.pow_le_mono_r; [lia|].
  unfold len, slice. rewrite length_take. lia.
Qed.

Lemma byte_rate_fits rate ch k : 0 <= rate < 2 ^ 32 -> 0 <= ch < 2 ^ 16 -> 0 <= k <= 2 ^ 14 ->
  wrap64 (rate * ch * k) = rate * ch * k.
Proof.
  intros. apply wrap64_id. unfold int64_ok.
  assert (rate * ch * k <= 2 ^ 32 * 2 ^ 16 * 2 ^ 14) by (repeat apply Z.mul_le_mono_nonneg; lia).
  assert (0 <= rate * ch * k) by (repeat apply Z.mul_nonneg_nonneg; lia). lia.
Qed.

Lemma chunks_bytes_app l l' : chunks_bytes (l ++ l') = chunks_bytes l ++ chunks_bytes l'.
Proof. unfold chunks_bytes. by rewrite map_app, concat_app. Qed.
Lemma chunks_bytes_cons c l : chunks_bytes (c :: l) = chunk_bytes c ++ chunks_bytes l.
Proof. done. Qed.
Lemma chunks_bytes_length l : (length l <= length (chunks_bytes l))%nat.
Proof.
  induction l as [|c l IH]; [done|]. rewrite chunks_bytes_cons. unfold chunk_bytes.
  rewrite !length_app, length_le_bytes. simpl. lia.
Qed.

(** A PCM WAV file: other chunks may stand before, between and after the format
    and the samples. *)
Definition riff (riffSize : Z) : bytes := bytes_of "RIFF" ++ le_bytes 4 riffSize ++ bytes_of "WAVE".
Definition wav_file (riffSize : Z) (before between after : list (string * bytes)) (fmt pcm : bytes) : bytes :=
  riff riffSize ++ chunks_bytes (before ++ ("fmt ", fmt) :: between ++ ("data", pcm) :: after).
Definition fmt_rate (fmt : bytes) : Z := le_val (slice fmt 4 8).
Definition fmt_channels (fmt : bytes) : Z := le_val (slice fmt 2 4).
(** A format of 16-bit PCM. *)
Definition pcm16_format (fmt : bytes) : Prop :=
  16 <= len fmt < 2 ^ 32 /\ le_val (slice fmt 0 2) = 1 /\ le_val (slice fmt 14 16) = 16 /\
  0 < fmt_channels fmt /\ 0 < fmt_rate fmt.
(** What both readers report of [n] bytes of samples. *)
Definition info_of (rate ch n : Z) : audioInfo :=
  MkAudioInfo rate ch (Z.quot (n * 1000) (rate * ch * 2)) n.

Section readers.
Context (riffSize : Z) (before between after : list (string * bytes)) (fmt pcm : bytes).
Context (Hbefore : Forall other_chunk before) (Hbetween : Forall other_chunk between)
  (Hafter : Forall other_chunk after) (Hfmt : pcm16_format fmt) (Hpcm : 0 < len pcm < 2 ^ 32).

Let file : bytes := wav_file riffSize before between after fmt pcm.

Lemma wav_file_chunks : file =
  riff riffSize ++ chunks_bytes before ++ chunk_bytes ("fmt ", fmt) ++ chunks_bytes between ++
  chunk_bytes ("data", pcm) ++ chunks_bytes after.
Proof.
  unfold file, wav_file. by rewrite chunks_bytes_app, chunks_bytes_cons, chunks_bytes_app, chunks_bytes_cons.
Qed.

Lemma fmt_chunk_ok : chunk_ok ("fmt ", fmt).
Proof. split; [done|]. apply Hfmt. Qed.
Lemma data_chunk_ok : chunk_ok ("data", pcm).
Proof. split; [done|]. apply Hpcm. Qed.

Lemma wav_file_length : 46 <= len file /\
  exists k, length file = (length before + S (length between + S (length after + k)))%nat.
Proof.
  pose proof fmt_chunk_ok as Hf. pose proof data_chunk_ok as Hd. destruct Hfmt as [Hfl _].
  split.
  { rewrite wav_file_chunks, !len_app, !len_chunk by done. change (len (riff riffSize)) with 12. cbn [snd].
    pose proof (len_nonneg (chunks_bytes before)). pose proof (len_nonneg (chunks_bytes between)).
    pose proof (len_nonneg (chunks_bytes after)).
    pose proof (Z.rem_bound_pos (len fmt) 2 ltac:(lia) ltac:(lia)).
    pose proof (Z.rem_bound_pos (len pcm) 2 ltac:(lia) ltac:(lia)).
    assert (len pcm = 1 -> Z.rem (len pcm) 2 = 1) as Hodd by (intros ->; done). lia. }
  pose proof (chunks_bytes_length before). pose proof (chunks_bytes_length between).
  pose proof (chunks_bytes_length after).
  exists (length file - (length before + S (length between + S (length after))))%nat.
  assert (length before + S (length between + S (length after)) <= length file)%nat; [|lia].
  rewrite wav_file_chunks, !length_app. unfold chunk_bytes at 1 2.
  rewrite !length_app, !length_le_bytes. lia.
Qed.

(** The loop of [wavPCM16] goes over the whole file. *)
Lemma pcm16_loop :
  pcm16_chunks (length file) file 12 no_format = Ok (MkFormat 1 (fmt_channels fmt) (fmt_rate fmt) 16 pcm).
Proof.
  pose proof fmt_chunk_ok as Hf. pose proof data_chunk_ok as Hd.
  destruct wav_file_length as [_ [k ->]]. destruct Hfmt as (Hfl & H1 & H16 & _).
  rewrite wav_file_chunks. change 12 with (len (riff riffSize)).
  pose proof (pcm16_skip (S (length between + S (length after + k))) (riff riffSize) before
    (chunk_bytes ("fmt ", fmt) ++ chunks_bytes between ++ chunk_bytes ("data", pcm) ++ chunks_bytes after)
    no_format Hbefore eq_refl) as [-> He1].
  set (p1 := riff riffSize ++ chunks_bytes before) in *. rewrite (app_assoc (riff _)).
  change (riff riffSize ++ chunks_bytes before) with p1. rewrite pcm16_at by done. cbv zeta.
  change (String.eqb ("fmt ", fmt).1 "fmt ") with true. cbn [snd].
  replace (len fmt <? 16) with false by lia.
  pose proof (len_chunk_even p1 _ Hf He1) as He2. set (p2 := p1 ++ chunk_bytes ("fmt ", fmt)) in *.
  rewrite (app_assoc p1). change (p1 ++ chunk_bytes ("fmt ", fmt)) with p2.
  pose proof (pcm16_skip (S (length after + k)) p2 between
    (chunk_bytes ("data", pcm) ++ chunks_bytes after) (read_fmt fmt (wf_data no_format)) Hbetween He2)
    as [-> He3].
  set (p3 := p2 ++ chunks_bytes between) in *. rewrite (app_assoc p2).
  change (p2 ++ chunks_bytes between) with p3. rewrite pcm16_at by done. cbv zeta.
  change (String.eqb ("data", pcm).1 "fmt ") with false.
  change (String.eqb ("data", pcm).1 "data") with true. cbn [snd].
  pose proof (len_chunk_even p3 _ Hd He3) as He4. set (p4 := p3 ++ chunk_bytes ("data", pcm)) in *.
  rewrite (app_assoc p3). change (p3 ++ chunk_bytes ("data", pcm)) with p4.
  rewrite <- (app_nil_r (chunks_bytes after)).
  pose proof (pcm16_skip k p4 after [] (MkFormat (wf_audioFormat (read_fmt fmt (wf_data no_format)))
    (wf_channels (read_fmt fmt (wf_data no_format))) (wf_sampleRate (read_fmt fmt (wf_data no_format)))
    (wf_bitsPerSample (read_fmt fmt (wf_data no_format))) pcm) Hafter He4) as [-> _].
  rewrite app_nil_r, pcm16_end by lia. unfold read_fmt. cbn. by rewrite H1, H16.
Qed.

(** The loop of [wavInfo] stops at the samples. *)
Lemma info_loop : info_chunks (length file) (drop 12 file) (len file - 12) (MkInfoState 0 0 0 0) =
  Ok (MkInfoState (fmt_rate fmt) (fmt_channels fmt) 16 (len pcm)).
Proof.
  pose proof fmt_chunk_ok as Hf. pose proof data_chunk_ok as Hd.
  destruct wav_file_length as [_ [k ->]]. destruct Hfmt as (Hfl & _ & H16 & Hc & Hr).
  assert (E : len file - 12 = len (drop 12 file)).
  { rewrite wav_file_chunks. change (drop 12 (riff riffSize ++ ?l)) with l. rewrite (len_app (riff _)).
    change (len (riff riffSize)) with 12. lia. }
  rewrite E, wav_file_chunks. change (drop 12 (riff riffSize ++ ?l)) with l.
  rewrite info_skip by done. rewrite info_at by done.
  change (String.eqb ("fmt ", fmt).1 "fmt ") with true. cbn [snd].
  replace (len fmt <? 16) with false by lia. cbv zeta.
  rewrite info_skip by done. rewrite info_at by done.
  change (String.eqb ("data", pcm).1 "fmt ") with false.
  change (String.eqb ("data", pcm).1 "data") with true. cbn [snd is_rate is_channels is_bits].
  assert (Hs : forall i j, 0 <= i -> j <= 16 -> slice (take 16 fmt) i j = slice fmt i j).
  { intros i j Hi Hj. rewrite <- (take_drop 16 fmt) at 2. symmetry. apply slice_app_l; [done|].
    unfold len in *. rewrite length_take. lia. }
  rewrite !Hs by lia. rewrite H16. change (le_val (slice fmt 4 8)) with (fmt_rate fmt).
  change (le_val (slice fmt 2 4)) with (fmt_channels fmt).
  by replace ((0 <? fmt_rate fmt) && (0 <? fmt_channels fmt) && (0 <? 16)) with true by lia.
Qed.

Lemma readers_of_file :
  wavPCM16 file = Ok (pcm, info_of (fmt_rate fmt) (fmt_channels fmt) (len pcm)) /\
  wav_info file = Ok (info_of (fmt_rate fmt) (fmt_channels fmt) (len pcm)).
Proof.
  destruct wav_file_length as [Hlen _]. destruct Hfmt as (_ & _ & _ & Hc & Hr).
  pose proof (le_val_slice fmt 2 4 ltac:(lia)) as Hc2. pose proof (le_val_slice fmt 4 8 ltac:(lia)) as Hr2.
  change (le_val (slice fmt 2 4)) with (fmt_channels fmt) in Hc2.
  change (le_val (slice fmt 4 8)) with (fmt_rate fmt) in Hr2. simpl in Hc2, Hr2.
  set (ch := fmt_channels fmt) in *. set (rate := fmt_rate fmt) in *. split.
  - unfold wavPCM16. rewrite pcm16_loop. replace (len file <? 44) with false by lia.
    change (is_text "RIFF" _) with true. change (is_text "WAVE" _) with true.
    cbn [negb orb wf_audioFormat wf_channels wf_sampleRate wf_bitsPerSample wf_data].
    fold ch rate.
    replace (negb (1 =? 1) || negb (16 =? 16) || (rate <=? 0) || (ch <=? 0) || (len pcm =? 0))
      with false by lia.
    by rewrite byte_rate_fits by lia.
  - unfold wav_info, read_full.
    rewrite (proj2 (Nat.ltb_ge (length file) 12)) by (unfold len in Hlen; lia).
    change (is_text "RIFF" _) with true. change (is_text "WAVE" _) with true. cbn [negb orb].
    rewrite info_loop. cbn [is_rate is_channels is_bits is_data]. fold ch rate.
    replace ((rate <=? 0) || (ch <=? 0) || (16 <=? 0) || (len pcm <=? 0)) with false by lia.
    rewrite byte_rate_fits by lia.
    replace (rate * ch * 16) with (rate * ch * 2 * 8) by lia. rewrite Z.quot_mul by done.
    by replace (rate * ch * 2 <=? 0) with false by nia.
Qed.
End readers.

(** ** Facts: silence *)

Section frames.
Context (fb : Z) (Hfb : 0 < fb).

(** Frames before the end of [pcm] are seen the same with more samples after it. *)
Lemma silent_frames_app fuel pcm z offset : offset + fb <= len pcm ->
  silent_frames fuel (pcm ++ z) fb offset = silent_frames fuel pcm fb offset.
Proof.
  revert offset. induction fuel as [|fuel IH]; intros offset Ho; [done|]. cbn [silent_frames].
  destruct (Z.ltb_spec offset 0); [done|]. rewrite slice_app_l by lia.
  by rewrite IH by lia.
Qed.

(** Enough fuel for the frames up to [offset] is enough. *)
Lemma silent_frames_fuel f1 f2 pcm offset : offset < fb * Z.of_nat f1 -> offset < fb * Z.of_nat f2 ->
  silent_frames f1 pcm fb offset = silent_frames f2 pcm fb offset.
Proof.
  revert f2 offset. induction f1 as [|f1 IH]; intros f2 offset H1 H2.
  - destruct f2; [done|]. cbn [silent_frames]. by destruct (Z.ltb_spec offset 0); [|lia].
  - destruct f2 as [|f2]; cbn [silent_frames]; destruct (Z.ltb_spec offset 0); try lia.
    by rewrite (IH f2) by lia.
Qed.

Lemma silent_frames_bound fuel pcm offset : - fb <= offset ->
  0 <= silent_frames fuel pcm fb offset * fb <= offset + fb.
Proof.
  revert offset. induction fuel as [|fuel IH]; intros offset Ho; cbn [silent_frames]; [lia|].
  destruct (Z.ltb_spec offset 0); [lia|]. destruct (forallb _ _); [|lia].
  specialize (IH (offset - fb) ltac:(lia)). lia.
Qed.

Lemma make_bytes_add a b : 0 <= a -> 0 <= b -> make_bytes (a + b) = make_bytes a ++ make_bytes b.
Proof. intros. unfold make_bytes. rewrite Z2Nat.inj_add by lia. apply replicate_add. Qed.

Lemma make_bytes_zero n : forallb (Ascii.eqb zero_byte) (make_bytes n) = true.
Proof. unfold make_bytes. induction (Z.to_nat n) as [|k IH]; [done|]. exact IH. Qed.

(** Silence appended after whole frames counts frame by frame. *)
Lemma silent_frames_zeros pcm r fuel : len pcm + Z.of_nat r * fb <= fb * Z.of_nat fuel ->
  silent_frames fuel (pcm ++ make_bytes (Z.of_nat r * fb)) fb (len pcm + Z.of_nat r * fb - fb) =
  Z.of_nat r + silent_frames fuel pcm fb (len pcm - fb).
Proof.
  revert fuel. induction r as [|r IH]; intros fuel Hf.
  { change (make_bytes _) with (@nil Ascii.ascii). rewrite app_nil_r. rewrite Z.add_0_l. f_equal. lia. }
  assert (Z.of_nat (S r) * fb = Z.of_nat r * fb + fb) as E by lia. rewrite E in *.
  rewrite make_bytes_add, app_assoc by lia. set (p := pcm ++ make_bytes (Z.of_nat r * fb)) in *.
  assert (len p = len pcm + Z.of_nat r * fb) as Ep.
  { unfold p. rewrite len_app, len_make_bytes by lia. done. }
  pose proof (len_nonneg pcm). destruct fuel as [|fuel]; [nia|]. cbn [silent_frames].
  destruct (Z.ltb_spec (len pcm + (Z.of_nat r * fb + fb) - fb) 0); [lia|].
  rewrite slice_app_r by lia. rewrite Ep.
  replace (slice (make_bytes fb) _ _) with (make_bytes fb).
  2: { unfold slice. rewrite take_ge; [|rewrite length_drop; unfold make_bytes;
         rewrite length_replicate; lia].
       replace (Z.to_nat _) with O by lia. done. }
  rewrite make_bytes_zero, silent_frames_app by lia.
  replace (len pcm + (Z.of_nat r * fb + fb) - fb - fb) with (len pcm + Z.of_nat r * fb - fb) by lia.
  change (match fuel with O => 0 | S _ => _ end) with (silent_frames fuel p fb (len pcm + Z.of_nat r * fb - fb)).
  rewrite (silent_frames_fuel fuel (S fuel)) by lia. unfold p. rewrite IH by lia.
  cbn [silent_frames]. lia.
Qed.
End frames.

(** Whole frames of 16-bit samples. *)
Definition whole_frames (pcm : bytes) (channels : Z) : Prop := Z.rem (len pcm) (channels * 2) = 0.

Lemma trailing_app_zeros pcm ch r : 0 < ch -> whole_frames pcm ch ->
  trailingPCM16SilentFrames (pcm ++ make_bytes (Z.of_nat r * (ch * 2))) ch =
  Z.of_nat r + trailingPCM16SilentFrames pcm ch.
Proof.
  intros Hch Hw. unfold trailingPCM16SilentFrames. replace (ch <=? 0) with false by lia.
  assert (Z.rem (len pcm + Z.of_nat r * (ch * 2)) (ch * 2) = 0) as Hr.
  { rewrite Z.rem_add by (pose proof (len_nonneg pcm); nia). exact Hw. }
  unfold whole_frames in Hw. pose proof (len_nonneg pcm).
  rewrite len_app, len_make_bytes, Hr, Hw by nia. rewrite !Z.sub_0_r.
  set (fuel := length (pcm ++ make_bytes (Z.of_nat r * (ch * 2)))).
  assert (Z.of_nat fuel = len pcm + Z.of_nat r * (ch * 2)) as Ef.
  { unfold fuel. change (Z.of_nat (length ?l)) with (len l). rewrite len_app, len_make_bytes by nia. done. }
  clearbody fuel. assert (forall n, 0 <= n -> n <= ch * 2 * n) as Hn by nia.
  pose proof (Hn (Z.of_nat fuel) ltac:(lia)). pose proof (Hn (len pcm) ltac:(lia)).
  assert (0 <= Z.of_nat r * (ch * 2)) by nia.
  rewrite silent_frames_zeros by lia. f_equal.
  apply silent_frames_fuel; [lia|]. unfold len in *. lia.
Qed.

Lemma trailing_nonneg pcm ch : 0 < ch -> 0 <= trailingPCM16SilentFrames pcm ch.
Proof.
  intros Hch. unfold trailingPCM16SilentFrames. replace (ch <=? 0) with false by lia.
  set (off := len pcm - _ - _).
  assert (- (ch * 2) <= off).
  { unfold off. pose proof (len_nonneg pcm). pose proof (Z.rem_le (len pcm) (ch * 2)). lia. }
  pose proof (silent_frames_bound (ch * 2) ltac:(lia) (length pcm) pcm off ltac:(lia)). nia.
Qed.

(** What the service writes is such a file. *)
Definition fmt_body (rate ch : Z) : bytes :=
  le_bytes 2 1 ++ le_bytes 2 ch ++ le_bytes 4 rate ++ le_bytes 4 (rate * ch * 2) ++
  le_bytes 2 (ch * 2) ++ le_bytes 2 16.

Lemma written_wav_file rate ch pcm : Z.rem (len pcm) 2 = 0 ->
  wav_header rate ch (len pcm) ++ pcm = wav_file (36 + len pcm) [] [] [] (fmt_body rate ch) pcm.
Proof.
  intros Heven. unfold wav_file, chunks_bytes, chunk_bytes. cbn [map concat app fst snd].
  rewrite Heven. change (make_bytes 0) with (@nil Ascii.ascii).
  change (make_bytes (Z.rem (len (fmt_body rate ch)) 2)) with (@nil Ascii.ascii).
  rewrite !app_nil_r. unfold wav_header. cbn [header_pieces concat]. rewrite app_nil_r.
  unfold fmt_body, riff. by rewrite <- !app_assoc.
Qed.

Lemma fmt_body_pcm16 rate ch : 0 < rate < 2 ^ 32 -> 0 < ch < 2 ^ 16 ->
  pcm16_format (fmt_body rate ch) /\ fmt_channels (fmt_body rate ch) = ch /\
  fmt_rate (fmt_body rate ch) = rate.
Proof.
  intros Hrate Hch.
  assert (Ec : fmt_channels (fmt_body rate ch) = ch).
  { unfold fmt_channels. change (slice _ 2 4) with (le_bytes 2 ch). apply le_val_le_bytes. simpl. lia. }
  assert (Er : fmt_rate (fmt_body rate ch) = rate).
  { unfold fmt_rate. change (slice _ 4 8) with (le_bytes 4 rate). apply le_val_le_bytes. simpl. lia. }
  split_and!; [|done|done]. unfold pcm16_format. rewrite Ec, Er. split_and!; try done; lia.
Qed.

(** ** Theorems *)

(** C31: the two WAV readers agree.  On every well-formed file of 16-bit PCM, whatever
    other chunks stand before, between and after its format and its samples, [wavPCM16]
    returns exactly the samples, and [wavInfo] reports the same rate, channels,
    duration and size. *)
Theorem readers_agree (riffSize : Z) (before between after : list (string * bytes)) (fmt pcm : bytes) :
  Forall other_chunk before -> Forall other_chunk between -> Forall other_chunk after ->
  pcm16_format fmt -> 0 < len pcm < 2 ^ 32 ->
  let file := wav_file riffSize before between after fmt pcm in
  exists info, wavPCM16 file = Ok (pcm, info) /\ wav_info file = Ok info /\
    ai_SampleRate info = fmt_rate fmt /\ ai_Channels info = fmt_channels fmt /\ ai_Bytes info = len pcm.
Proof.
  intros Hb Hm Ha Hf Hp. cbv zeta. eexists.
  destruct (readers_of_file riffSize before between after fmt pcm) as [-> ->]; try done.

Qed.

(** The parts of an alert are kept apart.  With a configured rate and a part made of
    whole frames, the silence at the end of the part and the padding written after it
    last one second together, or as long as the part's own silence when that is longer. *)
Theorem alertTransitionPadding_gap (part : bytes) (rate ch : Z) :
  0 < rate < 2 ^ 32 -> 0 < ch < 2 ^ 16 -> whole_frames part ch ->
  trailingPCM16SilentFrames (part ++ alertTransitionPadding part rate ch Second) ch =
    Z.max rate (trailingPCM16SilentFrames part ch) /\
  whole_frames (part ++ alertTransitionPadding part rate ch Second) ch.
Proof.
  intros Hrate Hch Hw. pose proof (trailing_nonneg part ch ltac:(lia)) as Hk.
  assert (E : Z.quot (wrap64 (Second * rate + Second - 1)) Second = rate).
  { rewrite wrap64_id by (unfold int64_ok, Second, Millisecond; lia).
    rewrite Z.quot_div_nonneg by (unfold Second, Millisecond; lia).
    symmetry. apply Z.div_unique with (Second - 1); unfold Second, Millisecond; lia. }
  unfold alertTransitionPadding. replace (rate <=? 0) with false by lia.
  replace (ch <=? 0) with false by lia. cbv zeta. rewrite E.
  set (k := trailingPCM16SilentFrames part ch) in *.
  destruct (Z.leb_spec (rate - k) 0) as [H|H]; [rewrite app_nil_r; split; [|done]; fold k; lia|].
  replace ((rate - k) * ch * 2) with (Z.of_nat (Z.to_nat (rate - k)) * (ch * 2)) by lia. split.
  - rewrite trailing_app_zeros by (done || lia). fold k. lia.
  - unfold whole_frames in *. pose proof (len_nonneg part).
    rewrite len_app, len_make_bytes, Z.rem_add by nia. done.
Qed.

(** ** Witnesses *)

Definition sample_list : string * bytes := ("LIST", bytes_of "xyz").
Definition sample_pcm : bytes := [byte_of 1; byte_of 2; zero_byte; zero_byte].

Lemma readers_agree_witness :
  exists info, wavPCM16 (wav_file 0 [sample_list] [] [sample_list] (fmt_body 48000 1) sample_pcm) =
    Ok (sample_pcm, info) /\ ai_Bytes info = 4.
Proof.
  assert (Hl : Forall other_chunk [sample_list]).
  { repeat constructor; try done; discriminate. }
  destruct (readers_agree 0 [sample_list] [] [sample_list] (fmt_body 48000 1) sample_pcm Hl
    (List.Forall_nil _) Hl) as (info & E & _ & _ & _ & Eb).
  - apply fmt_body_pcm16; lia.
  - split; done.
  - exists info. by split.
Defined.

Lemma alertTransitionPadding_gap_witness :
  trailingPCM16SilentFrames (sample_pcm ++ alertTransitionPadding sample_pcm 8 1 Second) 1 = 8 /\
  len (alertTransitionPadding sample_pcm 8 1 Second) = 14.
Proof.
  destruct (alertTransitionPadding_gap sample_pcm 8 1) as [E _]; [lia|lia|done|].
  split; [exact E|by vm_compute].
Defined.
