(* ===== verification/AudioFiles.v ===== *)
(** Audio on disk ([internal/playlist/audio.go] and [service.go]): the WAV writer
    ([pcm16WAVStream]), the assembly of an alert's parts, downloads, and the
    conversions done by [ffmpeg].

    Every operation that can fail consults the fault oracle of [World]; a failed
    write leaves some front of its data behind.  Opened files are followed by
    their path. *)

From S2P Require Import Prelude UnicodeTables GoStrings GoTime GoValue GoPath AlertPacket.
From S2P Require Import PlaylistModel World AlertRequest AudioRetention PlannerState AlertCommit Wav.

#[local] Open Scope Z_scope.
#[local] Open Scope string_scope.
#[local] Open Scope haze_scope.

(** How a run of [ffmpeg] ended: its error, what it printed, and what is in its
    output file. *)
Record ffmpegRun := MkRun { run_err : option string; run_output : string; run_file : option string }.

(** The response to an HTTP request. *)
Record httpResponse := MkResponse { StatusCode : Z; resp_Status : string; resp_Body : string }.

Class Tools := {
  (* bytes on disk after the n-th operation, a write, failed; [None]: no file was created *)
  partial : nat -> option nat;
  (* the bytes of the values the service keeps in files *)
  encoded : fileData -> string;
  http_get : nat -> string -> result string httpResponse;
  FFMPEG : string;
  run_ffmpeg : nat -> list string -> gmap string File -> ffmpegRun }.

Section audio_files.
Context `{Env} `{Tools}.

(** ** Files as bytes *)

Definition content_of (f : File) : bytes :=
  match f_data f with
  | Raw s => bytes_of s
  | d => bytes_of (encoded d)
  end.
Definition raw_file (b : bytes) (t : Z) : File := MkFile (Raw (string_of b)) t.

(** The time a file is stamped with. *)
Definition stamp : M World Z := gets (fun w => clock (pred (reads w))).
Definition put (path : string) (b : bytes) : M World unit :=
  let! t := stamp in set_files (insert path (raw_file b t)).

(** [m] when the next operation succeeds. *)
Definition attempting {A} (m : M World (result string A)) : M World (result string A) :=
  let! err := attempt in match err with Some e => ret (Err e) | None => m end.

Definition the_file (path : string) : M World (result string bytes) :=
  gets (fun w => match files w !! path with
                 | Some f => Ok (content_of f)
                 | None => Err (not_found path)
                 end).
(** [os.ReadFile], [os.Open] and [os.Stat], by what they give access to. *)
Definition ReadFile (path : string) : M World (result string bytes) := attempting (the_file path).
Definition Stat (path : string) : M World (result string Z) :=
  attempting (let! r := the_file path in ret (rmap len r)).

Definition MkdirAll (path : string) : M World (option string) := attempt.

(** [os.WriteFile]. *)
Definition WriteFile (path : string) (b : bytes) : M World (option string) :=
  let! n := gets attempts in
  let! err := attempt in
  match err with
  | Some e => match partial n with Some k => put path (take k b) | None => ret tt end ;;; ret (Some e)
  | None => put path b ;;; ret None
  end.

(** [os.Create]. *)
Definition Create (path : string) : M World (option string) :=
  let! err := attempt in
  match err with
  | Some e => ret (Some e)
  | None => put path [] ;;; ret None
  end.

(** [file.Write] at an offset: the error and the number of bytes written. *)
Definition overwrite (off : nat) (b c : bytes) : bytes :=
  (take off c ++ b ++ drop (off + length b) c)%list.
Definition write_at (path : string) (off : nat) (b : bytes) : M World (option string * nat) :=
  let! n := gets attempts in
  let! err := attempt in
  let! t := stamp in
  let k := match err with Some _ => Nat.min (default O (partial n)) (length b) | None => length b end in
  set_files (alter (fun f => raw_file (overwrite off (take k b) (content_of f)) t) path) ;;;
  ret (err, k).

(** A sequence of writes, left at the first error; the offset reached. *)
Fixpoint write_pieces (path : string) (off : nat) (l : list bytes) : M World (option string * nat) :=
  match l with
  | [] => ret (None, off)
  | b :: l' =>
      let! r := write_at path off b in
      match r with
      | (Some e, k) => ret (Some e, (off + k)%nat)
      | (None, k) => write_pieces path (off + k) l'
      end
  end.

(** ** [pcm16WAVStream] *)

(** [ws_file] is the offset of the open file. *)
Record pcm16WAVStream := MkStream {
  ws_path : string; ws_tmp : string; ws_file : option nat; ws_sampleRate : Z; ws_channels : Z;
  ws_dataBytes : Z }.

Definition set_file (o : option nat) (s : pcm16WAVStream) : pcm16WAVStream :=
  MkStream (ws_path s) (ws_tmp s) o (ws_sampleRate s) (ws_channels s) (ws_dataBytes s).
Definition set_written (o : option nat) (n : Z) (s : pcm16WAVStream) : pcm16WAVStream :=
  MkStream (ws_path s) (ws_tmp s) o (ws_sampleRate s) (ws_channels s) n.

Definition writeHeader (off : nat) (dataSize : Z) (s : pcm16WAVStream) :
    M World (option string * pcm16WAVStream) :=
  let! r := write_pieces (ws_tmp s) off (header_pieces (ws_sampleRate s) (ws_channels s) dataSize) in
  ret (r.1, set_file (Some r.2) s).

Definition newPCM16WAVStream (path : string) (sampleRate channels : Z) :
    M World (result string pcm16WAVStream) :=
  let sampleRate := if (sampleRate <=? 0)%Z then 48000 else sampleRate in
  let channels := if (channels <=? 0)%Z then 1 else channels in
  let! err := MkdirAll (Dir path) in
  match err with
  | Some e => ret (Err e)
  | None =>
      let tmp := path +:+ ".tmp" in
      let! err := Create tmp in
      match err with
      | Some e => ret (Err e)
      | None =>
          let! r := writeHeader 0 0 (MkStream path tmp (Some O) sampleRate channels 0) in
          match r with
          | (Some e, _) => remove_file tmp ;;; ret (Err e)
          | (None, s) => ret (Ok s)
          end
      end
  end.

Definition max_uint32 : Z := 2 ^ 32 - 1.

Definition Append (pcm : bytes) (s : pcm16WAVStream) : M World (option string * pcm16WAVStream) :=
  match ws_file s with
  | None => ret (Some "PCM WAV stream is closed", s)
  | Some off =>
      let frameBytes := ws_channels s * 2 in
      if negb (Z.rem (len pcm) frameBytes =? 0)%Z
      then ret (Some "PCM payload must contain complete s16le frames", s)
      else if ((max_uint32 - ws_dataBytes s) mod 2 ^ 64 <? len pcm)%Z
      then ret (Some "PCM WAV payload exceeds RIFF size limit", s)
      else
        let! r := write_at (ws_tmp s) off pcm in
        let '(err, written) := r in
        let s := set_written (Some (off + written)%nat) ((ws_dataBytes s + Z.of_nat written) mod 2 ^ 64) s in
        match err with
        | Some e => ret (Some e, s)
        | None => if negb (Z.of_nat written =? len pcm)%Z then ret (Some "short write", s) else ret (None, s)
        end
  end.

Definition Commit (s : pcm16WAVStream) : M World (option string * pcm16WAVStream) :=
  match ws_file s with
  | None => ret (Some "PCM WAV stream is closed", s)
  | Some _ =>
      (* file.Seek *)
      let! err := attempt in
      match err with
      | Some e => ret (Some e, s)
      | None =>
          let! r := writeHeader 0 (ws_dataBytes s) (set_file (Some O) s) in
          let '(err, s) := r in
          match err with
          | Some e => ret (Some e, s)
          | None =>
              (* file.Close *)
              let! err := attempt in
              let s := set_file None s in
              match err with
              | Some e => ret (Some e, s)
              | None =>
                  let! err := Rename (ws_tmp s) (ws_path s) in
                  match err with
                  | Some e => remove_file (ws_tmp s) ;;; ret (Some e, s)
                  | None => ret (None, s)
                  end
              end
          end
      end
  end.

Definition Abandon (s : pcm16WAVStream) : M World unit := remove_file (ws_tmp s).

Definition writePCM16WAV (path : string) (pcm : bytes) (sampleRate channels : Z) :
    M World (option string) :=
  let! r := newPCM16WAVStream path sampleRate channels in
  match r with
  | Err e => ret (Some e)
  | Ok stream =>
      let! r := Append pcm stream in
      match r with
      | (Some e, stream) => Abandon stream ;;; ret (Some e)
      | (None, stream) =>
          let! r := Commit stream in
          Abandon r.2 ;;; ret r.1
      end
  end.

(** ** Information about files *)

Definition wavInfo (path : string) : M World (result string audioInfo) :=
  let! r := ReadFile path in ret (rbind wav_info r).
Definition pcmInfo (path : string) (sampleRate channels : Z) : M World (result string audioInfo) :=
  let! r := Stat path in ret (rbind (fun size => pcm_info size sampleRate channels) r).

(** [os.Rename] to end an operation that wrote a temporary file. *)
Definition wavToPCM16File (inputPath outputPath : string) (sampleRate channels : Z) :
    M World (option string) :=
  let! raw := ReadFile inputPath in
  match rbind wavPCM16 raw with
  | Err e => ret (Some e)
  | Ok (pcm, info) =>
      if negb (ai_SampleRate info =? sampleRate)%Z || negb (ai_Channels info =? channels)%Z
      then ret (Some "WAV format requires resampling")
      else
        let! err := MkdirAll (Dir outputPath) in
        match err with
        | Some e => ret (Some e)
        | None =>
            let tmp := outputPath +:+ ".tmp" in
            let! err := WriteFile tmp pcm in
            match err with
            | Some e => ret (Some e)
            | None => Rename tmp outputPath
            end
        end
  end.

Definition writeAlertAudioFile (path : string) (data : bytes) : M World (option string) :=
  if (length data =? 0)%nat then ret (Some "alert audio is empty")
  else
    let! err := MkdirAll (Dir path) in
    match err with
    | Some e => ret (Some e)
    | None =>
        let tmp := path +:+ ".tmp" in
        let! err := WriteFile tmp data in
        match err with
        | Some e => ret (Some e)
        | None => Rename tmp path
        end
    end.

(** ** Assembling an alert *)

Definition nonempty (l : list bytes) : list bytes := List.filter (fun b => (0 <? length b)%nat) l.

(** What [combineAlertAudioSegments] writes, one piece at a time. *)
Definition alert_pieces (preRoll lead voice tail postRoll : bytes) (sampleRate channels : Z) : list bytes :=
  let gap part := alertTransitionPadding part sampleRate channels Second in
  let with_gap part := if (length part =? 0)%nat then [] else [part; gap part] in
  nonempty (with_gap preRoll ++ with_gap lead ++ [voice; tail] ++
    (if (length postRoll =? 0)%nat then []
     else [(if (0 <? length tail)%nat then gap tail else silencePCM sampleRate channels Second); postRoll])).

Definition combineAlertAudioSegments (outputPath : string) (preRoll lead : bytes) (voicePath : string)
    (tail postRoll : bytes) (sampleRate channels : Z) : M World (option string) :=
  let! voice := ReadFile voicePath in
  match voice with
  | Err e => ret (Some e)
  | Ok voice =>
      let! err := attempt in
      match err with
      | Some e => ret (Some e)
      | None =>
          if (length voice =? 0)%nat then ret (Some "alert voice audio is empty")
          else
            let! err := MkdirAll (Dir outputPath) in
            match err with
            | Some e => ret (Some e)
            | None =>
                let tmp := outputPath +:+ ".tmp" in
                let! err := Create tmp in
                match err with
                | Some e => ret (Some e)
                | None =>
                    let! r := write_pieces tmp 0
                      (alert_pieces preRoll lead voice tail postRoll sampleRate channels) in
                    (* file.Close *)
                    let! closeErr := attempt in
                    match r.1, closeErr with
                    | Some e, _ | None, Some e => remove_file tmp ;;; ret (Some e)
                    | None, None => Rename tmp outputPath
                    end
                end
            end
      end
  end.

Definition combineConfiguredLeadAlertAudio (outputPath : string) (leadIn headerOrTone : bytes)
    (voicePath : string) (eom leadOut : bytes) (sampleRate channels : Z) : M World (option string) :=
  combineAlertAudioSegments outputPath leadIn headerOrTone voicePath eom leadOut sampleRate channels.
Definition combineAlertAudio (outputPath : string) (lead : bytes) (voicePath : string) (tail : bytes)
    (sampleRate channels : Z) : M World (option string) :=
  combineAlertAudioSegments outputPath [] lead voicePath tail [] sampleRate channels.
Definition combineSAMEAlertAudio (outputPath : string) (header : bytes) (voicePath : string) (eom : bytes)
    (sampleRate channels : Z) : M World (option string) :=
  combineAlertAudio outputPath header voicePath eom sampleRate channels.
Definition combineAttentionAlertAudio (outputPath : string) (tone : bytes) (voicePath : string)
    (sampleRate channels : Z) : M World (option string) :=
  combineAlertAudio outputPath tone voicePath [] sampleRate channels.

(** ** Downloads *)

Definition downloadFile (sourceURL outputPath : string) (maxBytes : Z) : M World (option string) :=
  if TrimSpace sourceURL =? "" then ret (Some "missing audio URL")
  else
    let! n := gets attempts in
    match http_get n sourceURL with
    | Err e => ret (Some e)
    | Ok response =>
        if (StatusCode response <? 200)%Z || (300 <=? StatusCode response)%Z
        then ret (Some ("audio URL returned " +:+ resp_Status response))
        else
          let! err := MkdirAll (Dir outputPath) in
          match err with
          | Some e => ret (Some e)
          | None =>
              let tmp := outputPath +:+ ".tmp" in
              let! err := Create tmp in
              match err with
              | Some e => ret (Some e)
              | None =>
                  (* io.Copy from a LimitReader, then Close *)
                  let! r := write_at tmp 0
                    (take (Z.to_nat (maxBytes + 1)) (bytes_of (resp_Body response))) in
                  let! closeErr := attempt in
                  match r.1, closeErr with
                  | Some e, _ | None, Some e => remove_file tmp ;;; ret (Some e)
                  | None, None =>
                      let! size := Stat tmp in
                      match size with
                      | Ok size =>
                          if (maxBytes <? size)%Z
                          then remove_file tmp ;;;
                               ret (Some ("audio resource exceeds " +:+ Itoa maxBytes +:+ " bytes"))
                          else Rename tmp outputPath
                      | Err _ => Rename tmp outputPath
                      end
                  end
              end
          end
    end.

(** ** Conversions *)

Definition ffmpeg_bin : string := if TrimSpace FFMPEG =? "" then "ffmpeg" else TrimSpace FFMPEG.

(** The last argument is the output file. *)
Definition convert (args : string -> list string) (failure outputPath : string) : M World (option string) :=
  let! err := MkdirAll (Dir outputPath) in
  match err with
  | Some e => ret (Some e)
  | None =>
      let tmp := outputPath +:+ ".tmp" in
      remove_file tmp ;;;
      let! n := gets attempts in
      let! run := gets (fun w => run_ffmpeg n (ffmpeg_bin :: args tmp) (files w)) in
      match run_file run with
      | Some b => put tmp (bytes_of b)
      | None => ret tt
      end ;;;
      match run_err run with
      | Some e =>
          remove_file tmp ;;; ret (Some (failure +:+ e +:+ ": " +:+ TrimSpace (run_output run)))
      | None => Rename tmp outputPath
      end
  end.

Definition or_default (v d : Z) : Z := if (v <=? 0)%Z then d else v.

Definition convertAudioToPCM (inputPath outputPath : string) (sampleRate channels : Z) :
    M World (option string) :=
  let sampleRate := or_default sampleRate 48000 in
  let channels := or_default channels 1 in
  convert (fun tmp => ["-hide_banner"; "-loglevel"; "error"; "-y"; "-i"; inputPath; "-vn";
    "-ac"; Itoa channels; "-ar"; Itoa sampleRate; "-f"; "s16le"; "-acodec"; "pcm_s16le"; tmp])
    "ffmpeg audio conversion failed: " outputPath.

Definition convertAlertAudioToPCM (inputPath outputPath : string) (sampleRate channels : Z) :
    M World (option string) :=
  let sampleRate := or_default sampleRate 48000 in
  let channels := or_default channels 1 in
  convert (fun tmp => ["-hide_banner"; "-loglevel"; "error"; "-nostdin"; "-y"; "-i"; inputPath; "-vn";
    "-sn"; "-dn"; "-af"; "loudnorm=I=-16:TP=-1.5:LRA=11"; "-ac"; Itoa channels; "-ar"; Itoa sampleRate;
    "-f"; "s16le"; "-acodec"; "pcm_s16le"; tmp])
    "ffmpeg alert audio conversion failed: " outputPath.

Definition convertRawPCM16FileToPCM (inputPath outputPath : string)
    (sourceRate sourceChannels sampleRate channels : Z) : M World (option string) :=
  let sourceRate := or_default sourceRate 48000 in
  let sourceChannels := or_default sourceChannels 1 in
  let sampleRate := or_default sampleRate 48000 in
  let channels := or_default channels 1 in
  convert (fun tmp => ["-hide_banner"; "-loglevel"; "error"; "-nostdin"; "-y"; "-f"; "s16le";
    "-acodec"; "pcm_s16le"; "-ar"; Itoa sourceRate; "-ac"; Itoa sourceChannels; "-i"; inputPath;
    "-af"; "loudnorm=I=-16:TP=-1.5:LRA=11"; "-f"; "s16le"; "-acodec"; "pcm_s16le";
    "-ar"; Itoa sampleRate; "-ac"; Itoa channels; tmp])
    "ffmpeg alert PCM conversion failed: " outputPath.

Definition convertAudioToWAV (inputPath outputPath : string) (sampleRate channels : Z) :
    M World (option string) :=
  let sampleRate := or_default sampleRate 48000 in
  let channels := or_default channels 1 in
  convert (fun tmp => ["-hide_banner"; "-loglevel"; "error"; "-y"; "-i"; inputPath; "-vn";
    "-ac"; Itoa channels; "-ar"; Itoa sampleRate; "-f"; "wav"; "-acodec"; "pcm_s16le"; tmp])
    "ffmpeg audio conversion failed: " outputPath.

End audio_files.

(** ** Facts: which files an operation touches *)

(** [m] changes no file outside [P] and sends nothing. *)
Definition only {A} (P : string -> Prop) (m : M World A) : Prop :=
  forall w, (forall k, ~ P k -> files (m w).2 !! k = files w !! k) /\ published (m w).2 = published w.

Lemma only_ret {A} P (a : A) : only P (ret a).
Proof. done. Qed.
Lemma only_gets {A} P (f : World -> A) : only P (gets f).
Proof. done. Qed.
(** The continuation, for the values [m] may return. *)
Lemma only_bind_at {A B} P (m : M World A) (f : A -> M World B) :
  only P m -> (forall w, only P (f (m w).1)) -> only P (mbind f m).
Proof.
  intros Hm Hf w. rewrite mbind_eq. destruct (Hm w) as [H1 H2].
  destruct (Hf w (m w).2) as [H3 H4]. split; [|congruence].
  intros k Hk. by rewrite H3, H1.
Qed.
Lemma only_bind {A B} P (m : M World A) (f : A -> M World B) :
  only P m -> (forall a, only P (f a)) -> only P (mbind f m).
Proof.
  intros Hm Hf. apply only_bind_at; auto.
Qed.
Lemma only_mono {A} (P Q : string -> Prop) (m : M World A) :
  (forall k, P k -> Q k) -> only P m -> only Q m.
Proof. intros HPQ Hm w. destruct (Hm w) as [H1 H2]. split; [|done]. intros k Hk. apply H1. auto. Qed.
Lemma only_set_files P f :
  (forall fs k, ~ P k -> f fs !! k = fs !! k) -> only P (set_files f).
Proof. intros Hf w. split; [|done]. intros k Hk. by apply Hf. Qed.

(** Every value [m] may return satisfies [Q]. *)
Definition returns {A} (Q : A -> Prop) (m : M World A) : Prop := forall w, Q (m w).1.
Lemma returns_ret {A} (Q : A -> Prop) a : Q a -> returns Q (ret a).
Proof. by intros ? w. Qed.
Lemma returns_bind_at {A B} (Q : B -> Prop) (m : M World A) (f : A -> M World B) :
  (forall w, returns Q (f (m w).1)) -> returns Q (mbind f m).
Proof. intros Hf w. rewrite mbind_eq. apply Hf. Qed.
Lemma returns_bind {A B} (Q : B -> Prop) (m : M World A) (f : A -> M World B) :
  (forall a, returns Q (f a)) -> returns Q (mbind f m).
Proof. intros Hf. by apply returns_bind_at. Qed.
Lemma returns_bind_with {A B} (P : A -> Prop) (Q : B -> Prop) (m : M World A) (f : A -> M World B) :
  returns P m -> (forall a, P a -> returns Q (f a)) -> returns Q (mbind f m).
Proof. intros Hm Hf. apply returns_bind_at. intros w. apply Hf, Hm. Qed.

Section frames.
Context `{Env} `{Tools} (P : string -> Prop).

Lemma only_attempt : only P attempt.
Proof. done. Qed.
Lemma only_now : only P now.
Proof. done. Qed.
Lemma only_stamp : only P stamp.
Proof. done. Qed.
Lemma only_remove path : P path -> only P (remove_file path).
Proof.
  intros Hp. apply only_set_files. intros fs k Hk. rewrite lookup_delete_ne; [done|]. by intros <-.
Qed.
Lemma only_put path b : P path -> only P (put path b).
Proof.
  intros Hp. apply only_bind; [done|]. intros t. apply only_set_files. intros fs k Hk.
  rewrite lookup_insert_ne; [done|]. by intros <-.
Qed.
Lemma only_Rename s t : P s -> P t -> only P (Rename s t).
Proof.
  intros Hs Ht. apply only_bind; [done|]. intros [e|]; [done|].
  apply only_bind; [|done]. apply only_set_files. intros fs k Hk.
  apply move_other; by intros ->.
Qed.
Lemma only_alter path f : P path -> only P (set_files (alter f path)).
Proof.
  intros Hp. apply only_set_files. intros fs k Hk. rewrite lookup_alter_ne; [done|]. by intros <-.
Qed.
Lemma only_queueID prefix : only P (queueID prefix).
Proof. intros w. unfold queueID, now. by destruct (random_hex (reads w)). Qed.
End frames.

Create HintDb files.
#[export] Hint Resolve only_ret only_gets only_attempt only_now only_stamp only_remove only_put
  only_Rename only_alter only_queueID : files.

(** Walk through an operation: every branch ends in a hint. *)
Ltac only_walk :=
  repeat first
    [ solve [eauto 2 with files]
    | match goal with
      | |- only _ (mbind _ _) => apply only_bind; [|intros ?]
      | |- only _ (match ?x with _ => _ end) => destruct x
      | |- only _ (let '(_, _) := ?x in _) => destruct x
      | |- only _ (let _ := _ in _) => cbv zeta
      end ].

Section frames_of_operations.
Context `{Env} `{Tools} (P : string -> Prop).

Lemma only_ReadFile path : only P (ReadFile path).
Proof. unfold ReadFile, attempting, the_file. only_walk. Qed.
Lemma only_Stat path : only P (Stat path).
Proof. unfold Stat, attempting, the_file. only_walk. Qed.
Lemma only_MkdirAll path : only P (MkdirAll path).
Proof. done. Qed.
Lemma only_WriteFile path b : P path -> only P (WriteFile path b).
Proof. intros. unfold WriteFile. only_walk. Qed.
Lemma only_Create path : P path -> only P (Create path).
Proof. intros. unfold Create. only_walk. Qed.
Lemma only_write_at path off b : P path -> only P (write_at path off b).
Proof. intros. unfold write_at. only_walk. Qed.
Lemma only_write_pieces path off l : P path -> only P (write_pieces path off l).
Proof.
  intros Hp. revert off. induction l as [|b l IH]; intros off; [done|]. cbn [write_pieces].
  apply only_bind; [by apply only_write_at|]. intros [[e|] k]; [done|apply IH].
Qed.
Lemma only_wavInfo path : only P (wavInfo path).
Proof. unfold wavInfo, ReadFile, attempting, the_file. only_walk. Qed.
Lemma only_pcmInfo path r c : only P (pcmInfo path r c).
Proof. unfold pcmInfo, Stat, attempting, the_file. only_walk. Qed.
End frames_of_operations.
#[export] Hint Resolve only_ReadFile only_Stat only_MkdirAll only_WriteFile only_Create only_write_at
  only_write_pieces only_wavInfo only_pcmInfo : files.

(** The operations that end by renaming [path ++ ".tmp"] to [path]. *)
Definition at_path (path k : string) : Prop := k = path \/ k = path +:+ ".tmp".
Lemma at_path_self path : at_path path path.
Proof. by left. Qed.
Lemma at_path_tmp path : at_path path (path +:+ ".tmp").
Proof. by right. Qed.
#[export] Hint Resolve at_path_self at_path_tmp : files.

Section ending_in_rename.
Context `{Env} `{Tools}.

Lemma only_wavToPCM16File i o r c : only (at_path o) (wavToPCM16File i o r c).
Proof. unfold wavToPCM16File. only_walk. Qed.
Lemma only_writeAlertAudioFile path b : only (at_path path) (writeAlertAudioFile path b).
Proof. unfold writeAlertAudioFile. only_walk. Qed.
Lemma only_combine o pre lead v tail post r c :
  only (at_path o) (combineAlertAudioSegments o pre lead v tail post r c).
Proof. unfold combineAlertAudioSegments. only_walk. Qed.
Lemma only_downloadFile u o n : only (at_path o) (downloadFile u o n).
Proof. unfold downloadFile. only_walk. Qed.
Lemma only_convert args failure o : only (at_path o) (convert args failure o).
Proof. unfold convert. only_walk. Qed.
End ending_in_rename.
#[export] Hint Resolve only_wavToPCM16File only_writeAlertAudioFile only_combine only_downloadFile
  only_convert : files.

(** The WAV stream works on its temporary file until it is committed. *)
Section frames_of_streams.
Context `{Env} `{Tools}.

Lemma only_writeHeader P off n s : P (ws_tmp s) -> only P (writeHeader off n s).
Proof. intros. unfold writeHeader. only_walk. Qed.
Lemma only_newPCM16WAVStream path r c : only (eq (path +:+ ".tmp")) (newPCM16WAVStream path r c).
Proof.
  unfold newPCM16WAVStream. do 4 (only_walk; try (apply only_writeHeader; done)).
Qed.
Lemma only_Append P pcm s : P (ws_tmp s) -> only P (Append pcm s).
Proof. intros. unfold Append. only_walk. Qed.
Lemma only_Commit P s : P (ws_tmp s) -> P (ws_path s) -> only P (Commit s).
Proof.
  intros. unfold Commit. destruct (ws_file s); [|done]. apply only_bind; [done|]. intros [e|]; [done|].
  apply only_bind_at; [by apply only_writeHeader|]. intros w. unfold writeHeader. rewrite mbind_eq.
  cbn [ret fst snd]. destruct ((write_pieces _ _ _ w).1) as [[e|] off]; cbn [fst snd]; [done|].
  cbn [set_file ws_tmp ws_path]. only_walk.
Qed.

(** A stream keeps its names. *)
Definition named (path : string) (s : pcm16WAVStream) : Prop :=
  ws_path s = path /\ ws_tmp s = path +:+ ".tmp".
Lemma writeHeader_named path off n s : named path s -> returns (fun r => named path r.2) (writeHeader off n s).
Proof. intros Hs. apply returns_bind_at. intros w. by apply returns_ret. Qed.
Lemma newPCM16WAVStream_named path r c :
  returns (fun r => match r with Ok s => named path s | Err _ => True end) (newPCM16WAVStream path r c).
Proof.
  unfold newPCM16WAVStream. cbv zeta. apply returns_bind. intros [e|]; [done|].
  apply returns_bind. intros [e|]; [done|]. eapply returns_bind_with; [by apply writeHeader_named|].
  intros [[e|] s] Hs; [by apply returns_bind|]. by apply returns_ret.
Qed.
Lemma Append_named path pcm s : named path s -> returns (fun r => named path r.2) (Append pcm s).
Proof.
  intros Hs. assert (Hr : forall err s', named path s' ->
    returns (fun r : option string * pcm16WAVStream => named path r.2) (ret (err, s')))
    by (intros err s' Hn w; exact Hn).
  unfold Append. destruct (ws_file s); [|by apply Hr]. cbv zeta. destruct (negb _); [by apply Hr|].
  destruct (Z.ltb _ _); [by apply Hr|]. apply returns_bind. intros [[e|] k]; [by apply Hr|].
  destruct (negb _); by apply Hr.
Qed.
Lemma Commit_named path s : named path s -> returns (fun r => named path r.2) (Commit s).
Proof.
  intros Hs. unfold Commit. destruct (ws_file s); [|by apply returns_ret]. apply returns_bind. intros [e|]; [by apply returns_ret|].
  eapply returns_bind_with; [by apply (writeHeader_named path)|]. intros [[e|] s'] Hs'; [by apply returns_ret|].
  apply returns_bind. intros [e|]; [by apply returns_ret|]. apply returns_bind. intros [e|]; [|by apply returns_ret].
  apply returns_bind. intros _. by apply returns_ret.
Qed.

Lemma only_writePCM16WAV path pcm r c : only (at_path path) (writePCM16WAV path pcm r c).
Proof.
  unfold writePCM16WAV. apply only_bind_at.
  { eapply only_mono; [|apply only_newPCM16WAVStream]. intros k <-. by right. }
  intros w. pose proof (newPCM16WAVStream_named path r c w) as Hn. cbn beta in Hn.
  destruct ((newPCM16WAVStream path r c w).1) as [s|e]; [|done].
  assert (Htmp : forall s', named path s' -> at_path path (ws_tmp s')) by (intros s' [_ ->]; by right).
  assert (Hpath : forall s', named path s' -> at_path path (ws_path s')) by (intros s' [-> _]; by left).
  apply only_bind_at; [by apply only_Append, Htmp|]. intros w'.
  pose proof (Append_named path pcm s Hn w') as Hn'. cbn beta in Hn'.
  destruct ((Append pcm s w').1) as [[e|] s']; cbn [fst snd] in *.
  { apply only_bind; [|done]. by apply only_remove, Htmp. }
  apply only_bind_at; [apply only_Commit; auto|]. intros w''.
  apply only_bind; [|done]. apply only_remove, Htmp. by apply (Commit_named path s').
Qed.
End frames_of_streams.

(** ** Facts: what is written *)

Lemma app_ne s t : t <> "" -> s <> s +:+ t.
Proof.
  intros Ht E%(f_equal bytes_of). rewrite bytes_of_app in E.
  apply (f_equal length) in E. rewrite length_app in E. destruct t; [done|]. simpl in E. lia.
Qed.

Section contents.
Context `{Env} `{Tools}.

Definition content_at (path : string) (w : World) : option bytes := content_of <$> files w !! path.

Lemma content_raw b t : content_of (raw_file b t) = b.
Proof. apply bytes_of_string_of. Qed.

Lemma content_only {A} P (m : M World A) w k : only P m -> ~ P k -> content_at k (m w).2 = content_at k w.
Proof. intros Hm Hk. unfold content_at. by rewrite (proj1 (Hm w) k Hk). Qed.

Lemma put_spec path b w : content_at path (put path b w).2 = Some b.
Proof. unfold content_at. cbn. rewrite lookup_insert_eq. cbn. by rewrite bytes_of_string_of. Qed.

Lemma Rename_ok s t w : (Rename s t w).1 = None ->
  content_at t (Rename s t w).2 = (if decide (files w !! s = None) then content_at t w else content_at s w).
Proof.
  pose proof (Rename_spec s t w) as Hr. destruct (Rename s t w) as [err w']. cbn. intros ->.
  destruct Hr as [_ Hf]. unfold content_at. rewrite Hf. case_decide as E.
  - unfold move. by rewrite E.
  - destruct (files w !! s) as [f|] eqn:Ef; [|done]. by rewrite (move_target s t (files w) f Ef).
Qed.

Lemma Rename_err s t w e : (Rename s t w).1 = Some e -> files (Rename s t w).2 = files w.
Proof.
  pose proof (Rename_spec s t w) as Hr. destruct (Rename s t w) as [err w']. cbn. intros ->.
  by destruct Hr.
Qed.

(** An operation renamed over [t] at the end: it replaced [t], or left it alone. *)
Lemma Rename_content s t w c : content_at s w = Some c ->
  content_at t (Rename s t w).2 =
    match (Rename s t w).1 with None => Some c | Some _ => content_at t w end.
Proof.
  intros Hc. destruct ((Rename s t w).1) as [e|] eqn:E.
  - unfold content_at. by rewrite (Rename_err s t w e E).
  - rewrite Rename_ok by done. case_decide as Hn; [|done].
    unfold content_at in Hc. by rewrite Hn in Hc.
Qed.

Lemma overwrite_end c b : overwrite (length c) b c = (c ++ b)%list.
Proof.
  unfold overwrite. rewrite take_ge by lia. rewrite drop_ge by lia. by rewrite app_nil_r.
Qed.

Lemma overwrite_app off a b c : (off <= length c)%nat ->
  overwrite (off + length a) b (overwrite off a c) = overwrite off (a ++ b) c.
Proof.
  intros Ho. unfold overwrite.
  assert (E : length (take off c ++ a) = (off + length a)%nat)
    by (rewrite length_app, length_take; lia).
  rewrite (app_assoc (take off c)), take_app_length' by done.
  rewrite drop_app_ge by lia. rewrite E, drop_drop, length_app, <- !app_assoc.
  do 3 f_equal. f_equal. lia.
Qed.

Lemma write_at_spec path off b w c : content_at path w = Some c ->
  let '((err, k), w') := write_at path off b w in
  (k <= length b)%nat /\ (err = None -> k = length b) /\
  content_at path w' = Some (overwrite off (take k b) c).
Proof.
  unfold content_at. destruct (files w !! path) as [f|] eqn:Ef; [|done]. cbn. intros [= <-].
  rewrite lookup_alter_eq, Ef. cbn. rewrite bytes_of_string_of.
  destruct (fault (attempts w)); split_and!; (done || lia).
Qed.

(** Writes that follow one another. *)
Lemma write_pieces_spec path off l w c : content_at path w = Some c -> (off <= length c)%nat ->
  let '((err, off'), w') := write_pieces path off l w in
  err = None -> off' = (off + length (concat l))%nat /\
  content_at path w' = Some (overwrite off (concat l) c).
Proof.
  revert off w c. induction l as [|b l IH]; intros off w c Hc Ho; cbn [write_pieces].
  { intros _. cbn. split; [lia|]. rewrite Hc. f_equal. unfold overwrite. cbn.
    by rewrite Nat.add_0_r, take_drop. }
  rewrite mbind_eq. pose proof (write_at_spec path off b w c Hc) as Hw.
  destruct (write_at path off b w) as [[err k] w1]. destruct Hw as (Hk & Hke & Hc1). cbn [fst snd].
  destruct err as [e|]; [done|]. rewrite (Hke eq_refl) in *. rewrite firstn_all in Hc1.
  specialize (IH (off + length b)%nat w1 _ Hc1).
  destruct (write_pieces path (off + length b) l w1) as [[err off'] w2].
  intros ->. destruct IH as [Hoff Hc2]; [|done|].
  { unfold overwrite. rewrite !length_app, length_take. lia. }
  cbn [concat]. rewrite length_app. split; [lia|].
  rewrite Hc2. f_equal. by rewrite overwrite_app.
Qed.

(** ** The WAV stream *)

(** An open stream whose temporary file holds a provisional header and [pcm]. *)
Record open_stream (s : pcm16WAVStream) (pcm : bytes) (w : World) : Prop := {
  os_tmp : ws_tmp s = ws_path s +:+ ".tmp";
  os_file : ws_file s = Some (44 + length pcm)%nat;
  os_bytes : ws_dataBytes s = len pcm;
  os_limit : len pcm <= max_uint32;
  os_frames : whole_frames pcm (ws_channels s);
  os_content : content_at (ws_tmp s) w = Some (wav_header (ws_sampleRate s) (ws_channels s) 0 ++ pcm)%list }.

Lemma newPCM16WAVStream_spec path rate ch w : 0 < rate -> 0 < ch ->
  match newPCM16WAVStream path rate ch w with
  | (Ok s, w') => open_stream s [] w' /\ ws_path s = path /\ ws_sampleRate s = rate /\ ws_channels s = ch
  | (Err _, _) => True
  end.
Proof.
  intros Hr Hc. unfold newPCM16WAVStream. replace ((rate <=? 0)%Z) with false by lia.
  replace ((ch <=? 0)%Z) with false by lia. cbv zeta.
  rewrite mbind_eq. destruct ((MkdirAll (Dir path) w).1); [done|]. set (w1 := (MkdirAll _ w).2).
  rewrite mbind_eq. unfold Create. rewrite mbind_eq. destruct ((attempt w1).1) as [e|] eqn:Ea; [done|]. cbn [fst snd].
  rewrite mbind_eq. set (w2 := (put (path +:+ ".tmp") [] (attempt w1).2).2).
  pose proof (put_spec (path +:+ ".tmp") [] (attempt w1).2) as Hp. fold w2 in Hp.
  cbn [ret fst snd]. rewrite mbind_eq. unfold writeHeader. rewrite mbind_eq. cbn [ws_tmp ws_sampleRate ws_channels].
  pose proof (write_pieces_spec (path +:+ ".tmp") 0 (header_pieces rate ch 0) w2 [] Hp ltac:(simpl; lia)) as Hw.
  destruct (write_pieces _ 0 _ w2) as [[err off] w3]. cbn [fst snd ret].
  destruct err as [e|]; [done|]. destruct (Hw eq_refl) as [-> Hc3]. cbn [ret].
  split; [|done]. by constructor.
Qed.

Lemma Append_spec s pcm p w : open_stream s pcm w -> 0 < ws_channels s ->
  let '((err, s'), w') := Append p s w in
  ws_tmp s' = ws_tmp s /\ ws_path s' = ws_path s /\
  (err = None -> open_stream s' (pcm ++ p) w' /\ whole_frames p (ws_channels s) /\
    ws_sampleRate s' = ws_sampleRate s /\ ws_channels s' = ws_channels s).
Proof.
  intros [Ht Hf Hb Hl Hw Hc] Hch. unfold Append. rewrite Hf. cbv zeta.
  destruct (Z.eqb_spec (Z.rem (len p) (ws_channels s * 2)) 0) as [Hr|]; cbn [negb]; [|done].
  pose proof (len_nonneg pcm). pose proof (len_nonneg p). rewrite Hb.
  rewrite Z.mod_small by (unfold max_uint32 in *; lia).
  destruct (Z.ltb_spec (max_uint32 - len pcm) (len p)) as [|Hfit]; [done|].
  rewrite mbind_eq. pose proof (write_at_spec _ (44 + length pcm) p w _ Hc) as Hwr.
  destruct (write_at (ws_tmp s) (44 + length pcm) p w) as [[err k] w1]. cbn [fst snd].
  destruct Hwr as (_ & Hk & Hc1). destruct err as [e|]; [done|]. rewrite (Hk eq_refl) in *.
  change (Z.of_nat (length p)) with (len p). rewrite Z.eqb_refl. cbn [negb ret set_written].
  split_and!; [done|done|]. intros _. split_and!; [|done|done|done].
  unfold set_written. constructor; cbn; [done| | | | |].
  - f_equal. rewrite length_app. lia.
  - rewrite len_app. apply Z.mod_small. unfold max_uint32 in *. lia.
  - rewrite len_app. lia.
  - unfold whole_frames in *. rewrite len_app. rewrite <- Z.add_rem_idemp_l by nia.
    by rewrite Hw.
  - rewrite firstn_all in Hc1. rewrite Hc1. f_equal.
    set (h := wav_header _ _ 0) in *. change 44%nat with (length h). rewrite <- length_app.
    rewrite overwrite_end. by rewrite <- app_assoc.
Qed.

Lemma Commit_spec s pcm w : open_stream s pcm w ->
  let '((err, s'), w') := Commit s w in
  ws_tmp s' = ws_tmp s /\
  content_at (ws_path s) w' =
    match err with
    | None => Some (wav_header (ws_sampleRate s) (ws_channels s) (len pcm) ++ pcm)%list
    | Some _ => content_at (ws_path s) w
    end.
Proof.
  intros [Ht Hf Hb Hl Hw Hc].
  assert (Hne : ws_path s <> ws_tmp s).
  { rewrite Ht. by apply app_ne. }
  unfold Commit. rewrite Hf, mbind_eq. destruct ((attempt w).1) as [e|]; [done|].
  set (w1 := (attempt w).2). rewrite mbind_eq. unfold writeHeader. rewrite mbind_eq, Hb.
  cbn [set_file ws_tmp ws_sampleRate ws_channels].
  pose proof (write_pieces_spec (ws_tmp s) 0 (header_pieces (ws_sampleRate s) (ws_channels s) (len pcm))
    w1 _ Hc ltac:(lia)) as Hp.
  pose proof (content_only (eq (ws_tmp s)) (write_pieces (ws_tmp s) 0 (header_pieces (ws_sampleRate s)
    (ws_channels s) (len pcm))) w1 (ws_path s) ltac:(eauto with files) ltac:(congruence)) as Hpath.
  destruct (write_pieces (ws_tmp s) 0 _ w1) as [[err off] w2]. cbn [fst snd ret] in *.
  destruct err as [e|]; [by split|]. destruct (Hp eq_refl) as [_ Hc2].
  rewrite mbind_eq. destruct ((attempt w2).1) as [e|]; [by split|]. set (w3 := (attempt w2).2).
  assert (Hc3 : content_at (ws_tmp s) w3 = Some (wav_header (ws_sampleRate s) (ws_channels s) (len pcm) ++ pcm)%list)
    by exact Hc2.
  rewrite mbind_eq. cbn [set_file ws_tmp ws_path].
  change (content_at (ws_path s) w) with (content_at (ws_path s) w1).
  rewrite <- Hpath. change (content_at (ws_path s) w2) with (content_at (ws_path s) w3).
  pose proof (Rename_content (ws_tmp s) (ws_path s) w3 _ Hc3) as Hr.
  destruct ((Rename (ws_tmp s) (ws_path s) w3).1) as [e|]; cbn [fst snd ret set_file ws_tmp ws_path]; [|by split].
  rewrite mbind_eq. split; [done|]. cbn [ret].
  rewrite <- Hr. apply content_only with (P := eq (ws_tmp s)); [eauto with files|congruence].
Qed.

(** Both outcomes of [writePCM16WAV]. *)
Lemma writePCM16WAV_outcome path pcm rate ch w : 0 < rate -> 0 < ch ->
  let '(err, w') := writePCM16WAV path pcm rate ch w in
  match err with
  | None => content_at path w' = Some (wav_header rate ch (len pcm) ++ pcm)%list /\
      Z.rem (len pcm) (ch * 2) = 0 /\ len pcm <= max_uint32
  | Some _ => content_at path w' = content_at path w
  end.
Proof.
  intros Hr Hc. unfold writePCM16WAV. rewrite mbind_eq.
  pose proof (newPCM16WAVStream_spec path rate ch w Hr Hc) as Hn.
  pose proof (content_only (eq (path +:+ ".tmp")) (newPCM16WAVStream path rate ch) w path
    ltac:(apply only_newPCM16WAVStream) ltac:(apply not_eq_sym, app_ne; done)) as Hpath.
  destruct (newPCM16WAVStream path rate ch w) as [[s|e] w1]; cbn [fst snd] in *; [|done].
  destruct Hn as (Hs & Hp & Hrate & Hchan). rewrite mbind_eq.
  pose proof (Append_spec s [] pcm w1 Hs ltac:(lia)) as Ha.
  pose proof (content_only (eq (path +:+ ".tmp")) (Append pcm s) w1 path
    ltac:(apply only_Append; by rewrite (os_tmp _ _ _ Hs), Hp) ltac:(apply not_eq_sym, app_ne; done)) as Hpath2.
  destruct (Append pcm s w1) as [[[e|] s'] w2]; cbn [fst snd] in *; destruct Ha as (Ht & Hp' & Ha).
  { rewrite mbind_eq. cbn [ret]. rewrite <- Hpath, <- Hpath2.
    apply content_only with (P := eq (path +:+ ".tmp")); [|apply not_eq_sym, app_ne; done].
    unfold Abandon. rewrite Ht, (os_tmp _ _ _ Hs), Hp. eauto with files. }
  destruct (Ha eq_refl) as (Hs' & Hw & Hr' & Hc'). rewrite mbind_eq.
  pose proof (Commit_spec s' pcm w2 Hs') as Hcm. destruct (Commit s' w2) as [[err s''] w3].
  destruct Hcm as [Ht'' Hcm]. rewrite Hp', Hp, Hr', Hrate, Hc', Hchan in Hcm.
  cbn [fst snd]. rewrite mbind_eq. cbn [ret].
  assert (Hfin : content_at path (Abandon s'' w3).2 = content_at path w3).
  { apply content_only with (P := eq (path +:+ ".tmp")); [|apply not_eq_sym, app_ne; done].
    unfold Abandon. rewrite Ht'', Ht, (os_tmp _ _ _ Hs), Hp. eauto with files. }
  destruct err as [e|]; rewrite Hfin, Hcm; [congruence|].
  split_and!; [done|by rewrite <- Hchan|]. exact (os_limit _ _ _ Hs').
Qed.
End contents.

(** ** Facts: the pieces of an alert *)

(** A part with the gap after it, and what follows the voice. *)
Definition with_gap (part : bytes) (rate ch : Z) : bytes :=
  if (length part =? 0)%nat then [] else (part ++ alertTransitionPadding part rate ch Second)%list.
Definition after_voice (tail postRoll : bytes) (rate ch : Z) : bytes :=
  if (length postRoll =? 0)%nat then tail
  else (tail ++ (if (0 <? length tail)%nat then alertTransitionPadding tail rate ch Second
                 else silencePCM rate ch Second) ++ postRoll)%list.
Definition assembled (preRoll lead voice tail postRoll : bytes) (rate ch : Z) : bytes :=
  (with_gap preRoll rate ch ++ with_gap lead rate ch ++ voice ++ after_voice tail postRoll rate ch)%list.

Lemma concat_nonempty l : concat (nonempty l) = concat l.
Proof.
  induction l as [|b l IH]; [done|]. unfold nonempty. cbn [List.filter concat].
  destruct b as [|a b]; [exact IH|]. cbn [length Nat.ltb Nat.leb concat]. by rewrite <- IH.
Qed.

Lemma alert_pieces_assembled pre lead voice tail post rate ch :
  concat (alert_pieces pre lead voice tail post rate ch) = assembled pre lead voice tail post rate ch.
Proof.
  unfold alert_pieces. rewrite concat_nonempty, !concat_app. unfold assembled, with_gap, after_voice.
  destruct (length pre =? 0)%nat, (length lead =? 0)%nat, (length post =? 0)%nat; cbn [concat app];
    rewrite ?app_nil_r, <- ?app_assoc; done.
Qed.

Section outcomes.
Context `{Env} `{Tools}.

Lemma ReadFile_ok path w b : (ReadFile path w).1 = Ok b ->
  content_at path w = Some b /\ files (ReadFile path w).2 = files w.
Proof.
  unfold ReadFile, attempting, content_at. rewrite mbind_eq. destruct ((attempt w).1); [done|].
  cbn. destruct (files w !! path); [|done]. cbn. by intros [= ->].
Qed.

Lemma Create_ok path w : (Create path w).1 = None -> content_at path (Create path w).2 = Some [].
Proof.
  unfold Create. rewrite mbind_eq. destruct ((attempt w).1); [done|]. intros _.
  rewrite mbind_eq. apply put_spec.
Qed.

(** What follows the writing of a temporary file that is renamed at the end. *)
Lemma finish_outcome tmp path c w closeErr : tmp <> path -> content_at tmp w = Some c ->
  let m := match closeErr with
           | Some e => remove_file tmp ;;; ret (Some e)
           | None => Rename tmp path
           end in
  content_at path (m w).2 = match (m w).1 with None => Some c | Some _ => content_at path w end.
Proof.
  intros Hne Hc. destruct closeErr as [e|]; cbv zeta.
  - rewrite mbind_eq. cbn [ret fst snd]. apply content_only with (P := eq tmp); [eauto with files|done].
  - by apply Rename_content.
Qed.

Lemma combine_outcome o pre lead vp tail post rate ch w :
  let '(err, w') := combineAlertAudioSegments o pre lead vp tail post rate ch w in
  match err with
  | None => exists voice, content_at vp w = Some voice /\ voice <> [] /\
      content_at o w' = Some (assembled pre lead voice tail post rate ch)
  | Some _ => content_at o w' = content_at o w
  end.
Proof.
  assert (Hne : o +:+ ".tmp" <> o) by (apply not_eq_sym, app_ne; done).
  assert (Hno : forall {A} (m : M World A) w, only (eq (o +:+ ".tmp")) m ->
    content_at o (m w).2 = content_at o w) by (intros; by apply content_only with (P := eq (o +:+ ".tmp"))).
  unfold combineAlertAudioSegments. rewrite mbind_eq.
  pose proof (ReadFile_ok vp w) as Hv. pose proof (Hno _ (ReadFile vp) w ltac:(eauto with files)) as H1.
  destruct ((ReadFile vp w).1) as [voice|e]; [|done].
  destruct (Hv voice eq_refl) as [Hvoice _]. set (w1 := (ReadFile vp w).2) in *.
  rewrite mbind_eq. destruct ((attempt w1).1) as [e|]; [done|].
  destruct (Nat.eqb_spec (length voice) 0) as [|Hlen]; [done|]. set (w2 := (attempt w1).2).
  rewrite mbind_eq. destruct ((MkdirAll (Dir o) w2).1) as [e|]; [done|]. set (w3 := (MkdirAll (Dir o) w2).2).
  cbv zeta. rewrite mbind_eq. pose proof (Create_ok (o +:+ ".tmp") w3) as Hcr.
  pose proof (Hno _ (Create (o +:+ ".tmp")) w3 ltac:(eauto with files)) as H2.
  destruct ((Create (o +:+ ".tmp") w3).1) as [e|]; [by rewrite <- H1|]. specialize (Hcr eq_refl).
  set (w4 := (Create (o +:+ ".tmp") w3).2) in *. rewrite mbind_eq.
  set (pieces := alert_pieces pre lead voice tail post rate ch).
  pose proof (write_pieces_spec _ 0 pieces w4 [] Hcr ltac:(simpl; lia)) as Hw.
  pose proof (Hno _ (write_pieces (o +:+ ".tmp") 0 pieces) w4 ltac:(eauto with files)) as H3.
  destruct (write_pieces _ 0 pieces w4) as [[err off] w5]. cbn [fst snd] in *.
  rewrite mbind_eq. set (w6 := (attempt w5).2).
  assert (Hkeep : content_at o w6 = content_at o w).
  { change (content_at o w6) with (content_at o w5). rewrite H3, H2. exact H1. }
  destruct err as [e|].
  { rewrite mbind_eq. cbn [ret]. rewrite <- Hkeep. by apply Hno; eauto with files. }
  destruct (Hw eq_refl) as [_ Hc]. unfold pieces in Hc. rewrite alert_pieces_assembled in Hc.
  unfold overwrite in Hc. rewrite take_nil, drop_nil, app_nil_r in Hc. cbn [app] in Hc.
  pose proof (finish_outcome (o +:+ ".tmp") o _ w6 ((attempt w5).1) Hne Hc) as Hfin. cbv zeta in Hfin.
  destruct ((attempt w5).1) as [e|]; cbv zeta in Hfin |- *.
  - rewrite mbind_eq in *. cbn [ret fst snd] in *. congruence.
  - destruct (Rename (o +:+ ".tmp") o w6) as [[e|] w7]; cbn [fst snd] in *; [congruence|].
    exists voice. split_and!; [done| |done]. by intros ->.
Qed.

Lemma download_outcome url o maxBytes w : 0 <= maxBytes ->
  let '(err, w') := downloadFile url o maxBytes w in
  match err with
  | None => exists response, http_get (attempts w) url = Ok response /\ 200 <= StatusCode response < 300 /\
      (fault (attempts w + 4) = None ->
       content_at o w' = Some (bytes_of (resp_Body response)) /\
       len (bytes_of (resp_Body response)) <= maxBytes)
  | Some _ => content_at o w' = content_at o w
  end.
Proof.
  intros Hmax. assert (Hne : o +:+ ".tmp" <> o) by (apply not_eq_sym, app_ne; done).
  assert (Hno : forall {A} (m : M World A) w, only (eq (o +:+ ".tmp")) m ->
    content_at o (m w).2 = content_at o w) by (intros; by apply content_only with (P := eq (o +:+ ".tmp"))).
  unfold downloadFile. destruct (TrimSpace url =? ""); [done|].
  rewrite mbind_eq. cbn [gets fst snd]. destruct (http_get (attempts w) url) as [response|e] eqn:Eh; [|done].
  destruct (Z.ltb_spec (StatusCode response) 200) as [|Hs1]; [done|].
  destruct (Z.leb_spec 300 (StatusCode response)) as [|Hs2]; [done|]. cbn [orb].
  rewrite mbind_eq. destruct ((MkdirAll (Dir o) w).1) as [e|]; [done|]. set (w1 := (MkdirAll (Dir o) w).2).
  cbv zeta. rewrite mbind_eq. pose proof (Create_ok (o +:+ ".tmp") w1) as Hcr.
  pose proof (Hno _ (Create (o +:+ ".tmp")) w1 ltac:(eauto with files)) as Hcreate.
  assert (Ha2 : attempts (Create (o +:+ ".tmp") w1).2 = (attempts w + 2)%nat).
  { unfold Create. rewrite mbind_eq. cbn. destruct (fault _); cbn; lia. }
  destruct ((Create (o +:+ ".tmp") w1).1) as [e|]; [done|]. specialize (Hcr eq_refl).
  set (w2 := (Create (o +:+ ".tmp") w1).2) in *. rewrite mbind_eq.
  set (body := take (Z.to_nat (maxBytes + 1)) (bytes_of (resp_Body response))).
  pose proof (write_at_spec _ 0 body w2 [] Hcr) as Hw.
  pose proof (Hno _ (write_at (o +:+ ".tmp") 0 body) w2 ltac:(eauto with files)) as Hwrite.
  assert (Ha3 : attempts (write_at (o +:+ ".tmp") 0 body w2).2 = (attempts w + 3)%nat) by (cbn; lia).
  destruct (write_at (o +:+ ".tmp") 0 body w2) as [[err k] w3]. cbn [fst snd] in *.
  rewrite mbind_eq. set (w4 := (attempt w3).2).
  assert (Hkeep : content_at o w4 = content_at o w).
  { change (content_at o w4) with (content_at o w3). by rewrite Hwrite, Hcreate. }
  destruct Hw as (_ & Hk & Hc). destruct err as [e|].
  { rewrite mbind_eq. cbn [ret]. rewrite <- Hkeep. by apply Hno; eauto with files. }
  rewrite (Hk eq_refl), firstn_all in Hc. unfold overwrite in Hc.
  rewrite take_nil, drop_nil, app_nil_r in Hc. cbn [app] in Hc.
  change (content_at (o +:+ ".tmp") w4 = Some body) in Hc.
  destruct ((attempt w3).1) as [e|].
  { rewrite mbind_eq. cbn [ret]. rewrite <- Hkeep. by apply Hno; eauto with files. }
  rewrite mbind_eq.
  assert (Hstat : Stat (o +:+ ".tmp") w4 =
    (match fault (attempts w + 4) with Some e => Err e | None => Ok (len body) end, (attempt w4).2)).
  { assert (Ha4 : attempts w4 = (attempts w + 4)%nat) by (unfold w4; cbn; lia).
    unfold content_at in Hc. clearbody w4. unfold Stat, attempting, the_file, mbind, attempt, gets.
    rewrite Ha4. destruct (fault (attempts w + 4)) as [e|]; [done|]. cbn [files].
    destruct (files w4 !! (o +:+ ".tmp")) as [f|]; [|done]. cbn in Hc. injection Hc as Hc.
    unfold rmap, rbind, ret. by rewrite Hc. }
  rewrite Hstat. cbn [fst snd]. set (w5 := (attempt w4).2).
  change (content_at (o +:+ ".tmp") w5 = Some body) in Hc. change (content_at o w5 = content_at o w) in Hkeep.
  pose proof (Rename_content (o +:+ ".tmp") o w5 body Hc) as Hr.
  destruct (fault (attempts w + 4)) as [e|] eqn:Ef.
  { destruct (Rename (o +:+ ".tmp") o w5) as [[e'|] w6]; cbn [fst snd] in *; [congruence|].
    exists response. split_and!; done || lia. }
  destruct (Z.ltb_spec maxBytes (len body)) as [Hbig|Hfit].
  { rewrite mbind_eq. cbn [ret]. rewrite <- Hkeep. by apply Hno; eauto with files. }
  destruct (Rename (o +:+ ".tmp") o w5) as [[e'|] w6]; cbn [fst snd] in *; [congruence|].
  exists response. split_and!; [done|lia|lia|]. intros _. unfold body in Hfit, Hr.
  assert (Hlen : len (bytes_of (resp_Body response)) <= maxBytes).
  { unfold len in *. rewrite length_take in Hfit. lia. }
  split; [|done]. rewrite Hr, take_ge; [done|]. unfold len in Hlen. lia.
Qed.
End outcomes.

(** ** Theorems *)

Section theorems.
Context `{Env} `{Tools}.

(** C30: what the service writes as WAV it reads back.  When [writePCM16WAV] succeeds, both
    readers find exactly the samples in the file, with the rate, the channels and the
    duration; when it fails, the file of that name is as it was.  No file but this
    one and its temporary file changes. *)
Theorem writePCM16WAV_read_back (path : string) (pcm : bytes) (rate ch : Z) (w : World) :
  0 < rate < 2 ^ 32 -> 0 < ch < 2 ^ 16 -> 0 < len pcm ->
  let '(err, w') := writePCM16WAV path pcm rate ch w in
  match err with
  | None => exists content, content_at path w' = Some content /\
      wavPCM16 content = Ok (pcm, info_of rate ch (len pcm)) /\
      wav_info content = Ok (info_of rate ch (len pcm))
  | Some _ => content_at path w' = content_at path w
  end /\
  forall k, ~ at_path path k -> files w' !! k = files w !! k.
Proof.
  intros Hr Hch Hpcm.
  assert (Hframe : only (at_path path) (writePCM16WAV path pcm rate ch)) by apply only_writePCM16WAV.
  pose proof (writePCM16WAV_outcome path pcm rate ch w ltac:(lia) ltac:(lia)) as Ho.
  specialize (Hframe w). destruct (writePCM16WAV path pcm rate ch w) as [[e|] w']; (split; [|apply Hframe]).
  - exact Ho.
  - destruct Ho as (Hc & Hw & Hl). eexists. split; [exact Hc|].
    assert (Heven : Z.rem (len pcm) 2 = 0).
    { rewrite Z.mul_comm in Hw. rewrite Z.rem_mod_nonneg in * by lia.
      rewrite (Z.div_mod (len pcm) (2 * ch)) by lia. rewrite Hw, Z.add_0_r, <- Z.mul_assoc, Z.mul_comm.
      by rewrite Z.mod_mul. }
    rewrite written_wav_file by done. destruct (fmt_body_pcm16 rate ch Hr Hch) as (Hf & Ec & Er).
    pose proof (readers_of_file (36 + len pcm) [] [] [] (fmt_body rate ch) pcm) as Hro.
    rewrite Ec, Er in Hro. apply Hro; try done. unfold max_uint32 in Hl. lia.
Qed.

(** C28: an alert is assembled whole or not at all.  When [combineAlertAudioSegments]
    succeeds, the alert's file holds the pre-roll, the header and the voice of the given
    file, each part with its gap, the end of message and the post-roll, in this order,
    and the voice is not empty; when it fails, the file of that name is as it was.  No
    file but this one and its temporary file changes. *)
Theorem combineAlertAudioSegments_assembles (outputPath : string) (preRoll lead : bytes)
    (voicePath : string) (tail postRoll : bytes) (rate ch : Z) (w : World) :
  let '(err, w') := combineAlertAudioSegments outputPath preRoll lead voicePath tail postRoll rate ch w in
  match err with
  | None => exists voice, content_at voicePath w = Some voice /\ voice <> [] /\
      content_at outputPath w' = Some (assembled preRoll lead voice tail postRoll rate ch)
  | Some _ => content_at outputPath w' = content_at outputPath w
  end /\
  (forall k, ~ at_path outputPath k -> files w' !! k = files w !! k) /\ published w' = published w.
Proof.
  pose proof (only_combine outputPath preRoll lead voicePath tail postRoll rate ch w) as [Hf Hp].
  pose proof (combine_outcome outputPath preRoll lead voicePath tail postRoll rate ch w) as Ho.
  destruct (combineAlertAudioSegments _ _ _ _ _ _ _ _ w) as [err w']. by split_and!.
Qed.

(** A download is bounded and complete.  When [downloadFile] succeeds, and the size of
    the file could be read, the server answered with a success, and the file holds the
    body of its response, of at most [maxBytes] bytes; when it fails, the file of that
    name is as it was. *)
Theorem downloadFile_bounded (url outputPath : string) (maxBytes : Z) (w : World) :
  0 <= maxBytes ->
  let '(err, w') := downloadFile url outputPath maxBytes w in
  match err with
  | None => exists response, http_get (attempts w) url = Ok response /\ 200 <= StatusCode response < 300 /\
      (fault (attempts w + 4) = None ->
       content_at outputPath w' = Some (bytes_of (resp_Body response)) /\
       len (bytes_of (resp_Body response)) <= maxBytes)
  | Some _ => content_at outputPath w' = content_at outputPath w
  end /\
  (forall k, ~ at_path outputPath k -> files w' !! k = files w !! k).
Proof.
  intros Hmax. pose proof (only_downloadFile url outputPath maxBytes w) as [Hf _].
  pose proof (download_outcome url outputPath maxBytes w Hmax) as Ho.
  destruct (downloadFile _ _ _ w) as [err w']. by split.
Qed.

(** At 44.1 kHz in stereo the pause after a warning cannot be written.
    [silencePCM] counts samples, not frames: its 350 ms are an odd number of
    samples, and [Append] refuses a payload that ends inside a frame. *)
Theorem silence_splits_a_frame (s : pcm16WAVStream) (pcm : bytes) (w : World) :
  open_stream s pcm w -> ws_channels s = 2 ->
  Append (silencePCM 44100 2 (350 * Millisecond)) s w =
    ((Some "PCM payload must contain complete s16le frames", s), w).
Proof.
  intros [_ Hf _ _ _ _] Hc. unfold Append. rewrite Hf, Hc. cbv zeta.
  assert (E : (Z.rem (len (silencePCM 44100 2 (350 * Millisecond))) (2 * 2) =? 0)%Z = false)
    by (by vm_compute).
  by rewrite E.
Qed.

(** The RIFF size field wraps.  [Append] lets the samples fill 32 bits, but the
    header's first size field is 36 larger: for samples within 36 bytes of the limit it
    announces fewer bytes than the samples alone have. *)
Theorem riff_size_wraps (s : pcm16WAVStream) (pcm : bytes) (w : World) :
  open_stream s pcm w -> max_uint32 - 36 < len pcm ->
  let '((err, s'), w') := Commit s w in
  err = None -> exists content, content_at (ws_path s) w' = Some content /\
    le_val (slice content 4 8) = len pcm + 36 - 2 ^ 32 /\ le_val (slice content 40 44) = len pcm.
Proof.
  intros Hs Hlen. pose proof (Commit_spec s pcm w Hs) as Hc. pose proof (os_limit _ _ _ Hs) as Hl.
  destruct (Commit s w) as [[err s'] w']. destruct Hc as [_ Hc]. intros ->.
  eexists. split; [exact Hc|]. unfold max_uint32 in *.
  split.
  - change (slice _ 4 8) with (le_bytes 4 (36 + len pcm)).
    replace (36 + len pcm) with (len pcm + 36 - 2 ^ 32 + 1 * 256 ^ Z.of_nat 4) by (simpl; lia).
    rewrite le_bytes_wrap. apply le_val_le_bytes. simpl. lia.
  - change (slice _ 40 44) with (le_bytes 4 (len pcm)). apply le_val_le_bytes. simpl. lia.
Qed.
End theorems.

(** ** Witnesses *)

#[export] Instance sample_Tools : Tools | 1000 := {|
  partial n := None; encoded d := ""; FFMPEG := "";
  http_get n url := Ok (MkResponse 200 "200 OK" "audio");
  run_ffmpeg n args fs := MkRun (Some "exit status 1") "" None |}.

Lemma writePCM16WAV_read_back_witness :
  exists content,
    content_at "/out/a.wav" (writePCM16WAV "/out/a.wav" sample_pcm 48000 1 sample_world).2 = Some content /\
    wavPCM16 content = Ok (sample_pcm, info_of 48000 1 4).
Proof.
  pose proof (writePCM16WAV_read_back "/out/a.wav" sample_pcm 48000 1 sample_world ltac:(lia) ltac:(lia)
    ltac:(done)) as Hw.
  assert (E : (writePCM16WAV "/out/a.wav" sample_pcm 48000 1 sample_world).1 = None) by (by vm_compute).
  destruct (writePCM16WAV _ _ _ _ _) as [err w']. cbn [fst snd] in *. subst err.
  destruct Hw as [(content & Hc & Hp & _) _]. by exists content.
Defined.

Lemma downloadFile_bounded_witness :
  content_at "/out/a.bin" (downloadFile "http://x/a" "/out/a.bin" 10 sample_world).2 = Some (bytes_of "audio").
Proof.
  pose proof (downloadFile_bounded "http://x/a" "/out/a.bin" 10 sample_world ltac:(lia)) as Hd.
  assert (E : (downloadFile "http://x/a" "/out/a.bin" 10 sample_world).1 = None) by (by vm_compute).
  destruct (downloadFile _ _ _ _) as [err w']. cbn [fst snd] in *. subst err.
  destruct Hd as [(response & [= <-] & _ & Hc) _]. by apply Hc.
Defined.

(** A stream of the service, opened by hand. *)
Definition writing (rate ch : Z) (pcm : bytes) : pcm16WAVStream :=
  MkStream "/out/a.wav" "/out/a.wav.tmp" (Some (44 + length pcm)%nat) rate ch (len pcm).
Definition writing_world (rate ch : Z) (pcm : bytes) : World :=
  MkWorld 0 0 {["/out/a.wav.tmp" := raw_file (wav_header rate ch 0 ++ pcm)%list 0]} [] None.
Lemma writing_open rate ch pcm : len pcm <= max_uint32 -> whole_frames pcm ch ->
  open_stream (writing rate ch pcm) pcm (writing_world rate ch pcm).
Proof.
  intros Hl Hw. constructor; try done. unfold content_at, writing_world. cbn [files ws_tmp writing].
  rewrite lookup_singleton_eq. cbn [fmap option_fmap option_map]. by rewrite content_raw.
Qed.

Lemma silence_splits_a_frame_witness :
  Append (silencePCM 44100 2 (350 * Millisecond)) (writing 44100 2 []) (writing_world 44100 2 []) =
    ((Some "PCM payload must contain complete s16le frames", writing 44100 2 []), writing_world 44100 2 []).
Proof.
  apply (silence_splits_a_frame (writing 44100 2 []) [] (writing_world 44100 2 [])); [|done].
  by apply writing_open.
Defined.

(** The largest payload of whole mono frames. *)
Definition huge : bytes := make_bytes 4294967294.
Lemma len_huge : len huge = 4294967294.
Proof. by apply len_make_bytes. Qed.

Lemma riff_size_wraps_witness :
  exists content, content_at "/out/a.wav" (Commit (writing 48000 1 huge) (writing_world 48000 1 huge)).2 =
    Some content /\ le_val (slice content 4 8) = 34 /\ le_val (slice content 40 44) = 4294967294.
Proof.
  pose proof (riff_size_wraps (writing 48000 1 huge) huge (writing_world 48000 1 huge)) as Hw.
  rewrite len_huge in Hw.
  assert (E : (Commit (writing 48000 1 huge) (writing_world 48000 1 huge)).1.1 = None) by reflexivity.
  destruct (Commit _ _) as [[err s'] w']. cbn [fst snd] in *.
  apply Hw; [|by vm_compute|done].
  apply writing_open; [rewrite len_huge; by vm_compute|unfold whole_frames; by rewrite len_huge].
Defined.
