(* ===== verification/AuditLog.v ===== *)
(** The audit log of the web gateway ([internal/webgateway/audit_log.go]): for
    each account and category a file of JSON lines chained by HMACs, and for each
    category a signed record of the heads of its chains.

    The operations run one at a time, under the mutex of [auditLogger].  JSON is
    the interface [AuditCodec]; the MACs are those of [GoCrypto]. *)

From stdpp Require Import stringmap.
From S2P Require Import Prelude UnicodeTables GoStrings SampleCodec GoTime GoValue GoPath GoCrypto AlertPacket.
From S2P Require Import PlaylistModel World AlertRequest AudioRetention PlannerState AlertCommit Wav AudioFiles.

#[local] Open Scope Z_scope.
#[local] Open Scope string_scope.
#[local] Open Scope haze_scope.

(** ** Data *)

Definition auditKeyID : string := "haze-audit-v1".
Definition auditCategories : list string := ["access"; "alerts"; "webpanel"].

Record AuditEvent := MkEvent {
  ev_Timestamp : Z; ev_Event : string; ev_ActorID : string; ev_ActorUsername : string; ev_SessionID : string;
  ev_IP : string; ev_UserAgent : string; ev_Severity : string; ev_Details : obj }.
Record auditLine := MkLine {
  al_Index : Z; al_KeyID : string; al_PreviousHMAC : string; al_Payload : string; al_HMAC : string }.
Record auditChainHead := MkHead { ch_Index : Z; ch_HMAC : string }.
Record auditHeadsPayload := MkHeadsPayload {
  hp_KeyID : string; hp_Category : string; hp_Heads : gmap string auditChainHead }.
(** [Heads] is nil when the document has no such member. *)
Record auditHeadsDocument := MkHeads {
  hd_KeyID : string; hd_Category : string; hd_Heads : option (gmap string auditChainHead); hd_HMAC : string }.

(** [encoding/json] on these types. *)
Class AuditCodec := {
  event_Marshal : AuditEvent -> option string;
  line_Marshal : auditLine -> option string;
  line_Unmarshal : string -> option auditLine;
  payload_Marshal : auditHeadsPayload -> option string;
  document_Marshal : auditHeadsDocument -> option string;
  document_Unmarshal : string -> option auditHeadsDocument }.

(** [validUsername] of [accounts_store.go]. *)
Definition username_char (a : Ascii.ascii) : bool :=
  let v := byte_val a in is_digit v || is_lower v || is_upper v || (v =? 95)%Z || (v =? 46)%Z || (v =? 45)%Z.
Definition validUsername (s : string) : bool :=
  forallb username_char (bytes_of s) && in_range 1 50 (Z.of_nat (String.length s)).

Definition decodeAuditMAC (value : string) : string := (RawURL_Decode (TrimSpace value)).1.

(** [uint64] arithmetic. *)
Definition u64 (z : Z) : Z := z mod 2 ^ 64.

Section audit.
Context `{Env} `{Tools} `{AuditCodec} (baseDir key : string).

Definition logPath (category username : string) : string := JoinPath [baseDir; category; username +:+ ".log"].
Definition headsPath (category : string) : string := JoinPath [baseDir; category; "integrity.sig"].

(** ** Signatures *)

Definition NUL : string := String (Ascii.ascii_of_nat 0) "".
Definition be64 (z : Z) : string := of_octets (big_endian 8 z).
Definition chain_message (index : Z) (previous payload : string) : string :=
  "haze-audit-chain-v1" +:+ NUL +:+ auditKeyID +:+ be64 index +:+ previous +:+
  be64 (Z.of_nat (String.length payload)) +:+ payload.
Definition sign (index : Z) (previous payload : string) : string :=
  hmac_sha256 key (chain_message index previous payload).

Definition signHeads (payload : auditHeadsPayload) : result string string :=
  match payload_Marshal payload with
  | None => Err "encode audit heads payload"
  | Some raw => Ok (hmac_sha256 key ("haze-audit-heads-v1" +:+ NUL +:+ raw))
  end.

(** ** Files *)

Definition text_of (f : File) : string := string_of (content_of f).
Definition write_text (path text : string) : M World unit := put path (bytes_of text).

(** [verifyFileLocked]: the lines, from the index and the MAC they have to follow. *)
Fixpoint verify_lines (path : string) (lines : list string) (expected : Z) (previous : string) :
    result string auditChainHead :=
  match lines with
  | [] => Ok (MkHead (u64 (expected - 1)) (RawURL_Encode previous))
  | raw :: lines' =>
      let raw := TrimSpace raw in
      if raw =? "" then verify_lines path lines' expected previous
      else
        match line_Unmarshal raw with
        | None => Err ("CRITICAL invalid audit JSON in " +:+ path)
        | Some line =>
            if negb (al_Index line =? expected)%Z || negb (al_KeyID line =? auditKeyID)
            then Err ("CRITICAL audit sequence mismatch in " +:+ path)
            else if negb (decodeAuditMAC (al_PreviousHMAC line) =? previous)
            then Err ("CRITICAL previous audit HMAC mismatch in " +:+ path)
            else
              let actual := decodeAuditMAC (al_HMAC line) in
              if negb (sign (al_Index line) previous (al_Payload line) =? actual)
              then Err ("CRITICAL audit HMAC mismatch in " +:+ path)
              else verify_lines path lines' (u64 (expected + 1)) actual
        end
  end.
Definition newline : Ascii.ascii := byte_of 10.
Definition verifyFileLocked (path : string) : M World (result string auditChainHead) :=
  let! err := attempt in                                            (* os.Open *)
  match err with
  | Some e => ret (Err ("open audit log for verification: " +:+ e))
  | None =>
      let! fs := gets files in
      match fs !! path with
      | None => ret (Ok (MkHead 0 ""))
      | Some f =>
          let! err := attempt in                                    (* the readings *)
          match verify_lines path (Split newline (text_of f)) 1 "", err with
          | Ok _, Some e => ret (Err ("read audit log: " +:+ e))
          | r, _ => ret r
          end
      end
  end.

(** What the record of a category says, when it is there and signed. *)
Definition document_heads (category : string) (document : auditHeadsDocument) : result string (gmap string auditChainHead) :=
  match hd_Heads document with
  | None => Err ("CRITICAL invalid audit integrity signature metadata for " +:+ category)
  | Some heads =>
      if negb (hd_KeyID document =? auditKeyID) || negb (hd_Category document =? category)
      then Err ("CRITICAL invalid audit integrity signature metadata for " +:+ category)
      else
        let? expected := signHeads (MkHeadsPayload (hd_KeyID document) (hd_Category document) heads) in
        let actual := decodeAuditMAC (hd_HMAC document) in
        if negb (Nat.eqb (String.length actual) sha256_Size) || negb (expected =? actual)
        then Err ("CRITICAL audit integrity signature HMAC mismatch for " +:+ category)
        else Ok heads
  end.
Definition heads_in (category : string) (fs : gmap string File) : result string (gmap string auditChainHead) :=
  match fs !! headsPath category with
  | None => Ok ∅
  | Some f =>
      match document_Unmarshal (text_of f) with
      | None => Err "CRITICAL invalid audit integrity signature"
      | Some document => document_heads category document
      end
  end.
Definition readHeadsLocked (category : string) : M World (result string (gmap string auditChainHead)) :=
  let! err := attempt in
  match err with
  | Some e => ret (Err ("read audit integrity signature: " +:+ e))
  | None => gets (fun w => heads_in category (files w))
  end.

(** [writeFileAtomicMode] with [replaceAuditFileAtomically]: a temporary file is
    filled and renamed; the directory is opened and synchronised after that.  The
    temporary file has a name of no other file, and is removed in the end when it
    is still there. *)
Definition or_fail (m : M World (option string)) (k : M World (option string)) : M World (option string) :=
  let! err := m in match err with Some e => ret (Some e) | None => k end.
Definition wrap (prefix : string) (m : M World (option string)) : M World (option string) :=
  let! err := m in ret (option_map (String.append prefix) err).
Definition replaceAuditFileAtomically (temporary destination : string) : M World (option string) :=
  or_fail (Rename temporary destination) (or_fail attempt attempt).
Definition writeFileAtomicMode (path raw : string) : M World (option string) :=
  let! fs := gets files in
  let tmp := fresh_string (JoinPath [Dir path; ".audit-"]) (<[path := raw_file [] 0]> fs) in
  or_fail (Create tmp) (
    let! err :=
      or_fail attempt (                                             (* Chmod *)
      or_fail (let! r := write_at tmp 0 (bytes_of raw) in ret r.1) (
      or_fail attempt (                                             (* Sync *)
      or_fail attempt (                                             (* Close *)
      replaceAuditFileAtomically tmp path)))) in
    remove_file tmp ;;; ret err).

Definition writeHeadsLocked (category : string) (heads : gmap string auditChainHead) : M World (option string) :=
  let payload := MkHeadsPayload auditKeyID category heads in
  match signHeads payload with
  | Err e => ret (Some e)
  | Ok signature =>
      match document_Marshal (MkHeads auditKeyID category (Some heads) (RawURL_Encode signature)) with
      | None => ret (Some "encode audit integrity signature")
      | Some raw => wrap "write audit integrity signature: " (writeFileAtomicMode (headsPath category) (raw +:+ String newline ""))
      end
  end.

(** ** [Append] *)

(** A write at the end of the file, created when it is missing; a failed write
    leaves a part of its bytes. *)
Definition append_text (path text : string) : M World (option string) :=
  let! err := attempt in                                            (* os.OpenFile *)
  match err with
  | Some e => ret (Some ("open audit log: " +:+ e))
  | None =>
      let! t := stamp in
      set_files (partial_alter (fun o => Some (default (raw_file [] t) o)) path) ;;;
      let! fs := gets files in
      let! r := write_at path (String.length (from_option text_of "" (fs !! path))) (bytes_of text) in
      match r with
      | (Some e, _) => ret (Some ("append audit log: " +:+ e))
      | (None, _) => or_fail (wrap "sync audit log: " attempt) (wrap "close audit log: " attempt)
      end
  end.

Definition same_head (recorded head : auditChainHead) : bool :=
  (ch_Index recorded =? ch_Index head)%Z && (decodeAuditMAC (ch_HMAC recorded) =? decodeAuditMAC (ch_HMAC head)).

(** The event as it is written. *)
Definition audit_username (event : AuditEvent) : string :=
  let username := TrimSpace (ev_ActorUsername event) in if validUsername username then username else "unknown".
Definition audit_event (event : AuditEvent) (t : Z) : AuditEvent :=
  MkEvent t (ToUpper (TrimSpace (ev_Event event))) (ev_ActorID event) (audit_username event) (ev_SessionID event)
    (ev_IP event) (ev_UserAgent event) (ev_Severity event) (ev_Details event).

Definition append_payload (category username payload : string) : M World (option string) :=
  let path := logPath category username in
  let! head := verifyFileLocked path in
  match head with
  | Err e => ret (Some e)
  | Ok head =>
      let! heads := readHeadsLocked category in
      match heads with
      | Err e => ret (Some e)
      | Ok heads =>
          if match heads !! username with Some recorded => negb (same_head recorded head) | None => false end
          then ret (Some ("CRITICAL audit chain head mismatch for " +:+ category +:+ "/" +:+ username))
          else
            let previous := decodeAuditMAC (ch_HMAC head) in
            let index := u64 (ch_Index head + 1) in
            let current := sign index previous payload in
            let line := MkLine index auditKeyID (RawURL_Encode previous) payload (RawURL_Encode current) in
            match line_Marshal line with
            | None => ret (Some "encode audit chain line")
            | Some raw =>
                or_fail (append_text path (raw +:+ String newline ""))
                  (writeHeadsLocked category (<[username := MkHead index (al_HMAC line)]> heads))
            end
      end
  end.

Definition Append (category : string) (event : AuditEvent) : M World (option string) :=
  let category := ToLower (TrimSpace category) in
  if negb (mem category auditCategories) then ret (Some ("unsupported audit category " +:+ category))
  else if ToUpper (TrimSpace (ev_Event event)) =? "" then ret (Some "audit event type is required")
  else
    let! t := if IsZero (ev_Timestamp event) then now else ret (ev_Timestamp event) in
    match event_Marshal (audit_event event t) with
    | None => ret (Some "encode audit event")
    | Some payload => append_payload category (audit_username event) payload
    end.

(** ** [VerifyAll] *)

Definition is_log (name : string) : bool := HasSuffix (ToLower name) ".log".
Definition log_user (name : string) : string := TrimSuffix name (Ext name).

Fixpoint verify_entries (category : string) (heads : gmap string auditChainHead) (names : list string)
    (seen : list string) : M World (result string (list string)) :=
  match names with
  | [] => ret (Ok seen)
  | name :: names' =>
      if negb (is_log name) then verify_entries category heads names' seen
      else
        let username := log_user name in
        let! head := verifyFileLocked (JoinPath [baseDir; category; name]) in
        match head with
        | Err e => ret (Err e)
        | Ok head =>
            match heads !! username with
            | Some recorded =>
                if same_head recorded head then verify_entries category heads names' (username :: seen)
                else ret (Err ("CRITICAL audit integrity signature mismatch for " +:+ category +:+ "/" +:+ username))
            | None => ret (Err ("CRITICAL audit integrity signature mismatch for " +:+ category +:+ "/" +:+ username))
            end
        end
  end.

Definition VerifyCategory (category : string) : M World (option string) :=
  let! heads := readHeadsLocked category in
  match heads with
  | Err e => ret (Some e)
  | Ok heads =>
      let! err := attempt in                                        (* os.ReadDir *)
      match err with
      | Some e => ret (Some ("read audit directory: " +:+ e))
      | None =>
          let! names := gets (fun w => map fst (ReadDir (JoinPath [baseDir; category]) (files w))) in
          let! seen := verify_entries category heads names [] in
          match seen with
          | Err e => ret (Some e)
          | Ok seen =>
              ret (match find (fun '(username, head) => negb ((ch_Index head =? 0)%Z || mem username seen)) (map_to_list heads) with
                   | Some (username, _) => Some ("CRITICAL audit log missing for signed chain " +:+ category +:+ "/" +:+ username)
                   | None => None
                   end)
          end
      end
  end.
(** Go visits the categories, and the heads of one, in any order; the order here
    decides only which of several errors is reported. *)
Definition VerifyAll : M World (option string) :=
  foldr (fun category k => or_fail (VerifyCategory category) k) (ret None) auditCategories.

(** [newAuditLogger]; [filepath.Clean] makes [baseDir]. *)
Definition newAuditLogger : M World (option string) :=
  if (String.length key <? 32)%nat then ret (Some "audit HMAC key must contain at least 32 bytes")
  else foldr (fun category k => or_fail (wrap ("create " +:+ category +:+ " audit directory: ") (MkdirAll (JoinPath [baseDir; category]))) k) VerifyAll auditCategories.

(** ** [RenameAccount] *)

Record renamePlan := MkPlan {
  rp_category : string; rp_oldPath : string; rp_newPath : string; rp_oldHeads : gmap string auditChainHead;
  rp_newHeads : gmap string auditChainHead; rp_moveFile : bool; rp_fileMoved : bool; rp_headsWritten : bool }.
Definition mark_moved (p : renamePlan) : renamePlan :=
  MkPlan (rp_category p) (rp_oldPath p) (rp_newPath p) (rp_oldHeads p) (rp_newHeads p) (rp_moveFile p) true (rp_headsWritten p).
Definition mark_written (p : renamePlan) : renamePlan :=
  MkPlan (rp_category p) (rp_oldPath p) (rp_newPath p) (rp_oldHeads p) (rp_newHeads p) (rp_moveFile p) (rp_fileMoved p) true.

(** [os.Stat]: whether the file is there. *)
Definition stat_there (path : string) : M World (result string bool) :=
  let! err := attempt in
  match err with Some e => ret (Err e) | None => let! b := exists_file path in ret (Ok b) end.

Definition plan_rename (oldUsername newUsername category : string) : M World (result string renamePlan) :=
  let oldPath := logPath category oldUsername in
  let newPath := logPath category newUsername in
  let! oldExists := stat_there oldPath in
  match oldExists with
  | Err e => ret (Err ("inspect existing audit log: " +:+ e))
  | Ok oldExists =>
      let! newExists := stat_there newPath in
      match newExists with
      | Ok true => ret (Err ("audit log already exists for renamed account " +:+ newUsername))
      | Err e => ret (Err ("inspect renamed audit log destination: " +:+ e))
      | Ok false =>
          let! heads := readHeadsLocked category in
          match heads with
          | Err e => ret (Err e)
          | Ok heads =>
              if bool_decide (is_Some (heads !! newUsername))
              then ret (Err ("audit chain already exists for renamed account " +:+ newUsername))
              else
                let hasHead := bool_decide (is_Some (heads !! oldUsername)) in
                if negb (Bool.eqb oldExists hasHead)
                then ret (Err ("CRITICAL audit log and signed chain disagree for " +:+ category +:+ "/" +:+ oldUsername))
                else
                  let updated :=
                    match heads !! oldUsername with
                    | Some head => <[newUsername := head]> (delete oldUsername heads)
                    | None => heads
                    end in
                  let plan := MkPlan category oldPath newPath heads updated oldExists false false in
                  if negb oldExists then ret (Ok plan)
                  else
                    let! verified := verifyFileLocked oldPath in
                    match verified with
                    | Err e => ret (Err e)
                    | Ok verified =>
                        if from_option (same_head verified) false (heads !! oldUsername) then ret (Ok plan)
                        else ret (Err ("CRITICAL audit chain head mismatch for " +:+ category +:+ "/" +:+ oldUsername))
                    end
          end
      end
  end.
Fixpoint plan_all (oldUsername newUsername : string) (categories : list string) : M World (result string (list renamePlan)) :=
  match categories with
  | [] => ret (Ok [])
  | category :: categories' =>
      let! plan := plan_rename oldUsername newUsername category in
      match plan with
      | Err e => ret (Err e)
      | Ok plan => let! plans := plan_all oldUsername newUsername categories' in ret (rmap (cons plan) plans)
      end
  end.

Definition first_of (a b : option string) : option string := match a with Some e => Some e | None => b end.
(** [rollback] over the plans, the last one first. *)
Fixpoint rollback (plans : list renamePlan) (rollbackErr : option string) : M World (option string) :=
  match plans with
  | [] => ret rollbackErr
  | plan :: plans' =>
      let! e1 := if rp_headsWritten plan then writeHeadsLocked (rp_category plan) (rp_oldHeads plan) else ret None in
      let rollbackErr := first_of rollbackErr e1 in
      let! e2 := if rp_fileMoved plan then Rename (rp_newPath plan) (rp_oldPath plan) else ret None in
      rollback plans' (first_of rollbackErr e2)
  end.
Fixpoint run_plans (plans finished : list renamePlan) : M World (option string) :=
  match plans with
  | [] => ret None
  | plan :: plans' =>
      let! err := if rp_moveFile plan then Rename (rp_oldPath plan) (rp_newPath plan) else ret None in
      match err with
      | Some e =>
          let! rollbackErr := rollback finished None in
          ret (Some (match rollbackErr with
                     | Some r => "CRITICAL audit rename failed and rollback failed: " +:+ e +:+ "; rollback: " +:+ r
                     | None => "rename audit log: " +:+ e
                     end))
      | None =>
          let plan := if rp_moveFile plan then mark_moved plan else plan in
          if bool_decide (rp_newHeads plan = ∅) && bool_decide (rp_oldHeads plan = ∅)
          then run_plans plans' (plan :: finished)
          else
            let! err := writeHeadsLocked (rp_category plan) (rp_newHeads plan) in
            match err with
            | Some e =>
                let! rollbackErr := rollback (plan :: finished) None in
                ret (Some (match rollbackErr with
                           | Some r => "CRITICAL audit rename checkpoint failed and rollback failed: " +:+ e +:+
                                       "; rollback: " +:+ r
                           | None => e
                           end))
            | None => run_plans plans' (mark_written plan :: finished)
            end
      end
  end.
Definition RenameAccount (oldUsername newUsername : string) : M World (option string) :=
  if negb (validUsername oldUsername) || negb (validUsername newUsername)
  then ret (Some "valid old and new usernames are required")
  else
    let! plans := plan_all oldUsername newUsername auditCategories in
    match plans with
    | Err e => ret (Some e)
    | Ok plans => run_plans plans []
    end.

End audit.

(** ** Chains *)

Section chains.
Context (key : string).

(** The MAC after the payloads that follow an index and a MAC, and their lines. *)
Fixpoint last_mac (index : Z) (previous : string) (ps : list string) : string :=
  match ps with
  | [] => previous
  | p :: ps' => last_mac (u64 (index + 1)) (sign key index previous p) ps'
  end.
Fixpoint chain (index : Z) (previous : string) (ps : list string) : list auditLine :=
  match ps with
  | [] => []
  | p :: ps' =>
      let mac := sign key index previous p in
      MkLine index auditKeyID (RawURL_Encode previous) p (RawURL_Encode mac) :: chain (u64 (index + 1)) mac ps'
  end.
(** The index after so many lines. *)
Definition index_after (index : Z) (n : nat) : Z := u64 (index + Z.of_nat n).

(** The head of a chain. *)
Definition head_of (ps : list string) : auditChainHead :=
  MkHead (u64 (Z.of_nat (length ps))) (RawURL_Encode (last_mac 1 "" ps)).

Lemma u64_small z : 0 <= z < 2 ^ 64 -> u64 z = z.
Proof. apply Z.mod_small. Qed.
Lemma u64_range z : 0 <= u64 z < 2 ^ 64.
Proof. apply Z.mod_pos_bound. lia. Qed.
Lemma u64_u64_add z n : u64 (u64 z + n) = u64 (z + n).
Proof. unfold u64. by rewrite Zplus_mod_idemp_l. Qed.
Lemma u64_u64_sub z n : u64 (u64 z - n) = u64 (z - n).
Proof. unfold u64. by rewrite Zminus_mod_idemp_l. Qed.

Lemma last_mac_snoc index previous ps p : last_mac index previous (ps ++ [p])%list =
  sign key (match ps with [] => index | _ => index_after index (length ps) end) (last_mac index previous ps) p.
Proof.
  revert index previous. induction ps as [|q ps IH]; intros index previous; [done|].
  cbn [app last_mac]. rewrite IH. f_equal. destruct ps as [|r ps]; unfold index_after.
  - by cbn [length].
  - rewrite u64_u64_add. f_equal. cbn [length]. lia.
Qed.
Lemma chain_snoc index previous ps p : chain index previous (ps ++ [p])%list =
  (chain index previous ps ++
   [let i := match ps with [] => index | _ => index_after index (length ps) end in
    MkLine i auditKeyID (RawURL_Encode (last_mac index previous ps)) p
      (RawURL_Encode (sign key i (last_mac index previous ps) p))])%list.
Proof.
  revert index previous. induction ps as [|q ps IH]; intros index previous; [done|].
  cbn [app chain last_mac]. rewrite IH. do 2 f_equal. destruct ps as [|r ps]; unfold index_after; cbn zeta.
  - by cbn [length].
  - rewrite u64_u64_add. replace (index + 1 + Z.of_nat (length (r :: ps)))%Z
      with (index + Z.of_nat (length (q :: r :: ps)))%Z by (cbn [length]; lia). done.
Qed.

Lemma url_word s : url_text s -> Forall (fun a => wordb a = true) (bytes_of s).
Proof.
  intros Hs. eapply list.Forall_impl; [exact Hs|]. intros a Ha. unfold url_char, is_digit, is_lower, is_upper in Ha. unfold wordb. ranges.
  rewrite !orb_true_iff in Ha. ranges. rewrite !Z.eqb_eq in Ha. lia.
Qed.
Lemma word_TrimSpace s : Forall (fun a => wordb a = true) (bytes_of s) -> TrimSpace s = s.
Proof. intros Hs. apply trimmed_TrimSpace. rewrite <- (string_of_bytes_of s). by apply word_trimmed. Qed.
Lemma decode_encoded s : decodeAuditMAC (RawURL_Encode s) = s.
Proof.
  unfold decodeAuditMAC. rewrite word_TrimSpace by apply url_word, RawURL_text. by rewrite RawURL_Decode_Encode.
Qed.
End chains.

(** What JSON is relied on for: the lines and the documents that are written are
    read back; a line has no line break and nothing to trim. *)
Definition written_payload `{AuditCodec} (p : string) : Prop := exists e, event_Marshal e = Some p.
Definition heads_ok (heads : gmap string auditChainHead) : Prop :=
  map_Forall (fun u h => validUsername u = true /\ 0 <= ch_Index h < 2 ^ 64 /\ url_text (ch_HMAC h)) heads.
Class AuditCodecOk `{AuditCodec} : Prop := {
  line_read_back l s : written_payload (al_Payload l) -> 0 <= al_Index l < 2 ^ 64 -> al_KeyID l = auditKeyID ->
    url_text (al_PreviousHMAC l) -> url_text (al_HMAC l) -> line_Marshal l = Some s ->
    line_Unmarshal s = Some l /\ trimmed s /\ s <> "" /\ ~ In newline (bytes_of s);
  document_read_back c heads mac s : In c auditCategories -> heads_ok heads -> url_text mac ->
    document_Marshal (MkHeads auditKeyID c (Some heads) mac) = Some s ->
    document_Unmarshal (s +:+ String newline "") = Some (MkHeads auditKeyID c (Some heads) mac) }.

(** *** Verification of a file *)

Section verification.
Context `{AuditCodec} (key : string).

(** The lines of a text of the log. *)
Definition flatten (ts : list string) : string := foldr (fun t acc => t +:+ String newline acc) "" ts.
Lemma flatten_app ts t : flatten (ts ++ [t])%list = flatten ts +:+ t +:+ String newline "".
Proof.
  induction ts as [|u ts IH]; [done|]. cbn [app flatten foldr]. fold (flatten (ts ++ [t])%list) (flatten ts).
  rewrite IH. rewrite string_app_assoc. done.
Qed.

(** The text of a file that holds just these payloads. *)
Definition log_text (ps : list string) (text : string) : Prop :=
  exists ts, mapM line_Marshal (chain key 1 "" ps) = Some ts /\ text = flatten ts.

Lemma verify_written `{!AuditCodecOk} path index previous ps ts :
  Forall written_payload ps -> 0 <= index < 2 ^ 64 -> mapM line_Marshal (chain key index previous ps) = Some ts ->
  verify_lines key path (Split newline (flatten ts)) index previous =
  Ok (MkHead (u64 (index - 1 + Z.of_nat (length ps))) (RawURL_Encode (last_mac key index previous ps))).
Proof.
  intros Hps. revert index previous ts. induction Hps as [|p ps Hp Hps IH]; intros index previous ts Hi Ht.
  - cbn in Ht. injection Ht as <-. cbn. by rewrite Z.add_0_r.
  - cbn [chain mapM] in Ht. apply bind_Some in Ht as (t & Ht & Hts). apply bind_Some in Hts as (ts' & Hts & Hret).
    injection Hret as <-.
    apply line_read_back in Ht as (Hr & Htrim & Hne & Hnl); cbn; auto with haze.
    cbn [flatten foldr]. fold (flatten ts'). rewrite Split_app by done. cbn [verify_lines].
    rewrite trimmed_TrimSpace by done. apply String.eqb_neq in Hne as ->. rewrite Hr.
    cbn [al_Index al_KeyID al_PreviousHMAC al_HMAC al_Payload].
    rewrite Z.eqb_refl, String.eqb_refl. cbn [negb orb]. rewrite !decode_encoded, !String.eqb_refl. cbn [negb].
    rewrite (IH (u64 (index + 1)) _ ts') by (done || apply u64_range).
    do 2 f_equal. unfold u64. rewrite Zplus_mod, Zminus_mod_idemp_l, <- Zplus_mod.
    f_equal. cbn [length]. lia.
Qed.

(** A file that verifies holds a chain: the payloads of its lines, in order. *)
Definition payloads (lines : list string) : list string :=
  omap (fun raw => if TrimSpace raw =? "" then None else al_Payload <$> line_Unmarshal (TrimSpace raw)) lines.
Lemma verify_sound path lines index previous h : 0 <= index < 2 ^ 64 ->
  verify_lines key path lines index previous = Ok h ->
  h = MkHead (u64 (index - 1 + Z.of_nat (length (payloads lines))))
        (RawURL_Encode (last_mac key index previous (payloads lines))).
Proof.
  revert index previous. induction lines as [|raw lines IH]; intros index previous Hi E.
  - cbn in *. injection E as <-. by rewrite Z.add_0_r.
  - cbn [verify_lines] in E. unfold payloads. cbn [omap list_omap]. fold (payloads lines).
    destruct (TrimSpace raw =? ""); [by apply IH|].
    destruct (line_Unmarshal (TrimSpace raw)) as [line|]; [|done].
    destruct (negb (al_Index line =? index)%Z || negb (al_KeyID line =? auditKeyID)) eqn:E1; [done|].
    destruct (negb (decodeAuditMAC (al_PreviousHMAC line) =? previous)) eqn:E2; [done|].
    destruct (negb (sign key (al_Index line) previous (al_Payload line) =? _)) eqn:E3; [done|].
    apply orb_false_iff in E1 as [E1 _]. apply negb_false_iff, Z.eqb_eq in E1. subst index.
    apply negb_false_iff, String.eqb_eq in E3. rewrite <- E3 in E. apply IH in E; [|apply u64_range]. subst h. cbn [fmap option_fmap option_map length last_mac].
    f_equal. unfold u64. rewrite Zplus_mod, Zminus_mod_idemp_l, <- Zplus_mod. f_equal. lia.
Qed.
End verification.

(** *** A head determines its chain *)

Lemma app_inj_length s t x y : String.length s = String.length t -> s +:+ x = t +:+ y -> s = t /\ x = y.
Proof.
  intros Hl E. split.
  - apply (f_equal (take_bytes (String.length s))) in E. rewrite take_bytes_app, Hl, take_bytes_app in E. done.
  - apply (f_equal (drop_bytes (String.length s))) in E. rewrite drop_bytes_app, Hl, drop_bytes_app in E. done.
Qed.

Section tampering.
Context (key : string).

(** The messages signed for the lines of a chain. *)
Fixpoint messages (index : Z) (previous : string) (ps : list string) : list string :=
  match ps with
  | [] => []
  | p :: ps' => chain_message index previous p :: messages (u64 (index + 1)) (sign key index previous p) ps'
  end.
Definition nth_index (n : nat) : Z := match n with O => 1 | _ => index_after 1 n end.

Lemma last_mac_end ps p : last_mac key 1 "" (ps ++ [p])%list =
  sign key (nth_index (length ps)) (last_mac key 1 "" ps) p.
Proof. rewrite last_mac_snoc. by destruct ps. Qed.
Lemma messages_snoc index previous ps p : messages index previous (ps ++ [p])%list =
  (messages index previous ps ++
   [chain_message (match ps with [] => index | _ => index_after index (length ps) end) (last_mac key index previous ps) p])%list.
Proof.
  revert index previous. induction ps as [|q ps IH]; intros index previous; [done|].
  cbn [app messages last_mac]. rewrite IH. destruct ps as [|r ps]; unfold index_after; [done|].
  rewrite u64_u64_add. replace (index + 1 + Z.of_nat (length (r :: ps)))%Z
    with (index + Z.of_nat (length (q :: r :: ps)))%Z by (cbn [length]; lia). done.
Qed.
Lemma messages_end ps p : messages 1 "" (ps ++ [p])%list =
  (messages 1 "" ps ++ [chain_message (nth_index (length ps)) (last_mac key 1 "" ps) p])%list.
Proof. rewrite messages_snoc. by destruct ps. Qed.

Lemma last_mac_length ps : String.length (last_mac key 1 "" ps) = match ps with [] => O | _ => 32%nat end.
Proof.
  destruct ps as [|p ps _] using rev_ind; [done|]. rewrite last_mac_end. unfold sign. rewrite hmac_length.
  by destruct ps.
Qed.

Lemma chain_message_inj index previous p previous' p' : String.length previous = String.length previous' ->
  chain_message index previous p = chain_message index previous' p' -> previous = previous' /\ p = p'.
Proof.
  intros Hl E. unfold chain_message in E.
  do 4 (apply app_inj_length in E as [_ E]; [|done]).
  apply app_inj_length in E as [-> E]; [|done]. split; [done|].
  apply app_inj_length in E as [_ E]; [done|].
  unfold be64. by rewrite <- !length_octets, !octets_of_octets, !length_big_endian by apply big_endian_range.
Qed.

(** Two chains of one length that end in one MAC are the same, unless the HMAC of
    two of their messages is the same. *)
Lemma chain_determined ps ps' : length ps = length ps' ->
  (forall m m', In m (messages 1 "" ps) -> In m' (messages 1 "" ps') -> hmac_sha256 key m = hmac_sha256 key m' -> m = m') ->
  last_mac key 1 "" ps = last_mac key 1 "" ps' -> ps = ps'.
Proof.
  revert ps'. induction ps as [|p ps IH] using rev_ind; intros ps' Hl Hc E; [by destruct ps'|].
  destruct ps' as [|p' ps' _] using rev_ind; [by destruct ps|].
  rewrite !length_app in Hl. cbn in Hl. assert (Hn : length ps = length ps') by lia.
  rewrite !last_mac_end in E. rewrite Hn in E. rewrite !messages_end in Hc.
  assert (Hm : chain_message (nth_index (length ps')) (last_mac key 1 "" ps) p =
               chain_message (nth_index (length ps')) (last_mac key 1 "" ps') p').
  { apply Hc; [|apply in_app_iff; by right; left|exact E]. rewrite Hn. apply in_app_iff. by right; left. }
  apply chain_message_inj in Hm as [Hm ->].
  - f_equal. apply IH; [done| |done]. intros m m' H1 H2. apply Hc; apply in_app_iff; by left.
  - rewrite !last_mac_length. destruct ps, ps'; done.
Qed.

(** So a file that verifies with the head of a chain holds that chain. *)
Lemma head_determines `{AuditCodec} path lines ps h :
  verify_lines key path lines 1 "" = Ok h -> same_head (head_of key ps) h = true ->
  Z.of_nat (length ps) < 2 ^ 64 -> Z.of_nat (length (payloads lines)) < 2 ^ 64 ->
  (forall m m', In m (messages 1 "" (payloads lines)) -> In m' (messages 1 "" ps) ->
     hmac_sha256 key m = hmac_sha256 key m' -> m = m') ->
  payloads lines = ps.
Proof.
  intros Hv Hs Hn Hn' Hc. apply verify_sound in Hv; [|lia]. subst h. unfold same_head, head_of in Hs.
  cbn [ch_Index ch_HMAC] in Hs. rewrite !decode_encoded in Hs. apply andb_true_iff in Hs as [Hi Hm].
  apply Z.eqb_eq in Hi. apply String.eqb_eq in Hm. symmetry in Hm.
  rewrite !u64_small in Hi by lia. apply chain_determined; [lia|done|done].
Qed.
End tampering.

(** ** A concrete instance *)

Definition words_only (s : string) : Prop := Forall (fun a => wordb a = true) (bytes_of s).
Lemma words_app s t : words_only s -> words_only t -> words_only (s +:+ t).
Proof. intros Hs Ht. unfold words_only. rewrite bytes_of_app. by apply list.Forall_app. Qed.
Lemma words_part n s : words_only s -> words_only (take_bytes n s) /\ words_only (drop_bytes n s).
Proof.
  unfold words_only. revert s. induction n as [|n IH]; intros [|a s] Hs; try by split; [constructor|].
  change (bytes_of (String a s)) with (a :: bytes_of s) in Hs. apply list.Forall_cons in Hs as [Ha Hs].
  destruct (IH s Hs) as [Ht Hd]. cbn [take_bytes drop_bytes]. split; [|done].
  change (bytes_of (String a (take_bytes n s))) with (a :: bytes_of (take_bytes n s)). by constructor.
Qed.
Lemma words_framed s : words_only s -> words_only (framed s).
Proof.
  unfold words_only. induction s as [|a s IH]; intros Hs; [by repeat constructor|].
  change (bytes_of (String a s)) with (a :: bytes_of s) in Hs. rewrite list.Forall_cons in Hs. destruct Hs as [Ha Hs].
  change (bytes_of (framed (String a s))) with ("1"%char :: a :: bytes_of (framed s)). repeat constructor; auto.
Qed.
Lemma words_Z_text z : words_only (Z_text z).
Proof.
  assert (Hp : forall p, words_only (pos_text p)).
  { intros p. unfold words_only. induction p; [..|by repeat constructor];
      [change (bytes_of (pos_text (xI p))) with ("1"%char :: bytes_of (pos_text p))
      |change (bytes_of (pos_text (xO p))) with ("0"%char :: bytes_of (pos_text p))]; by constructor. }
  destruct z as [|p|p]; [by repeat constructor| |];
    [change (words_only (String "p" (pos_text p)))|change (words_only (String "n" (pos_text p)))];
    (constructor; [done|apply Hp]).
Qed.
Lemma words_hex s : words_only (hex_Encode s).
Proof.
  unfold words_only, hex_Encode. rewrite bytes_of_string_of. apply List.Forall_concat, List.Forall_forall.
  intros l Hl. apply in_map_iff in Hl as (b & <- & Hb).
  assert (Hd : forall v, 0 <= v < 16 -> wordb (hex_digit v) = true).
  { intros v Hv. unfold wordb, hex_digit. destruct (v <? 10)%Z eqn:E; bool_hyps; rewrite byte_val_of by lia; ranges; lia. }
  pose proof (octets_range s) as Hr. rewrite List.Forall_forall in Hr. specialize (Hr b Hb).
  repeat constructor; apply Hd; zdivmod.
Qed.

Definition head_text (e : string * auditChainHead) : string := framed e.1 +:+ Z_text (ch_Index e.2) +:+ framed (ch_HMAC e.2).
Definition read_head (s : string) : option ((string * auditChainHead) * string) :=
  r1 ← read_framed s; r2 ← read_Z r1.2; r3 ← read_framed r2.2; Some ((r1.1, MkHead r2.1 r3.1), r3.2).
Definition sample_line (l : auditLine) : string :=
  Z_text (al_Index l) +:+ framed (al_KeyID l) +:+ framed (al_PreviousHMAC l) +:+ framed (al_Payload l) +:+ framed (al_HMAC l).

#[export] Instance sample_AuditCodec : AuditCodec | 1000 := {|
  event_Marshal e := Some (hex_Encode (ev_Event e +:+ ev_ActorUsername e));
  line_Marshal l := Some (sample_line l);
  line_Unmarshal s :=
    r1 ← read_Z s; r2 ← read_framed r1.2; r3 ← read_framed r2.2; r4 ← read_framed r3.2; r5 ← read_framed r4.2;
    Some (MkLine r1.1 r2.1 r3.1 r4.1 r5.1);
  payload_Marshal p := Some (framed (hp_KeyID p) +:+ framed (hp_Category p) +:+ list_text head_text (map_to_list (hp_Heads p)));
  document_Marshal d := Some (framed (hd_KeyID d) +:+ framed (hd_Category d) +:+ framed (hd_HMAC d) +:+
    list_text head_text (map_to_list (default ∅ (hd_Heads d))));
  document_Unmarshal s :=
    r1 ← read_framed s; r2 ← read_framed r1.2; r3 ← read_framed r2.2; r4 ← read_list_text read_head r3.2;
    Some (MkHeads r1.1 r2.1 (Some (list_to_map r4.1)) r3.1) |}.

Lemma read_head_text e s : read_head (head_text e +:+ s) = Some (e, s).
Proof.
  destruct e as [u [i h]]. unfold read_head, head_text. cbn [fst snd ch_Index ch_HMAC].
  rewrite !string_app_assoc, read_framed_text. cbn [base.mbind option_bind fst snd]. rewrite read_Z_text.
  cbn [base.mbind option_bind fst snd]. by rewrite read_framed_text.
Qed.

Ltac read_next := cbn [base.mbind option_bind fst snd]; first [rewrite read_framed_text | rewrite read_Z_text].
Lemma sample_AuditCodecOk : AuditCodecOk (H := sample_AuditCodec).
Proof.
  constructor.
  - intros l s (e & Ee) Hi Hk Hprev Hmac E. cbn in Ee, E. injection Ee as Ee. injection E as <-.
    assert (Hw : words_only (sample_line l)).
    { unfold sample_line. repeat apply words_app; try apply words_framed; try apply words_Z_text.
      - rewrite Hk. by repeat constructor.
      - by apply url_word.
      - rewrite <- Ee. apply words_hex.
      - by apply url_word. }
    split_and!.
    + destruct l as [i k prev p mac]. unfold sample_line. cbn [al_Index al_KeyID al_PreviousHMAC al_Payload al_HMAC].
      cbn [line_Unmarshal sample_AuditCodec]. read_next. read_next. read_next. read_next.
      cbn [base.mbind option_bind fst snd]. rewrite <- (string_app_nil_r (framed mac)), read_framed_text. by cbn.
    + rewrite <- (string_of_bytes_of (sample_line l)). by apply word_trimmed.
    + unfold sample_line. by destruct (al_Index l).
    + intros Hin. unfold words_only in Hw. rewrite List.Forall_forall in Hw. by apply Hw in Hin.
  - intros c heads mac s _ _ _ E. revert E. generalize auditKeyID as k. intros k E. cbn [document_Marshal sample_AuditCodec] in E. injection E as <-.
    cbn [document_Unmarshal sample_AuditCodec hd_KeyID hd_Category hd_HMAC hd_Heads default from_option id].
    rewrite !string_app_assoc. read_next. read_next. read_next.
    cbn [base.mbind option_bind fst snd]. rewrite read_list_text_text by (intros; apply read_head_text).
    cbn [base.mbind option_bind fst snd]. by rewrite list_to_map_to_list.
Qed.
#[export] Existing Instance sample_AuditCodecOk | 1000.
