(* ===== verification/AuditLogSafety.v ===== *)
(** What the audit log of [AuditLog] guarantees: its operations on the file
    system, the state they keep, and what verification detects. *)

From stdpp Require Import stringmap sorting.
From S2P Require Import Prelude UnicodeTables GoStrings SampleCodec GoTime GoValue GoPath GoCrypto AlertPacket.
From S2P Require Import PlaylistModel World AlertRequest AudioRetention PlannerState AlertCommit Wav AudioFiles AuditLog.

#[local] Open Scope Z_scope.
#[local] Open Scope string_scope.
#[local] Open Scope haze_scope.

Ltac fault_case := match goal with |- context [fault ?n] => destruct (fault n) end.

(** ** What the operations do to the files *)

Section effects.
Context `{Env} `{Tools} `{AuditCodec} (baseDir key : string).

Lemma or_fail_eq (m k : M World (option string)) w :
  or_fail m k w = match (m w).1 with Some e => (Some e, (m w).2) | None => k (m w).2 end.
Proof. unfold or_fail. rewrite mbind_eq. by destruct (m w).1. Qed.

Lemma attempt_eq w : attempt w = (fault (attempts w), MkWorld (reads w) (S (attempts w)) (files w) (published w) (archive w)).
Proof. done. Qed.
Lemma wrap_eq prefix (m : M World (option string)) w :
  wrap prefix m w = (option_map (String.append prefix) (m w).1, (m w).2).
Proof. unfold wrap. by rewrite mbind_eq. Qed.

(** [m] leaves the files as they are. *)
Definition quiet {A} (m : M World A) : Prop := forall w, files (m w).2 = files w.
Lemma quiet_keeps {A} (m : M World A) : (forall fs, preserves (fun w => files w = fs) m) -> quiet m.
Proof. intros Hm w. by apply (Hm (files w)). Qed.
Lemma keeps_attempt fs : preserves (fun w => files w = fs) attempt.
Proof. by intros w Hw. Qed.
#[local] Hint Resolve keeps_attempt : haze.
Lemma quiet_verify path : quiet (verifyFileLocked key path).
Proof. apply quiet_keeps. intros fs. unfold verifyFileLocked. keeps. Qed.
Lemma quiet_heads c : quiet (readHeadsLocked baseDir key c).
Proof. apply quiet_keeps. intros fs. unfold readHeadsLocked. keeps. Qed.
Lemma quiet_stat path : quiet (stat_there path).
Proof. apply quiet_keeps. intros fs. unfold stat_there, exists_file. keeps. Qed.

(** A file that was found good. *)
Definition head_in (path : string) (fs : gmap string File) : result string auditChainHead :=
  match fs !! path with
  | None => Ok (MkHead 0 "")
  | Some f => verify_lines key path (Split newline (text_of f)) 1 ""
  end.
Lemma verify_Ok path h w : (verifyFileLocked key path w).1 = Ok h -> head_in path (files w) = Ok h.
Proof.
  unfold verifyFileLocked, head_in. rewrite !mbind_eq. cbn. destruct (fault (attempts w)); [done|].
  rewrite mbind_eq. cbn. destruct (files w !! path) as [f|]; [|by intros [= <-]].
  rewrite mbind_eq. cbn. destruct (verify_lines _ _ _ _ _), (fault (S (attempts w))); cbn; congruence.
Qed.
Lemma heads_Ok c heads w : (readHeadsLocked baseDir key c w).1 = Ok heads -> heads_in baseDir key c (files w) = Ok heads.
Proof. unfold readHeadsLocked. rewrite mbind_eq. cbn. by destruct (fault (attempts w)). Qed.

(** *** Appending *)

Lemma text_raw b t : text_of (raw_file b t) = string_of b.
Proof. unfold text_of, content_of. cbn. by rewrite bytes_of_string_of. Qed.

Lemma text_bytes f : bytes_of (text_of f) = content_of f.
Proof. apply bytes_of_string_of. Qed.

(** What is in the file after an append. *)
Definition appended (path text : string) (k : nat) (fs fs' : gmap string File) : Prop :=
  exists t, fs' = <[path := raw_file (bytes_of (from_option text_of "" (fs !! path)) ++ take k (bytes_of text)) t]> fs.

Lemma write_at_effect path off b w : exists t k,
  files (write_at path off b w).2 = alter (fun f => raw_file (overwrite off (take k b) (content_of f)) t) path (files w) /\
  ((write_at path off b w).1.1 = None -> k = length b).
Proof.
  unfold write_at. rewrite !mbind_eq. cbn. eexists _, _. split; [done|]. by destruct (fault (attempts w)).
Qed.
Lemma overwrite_past b c : overwrite (length c) b c = (c ++ b)%list.
Proof. unfold overwrite. by rewrite take_ge, drop_ge, app_nil_r by lia. Qed.

Lemma append_text_outcome path text w :
  let r := append_text path text w in
  match r.1 with
  | None => appended path text (String.length text) (files w) (files r.2)
  | Some _ => files r.2 = files w \/ exists k, appended path text k (files w) (files r.2)
  end.
Proof.
  cbn zeta. unfold append_text. rewrite !mbind_eq. cbn -[write_at wrap].
  destruct (fault (attempts w)); [by left|]. rewrite !mbind_eq. cbn -[write_at wrap].
  set (off := String.length _). set (w1 := MkWorld _ _ _ _ _).
  destruct (write_at_effect path off (bytes_of text) w1) as (t & k & Hf & Hk).
  assert (Ha : appended path text k (files w) (files (write_at path off (bytes_of text) w1).2)).
  { exists t. rewrite Hf. unfold off, w1. cbn [files]. rewrite lookup_partial_alter_eq. cbn [from_option].
    apply map_eq. intros p. destruct (decide (p = path)) as [->|Hne].
    - rewrite lookup_insert_eq, lookup_alter_eq, lookup_partial_alter_eq. cbn [fmap option_fmap option_map].
      do 2 f_equal. rewrite <- length_bytes_of. destruct (files w !! path) as [f|]; cbn [default from_option id].
      + rewrite text_bytes. apply overwrite_past.
      + rewrite text_raw, bytes_of_string_of. apply overwrite_past.
    - by rewrite lookup_insert_ne, lookup_alter_ne, lookup_partial_alter_ne by done. }
  destruct (write_at path off (bytes_of text) w1) as [[[e|] n] w2]; cbn [fst snd ret] in *; [right; eauto|].
  rewrite or_fail_eq, wrap_eq, attempt_eq. cbn [fst snd]. rewrite (Hk eq_refl), length_bytes_of in Ha.
  fault_case; cbn [option_map fst snd]; [right; eauto|].
  rewrite wrap_eq, attempt_eq. fault_case; cbn [option_map fst snd]; [right; eauto|done].
Qed.

(** *** Replacing *)

(** What is in the file after it was replaced. *)
Definition replaced (path text : string) (fs fs' : gmap string File) : Prop :=
  exists t, fs' = <[path := raw_file (bytes_of text) t]> fs.

(** The steps on the temporary file, for which nothing else changes before it is
    renamed. *)
Lemma fill_outcome tmp path raw fs f w :
  fs !! tmp = None -> tmp <> path -> files w = <[tmp := f]> fs -> content_of f = [] ->
  let r := or_fail attempt (or_fail (let! r := write_at tmp 0 (bytes_of raw) in ret r.1)
             (or_fail attempt (or_fail attempt (replaceAuditFileAtomically tmp path)))) w in
  match r.1 with
  | None => replaced path raw fs (delete tmp (files r.2))
  | Some _ => delete tmp (files r.2) = fs \/ replaced path raw fs (delete tmp (files r.2))
  end.
Proof.
  intros Htmp Hne Hw Hf. cbn zeta. assert (Hsame : forall g, delete tmp (<[tmp := g]> fs) = fs)
    by (intros g; rewrite delete_insert_eq; by apply delete_id).
  rewrite or_fail_eq, attempt_eq. cbn [fst snd]. destruct (fault (attempts w)); [left; cbn [fst snd files]; by rewrite Hw, Hsame|].
  set (w1 := MkWorld _ _ _ _ _). rewrite or_fail_eq, mbind_eq.
  destruct (write_at_effect tmp 0 (bytes_of raw) w1) as (t & k & Hfiles & Hk).
  destruct (write_at tmp 0 (bytes_of raw) w1) as [[err n] w2]. cbn [fst snd ret] in *.
  unfold w1 in Hfiles. cbn [files] in Hfiles. rewrite Hw, alter_insert_eq, Hf in Hfiles.
  destruct err as [e|]; cbn [fst snd files]; [left; by rewrite Hfiles, Hsame|]. specialize (Hk eq_refl). subst k.
  unfold overwrite in Hfiles. rewrite take_0, firstn_all in Hfiles. cbn [app] in Hfiles.
  rewrite drop_nil, app_nil_r in Hfiles.
  rewrite or_fail_eq, attempt_eq. cbn [fst snd]. destruct (fault (attempts w2)); cbn [fst snd files]; [left; by rewrite Hfiles, Hsame|].
  rewrite or_fail_eq, attempt_eq. cbn [fst snd attempts]. destruct (fault (S (attempts w2))); cbn [fst snd files]; [left; by rewrite Hfiles, Hsame|].
  unfold replaceAuditFileAtomically, Rename. rewrite or_fail_eq, mbind_eq, attempt_eq. cbn [fst snd attempts].
  destruct (fault (S (S (attempts w2)))); cbn [fst snd files ret]; [left; by rewrite Hfiles, Hsame|].
  rewrite mbind_eq. cbn [set_files modify fst snd ret files].
  assert (Hr : replaced path raw fs (delete tmp (move tmp path (files w2)))).
  { exists t. rewrite Hfiles. unfold move. rewrite lookup_insert_eq, delete_insert_eq.
    rewrite (delete_id fs) by done. apply map_eq. intros p. destruct (decide (p = path)) as [->|Hp].
    - by rewrite lookup_delete_ne, !lookup_insert_eq by done.
    - rewrite !lookup_insert_ne by done. destruct (decide (p = tmp)) as [->|]; [by rewrite lookup_delete_eq|].
      by rewrite lookup_delete_ne, lookup_insert_ne by done. }
  rewrite or_fail_eq, attempt_eq. cbn [fst snd attempts]. fault_case; cbn [fst snd files]; [by right|].
  rewrite attempt_eq. cbn [fst snd attempts]. by fault_case; cbn [fst snd files]; [right|].
Qed.

Lemma writeFileAtomicMode_outcome path raw w :
  let r := writeFileAtomicMode path raw w in
  match r.1 with
  | None => replaced path raw (files w) (files r.2)
  | Some _ => files r.2 = files w \/ replaced path raw (files w) (files r.2)
  end.
Proof.
  cbn zeta. unfold writeFileAtomicMode. rewrite mbind_eq. cbn [gets fst snd].
  set (tmp := fresh_string _ _). assert (Htmp : (<[path := raw_file [] 0]> (files w)) !! tmp = None)
    by apply fresh_string_fresh.
  apply lookup_insert_None in Htmp as [Htmp Hne].
  rewrite or_fail_eq. unfold Create. rewrite mbind_eq, attempt_eq. cbn [fst snd].
  destruct (fault (attempts w)); cbn [fst snd ret files]; [by left|].
  rewrite !mbind_eq. cbn [ret fst snd].
  match goal with |- context [or_fail attempt ?k ?w1] =>
    pose proof (fill_outcome tmp path raw (files w) (raw_file [] (clock (pred (reads w)))) w1 Htmp (not_eq_sym Hne) eq_refl) as Ho;
    destruct (or_fail attempt k w1) as [err w2]
  end.
  cbn zeta in Ho. cbn [fst snd ret] in *. by apply Ho.
Qed.

(** The record of the heads after it was written. *)
Lemma writeHeadsLocked_outcome c heads w :
  let r := writeHeadsLocked baseDir key c heads w in
  match r.1 with
  | None => exists mac raw, signHeads key (MkHeadsPayload auditKeyID c heads) = Ok mac /\
      document_Marshal (MkHeads auditKeyID c (Some heads) (RawURL_Encode mac)) = Some raw /\
      replaced (headsPath baseDir c) (raw +:+ String newline "") (files w) (files r.2)
  | Some _ => files r.2 = files w \/
      exists mac raw, signHeads key (MkHeadsPayload auditKeyID c heads) = Ok mac /\
        document_Marshal (MkHeads auditKeyID c (Some heads) (RawURL_Encode mac)) = Some raw /\
        replaced (headsPath baseDir c) (raw +:+ String newline "") (files w) (files r.2)
  end.
Proof.
  cbn zeta. unfold writeHeadsLocked. destruct (signHeads key _) as [mac|e] eqn:Es; [|by left].
  destruct (document_Marshal _) as [raw|] eqn:Ed; [|by left]. rewrite wrap_eq.
  pose proof (writeFileAtomicMode_outcome (headsPath baseDir c) (raw +:+ String newline "") w) as Ho. cbn zeta in Ho.
  destruct (writeFileAtomicMode _ _ w) as [[e|] w']; cbn [fst snd option_map] in *; [|eauto].
  destruct Ho as [Ho|Ho]; [by left|right; eauto].
Qed.
End effects.

(** ** Paths *)

Section paths.
Context (baseDir : string) (Hbase : baseDir <> "").

Lemma category_plain c : In c auditCategories -> plain c /\ c <> "..".
Proof. intros [<-|[<-|[<-|[]]]]; (split; [split_and!; [done|done|cbn; intuition discriminate]|done]). Qed.
Lemma username_no_slash u : validUsername u = true -> ~ In slash (bytes_of u).
Proof.
  unfold validUsername. intros [Hc _]%andb_true_iff Hin. rewrite forallb_forall in Hc. by apply Hc in Hin.
Qed.
Lemma username_nonempty u : validUsername u = true -> u <> "".
Proof. intros Hu ->. by cbn in Hu. Qed.
Lemma log_name_plain u : validUsername u = true -> plain (u +:+ ".log") /\ u +:+ ".log" <> "..".
Proof.
  intros Hu. pose proof (username_nonempty u Hu) as Hne. pose proof (username_no_slash u Hu) as Hs.
  assert (Hl : (4 < String.length (u +:+ ".log"))%nat).
  { rewrite String_length_app. destruct u; [done|]. cbn. lia. }
  split; [split_and!|].
  - by intros E; rewrite E in Hl; cbn in Hl; lia.
  - by intros E; rewrite E in Hl; cbn in Hl; lia.
  - rewrite bytes_of_app, in_app_iff. intros [Hin|Hin]; [done|]. cbn in Hin. intuition discriminate.
  - by intros E; rewrite E in Hl; cbn in Hl; lia.
Qed.
Lemma sig_plain : plain "integrity.sig" /\ "integrity.sig" <> "..".
Proof. split; [split_and!; [done|done|cbn; intuition discriminate]|done]. Qed.

Lemma two_parts c x c' x' : plain c -> c <> ".." -> plain x -> x <> ".." -> plain c' -> c' <> ".." ->
  plain x' -> x' <> ".." -> JoinPath [baseDir; c; x] = JoinPath [baseDir; c'; x'] -> c = c' /\ x = x'.
Proof.
  intros H1 H2 H3 H4 H5 H6 H7 H8. destruct (JoinPath_pair baseDir Hbase) as (rooted & r & Hr).
  destruct (Hr c H1 H2) as (_ & _ & Ha). destruct (Ha x H3 H4) as [-> Hp].
  destruct (Hr c' H5 H6) as (_ & _ & Hb). destruct (Hb x' H7 H8) as [-> Hp'].
  intros E. apply unresolve_inj in E; [|by destruct r|by destruct r|done|done].
  apply app_inv_head in E. by injection E.
Qed.

Lemma append_inj_suffix s t x : s +:+ x = t +:+ x -> s = t.
Proof.
  intros E. apply (f_equal bytes_of) in E. rewrite !bytes_of_app in E. apply app_inv_tail in E. by apply bytes_of_inj.
Qed.
Lemma logPath_inj c u c' u' : In c auditCategories -> In c' auditCategories -> validUsername u = true ->
  validUsername u' = true -> logPath baseDir c u = logPath baseDir c' u' -> c = c' /\ u = u'.
Proof.
  intros Hc Hc' Hu Hu' E. apply two_parts in E as [-> E]; try (by apply category_plain) || (by apply log_name_plain).
  split; [done|]. by eapply append_inj_suffix.
Qed.
Lemma headsPath_inj c c' : In c auditCategories -> In c' auditCategories ->
  headsPath baseDir c = headsPath baseDir c' -> c = c'.
Proof. intros Hc Hc' E. apply two_parts in E as [-> _]; try (by apply category_plain) || by apply sig_plain. done. Qed.
Lemma headsPath_log c c' u : In c auditCategories -> In c' auditCategories -> validUsername u = true ->
  headsPath baseDir c <> logPath baseDir c' u.
Proof.
  intros Hc Hc' Hu E. apply two_parts in E as [_ E];
    try (by apply category_plain) || (by apply log_name_plain) || by apply sig_plain.
  apply (f_equal string_rev) in E. rewrite string_rev_app in E. by vm_compute in E.
Qed.
Lemma Dir_log c x : In c auditCategories -> plain x -> x <> ".." -> Dir (JoinPath [baseDir; c; x]) = JoinPath [baseDir; c].
Proof. intros Hc Hx Hd. destruct (category_plain c Hc). by apply Dir_JoinPath_pair. Qed.
Lemma category_dir_inj c c' : In c auditCategories -> In c' auditCategories ->
  JoinPath [baseDir; c] = JoinPath [baseDir; c'] -> c = c'.
Proof.
  intros Hc Hc' E. destruct (category_plain c Hc) as [H1 H2], (category_plain c' Hc') as [H3 H4].
  destruct (JoinPath_pair baseDir Hbase) as (rooted & r & Hr).
  destruct (Hr c H1 H2) as (E1 & Hp & _), (Hr c' H3 H4) as (E2 & Hp' & _). rewrite E1, E2 in E.
  apply unresolve_inj in E; [|by destruct r|by destruct r|done|done]. apply app_inv_head in E. by injection E.
Qed.
Lemma Base_log c x : plain x -> x <> ".." -> Base (JoinPath [baseDir; c; x]) = x.
Proof.
  intros Hx Hd. apply (Base_JoinPath [baseDir; c] x); [|done|done]. by rewrite filter_cons_True.
Qed.

(** *** Names of log files *)

Lemma runes_ascii s t : Forall (fun a => byte_val a < 128) (bytes_of s) -> runes (s +:+ t) = (map byte_val (bytes_of s) ++ runes t)%list.
Proof.
  induction s as [|a s IH]; intros Hs; [done|]. change (bytes_of (String a s)) with (a :: bytes_of s) in *.
  cbn [map app].
  rewrite list.Forall_cons in Hs. destruct Hs as [Ha Hs]. rewrite <- IH by done.
  change (String a s +:+ t) with (String a "" +:+ (s +:+ t)). apply runes_encoded.
  assert (Hok : rune_ok (byte_val a)).
  { unfold rune_ok, valid_rune. pose proof (byte_val_range a). apply orb_true_iff. left. ranges. lia. }
  assert (E : encode_rune (byte_val a) = String a "").
  { unfold encode_rune. rewrite Hok. apply Z.ltb_lt in Ha as ->. f_equal. apply byte_val_inj.
    apply byte_val_of, byte_val_range. }
  rewrite <- E. by apply encode_rune_encoded.
Qed.
Lemma username_ascii u : validUsername u = true -> Forall (fun a => byte_val a < 128) (bytes_of u).
Proof.
  unfold validUsername. intros [Hc _]%andb_true_iff. rewrite forallb_forall in Hc. apply List.Forall_forall.
  intros a Ha. apply Hc in Ha. unfold username_char, is_digit, is_lower, is_upper in Ha.
  rewrite !orb_true_iff, !Z.eqb_eq in Ha. unfold in_range in Ha. rewrite !andb_true_iff, !Z.leb_le in Ha. lia.
Qed.
Lemma is_log_name u : validUsername u = true -> is_log (u +:+ ".log") = true.
Proof.
  intros Hu. unfold is_log. Transparent ToLower. unfold ToLower. Opaque ToLower.
  rewrite runes_ascii by by apply username_ascii. rewrite map_app, encode_app. apply HasSuffix_spec. by eexists.
Qed.
Lemma log_user_name u : validUsername u = true -> log_user (u +:+ ".log") = u.
Proof.
  intros Hu. destruct (log_name_plain u Hu) as [(_ & _ & Hs) _]. unfold log_user, Ext.
  rewrite Split_last by done. cbn [List.last].
  change (u +:+ ".log") with (u +:+ String "." "log"). rewrite LastIndex_app by (cbn; intuition discriminate).
  rewrite drop_bytes_app. unfold TrimSuffix. replace (HasSuffix _ _) with true
    by (symmetry; apply HasSuffix_spec; by exists u).
  rewrite String_length_app, Nat.add_sub. apply take_bytes_app.
Qed.
End paths.

(** ** The contents of the log *)

(** What a log holds: the payloads of each account, by category. *)
Definition contents : Type := string -> gmap string (list string).
Definition add_payload (c u p : string) (lg : contents) : contents :=
  fun c' => if (c' =? c)%string then <[u := (default [] (lg c !! u) ++ [p])%list]> (lg c) else lg c'.

Section log.
Context `{Env} `{Tools} `{AuditCodecOk} (baseDir key : string) (Hbase : baseDir <> "").

Definition good_log (u : string) (ps : list string) : Prop :=
  validUsername u = true /\ ps <> [] /\ Forall written_payload ps /\ Z.of_nat (length ps) < 2 ^ 64.
(** The heads that are signed for a category. *)
Definition heads_of (lg : gmap string (list string)) : gmap string auditChainHead := head_of key <$> lg.

(** The files hold these payloads and no other log: every account has its chain. *)
Record LogFiles (fs : gmap string File) (lg : contents) : Prop := {
  rep_good c u ps : In c auditCategories -> lg c !! u = Some ps -> good_log u ps;
  rep_log c u ps : In c auditCategories -> lg c !! u = Some ps ->
    exists f, fs !! logPath baseDir c u = Some f /\ log_text key ps (text_of f);
  rep_absent c u : In c auditCategories -> validUsername u = true -> lg c !! u = None ->
    fs !! logPath baseDir c u = None;
  rep_only c path : In c auditCategories -> is_Some (fs !! path) -> Dir path = JoinPath [baseDir; c] ->
    is_log (Base path) = true -> exists u, is_Some (lg c !! u) /\ path = logPath baseDir c u }.

(** And the record of each category has the heads of its chains. *)
Record Rep (fs : gmap string File) (lg : contents) : Prop := {
  rep_files : LogFiles fs lg;
  rep_heads c : In c auditCategories -> heads_in baseDir key c fs = Ok (heads_of (lg c)) }.

Lemma heads_of_ok lg : map_Forall good_log lg -> heads_ok (heads_of lg).
Proof.
  intros Hg u h Hu. unfold heads_of in Hu. apply lookup_fmap_Some in Hu as (ps & <- & Hu). apply Hg in Hu as (Hu & _).
  split; [done|]. unfold head_of. cbn. split; [apply u64_range|apply RawURL_text].
Qed.

Lemma log_text_snoc ps text p raw : log_text key ps text ->
  line_Marshal (MkLine (nth_index (length ps)) auditKeyID (RawURL_Encode (last_mac key 1 "" ps)) p
                  (RawURL_Encode (sign key (nth_index (length ps)) (last_mac key 1 "" ps) p))) = Some raw ->
  log_text key (ps ++ [p])%list (text +:+ raw +:+ String newline "").
Proof.
  intros (ts & Hts & ->) Hraw. exists (ts ++ [raw])%list. rewrite flatten_app. split; [|done].
  apply mapM_Some in Hts. apply mapM_Some. rewrite chain_snoc. apply Forall2_app; [done|].
  constructor; [|constructor]. cbn zeta. by destruct ps.
Qed.
Lemma log_text_nil : log_text key [] "".
Proof. by exists []. Qed.

Lemma head_in_written path fs ps f : Forall written_payload ps -> fs !! path = Some f -> log_text key ps (text_of f) ->
  head_in key path fs = Ok (head_of key ps).
Proof.
  intros Hps Hf (ts & Hts & E). unfold head_in. rewrite Hf, E.
  rewrite (verify_written key path 1 "" ps ts) by (done || lia). unfold head_of. by rewrite Z.sub_diag, Z.add_0_l.
Qed.
Lemma Rep_ext fs lg lg' : (forall c, In c auditCategories -> lg c = lg' c) -> Rep fs lg -> Rep fs lg'.
Proof.
  intros E [[H1' H2' H3' H4'] H5']. split; [split|].
  - intros c u ps Hc. rewrite <- E by done. by apply H1'.
  - intros c u ps Hc. rewrite <- E by done. by apply H2'.
  - intros c u Hc. rewrite <- E by done. by apply H3'.
  - intros c path Hc. rewrite <- E by done. by apply H4'.
  - intros c Hc. rewrite <- E by done. by apply H5'.
Qed.

(** At the start there is nothing. *)
Lemma Rep_empty : Rep ∅ (fun _ => ∅).
Proof.
  split; [split|].
  - intros c u ps _ E. by rewrite lookup_empty in E.
  - intros c u ps _ E. by rewrite lookup_empty in E.
  - intros. apply lookup_empty.
  - intros c path _ [f Hf]. by rewrite lookup_empty in Hf.
  - intros c _. unfold heads_in, heads_of. by rewrite lookup_empty, fmap_empty.
Qed.

Lemma head_of_nil : head_of key [] = MkHead 0 "".
Proof. by vm_compute. Qed.

(** What verification finds in an account's file. *)
Lemma rep_head fs lg c u : LogFiles fs lg -> In c auditCategories -> validUsername u = true ->
  head_in key (logPath baseDir c u) fs = Ok (head_of key (default [] (lg c !! u))).
Proof.
  intros Hr Hc Hu. destruct (lg c !! u) as [ps|] eqn:E; cbn [default from_option id].
  - destruct (rep_log _ _ Hr c u ps Hc E) as (f & Hf & Ht).
    destruct (rep_good _ _ Hr c u ps Hc E) as (_ & _ & Hps & _). by eapply head_in_written.
  - unfold head_in. by rewrite (rep_absent _ _ Hr c u Hc Hu E), head_of_nil.
Qed.

Lemma heads_written c heads fs fs' mac raw : In c auditCategories -> heads_ok heads ->
  signHeads key (MkHeadsPayload auditKeyID c heads) = Ok mac ->
  document_Marshal (MkHeads auditKeyID c (Some heads) (RawURL_Encode mac)) = Some raw ->
  replaced (headsPath baseDir c) (raw +:+ String newline "") fs fs' -> heads_in baseDir key c fs' = Ok heads.
Proof.
  intros Hc Hh Hmac Hraw (t & ->). unfold heads_in. rewrite lookup_insert_eq, text_raw, string_of_bytes_of.
  rewrite (document_read_back c heads (RawURL_Encode mac) raw); [|done|done|apply RawURL_text|done].
  unfold document_heads. cbn [hd_Heads hd_KeyID hd_Category hd_HMAC]. rewrite !String.eqb_refl. cbn [negb orb].
  rewrite Hmac. cbn [rbind]. rewrite decode_encoded, String.eqb_refl.
  unfold signHeads in Hmac. destruct (payload_Marshal _); [|done]. injection Hmac as <-. by rewrite hmac_length.
Qed.
Lemma heads_in_other c fs fs' : fs' !! headsPath baseDir c = fs !! headsPath baseDir c ->
  heads_in baseDir key c fs' = heads_in baseDir key c fs.
Proof. intros E. unfold heads_in. by rewrite E. Qed.

Lemma rep_text fs lg c u : LogFiles fs lg -> In c auditCategories -> validUsername u = true ->
  log_text key (default [] (lg c !! u)) (from_option text_of "" (fs !! logPath baseDir c u)).
Proof.
  intros Hr Hc Hu. destruct (lg c !! u) as [ps|] eqn:E; cbn [default from_option id].
  - destruct (rep_log _ _ Hr c u ps Hc E) as (f & -> & Ht). done.
  - rewrite (rep_absent _ _ Hr c u Hc Hu E). apply log_text_nil.
Qed.
Lemma text_appended s t time : text_of (raw_file (bytes_of s ++ take (String.length t) (bytes_of t)) time) = s +:+ t.
Proof. rewrite text_raw, <- length_bytes_of, firstn_all, <- bytes_of_app. apply string_of_bytes_of. Qed.

(** A line was added to a log, and the record of the heads follows. *)
Lemma Rep_add fs fs1 fs2 lg c u p ps raw mac doc : LogFiles fs lg ->
  (forall c', In c' auditCategories -> c' <> c -> heads_in baseDir key c' fs = Ok (heads_of (lg c'))) ->
  In c auditCategories -> validUsername u = true ->
  written_payload p -> ps = default [] (lg c !! u) -> Z.of_nat (S (length ps)) < 2 ^ 64 ->
  line_Marshal (MkLine (nth_index (length ps)) auditKeyID (RawURL_Encode (last_mac key 1 "" ps)) p
                  (RawURL_Encode (sign key (nth_index (length ps)) (last_mac key 1 "" ps) p))) = Some raw ->
  appended (logPath baseDir c u) (raw +:+ String newline "") (String.length (raw +:+ String newline "")) fs fs1 ->
  signHeads key (MkHeadsPayload auditKeyID c (heads_of (add_payload c u p lg c))) = Ok mac ->
  document_Marshal (MkHeads auditKeyID c (Some (heads_of (add_payload c u p lg c))) (RawURL_Encode mac)) = Some doc ->
  replaced (headsPath baseDir c) (doc +:+ String newline "") fs1 fs2 ->
  Rep fs2 (add_payload c u p lg).
Proof.
  intros Hr Hothers Hc Hu Hp Hps Hn Hraw Happ Hmac Hdoc Hrep.
  assert (Hnew : add_payload c u p lg c = <[u := (ps ++ [p])%list]> (lg c))
    by (unfold add_payload; by rewrite String.eqb_refl, Hps).
  assert (Hold : forall c', c' <> c -> add_payload c u p lg c' = lg c').
  { intros c' Hne. unfold add_payload. by rewrite (proj2 (String.eqb_neq _ _) Hne). }
  assert (Hgood : forall c' u' ps', In c' auditCategories -> add_payload c u p lg c' !! u' = Some ps' -> good_log u' ps').
  { intros c' u' ps' Hc' E. destruct (decide (c' = c)) as [->|Hne].
    - rewrite Hnew in E. apply lookup_insert_Some in E as [[<- <-]|[_ E]]; [|by eapply rep_good].
      split_and!; [done|by destruct ps| |].
      + apply list.Forall_app. split; [|by constructor]. rewrite Hps. destruct (lg c !! u) as [qs|] eqn:E; [|done].
        by apply (rep_good _ _ Hr c u qs Hc E).
      + rewrite length_app. cbn [length]. lia.
    - rewrite Hold in E by done. by eapply rep_good. }
  destruct Happ as (t1 & ->). pose proof Hrep as (t2 & Hfs2).
  assert (Hlog : forall c' u', In c' auditCategories -> validUsername u' = true ->
    (c' <> c \/ u' <> u) -> fs2 !! logPath baseDir c' u' = fs !! logPath baseDir c' u').
  { intros c' u' Hc' Hu' Hne. rewrite Hfs2, lookup_insert_ne by by apply headsPath_log.
    rewrite lookup_insert_ne; [done|]. intros E. apply (logPath_inj baseDir Hbase) in E as [-> ->]; naive_solver. }
  split; [split|].
  - done.
  - intros c' u' ps' Hc' E. destruct (decide (c' = c /\ u' = u)) as [[-> ->]|Hne].
    + rewrite Hnew, lookup_insert_eq in E. injection E as <-. rewrite Hfs2.
      rewrite lookup_insert_ne by by apply headsPath_log. rewrite lookup_insert_eq. eexists. split; [done|].
      rewrite text_appended. apply log_text_snoc; [|done]. rewrite Hps. by apply rep_text.
    + assert (Hu' : validUsername u' = true) by by eapply Hgood.
      assert (E' : lg c' !! u' = Some ps').
      { destruct (decide (c' = c)) as [->|Hc'']; [|by rewrite Hold in E].
        rewrite Hnew in E. apply lookup_insert_Some in E as [[<- _]|[_ E]]; [naive_solver|done]. }
      rewrite Hlog; [by eapply rep_log|done|done|]. destruct (decide (c' = c)); [right|by left]. intros ->. naive_solver.
  - intros c' u' Hc' Hu' E. assert (Hne : c' <> c \/ u' <> u).
    { destruct (decide (c' = c)) as [->|]; [right|by left]. intros ->. by rewrite Hnew, lookup_insert_eq in E. }
    rewrite Hlog by done. apply (rep_absent _ _ Hr); [done..|]. destruct (decide (c' = c)) as [->|Hc''].
    + rewrite Hnew in E. by apply lookup_insert_None in E as [E _].
    + by rewrite Hold in E.
  - intros c' path Hc' Hin Hdir Hislog. rewrite Hfs2 in Hin. apply lookup_insert_is_Some in Hin as [<-|[_ Hin]].
    { exfalso. unfold headsPath in Hislog. rewrite (Base_log baseDir Hbase) in Hislog by apply sig_plain. by vm_compute in Hislog. }
    apply lookup_insert_is_Some in Hin as [<-|[_ Hin]].
    + destruct (log_name_plain u Hu) as [Hl Hd]. unfold logPath in Hdir. rewrite (Dir_log baseDir Hbase) in Hdir by done.
      apply (category_dir_inj baseDir Hbase) in Hdir as <-; [|done|done]. exists u. rewrite Hnew, lookup_insert_eq. eauto.
    + destruct (rep_only _ _ Hr c' path Hc' Hin Hdir Hislog) as (u' & Hu' & ->). exists u'. split; [|done].
      destruct (decide (c' = c)) as [->|Hne]; [|by rewrite Hold]. rewrite Hnew. apply lookup_insert_is_Some.
      destruct (decide (u = u')); [by left|by right].
  - intros c' Hc'. destruct (decide (c' = c)) as [->|Hne].
    + eapply heads_written; [done| |done..]. apply heads_of_ok. intros u' ps' E. by eapply Hgood.
    + rewrite Hold, <- (Hothers c' Hc' Hne) by done. apply heads_in_other.
      rewrite Hfs2, !lookup_insert_ne; [done| |].
      * intros E. symmetry in E. by apply (headsPath_log baseDir Hbase) in E.
      * intros E. by apply (headsPath_inj baseDir Hbase) in E as ->.
Qed.

(** [append_payload] adds the payload, or reports an error. *)
Lemma append_payload_outcome lg c u p w heads : LogFiles (files w) lg ->
  (forall c', In c' auditCategories -> c' <> c -> heads_in baseDir key c' (files w) = Ok (heads_of (lg c'))) ->
  heads_in baseDir key c (files w) = Ok heads -> delete u heads = delete u (heads_of (lg c)) ->
  In c auditCategories -> validUsername u = true -> written_payload p -> Z.of_nat (S (length (default [] (lg c !! u)))) < 2 ^ 64 ->
  (append_payload baseDir key c u p w).1 = None ->
  Rep (files (append_payload baseDir key c u p w).2) (add_payload c u p lg).
Proof.
  intros Hr Hothers Hheads Hdel Hc Hu Hp Hn. unfold append_payload. rewrite !mbind_eq.
  pose proof (quiet_verify key (logPath baseDir c u) w) as Hq.
  destruct (verifyFileLocked key (logPath baseDir c u) w) as [[h|e] w1] eqn:Ev; cbn [fst snd] in *; [|done].
  apply (f_equal fst) in Ev. apply verify_Ok in Ev. rewrite (rep_head _ _ c u Hr Hc Hu) in Ev. injection Ev as <-.
  rewrite mbind_eq. pose proof (quiet_heads baseDir key c w1) as Hq'. rewrite Hq in Hq'.
  destruct (readHeadsLocked baseDir key c w1) as [[heads'|e] w2] eqn:Eh; cbn [fst snd] in *; [|done].
  apply (f_equal fst) in Eh. apply heads_Ok in Eh. rewrite Hq, Hheads in Eh. injection Eh as <-.
  destruct (match heads !! u with Some _ => _ | None => _ end); [done|].
  set (ps := default [] (lg c !! u)) in *.
  assert (Hidx : u64 (ch_Index (head_of key ps) + 1) = nth_index (length ps)).
  { unfold head_of, nth_index, index_after. cbn [ch_Index]. rewrite u64_u64_add.
    destruct (length ps); [done|]. f_equal. lia. }
  assert (Hprev : decodeAuditMAC (ch_HMAC (head_of key ps)) = last_mac key 1 "" ps) by apply decode_encoded.
  rewrite !Hidx, !Hprev.
  destruct (line_Marshal _) as [raw|] eqn:Hraw; [|done]. rewrite or_fail_eq.
  pose proof (append_text_outcome (logPath baseDir c u) (raw +:+ String newline "") w2) as Ha. cbn zeta in Ha.
  destruct (append_text _ _ w2) as [[e|] w3]; cbn [fst snd] in *; [done|]. rewrite Hq' in Ha.
  pose proof (writeHeadsLocked_outcome baseDir key c (<[u := MkHead (nth_index (length ps))
    (RawURL_Encode (sign key (nth_index (length ps)) (last_mac key 1 "" ps) p))]> heads) w3) as Hw.
  cbn zeta in Hw. cbn [al_HMAC] in *. destruct (writeHeadsLocked _ _ _ _ w3) as [[e|] w4]; cbn [fst snd] in *; [done|].
  destruct Hw as (mac & doc & Hmac & Hdoc & Hrep). intros _.
  assert (Eheads : <[u := MkHead (nth_index (length ps))
    (RawURL_Encode (sign key (nth_index (length ps)) (last_mac key 1 "" ps) p))]> heads =
    heads_of (add_payload c u p lg c)).
  { unfold add_payload. rewrite String.eqb_refl. unfold heads_of. rewrite fmap_insert. fold (heads_of (lg c)).
    rewrite <- (insert_delete_eq heads), Hdel, insert_delete_eq. f_equal. fold ps. unfold head_of. rewrite last_mac_end, length_app. f_equal.
    unfold nth_index, index_after. cbn [length]. destruct (length ps); [done|]. f_equal. lia. }
  rewrite Eheads in *. by eapply Rep_add.
Qed.
Lemma append_payload_ok lg c u p w : Rep (files w) lg -> In c auditCategories -> validUsername u = true ->
  written_payload p -> Z.of_nat (S (length (default [] (lg c !! u)))) < 2 ^ 64 ->
  (append_payload baseDir key c u p w).1 = None ->
  Rep (files (append_payload baseDir key c u p w).2) (add_payload c u p lg).
Proof.
  intros [Hf Hh] Hc. intros. eapply append_payload_outcome; [done| |by apply Hh|done..]. intros c' Hc' _. by apply Hh.
Qed.

Lemma audit_username_valid event : validUsername (audit_username event) = true.
Proof. unfold audit_username. by destruct (validUsername (TrimSpace _)) eqn:E. Qed.
Lemma supported_category c : mem c auditCategories = true -> In c auditCategories.
Proof. by rewrite mem_spec. Qed.

(** ** Verification *)

(** What a category's verification looked at. *)
Definition entry_ok (c : string) (fs : gmap string File) (heads : gmap string auditChainHead) (name : string) : Prop :=
  is_log name = true -> exists h recorded,
    head_in key (JoinPath [baseDir; c; name]) fs = Ok h /\ heads !! log_user name = Some recorded /\ same_head recorded h = true.

Lemma verify_entries_sound c heads names seen w seen' : (verify_entries baseDir key c heads names seen w).1 = Ok seen' ->
  Forall (entry_ok c (files w) heads) names /\
  (forall u, In u seen' -> In u seen \/ exists name, In name names /\ is_log name = true /\ log_user name = u).
Proof.
  revert seen w. induction names as [|name names IH]; intros seen w E.
  - cbn in E. injection E as <-. split; [done|]. by left.
  - cbn [verify_entries] in E. destruct (negb (is_log name)) eqn:Hl.
    { apply IH in E as [Hn Hs]. split.
      - constructor; [|done]. intros Hl'. by rewrite Hl' in Hl.
      - intros u Hu. destruct (Hs u Hu) as [|(n & ? & ?)]; [by left|right]. exists n. split; [by right|done]. }
    apply negb_false_iff in Hl. rewrite mbind_eq in E.
    pose proof (quiet_verify key (JoinPath [baseDir; c; name]) w) as Hq.
    destruct (verifyFileLocked key (JoinPath [baseDir; c; name]) w) as [[h|e] w1] eqn:Ev; cbn [fst snd] in *; [|done].
    apply (f_equal fst), verify_Ok in Ev. destruct (heads !! log_user name) as [r|] eqn:Hr; [|done].
    destruct (same_head r h) eqn:Hs; [|done]. apply IH in E as [Hn Hseen]. rewrite Hq in Hn. split.
    + constructor; [|done]. intros _. by exists h, r.
    + intros u Hu. destruct (Hseen u Hu) as [[<-|]|(n & ? & ?)]; [right|by left|right].
      * exists name. split; [by left|done].
      * exists n. split; [by right|done].
Qed.

Definition log_names (c : string) (fs : gmap string File) : list string :=
  map fst (ReadDir (JoinPath [baseDir; c]) fs).
Lemma VerifyCategory_sound c w : (VerifyCategory baseDir key c w).1 = None ->
  exists heads, heads_in baseDir key c (files w) = Ok heads /\
    Forall (entry_ok c (files w) heads) (log_names c (files w)) /\
    map_Forall (fun u h => ch_Index h = 0 \/
      exists name, In name (log_names c (files w)) /\ is_log name = true /\ log_user name = u) heads.
Proof.
  unfold VerifyCategory. rewrite mbind_eq. pose proof (quiet_heads baseDir key c w) as Hq.
  destruct (readHeadsLocked baseDir key c w) as [[heads|e] w1] eqn:Eh; cbn [fst snd] in *; [|done].
  apply (f_equal fst), heads_Ok in Eh. rewrite mbind_eq, attempt_eq. cbn [fst snd].
  destruct (fault (attempts w1)); [done|]. rewrite !mbind_eq. cbn [gets fst snd files].
  rewrite Hq. fold (log_names c (files w)). set (w2 := MkWorld _ _ _ _ _).
  destruct (verify_entries _ _ _ _ _ _ w2) as [[seen|e] w3] eqn:Ev; cbn [fst snd]; [|done].
  apply (f_equal fst), verify_entries_sound in Ev as [Hn Hs]. intros Hall. exists heads. split; [done|]. split; [done|].
  intros u h Hu. cbn in Hall. destruct (find _ (map_to_list heads)) as [[]|] eqn:Hf; [done|].
  assert (Hin : In (u, h) (map_to_list heads)) by by apply list_elem_of_In, elem_of_map_to_list.
  eapply find_none in Hf; [|exact Hin]. apply negb_false_iff in Hf as Hin'. apply orb_true_iff in Hin' as [Hz|Hm]; [left; by apply Z.eqb_eq|right].
  apply mem_spec in Hm. by destruct (Hs u Hm) as [[]|].
Qed.
Lemma quiet_VerifyCategory c : quiet (VerifyCategory baseDir key c).
Proof.
  apply quiet_keeps. intros fs. unfold VerifyCategory.
  apply preserves_bind; [intros w Hw; by rewrite (quiet_heads baseDir key c w)|]. intros [heads|]; [|apply preserves_ret].
  apply preserves_bind; [by intros w Hw|]. intros [|]; [apply preserves_ret|].
  apply preserves_bind; [apply preserves_gets|]. intros names. apply preserves_bind; [|intros [|]; apply preserves_ret].
  generalize (@nil string) as seen. induction names as [|name names IH]; intros seen; [apply preserves_ret|]. cbn [verify_entries].
  destruct (negb (is_log name)); [done|]. apply preserves_bind; [intros w Hw; by rewrite (quiet_verify key _ w)|].
  intros [h|]; [|apply preserves_ret]. destruct (heads !! log_user name) as [r|]; [|apply preserves_ret].
  destruct (same_head r h); [done|apply preserves_ret].
Qed.
Lemma VerifyAll_sound w : (VerifyAll baseDir key w).1 = None ->
  forall c, In c auditCategories -> exists w', files w' = files w /\ (VerifyCategory baseDir key c w').1 = None.
Proof.
  unfold VerifyAll. generalize auditCategories as cs. intros cs. revert w.
  induction cs as [|c cs IH]; intros w; [done|]. cbn [foldr]. rewrite or_fail_eq.
  destruct (VerifyCategory baseDir key c w).1 eqn:E; [done|]. intros Hk c' [<-|Hc']; [by exists w|].
  destruct (IH _ Hk c' Hc') as (w' & Hw' & HV). exists w'. by rewrite Hw', (quiet_VerifyCategory c w).
Qed.

(** The lines of a file. *)
Definition file_payloads (f : File) : list string := payloads (Split newline (text_of f)).
(** A file of a size that there is, whose messages share no HMAC with those of a chain. *)
Definition collision_free (f : File) (ps : list string) : Prop :=
  Z.of_nat (length (file_payloads f)) < 2 ^ 64 /\
  forall m m', In m (messages key 1 "" (file_payloads f)) -> In m' (messages key 1 "" ps) ->
    hmac_sha256 key m = hmac_sha256 key m' -> m = m'.

Lemma head_file path fs ps h : good_log "u" ps \/ ps <> [] -> Z.of_nat (length ps) < 2 ^ 64 ->
  (forall f, fs !! path = Some f -> collision_free f ps) ->
  head_in key path fs = Ok h -> same_head (head_of key ps) h = true ->
  exists f, fs !! path = Some f /\ file_payloads f = ps.
Proof.
  intros Hne Hn Hc Hh Hs. assert (Hps : ps <> []) by (destruct Hne as [(_ & ? & _)|?]; done).
  unfold head_in in Hh. destruct (fs !! path) as [f|] eqn:Hf.
  - exists f. split; [done|]. destruct (Hc f eq_refl) as [Hl Hm]. by eapply head_determines.
  - injection Hh as <-. unfold same_head, head_of in Hs. cbn [ch_Index ch_HMAC] in Hs.
    rewrite u64_small in Hs by lia. destruct ps; [done|].
    apply andb_true_iff in Hs as [Hi _]. apply Z.eqb_eq in Hi. cbn [length] in Hi. lia.
Qed.

(** C22: verification detects tampering.  Whatever was done to the files, when the
    signed heads are those of some contents and verification succeeds, then every
    account of these contents has its log, every log file holds exactly the
    payloads that were recorded for its account, and no log was added; this fails
    only when two of the signed messages have one HMAC. *)
Theorem tampering_detected (lg : contents) w :
  (forall c, In c auditCategories -> heads_in baseDir key c (files w) = Ok (heads_of (lg c))) ->
  (forall c u ps, In c auditCategories -> lg c !! u = Some ps -> ps <> [] /\ Z.of_nat (length ps) < 2 ^ 64) ->
  (forall c u ps path f, In c auditCategories -> lg c !! u = Some ps -> files w !! path = Some f -> collision_free f ps) ->
  (VerifyAll baseDir key w).1 = None ->
  forall c, In c auditCategories ->
    (forall u ps, lg c !! u = Some ps -> exists name, In name (log_names c (files w)) /\ is_log name = true /\ log_user name = u) /\
    (forall name, In name (log_names c (files w)) -> is_log name = true -> exists ps f,
       lg c !! log_user name = Some ps /\ files w !! JoinPath [baseDir; c; name] = Some f /\ file_payloads f = ps).
Proof.
  intros Hheads Hgood Hcoll HV c Hc. destruct (VerifyAll_sound w HV c Hc) as (w' & Hw' & HVc).
  apply VerifyCategory_sound in HVc as (heads & Eh & Hentries & Hseen). rewrite Hw' in *.
  rewrite (Hheads c Hc) in Eh. injection Eh as <-. split.
  - intros u ps Hu. destruct (Hgood c u ps Hc Hu) as [Hne Hn].
    destruct (Hseen u (head_of key ps)) as [Hz|Hs]; [by apply lookup_fmap_Some; exists ps| |done].
    unfold head_of in Hz. cbn in Hz. rewrite u64_small in Hz by lia. destruct ps; [done|]. cbn in Hz. lia.
  - intros name Hname Hl. rewrite List.Forall_forall in Hentries.
    destruct (Hentries name Hname Hl) as (h & r & Hh & Hr & Hs).
    apply lookup_fmap_Some in Hr as (ps & <- & Hu). destruct (Hgood c _ ps Hc Hu) as [Hne Hn]. exists ps.
    destruct (head_file (JoinPath [baseDir; c; name]) (files w) ps h) as (f & Hf & Hp); [by right|done| |done|done|by exists f].
    intros f Hf. by eapply Hcoll.
Qed.

(** An event whose record was reported as written is the last payload of its
    account's log, nothing else changed, and the record of the heads agrees. *)
Theorem Append_records category event w (lg : contents) :
  Rep (files w) lg ->
  Z.of_nat (S (length (default [] (lg (ToLower (TrimSpace category)) !! audit_username event)))) < 2 ^ 64 ->
  (Append baseDir key category event w).1 = None ->
  exists t p, event_Marshal (audit_event event t) = Some p /\
    (IsZero (ev_Timestamp event) = false -> t = ev_Timestamp event) /\
    Rep (files (Append baseDir key category event w).2)
      (add_payload (ToLower (TrimSpace category)) (audit_username event) p lg).
Proof.
  intros Hr Hn. unfold Append. destruct (negb (mem _ auditCategories)) eqn:Hc; [done|].
  apply negb_false_iff, supported_category in Hc. destruct (ToUpper _ =? ""); [done|].
  rewrite mbind_eq. set (m := if IsZero (ev_Timestamp event) then now else ret (ev_Timestamp event)).
  assert (Hm : files (m w).2 = files w /\ (IsZero (ev_Timestamp event) = false -> (m w).1 = ev_Timestamp event))
    by (unfold m; by destruct (IsZero (ev_Timestamp event))).
  destruct Hm as [Hq Ht]. destruct (event_Marshal (audit_event event (m w).1)) as [p|] eqn:Ep; [|done].
  intros Happ. exists (m w).1, p. split; [done|]. split; [done|]. rewrite <- Hq in Hr.
  apply append_payload_ok; [done|done|apply audit_username_valid|by eexists|done|done].
Qed.

Lemma listed c path fs : In c auditCategories -> is_Some (fs !! path) -> Dir path = JoinPath [baseDir; c] ->
  In (Base path) (log_names c fs).
Proof.
  intros Hc [f Hf] Hd. unfold log_names. apply in_map_iff. exists (Base path, f). split; [done|].
  apply list_elem_of_In. unfold ReadDir. rewrite merge_sort_Permutation. apply list_elem_of_omap.
  exists (path, f). split; [by apply elem_of_map_to_list|]. by rewrite Hd, String.eqb_refl.
Qed.

(** *** Nothing is refused without reason *)

Section no_faults.
Context (Hfault : forall n, fault n = None).

Lemma verify_no_fault path w : (verifyFileLocked key path w).1 = head_in key path (files w).
Proof.
  unfold verifyFileLocked, head_in. rewrite mbind_eq, attempt_eq. cbn [fst snd]. rewrite Hfault, mbind_eq.
  cbn [gets fst snd files]. destruct (files w !! path) as [f|]; [|done]. rewrite mbind_eq, attempt_eq. cbn [fst snd].
  rewrite Hfault. by destruct (verify_lines _ _ _ _ _).
Qed.
Lemma verify_entries_complete c heads names seen w : Forall (entry_ok c (files w) heads) names ->
  exists seen', (verify_entries baseDir key c heads names seen w).1 = Ok seen' /\
    (forall u, In u seen -> In u seen') /\ (forall name, In name names -> is_log name = true -> In (log_user name) seen').
Proof.
  revert seen w. induction names as [|name names IH]; intros seen w He; [by exists seen|].
  apply Forall_cons_iff in He as [Hfirst He]. cbn [verify_entries]. destruct (is_log name) eqn:Hl; cbn [negb].
  - destruct (Hfirst Hl) as (h & r & Hh & Hr & Hs). rewrite mbind_eq, verify_no_fault, Hh, Hr, Hs.
    destruct (IH (log_user name :: seen) (verifyFileLocked key (JoinPath [baseDir; c; name]) w).2) as (seen' & E & Hin1 & Hin2).
    { by rewrite quiet_verify. }
    exists seen'. split; [done|]. split; [intros u Hu; apply Hin1; by right|].
    intros name' [<-|Hin] Hl'; [apply Hin1; by left|by apply Hin2].
  - destruct (IH seen w He) as (seen' & E & Hin1 & Hin2). exists seen'. split; [done|]. split; [done|].
    intros name' [<-|Hin] Hl'; [congruence|by apply Hin2].
Qed.

(** Files that hold some contents as [Append] leaves them are accepted: when
    nothing fails, verification reports no error. *)
Theorem VerifyAll_accepts lg w : Rep (files w) lg -> (VerifyAll baseDir key w).1 = None.
Proof.
  intros Hr. assert (HV : forall c w', In c auditCategories -> files w' = files w -> (VerifyCategory baseDir key c w').1 = None).
  { intros c w' Hc Hw'. unfold VerifyCategory, readHeadsLocked. rewrite !mbind_eq, attempt_eq. cbn [fst snd].
    rewrite Hfault. cbn [gets fst snd files]. rewrite Hw', (rep_heads _ _ Hr c Hc), mbind_eq, attempt_eq. cbn [fst snd].
    rewrite Hfault, !mbind_eq. cbn [gets fst snd files]. fold (log_names c (files w)).
    match goal with |- context [verify_entries _ _ _ _ _ _ ?x] => set (w1 := x) end.
    destruct (verify_entries_complete c (heads_of (lg c)) (log_names c (files w)) [] w1) as (seen & E & _ & Hs).
    - assert (files w1 = files w) as -> by (unfold w1; done). apply List.Forall_forall. intros name Hn Hl.
      unfold log_names in Hn. apply in_map_iff in Hn as ((name' & f) & <- & Hin). apply ReadDir_in in Hin as (path & Hf & Hd & Hb).
      cbn [fst] in *. subst name'.
      destruct (rep_only _ _ (rep_files _ _ Hr) c path Hc) as (u & [ps Hu] & ->); [by eexists|done|done|].
      destruct (rep_good _ _ (rep_files _ _ Hr) c u ps Hc Hu) as (Hval & _). destruct (log_name_plain u Hval) as [Hp Hp'].
      unfold logPath. rewrite (Base_log baseDir Hbase) by done. fold (logPath baseDir c u).
      exists (head_of key ps), (head_of key ps). rewrite log_user_name by done.
      rewrite (rep_head _ _ c u (rep_files _ _ Hr) Hc Hval), Hu. split; [done|]. split.
      + unfold heads_of. by rewrite lookup_fmap, Hu.
      + unfold same_head. by rewrite Z.eqb_refl, String.eqb_refl.
    - rewrite E. cbn [fst snd ret]. destruct (find _ (map_to_list _)) as [[u h]|] eqn:Hf; [exfalso|done].
      apply find_some in Hf as [Hin Hf]. apply negb_true_iff, not_true_iff_false in Hf. apply Hf. clear Hf.
      apply list_elem_of_In, elem_of_map_to_list in Hin. unfold heads_of in Hin. apply lookup_fmap_Some in Hin as (ps & <- & Hu).
      apply orb_true_iff. right. apply mem_spec.
      destruct (rep_good _ _ (rep_files _ _ Hr) c u ps Hc Hu) as (Hval & _). destruct (log_name_plain u Hval) as [Hp Hp'].
      rewrite <- (log_user_name u Hval). apply Hs; [|by apply is_log_name].
      rewrite <- (Base_log baseDir Hbase c (u +:+ ".log")) by done. apply listed; [done| |by apply (Dir_log baseDir Hbase)].
      destruct (rep_log _ _ (rep_files _ _ Hr) c u ps Hc Hu) as (f & Hf & _). by eexists. }
  unfold VerifyAll. revert HV. generalize (eq_refl (files w)). generalize w at 1 4 as w0.
  assert (Hsub : forall c, In c auditCategories -> In c auditCategories) by done. revert Hsub.
  generalize auditCategories at 1 4 as cs. induction cs as [|c cs IH]; intros Hsub w0 Hw0 HV; [done|].
  cbn [foldr]. rewrite or_fail_eq, HV by (try apply Hsub; by left || done).
  apply IH; [intros c' Hc'; apply Hsub; by right|by rewrite quiet_VerifyCategory|done].
Qed.
End no_faults.

(** ** What the code does not do *)

Lemma longer_head ps p : Z.of_nat (S (length ps)) < 2 ^ 64 -> same_head (head_of key ps) (head_of key (ps ++ [p])%list) = false.
Proof.
  intros Hn. unfold same_head, head_of. cbn [ch_Index]. rewrite length_app. cbn [length].
  rewrite !u64_small by lia. apply andb_false_iff. left. apply Z.eqb_neq. lia.
Qed.

(** A log that is ahead of its record. *)
Lemma mismatch_refused c u fs heads recorded h : In c auditCategories -> validUsername u = true ->
  heads_in baseDir key c fs = Ok heads -> heads !! u = Some recorded ->
  head_in key (logPath baseDir c u) fs = Ok h -> is_Some (fs !! logPath baseDir c u) -> same_head recorded h = false ->
  forall w p, files w = fs ->
    (append_payload baseDir key c u p w).1 <> None /\ files (append_payload baseDir key c u p w).2 = fs /\
    (VerifyAll baseDir key w).1 <> None.
Proof.
  intros Hc Hu Hheads Hr Hh Hin Hs w p Hw. subst fs. split; [|split].
  - unfold append_payload. rewrite mbind_eq. pose proof (quiet_verify key (logPath baseDir c u) w) as Hq.
    destruct (verifyFileLocked _ _ w) as [[h'|e] w1] eqn:Ev; cbn [fst snd] in *; [|done].
    apply (f_equal fst), verify_Ok in Ev. rewrite Hh in Ev. injection Ev as <-. rewrite mbind_eq.
    destruct (readHeadsLocked _ _ c w1) as [[heads'|e] w2] eqn:Eh; cbn [fst snd] in *; [|done].
    apply (f_equal fst), heads_Ok in Eh. rewrite Hq, Hheads in Eh. injection Eh as <-. by rewrite Hr, Hs.
  - unfold append_payload. rewrite mbind_eq. pose proof (quiet_verify key (logPath baseDir c u) w) as Hq.
    destruct (verifyFileLocked _ _ w) as [[h'|e] w1] eqn:Ev; cbn [fst snd] in *; [|done].
    apply (f_equal fst), verify_Ok in Ev. rewrite Hh in Ev. injection Ev as <-. rewrite mbind_eq.
    pose proof (quiet_heads baseDir key c w1) as Hq'.
    destruct (readHeadsLocked _ _ c w1) as [[heads'|e] w2] eqn:Eh; cbn [fst snd] in *; [|cbn; congruence].
    apply (f_equal fst), heads_Ok in Eh. rewrite Hq, Hheads in Eh. injection Eh as <-. rewrite Hr, Hs. cbn. congruence.
  - intros HV. destruct (VerifyAll_sound w HV c Hc) as (w' & Hw' & HVc).
    apply VerifyCategory_sound in HVc as (heads' & Eh & He & _). rewrite Hw', Hheads in *. injection Eh as <-.
    destruct (log_name_plain u Hu) as [Hp Hd]. rewrite List.Forall_forall in He.
    destruct (He (u +:+ ".log")) as (h' & r' & Hh' & Hr' & Hs').
    + rewrite <- (Base_log baseDir Hbase c (u +:+ ".log")) by done. apply listed; [done|done|by apply (Dir_log baseDir Hbase)].
    + by apply is_log_name.
    + fold (logPath baseDir c u) in Hh'. rewrite Hh in Hh'. injection Hh' as <-. rewrite log_user_name in Hr' by done.
      rewrite Hr in Hr'. injection Hr' as <-. congruence.
Qed.


(** One log is cut down. *)
Definition cut_short (c u : string) (kept : list string) (lg : contents) : contents :=
  fun c' => if (c' =? c)%string then {[u := kept]} else lg c'.

(** What the code does not do.  An append compares the log with its recorded
    head only when there is one: when the record of a category is deleted and its
    log cut short while the service runs, the next event signs the shorter log,
    and every later verification accepts it. *)
Theorem truncation_accepted (lg : contents) c u kept lost p w :
  Rep (files w) lg -> In c auditCategories -> lg c = {[u := (kept ++ lost)%list]} -> kept <> [] ->
  written_payload p -> Z.of_nat (S (length kept)) < 2 ^ 64 ->
  forall f w', log_text key kept (text_of f) ->
    files w' = <[logPath baseDir c u := f]> (delete (headsPath baseDir c) (files w)) ->
    (append_payload baseDir key c u p w').1 = None ->
    let w'' := (append_payload baseDir key c u p w').2 in
    Rep (files w'') (add_payload c u p (cut_short c u kept lg)).
Proof.
  intros [Hf Hh] Hc Hlg Hk Hp Hn f w' Ht Hw' Happ. cbn zeta.
  destruct (rep_good _ _ Hf c u (kept ++ lost)%list Hc) as (Hu & _ & Hall & _); [by rewrite Hlg, lookup_singleton_eq|].
  set (lg' := cut_short c u kept lg).
  assert (Hlg' : lg' c = {[u := kept]}) by (unfold lg', cut_short; by rewrite String.eqb_refl).
  assert (Hold : forall c', c' <> c -> lg' c' = lg c').
  { intros c' Hne. unfold lg', cut_short. by rewrite (proj2 (String.eqb_neq _ _) Hne). }
  assert (Hlog : forall c' u', In c' auditCategories -> validUsername u' = true -> (c' <> c \/ u' <> u) ->
    files w' !! logPath baseDir c' u' = files w !! logPath baseDir c' u').
  { intros c' u' Hc' Hu' Hne. rewrite Hw', lookup_insert_ne.
    - rewrite lookup_delete_ne; [done|]. by apply headsPath_log.
    - intros E. apply (logPath_inj baseDir Hbase) in E as [-> ->]; naive_solver. }
  assert (HL : LogFiles (files w') lg').
  { split.
    - intros c' u' ps Hc' E. destruct (decide (c' = c)) as [->|Hne]; [|rewrite Hold in E by done; by eapply rep_good].
      rewrite Hlg' in E. apply lookup_singleton_Some in E as [<- <-]. apply list.Forall_app in Hall as [Hall _].
      split_and!; [done|done|done|lia].
    - intros c' u' ps Hc' E. destruct (decide (c' = c)) as [->|Hne].
      + rewrite Hlg' in E. apply lookup_singleton_Some in E as [<- <-]. rewrite Hw', lookup_insert_eq. by exists f.
      + rewrite Hold in E by done. rewrite Hlog; [by eapply rep_log|done| |by left]. by eapply rep_good.
    - intros c' u' Hc' Hu' E. assert (Hne : c' <> c \/ u' <> u).
      { destruct (decide (c' = c)) as [->|]; [right|by left]. intros ->. by rewrite Hlg', lookup_singleton_eq in E. }
      rewrite Hlog by done. apply (rep_absent _ _ Hf); [done..|]. destruct (decide (c' = c)) as [->|Hc''].
      + rewrite Hlg. apply lookup_singleton_ne. naive_solver.
      + by rewrite Hold in E.
    - intros c' path Hc' Hin Hdir Hislog. rewrite Hw' in Hin. apply lookup_insert_is_Some in Hin as [<-|[_ Hin]].
      + destruct (log_name_plain u Hu) as [Hl Hd]. unfold logPath in Hdir. rewrite (Dir_log baseDir Hbase) in Hdir by done.
        apply (category_dir_inj baseDir Hbase) in Hdir as <-; [|done|done]. exists u. rewrite Hlg', lookup_singleton_eq. eauto.
      + apply lookup_delete_is_Some in Hin as [_ Hin].
        destruct (rep_only _ _ Hf c' path Hc' Hin Hdir Hislog) as (u' & Hu' & ->). exists u'. split; [|done].
        destruct (decide (c' = c)) as [->|Hne]; [|by rewrite Hold]. rewrite Hlg in Hu'. rewrite Hlg'.
        destruct (decide (u' = u)) as [->|Hneu]; [by rewrite lookup_singleton_eq|].
        rewrite lookup_singleton_ne in Hu' by done. by destruct Hu'. }
  apply (append_payload_outcome lg' c u p w' ∅); [done| | | |done|done|done| |done].
  - intros c' Hc' Hne. rewrite Hold by done. rewrite <- (Hh c' Hc'). apply heads_in_other.
    rewrite Hw', lookup_insert_ne, lookup_delete_ne; [done| |].
    + intros E. by apply (headsPath_inj baseDir Hbase) in E as ->.
    + intros E. symmetry in E. by apply (headsPath_log baseDir Hbase) in E.
  - unfold heads_in. rewrite Hw', lookup_insert_ne, lookup_delete_eq; [done|].
    intros E. symmetry in E. by apply (headsPath_log baseDir Hbase) in E.
  - unfold heads_of. rewrite Hlg', map_fmap_singleton, delete_empty. by rewrite delete_singleton_eq.
  - by rewrite Hlg', lookup_singleton_eq.
Qed.
End log.

(** ** Witnesses *)

Definition demo_dir : string := "/srv/audit".
Definition demo_key : string := "0123456789abcdef0123456789abcdef".
Definition demo_world : World := MkWorld 0 0 ∅ [] None.
Definition demo_event (kind : string) : AuditEvent := MkEvent 5 kind "u1" "op" "s1" "10.0.0.1" "browser" "info" ∅.
Definition demo_payload (kind : string) : string := hex_Encode (kind +:+ "op").
Lemma demo_payload_written kind : written_payload (demo_payload kind).
Proof. by exists (demo_event kind). Qed.
Lemma demo_dir_given : demo_dir <> "".
Proof. done. Qed.

(** The log after one event, and after two. *)
Definition demo_one : World := (Append demo_dir demo_key "access" (demo_event "login") demo_world).2.
Definition demo_two : World := (Append demo_dir demo_key "access" (demo_event "logout") demo_one).2.
Definition demo_contents (ps : list string) : contents := fun c => if (c =? "access")%string then {["op" := ps]} else ∅.
Definition one_payload : list string := [demo_payload "LOGIN"].
Definition two_payloads : list string := [demo_payload "LOGIN"; demo_payload "LOGOUT"].

Lemma demo_append lg ps p w : Rep demo_dir demo_key (files w) lg -> written_payload p ->
  Z.of_nat (S (length (default [] (lg "access" !! "op")))) < 2 ^ 64 ->
  (forall c, add_payload "access" "op" p lg c = demo_contents ps c) ->
  (append_payload demo_dir demo_key "access" "op" p w).1 = None ->
  Rep demo_dir demo_key (files (append_payload demo_dir demo_key "access" "op" p w).2) (demo_contents ps).
Proof.
  intros Hr Hp Hn E Hok. apply (Rep_ext demo_dir demo_key _ (add_payload "access" "op" p lg)); [by intros c _|].
  apply append_payload_ok; try done. by left.
Qed.
Lemma demo_Rep_one : Rep demo_dir demo_key (files demo_one) (demo_contents one_payload).
Proof.
  apply (demo_append (fun _ => ∅) one_payload (demo_payload "LOGIN") demo_world); [apply Rep_empty|apply demo_payload_written|done| |by vm_compute].
  intros c. unfold add_payload, demo_contents. by destruct (c =? "access")%string.
Qed.
Lemma demo_Rep_two : Rep demo_dir demo_key (files demo_two) (demo_contents two_payloads).
Proof.
  apply (demo_append (demo_contents one_payload) two_payloads (demo_payload "LOGOUT") demo_one); [apply demo_Rep_one|apply demo_payload_written|done| |by vm_compute].
  intros c. unfold add_payload, demo_contents. destruct (c =? "access")%string eqn:Ec; [|done].
  cbn. by rewrite lookup_singleton_eq, insert_singleton_eq.
Qed.

Lemma Append_records_witness : exists t p, event_Marshal (audit_event (demo_event "login") t) = Some p /\
  (IsZero 5 = false -> t = 5) /\
  Rep demo_dir demo_key (files demo_one) (add_payload (ToLower (TrimSpace "access")) "op" p (fun _ => ∅)).
Proof.
  apply (Append_records demo_dir demo_key demo_dir_given "access" (demo_event "login") demo_world (fun _ => ∅));
    [apply Rep_empty|by vm_compute|by vm_compute].
Defined.

Lemma VerifyAll_accepts_witness : (VerifyAll demo_dir demo_key demo_two).1 = None.
Proof. apply (VerifyAll_accepts demo_dir demo_key demo_dir_given ltac:(done) (demo_contents two_payloads)), demo_Rep_two. Defined.

(** The file of one event. *)
Definition demo_path : string := logPath demo_dir "access" "op".
Definition demo_text (w : World) : string := from_option text_of "" (files w !! demo_path).
Lemma demo_one_files path f : files demo_one !! path = Some f -> file_payloads f = one_payload \/ file_payloads f = [""].
Proof.
  intros Hf. assert (Hall : forallb (fun '(_, f) => bool_decide (file_payloads f = one_payload) ||
      bool_decide (file_payloads f = [""])) (map_to_list (files demo_one)) = true).
  { clear Hf. by vm_compute. }
  rewrite forallb_forall in Hall. specialize (Hall (path, f)).
  rewrite <- list_elem_of_In, elem_of_map_to_list in Hall. apply Hall in Hf.
  by rewrite orb_true_iff, !bool_decide_eq_true in Hf.
Qed.
Lemma tampering_detected_witness : exists ps f,
  demo_contents one_payload "access" !! "op" = Some ps /\
  files demo_one !! JoinPath [demo_dir; "access"; "op.log"] = Some f /\ file_payloads f = ps.
Proof.
  destruct (tampering_detected demo_dir demo_key (demo_contents one_payload) demo_one) with (c := "access") as [_ Hall].
  - apply demo_Rep_one.
  - intros c u ps Hc E. unfold demo_contents in E. destruct (c =? "access")%string; [|by rewrite lookup_empty in E].
    apply lookup_singleton_Some in E as [_ <-]. done.
  - intros c u ps path f Hc E Hf. apply demo_one_files in Hf.
    unfold demo_contents in E. destruct (c =? "access")%string; [|by rewrite lookup_empty in E].
    apply lookup_singleton_Some in E as [_ <-]. unfold collision_free.
    destruct Hf as [-> | ->]; (split; [done|]); intros m m' [<-|[]] [<-|[]]; [done|].
    intros E. exfalso. by vm_compute in E.
  - by vm_compute.
  - by left.
  - replace "op" with (log_user "op.log") by (by vm_compute). apply Hall; [|by vm_compute].
    replace (log_names demo_dir "access" (files demo_one)) with ["integrity.sig"; "op.log"] by (by vm_compute).
    by right; left.
Defined.

(** The service stopped after the line of the second event. *)
Definition demo_mac (ps : list string) : string := last_mac demo_key 1 "" ps.
Definition demo_line : string :=
  from_option id "" (line_Marshal (MkLine 2 auditKeyID (RawURL_Encode (demo_mac one_payload)) (demo_payload "LOGOUT")
    (RawURL_Encode (demo_mac two_payloads)))).
Definition demo_stopped : World :=
  MkWorld 0 0 (<[demo_path := raw_file (bytes_of (demo_text demo_one +:+ demo_line +:+ String newline "")) 0]> (files demo_one)) [] None.

(** The record was deleted after two events, and the log cut to one. *)
Definition demo_cut : World :=
  MkWorld 0 0 (<[demo_path := raw_file (bytes_of (demo_text demo_one)) 0]> (delete (headsPath demo_dir "access") (files demo_two))) [] None.
Lemma truncation_accepted_witness :
  Rep demo_dir demo_key (files (append_payload demo_dir demo_key "access" "op" (demo_payload "LOGOUT") demo_cut).2)
    (add_payload "access" "op" (demo_payload "LOGOUT") (cut_short "access" "op" one_payload (demo_contents two_payloads))).
Proof.
  apply (truncation_accepted demo_dir demo_key demo_dir_given (demo_contents two_payloads) "access" "op" one_payload
    [demo_payload "LOGOUT"] (demo_payload "LOGOUT") demo_two) with (f := raw_file (bytes_of (demo_text demo_one)) 0).
  - apply demo_Rep_two.
  - by left.
  - done.
  - done.
  - apply demo_payload_written.
  - done.
  - rewrite text_raw, string_of_bytes_of. eexists. split; [by vm_compute|by vm_compute].
  - done.
  - by vm_compute.
Defined.
