(* ===== verification/AuditRename.v ===== *)
(** Renaming an account in the audit log ([RenameAccount] of
    [internal/webgateway/audit_log.go]): its logs and heads are moved in every
    category, with a roll-back when a step fails. *)

From stdpp Require Import stringmap.
From S2P Require Import Prelude UnicodeTables GoStrings SampleCodec GoTime GoValue GoPath GoCrypto AlertPacket.
From S2P Require Import PlaylistModel World AlertRequest AudioRetention PlannerState AlertCommit Wav AudioFiles.
From S2P Require Import AuditLog AuditLogSafety.

#[local] Open Scope Z_scope.
#[local] Open Scope string_scope.
#[local] Open Scope haze_scope.

Section rename.
Context `{Env} `{Tools} `{AuditCodecOk} (baseDir key : string) (Hbase : baseDir <> "").
Context (old new : string) (Hold : validUsername old = true) (Hnew' : validUsername new = true).

(** The logs of one category after the renaming, and those of all. *)
Definition renamed (m : gmap string (list string)) : gmap string (list string) :=
  match m !! old with Some ps => <[new := ps]> (delete old m) | None => m end.
Definition rename_in (cs : list string) (lg : contents) : contents :=
  fun c => if mem c cs then renamed (lg c) else lg c.

(** *** The plans *)

Definition plan_ok (lg : contents) (c : string) (plan : renamePlan) : Prop :=
  plan = MkPlan c (logPath baseDir c old) (logPath baseDir c new) (heads_of key (lg c)) (heads_of key (renamed (lg c)))
           (bool_decide (is_Some (lg c !! old))) false false /\
  lg c !! new = None.

Lemma stat_there_eq path b w : (stat_there path w).1 = Ok b -> b = bool_decide (is_Some (files w !! path)).
Proof.
  unfold stat_there. rewrite mbind_eq, attempt_eq. cbn [fst snd]. destruct (fault _); [done|].
  rewrite mbind_eq. cbn. intros [= <-]. destruct (files w !! path); [by rewrite bool_decide_true by by eexists|].
  rewrite bool_decide_false; [done|]. by intros [? ?].
Qed.

Lemma plan_rename_ok lg c plan w : Rep baseDir key (files w) lg -> In c auditCategories ->
  (plan_rename baseDir key old new c w).1 = Ok plan -> plan_ok lg c plan.
Proof.
  intros [Hf Hh] Hc. unfold plan_rename. rewrite mbind_eq.
  pose proof (quiet_stat (logPath baseDir c old) w) as Q1.
  destruct (stat_there _ w) as [[oldExists|e] w1] eqn:E1; cbn [fst snd] in *; [|done].
  apply (f_equal fst), stat_there_eq in E1. rewrite mbind_eq.
  pose proof (quiet_stat (logPath baseDir c new) w1) as Q2.
  destruct (stat_there _ w1) as [[[]|e] w2] eqn:E2; cbn [fst snd] in *; [done| |done].
  apply (f_equal fst), stat_there_eq in E2. rewrite mbind_eq.
  pose proof (quiet_heads baseDir key c w2) as Q3.
  destruct (readHeadsLocked baseDir key c w2) as [[heads|e] w3] eqn:E3; cbn [fst snd] in *; [|done].
  apply (f_equal fst), heads_Ok in E3. rewrite Q2, Q1, (Hh c Hc) in E3. injection E3 as <-.
  destruct (bool_decide (is_Some (heads_of key (lg c) !! new))) eqn:En; [done|].
  apply bool_decide_eq_false in En.
  assert (Hno : lg c !! new = None).
  { destruct (lg c !! new) eqn:El; [|done]. exfalso. apply En. unfold heads_of. by rewrite lookup_fmap, El. }
  destruct (negb (Bool.eqb oldExists _)) eqn:Eb; [done|]. apply negb_false_iff, eqb_prop in Eb.
  assert (Ho : bool_decide (is_Some (heads_of key (lg c) !! old)) = bool_decide (is_Some (lg c !! old))).
  { apply bool_decide_ext. unfold heads_of. by rewrite lookup_fmap, fmap_is_Some. }
  assert (Hu : match heads_of key (lg c) !! old with
               | Some head => <[new := head]> (delete old (heads_of key (lg c)))
               | None => heads_of key (lg c)
               end = heads_of key (renamed (lg c))).
  { unfold renamed, heads_of. rewrite lookup_fmap. destruct (lg c !! old); cbn; [|done].
    by rewrite fmap_insert, fmap_delete. }
  rewrite Hu, Eb, Ho. intros Hplan. split; [|done].
  destruct (negb _); [by injection Hplan as <-|]. rewrite mbind_eq in Hplan.
  destruct (verifyFileLocked _ _ w3) as [[v|e] w4]; cbn [fst snd] in *; [|done].
  destruct (from_option _ _ _); [|done]. by injection Hplan as <-.
Qed.

Lemma quiet_plan c : quiet (plan_rename baseDir key old new c).
Proof.
  apply quiet_keeps. intros fs. unfold plan_rename.
  apply preserves_bind; [intros w Hw; by rewrite quiet_stat|]. intros [a|]; [|apply preserves_ret].
  apply preserves_bind; [intros w Hw; by rewrite quiet_stat|]. intros [[]|]; [apply preserves_ret| |apply preserves_ret].
  apply preserves_bind; [intros w Hw; by rewrite quiet_heads|]. intros [heads|]; [|apply preserves_ret].
  destruct (bool_decide _); [apply preserves_ret|]. destruct (negb _); [apply preserves_ret|].
  destruct (negb a); [apply preserves_ret|].
  apply preserves_bind; [intros w Hw; by rewrite quiet_verify|]. intros [v|]; [|apply preserves_ret].
  destruct (from_option _ _ _); apply preserves_ret.
Qed.

Lemma plan_all_ok lg cs plans w : Rep baseDir key (files w) lg -> (forall c, In c cs -> In c auditCategories) ->
  (plan_all baseDir key old new cs w).1 = Ok plans ->
  Forall2 (plan_ok lg) cs plans /\ files (plan_all baseDir key old new cs w).2 = files w.
Proof.
  revert plans w. induction cs as [|c cs IH]; intros plans w Hr Hcs; cbn [plan_all].
  - intros [= <-]. split; [constructor|done].
  - rewrite mbind_eq. destruct (plan_rename _ _ _ _ c w) as [[plan|e] w1] eqn:Ep; cbn [fst snd]; [|done].
    pose proof (quiet_plan c w) as Hq. rewrite Ep in Hq. cbn [snd] in Hq.
    apply (f_equal fst) in Ep. apply (plan_rename_ok lg) in Ep; [|done|by apply Hcs; left]. rewrite mbind_eq.
    destruct (plan_all _ _ _ _ cs w1) as [[ps|e] w2] eqn:Er; cbn [fst snd ret rmap rbind]; [|done]. intros [= <-].
    destruct (IH ps w1) as [Hps Hf]; [by rewrite Hq|intros; apply Hcs; by right|by rewrite Er|].
    rewrite Er in Hf. cbn [snd] in Hf. split; [by constructor|congruence].
Qed.

(** *** One category *)

Definition rename_one (c : string) (lg : contents) : contents :=
  fun c' => if (c' =? c)%string then renamed (lg c) else lg c'.
Lemma rename_one_same c lg : rename_one c lg c = renamed (lg c).
Proof. unfold rename_one. by rewrite String.eqb_refl. Qed.
Lemma rename_one_other c c' lg : c' <> c -> rename_one c lg c' = lg c'.
Proof. intros Hne. unfold rename_one. by rewrite (proj2 (String.eqb_neq _ _) Hne). Qed.

(** The record of a category is no log. *)
Lemma LogFiles_heads fs fs' lg c text : In c auditCategories -> LogFiles baseDir key fs lg ->
  replaced (headsPath baseDir c) text fs fs' -> LogFiles baseDir key fs' lg.
Proof.
  intros Hc [Hgood Hlog Habsent Honly] (t & ->). split; [done| | |].
  - intros c' u ps Hc' Hu. rewrite lookup_insert_ne; [by apply Hlog|]. apply headsPath_log; [done..|]. by eapply Hgood.
  - intros c' u Hc' Hu E. rewrite lookup_insert_ne; [by apply Habsent|]. by apply headsPath_log.
  - intros c' path Hc' Hin Hdir Hl. apply lookup_insert_is_Some in Hin as [<-|[_ Hin]]; [|by apply Honly].
    exfalso. unfold headsPath in Hl. rewrite (Base_log baseDir Hbase) in Hl by apply sig_plain. by vm_compute in Hl.
Qed.

(** The record of one category was written for its logs. *)
Lemma Rep_heads fs fs' lg c mac raw : In c auditCategories -> LogFiles baseDir key fs lg ->
  (forall c', In c' auditCategories -> c' <> c -> heads_in baseDir key c' fs = Ok (heads_of key (lg c'))) ->
  signHeads key (MkHeadsPayload auditKeyID c (heads_of key (lg c))) = Ok mac ->
  document_Marshal (MkHeads auditKeyID c (Some (heads_of key (lg c))) (RawURL_Encode mac)) = Some raw ->
  replaced (headsPath baseDir c) (raw +:+ String newline "") fs fs' -> Rep baseDir key fs' lg.
Proof.
  intros Hc Hl Hothers Hmac Hraw Hrep. split; [by eapply LogFiles_heads|]. intros c' Hc'.
  destruct (decide (c' = c)) as [->|Hne].
  - eapply heads_written; [done| |done..]. apply heads_of_ok. intros u ps E. by eapply (rep_good _ _ _ _ Hl).
  - rewrite <- (Hothers c' Hc' Hne). apply heads_in_other. destruct Hrep as (t & ->). apply lookup_insert_ne.
    intros E. by apply (headsPath_inj baseDir Hbase) in E as ->.
Qed.

(** The log of one category was moved. *)
Lemma LogFiles_moved fs lg c ps : In c auditCategories -> LogFiles baseDir key fs lg ->
  lg c !! old = Some ps -> lg c !! new = None ->
  LogFiles baseDir key (move (logPath baseDir c old) (logPath baseDir c new) fs) (rename_one c lg).
Proof.
  intros Hc Hl Ho Hn. destruct (rep_log _ _ _ _ Hl c old ps Hc Ho) as (f & Hf & Ht).
  pose proof (rep_good _ _ _ _ Hl c old ps Hc Ho) as (_ & Hgood). unfold move. rewrite Hf.
  assert (Hneq : new <> old) by congruence.
  assert (Hnew : rename_one c lg c = <[new := ps]> (delete old (lg c))) by (rewrite rename_one_same; unfold renamed; by rewrite Ho).
  assert (Hsame : forall c' u, In c' auditCategories -> validUsername u = true -> c' <> c \/ u <> old /\ u <> new ->
    (<[logPath baseDir c new := f]> (delete (logPath baseDir c old) fs)) !! logPath baseDir c' u = fs !! logPath baseDir c' u /\
    rename_one c lg c' !! u = lg c' !! u).
  { intros c' u Hc' Hu Hne. split.
    - rewrite lookup_insert_ne, lookup_delete_ne; [done| |];
        intros E; apply (logPath_inj baseDir Hbase) in E as [-> ->]; intuition done.
    - destruct (decide (c' = c)) as [->|]; [|by rewrite rename_one_other]. rewrite Hnew.
      rewrite lookup_insert_ne, lookup_delete_ne; [done|intros ->..]; intuition done. }
  assert (Hcase : forall c' u, (c' = c /\ u = new) \/ (c' = c /\ u = old) \/ (c' <> c \/ u <> old /\ u <> new)).
  { intros c' u. destruct (decide (c' = c)); [|tauto]. destruct (decide (u = new)); [tauto|]. destruct (decide (u = old)); tauto. }
  split.
  - intros c' u qs Hc' E. destruct (Hcase c' u) as [[-> ->]|[[-> ->]|Hne]].
    + rewrite Hnew, lookup_insert_eq in E. by injection E as <-.
    + rewrite Hnew, lookup_insert_ne, lookup_delete_eq in E by done. done.
    + destruct (decide (c' = c)) as [->|Hc'']; [|rewrite rename_one_other in E by done; by eapply (rep_good _ _ _ _ Hl)].
      rewrite Hnew in E. rewrite lookup_insert_ne, lookup_delete_ne in E by (intros ->; intuition done).
      by eapply (rep_good _ _ _ _ Hl).
  - intros c' u qs Hc' E. destruct (Hcase c' u) as [[-> ->]|[[-> ->]|Hne]].
    + rewrite lookup_insert_eq. rewrite Hnew, lookup_insert_eq in E. injection E as <-. eauto.
    + rewrite Hnew, lookup_insert_ne, lookup_delete_eq in E by done. done.
    + assert (Hu : validUsername u = true).
      { destruct (decide (c' = c)) as [->|Hc'']; [|rewrite rename_one_other in E by done; by eapply (rep_good _ _ _ _ Hl)].
        rewrite Hnew in E. rewrite lookup_insert_ne, lookup_delete_ne in E by (intros ->; intuition done).
        by eapply (rep_good _ _ _ _ Hl). }
      destruct (Hsame c' u Hc' Hu Hne) as [-> Hlg]. rewrite Hlg in E. by apply (rep_log _ _ _ _ Hl).
  - intros c' u Hc' Hu E. destruct (Hcase c' u) as [[-> ->]|[[-> ->]|Hne]].
    + by rewrite Hnew, lookup_insert_eq in E.
    + rewrite lookup_insert_ne; [apply lookup_delete_eq|]. intros E'. by apply (logPath_inj baseDir Hbase) in E' as [_ ->].
    + destruct (Hsame c' u Hc' Hu Hne) as [-> Hlg]. rewrite Hlg in E. by apply (rep_absent _ _ _ _ Hl).
  - intros c' path Hc' Hin Hdir Hislog. apply lookup_insert_is_Some in Hin as [<-|[Hpath Hin]].
    + destruct (log_name_plain new Hnew') as [Hp Hd]. unfold logPath in Hdir. rewrite (Dir_log baseDir Hbase) in Hdir by done.
      apply (category_dir_inj baseDir Hbase) in Hdir as <-; [|done|done]. exists new. rewrite Hnew, lookup_insert_eq. eauto.
    + apply lookup_delete_is_Some in Hin as [Hpath' Hin].
      destruct (rep_only _ _ _ _ Hl c' path Hc' Hin Hdir Hislog) as (u & [qs Hu] & ->).
      exists u. split; [|done]. exists qs. rewrite <- Hu. apply Hsame; [done| |].
      * by eapply (rep_good _ _ _ _ Hl).
      * destruct (decide (c' = c)) as [->|]; [right; split; intros ->; done|by left].
Qed.

(** *** All of them *)

Lemma rename_one_idle (lg : contents) c : lg c !! old = None -> renamed (lg c) = lg c.
Proof. unfold renamed. by intros ->. Qed.

(** One plan was carried out without an error. *)
Lemma plan_step fs fs1 fs2 lg c plan : Rep baseDir key fs lg -> In c auditCategories -> plan_ok lg c plan ->
  fs1 = (if rp_moveFile plan then move (rp_oldPath plan) (rp_newPath plan) fs else fs) ->
  (rp_newHeads plan = ∅ /\ rp_oldHeads plan = ∅ /\ fs2 = fs1 \/
   exists mac raw, signHeads key (MkHeadsPayload auditKeyID c (rp_newHeads plan)) = Ok mac /\
     document_Marshal (MkHeads auditKeyID c (Some (rp_newHeads plan)) (RawURL_Encode mac)) = Some raw /\
     replaced (headsPath baseDir c) (raw +:+ String newline "") fs1 fs2) ->
  Rep baseDir key fs2 (rename_one c lg).
Proof.
  intros [Hl Hh] Hc [-> Hnone] ->. cbn [rp_newHeads rp_oldHeads rp_moveFile rp_oldPath rp_newPath].
  destruct (lg c !! old) as [ps|] eqn:Ho.
  - rewrite bool_decide_true by by eexists. intros [(_ & He & _)|(mac & raw & Hmac & Hraw & Hrep)].
    { unfold heads_of in He. apply fmap_empty_inv in He. by rewrite He, lookup_empty in Ho. }
    pose proof (LogFiles_moved fs lg c ps Hc Hl Ho Hnone) as Hl'.
    eapply (Rep_heads _ _ _ c mac raw Hc Hl'); [|by rewrite rename_one_same..|done].
    intros c' Hc' Hne. rewrite rename_one_other, <- (Hh c' Hc') by done. apply heads_in_other. unfold move.
    destruct (rep_log _ _ _ _ Hl c old ps Hc Ho) as (f & -> & _).
    rewrite lookup_insert_ne, lookup_delete_ne; [done| |]; intros E; symmetry in E; by apply (headsPath_log baseDir Hbase) in E.
  - rewrite bool_decide_false by by intros []. intros Hcases.
    assert (E : renamed (lg c) = lg c) by by apply rename_one_idle.
    apply (Rep_ext baseDir key _ lg). { intros c' _. unfold rename_one. by destruct (String.eqb_spec c' c) as [->|]. }
    destruct Hcases as [(_ & _ & ->)|(mac & raw & Hmac & Hraw & Hrep)]; [done|]. rewrite E in *.
    eapply (Rep_heads _ _ _ c mac raw Hc Hl); [|done..]. intros. by apply Hh.
Qed.

Lemma run_plans_ok cs plans finished lg w : NoDup cs -> (forall c, In c cs -> In c auditCategories) ->
  Forall2 (plan_ok lg) cs plans -> Rep baseDir key (files w) lg -> (run_plans baseDir key plans finished w).1 = None ->
  Rep baseDir key (files (run_plans baseDir key plans finished w).2) (rename_in cs lg).
Proof.
  intros Hnd Hcs Hps. revert lg finished w Hnd Hcs Hps. induction cs as [|c cs IH] in plans |- *;
    intros lg finished w Hnd Hcs Hps Hr; [by apply Forall2_nil_inv_l in Hps as ->|].
  apply Forall2_cons_inv_l in Hps as (plan & plans' & Hp & Hps & ->). apply list.NoDup_cons in Hnd as [Hnot Hnd].
  rewrite list_elem_of_In in Hnot. assert (Hc : In c auditCategories) by (apply Hcs; by left).
  pose proof (plan_step (files w)) as Hstep. pose proof Hp as [Hplan Hnone].
  assert (Hnext : forall fs2 finished w2, files w2 = fs2 -> Rep baseDir key fs2 (rename_one c lg) ->
    (run_plans baseDir key plans' finished w2).1 = None ->
    Rep baseDir key (files (run_plans baseDir key plans' finished w2).2) (rename_in (c :: cs) lg)).
  { intros fs2 finished' w2 <- Hr2 Hrun. apply (Rep_ext baseDir key _ (rename_in cs (rename_one c lg))).
    - intros c' _. unfold rename_in. cbn [mem existsb]. destruct (decide (c' = c)) as [->|Hne].
      + rewrite String.eqb_refl. destruct (mem c cs) eqn:E; [by apply mem_spec in E|apply rename_one_same].
      + rewrite (proj2 (String.eqb_neq _ _) Hne), rename_one_other by done. done.
    - apply IH; [done|intros; apply Hcs; by right| |done|done].
      apply Forall2_same_length_lookup_2; [by eapply Forall2_length|]. intros i c' plan' Hi Hi'.
      destruct (Forall2_lookup_lr _ _ _ _ _ _ Hps Hi Hi') as [-> Hn']. unfold plan_ok. rewrite rename_one_other; [done|].
      intros ->. apply Hnot, list_elem_of_In. by eapply list_elem_of_lookup_2. }
  cbn [run_plans]. rewrite mbind_eq. set (m := if rp_moveFile plan then _ else _).
  assert (Hm : (m w).1 = None -> files (m w).2 = if rp_moveFile plan then move (rp_oldPath plan) (rp_newPath plan) (files w) else files w).
  { unfold m. destruct (rp_moveFile plan); [|done]. unfold Rename. rewrite mbind_eq, attempt_eq. cbn [fst snd].
    destruct (fault _); [done|]. by rewrite mbind_eq. }
  destruct (m w) as [[e|] w1]; cbn [fst snd] in *.
  { rewrite mbind_eq. by destruct (rollback _ _ _ _ w1) as [[r|] ?]. }
  specialize (Hm eq_refl). set (plan1 := if rp_moveFile plan then mark_moved plan else plan).
  assert (E1 : rp_newHeads plan1 = rp_newHeads plan /\ rp_oldHeads plan1 = rp_oldHeads plan /\ rp_category plan1 = c).
  { unfold plan1. rewrite Hplan. cbn. by destruct (bool_decide _). }
  destruct E1 as (-> & -> & ->).
  destruct (bool_decide (rp_newHeads plan = ∅) && bool_decide (rp_oldHeads plan = ∅)) eqn:Eempty.
  - apply andb_true_iff in Eempty as [E1 E2]. apply bool_decide_eq_true in E1, E2.
    eapply Hnext; [done|]. apply (Hstep _ _ lg c plan Hr Hc Hp Hm). by left.
  - rewrite mbind_eq. pose proof (writeHeadsLocked_outcome baseDir key c (rp_newHeads plan) w1) as Ho. cbn zeta in Ho.
    destruct (writeHeadsLocked _ _ _ _ w1) as [[e|] w2]; cbn [fst snd] in *.
    { rewrite mbind_eq. by destruct (rollback _ _ _ _ w2) as [[r|] ?]. }
    destruct Ho as (mac & raw & Hmac & Hraw & Hrep).
    eapply Hnext; [done|]. apply (Hstep _ _ lg c plan Hr Hc Hp Hm). right. by exists mac, raw.
Qed.

(** C35: when renaming an account reports no error, its log is now the one of the
    new name in every category, every other log is what it was, and the records
    of the heads agree: the chain of the account goes on. *)
Theorem RenameAccount_renames lg w : Rep baseDir key (files w) lg ->
  (RenameAccount baseDir key old new w).1 = None ->
  (forall c, In c auditCategories -> lg c !! new = None) /\
  Rep baseDir key (files (RenameAccount baseDir key old new w).2) (rename_in auditCategories lg).
Proof.
  intros Hr. unfold RenameAccount. rewrite Hold, Hnew'. cbn [negb orb]. rewrite mbind_eq.
  destruct (plan_all _ _ _ _ auditCategories w) as [[plans|e] w1] eqn:Ep; cbn [fst snd]; [|done].
  destruct (plan_all_ok lg auditCategories plans w) as [Hps Hf]; [done|done|by rewrite Ep|].
  rewrite Ep in Hf. cbn [snd] in Hf. intros Hrun. split.
  - intros c Hc. apply list_elem_of_In, list_elem_of_lookup in Hc as [i Hi].
    by destruct (Forall2_lookup_l _ _ _ _ _ Hps Hi) as (plan & _ & _ & ?).
  - apply run_plans_ok; [|done|done|by rewrite Hf|done].
    refine (bool_decide_unpack _ _). by vm_compute.
Qed.
End rename.

(** ** Witnesses *)

Lemma RenameAccount_renames_witness :
  demo_contents two_payloads "access" !! "root" = None /\
  Rep demo_dir demo_key (files (RenameAccount demo_dir demo_key "op" "root" demo_two).2)
    (rename_in "op" "root" auditCategories (demo_contents two_payloads)).
Proof.
  destruct (RenameAccount_renames demo_dir demo_key demo_dir_given "op" "root" ltac:(done) ltac:(done)
    (demo_contents two_payloads) demo_two) as [Hnone Hr]; [apply demo_Rep_two|by vm_compute|].
  split; [apply Hnone; by left|exact Hr].
Defined.

(** The same world, in which the [k]-th operation fails. *)
Definition failing_at (k : nat) : Env := {|
  clock := @clock still_Env; fault n := if Nat.eqb n k then Some "input/output error" else None; cwd := "/srv";
  json_manifestStatus := @json_manifestStatus still_Env; json_state := @json_state still_Env;
  random_hex := @random_hex still_Env |}.
Definition renaming_fails (k : nat) : option string * World :=
  @RenameAccount (failing_at k) sample_Tools sample_AuditCodec demo_dir demo_key "op" "root"
    (MkWorld 0 0 (files demo_two) [] None).
Definition verifies (w : World) : bool := match (VerifyAll demo_dir demo_key w).1 with None => true | Some _ => false end.
(** A failure before the record of the heads is replaced is undone. *)
Example early_failure_undone : forallb (fun k => verifies (renaming_fails k).2) (seq 0 18) = true.
Proof. by vm_compute. Qed.
(** What the code does not do.  When the directory cannot be opened or synchronised
    after the record was replaced, the roll-back takes the record for the old one:
    it moves the log back and leaves the new record, and verification fails. *)
Example late_failure_not_undone :
  (renaming_fails 18).1 = Some "write audit integrity signature: input/output error" /\
  (renaming_fails 19).1 = Some "write audit integrity signature: input/output error" /\
  (VerifyAll demo_dir demo_key (renaming_fails 18).2).1 =
    Some "CRITICAL audit integrity signature mismatch for access/op" /\
  (VerifyAll demo_dir demo_key (renaming_fails 19).2).1 =
    Some "CRITICAL audit integrity signature mismatch for access/op".
Proof. by vm_compute. Qed.
