(* ===== verification/Accounts.v ===== *)
(** The accounts of the web gateway ([internal/webgateway/accounts_store.go]): the
    table [users], and the operations of [accountStore] on it.

    A statement is atomic, and so is a transaction: they are serialisable, and one
    that fails has no effect.  Time columns hold the instant itself: the text that
    is stored has its nanoseconds. *)

From stdpp Require Import stringmap sorting.
From S2P Require Import Prelude UnicodeTables GoStrings SampleCodec GoTime GoValue GoPath GoCrypto GoNet AlertPacket.
From S2P Require Import PlaylistModel World Secrets AlertRequest AudioRetention PlannerState AlertCommit Wav AudioFiles AuditLog.

#[local] Open Scope Z_scope.
#[local] Open Scope string_scope.
#[local] Open Scope haze_scope.

(** ** Data *)

(** [Account], with the part that an administrator edits as a record of its own. *)
Record accountPolicy := MkPolicy {
  po_Username : string; po_SenderID : string; po_ForceSenderID : bool; po_AllowOrigination : bool;
  po_AllowedOriginators : list string; po_BlockedEventCodes : list string; po_ForceOriginatorName : bool;
  po_OriginatorNameText : string; po_IncludeIPInBrackets : bool; po_CanViewLogs : bool;
  po_AllowPersistentSessions : bool; po_PasswordExpiryDays : Z; po_AllowUserPasswordChange : bool;
  po_LoggingEnabled : bool; po_IsAdmin : bool; po_CIDRWhitelist : list string }.
Record Account := MkAccount {
  ac_ID : string; ac_policy : accountPolicy; ac_LastIP : string; ac_LastLoginAt : Z; ac_PasswordChangedAt : Z;
  ac_AccountLocked : bool; ac_FailedLoginAttempts : Z; ac_MFAEnabled : bool; ac_MFAConfigured : bool;
  ac_CreatedAt : Z; ac_UpdatedAt : Z; ac_passwordHash : string; ac_mfaSecret : string; ac_mfaLastStep : Z;
  ac_authVersion : Z; ac_failedLoginWindowStartedAt : Z }.
Definition ac_Username (a : Account) : string := po_Username (ac_policy a).
Definition ac_IsAdmin (a : Account) : bool := po_IsAdmin (ac_policy a).

(** Assignments to columns. *)
Definition with_updated (t : Z) '(MkAccount i p ip li pc l n e c cr _ h s m v f) : Account :=
  MkAccount i p ip li pc l n e c cr t h s m v f.
Definition with_version (v : Z) '(MkAccount i p ip li pc l n e c cr u h s m _ f) : Account :=
  MkAccount i p ip li pc l n e c cr u h s m v f.
Definition with_failures (locked : bool) (attempts started : Z) '(MkAccount i p ip li pc _ _ e c cr u h s m v _) : Account :=
  MkAccount i p ip li pc locked attempts e c cr u h s m v started.
Definition with_password (hash : string) (changed : Z) '(MkAccount i p ip li _ l n e c cr u _ s m v f) : Account :=
  MkAccount i p ip li changed l n e c cr u hash s m v f.
Definition with_mfa (secret : string) (enabled : bool) (step : Z) '(MkAccount i p ip li pc l n _ c cr u h _ _ v f) : Account :=
  MkAccount i p ip li pc l n enabled c cr u h secret step v f.
Definition with_login (ip : string) (t : Z) '(MkAccount i p _ _ pc l n e c cr u h s m v f) : Account :=
  MkAccount i p ip t pc l n e c cr u h s m v f.
Definition with_policy (p : accountPolicy) (locked enabled : bool) '(MkAccount i _ ip li pc _ n _ c cr u h s m v f) : Account :=
  MkAccount i p ip li pc locked n enabled c cr u h s m v f.
Definition with_configured (c : bool) '(MkAccount i p ip li pc l n e _ cr u h s m v f) : Account :=
  MkAccount i p ip li pc l n e c cr u h s m v f.

Inductive storeError := errAccountNotFound | errAccountVersionChanged | storeFailure (detail : string).

(** ** [validateAccount] *)

Definition allowedOriginatorCodes : list string := ["CIV"; "EAS"; "PEP"; "WXR"].
Definition sender_char (a : Ascii.ascii) : bool := let v := byte_val a in is_upper v || is_digit v || (v =? 47)%Z.
Definition validSenderID (s : string) : bool := forallb sender_char (bytes_of s) && (String.length s =? 8)%nat.
Definition event_char (a : Ascii.ascii) : bool := let v := byte_val a in is_upper v || is_digit v.
Definition validEventCode (s : string) : bool := forallb event_char (bytes_of s) && (String.length s =? 3)%nat.

(** [sort.Strings]. *)
Definition string_le (a b : string) : Prop := String.leb a b = true.
#[export] Instance string_le_dec : RelDecision string_le.
Proof. intros a b. unfold string_le. apply _. Defined.
Definition sort_Strings : list string -> list string := merge_sort string_le.

Definition normalize_code (ok : string -> bool) (value : string) : option (string * string) :=
  let code := ToUpper (TrimSpace value) in if ok code then Some (code, code) else None.
Definition allowed_originator (code : string) : bool := mem code allowedOriginatorCodes.
Definition normalizeOriginators (values : list string) : list string :=
  sort_Strings (dedup_loop (normalize_code allowed_originator) ∅ values).
Definition normalizeEventCodes (values : list string) : list string :=
  sort_Strings (dedup_loop (normalize_code validEventCode) ∅ values).
Definition normalize_cidr (value : string) : option (string * string) :=
  let value := TrimSpace value in if value =? "" then None else Some (value, value).
Definition normalizeCIDRs (values : list string) : list string := sort_Strings (dedup_loop normalize_cidr ∅ values).

(** [parseCIDRList] of [account_auth.go]. *)
Fixpoint parseCIDRList (values : list string) : option (list IPNet) :=
  match values with
  | [] => Some []
  | value :: values' =>
      let value := TrimSpace value in
      if value =? "" then parseCIDRList values'
      else
        let value :=
          match ParseIP value with
          | Some ip => value +:+ "/" +:+ Itoa (match To4 ip with Some _ => 32 | None => 128 end)
          | None => value
          end in
        match ParseCIDR value with
        | None => None
        | Some network => cons network <$> parseCIDRList values'
        end
  end.
Definition validCIDR (value : string) : bool :=
  negb (TrimSpace value =? "") && bool_decide (is_Some (parseCIDRList [value])).

(** A carriage return, a line feed or a NUL. *)
Definition control_char (a : Ascii.ascii) : bool := let v := byte_val a in (v =? 13)%Z || (v =? 10)%Z || (v =? 0)%Z.
Definition bad_originator (value : string) : bool :=
  let code := ToUpper (TrimSpace value) in negb (code =? "") && negb (allowed_originator code).
Definition validatePolicy (p : accountPolicy) : result string accountPolicy :=
  let username := TrimSpace (po_Username p) in
  if negb (validUsername username)
  then Err "username must be 1 to 50 letters, numbers, periods, underscores, or hyphens"
  else
    let sender := ToUpper (ReplaceByte "-" "/" (TrimSpace (po_SenderID p))) in
    if po_ForceSenderID p && negb (validSenderID sender)
    then Err "forced SAME sender ID must be exactly 8 ASCII letters, numbers, or slashes"
    else
      let sender := if po_ForceSenderID p then sender else "" in
      let name := TrimSpace (po_OriginatorNameText p) in
      if (100 <? String.length name)%nat || existsb control_char (bytes_of name)
      then Err "originator name must be at most 100 characters without control characters"
      else if po_ForceOriginatorName p && (name =? "") then Err "originator name is required when the override is enabled"
      else
        let name := if po_ForceOriginatorName p then name else "" in
        let brackets := if po_ForceOriginatorName p then po_IncludeIPInBrackets p else false in
        if (po_PasswordExpiryDays p <? 0)%Z || (3650 <? po_PasswordExpiryDays p)%Z
        then Err "password expiry must be between 0 and 3650 days"
        else if existsb bad_originator (po_AllowedOriginators p) then Err "unsupported originator"
        else
          let originators := normalizeOriginators (po_AllowedOriginators p) in
          if po_AllowOrigination p && bool_decide (originators = []) then Err "at least one originator must be allowed"
          else if existsb (fun value => negb (validEventCode (ToUpper (TrimSpace value)))) (po_BlockedEventCodes p)
          then Err "invalid blocked SAME event code"
          else if existsb (fun cidr => negb (validCIDR cidr)) (po_CIDRWhitelist p) then Err "invalid CIDR"
          else
            Ok (MkPolicy username sender (po_ForceSenderID p) (po_AllowOrigination p) originators
                  (normalizeEventCodes (po_BlockedEventCodes p)) (po_ForceOriginatorName p) name brackets
                  (po_CanViewLogs p) (po_AllowPersistentSessions p) (po_PasswordExpiryDays p)
                  (po_AllowUserPasswordChange p) (po_LoggingEnabled p) (po_IsAdmin p)
                  (normalizeCIDRs (po_CIDRWhitelist p))).
(** An administrator is never locked. *)
Definition validateAccount (a : Account) : result string Account :=
  let? p := validatePolicy (ac_policy a) in
  Ok (with_policy p (if po_IsAdmin (ac_policy a) then false else ac_AccountLocked a) (ac_MFAEnabled a) a).

(** ** The table *)

Abbreviation users := (gmap string Account).

(** [lower] of SQL, on which the unique index of the names is: ASCII letters. *)
Definition lower_char (a : Ascii.ascii) : Ascii.ascii :=
  let v := byte_val a in if is_upper v then byte_of (v + 32) else a.
Definition lower (s : string) : string := string_of (map lower_char (bytes_of s)).
Definition same_name (s : string) (e : string * Account) : bool := lower (ac_Username e.2) =? lower s.
(** Another row has the name. *)
Definition name_taken (id name : string) (us : users) : bool :=
  existsb (fun e => negb (e.1 =? id) && same_name name e) (map_to_list us).

(** [UPDATE users SET ... WHERE id=? AND ...]: no row, or the row it changed. *)
Definition update_if (id : string) (cond : Account -> bool) (f : Account -> Account) (us : users) : option users :=
  match us !! id with
  | Some a => if cond a then Some (<[id := f a]> us) else None
  | None => None
  end.
Definition or_err {A} (e : storeError) (o : option A) : result storeError A :=
  match o with Some a => Ok a | None => Err e end.
Definition requireAffected (o : option users) : result storeError users := or_err errAccountNotFound o.
Definition at_version (v : Z) (a : Account) : bool := (ac_authVersion a =? v)%Z.
Definition bump (a : Account) : Account := with_version (ac_authVersion a + 1) a.

(** [nullText] and the text read back: a column that is NULL is read as "". *)
Definition nullText (s : string) : string := TrimSpace s.

Definition insert_row (a : Account) (us : users) : result storeError users :=
  if bool_decide (is_Some (us !! ac_ID a)) || name_taken (ac_ID a) (ac_Username a) us
  then Err (storeFailure "create account: unique constraint")
  else Ok (<[ac_ID a := a]> us).

(** [lockAdministratorMutation], [requireOtherUnlockedAdministrator]. *)
Definition lockAdministratorMutation (postgres : bool) (id : string) (us : users) : result storeError unit :=
  if postgres then Ok tt
  else match us !! id with Some _ => Ok tt | None => Err errAccountNotFound end.
Definition unlocked_admin (a : Account) : bool := ac_IsAdmin a && negb (ac_AccountLocked a).
Definition requireOtherUnlockedAdministrator (id : string) (us : users) : result storeError unit :=
  if existsb (fun '(k, a) => negb (k =? id) && unlocked_admin a) (map_to_list us) then Ok tt
  else Err (storeFailure "at least one other unlocked administrator account is required").

(** The transaction of [Save]; the account is validated before. *)
Definition save_row (postgres : bool) (account : Account) (now : Z) (us : users) : result storeError users :=
  let? _ := lockAdministratorMutation postgres (ac_ID account) us in
  let? row := or_err errAccountNotFound (us !! ac_ID account) in
  let? _ :=
    if ac_IsAdmin row && (negb (ac_IsAdmin account) || ac_AccountLocked account)
    then requireOtherUnlockedAdministrator (ac_ID account) us else Ok tt in
  if name_taken (ac_ID account) (ac_Username account) us then Err (storeFailure "save account: unique constraint")
  else
    requireAffected (update_if (ac_ID account) (fun _ => true) (fun row =>
      with_updated now (bump (with_policy (ac_policy account) (ac_AccountLocked account) (ac_MFAEnabled account) row))) us).
Definition delete_row (postgres : bool) (id : string) (us : users) : result storeError users :=
  let? _ := lockAdministratorMutation postgres id us in
  let? row := or_err errAccountNotFound (us !! id) in
  let? _ := if ac_IsAdmin row then requireOtherUnlockedAdministrator id us else Ok tt in
  Ok (delete id us).

Definition fresh_password (hash : string) (changed now : Z) (a : Account) : Account :=
  with_updated now (bump (with_failures false 0 zeroTime (with_password hash changed a))).
Definition set_password_row (id hash : string) (changed now : Z) : users -> result storeError users := fun us =>
  requireAffected (update_if id (fun _ => true) (fresh_password hash changed now) us).
Definition set_password_if_row (id hash : string) (v now : Z) : users -> result storeError users := fun us =>
  or_err errAccountVersionChanged (update_if id
    (fun a => at_version v a && negb (ac_AccountLocked a) && po_AllowUserPasswordChange (ac_policy a))
    (fresh_password hash now now) us).

Definition set_mfa_row (id secret : string) (enabled : bool) (now : Z) : users -> result storeError users := fun us =>
  requireAffected (update_if id (fun _ => true)
    (fun a => with_updated now (bump (with_mfa (nullText secret) enabled 0 a))) us).
Definition set_mfa_if_row (id secret : string) (v now : Z) : users -> result storeError users := fun us =>
  or_err errAccountVersionChanged (update_if id
    (fun a => at_version v a && negb (ac_AccountLocked a) && (ac_mfaSecret a =? ""))
    (fun a => with_updated now (bump (with_mfa (nullText secret) false 0 a))) us).
Definition enable_mfa (now : Z) (a : Account) : Account :=
  with_updated now (with_mfa (ac_mfaSecret a) true (ac_mfaLastStep a) a).
Definition enable_mfa_row (id : string) (now : Z) : users -> result storeError users := fun us =>
  requireAffected (update_if id (fun _ => true) (enable_mfa now) us).
Definition enable_mfa_if_row (id : string) (v now : Z) : users -> result storeError users := fun us =>
  or_err errAccountVersionChanged (update_if id
    (fun a => at_version v a && negb (ac_AccountLocked a) && negb (ac_mfaSecret a =? "")) (enable_mfa now) us).
Definition accept_step_row (id : string) (v step now : Z) : users -> result storeError users := fun us =>
  or_err (storeFailure "MFA code was already used") (update_if id
    (fun a => at_version v a && negb (ac_AccountLocked a) && (ac_mfaLastStep a <? step)%Z)
    (fun a => with_updated now (with_mfa (ac_mfaSecret a) (ac_MFAEnabled a) step a)) us).

(** The transaction of [recordLoginFailure]; no version is expected when it is 0. *)
Definition failure_window (now window : Z) (a : Account) : Z * Z :=
  let started := ac_failedLoginWindowStartedAt a in
  if IsZero started || Before now started || (window <=? Sub now started)%Z then (0, now)
  else (ac_FailedLoginAttempts a, started).
Definition record_failure (lockAt window now : Z) (a : Account) : Account :=
  let '(attempts, started) := failure_window now window a in
  let attempts := attempts + 1 in
  let newlyLocked := negb (ac_IsAdmin a) && negb (ac_AccountLocked a) && (lockAt <=? attempts)%Z in
  let started := if newlyLocked then now else started in
  let a' := with_failures (newlyLocked || ac_AccountLocked a) attempts started a in
  with_updated now (if newlyLocked then bump a' else a').
Definition login_failure_row (id : string) (expected lockAt window now : Z) : users -> result storeError users := fun us =>
  let? a := or_err errAccountNotFound (us !! id) in
  if (0 <? expected)%Z && negb (ac_authVersion a =? expected)%Z then Err errAccountVersionChanged
  else Ok (<[id := record_failure lockAt window now a]> us).
Definition login_success_row (id ip : string) (v now : Z) : users -> result storeError users := fun us =>
  or_err errAccountVersionChanged (update_if id (fun a => at_version v a && negb (ac_AccountLocked a))
    (fun a => with_updated now (with_failures (ac_AccountLocked a) 0 zeroTime (with_login (nullText ip) now a))) us).

Definition unlocked (now : Z) (a : Account) : Account := with_updated now (bump (with_failures false 0 zeroTime a)).
Definition unlock_row (id : string) (now : Z) : users -> result storeError users := fun us =>
  requireAffected (update_if id (fun _ => true) (unlocked now) us).
Definition unlock_if_row (id : string) (v now : Z) : users -> result storeError users := fun us =>
  or_err errAccountVersionChanged (update_if id (fun a => at_version v a && ac_AccountLocked a) (unlocked now) us).
Definition bump_row (id : string) (now : Z) : users -> result storeError users := fun us =>
  requireAffected (update_if id (fun _ => true) (fun a => with_updated now (bump a)) us).

(** Every change of the table. *)
Inductive txn :=
| TInsert (a : Account)
| TSave (a : Account) (now : Z)
| TSetPassword (id hash : string) (changed now : Z)
| TSetPasswordIf (id hash : string) (v now : Z)
| TSetMFA (id secret : string) (enabled : bool) (now : Z)
| TSetMFAIf (id secret : string) (v now : Z)
| TEnableMFA (id : string) (now : Z)
| TEnableMFAIf (id : string) (v now : Z)
| TAcceptStep (id : string) (v step now : Z)
| TLoginFailure (id : string) (expected lockAt window now : Z)
| TLoginSuccess (id ip : string) (v now : Z)
| TUnlock (id : string) (now : Z)
| TUnlockIf (id : string) (v now : Z)
| TBump (id : string) (now : Z)
| TDelete (id : string).
Definition apply (postgres : bool) (t : txn) (us : users) : result storeError users :=
  match t with
  | TInsert a => insert_row a us
  | TSave a now => save_row postgres a now us
  | TSetPassword id hash changed now => set_password_row id hash changed now us
  | TSetPasswordIf id hash v now => set_password_if_row id hash v now us
  | TSetMFA id secret enabled now => set_mfa_row id secret enabled now us
  | TSetMFAIf id secret v now => set_mfa_if_row id secret v now us
  | TEnableMFA id now => enable_mfa_row id now us
  | TEnableMFAIf id v now => enable_mfa_if_row id v now us
  | TAcceptStep id v step now => accept_step_row id v step now us
  | TLoginFailure id expected lockAt window now => login_failure_row id expected lockAt window now us
  | TLoginSuccess id ip v now => login_success_row id ip v now us
  | TUnlock id now => unlock_row id now us
  | TUnlockIf id v now => unlock_if_row id v now us
  | TBump id now => bump_row id now us
  | TDelete id => delete_row postgres id us
  end.

(** ** The operations of the store *)

Record Store := MkStore { st_world : World; st_users : users }.
#[export] Instance Store_world : HasWorld Store := {|
  the_world := st_world; with_world w s := MkStore w (st_users s) |}.

(** [scanAccount]: what is read back of a row, whose policies may have been
    written by something else. *)
Definition scanAccount (a : Account) : result storeError Account :=
  let p := ac_policy a in
  if existsb (fun code => negb (allowed_originator (ToUpper (TrimSpace code)))) (po_AllowedOriginators p)
  then Err (storeFailure "account contains unsupported originator policy")
  else if existsb (fun cidr => negb (validCIDR cidr)) (po_CIDRWhitelist p)
  then Err (storeFailure "account contains invalid CIDR policy")
  else
    Ok (with_configured (negb (TrimSpace (ac_mfaSecret a) =? ""))
         (with_policy
           (MkPolicy (po_Username p) (po_SenderID p) (po_ForceSenderID p) (po_AllowOrigination p)
             (normalizeOriginators (po_AllowedOriginators p)) (normalizeEventCodes (po_BlockedEventCodes p))
             (po_ForceOriginatorName p) (po_OriginatorNameText p) (po_IncludeIPInBrackets p) (po_CanViewLogs p)
             (po_AllowPersistentSessions p) (po_PasswordExpiryDays p) (po_AllowUserPasswordChange p)
             (po_LoggingEnabled p) (po_IsAdmin p) (normalizeCIDRs (po_CIDRWhitelist p)))
           (ac_AccountLocked a) (ac_MFAEnabled a) a)).
Fixpoint scan_all (rows : list Account) : result storeError (list Account) :=
  match rows with
  | [] => Ok []
  | a :: rows' => let? a := scanAccount a in let? l := scan_all rows' in Ok (a :: l)
  end.

Section store.
Context `{Env} `{SecretTools} (postgres : bool).

Definition set_users (us : users) : M Store unit := modify (fun s => MkStore (st_world s) us).
Definition outcome {A} (r : result storeError A) : result storeError unit := rmap (fun _ => tt) r.
(** A statement, with the count of its rows when it is asked for. *)
Definition exec (counted : bool) (t : txn) : M Store (result storeError unit) :=
  let! err := on_world attempt in
  match err with
  | Some e => ret (Err (storeFailure e))
  | None =>
      let! us := gets st_users in
      let r := apply postgres t us in
      match r with Ok us' => set_users us' | Err _ => ret tt end ;;;
      let! err := if (counted : bool) then on_world attempt else ret None in
      ret (match err with Some e => Err (storeFailure e) | None => outcome r end)
  end.
(** A transaction whose statements before the commit may fail. *)
Definition transaction (t : txn) : M Store (result storeError unit) :=
  let! err := on_world attempt in
  match err with
  | Some e => ret (Err (storeFailure e))
  | None =>
      let! us := gets st_users in
      match apply postgres t us with
      | Err e => ret (Err e)
      | Ok us' =>
          let! err := on_world attempt in                           (* tx.Commit *)
          match err with
          | Some e => ret (Err (storeFailure e))
          | None => set_users us' ;;; ret (Ok tt)
          end
      end
  end.

Definition query {A} (f : users -> result storeError A) : M Store (result storeError A) :=
  let! err := on_world attempt in
  match err with Some e => ret (Err (storeFailure e)) | None => gets (fun s => f (st_users s)) end.
Definition Count : M Store (result storeError Z) := query (fun us => Ok (Z.of_nat (size us))).
Definition by_id (id : string) (us : users) : result storeError Account :=
  let? a := or_err errAccountNotFound (us !! TrimSpace id) in scanAccount a.
Definition by_username (username : string) (us : users) : result storeError Account :=
  let? e := or_err errAccountNotFound (find (same_name (TrimSpace username)) (map_to_list us)) in scanAccount e.2.
Definition ByID (id : string) : M Store (result storeError Account) := query (by_id id).
Definition ByUsername (username : string) : M Store (result storeError Account) := query (by_username username).
Definition account_le (a b : Account) : Prop := String.leb (lower (ac_Username a)) (lower (ac_Username b)) = true.
#[export] Instance account_le_dec : RelDecision account_le.
Proof. intros a b. unfold account_le. apply _. Defined.
Definition ListAll : M Store (result storeError (list Account)) :=
  query (fun us => scan_all (merge_sort account_le (map snd (map_to_list us)))).

Definition checked (version : Z) (m : M Store (result storeError unit)) : M Store (result storeError unit) :=
  if (version <? 1)%Z then ret (Err (storeFailure "expected account authentication version is required")) else m.

Definition Create (account : Account) (passwordHash : string) : M Store (result storeError unit) :=
  match validateAccount account with
  | Err e => ret (Err (storeFailure e))
  | Ok account =>
      if TrimSpace passwordHash =? "" then ret (Err (storeFailure "password hash is required"))
      else
        let! now := on_world now in
        let! id := if ac_ID account =? "" then on_world randomUUID else ret (Some (ac_ID account)) in
        match id with
        | None => ret (Err (storeFailure "generate UUID"))
        | Some id =>
            let changed := if IsZero (ac_PasswordChangedAt account) then now else ac_PasswordChangedAt account in
            exec false (TInsert (MkAccount id (ac_policy account) (nullText (ac_LastIP account)) (ac_LastLoginAt account)
              changed (ac_AccountLocked account) (ac_FailedLoginAttempts account) (ac_MFAEnabled account)
              (ac_MFAConfigured account) now now passwordHash (nullText (ac_mfaSecret account)) (ac_mfaLastStep account)
              (Z.max (ac_authVersion account) 1) (ac_failedLoginWindowStartedAt account)))
        end
  end.
Definition Save (account : Account) : M Store (result storeError unit) :=
  match validateAccount account with
  | Err e => ret (Err (storeFailure e))
  | Ok account => let! now := on_world now in transaction (TSave account now)
  end.
Definition SetPassword (id hash : string) : M Store (result storeError unit) :=
  let! changed := on_world now in let! now := on_world now in exec true (TSetPassword id hash changed now).
Definition SetPasswordIfAuthVersion (id hash : string) (v : Z) : M Store (result storeError unit) :=
  checked v (let! now := on_world now in exec true (TSetPasswordIf id hash v now)).
Definition SetMFA (id secret : string) (enabled : bool) : M Store (result storeError unit) :=
  let! now := on_world now in exec true (TSetMFA id secret enabled now).
Definition SetMFAIfAuthVersion (id secret : string) (v : Z) : M Store (result storeError unit) :=
  checked v (let! now := on_world now in exec true (TSetMFAIf id secret v now)).
Definition EnableMFA (id : string) : M Store (result storeError unit) :=
  let! now := on_world now in exec true (TEnableMFA id now).
Definition EnableMFAIfAuthVersion (id : string) (v : Z) : M Store (result storeError unit) :=
  checked v (let! now := on_world now in exec true (TEnableMFAIf id v now)).
Definition AcceptMFAStep (id : string) (v step : Z) : M Store (result storeError unit) :=
  checked v (let! now := on_world now in exec true (TAcceptStep id v step now)).

Definition recordLoginFailure (id : string) (expected lockAt window now : Z) : M Store (result storeError Account) :=
  let lockAt := if (lockAt <=? 0)%Z then 5 else lockAt in
  let window := if (window <=? 0)%Z then 15 * Minute else window in
  let! now := if IsZero now then on_world World.now else ret now in
  let! r := transaction (TLoginFailure id expected lockAt window now) in
  match r with Err e => ret (Err e) | Ok _ => ByID id end.
Definition RecordLoginFailure (id : string) (lockAt window now : Z) : M Store (result storeError Account) :=
  recordLoginFailure id 0 lockAt window now.
Definition RecordLoginFailureIfAuthVersion (id : string) (v lockAt window now : Z) : M Store (result storeError Account) :=
  if (v <? 1)%Z then ret (Err (storeFailure "expected account authentication version is required"))
  else recordLoginFailure id v lockAt window now.
Definition RecordLoginSuccess (id ip : string) (v : Z) : M Store (result storeError unit) :=
  checked v (let! now := on_world now in exec true (TLoginSuccess id ip v now)).

Definition Unlock (id : string) : M Store (result storeError unit) :=
  let! now := on_world now in exec true (TUnlock id now).
Definition UnlockLockedIfAuthVersion (id : string) (v now : Z) : M Store (result storeError bool) :=
  if (v <? 1)%Z then ret (Err (storeFailure "expected account authentication version is required"))
  else
    let! now := if IsZero now then on_world World.now else ret now in
    let! r := exec true (TUnlockIf id v now) in
    ret (match r with Ok _ => Ok true | Err errAccountVersionChanged => Ok false | Err e => Err e end).
Definition BumpAuthVersion (id : string) : M Store (result storeError unit) :=
  let! now := on_world now in exec true (TBump id now).
Definition Delete (id : string) : M Store (result storeError unit) := transaction (TDelete id).
End store.
