(* ===== verification/AccountsSafety.v ===== *)
(** What the accounts table of [Accounts] guarantees: the policies that are stored
    are valid and read back as they were written, an administrator who can sign in
    is always left, and the authentication version of an account covers its
    credentials. *)

From stdpp Require Import stringmap sorting.
From S2P Require Import Prelude UnicodeTables GoStrings SampleCodec GoTime GoValue GoPath GoCrypto GoNet AlertPacket.
From S2P Require Import PlaylistModel World Secrets AlertRequest AudioRetention PlannerState AlertCommit Wav AudioFiles AuditLog AuditLogSafety Accounts.

#[local] Open Scope Z_scope.
#[local] Open Scope string_scope.
#[local] Open Scope haze_scope.

(** ** Normal lists *)

Lemma existsb_false {A} (f : A -> bool) l : existsb f l = false <-> forall a, In a l -> f a = false.
Proof.
  induction l as [|a l IH]; [by split; [intros _ b []|]|]. cbn [existsb In]. rewrite orb_false_iff, IH. split.
  - intros [Ha Hl] b [<-|Hb]; auto.
  - intros Hl. split; [apply Hl; by left|]. intros b Hb. apply Hl. by right.
Qed.

Lemma ascii_compare_lt a b : Ascii.compare a b = Lt <-> byte_val a < byte_val b.
Proof. unfold Ascii.compare, byte_val. rewrite N.compare_lt_iff. lia. Qed.
Lemma ascii_compare_refl a : Ascii.compare a a = Eq.
Proof. unfold Ascii.compare. apply N.compare_refl. Qed.
Lemma ascii_compare_eq a b : Ascii.compare a b = Eq -> a = b.
Proof. unfold Ascii.compare. intros E%N.compare_eq. apply byte_val_inj. unfold byte_val. by rewrite E. Qed.
#[export] Instance string_le_trans : Transitive string_le.
Proof.
  intros s t u. unfold string_le, String.leb. revert t u.
  induction s as [|a s IH]; intros [|b t] [|c u]; cbn; try done.
  destruct (Ascii.compare a b) eqn:E1; [| |done].
  - apply ascii_compare_eq in E1 as ->. destruct (Ascii.compare b c); [apply IH|done|done].
  - destruct (Ascii.compare b c) eqn:E2; [| |done]; intros _ _.
    + apply ascii_compare_eq in E2 as <-. by rewrite E1.
    + apply ascii_compare_lt in E1, E2. assert (Ascii.compare a c = Lt) as -> by (apply ascii_compare_lt; lia). done.
Qed.
#[export] Instance string_le_total : Total string_le.
Proof. intros s t. apply String.leb_total. Qed.
#[export] Instance string_le_antisym : AntiSymm eq string_le.
Proof. intros s t. apply String.leb_antisym. Qed.

Lemma sort_sorted l : Sorted string_le l -> sort_Strings l = l.
Proof.
  intros Hl. apply (Sorted_unique string_le); [apply Sorted_merge_sort, _|done|apply merge_sort_Permutation].
Qed.
Lemma dedup_distinct (f : string -> option (string * string)) seen l :
  NoDup l -> Forall (fun v => f v = Some (v, v) /\ v ∉ seen) l -> dedup_loop f seen l = l.
Proof.
  intros Hn. revert seen. induction Hn as [|v l Hv Hn IH]; intros seen Hf; [done|].
  apply Forall_cons_iff in Hf as [[Hf Hs] Hl]. cbn [dedup_loop]. rewrite Hf. rewrite decide_False by done. f_equal.
  apply IH. apply List.Forall_forall. intros w Hw. rewrite List.Forall_forall in Hl. destruct (Hl w Hw) as [Hfw Hsw].
  split; [done|]. rewrite not_elem_of_union, not_elem_of_singleton. split; [|done]. intros ->.
  by apply Hv, list_elem_of_In.
Qed.

(** The three lists of a policy are made this way. *)
Section normal.
Context (f : string -> option (string * string)).
Context (Hf : forall v k w, f v = Some (k, w) -> k = w /\ f w = Some (w, w)).
Definition normal_list (l : list string) : list string := sort_Strings (dedup_loop f ∅ l).
Lemma normal_list_in l w : In w (normal_list l) -> f w = Some (w, w) /\ exists v, In v l /\ f v = Some (w, w).
Proof.
  unfold normal_list, sort_Strings. rewrite <- list_elem_of_In, merge_sort_Permutation, list_elem_of_In.
  intros (v & k & Hv & E & _)%dedup_loop_in. destruct (Hf v k w E) as [-> Hw]. eauto.
Qed.
Lemma normal_list_idem l : normal_list (normal_list l) = normal_list l.
Proof.
  unfold normal_list at 1. rewrite dedup_distinct.
  - apply sort_sorted, Sorted_merge_sort, _.
  - unfold normal_list, sort_Strings. rewrite merge_sort_Permutation.
    destruct (dedup_loop_keys f (fun w => w) ∅ l) as [Hn _]; [|by rewrite map_id in Hn].
    intros v k w E. by destruct (Hf v k w E).
  - apply List.Forall_forall. intros w Hw. split; [|set_solver].
    by destruct (normal_list_in l w Hw).
Qed.
End normal.

(** *** Texts of capital letters, digits and slashes *)

Lemma runes_plain s : Forall (fun a => byte_val a < 128) (bytes_of s) -> runes s = map byte_val (bytes_of s).
Proof. intros Hs. rewrite <- (string_app_nil_r s) at 1. rewrite runes_ascii by done. apply app_nil_r. Qed.
Lemma encode_plain l : Forall (fun a => byte_val a < 128) l -> encode (map byte_val l) = string_of l.
Proof.
  intros Hl. induction Hl as [|a l Ha Hl IH]; [done|]. cbn [map].
  change (encode (byte_val a :: map byte_val l)) with (encode_rune (byte_val a) +:+ encode (map byte_val l)). rewrite IH.
  change (string_of (a :: l)) with (String a "" +:+ string_of l). f_equal.
  assert (Hok : rune_ok (byte_val a)).
  { unfold rune_ok, valid_rune. pose proof (byte_val_range a). apply orb_true_iff. left. ranges. lia. }
  unfold encode_rune. rewrite Hok. apply Z.ltb_lt in Ha as ->. f_equal. apply byte_val_inj, byte_val_of, byte_val_range.
Qed.
Lemma upper_char_fixed a : sender_char a = true -> rune_upper (byte_val a) = byte_val a /\ byte_val a < 128 /\ wordb a = true.
Proof.
  intros Ha. assert (Hall : forallb (fun n => let a := byte_of (Z.of_nat n) in negb (sender_char a) ||
    ((rune_upper (byte_val a) =? byte_val a)%Z && (byte_val a <? 128)%Z && wordb a)) (seq 0 256) = true) by by vm_compute.
  rewrite forallb_forall in Hall. pose proof (byte_val_range a) as Hr. specialize (Hall (Z.to_nat (byte_val a))).
  rewrite Z2Nat.id in Hall by lia.
  assert (E : byte_of (byte_val a) = a) by apply byte_val_inj, byte_val_of, byte_val_range. cbn zeta in Hall.
  rewrite E, Ha in Hall. cbn [negb orb] in Hall. rewrite !andb_true_iff, Z.eqb_eq, Z.ltb_lt in Hall. destruct Hall as [[? ?] ?]; [|done..].
  apply in_seq. lia.
Qed.
Definition plain_code (s : string) : Prop := Forall (fun a => sender_char a = true) (bytes_of s).
Lemma plain_ascii s : plain_code s -> Forall (fun a => byte_val a < 128) (bytes_of s).
Proof. intros Hs. eapply list.Forall_impl; [exact Hs|]. intros a Ha. by apply upper_char_fixed. Qed.
Lemma plain_trim s : plain_code s -> TrimSpace s = s.
Proof.
  intros Hs. apply trimmed_TrimSpace. rewrite <- (string_of_bytes_of s). apply word_trimmed.
  eapply list.Forall_impl; [exact Hs|]. intros a Ha. by apply upper_char_fixed.
Qed.
Lemma plain_upper s : plain_code s -> ToUpper s = s.
Proof.
  intros Hs. Transparent ToUpper. unfold ToUpper. Opaque ToUpper. rewrite runes_plain by by apply plain_ascii.
  assert (E : map rune_upper (map byte_val (bytes_of s)) = map byte_val (bytes_of s)).
  { rewrite map_map. apply map_ext_in. intros a Ha. apply upper_char_fixed.
    unfold plain_code in Hs. rewrite List.Forall_forall in Hs. by apply Hs. }
  rewrite E, encode_plain by by apply plain_ascii. apply string_of_bytes_of.
Qed.
Lemma ReplaceByte_absent a b s : ~ In a (bytes_of s) -> ReplaceByte a b s = s.
Proof.
  induction s as [|c s IH]; [done|]. intros Hn. cbn [ReplaceByte].
  change (bytes_of (String c s)) with (c :: bytes_of s) in Hn. cbn [In] in Hn.
  rewrite (proj2 (Ascii.eqb_neq c a)) by tauto. f_equal. apply IH. tauto.
Qed.
Lemma plain_sender s : plain_code s -> ToUpper (ReplaceByte "-" "/" (TrimSpace s)) = s.
Proof.
  intros Hs. rewrite plain_trim by done. rewrite ReplaceByte_absent; [by apply plain_upper|].
  unfold plain_code in Hs. rewrite List.Forall_forall in Hs. intros Hin. by apply Hs in Hin.
Qed.
Lemma validSender_plain s : validSenderID s = true -> plain_code s.
Proof. unfold validSenderID. intros [Hs _]%andb_true_iff. rewrite forallb_forall in Hs. by apply List.Forall_forall. Qed.
Lemma validEvent_plain s : validEventCode s = true -> plain_code s.
Proof.
  unfold validEventCode. intros [Hs _]%andb_true_iff. rewrite forallb_forall in Hs. apply List.Forall_forall.
  intros a Ha. apply Hs in Ha. unfold event_char in Ha. unfold sender_char. by rewrite Ha.
Qed.
Lemma allowed_plain s : allowed_originator s = true -> plain_code s.
Proof. unfold allowed_originator. rewrite mem_spec. intros [<-|[<-|[<-|[<-|[]]]]]; by repeat constructor. Qed.

Lemma normalize_code_fixed ok v k w : (forall s, ok s = true -> plain_code s) ->
  normalize_code ok v = Some (k, w) -> k = w /\ normalize_code ok w = Some (w, w).
Proof.
  intros Hok. unfold normalize_code. destruct (ok (ToUpper (TrimSpace v))) eqn:E; [|done]. intros [= <- <-].
  split; [done|]. rewrite (plain_trim (ToUpper _)), plain_upper by by apply Hok. by rewrite E.
Qed.
Lemma normalize_cidr_fixed v k w : normalize_cidr v = Some (k, w) -> k = w /\ normalize_cidr w = Some (w, w).
Proof.
  unfold normalize_cidr. destruct (TrimSpace v =? "") eqn:E; [done|]. intros [= <- <-]. split; [done|].
  by rewrite TrimSpace_idem, E.
Qed.

(** *** Validating twice *)

Lemma originators_fixed v k w : normalize_code allowed_originator v = Some (k, w) ->
  k = w /\ normalize_code allowed_originator w = Some (w, w).
Proof. apply normalize_code_fixed, allowed_plain. Qed.
Lemma events_fixed v k w : normalize_code validEventCode v = Some (k, w) ->
  k = w /\ normalize_code validEventCode w = Some (w, w).
Proof. apply normalize_code_fixed, validEvent_plain. Qed.

Lemma originators_good l : existsb bad_originator (normalizeOriginators l) = false /\
  existsb (fun code => negb (allowed_originator (ToUpper (TrimSpace code)))) (normalizeOriginators l) = false /\
  normalizeOriginators (normalizeOriginators l) = normalizeOriginators l.
Proof.
  assert (Hall : forall w, In w (normalizeOriginators l) -> allowed_originator (ToUpper (TrimSpace w)) = true).
  { intros w Hw. destruct (normal_list_in _ originators_fixed l w Hw) as [E _]. unfold normalize_code in E.
    by destruct (allowed_originator (ToUpper (TrimSpace w))). }
  split_and!.
  - apply existsb_false. intros w Hw. unfold bad_originator. by rewrite (Hall w Hw), andb_false_r.
  - apply existsb_false. intros w Hw. by rewrite (Hall w Hw).
  - apply (normal_list_idem _ originators_fixed).
Qed.
Lemma events_good l : existsb (fun value => negb (validEventCode (ToUpper (TrimSpace value)))) (normalizeEventCodes l) = false /\
  normalizeEventCodes (normalizeEventCodes l) = normalizeEventCodes l.
Proof.
  split.
  - apply existsb_false. intros w Hw. destruct (normal_list_in _ events_fixed l w Hw) as [E _]. unfold normalize_code in E.
    by destruct (validEventCode (ToUpper (TrimSpace w))).
  - apply (normal_list_idem _ events_fixed).
Qed.
Lemma validCIDR_trim v : validCIDR (TrimSpace v) = validCIDR v.
Proof. unfold validCIDR. cbn [parseCIDRList]. by rewrite TrimSpace_idem. Qed.
Lemma cidrs_good l : existsb (fun cidr => negb (validCIDR cidr)) l = false ->
  existsb (fun cidr => negb (validCIDR cidr)) (normalizeCIDRs l) = false /\ normalizeCIDRs (normalizeCIDRs l) = normalizeCIDRs l.
Proof.
  intros Hl. split.
  - apply existsb_false. intros w Hw. destruct (normal_list_in _ normalize_cidr_fixed l w Hw) as [_ (v & Hv & E)].
    unfold normalize_cidr in E. destruct (TrimSpace v =? ""); [done|]. injection E as <-. rewrite validCIDR_trim.
    by apply (proj1 (existsb_false _ _) Hl).
  - apply (normal_list_idem _ normalize_cidr_fixed).
Qed.

(** A policy as it is stored: validating it changes nothing. *)
Definition normal (p : accountPolicy) : Prop := validatePolicy p = Ok p.

Ltac step_policy H :=
  match type of H with (if ?c then _ else _) = _ => destruct c eqn:?; [discriminate H|] end.
Lemma validatePolicy_normal p q : validatePolicy p = Ok q -> normal q.
Proof.
  unfold validatePolicy at 1. intros H. cbn zeta in H.
  set (name := TrimSpace (po_OriginatorNameText p)) in *.
  set (sender := ToUpper (ReplaceByte "-" "/" (TrimSpace (po_SenderID p)))) in *.
  repeat step_policy H. injection H as <-. unfold normal, validatePolicy.
  cbn [po_Username po_SenderID po_ForceSenderID po_AllowOrigination po_AllowedOriginators po_BlockedEventCodes
    po_ForceOriginatorName po_OriginatorNameText po_IncludeIPInBrackets po_CanViewLogs po_AllowPersistentSessions
    po_PasswordExpiryDays po_AllowUserPasswordChange po_LoggingEnabled po_IsAdmin po_CIDRWhitelist].
  rewrite TrimSpace_idem. destruct (originators_good (po_AllowedOriginators p)) as (O1 & _ & O2).
  destruct (events_good (po_BlockedEventCodes p)) as [E1 E2].
  destruct (cidrs_good (po_CIDRWhitelist p)) as [C1 C2]; [done|].
  rewrite O1, O2, E1, E2, C1, C2.
  assert (Hs : ToUpper (ReplaceByte "-" "/" (TrimSpace (if po_ForceSenderID p then sender else ""))) =
               if po_ForceSenderID p then sender else "").
  { destruct (po_ForceSenderID p); [|by vm_compute]. cbn [andb] in *. apply plain_sender, validSender_plain.
    by apply negb_false_iff. }
  assert (Hn : TrimSpace (if po_ForceOriginatorName p then name else "") = if po_ForceOriginatorName p then name else "")
    by (destruct (po_ForceOriginatorName p); [apply TrimSpace_idem|by vm_compute]).
  rewrite Hs, Hn. repeat match goal with E : ?c = false |- context [if ?c then _ else _] => rewrite E end.
  destruct (po_ForceSenderID p), (po_ForceOriginatorName p); cbn [andb] in *;
    repeat match goal with E : ?c = false |- context [if ?c then _ else _] => rewrite E end; done.
Qed.
Lemma validateAccount_normal a b : validateAccount a = Ok b ->
  normal (ac_policy b) /\ (ac_IsAdmin b = true -> ac_AccountLocked b = false) /\ ac_ID b = ac_ID a /\
  ac_authVersion b = ac_authVersion a.
Proof.
  unfold validateAccount. destruct (validatePolicy (ac_policy a)) as [p|e] eqn:E; [|done]. cbn [rbind]. intros [= <-].
  assert (Hadmin : po_IsAdmin p = po_IsAdmin (ac_policy a)).
  { unfold validatePolicy in E. cbn zeta in E. repeat step_policy E. by injection E as <-. }
  destruct a. unfold ac_IsAdmin. cbn in *. rewrite <- Hadmin. split_and!; [by eapply validatePolicy_normal| |done|done].
  by intros ->.
Qed.

(** A row with a normal policy is read back as it is. *)
Definition configured (a : Account) : Account := with_configured (negb (TrimSpace (ac_mfaSecret a) =? "")) a.
Lemma normal_scan a : normal (ac_policy a) -> scanAccount a = Ok (configured a).
Proof.
  unfold normal. intros H. unfold validatePolicy in H. cbn zeta in H. repeat step_policy H.
  injection H as H. pose proof (f_equal po_AllowedOriginators H) as H1. pose proof (f_equal po_BlockedEventCodes H) as H2.
  pose proof (f_equal po_CIDRWhitelist H) as H3. cbn in H1, H2, H3. clear H. unfold scanAccount. cbn zeta.
  destruct (originators_good (po_AllowedOriginators (ac_policy a))) as (_ & O1 & O2). rewrite H1 in O1. rewrite O1, H1, H2, H3.
  match goal with C : existsb _ (po_CIDRWhitelist _) = false |- _ => rewrite C end.
  unfold configured. destruct a as [i p ? ? ? ? ? ? ? ? ? ? ? ? ? ?]. by destruct p.
Qed.

(** ** Changes of the table *)

(** What a session of an account relies on. *)
Definition credentials (a : Account) : string * accountPolicy * bool * Z * string * string :=
  (ac_ID a, ac_policy a, ac_AccountLocked a, ac_PasswordChangedAt a, ac_passwordHash a, ac_mfaSecret a).
(** While the authentication version stays, so do the credentials, the second
    factor is not switched off, and its steps are not reset. *)
Record guarded (a b : Account) : Prop := {
  guarded_version : ac_authVersion a <= ac_authVersion b;
  guarded_same : ac_authVersion a = ac_authVersion b ->
    credentials a = credentials b /\ (ac_MFAEnabled a = true -> ac_MFAEnabled b = true) /\ ac_mfaLastStep a <= ac_mfaLastStep b }.
#[export] Instance guarded_preorder : PreOrder guarded.
Proof.
  split.
  - intros a. split; [lia|]. intros _. split_and!; [done|done|lia].
  - intros a b c [H1 H2] [H3 H4]. split; [lia|]. intros E.
    destruct H2 as (E1 & M1 & S1); [lia|]. destruct H4 as (E2 & M2 & S2); [lia|].
    split_and!; [congruence|auto|lia].
Qed.

(** A change of a row that is no edit of its policy. *)
Record row_change (a b : Account) : Prop := {
  change_guarded : guarded a b;
  change_id : ac_ID b = ac_ID a;
  change_policy : ac_policy b = ac_policy a;
  change_locked : ac_IsAdmin a = true -> ac_AccountLocked b = true -> ac_AccountLocked a = true }.
Definition saved (account : Account) (now : Z) (row : Account) : Account :=
  with_updated now (bump (with_policy (ac_policy account) (ac_AccountLocked account) (ac_MFAEnabled account) row)).
Definition other_admin (id : string) (us : users) : Prop :=
  exists k a, us !! k = Some a /\ k <> id /\ unlocked_admin a = true.

Inductive changes (us : users) : txn -> users -> Prop :=
| ch_insert a : us !! ac_ID a = None -> name_taken (ac_ID a) (ac_Username a) us = false ->
    changes us (TInsert a) (<[ac_ID a := a]> us)
| ch_save account now row : us !! ac_ID account = Some row -> name_taken (ac_ID account) (ac_Username account) us = false ->
    (ac_IsAdmin row && (negb (ac_IsAdmin account) || ac_AccountLocked account) = true -> other_admin (ac_ID account) us) ->
    changes us (TSave account now) (<[ac_ID account := saved account now row]> us)
| ch_row t id a b : us !! id = Some a -> row_change a b -> changes us t (<[id := b]> us)
| ch_delete id a : us !! id = Some a -> (ac_IsAdmin a = true -> other_admin id us) -> changes us (TDelete id) (delete id us).

Lemma update_if_Some id cond f us us' : update_if id cond f us = Some us' ->
  exists a, us !! id = Some a /\ cond a = true /\ us' = <[id := f a]> us.
Proof.
  unfold update_if. destruct (us !! id) as [a|]; [|done]. destruct (cond a) eqn:E; [|done]. intros [= <-]. by exists a.
Qed.
Lemma or_err_Ok {A} e (o : option A) a : or_err e o = Ok a -> o = Some a.
Proof. unfold or_err. destruct o; [|done]. by intros [= <-]. Qed.
Lemma other_admin_spec id us : requireOtherUnlockedAdministrator id us = Ok tt -> other_admin id us.
Proof.
  unfold requireOtherUnlockedAdministrator. destruct (existsb _ _) eqn:E; [|done]. intros _.
  apply existsb_exists in E as ([k a] & Hin & Hk). apply list_elem_of_In, elem_of_map_to_list in Hin.
  apply andb_true_iff in Hk as [Hk Ha]. exists k, a. split_and!; [done| |done]. intros ->. by rewrite String.eqb_refl in Hk.
Qed.

(** A conditional or unconditional update of one row. *)
Lemma update_changes t id cond f us us' : update_if id cond f us = Some us' ->
  (forall a, us !! id = Some a -> cond a = true -> row_change a (f a)) -> changes us t us'.
Proof. intros (a & Ha & Hc & ->)%update_if_Some Hf. by apply (ch_row _ _ _ a); [|apply Hf]. Qed.

(** Changes of a row that bump its version, and others. *)
Lemma bumped_change a b : ac_ID b = ac_ID a -> ac_policy b = ac_policy a -> ac_authVersion a < ac_authVersion b ->
  (ac_IsAdmin a = true -> ac_AccountLocked b = true -> ac_AccountLocked a = true) -> row_change a b.
Proof. intros. by split; [split; [lia|intros; lia]|..]. Qed.
Lemma record_failure_change lockAt window now a : row_change a (record_failure lockAt window now a).
Proof.
  unfold record_failure. destruct (failure_window now window a) as [attempts started].
  destruct (negb (ac_IsAdmin a) && negb (ac_AccountLocked a) && _) eqn:E; destruct a as [i p ip li pc l n e c cr u h s m v f].
  - apply bumped_change; [done|done|cbn; lia|]. intros Hadmin. by rewrite Hadmin in E.
  - split; [split; cbn; [lia|]|done..]. intros _. by split_and!.
Qed.

Lemma apply_changes postgres t us us' : apply postgres t us = Ok us' -> changes us t us'.
Proof.
  destruct t; cbn [apply]; intros H;
    try (apply or_err_Ok in H; eapply update_changes; [exact H|]; intros row _ Hcond; destruct row as [i p ? ? ? l n e ? ? ? h s m ver f];
         (by apply bumped_change; [done|done|cbn; lia|..]) || idtac).
  - unfold insert_row in H. destruct (bool_decide _) eqn:E1; [done|]. destruct (name_taken _ _ _) eqn:E2; [done|].
    cbn [orb] in H. injection H as <-. apply ch_insert; [|done]. apply bool_decide_eq_false in E1. by apply eq_None_not_Some.
  - unfold save_row in H. destruct (lockAdministratorMutation _ _ _); [|done]. cbn [rbind] in H.
    destruct (us !! ac_ID a) as [row|] eqn:Hrow; [|done]. cbn [or_err rbind] in H.
    assert (Hadmin : ac_IsAdmin row && (negb (ac_IsAdmin a) || ac_AccountLocked a) = true -> other_admin (ac_ID a) us).
    { intros E. rewrite E in H. destruct (requireOtherUnlockedAdministrator _ _) as [[]|] eqn:Ho; [|done]. by apply other_admin_spec. }
    match type of H with rbind _ ?m = _ => destruct m; [|done] end. cbn [rbind] in H. destruct (name_taken _ _ _) eqn:En; [done|].
    apply or_err_Ok, update_if_Some in H as (row' & Hrow' & _ & ->). rewrite Hrow in Hrow'. injection Hrow' as <-.
    by apply ch_save.
  - split; [split; cbn; [lia|]|done..]. intros _. by split_and!.
  - split; [split; cbn; [lia|]|done..]. intros _. by split_and!.
  - apply andb_true_iff in Hcond as [_ Hstep]. apply Z.ltb_lt in Hstep. cbn in Hstep.
    split; [split; cbn; [lia|]|done..]. intros _. split_and!; [done|done|lia].
  - unfold login_failure_row in H. destruct (us !! id) as [row|] eqn:Hrow; [|done]. cbn [or_err rbind] in H.
    destruct (_ && _); [done|]. injection H as <-. by apply (ch_row _ _ _ row); [|apply record_failure_change].
  - split; [split; cbn; [lia|]|done..]. intros _. by split_and!.
  - unfold delete_row in H. destruct (lockAdministratorMutation _ _ _); [|done]. cbn [rbind] in H.
    destruct (us !! id) as [row|] eqn:Hrow; [|done]. cbn [or_err rbind] in H.
    assert (Hadmin : ac_IsAdmin row = true -> other_admin id us).
    { intros E. rewrite E in H. destruct (requireOtherUnlockedAdministrator _ _) as [[]|] eqn:Ho; [|done]. by apply other_admin_spec. }
    match type of H with rbind _ ?m = _ => destruct m; [|done] end. cbn [rbind] in H. injection H as <-. by apply (ch_delete _ _ row).
Qed.

(** *** The table stays well formed *)

Definition row_ok (a : Account) : Prop :=
  normal (ac_policy a) /\ 1 <= ac_authVersion a /\ (ac_IsAdmin a = true -> ac_AccountLocked a = false).
Record table_ok (us : users) : Prop := {
  table_key id a : us !! id = Some a -> ac_ID a = id;
  table_row id a : us !! id = Some a -> row_ok a;
  table_names id id' a a' : us !! id = Some a -> us !! id' = Some a' ->
    lower (ac_Username a) = lower (ac_Username a') -> id = id' }.
Definition has_admin (us : users) : Prop := exists id a, us !! id = Some a /\ unlocked_admin a = true.

(** The accounts that are inserted and saved were validated. *)
Definition txn_ok (t : txn) : Prop :=
  match t with
  | TInsert a => row_ok a
  | TSave a _ => normal (ac_policy a) /\ (ac_IsAdmin a = true -> ac_AccountLocked a = false)
  | _ => True
  end.

Lemma name_free id name us : name_taken id name us = false ->
  forall k b, us !! k = Some b -> k <> id -> lower (ac_Username b) <> lower name.
Proof.
  unfold name_taken. rewrite existsb_false. intros Hf k b Hb Hk E.
  assert (Hin : In (k, b) (map_to_list us)) by by apply list_elem_of_In, elem_of_map_to_list.
  apply Hf in Hin. unfold same_name in Hin. cbn [fst snd] in Hin. rewrite E, String.eqb_refl, andb_true_r in Hin.
  apply negb_false_iff in Hin. by apply String.eqb_eq in Hin.
Qed.
(** A row is put in place. *)
Lemma table_ok_insert us id b : table_ok us -> ac_ID b = id -> row_ok b ->
  (forall k a, us !! k = Some a -> k <> id -> lower (ac_Username a) <> lower (ac_Username b)) -> table_ok (<[id := b]> us).
Proof.
  intros [Hk Hr Hn] Hid Hb Hfree. split.
  - intros k a [[<- <-]|[_ Ha]]%lookup_insert_Some; [done|by apply Hk].
  - intros k a [[<- <-]|[_ Ha]]%lookup_insert_Some; [done|by eapply Hr].
  - intros k k' a a' [[<- <-]|[Hne Ha]]%lookup_insert_Some [[<- <-]|[Hne' Ha']]%lookup_insert_Some E; [done| | |].
    + exfalso. by eapply (Hfree k' a').
    + exfalso. by eapply (Hfree k a).
    + by apply (Hn k k' a a').
Qed.
Lemma saved_facts account now row : ac_ID (saved account now row) = ac_ID row /\ ac_policy (saved account now row) = ac_policy account /\
  ac_authVersion (saved account now row) = ac_authVersion row + 1 /\ ac_AccountLocked (saved account now row) = ac_AccountLocked account.
Proof. by destruct row, account. Qed.
Lemma changes_ok us t us' : table_ok us -> txn_ok t -> changes us t us' -> table_ok us'.
Proof.
  intros Hok Ht Hc. destruct Hc as [a Ha Hn|account now row Hrow Hn _|t id a b Ha Hch|id a Ha _].
  - apply table_ok_insert; [done|done|done|]. by apply name_free.
  - destruct (saved_facts account now row) as (E1 & E2 & E3 & E4). destruct Ht as [Hnormal Hadmin].
    destruct (table_row us Hok _ _ Hrow) as (_ & Hv & _). apply table_ok_insert; [done| | |].
    + rewrite E1. by apply (table_key us Hok).
    + unfold row_ok, ac_IsAdmin. rewrite E2, E3, E4. split_and!; [done|lia|done].
    + unfold ac_Username at 2. rewrite E2. by apply name_free.
  - destruct Hch as [[Hv _] Hid Hp Hl]. destruct (table_row us Hok _ _ Ha) as (Hnormal & Hver & Hadmin).
    apply table_ok_insert; [done| | |].
    + rewrite Hid. by apply (table_key us Hok).
    + unfold row_ok, ac_IsAdmin. rewrite Hp. split_and!; [done|lia|]. intros E. destruct (ac_AccountLocked b) eqn:El; [|done].
      rewrite <- (Hl E eq_refl). by apply Hadmin.
    + intros k a' Ha' Hk E. unfold ac_Username at 2 in E. rewrite Hp in E. by apply Hk, (table_names us Hok k id a' a).
  - destruct Hok as [Hk Hr Hn]. split.
    + intros k b [_ Hb]%lookup_delete_Some. by apply Hk.
    + intros k b [_ Hb]%lookup_delete_Some. by eapply Hr.
    + intros k k' b b' [_ Hb]%lookup_delete_Some [_ Hb']%lookup_delete_Some. by apply Hn.
Qed.
Lemma changes_admin us t us' : table_ok us -> txn_ok t -> changes us t us' -> has_admin us -> has_admin us'.
Proof.
  intros Hok Ht Hc (k & c & Hk & Hadmin). destruct Hc as [a Ha _|account now row Hrow _ Hguard|t id a b Ha Hch|id a Ha Hguard].
  - exists k, c. rewrite lookup_insert_ne; [done|]. intros E. congruence.
  - destruct (decide (k = ac_ID account)) as [->|Hne]; [|exists k, c; by rewrite lookup_insert_ne].
    assert (c = row) as -> by congruence. apply andb_true_iff in Hadmin as [Hadmin Hunlocked].
    destruct (ac_IsAdmin account && negb (ac_AccountLocked account)) eqn:E.
    + exists (ac_ID account), (saved account now row). rewrite lookup_insert_eq. split; [done|].
      destruct (saved_facts account now row) as (_ & E2 & _ & E4). unfold unlocked_admin, ac_IsAdmin. by rewrite E2, E4.
    + destruct Hguard as (k' & c' & Hk' & Hne & Hc'); [|exists k', c'; by rewrite lookup_insert_ne].
      rewrite Hadmin. by destruct (ac_IsAdmin account), (ac_AccountLocked account).
  - destruct (decide (k = id)) as [->|Hne]; [|exists k, c; by rewrite lookup_insert_ne].
    assert (c = a) as -> by congruence. exists id, b. rewrite lookup_insert_eq. split; [done|].
    destruct Hch as [_ _ Hp Hl]. unfold unlocked_admin, ac_IsAdmin in *. rewrite Hp.
    apply andb_true_iff in Hadmin as [Hadmin Hunlocked]. rewrite Hadmin. cbn.
    destruct (ac_AccountLocked b) eqn:E; [|done]. by rewrite (Hl Hadmin eq_refl) in Hunlocked.
  - destruct (decide (k = id)) as [->|Hne]; [|exists k, c; by rewrite lookup_delete_ne].
    assert (c = a) as -> by congruence. apply andb_true_iff in Hadmin as [Hadmin _].
    destruct (Hguard Hadmin) as (k' & c' & Hk' & Hne & Hc'). exists k', c'. by rewrite lookup_delete_ne.
Qed.

(** What becomes of a row. *)
Lemma row_fate us t us' id a : changes us t us' -> us !! id = Some a ->
  (t = TDelete id /\ us' !! id = None) \/ exists b, us' !! id = Some b /\ guarded a b.
Proof.
  intros Hc Ha. destruct Hc as [c Hc _|account now row Hrow _ _|t id' c b Hc Hch|id' c Hc _].
  - right. exists a. rewrite lookup_insert_ne; [done|]. intros E. congruence.
  - right. destruct (decide (ac_ID account = id)) as [<-|Hne]; [|exists a; by rewrite lookup_insert_ne].
    assert (row = a) as -> by congruence. exists (saved account now a). rewrite lookup_insert_eq. split; [done|].
    destruct (saved_facts account now a) as (_ & _ & E & _). split; [lia|intros; lia].
  - right. destruct (decide (id' = id)) as [->|Hne]; [|exists a; by rewrite lookup_insert_ne].
    assert (c = a) as -> by congruence. exists b. rewrite lookup_insert_eq. split; [done|]. by destruct Hch.
  - destruct (decide (id' = id)) as [->|Hne]; [left; by rewrite lookup_delete_eq|right; exists a; by rewrite lookup_delete_ne].
Qed.
Lemma row_origin us t us' id b : changes us t us' -> us !! id = None -> us' !! id = Some b -> t = TInsert b /\ ac_ID b = id.
Proof.
  intros Hc Ha Hb. destruct Hc as [c Hc _|account now row Hrow _ _|t id' c d Hc Hch|id' c Hc _].
  - apply lookup_insert_Some in Hb as [[<- <-]|[_ Hb]]; [done|congruence].
  - apply lookup_insert_Some in Hb as [[<- <-]|[_ Hb]]; congruence.
  - apply lookup_insert_Some in Hb as [[<- <-]|[_ Hb]]; congruence.
  - apply lookup_delete_Some in Hb as [_ Hb]. congruence.
Qed.

(** ** The operations *)

Inductive operation :=
| OCreate (a : Account) (hash : string)
| OSave (a : Account)
| OSetPassword (id hash : string)
| OSetPasswordIf (id hash : string) (v : Z)
| OSetMFA (id secret : string) (enabled : bool)
| OSetMFAIf (id secret : string) (v : Z)
| OEnableMFA (id : string)
| OEnableMFAIf (id : string) (v : Z)
| OAcceptMFAStep (id : string) (v step : Z)
| OLoginFailure (id : string) (lockAt window now : Z)
| OLoginFailureIf (id : string) (v lockAt window now : Z)
| OLoginSuccess (id ip : string) (v : Z)
| OUnlock (id : string)
| OUnlockLockedIf (id : string) (v now : Z)
| OBump (id : string)
| ODelete (id : string).

Section operations.
Context `{Env} `{SecretTools} (postgres : bool).

Definition ignore {A} (m : M Store A) : M Store unit := let! _ := m in ret tt.
Definition perform (o : operation) : M Store unit :=
  match o with
  | OCreate a hash => ignore (Create postgres a hash)
  | OSave a => ignore (Save postgres a)
  | OSetPassword id hash => ignore (SetPassword postgres id hash)
  | OSetPasswordIf id hash v => ignore (SetPasswordIfAuthVersion postgres id hash v)
  | OSetMFA id secret enabled => ignore (SetMFA postgres id secret enabled)
  | OSetMFAIf id secret v => ignore (SetMFAIfAuthVersion postgres id secret v)
  | OEnableMFA id => ignore (EnableMFA postgres id)
  | OEnableMFAIf id v => ignore (EnableMFAIfAuthVersion postgres id v)
  | OAcceptMFAStep id v step => ignore (AcceptMFAStep postgres id v step)
  | OLoginFailure id lockAt window now => ignore (RecordLoginFailure postgres id lockAt window now)
  | OLoginFailureIf id v lockAt window now => ignore (RecordLoginFailureIfAuthVersion postgres id v lockAt window now)
  | OLoginSuccess id ip v => ignore (RecordLoginSuccess postgres id ip v)
  | OUnlock id => ignore (Unlock postgres id)
  | OUnlockLockedIf id v now => ignore (UnlockLockedIfAuthVersion postgres id v now)
  | OBump id => ignore (BumpAuthVersion postgres id)
  | ODelete id => ignore (Delete postgres id)
  end.
Definition perform_all (os : list operation) : M Store unit := for_each perform os.

(** An operation makes at most one change. *)
Definition one_change (P : txn -> Prop) {A} (m : M Store A) : Prop := forall s,
  st_users (m s).2 = st_users s \/
  exists t, P t /\ txn_ok t /\ changes (st_users s) t (st_users (m s).2).
Definition steady {A} (m : M Store A) : Prop := forall s, st_users (m s).2 = st_users s.

Lemma steady_world {A} (m : M World A) : steady (on_world m).
Proof. intros s. by rewrite on_world_eq. Qed.
Lemma one_change_steady P {A} (m : M Store A) : steady m -> one_change P m.
Proof. intros Hm s. left. apply Hm. Qed.
Lemma one_change_first P {A B} (m : M Store A) (f : A -> M Store B) :
  steady m -> (forall a, one_change P (f a)) -> one_change P (mbind f m).
Proof. intros Hm Hf s. rewrite mbind_eq, <- (Hm s). apply Hf. Qed.
(** The same when something is known of the value. *)
Lemma one_change_with P {A B} (Q : A -> Prop) (m : M Store A) (f : A -> M Store B) :
  (forall s, Q (m s).1) -> steady m -> (forall a, Q a -> one_change P (f a)) -> one_change P (mbind f m).
Proof. intros Hq Hm Hf s. rewrite mbind_eq, <- (Hm s). by apply Hf. Qed.
Lemma one_change_then P {A B} (m : M Store A) (f : A -> M Store B) :
  one_change P m -> (forall a, steady (f a)) -> one_change P (mbind f m).
Proof. intros Hm Hf s. rewrite mbind_eq, (Hf (m s).1 (m s).2). apply Hm. Qed.
Lemma steady_ret {A} (a : A) : steady (ret a).
Proof. by intros s. Qed.
Lemma steady_query {A} (f : users -> result storeError A) : steady (query f).
Proof. intros s. unfold query. rewrite mbind_eq, on_world_eq. cbn [fst snd]. by destruct (attempt (the_world s)).1. Qed.

Lemma exec_eq counted t s :
  (st_users (exec postgres counted t s).2 = st_users s /\ (exec postgres counted t s).1 <> Ok tt) \/
  apply postgres t (st_users s) = Ok (st_users (exec postgres counted t s).2).
Proof.
  unfold exec. rewrite mbind_eq, on_world_eq. cbn [fst snd].
  destruct (attempt (the_world s)).1; [by left|]. rewrite mbind_eq. cbn [gets fst snd].
  rewrite mbind_eq. cbn [st_users with_world Store_world].
  destruct (apply postgres t (st_users s)) as [us'|e]; cbn [fst snd].
  - right. rewrite mbind_eq. by destruct counted.
  - left. rewrite mbind_eq. destruct counted; cbn [fst snd ret]; [|done]. rewrite on_world_eq. cbn [fst snd].
    by destruct (attempt _).1.
Qed.
Lemma transaction_eq t s :
  (st_users (transaction postgres t s).2 = st_users s /\ (transaction postgres t s).1 <> Ok tt) \/
  (apply postgres t (st_users s) = Ok (st_users (transaction postgres t s).2) /\ (transaction postgres t s).1 = Ok tt).
Proof.
  unfold transaction. rewrite mbind_eq, on_world_eq. cbn [fst snd].
  destruct (attempt (the_world s)).1; [by left|]. rewrite mbind_eq. cbn [gets fst snd st_users with_world Store_world].
  destruct (apply postgres t (st_users s)) as [us'|e]; [|by left].
  rewrite mbind_eq, on_world_eq. cbn [fst snd]. destruct (attempt _).1; [by left|by right].
Qed.
Lemma one_change_exec (P : txn -> Prop) counted t : P t -> txn_ok t -> one_change P (exec postgres counted t).
Proof. intros Hp Ht s. destruct (exec_eq counted t s) as [[E _]|E]; [by left|right]. exists t. by apply apply_changes in E. Qed.
Lemma one_change_transaction (P : txn -> Prop) t : P t -> txn_ok t -> one_change P (transaction postgres t).
Proof. intros Hp Ht s. destruct (transaction_eq t s) as [[E _]|[E _]]; [by left|right]. exists t. by apply apply_changes in E. Qed.

#[local] Opaque exec transaction.
Definition deletes (id : string) (t : txn) : Prop := t = TDelete id.
(** Accounts are deleted by [Delete] and inserted by [Create] only. *)
Definition trimmed_id (id : string) : Prop := TrimSpace id = id.
Definition inserted_by (o : operation) (a : Account) : Prop :=
  exists b hash, o = OCreate b hash /\ (trimmed_id (ac_ID b) -> trimmed_id (ac_ID a)).
Definition change_of (o : operation) (t : txn) : Prop :=
  (forall id, deletes id t -> o = ODelete id) /\ (forall a, t = TInsert a -> inserted_by o a).
Lemma randomUUID_trimmed w id : (randomUUID w).1 = Some id -> trimmed_id id.
Proof.
  unfold randomUUID. rewrite mbind_eq. cbn [fst ret]. destruct (random_bytes 16 w).1 as [raw|]; [|done]. intros <-%(inj Some).
  apply word_TrimSpace. set (e := hex_Encode _). assert (He : words_only e) by apply words_hex.
  assert (Hpart : forall n m, words_only (take_bytes n (drop_bytes m e))).
  { intros n m. apply words_part. by apply words_part. }
  repeat first [apply Hpart|apply words_app|by apply words_part|by repeat constructor].
Qed.
#[local] Ltac plain_change :=
  repeat first [ apply one_change_then; [|intros ?; apply steady_ret]
               | apply one_change_first; [apply steady_world|intros ?]
               | apply one_change_exec; [by split; intros ? [=]|done] ].
Lemma perform_change o : one_change (change_of o) (perform o).
Proof.
  destruct o; cbn [perform]; unfold ignore, SetPassword, SetPasswordIfAuthVersion, SetMFA, SetMFAIfAuthVersion,
    EnableMFA, EnableMFAIfAuthVersion, AcceptMFAStep, RecordLoginSuccess, Unlock, BumpAuthVersion, checked; plain_change;
    try (case_match; [by apply one_change_steady, steady_ret|plain_change]).
  - unfold Create. destruct (validateAccount a) as [a'|e] eqn:E; [|by apply one_change_steady, steady_ret].
    destruct (TrimSpace hash =? ""); [by apply one_change_steady, steady_ret|]. plain_change.
    apply validateAccount_normal in E as (Hn & Hadmin & Hid & _).
    apply (one_change_with _ (fun o => forall id, o = Some id -> trimmed_id (ac_ID a) -> trimmed_id id)).
    + intros s id. rewrite Hid. destruct (ac_ID a =? ""); [|by intros [= <-]].
      rewrite on_world_eq. cbn [fst]. intros Hu _. by apply randomUUID_trimmed in Hu.
    + destruct (ac_ID a' =? ""); [apply steady_world|apply steady_ret].
    + intros [id|] Hid'; [|by apply one_change_steady, steady_ret]. apply one_change_exec.
      * split; [by intros ? [=]|]. intros ? [= <-]. exists a, hash. split; [done|]. by apply Hid'.
      * unfold txn_ok, row_ok, ac_IsAdmin in *. cbn [ac_policy ac_authVersion ac_AccountLocked]. split_and!; [done|lia|done].
  - unfold Save. destruct (validateAccount a) as [a'|e] eqn:E; [|by apply one_change_steady, steady_ret].
    apply one_change_first; [apply steady_world|intros t].
    apply one_change_transaction; [by split; intros ? [=]|]. apply validateAccount_normal in E as (Hn & Hadmin & _). done.
  - unfold RecordLoginFailure, recordLoginFailure. cbn zeta.
    apply one_change_first; [destruct (IsZero now); [apply steady_world|apply steady_ret]|]. intros t.
    apply one_change_then; [apply one_change_transaction; [by split; intros ? [=]|done]|].
    intros [|]; [apply steady_query|apply steady_ret].
  - unfold RecordLoginFailureIfAuthVersion. destruct (v <? 1)%Z; [by apply one_change_steady, steady_ret|].
    unfold recordLoginFailure. cbn zeta.
    apply one_change_first; [destruct (IsZero now); [apply steady_world|apply steady_ret]|]. intros t.
    apply one_change_then; [apply one_change_transaction; [by split; intros ? [=]|done]|].
    intros [|]; [apply steady_query|apply steady_ret].
  - unfold UnlockLockedIfAuthVersion. destruct (v <? 1)%Z; [by apply one_change_steady, steady_ret|].
    apply one_change_first; [destruct (IsZero now); [apply steady_world|apply steady_ret]|]. intros t. plain_change.
  - apply one_change_transaction; [by split; intros ? [= <-]|done].
Qed.

Lemma perform_all_ind (P : users -> Prop) os s : P (st_users s) ->
  (forall o us t us', In o os -> P us -> change_of o t -> txn_ok t -> changes us t us' -> P us') ->
  P (st_users (perform_all os s).2).
Proof.
  revert s. induction os as [|o os IH]; intros s Hs Hstep; [done|]. cbn [perform_all for_each]. rewrite mbind_eq.
  apply IH; [|intros; eapply Hstep; [by right|done..]].
  destruct (perform_change o s) as [E|(t & Ho & Ht & Hc)]; [by rewrite E|]. by eapply Hstep; [left|..].
Qed.
Lemma guarded_through os s id a : st_users s !! id = Some a -> Forall (fun o => o <> ODelete id) os ->
  exists b, st_users (perform_all os s).2 !! id = Some b /\ guarded a b.
Proof.
  intros Ha Hos. apply (perform_all_ind (fun us => exists b, us !! id = Some b /\ guarded a b)); [by exists a|].
  intros o us t us' Ho (b & Hb & Hg) Ht _ Hc.
  destruct (row_fate us t us' id b Hc Hb) as [[-> _]|(c & Hc' & Hg')].
  - exfalso. rewrite List.Forall_forall in Hos. by apply (Hos o Ho), Ht.
  - exists c. split; [done|]. by trans b.
Qed.

Lemma accounts_table_step o s : table_ok (st_users s) -> table_ok (st_users (perform o s).2).
Proof. intros Hs. destruct (perform_change o s) as [->|(t & _ & Ht & Hc)]; [done|]. by eapply changes_ok. Qed.

(** C17: whatever operations are made on the accounts, whichever of their steps
    fail, the table stays well formed: names are unique up to case, every policy is
    valid and normal, versions are positive, administrators are not locked; and an
    administrator who can sign in is left if there was one. *)
Theorem accounts_well_formed os s : table_ok (st_users s) ->
  table_ok (st_users (perform_all os s).2) /\ (has_admin (st_users s) -> has_admin (st_users (perform_all os s).2)).
Proof.
  intros Hs. split.
  - apply perform_all_ind; [done|]. intros o us t us' _ Hok _ Ht Hc. by eapply changes_ok.
  - intros Hadmin. apply (perform_all_ind (fun us => table_ok us /\ has_admin us)); [done|].
    intros o us t us' _ [Hok Ha] _ Ht Hc. split; [by eapply changes_ok|by eapply changes_admin].
Qed.

(** C13: the authentication version of an account that is not deleted never falls,
    and while it stays the same so do the account's name, policy, role, lock,
    password and second-factor secret; the second factor is not switched off and
    the last step it accepted does not fall. *)
Theorem version_guards os s id a b : st_users s !! id = Some a -> Forall (fun o => o <> ODelete id) os ->
  st_users (perform_all os s).2 !! id = Some b ->
  ac_authVersion a <= ac_authVersion b /\
  (ac_authVersion a = ac_authVersion b ->
   credentials a = credentials b /\ (ac_MFAEnabled a = true -> ac_MFAEnabled b = true) /\ ac_mfaLastStep a <= ac_mfaLastStep b).
Proof.
  intros Ha Hos Hb. destruct (guarded_through os s id a Ha Hos) as (b' & Hb' & [Hv Hsame]).
  assert (b' = b) as -> by congruence. by split.
Qed.

Lemma accepted_step id v step s : (AcceptMFAStep postgres id v step s).1 = Ok tt ->
  exists a b, st_users s !! id = Some a /\ ac_authVersion a = v /\ ac_mfaLastStep a < step /\
    st_users (AcceptMFAStep postgres id v step s).2 !! id = Some b /\ ac_authVersion b = v /\ ac_mfaLastStep b = step.
Proof.
  unfold AcceptMFAStep, checked. destruct (v <? 1)%Z; [done|]. rewrite mbind_eq, on_world_eq. cbn [fst snd].
  set (s1 := with_world _ s). set (t := TAcceptStep _ _ _ _). destruct (exec_eq true t s1) as [[_ Hf]|E]; [done|]. intros _.
  cbn [apply t] in E. apply or_err_Ok, update_if_Some in E as (a & Ha & Hc & ->).
  apply andb_true_iff in Hc as [Hc Hstep]. apply andb_true_iff in Hc as [Hv _].
  apply Z.ltb_lt in Hstep. apply Z.eqb_eq in Hv. exists a. eexists. rewrite lookup_insert_eq. by destruct a.
Qed.

(** *** Creating and looking up *)

Lemma by_username_found us id a name : table_ok us -> us !! id = Some a ->
  lower (ac_Username a) = lower (TrimSpace name) -> by_username name us = Ok (configured a).
Proof.
  intros Hok Ha Hname. unfold by_username. destruct (find _ (map_to_list us)) as [[k b]|] eqn:E.
  - apply find_some in E as [Hin E]. apply list_elem_of_In, elem_of_map_to_list in Hin.
    unfold same_name in E. cbn [fst snd] in E. apply String.eqb_eq in E.
    assert (k = id) as -> by (apply (table_names us Hok k id b a Hin Ha); congruence).
    assert (b = a) as -> by congruence. cbn [or_err rbind snd]. apply normal_scan. by destruct (table_row us Hok id a Ha).
  - exfalso. assert (Hin : In (id, a) (map_to_list us)) by by apply list_elem_of_In, elem_of_map_to_list.
    eapply find_none in E; [|exact Hin]. unfold same_name in E. cbn [fst snd] in E. by rewrite Hname, String.eqb_refl in E.
Qed.

(** An account that was created is found by its name, in any case and with
    blanks around it, with the normal form of its policy and its password hash. *)
Theorem created_account_found a hash name s : table_ok (st_users s) -> (Create postgres a hash s).1 = Ok tt ->
  lower (TrimSpace name) = lower (TrimSpace (ac_Username a)) ->
  exists p row, validatePolicy (ac_policy a) = Ok p /\ by_username name (st_users (Create postgres a hash s).2) = Ok row /\
    ac_policy row = p /\ ac_passwordHash row = hash /\ 1 <= ac_authVersion row /\
    (ac_IsAdmin row = true -> ac_AccountLocked row = false).
Proof.
  intros Hok. pose proof (accounts_table_step (OCreate a hash) s Hok) as Hok'. revert Hok'. cbn [perform]. unfold ignore.
  rewrite mbind_eq. cbn [fst snd ret]. unfold Create.
  destruct (validateAccount a) as [b|e] eqn:E; [|done]. destruct (TrimSpace hash =? ""); [done|].
  rewrite mbind_eq, on_world_eq. cbn [fst snd]. rewrite mbind_eq.
  set (m := if ac_ID b =? "" then _ else _). set (s1 := with_world _ s).
  assert (Hm : st_users (m s1).2 = st_users s) by (unfold m; destruct (ac_ID b =? ""); [by rewrite steady_world|done]).
  destruct (m s1) as [[id|] s2]; cbn [fst snd] in *; [|done]. set (row := MkAccount _ _ _ _ _ _ _ _ _ _ _ _ _ _ _ _).
  intros Hok' Hr Hname. destruct (exec_eq false (TInsert row) s2) as [[_ Hf]|Hx]; [done|].
  pose proof E as Hval. unfold validateAccount in Hval.
  destruct (validatePolicy (ac_policy a)) as [p|] eqn:Ep; [|done]. cbn [rbind] in Hval. injection Hval as Hval.
  assert (Hp : ac_policy b = p) by (rewrite <- Hval; by destruct a).
  assert (Hu : po_Username p = TrimSpace (ac_Username a)).
  { unfold validatePolicy in Ep. cbn zeta in Ep. repeat step_policy Ep. by injection Ep as <-. }
  cbn [apply] in Hx. unfold insert_row in Hx. destruct (_ || _); [done|]. injection Hx as Hx.
  exists p, (configured row). split; [done|]. split.
  - apply (by_username_found _ (ac_ID row)); [done|by rewrite <- Hx, lookup_insert_eq|].
    unfold ac_Username at 1. cbn [row ac_policy]. by rewrite Hp, Hu.
  - unfold configured. cbn [row with_configured ac_policy ac_passwordHash ac_authVersion]. split_and!; [done|done|lia|].
    apply validateAccount_normal in E as (_ & Hadmin & _). done.
Qed.

(** *** Lock-out *)

Section no_faults.
Context (Hfault : forall n, fault n = None).
Lemma transaction_no_fault t s us' : apply postgres t (st_users s) = Ok us' ->
  st_users (transaction postgres t s).2 = us'.
Proof.
  #[local] Transparent transaction. unfold transaction. #[local] Opaque transaction. intros E.
  rewrite mbind_eq, on_world_eq. cbn [fst snd]. unfold attempt at 1. cbn [fst]. rewrite Hfault.
  rewrite mbind_eq. cbn [gets fst snd st_users with_world Store_world]. rewrite E.
  rewrite mbind_eq, on_world_eq. cbn [fst snd]. unfold attempt at 1. cbn [fst]. by rewrite Hfault.
Qed.
Lemma perform_failure id lockAt window now s a : IsZero now = false -> 0 < lockAt -> 0 < window -> st_users s !! id = Some a ->
  st_users (perform (OLoginFailure id lockAt window now) s).2 !! id = Some (record_failure lockAt window now a).
Proof.
  intros Hnow Hlock Hwindow Ha. cbn [perform]. unfold ignore, RecordLoginFailure, recordLoginFailure. cbn zeta.
  rewrite mbind_eq. cbn [fst snd ret]. rewrite mbind_eq, Hnow. cbn [fst snd ret].
  rewrite (proj2 (Z.leb_gt lockAt 0)), (proj2 (Z.leb_gt window 0)) by lia. rewrite mbind_eq.
  set (t := TLoginFailure _ _ _ _ _). assert (E : apply postgres t (st_users s) = Ok (<[id := record_failure lockAt window now a]> (st_users s))).
  { cbn [apply t]. unfold login_failure_row. by rewrite Ha. }
  pose proof (transaction_no_fault t s _ E) as Hs.
  destruct (transaction postgres t s) as [[r|e] s1]; cbn [fst snd ret] in *; [|by rewrite Hs, lookup_insert_eq].
  unfold ByID. rewrite (steady_query _ s1), Hs. apply lookup_insert_eq.
Qed.

Lemma record_failure_counts lockAt window now a k started : failure_window now window a = (k, started) ->
  ac_IsAdmin a = false -> ac_AccountLocked a = false ->
  let b := record_failure lockAt window now a in
  ac_IsAdmin b = false /\ ac_FailedLoginAttempts b = k + 1 /\ ac_AccountLocked b = (lockAt <=? k + 1)%Z /\
  ac_authVersion b = ac_authVersion a + (if (lockAt <=? k + 1)%Z then 1 else 0) /\
  ((lockAt <=? k + 1)%Z = false -> ac_failedLoginWindowStartedAt b = started).
Proof.
  cbn zeta. unfold record_failure. intros -> Hadmin Hopen. rewrite Hadmin, Hopen. cbn [negb andb].
  destruct a. unfold ac_IsAdmin in *. cbn in *. destruct (lockAt <=? k + 1)%Z; cbn; split_and!; done || lia.
Qed.
Lemma failures_counted id lockAt window t0 ts : 0 < window -> IsZero t0 = false ->
  Forall (fun t => IsZero t = false /\ t0 <= t /\ Sub t t0 < window) ts ->
  forall n a s, st_users s !! id = Some a -> ac_IsAdmin a = false -> ac_AccountLocked a = false ->
    ac_failedLoginWindowStartedAt a = t0 -> ac_FailedLoginAttempts a = Z.of_nat n -> Z.of_nat n < lockAt ->
    Z.of_nat (n + length ts) <= lockAt ->
    exists b, st_users (perform_all (map (OLoginFailure id lockAt window) ts) s).2 !! id = Some b /\
      ac_FailedLoginAttempts b = Z.of_nat (n + length ts) /\
      ac_AccountLocked b = (lockAt <=? Z.of_nat (n + length ts))%Z /\
      ac_authVersion b = ac_authVersion a + (if (lockAt <=? Z.of_nat (n + length ts))%Z then 1 else 0).
Proof.
  intros Hwindow Ht0 Hts. induction Hts as [|t ts (Ht & Hle & Hsub) Hts IH]; intros n a s Ha Hadmin Hopen Hstart Hn Hlt Hmax.
  - exists a. cbn [length]. rewrite Nat.add_0_r, (proj2 (Z.leb_gt _ _)) by lia. split_and!; [done..|lia].
  - cbn [map perform_all for_each]. rewrite mbind_eq. fold (perform_all (map (OLoginFailure id lockAt window) ts)).
    assert (Hw : failure_window t window a = (Z.of_nat n, t0)).
    { unfold failure_window. rewrite Hstart, Ht0, Hn. unfold Before. rewrite (proj2 (Z.ltb_ge _ _)), (proj2 (Z.leb_gt _ _)) by lia. done. }
    pose proof (record_failure_counts lockAt window t a _ _ Hw Hadmin Hopen) as (C1 & C2 & C3 & C4 & C5).
    pose proof (perform_failure id lockAt window t s a Ht ltac:(lia) Hwindow Ha) as Hb.
    cbn [length] in Hmax. destruct (lockAt <=? Z.of_nat n + 1)%Z eqn:El.
    + apply Z.leb_le in El. destruct ts as [|]; [|cbn [length] in Hmax; lia].
      exists (record_failure lockAt window t a). cbn [length]. rewrite (proj2 (Z.leb_le _ _)) by lia.
      split_and!; [done|lia|done|done].
    + specialize (C5 eq_refl). apply Z.leb_gt in El.
      destruct (IH (S n) _ _ Hb C1 C3 C5) as (b & Hb' & D1 & D2 & D3); [lia|lia|lia|].
      exists b. cbn [length]. replace (n + S (length ts))%nat with (S n + length ts)%nat by lia.
      split_and!; [done|done|done|]. rewrite D3, C4. lia.
Qed.

(** C33: repeated failures to sign in lock an account.  When [lockAt] failures or
    fewer are recorded within the window for an account with none before, all of
    them are counted; the account is locked by the last of [lockAt], and by no
    earlier one, which also ends its sessions, as its version grows. *)
Theorem repeated_failures_lock id lockAt window a t0 ts s : st_users s !! id = Some a ->
  ac_IsAdmin a = false -> ac_AccountLocked a = false -> ac_failedLoginWindowStartedAt a = zeroTime ->
  0 < window -> IsZero t0 = false -> Forall (fun t => IsZero t = false /\ t0 <= t /\ Sub t t0 < window) ts ->
  Z.of_nat (S (length ts)) <= lockAt ->
  exists b, st_users (perform_all (map (OLoginFailure id lockAt window) (t0 :: ts)) s).2 !! id = Some b /\
    ac_FailedLoginAttempts b = Z.of_nat (S (length ts)) /\
    ac_AccountLocked b = (lockAt <=? Z.of_nat (S (length ts)))%Z /\
    ac_authVersion b = ac_authVersion a + (if (lockAt <=? Z.of_nat (S (length ts)))%Z then 1 else 0).
Proof.
  intros Ha Hadmin Hopen Hzero Hwindow Ht0 Hts Hn.
  assert (Hw : failure_window t0 window a = (0, t0)) by (unfold failure_window; by rewrite Hzero).
  pose proof (record_failure_counts lockAt window t0 a _ _ Hw Hadmin Hopen) as (C1 & C2 & C3 & C4 & C5).
  pose proof (perform_failure id lockAt window t0 s a Ht0 ltac:(lia) Hwindow Ha) as Hb.
  cbn [map perform_all for_each]. rewrite mbind_eq. fold (perform_all (map (OLoginFailure id lockAt window) ts)).
  change (0 + 1) with 1 in *. destruct (lockAt <=? 1)%Z eqn:El.
  - apply Z.leb_le in El. destruct ts as [|]; [|cbn [length] in Hn; lia].
    exists (record_failure lockAt window t0 a). cbn [length]. rewrite (proj2 (Z.leb_le _ _)) by lia.
    split_and!; [done|lia|done|done].
  - specialize (C5 eq_refl). apply Z.leb_gt in El.
    destruct (failures_counted id lockAt window t0 ts Hwindow Ht0 Hts 1 _ _ Hb C1 C3 C5) as (b & Hb' & D1 & D2 & D3); [lia|lia|lia|].
    exists b. change (1 + length ts)%nat with (S (length ts)) in *. split_and!; [done|done|done|]. rewrite D3, C4. lia.
Qed.
End no_faults.
End operations.

(** ** Witnesses *)

Definition demo_policy (name : string) (admin : bool) : accountPolicy :=
  MkPolicy name "" false false [] [] false "" false false false 90 true true admin [].
Definition demo_account (name : string) (admin : bool) : Account :=
  MkAccount "" (demo_policy name admin) "" zeroTime zeroTime false 0 false false zeroTime zeroTime "" "" 0 0 zeroTime.
Definition demo_empty : Store := MkStore (MkWorld 0 0 ∅ [] None) ∅.
Lemma demo_empty_ok : table_ok (st_users demo_empty).
Proof. split; intros *; cbn [st_users demo_empty]; by rewrite lookup_empty. Qed.

(** An administrator and an operator. *)
Definition demo_staff : Store :=
  (perform_all false [OCreate (demo_account " Root " true) "h1"; OCreate (demo_account "op" false) "h2"] demo_empty).2.
Definition id_of (name : string) (s : Store) : string :=
  match by_username name (st_users s) with Ok a => ac_ID a | Err _ => "" end.
Definition row_of (name : string) (s : Store) : option Account :=
  match by_username name (st_users s) with Ok a => Some a | Err _ => None end.
Lemma demo_staff_ok : table_ok (st_users demo_staff) /\ has_admin (st_users demo_staff).
Proof.
  split.
  - apply (perform_all_ind false table_ok); [apply demo_empty_ok|]. intros o us t us' _ Hok _ Ht Hc. by eapply changes_ok.
  - exists (id_of "root" demo_staff). eexists. split; by vm_compute.
Qed.
Lemma accounts_well_formed_witness :
  table_ok (st_users (perform_all false [OBump (id_of "op" demo_staff); ODelete (id_of "root" demo_staff)] demo_staff).2) /\
  has_admin (st_users (perform_all false [OBump (id_of "op" demo_staff); ODelete (id_of "root" demo_staff)] demo_staff).2).
Proof.
  destruct (accounts_well_formed false [OBump (id_of "op" demo_staff); ODelete (id_of "root" demo_staff)] demo_staff) as [H1 H2];
    [apply demo_staff_ok|]. split; [exact H1|apply H2, demo_staff_ok].
Defined.

Definition op : string := id_of "op" demo_staff.
(** The second factor of the operator is set, which is version 2. *)
Definition demo_mfa : Store := (perform false (OSetMFA op "secret" true) demo_staff).2.
Lemma version_guards_witness : exists a b, st_users demo_staff !! op = Some a /\ st_users demo_mfa !! op = Some b /\
  ac_authVersion a <= ac_authVersion b /\
  (ac_authVersion a = ac_authVersion b ->
   credentials a = credentials b /\ (ac_MFAEnabled a = true -> ac_MFAEnabled b = true) /\ ac_mfaLastStep a <= ac_mfaLastStep b).
Proof.
  destruct (st_users demo_staff !! op) as [a|] eqn:Ha; [|exfalso; by vm_compute in Ha].
  destruct (st_users demo_mfa !! op) as [b|] eqn:Hb; [|exfalso; by vm_compute in Hb].
  exists a, b. split; [done|]. split; [done|].
  apply (version_guards false [OSetMFA op "secret" true] demo_staff op a b Ha ltac:(by repeat constructor) Hb).
Defined.
Definition demo_stepped : Store := (perform false (OAcceptMFAStep op 2 57000000) demo_mfa).2.
Lemma repeated_failures_lock_witness :
  exists b, st_users (perform_all false (map (OLoginFailure op 3 (15 * Minute)) [100 * Second; 160 * Second; 170 * Second]) demo_staff).2 !! op = Some b /\
    ac_FailedLoginAttempts b = 3 /\ ac_AccountLocked b = true /\ ac_authVersion b = 2.
Proof.
  assert (Ha : match st_users demo_staff !! op with
               | Some a => negb (ac_IsAdmin a) && negb (ac_AccountLocked a) && (ac_failedLoginWindowStartedAt a =? zeroTime)%Z &&
                           (ac_authVersion a =? 1)%Z
               | None => false
               end = true) by by vm_compute.
  destruct (st_users demo_staff !! op) as [a|] eqn:E; [|done]. rewrite !andb_true_iff, !negb_true_iff, !Z.eqb_eq in Ha.
  destruct Ha as [[[H1 H2] H3] H4].
  destruct (repeated_failures_lock false ltac:(done) op 3 (15 * Minute) a (100 * Second) [160 * Second; 170 * Second] demo_staff E H1 H2 H3)
    as (b & Hb & B1 & B2 & B3); [done|done|by repeat constructor|done|].
  exists b. rewrite H4 in B3. by split_and!.
Defined.
Lemma created_account_found_witness : exists p row, validatePolicy (demo_policy " Root " true) = Ok p /\
  by_username " rOOt" (st_users (Create false (demo_account " Root " true) "h1" demo_empty).2) = Ok row /\
  ac_policy row = p /\ ac_passwordHash row = "h1" /\ 1 <= ac_authVersion row /\ (ac_IsAdmin row = true -> ac_AccountLocked row = false).
Proof. apply (created_account_found false (demo_account " Root " true) "h1" " rOOt"); [apply demo_empty_ok|by vm_compute|by vm_compute]. Defined.

(** What the code does not do: [Save] writes back the lock and the second factor
    that its caller read before, whatever became of them since.  An account that is
    locked, or that confirms its second factor, while its policy is edited comes
    out unlocked, or without a second factor. *)
Definition edited (name : string) (s : Store) : operation :=
  match by_username name (st_users s) with Ok a => OSave a | Err _ => OBump "" end.
Example stale_save_unlocks :
  let failures := map (OLoginFailure op 3 (15 * Minute)) [100 * Second; 160 * Second; 170 * Second] in
  let locked := (perform_all false failures demo_staff).2 in
  option_map ac_AccountLocked (row_of "op" locked) = Some true /\
  option_map ac_AccountLocked (row_of "op" (perform false (edited "op" demo_staff) locked).2) = Some false.
Proof. by vm_compute. Qed.
Example stale_save_drops_second_factor :
  let pending := (perform false (OSetMFA op "secret" false) demo_staff).2 in
  let confirmed := (perform false (OEnableMFAIf op 2) pending).2 in
  option_map ac_MFAEnabled (row_of "op" confirmed) = Some true /\
  option_map ac_MFAEnabled (row_of "op" (perform false (edited "op" pending) confirmed).2) = Some false.
Proof. by vm_compute. Qed.
