(* ===== verification/Sessions.v ===== *)
(** The memory of the web gateway's accounts mode: the registry of sessions
    ([memorySessionRegistry] of [internal/webgateway/session_registry.go]) and the
    limiter of attempts ([attemptLimiter] of [internal/webgateway/account_auth.go]).

    Each operation runs under its mutex.  A map is a finite map, which is visited
    in the order of its keys where Go visits it in any order. *)

From stdpp Require Import stringmap sorting.
From S2P Require Import Prelude UnicodeTables GoStrings SampleCodec GoTime GoValue GoPath GoCrypto.
From S2P Require Import AlertPacket PlaylistModel World AlertRequest AudioRetention PlannerState AlertCommit Wav AudioFiles AuditLog.

#[local] Open Scope Z_scope.
#[local] Open Scope string_scope.
#[local] Open Scope haze_scope.

(** ** Sessions *)

Record ActiveSession := MkSession {
  as_ID : string; as_UserID : string; as_Username : string; as_IP : string; as_UserAgent : string;
  as_Persistent : bool; as_AuthVersion : Z; as_CreatedAt : Z; as_LastSeenAt : Z; as_ExpiresAt : Z }.
Definition with_session_ID (id : string) '(MkSession _ u n ip ua p v c l x) : ActiveSession := MkSession id u n ip ua p v c l x.
Definition with_seen (t : Z) '(MkSession id u n ip ua p v c _ x) : ActiveSession := MkSession id u n ip ua p v c t x.
Abbreviation registry := (gmap string ActiveSession).

Definition sessionIDDigest (raw : string) : string :=
  let raw := TrimSpace raw in if raw =? "" then "" else RawURL_Encode (sha256 raw).

(** [cleanupLocked]. *)
Definition cleanup_sessions (now : Z) (r : registry) : registry :=
  base.filter (fun '(_, session) => After (as_ExpiresAt session) now = true) r.
Definition Put (raw : string) (session : ActiveSession) (now : Z) (r : registry) : option registry :=
  let digest := sessionIDDigest raw in
  if digest =? "" then None else Some (<[digest := with_session_ID digest session]> (cleanup_sessions now r)).
Definition Get (raw : string) (now : Z) (r : registry) : option ActiveSession * registry :=
  let r := cleanup_sessions now r in (r !! sessionIDDigest raw, r).
(** The second component tells whether the session was found. *)
Definition Touch (raw : string) (lastSeen : Z) (r : registry) : registry * bool :=
  let digest := sessionIDDigest raw in
  match r !! digest with
  | Some session =>
      if After (as_ExpiresAt session) lastSeen then (<[digest := with_seen lastSeen session]> r, true)
      else (delete digest r, false)
  | None => (delete digest r, false)
  end.
Definition DeleteDigest (digest : string) (r : registry) : registry := delete (TrimSpace digest) r.
Definition DeleteSession (raw : string) (r : registry) : registry := DeleteDigest (sessionIDDigest raw) r.
Definition DeleteUser (userID : string) (r : registry) : registry :=
  base.filter (fun '(_, session) => as_UserID session <> userID) r.
(** [ListUser], most recently seen first. *)
Definition seen_later (a b : ActiveSession) : Prop := as_LastSeenAt b <= as_LastSeenAt a.
#[export] Instance seen_later_dec : RelDecision seen_later.
Proof. intros a b. unfold seen_later. apply _. Defined.
Definition ListUser (userID : string) (now : Z) (r : registry) : list ActiveSession * registry :=
  let r := cleanup_sessions now r in
  (merge_sort seen_later (List.filter (fun session => as_UserID session =? userID) (map snd (map_to_list r))), r).

(** ** Attempts *)

(** The times of the attempts of each key, oldest first. *)
Abbreviation limiter := (gmap string (list Z)).
Definition maxAttemptLimiterKeys : nat := 4096.

Definition recent (window now : Z) (times : list Z) : list Z :=
  List.filter (fun t => After t (Add now (- window))) times.
Definition pruneLocked (window now : Z) (l : limiter) : limiter :=
  omap (fun times => match recent window now times with [] => None | kept => Some kept end) l.
(** The key whose last attempt is the oldest; one without attempts is taken at
    once. *)
Fixpoint oldest_key (entries : list (string * list Z)) (best : option (string * Z)) : string :=
  match entries with
  | [] => from_option fst "" best
  | (key, times) :: entries' =>
      match list.last times with
      | None => key
      | Some latest =>
          oldest_key entries'
            (match best with
             | Some (k, oldest) => if negb (k =? "") && negb (Before latest oldest) then best else Some (key, latest)
             | None => Some (key, latest)
             end)
      end
  end.
Definition admitKeyLocked (key : string) (l : limiter) : limiter :=
  if bool_decide (is_Some (l !! key)) || (size l <? maxAttemptLimiterKeys)%nat then l
  else delete (oldest_key (map_to_list l) None) l.
Definition Allow (key : string) (limit window now : Z) (l : limiter) : bool * limiter :=
  if (limit <=? 0)%Z || (window <=? 0)%Z then (true, l)
  else
    let l := pruneLocked window now l in
    let times := default [] (l !! key) in
    if (limit <=? Z.of_nat (length times))%Z then (false, l)
    else let l := admitKeyLocked key l in (true, <[key := (times ++ [now])%list]> l).
Definition Reset (key : string) (l : limiter) : limiter := delete key l.
Definition ResetPrefix (prefix : string) (l : limiter) : limiter :=
  base.filter (fun '(key, _) => HasPrefix key prefix = false) l.

(** ** What a registry does

    The operations with the times the handlers read, and what they leave for one
    digest. *)

Inductive registry_op :=
  | RPut (raw : string) (session : ActiveSession) (now : Z)
  | RGet (raw : string) (now : Z)
  | RTouch (raw : string) (lastSeen : Z)
  | RDelete (raw : string)
  | RDeleteUser (userID : string)
  | RListUser (userID : string) (now : Z).
Definition run_op (r : registry) (op : registry_op) : registry :=
  match op with
  | RPut raw session now => default r (Put raw session now r)
  | RGet raw now => (Get raw now r).2
  | RTouch raw lastSeen => (Touch raw lastSeen r).1
  | RDelete raw => DeleteSession raw r
  | RDeleteUser userID => DeleteUser userID r
  | RListUser userID now => (ListUser userID now r).2
  end.
Definition run_ops : list registry_op -> registry -> registry := fun ops r => fold_left run_op ops r.
Definition op_time (op : registry_op) : option Z :=
  match op with
  | RPut _ _ t | RGet _ t | RTouch _ t | RListUser _ t => Some t
  | _ => None
  end.
(** No time goes back, and none is after [finish]. *)
Fixpoint timed (ops : list registry_op) (start finish : Z) : Prop :=
  match ops with
  | [] => start <= finish
  | op :: ops' => start <= default start (op_time op) /\ timed ops' (default start (op_time op)) finish
  end.

(** The session that stands for a digest, whatever its expiry. *)
Definition not_of (userID : string) (s : option ActiveSession) : option ActiveSession :=
  session ← s; if as_UserID session =? userID then None else Some session.
Definition standing_step (d : string) (s : option ActiveSession) (op : registry_op) : option ActiveSession :=
  match op with
  | RPut raw session _ => if sessionIDDigest raw =? d then Some (with_session_ID d session) else s
  | RTouch raw t => if sessionIDDigest raw =? d then with_seen t <$> s else s
  | RDelete raw => if sessionIDDigest raw =? d then None else s
  | RDeleteUser userID => not_of userID s
  | RGet _ _ | RListUser _ _ => s
  end.
Definition standing (d : string) (ops : list registry_op) : option ActiveSession := fold_left (standing_step d) ops None.
Definition live (now : Z) (s : option ActiveSession) : option ActiveSession :=
  session ← s; if After (as_ExpiresAt session) now then Some session else None.

Lemma digest_trim raw : TrimSpace (sessionIDDigest raw) = sessionIDDigest raw.
Proof.
  unfold sessionIDDigest. destruct (TrimSpace raw =? ""); [by vm_compute|]. apply word_TrimSpace, url_word, RawURL_text.
Qed.
Lemma with_seen_ExpiresAt t s : as_ExpiresAt (with_seen t s) = as_ExpiresAt s.
Proof. by destruct s. Qed.
Lemma with_session_ExpiresAt d s : as_ExpiresAt (with_session_ID d s) = as_ExpiresAt s.
Proof. by destruct s. Qed.
Lemma live_live now now' s : now <= now' -> live now' (live now s) = live now' s.
Proof.
  intros Hnow. destruct s as [s|]; [|done]. cbn. unfold After. destruct (Z.ltb_spec now (as_ExpiresAt s)); [done|].
  cbn. destruct (Z.ltb_spec now' (as_ExpiresAt s)); [lia|done].
Qed.
Lemma cleanup_lookup now (r : registry) d : cleanup_sessions now r !! d = live now (r !! d).
Proof.
  unfold cleanup_sessions, live. rewrite map_lookup_filter. destruct (r !! d) as [s|]; [|done]. cbn.
  by destruct (After (as_ExpiresAt s) now).
Qed.

Lemma DeleteUser_lookup u (r : registry) d : DeleteUser u r !! d = not_of u (r !! d).
Proof.
  unfold DeleteUser, not_of. rewrite map_lookup_filter. destruct (r !! d) as [s|]; [|done]. cbn.
  case_guard; destruct (String.eqb_spec (as_UserID s) u); done.
Qed.
Lemma live_not_of now u s : live now (not_of u s) = not_of u (live now s).
Proof.
  unfold live, not_of. destruct s as [s|]; [|done]. cbn.
  destruct (as_UserID s =? u) eqn:E, (After (as_ExpiresAt s) now) eqn:E'; cbn; by rewrite ?E, ?E'.
Qed.

(** The registry [r] has for [d] what the reference has, from [now] on. *)
Definition agrees (d : string) (r : registry) (s : option ActiveSession) (now : Z) : Prop :=
  forall now', now <= now' -> live now' (r !! d) = live now' s.

Lemma agrees_cleanup d r s now t : agrees d r s now -> now <= t -> agrees d (cleanup_sessions t r) s t.
Proof. intros H Ht now' Hnow'. rewrite cleanup_lookup, live_live by done. apply H. lia. Qed.
Lemma touched_live now t (s : ActiveSession) : live now (Some (with_seen t s)) = with_seen t <$> live now (Some s).
Proof. unfold live. cbn. rewrite with_seen_ExpiresAt. by destruct (After (as_ExpiresAt s) now). Qed.

Lemma agrees_touch d r s now raw t : agrees d r s now -> now <= t ->
  agrees d (Touch raw t r).1 (if sessionIDDigest raw =? d then with_seen t <$> s else s) t.
Proof.
  intros H Ht now' Hnow'. specialize (H now' ltac:(lia)). unfold Touch. destruct (String.eqb_spec (sessionIDDigest raw) d) as [->|Hne].
  2:{ destruct (r !! sessionIDDigest raw) as [s'|]; [destruct (After _ _)|]; cbn [fst];
      by rewrite ?lookup_insert_ne, ?lookup_delete_ne by done. }
  assert (Hs : live now' (with_seen t <$> s) = with_seen t <$> live now' s) by (destruct s; [apply touched_live|done]).
  rewrite Hs, <- H. destruct (r !! d) as [s'|]; cbn [fst]; [|by rewrite lookup_delete_eq].
  unfold After at 1. destruct (Z.ltb_spec t (as_ExpiresAt s')) as [Hlt|Hge]; cbn [fst].
  - rewrite lookup_insert_eq. apply touched_live.
  - rewrite lookup_delete_eq. unfold live, After. cbn. destruct (now' <? as_ExpiresAt s')%Z eqn:E; [lia|done].
Qed.

Lemma agrees_step d r s now op : d <> "" -> agrees d r s now -> now <= default now (op_time op) ->
  agrees d (run_op r op) (standing_step d s op) (default now (op_time op)).
Proof.
  intros Hd H Ht. destruct op as [raw session t|raw t|raw t|raw|u|u t]; cbn [op_time default from_option id] in *;
    cbn [run_op standing_step Get ListUser snd].
  - unfold Put. destruct (String.eqb_spec (sessionIDDigest raw) "") as [E|_].
    + rewrite E. destruct (String.eqb_spec "" d) as [<-|_]; [done|]. intros now' Hn. apply H. lia.
    + cbn [default from_option id]. intros now' Hn. destruct (String.eqb_spec (sessionIDDigest raw) d) as [->|Hne].
      * by rewrite lookup_insert_eq.
      * rewrite lookup_insert_ne by done. by eapply agrees_cleanup.
  - by eapply agrees_cleanup.
  - by eapply agrees_touch.
  - intros now' Hn. unfold DeleteSession, DeleteDigest. rewrite digest_trim.
    destruct (String.eqb_spec (sessionIDDigest raw) d) as [->|Hne]; [by rewrite lookup_delete_eq|].
    rewrite lookup_delete_ne by done. by apply H.
  - intros now' Hn. rewrite DeleteUser_lookup, !live_not_of. by rewrite H.
  - by eapply agrees_cleanup.
Qed.

Lemma agrees_run d ops : forall r s now finish, d <> "" -> agrees d r s now -> timed ops now finish ->
  agrees d (run_ops ops r) (fold_left (standing_step d) ops s) finish.
Proof.
  induction ops as [|op ops IH]; intros r s now finish Hd H Ht.
  - cbn in *. intros now' Hn. apply H. lia.
  - destruct Ht as [Hop Ht]. cbn. eapply IH; [done| |exact Ht]. by apply agrees_step.
Qed.

(** ** The rate *)

(** The calls for one limit and one window: each has its key and its time. *)
Section rate.
Context (limit window : Z) (Hlimit : 0 < limit) (Hwindow : 0 < window).

(** The attempts admitted by a series of calls, latest last. *)
Fixpoint admitted (calls : list (string * Z)) (l : limiter) : list (string * Z) * limiter :=
  match calls with
  | [] => ([], l)
  | (key, now) :: calls' =>
      let '(ok, l') := Allow key limit window now l in
      let '(rest, l'') := admitted calls' l' in
      ((if ok then (key, now) :: rest else rest), l'')
  end.
Definition times_of (key : string) (h : list (string * Z)) : list Z :=
  map snd (List.filter (fun e => e.1 =? key) h).

(** The reference: every admitted attempt is remembered, and a call is admitted
    when fewer than [limit] attempts of its key are within the window. *)
Fixpoint remembered (calls h : list (string * Z)) : list (string * Z) :=
  match calls with
  | [] => []
  | (key, now) :: calls' =>
      if (Z.of_nat (length (recent window now (times_of key h))) <? limit)%Z
      then (key, now) :: remembered calls' (h ++ [(key, now)])%list
      else remembered calls' h
  end.

Lemma pruned_lookup now (l : limiter) key :
  default [] (pruneLocked window now l !! key) = recent window now (default [] (l !! key)).
Proof.
  unfold pruneLocked. rewrite lookup_omap. destruct (l !! key) as [times|]; [|done]. cbn -[recent].
  by destruct (recent window now times).
Qed.
Lemma pruned_dom now (l : limiter) : dom (pruneLocked window now l) ⊆ dom l.
Proof.
  intros key. rewrite !elem_of_dom. unfold pruneLocked. rewrite lookup_omap. by destruct (l !! key) as [|]; [|intros []].
Qed.
Lemma pruned_size now (l : limiter) : (size (pruneLocked window now l) <= size l)%nat.
Proof. rewrite <- !size_dom. apply subseteq_size, pruned_dom. Qed.

Lemma recent_recent now now' times : now <= now' -> recent window now' (recent window now times) = recent window now' times.
Proof.
  intros Hnow. unfold recent. induction times as [|t times IH]; [done|]. cbn [List.filter].
  unfold After, Add in *. destruct (now + - window <? t)%Z eqn:E; cbn [List.filter]; rewrite IH; [done|].
  destruct (now' + - window <? t)%Z eqn:E'; [lia|done].
Qed.
Lemma recent_app now times times' : recent window now (times ++ times')%list = (recent window now times ++ recent window now times')%list.
Proof. apply List.filter_app. Qed.
Lemma times_of_snoc key h key' now :
  times_of key (h ++ [(key', now)])%list = if key' =? key then (times_of key h ++ [now])%list else times_of key h.
Proof.
  unfold times_of. rewrite List.filter_app, map_app. cbn. destruct (key' =? key); [done|]. cbn. by rewrite app_nil_r.
Qed.

(** The limiter [l] knows what the log [h] says of the times from [now] on. *)
Definition knows (l : limiter) (h : list (string * Z)) (now : Z) : Prop :=
  forall key now', now <= now' -> recent window now' (default [] (l !! key)) = recent window now' (times_of key h).

Lemma knows_pruned l h now : knows l h now -> knows (pruneLocked window now l) h now.
Proof. intros H key now' Hnow. rewrite pruned_lookup, recent_recent by done. by apply H. Qed.
Lemma knows_later l h now now' : knows l h now -> now <= now' -> knows l h now'.
Proof. intros H Hnow key t Ht. apply H. lia. Qed.
Lemma knows_insert l h now key times :
  knows l h now -> default [] (l !! key) = times -> knows (<[key := (times ++ [now])%list]> l) (h ++ [(key, now)])%list now.
Proof.
  intros H Ht key' now' Hnow. rewrite times_of_snoc. destruct (String.eqb_spec key key') as [<-|Hne].
  - rewrite lookup_insert_eq. cbn [default from_option id]. rewrite !recent_app, <- H, <- Ht by done. done.
  - rewrite lookup_insert_ne by done. by apply H.
Qed.

(** Room for one more key. *)
Lemma admit_room K key (l : limiter) :
  dom l ⊆ K -> key ∈ K -> (size K <= maxAttemptLimiterKeys)%nat -> admitKeyLocked key l = l.
Proof.
  intros Hdom Hkey Hsize. unfold admitKeyLocked. destruct (bool_decide (is_Some (l !! key))) eqn:E; [done|].
  apply bool_decide_eq_false in E. rewrite orb_false_l.
  assert (Hlt : (size (dom l) < size K)%nat).
  { apply subset_size. split; [done|]. intros Hsub. apply E. rewrite <- elem_of_dom. by apply Hsub. }
  rewrite size_dom in Hlt. destruct (Nat.ltb_spec (size l) maxAttemptLimiterKeys); [done|lia].
Qed.

Lemma Allow_spec (K : gset string) key now (l : limiter) h :
  dom l ⊆ K -> key ∈ K -> (size K <= maxAttemptLimiterKeys)%nat -> knows l h now ->
  let ok := (Z.of_nat (length (recent window now (times_of key h))) <? limit)%Z in
  (Allow key limit window now l).1 = ok /\
  dom (Allow key limit window now l).2 ⊆ K /\
  knows (Allow key limit window now l).2 (if ok then h ++ [(key, now)] else h)%list now.
Proof.
  intros Hdom Hkey Hsize Hk. cbv zeta. unfold Allow.
  assert ((limit <=? 0)%Z || (window <=? 0)%Z = false) as -> by lia. cbv zeta.
  rewrite pruned_lookup, (Hk key now) by lia. pose proof (pruned_dom now l) as Hp.
  destruct (Z.leb_spec limit (Z.of_nat (length (recent window now (times_of key h))))) as [Hle|Hlt];
    destruct (Z.ltb_spec (Z.of_nat (length (recent window now (times_of key h)))) limit); try lia; cbn [fst snd].
  - split_and!; [done|set_solver|by apply knows_pruned].
  - rewrite (admit_room K) by (done || set_solver). split_and!; [done|set_solver|].
    apply knows_insert; [by apply knows_pruned|]. by rewrite pruned_lookup, (Hk key now) by lia.
Qed.

(** The calls come in the order of their times, none before [start]. *)
Fixpoint in_order (start : Z) (calls : list (string * Z)) : Prop :=
  match calls with
  | [] => True
  | (_, now) :: calls' => start <= now /\ in_order now calls'
  end.
Definition keys_of (calls : list (string * Z)) : gset string := list_to_set (map fst calls).

Lemma admitted_remembered (K : gset string) calls : forall (l : limiter) h start,
  (size K <= maxAttemptLimiterKeys)%nat -> dom l ⊆ K -> keys_of calls ⊆ K ->
  knows l h start -> in_order start calls -> (admitted calls l).1 = remembered calls h.
Proof.
  induction calls as [|[key now] calls IH]; intros l h start Hsize Hdom Hkeys Hk Hord; [done|].
  destruct Hord as [Hnow Hord]. unfold keys_of in Hkeys. cbn in Hkeys. fold (keys_of calls) in Hkeys.
  destruct (Allow_spec K key now l h) as (Hok & Hdom' & Hk'); [done|set_solver|done|by eapply knows_later|].
  cbn [admitted remembered]. destruct (Allow key limit window now l) as [ok l'] eqn:E. cbn [fst snd] in *.
  specialize (IH l' (if ok then h ++ [(key, now)] else h)%list now). rewrite <- Hok in *.
  destruct (admitted calls l') as [rest l''] eqn:E2. cbn [fst snd] in *.
  rewrite IH by (done || set_solver). by destruct ok.
Qed.

(** How many attempts of [key] are within the [window] that ends at [t]. *)
Definition burst (key : string) (t : Z) (h : list (string * Z)) : Z :=
  Z.of_nat (length (List.filter (fun x => (t - window <? x)%Z && (x <=? t)%Z) (times_of key h))).
Definition within_rate (h : list (string * Z)) : Prop := forall key t, burst key t h <= limit.

Lemma burst_recent key now t h :
  Forall (fun e => e.2 <= now) h -> now <= t -> burst key t h <= Z.of_nat (length (recent window now (times_of key h))).
Proof.
  intros Hh Ht. unfold burst, recent. apply inj_le.
  assert (Htimes : Forall (fun x => x <= now) (times_of key h)).
  { unfold times_of. induction Hh as [|[k x] h Hx Hh IH]; [done|]. cbn. destruct (k =? key); [by constructor|done]. }
  induction Htimes as [|x times Hx Htimes IH]; [done|]. cbn. unfold After, Add in *.
  destruct (t - window <? x)%Z eqn:E1, (x <=? t)%Z eqn:E2, (now + - window <? x)%Z eqn:E3; cbn; lia.
Qed.
Lemma burst_snoc key t h key' now :
  burst key t (h ++ [(key', now)])%list =
  burst key t h + if (key' =? key) && (t - window <? now)%Z && (now <=? t)%Z then 1 else 0.
Proof.
  unfold burst. rewrite times_of_snoc. destruct (key' =? key); [|cbn; lia]. rewrite List.filter_app, length_app, Nat2Z.inj_add. cbn.
  by destruct (t - window <? now)%Z, (now <=? t)%Z.
Qed.

Lemma remembered_rate calls : forall h start,
  Forall (fun e => e.2 <= start) h -> within_rate h -> in_order start calls -> within_rate (h ++ remembered calls h)%list.
Proof.
  induction calls as [|[key now] calls IH]; intros h start Hh Hrate Hord; cbn [remembered]; [by rewrite app_nil_r|].
  destruct Hord as [Hnow Hord].
  assert (Hh' : Forall (fun e => e.2 <= now) h) by (eapply list.Forall_impl; [exact Hh|]; cbn; intros; lia).
  destruct (Z.ltb_spec (Z.of_nat (length (recent window now (times_of key h)))) limit) as [Hlt|]; [|by apply (IH h now)].
  rewrite cons_middle, app_assoc. apply (IH _ now); [|clear IH|done].
  - apply list.Forall_app. split; [done|]. constructor; [cbn; lia|constructor].
  - intros k t. rewrite burst_snoc. specialize (Hrate k t). destruct (String.eqb_spec key k) as [<-|]; [|cbn; lia].
    destruct (t - window <? now)%Z, (now <=? t)%Z eqn:E2; cbn; try lia.
    pose proof (burst_recent key now t h Hh' ltac:(lia)). lia.
Qed.
End rate.

(** ** The number of keys *)

Lemma oldest_key_in entries : forall best, entries <> [] \/ best <> None ->
  In (oldest_key entries best) (from_option (fun b => [b.1]) [] best ++ map fst entries)%list.
Proof.
  induction entries as [|[key times] entries IH]; intros best Hne; [destruct best; [by left|tauto]|].
  cbn [oldest_key map fst]. apply in_app_iff. destruct (list.last times) as [latest|]; [|right; by left].
  set (best' := match best with Some _ => _ | None => _ end).
  assert (Hbest : best' = best /\ best <> None \/ best' = Some (key, latest)).
  { unfold best'. destruct best as [[k o]|]; [|by right]. destruct (_ && _); [by left|by right]. }
  assert (Hin : best' <> None) by (destruct Hbest as [[-> ?]| ->]; done).
  specialize (IH best' ltac:(by right)). apply in_app_iff in IH as [IH|IH]; [|right; by right].
  destruct Hbest as [[Heq _]|Heq]; rewrite Heq in IH |- *; [by left|right; left]. by destruct IH as [<-|[]].
Qed.
Lemma oldest_key_dom (l : limiter) : l <> ∅ -> oldest_key (map_to_list l) None ∈ dom l.
Proof.
  intros Hl. pose proof (oldest_key_in (map_to_list l) None) as Hin. cbn [from_option app] in Hin.
  rewrite elem_of_dom. assert (Hne : map_to_list l <> []) by (by rewrite map_to_list_empty_iff).
  apply in_map_iff in Hin as ([k times] & <- & Hin); [|by left]. cbn. exists times.
  by apply elem_of_map_to_list, list_elem_of_In.
Qed.
Lemma admit_size key (l : limiter) times : (size l <= maxAttemptLimiterKeys)%nat ->
  (size (<[key := times]> (admitKeyLocked key l)) <= maxAttemptLimiterKeys)%nat.
Proof.
  intros Hsize. unfold admitKeyLocked. destruct (bool_decide (is_Some (l !! key))) eqn:E.
  - apply bool_decide_eq_true in E. rewrite orb_true_l. by rewrite map_size_insert_Some.
  - rewrite orb_false_l. apply bool_decide_eq_false, eq_None_not_Some in E.
    destruct (Nat.ltb_spec (size l) maxAttemptLimiterKeys) as [Hlt|Hge]; [by rewrite map_size_insert_None|].
    assert (Hin : oldest_key (map_to_list l) None ∈ dom l).
    { apply oldest_key_dom. intros ->. rewrite map_size_empty in Hge. unfold maxAttemptLimiterKeys in Hge. lia. }
    rewrite map_size_insert_None by (by apply lookup_delete_None; right).
    rewrite map_size_delete_Some by (by apply elem_of_dom). unfold maxAttemptLimiterKeys in *. lia.
Qed.
Lemma Allow_size key limit window now (l : limiter) : (size l <= maxAttemptLimiterKeys)%nat ->
  (size (Allow key limit window now l).2 <= maxAttemptLimiterKeys)%nat.
Proof.
  intros Hsize. unfold Allow. destruct (_ || _); [done|]. cbv zeta. pose proof (pruned_size window now l) as Hp.
  destruct (_ <=? _)%Z; cbn [snd]; [lia|]. apply admit_size. lia.
Qed.

(** ** Theorems *)

(** C20: The registry of sessions is exact.  Whatever the operations on it, at
    times that do not go back, a session is found for a session ID exactly when one
    was put under it, was not deleted since, by itself or with the sessions of its
    user, and has not expired; and it is the session last put, last seen when it was
    last touched.  Other session IDs, other users, and the cleanup of expired
    sessions make no difference. *)
Theorem registry_exact (ops : list registry_op) (raw : string) (start now : Z) :
  sessionIDDigest raw <> "" -> timed ops start now ->
  (Get raw now (run_ops ops ∅)).1 = live now (standing (sessionIDDigest raw) ops).
Proof.
  intros Hd Ht. unfold Get. cbn [fst]. rewrite cleanup_lookup.
  refine (agrees_run _ ops ∅ None start now Hd _ Ht now (Z.le_refl _)). intros t _. by rewrite lookup_empty.
Qed.

(** C19: The limiter keeps the rate.  For calls whose times do not go back, of at
    most 4096 keys, it decides as a log of all admitted attempts would: a call is
    admitted exactly when fewer than [limit] attempts of its key were admitted in
    the [window] before it.  So in no window of that length, wherever it starts, are
    more than [limit] attempts of a key admitted. *)
Theorem attempts_limited (limit window start : Z) (calls : list (string * Z)) :
  0 < limit -> 0 < window -> (size (keys_of calls) <= maxAttemptLimiterKeys)%nat -> in_order start calls ->
  (admitted limit window calls ∅).1 = remembered limit window calls [] /\
  within_rate limit window (admitted limit window calls ∅).1.
Proof.
  intros Hl Hw Hsize Hord.
  assert (Heq : (admitted limit window calls ∅).1 = remembered limit window calls []).
  { apply (admitted_remembered limit window Hl Hw (keys_of calls)) with (start := start); [done|set_solver|done| |done].
    intros key t _. by rewrite lookup_empty. }
  split; [done|]. rewrite Heq. apply (remembered_rate limit window calls [] start); [constructor| |done].
  intros key t. unfold burst. cbn. lia.
Qed.

(** The limiter is bounded.  Whatever the calls, their keys and their times,
    it never keeps more than 4096 keys. *)
Theorem limiter_bounded (limit window : Z) (calls : list (string * Z)) :
  (size (admitted limit window calls ∅).2 <= maxAttemptLimiterKeys)%nat.
Proof.
  enough (H : forall l : limiter, (size l <= maxAttemptLimiterKeys)%nat ->
    (size (admitted limit window calls l).2 <= maxAttemptLimiterKeys)%nat).
  { apply H. rewrite map_size_empty. lia. }
  induction calls as [|[key now] calls IH]; intros l Hl; [done|]. cbn [admitted].
  pose proof (Allow_size key limit window now l Hl) as Hl'. destruct (Allow _ _ _ _ l) as [ok l']. cbn [snd] in Hl'.
  specialize (IH l' Hl'). by destruct (admitted limit window calls l').
Qed.

(** *** Examples *)

Definition demo_session : ActiveSession := MkSession "" "u1" "alice" "192.0.2.7" "" false 3 0 0 1000.
Definition demo_ops : list registry_op :=
  [RPut "a" demo_session 0; RPut "b" demo_session 5; RTouch "a" 10; RDelete "b"; RDeleteUser "u2"; RListUser "u1" 20].
Lemma registry_exact_witness :
  (exists session, (Get "a" 30 (run_ops demo_ops ∅)).1 = Some session /\ as_LastSeenAt session = 10 /\ as_AuthVersion session = 3) /\
  (Get "a" 1000 (run_ops demo_ops ∅)).1 = None /\ (Get "b" 30 (run_ops demo_ops ∅)).1 = None.
Proof.
  assert (Hd : sessionIDDigest "a" <> "" /\ sessionIDDigest "b" <> "") by (by vm_compute). destruct Hd as [Ha Hb].
  split_and!.
  - rewrite (registry_exact demo_ops "a" 0 30) by (done || (cbn; lia)). eexists. by vm_compute.
  - rewrite (registry_exact demo_ops "a" 0 1000) by (done || (cbn; lia)). by vm_compute.
  - rewrite (registry_exact demo_ops "b" 0 30) by (done || (cbn; lia)). by vm_compute.
Defined.

Definition demo_calls : list (string * Z) := [("k", 0); ("k", 1); ("j", 2); ("k", 3); ("k", 10); ("k", 11); ("k", 12)].
Lemma attempts_limited_witness :
  (admitted 2 10 demo_calls ∅).1 = [("k", 0); ("k", 1); ("j", 2); ("k", 10); ("k", 11)] /\
  within_rate 2 10 (admitted 2 10 demo_calls ∅).1.
Proof.
  destruct (attempts_limited 2 10 0 demo_calls) as [Heq Hrate]; [lia|lia|by vm_compute; lia|cbn; lia|].
  split; [|done]. rewrite Heq. by vm_compute.
Defined.
