(* ===== verification/GatewayRequest.v ===== *)
(** What the web gateway reads of an HTTP request
    ([internal/webgateway/account_auth.go]): the address of the client behind
    trusted proxies, whether the connection is secure, the token of the session;
    and the errors and identities its handlers pass on. *)

From stdpp Require Import stringmap.
From S2P Require Import Prelude UnicodeTables GoStrings GoTime GoValue GoPath GoCrypto GoNet AlertPacket.
From S2P Require Import PlaylistModel World Secrets AlertRequest AudioRetention PlannerState AlertCommit Wav AudioFiles AuditLog.
From S2P Require Import Accounts AccountsSafety Sessions.

#[local] Open Scope Z_scope.
#[local] Open Scope string_scope.
#[local] Open Scope haze_scope.

(** ** Data *)

Record AuthError := MkAuthError { ae_Code : string; ae_Detail : string; ae_HTTPStatus : Z }.
Definition StatusUnauthorized : Z := 401.
Definition StatusForbidden : Z := 403.
Definition StatusNotFound : Z := 404.
Definition StatusConflict : Z := 409.
Definition StatusLocked : Z := 423.
Definition StatusUpgradeRequired : Z := 426.
Definition StatusTooManyRequests : Z := 429.
Definition StatusServiceUnavailable : Z := 503.

Record Identity := MkIdentity {
  id_Account : Account; id_Session : ActiveSession; id_PasswordChangeRequired : bool; id_RawSessionID : string }.

(** The parts of [http.Request] that are read, as [net/http] hands them over: the
    first value of each header by its canonical name, and the cookies in order. *)
Record Request := MkRequest {
  rq_RemoteAddr : string; rq_TLS : bool; rq_Header : gmap string string; rq_Cookies : list (string * string) }.
Definition Header_Get (r : Request) (key : string) : string := default "" (rq_Header r !! key).

(** ** Addresses *)

(** [strings.Trim(value, "[]")]. *)
Definition is_bracket (a : Ascii.ascii) : bool := Ascii.eqb a "[" || Ascii.eqb a "]".
Fixpoint drop_brackets (l : list Ascii.ascii) : list Ascii.ascii :=
  match l with
  | a :: l' => if is_bracket a then drop_brackets l' else l
  | [] => []
  end.
Definition trim_brackets (s : string) : string := string_of (rev (drop_brackets (rev (drop_brackets (bytes_of s))))).

Definition hostOnly (value : string) : string :=
  let value := TrimSpace value in
  match SplitHostPort value with Some host => host | None => trim_brackets value end.
Definition canonicalIP (value : string) : string :=
  match ParseIP (TrimSpace value) with Some ip => IP_String ip | None => "" end.
Definition sameCanonicalIP (left right : string) : bool :=
  match ParseIP (canonicalIP left), ParseIP (canonicalIP right) with
  | Some l, Some r => bool_decide (l = r)
  | _, _ => false
  end.
Definition ipAllowed (rawIP : string) (networks : list IPNet) : bool :=
  match networks with
  | [] => true
  | _ =>
      match ParseIP (canonicalIP rawIP) with
      | None => false
      | Some ip => existsb (fun network => Contains network ip) networks
      end
  end.

Section request.
Context (trustedProxyCIDRs : list IPNet).

(** The peer of the connection, and whether its headers count. *)
Definition peer (r : Request) : string :=
  let remote := canonicalIP (hostOnly (rq_RemoteAddr r)) in if remote =? "" then "0.0.0.0" else remote.
Definition trusts (remote : string) : bool :=
  ipAllowed remote trustedProxyCIDRs && negb (bool_decide (trustedProxyCIDRs = [])).

(** The loop over the addresses that were forwarded, the nearest first: the first
    that is no proxy, or else the last one seen. *)
Fixpoint forwarded_from (candidates : list string) (remote : string) : string + string :=
  match candidates with
  | [] => inr remote
  | text :: candidates' =>
      let candidate := canonicalIP (TrimSpace text) in
      if candidate =? "" then forwarded_from candidates' remote
      else if negb (ipAllowed candidate trustedProxyCIDRs) then inl candidate
      else forwarded_from candidates' candidate
  end.
Definition clientIP (request : option Request) : string :=
  match request with
  | None => "0.0.0.0"
  | Some r =>
      let remote := peer r in
      if negb (trusts remote) then remote
      else
        match forwarded_from (rev (Split ","%char (Header_Get r "X-Forwarded-For"))) remote with
        | inl candidate => candidate
        | inr remote =>
            let realIP := canonicalIP (Header_Get r "X-Real-Ip") in
            if realIP =? "" then remote else realIP
        end
  end.
Definition secureRequest (request : option Request) : bool :=
  match request with
  | None => false
  | Some r =>
      if rq_TLS r then true
      else
        let remote := canonicalIP (hostOnly (rq_RemoteAddr r)) in
        if (remote =? "") || negb (trusts remote) then false
        else EqualFold (TrimSpace (Header_Get r "X-Forwarded-Proto")) "https"
  end.
End request.

(** ** Tokens and agents *)

Definition sessionCookieName : string := "haze_admin_session".
Definition accountTokenFromRequest (request : option Request) : string :=
  match request with
  | None => ""
  | Some r =>
      match find (fun c => c.1 =? sessionCookieName) (rq_Cookies r) with
      | Some (_, value) => TrimSpace value
      | None =>
          let header := TrimSpace (Header_Get r "Authorization") in
          if HasPrefix (ToLower header) "bearer " then TrimSpace (drop_bytes 7 header) else ""
      end
  end.
Definition cleanUserAgent (request : option Request) : string :=
  match request with None => "" | Some r => take_bytes 512 (TrimSpace (Header_Get r "User-Agent")) end.

(** ** Facts *)

Definition with_header (key value : string) (r : Request) : Request :=
  MkRequest (rq_RemoteAddr r) (rq_TLS r) (<[key := value]> (rq_Header r)) (rq_Cookies r).
Definition with_headers (h : gmap string string) (r : Request) : Request :=
  MkRequest (rq_RemoteAddr r) (rq_TLS r) h (rq_Cookies r).

(** The address of no proxy that an entry names. *)
Definition outside (trusted : list IPNet) (text : string) : option string :=
  let candidate := canonicalIP (TrimSpace text) in
  if (candidate =? "") || ipAllowed candidate trusted then None else Some candidate.
(** The last entry that is no proxy. *)
Definition last_outside (trusted : list IPNet) (entries : list string) : option string :=
  head (omap (outside trusted) (rev entries)).

Lemma forwarded_spec trusted l l' remote :
  match head (omap (outside trusted) l) with
  | Some ip => forwarded_from trusted (l ++ l') remote = inl ip
  | None => exists remote', forwarded_from trusted (l ++ l') remote = forwarded_from trusted l' remote'
  end.
Proof.
  revert remote. induction l as [|text l IH]; intros remote; [by exists remote|].
  cbn [omap list_omap app forwarded_from]. unfold outside at 1. cbn zeta.
  destruct (canonicalIP (TrimSpace text) =? "") eqn:E; [apply IH|]. rewrite orb_false_l.
  destruct (ipAllowed (canonicalIP (TrimSpace text)) trusted); [apply IH|done].
Qed.
Lemma clientIP_direct trusted r : trusts trusted (peer r) = false -> clientIP trusted (Some r) = peer r.
Proof. intros Ht. unfold clientIP. by rewrite Ht. Qed.
Lemma clientIP_forwarded trusted r forged appended ip : trusts trusted (peer r) = true ->
  Header_Get r "X-Forwarded-For" = forged +:+ String "," appended ->
  last_outside trusted (Split ","%char appended) = Some ip -> clientIP trusted (Some r) = ip.
Proof.
  intros Ht Hh Hip. unfold clientIP. rewrite Ht, Hh, Split_app_sep, rev_app_distr. cbn [negb]. unfold last_outside in Hip.
  pose proof (forwarded_spec trusted (rev (Split ","%char appended)) (rev (Split ","%char forged)) (peer r)) as H.
  rewrite Hip in H. by rewrite H.
Qed.

(** ** Properties *)


(** *** Examples *)

Definition demo_proxies : list IPNet := default [] (parseCIDRList ["10.0.0.0/8"; "fd00::/8"]).
Definition proxied (header : string) : Request := MkRequest "10.1.2.3:443" false {["X-Forwarded-For" := header]} [].
Example forged_address_ignored :
  clientIP demo_proxies (Some (proxied "198.51.100.1, 203.0.113.9, 10.4.4.4")) = "203.0.113.9".
Proof. by vm_compute. Qed.
Example direct_headers_ignored :
  clientIP demo_proxies (Some (MkRequest "[2001:db8::7]:5000" false {["X-Forwarded-For" := "198.51.100.1"]} [])) = "2001:db8::7".
Proof. by vm_compute. Qed.
(** An entry with a port is no address and is passed over, so that the one before it
    counts. *)
Example port_passes_over :
  clientIP demo_proxies (Some (proxied "198.51.100.1, 203.0.113.9:50000")) = "198.51.100.1".
Proof. by vm_compute. Qed.
(** An address of the allow list that is written as an IPv4-mapped one becomes a
    network of 32 bits of 128: it has no IPv4 address, not even its own, and many
    that were not meant. *)
Example mapped_entry_misread :
  let allowed := default [] (parseCIDRList ["::ffff:192.0.2.7"]) in
  ipAllowed "192.0.2.7" allowed = false /\ ipAllowed "::2001:db8" allowed = true.
Proof. by vm_compute. Qed.
