(* ===== verification/AccountAuth.v ===== *)
(** Sign-in with accounts ([internal/webgateway/account_auth.go]): the state of
    [accountAuth] over the table of accounts, the registry of sessions in memory and
    the limiters, and its operations.

    Requests run at the same time.  Between any two accesses to the table or to the
    registry the operations of others take place, which [Others] chooses; theorems
    hold for every choice.  PASETO tokens and one-time passwords are packages outside
    the repository, and classes here. *)

From stdpp Require Import stringmap.
From S2P Require Import Prelude UnicodeTables GoStrings SampleCodec GoTime GoValue GoPath GoCrypto GoNet AlertPacket.
From S2P Require Import PlaylistModel World Secrets AlertRequest AudioRetention PlannerState AlertCommit Wav AudioFiles AuditLog.
From S2P Require Import Accounts AccountsSafety Sessions GatewayRequest.

#[local] Open Scope Z_scope.
#[local] Open Scope string_scope.
#[local] Open Scope haze_scope.

(** ** State *)

(** The settings of [accountAuth], which do not change while it runs. *)
Record AuthSettings := MkSettings {
  se_pasetoKey : string; se_pepper : string; se_mfaKey : string; se_auditDir : string; se_auditKey : string;
  se_enforceMFA : bool; se_sessionTTL : Z; se_persistentTTL : Z; se_idleTimeout : Z; se_loginLimit : Z;
  se_loginWindow : Z; se_accountLockDuration : Z; se_originationRate : Z;
  se_trustedProxyCIDRs : list IPNet; se_loginCIDRAllowlist : list IPNet;
  se_dummyPasswordHash : string; se_configured : bool; se_initializationError : bool; se_postgres : bool }.
Record Gateway := MkGateway {
  gw_store : Store; gw_sessions : registry; gw_loginLimiter : limiter; gw_loginIPLimiter : limiter;
  gw_originationLimiter : limiter; gw_expiryAuditLimiter : limiter; gw_preauthAuditLimiter : limiter }.
#[export] Instance Gateway_world : HasWorld Gateway := {|
  the_world g := st_world (gw_store g);
  with_world w '(MkGateway s r l i o e p) := MkGateway (MkStore w (st_users s)) r l i o e p |}.
Definition with_accounts (s : Store) '(MkGateway _ r l i o e p) : Gateway := MkGateway s r l i o e p.
Definition with_sessions (r : registry) '(MkGateway s _ l i o e p) : Gateway := MkGateway s r l i o e p.
Definition with_loginLimiter (l : limiter) '(MkGateway s r _ i o e p) : Gateway := MkGateway s r l i o e p.
Definition with_loginIPLimiter (i : limiter) '(MkGateway s r l _ o e p) : Gateway := MkGateway s r l i o e p.
Definition with_originationLimiter (o : limiter) '(MkGateway s r l i _ e p) : Gateway := MkGateway s r l i o e p.
Definition with_expiryAuditLimiter (e : limiter) '(MkGateway s r l i o _ p) : Gateway := MkGateway s r l i o e p.
Definition with_preauthAuditLimiter (p : limiter) '(MkGateway s r l i o e _) : Gateway := MkGateway s r l i o e p.

Record LoginInput := MkLoginInput {
  li_Username : string; li_Password : string; li_TOTP : string; li_Persistent : bool; li_Request : option Request }.
Record LoginResult := MkLoginResult {
  lr_Token : string; lr_Identity : option Identity; lr_Persistent : bool; lr_MFAEnrollmentRequired : bool;
  lr_MFAEnrollmentSecret : string; lr_MFAEnrollmentURI : string; lr_PasswordChangeRequired : bool }.
Definition no_result : LoginResult := MkLoginResult "" None false false "" "" false.

(** ** What is outside *)

Definition pasetoIssuer : string := "haze-weather-radio".
Definition pasetoAudience : string := "haze-webpanel".
Definition pasetoImplicitAssertion : string := "haze-webpanel-session:v1".

(** The claims that [issueToken] sets, and those that are read of a token, which may
    lack any. *)
Record tokenClaims := MkTokenClaims {
  tc_Issuer : string; tc_Audience : string; tc_Subject : string; tc_Jti : string; tc_IssuedAt : Z; tc_NotBefore : Z;
  tc_Expiration : Z; tc_username : string; tc_ip : string; tc_admin : bool; tc_password_change_required : bool;
  tc_auth_version : Z }.
Record parsedToken := MkParsedToken {
  pt_Jti : option string; pt_Subject : option string; pt_ip : option string; pt_auth_version : option Z;
  pt_Expiration : option Z }.
Class Paseto := {
  (* key, claims, implicit assertion; the nonce is the n-th reading of crypto/rand *)
  V4Encrypt : nat -> string -> tokenClaims -> string -> string;
  (* ParseV4Local of a parser for valid tokens at a time, with the rules for issuer and audience *)
  ParseValidNow : string -> string -> string -> string -> Z -> string -> option parsedToken;
  (* the same without a check of the time *)
  ParseUnchecked : string -> string -> string -> string -> string -> option parsedToken }.

(** What the package documents: a token that is accepted as valid was issued for that
    issuer and audience, is valid at the time, and holds the claims it was made of. *)
Definition claims_read (c : tokenClaims) : parsedToken :=
  MkParsedToken (Some (tc_Jti c)) (Some (tc_Subject c)) (Some (tc_ip c)) (Some (tc_auth_version c)) (Some (tc_Expiration c)).
Class PasetoOk `{Paseto} : Prop := {
  parse_valid n key c assertion now :
    ParseValidNow key (V4Encrypt n key c assertion) (tc_Issuer c) (tc_Audience c) now assertion =
    if (tc_NotBefore c <=? now)%Z && (tc_IssuedAt c <=? now)%Z && (now <=? tc_Expiration c)%Z then Some (claims_read c) else None }.

Class Totp := {
  totp_Generate : nat -> string -> string -> option (string * string);   (* issuer, account name: secret, URL *)
  totp_ValidateCustom : string -> string -> Z -> option bool }.          (* passcode, secret, time *)

(** What other requests do before the n-th fallible operation. *)
Class Others := {
  other_operations : nat -> list operation;
  other_sessions : nat -> list registry_op }.

Section gateway.
Context `{Env} `{Tools} `{AuditCodec} `{SecretTools} `{Paseto} `{Totp} `{Others} (h : AuthSettings).

(** ** Access to the state *)

Definition lift_store {A} (m : M Store A) : M Gateway A := fun g =>
  let '(a, s) := m (gw_store g) in (a, with_accounts s g).
(** The operations of others. *)
Definition interfere : M Gateway unit :=
  let! n := gets (fun g => attempts (the_world g)) in
  modify (fun g => with_sessions (run_ops (other_sessions n) (gw_sessions g)) g) ;;;
  lift_store (perform_all (se_postgres h) (other_operations n)).
Definition on_store {A} (m : M Store A) : M Gateway A := interfere ;;; lift_store m.
(** The registry is held for the whole operation, which reads the clock itself. *)
Definition on_sessions {A} (f : Z -> registry -> A * registry) : M Gateway A :=
  interfere ;;;
  let! t := on_world now in (fun g => let '(a, r) := f t (gw_sessions g) in (a, with_sessions r g)).

Definition sessions_Put (raw : string) (session : ActiveSession) : M Gateway bool :=
  on_sessions (fun t r => match Put raw session t r with Some r' => (true, r') | None => (false, r) end).
Definition sessions_Get (raw : string) : M Gateway (option ActiveSession) := on_sessions (Get raw).
Definition sessions_ListUser (userID : string) : M Gateway (list ActiveSession) := on_sessions (ListUser userID).
(** The operations that do not read the clock. *)
Definition on_registry {A} (f : registry -> A * registry) : M Gateway A :=
  interfere ;;; (fun g => let '(a, r) := f (gw_sessions g) in (a, with_sessions r g)).
Definition sessions_Touch (raw : string) (lastSeen : Z) : M Gateway bool :=
  on_registry (fun r => let '(r', ok) := Touch raw lastSeen r in (ok, r')).
Definition sessions_Delete (raw : string) : M Gateway unit := on_registry (fun r => (tt, DeleteSession raw r)).
Definition sessions_DeleteUser (userID : string) : M Gateway unit := on_registry (fun r => (tt, DeleteUser userID r)).

Definition audit (category : string) (event : AuditEvent) : M Gateway (option string) :=
  on_world (Append (se_auditDir h) (se_auditKey h) category event).
(** An event of the category [access] whose outcome is ignored. *)
Definition audit_access (event : AuditEvent) : M Gateway unit := let! _ := audit "access" event in ret tt.

(** ** Errors *)

Definition invalidCredentials : AuthError :=
  MkAuthError "invalid_credentials" "The username, password, or authentication code is incorrect." StatusUnauthorized.
Definition temporaryAccountLockError : AuthError :=
  MkAuthError "account_locked" "This account is temporarily locked. Try again after the lock period." StatusLocked.
Definition mfaEnrollmentRequiredError : AuthError :=
  MkAuthError "mfa_enrollment_required" "Add the MFA secret to an authenticator, then enter its current code." StatusUnauthorized.
Definition unavailableError : AuthError :=
  MkAuthError "auth_unavailable"
    (if se_initializationError h then "Sign-in is unavailable. Check the server configuration." else "Sign-in is not configured.")
    StatusServiceUnavailable.
Definition auth_unavailable (detail : string) : AuthError := MkAuthError "auth_unavailable" detail StatusServiceUnavailable.
Definition login_state_changed : AuthError :=
  MkAuthError "login_state_changed" "The account changed while sign in was in progress. Try again." StatusConflict.
Definition invalid_session (detail : string) : AuthError := MkAuthError "invalid_session" detail StatusUnauthorized.

(** ** Sessions and limits of a user *)

Definition purgeUserSessionLeases (userID : string) : M Gateway unit := sessions_DeleteUser userID.
Definition ResetLoginLimits (username ip : string) : M Gateway unit :=
  let username := ToLower (TrimSpace username) in
  whenb (negb (username =? ""))
    (modify (fun g => with_loginLimiter (ResetPrefix (username +:+ "|") (gw_loginLimiter g)) g)) ;;;
  let ip := canonicalIP ip in
  whenb (negb (ip =? "")) (modify (fun g => with_loginIPLimiter (Reset ip (gw_loginIPLimiter g)) g)).

(** The time that a lock has lasted, and why it ends. *)
Definition unlock_reason (account : Account) (now : Z) : string :=
  if ac_IsAdmin account then "administrator_exempt"
  else
    let lockedAt := ac_failedLoginWindowStartedAt account in
    let lockedAt := if IsZero lockedAt then ac_UpdatedAt account else lockedAt in
    if IsZero lockedAt || Before now lockedAt || (se_accountLockDuration h <=? Sub now lockedAt)%Z
    then "duration_elapsed" else "".
Definition applyAccountLockPolicy (account : Account) (now : Z) : M Gateway (result storeError Account) :=
  if negb (ac_AccountLocked account) then ret (Ok account)
  else
    let! now := if IsZero now then on_world World.now else ret now in
    let reason := unlock_reason account now in
    if reason =? "" then ret (Ok account)
    else
      let! unlocked := on_store (UnlockLockedIfAuthVersion (se_postgres h) (ac_ID account) (ac_authVersion account) now) in
      match unlocked with
      | Err e => ret (Err e)
      | Ok false => on_store (ByID (ac_ID account))
      | Ok true =>
          ResetLoginLimits (ac_Username account) "" ;;;
          purgeUserSessionLeases (ac_ID account) ;;;
          let! err := audit "access"
            (MkEvent now "ACCOUNT_LOCK_AUTO_CLEARED" (ac_ID account) (ac_Username account) "" "" "" "warning"
              {["reason" := AString reason]}) in
          match err with
          | Some e => ret (Err (storeFailure e))
          | None => on_store (ByID (ac_ID account))
          end
      end.

(** ** Signing in *)

(** A handler stops with an error, and with what it returns besides. *)
Definition try {E A B} (f : A -> M Gateway (result E B)) (m : M Gateway (result E A)) : M Gateway (result E B) :=
  let! r := m in match r with Ok a => f a | Err e => ret (Err e) end.
#[local] Notation "'try!' x ':=' m 'in' k" := (try (fun x => k) m) (at level 10, x pattern, m at level 100, k at level 200).
Definition fail {E A} (e : E) : M Gateway (result E A) := ret (Err e).
Definition LoginStop : Type := LoginResult * AuthError.
Definition refused (e : AuthError) : LoginStop := (no_result, e).

Definition auditPreauthenticationFailure (event attemptedUsername ip userAgent severity : string) : M Gateway unit :=
  let! t := on_world now in
  let key := ToUpper (TrimSpace event) +:+ "|" +:+ canonicalIP ip in
  let! allowed := fun g =>
    let '(ok, l) := Allow key 10 (se_loginWindow h) t (gw_preauthAuditLimiter g) in (ok, with_preauthAuditLimiter l g) in
  if negb allowed then ret tt
  else
    let username := TrimSpace attemptedUsername in
    let detail := if validUsername username then username else "invalid:" +:+ hex_Encode (take_bytes 8 (sha256 username)) in
    audit_access (MkEvent t event "" "unknown" "" ip userAgent severity {["attempted_username" := AString detail]}).

(** [admitLoginAttempt]: for the pair of user and address, then for the address. *)
Definition admitLoginAttempt (pairKey ip : string) (ipLimit now : Z) : M Gateway (bool * bool) :=
  let! pairAllowed := fun g =>
    let '(ok, l) := Allow pairKey (se_loginLimit h) (se_loginWindow h) now (gw_loginLimiter g) in (ok, with_loginLimiter l g) in
  if negb pairAllowed then ret (false, true)
  else
    let! ipAllowed := fun g =>
      let '(ok, l) := Allow ip ipLimit (se_loginWindow h) now (gw_loginIPLimiter g) in (ok, with_loginIPLimiter l g) in
    ret (true, ipAllowed).

(** What of the client and of the request the steps of [Login] share. *)
Record LoginContext := MkLoginContext {
  lc_username : string; lc_ip : string; lc_userAgent : string; lc_limiterKey : string; lc_now : Z }.
Definition event_of (c : LoginContext) (account : Account) (name severity : string) (details : obj) : AuditEvent :=
  MkEvent zeroTime name (ac_ID account) (ac_Username account) "" (lc_ip c) (lc_userAgent c) severity details.

(** Too many attempts: the lock of the account is reported when it has one. *)
Definition rate_limited (c : LoginContext) (pairAllowed : bool) : M Gateway AuthError :=
  auditPreauthenticationFailure "LOGIN_RATE_LIMITED" (lc_username c) (lc_ip c) (lc_userAgent c) "critical" ;;;
  let limited := MkAuthError "login_rate_limited" "Too many sign-in attempts. Try again later." StatusTooManyRequests in
  if pairAllowed then ret limited
  else
    let! found := on_store (ByUsername (lc_username c)) in
    match found with
    | Err _ => ret limited
    | Ok account =>
        let! r := applyAccountLockPolicy account (lc_now c) in
        ret (match r with
             | Err _ => auth_unavailable "Sign in is temporarily unavailable."
             | Ok account => if ac_AccountLocked account then temporaryAccountLockError else limited
             end)
    end.

(** The checks before an account is looked up. *)
Definition login_admitted (input : LoginInput) : M Gateway (result LoginStop LoginContext) :=
  if negb (se_configured h) then fail (refused unavailableError)
  else
    let username := TrimSpace (li_Username input) in
    let ip := clientIP (se_trustedProxyCIDRs h) (li_Request input) in
    let userAgent := cleanUserAgent (li_Request input) in
    if negb (secureRequest (se_trustedProxyCIDRs h) (li_Request input)) then
      auditPreauthenticationFailure "LOGIN_INSECURE_TRANSPORT_DENIED" username ip userAgent "critical" ;;;
      fail (refused (MkAuthError "https_required" "Sign in requires HTTPS." StatusUpgradeRequired))
    else if negb (validUsername username) || (String.length (li_Password input) =? 0)%nat ||
            (maxPasswordBytes <? String.length (li_Password input))%nat
    then fail (refused invalidCredentials)
    else if negb (ipAllowed ip (se_loginCIDRAllowlist h)) then
      auditPreauthenticationFailure "LOGIN_CIDR_DENIED" username ip userAgent "critical" ;;;
      fail (refused (MkAuthError "login_not_allowed" "Sign in is not allowed from this network." StatusForbidden))
    else
      let limiterKey := ToLower username +:+ "|" +:+ ip in
      let! t := on_world now in
      let c := MkLoginContext username ip userAgent limiterKey t in
      let! admitted := admitLoginAttempt limiterKey ip (Z.max (se_loginLimit h * 5) 20) t in
      let '(pairAllowed, ipRateAllowed) := admitted in
      if negb pairAllowed || negb ipRateAllowed then let! e := rate_limited c pairAllowed in fail (refused e)
      else ret (Ok c).

(** The account of the name, its lock and its networks. *)
Definition login_account (input : LoginInput) (c : LoginContext) : M Gateway (result LoginStop Account) :=
  let! found := on_store (ByUsername (lc_username c)) in
  match found with
  | Err errAccountNotFound =>
      let! _ := on_world (verifyPassword (se_pepper h) (se_dummyPasswordHash h) (li_Password input)) in
      fail (refused invalidCredentials)
  | Err _ => fail (refused (auth_unavailable "Sign in is temporarily unavailable."))
  | Ok account =>
      let! policed := applyAccountLockPolicy account (lc_now c) in
      match policed with
      | Err _ => fail (refused (auth_unavailable "Sign in is temporarily unavailable."))
      | Ok account =>
          if ac_AccountLocked account then fail (refused temporaryAccountLockError)
          else
            match parseCIDRList (po_CIDRWhitelist (ac_policy account)) with
            | None =>
                audit_access (event_of c account "LOGIN_ACCOUNT_CIDR_POLICY_INVALID" "critical" ∅) ;;;
                fail (refused (auth_unavailable "The account network policy is invalid."))
            | Some accountCIDRs =>
                if negb (ipAllowed (lc_ip c) accountCIDRs) then
                  audit_access (event_of c account "LOGIN_ACCOUNT_CIDR_DENIED" "critical" ∅) ;;;
                  fail (refused (MkAuthError "login_not_allowed" "Sign in is not allowed from this network." StatusForbidden))
                else ret (Ok account)
            end
      end
  end.

(** A failure is recorded, and the error it is answered with. *)
Definition login_failure (c : LoginContext) (account : Account) (name failed_name detail : string) (answer : AuthError) :
    M Gateway AuthError :=
  let! recorded := on_store (RecordLoginFailureIfAuthVersion (se_postgres h) (ac_ID account) (ac_authVersion account)
                               (se_loginLimit h) (se_loginWindow h) (lc_now c)) in
  match recorded with
  | Err errAccountVersionChanged => ret invalidCredentials
  | Err _ => audit_access (event_of c account failed_name "critical" ∅) ;;; ret (auth_unavailable detail)
  | Ok updated =>
      audit_access (event_of c account name "" {["failed_attempts" := AInt (ac_FailedLoginAttempts updated)]}) ;;;
      if ac_AccountLocked updated then sessions_DeleteUser (ac_ID account) ;;; ret temporaryAccountLockError
      else ret answer
  end.

Definition login_password (input : LoginInput) (c : LoginContext) (account : Account) : M Gateway (result LoginStop unit) :=
  let! verified := on_world (verifyPassword (se_pepper h) (ac_passwordHash account) (li_Password input)) in
  match verified with
  | Err _ => fail (refused (auth_unavailable "Sign in is temporarily unavailable."))
  | Ok true => ret (Ok tt)
  | Ok false =>
      let! e := login_failure c account "LOGIN_FAILURE" "LOGIN_FAILURE_STATE_ERROR"
                  "Sign in failure state could not be recorded." invalidCredentials in
      fail (refused e)
  end.

Definition refreshLoginAccount (previous : Account) : M Gateway (result LoginStop Account) :=
  let! found := on_store (ByID (ac_ID previous)) in
  match found with
  | Err errAccountNotFound => fail (refused invalidCredentials)
  | Err _ => fail (refused (auth_unavailable "Sign in is temporarily unavailable."))
  | Ok account =>
      let! t := on_world now in
      let! policed := applyAccountLockPolicy account t in
      match policed with
      | Err _ => fail (refused (auth_unavailable "Sign in is temporarily unavailable."))
      | Ok account =>
          if ac_AccountLocked account then fail (refused temporaryAccountLockError)
          else if negb (ac_authVersion account =? ac_authVersion previous)%Z then fail (refused login_state_changed)
          else ret (Ok account)
      end
  end.

(** ** The second factor *)

(** [Time.Unix]. *)
Definition Unix (t : Z) : Z := t / Second.
(** The loop of [validateMFA] over the steps before, at and after [now]: the step
    whose code the passcode is, 0 when there is none. *)
Fixpoint accepted_step_of (secret passcode : string) (now : Z) (offsets : list Z) : option Z :=
  match offsets with
  | [] => Some 0
  | offset :: offsets' =>
      let candidateTime := Add now (offset * (30 * Second)) in
      match totp_ValidateCustom passcode secret candidateTime with
      | None => None
      | Some true => Some (Z.quot (Unix candidateTime) 30)
      | Some false => accepted_step_of secret passcode now offsets'
      end
  end.
Definition validateMFA (account : Account) (passcode : string) (now : Z) : M Gateway (result storeError unit) :=
  match decryptMFASecret (se_mfaKey h) (ac_ID account) (ac_mfaSecret account) with
  | Err e => ret (Err (storeFailure e))
  | Ok secret =>
      let passcode := TrimSpace passcode in
      if negb (String.length passcode =? 6)%nat then ret (Err (storeFailure "invalid MFA code"))
      else
        match accepted_step_of secret passcode now [-1; 0; 1] with
        | None => ret (Err (storeFailure "validate passcode"))
        | Some acceptedStep =>
            if (acceptedStep =? 0)%Z || (acceptedStep <=? ac_mfaLastStep account)%Z
            then ret (Err (storeFailure "invalid or replayed MFA code"))
            else on_store (AcceptMFAStep (se_postgres h) (ac_ID account) (ac_authVersion account) acceptedStep)
        end
  end.

Definition enrollment (secret uri : string) : LoginStop :=
  (MkLoginResult "" None false true secret uri false, mfaEnrollmentRequiredError).
(** The number of the next reading of crypto/rand. *)
Definition next_random : M World nat := fun w =>
  (attempts w, MkWorld (reads w) (S (attempts w)) (files w) (published w) (archive w)).
Definition startMFAEnrollment (c : LoginContext) (account : Account) : M Gateway LoginStop :=
  let! n := on_world next_random in
  match totp_Generate n pasetoIssuer (ac_Username account) with
  | None => ret (refused (auth_unavailable "MFA enrollment could not be created."))
  | Some (secret, url) =>
      let! encrypted := on_world (encryptMFASecret (se_mfaKey h) (ac_ID account) secret) in
      match encrypted with
      | Err _ => ret (refused (auth_unavailable "MFA enrollment could not be protected."))
      | Ok encrypted =>
          let! stored := on_store (SetMFAIfAuthVersion (se_postgres h) (ac_ID account) encrypted (ac_authVersion account)) in
          match stored with
          | Err errAccountVersionChanged => ret (refused login_state_changed)
          | Err _ => ret (refused (auth_unavailable "MFA enrollment could not be saved."))
          | Ok _ => audit_access (event_of c account "MFA_ENROLLMENT_STARTED" "" ∅) ;;; ret (enrollment secret url)
          end
      end
  end.

(** [url.QueryEscape]. *)
Definition query_plain (a : Ascii.ascii) : bool :=
  let v := byte_val a in
  is_digit v || is_lower v || is_upper v || (v =? 45)%Z || (v =? 46)%Z || (v =? 95)%Z || (v =? 126)%Z.
Definition upper_hex (v : Z) : Ascii.ascii := byte_of (if (v <? 10)%Z then 48 + v else 55 + v).
Definition query_byte (a : Ascii.ascii) : list Ascii.ascii :=
  if query_plain a then [a]
  else if (byte_val a =? 32)%Z then ["+"%char]
  else ["%"%char; upper_hex (byte_val a / 16); upper_hex (byte_val a mod 16)].
Definition QueryEscape (s : string) : string := string_of (concat (map query_byte (bytes_of s))).
Definition pendingMFAEnrollment (account : Account) : LoginStop :=
  match decryptMFASecret (se_mfaKey h) (ac_ID account) (ac_mfaSecret account) with
  | Err _ => refused (auth_unavailable "MFA enrollment could not be recovered.")
  | Ok secret =>
      enrollment secret
        ("otpauth://totp/" +:+ QueryEscape (pasetoIssuer +:+ ":" +:+ ac_Username account) +:+ "?secret=" +:+ QueryEscape secret +:+
         "&issuer=" +:+ QueryEscape pasetoIssuer +:+ "&period=30&digits=6&algorithm=SHA1")
  end.

(** The part of [Login] for the second factor. *)
Definition login_mfa (input : LoginInput) (c : LoginContext) (account : Account) : M Gateway (result LoginStop Account) :=
  if negb (se_enforceMFA h || ac_MFAEnabled account) then ret (Ok account)
  else if negb (ac_MFAConfigured account) then let! stop := startMFAEnrollment c account in fail stop
  else if TrimSpace (li_TOTP input) =? "" then
    fail (if negb (ac_MFAEnabled account) then pendingMFAEnrollment account
          else refused (MkAuthError "mfa_required" "Enter the current authentication code." StatusUnauthorized))
  else
    let! validated := validateMFA account (li_TOTP input) (lc_now c) in
    match validated with
    | Err _ =>
        let! e := login_failure c account "MFA_FAILURE" "MFA_FAILURE_STATE_ERROR" "MFA failure state could not be recorded."
                    (MkAuthError "invalid_mfa" "The authentication code is invalid or was already used." StatusUnauthorized) in
        fail (refused e)
    | Ok _ =>
        if ac_MFAEnabled account then ret (Ok account)
        else
          let! enabled := on_store (EnableMFAIfAuthVersion (se_postgres h) (ac_ID account) (ac_authVersion account)) in
          match enabled with
          | Err errAccountVersionChanged => fail (refused login_state_changed)
          | Err _ => fail (refused (auth_unavailable "MFA enrollment could not be completed."))
          | Ok _ => ret (Ok (with_mfa (ac_mfaSecret account) true (ac_mfaLastStep account) account))
          end
    end.

(** ** The session *)

Definition passwordExpired (account : Account) (now : Z) : bool :=
  if (po_PasswordExpiryDays (ac_policy account) <=? 0)%Z || IsZero (ac_PasswordChangedAt account) then false
  else negb (After (Add (ac_PasswordChangedAt account) (po_PasswordExpiryDays (ac_policy account) * 24 * Hour)) now).
Definition issueToken (account : Account) (sessionID ip : string) (issuedAt expiresAt : Z) (change : bool) : M World string :=
  let! n := next_random in
  ret (V4Encrypt n (se_pasetoKey h)
    (MkTokenClaims pasetoIssuer pasetoAudience (ac_ID account) sessionID issuedAt (Add issuedAt (- (5 * Second))) expiresAt
       (ac_Username account) ip (ac_IsAdmin account) change (ac_authVersion account)) pasetoImplicitAssertion).

(** The part of [Login] after all the factors. *)
Definition login_session (input : LoginInput) (c : LoginContext) (account : Account) : M Gateway (result LoginStop LoginResult) :=
  let ip := lc_ip c in
  let now := lc_now c in
  let persistent := li_Persistent input in
  if persistent && negb (po_AllowPersistentSessions (ac_policy account)) then
    fail (refused (MkAuthError "persistent_session_not_allowed"
      "This account cannot keep sessions signed in. Uncheck that option, or ask an administrator to enable persistent sessions in Accounts."
      StatusForbidden))
  else
    let expiresAt := Add now (if persistent then se_persistentTTL h else se_sessionTTL h) in
    let change := passwordExpired account now in
    if change && negb (po_AllowUserPasswordChange (ac_policy account)) then
      audit_access (event_of c account "PASSWORD_RESET_REQUIRED" "warning" ∅) ;;;
      fail (refused (MkAuthError "password_reset_required"
        "This password has expired and must be reset by an administrator." StatusForbidden))
    else
      let! raw := on_world randomToken in
      match raw with
      | None => fail (refused (auth_unavailable "A secure session could not be created."))
      | Some rawSessionID =>
          let! token := on_world (issueToken account rawSessionID ip now expiresAt change) in
          let userAgent := if change then lc_userAgent c +:+ " [password-change-required]" else lc_userAgent c in
          let session := MkSession "" (ac_ID account) (ac_Username account) ip userAgent persistent (ac_authVersion account)
                           now now expiresAt in
          let! put := sessions_Put rawSessionID session in
          if negb put then fail (refused (auth_unavailable "The session registry is unavailable."))
          else
            let! recorded := on_store (RecordLoginSuccess (se_postgres h) (ac_ID account) ip (ac_authVersion account)) in
            match recorded with
            | Err e =>
                sessions_Delete rawSessionID ;;;
                fail (refused (match e with
                               | errAccountVersionChanged => login_state_changed
                               | _ => auth_unavailable "The account state could not be updated."
                               end))
            | Ok _ =>
                let! audited :=
                  if po_LoggingEnabled (ac_policy account) then
                    audit "access" (MkEvent zeroTime "LOGIN_SUCCESS" (ac_ID account) (ac_Username account)
                      (sessionIDDigest rawSessionID) ip (lc_userAgent c) ""
                      {["persistent_session" := ABool persistent; "password_change_required" := ABool change]})
                  else ret None in
                match audited with
                | Some _ =>
                    sessions_Delete rawSessionID ;;;
                    fail (refused (MkAuthError "audit_unavailable" "Audit integrity could not be established." StatusServiceUnavailable))
                | None =>
                    modify (fun g => with_loginLimiter (Reset (lc_limiterKey c) (gw_loginLimiter g)) g) ;;;
                    let caller := MkIdentity (with_login ip now account) session change rawSessionID in
                    ret (Ok (MkLoginResult token (Some caller) persistent false "" "" change))
                end
            end
      end.

Definition Login (input : LoginInput) : M Gateway (result LoginStop LoginResult) :=
  try! c := login_admitted input in
  try! account := login_account input c in
  try! _ := login_password input c account in
  try! account := refreshLoginAccount account in
  try! account := login_mfa input c account in
  try! account := refreshLoginAccount account in
  login_session input c account.

(** ** Authentication of a request *)

Definition auditExpiredSession (request : Request) (rawToken : string) : M Gateway unit :=
  match ParseUnchecked (se_pasetoKey h) rawToken pasetoIssuer pasetoAudience pasetoImplicitAssertion with
  | None => ret tt
  | Some token =>
      match pt_Expiration token with
      | None => ret tt
      | Some expiresAt =>
          let! t := on_world now in
          if After expiresAt t then ret tt
          else
            let rawSessionID := default "" (pt_Jti token) in
            if rawSessionID =? "" then ret tt
            else
              let digest := sessionIDDigest rawSessionID in
              let! t := on_world now in
              let! allowed := fun g =>
                let '(ok, l) := Allow digest 1 (24 * Hour) t (gw_expiryAuditLimiter g) in (ok, with_expiryAuditLimiter l g) in
              let userID := default "" (pt_Subject token) in
              if negb allowed || (userID =? "") then ret tt
              else
                let! found := on_store (ByID userID) in
                match found with
                | Err _ => ret tt
                | Ok account =>
                    if negb (po_LoggingEnabled (ac_policy account)) then ret tt
                    else
                      audit_access (MkEvent zeroTime "SESSION_EXPIRED" (ac_ID account) (ac_Username account) digest
                        (clientIP (se_trustedProxyCIDRs h) (Some request)) (cleanUserAgent (Some request)) ""
                        {["expired_at" := AString (FormatRFC3339Nano expiresAt)]})
                end
      end
  end.

(** The claims of a token that [Authenticate] goes by. *)
Definition session_claims (token : parsedToken) : result AuthError (string * string * string * Z) :=
  let missing := invalid_session "The session is invalid." in
  match pt_Jti token, pt_Subject token, pt_ip token, pt_auth_version token with
  | Some jti, Some subject, Some ip, Some version =>
      if (jti =? "") || (subject =? "") || (version <? 1)%Z then Err missing else Ok (jti, subject, ip, version)
  | _, _, _, _ => Err missing
  end.
(** The session is given up. *)
Definition dropped (raw : string) (e : AuthError) : M Gateway (result AuthError Identity) := sessions_Delete raw ;;; fail e.
Definition session_event (session : ActiveSession) (request : Request) (ip name severity : string) (details : obj) : AuditEvent :=
  MkEvent zeroTime name (as_UserID session) (as_Username session) (as_ID session) ip (cleanUserAgent (Some request)) severity details.

(** The account of a session whose token and address fit. *)
Definition authenticate_account (raw userID : string) (version now : Z) (session : ActiveSession) :
    M Gateway (result AuthError Identity) :=
  let! found := on_store (ByID userID) in
  match found with
  | Err errAccountNotFound =>
      dropped raw (MkAuthError "session_revoked" "The account session is no longer active." StatusUnauthorized)
  | Err _ => fail (MkAuthError "session_unavailable" "The account store is unavailable." StatusServiceUnavailable)
  | Ok account =>
      if ac_AccountLocked account then
        dropped raw (MkAuthError "session_revoked" "The account session is no longer active." StatusUnauthorized)
      else if negb (ac_authVersion account =? version)%Z then
        dropped raw (MkAuthError "session_revoked" "The account credentials or session policy changed." StatusUnauthorized)
      else
        let change := passwordExpired account now in
        if (30 * Second <=? Sub now (as_LastSeenAt session))%Z then
          let! touched := sessions_Touch raw now in
          if negb touched then
            fail (MkAuthError "session_unavailable" "The session registry is unavailable." StatusServiceUnavailable)
          else ret (Ok (MkIdentity account (with_seen now session) change raw))
        else ret (Ok (MkIdentity account session change raw))
  end.

Definition Authenticate (request : option Request) : M Gateway (result AuthError Identity) :=
  if negb (se_configured h) then fail unavailableError
  else
    match request with
    | None => fail (MkAuthError "https_required" "This page requires HTTPS." StatusUpgradeRequired)
    | Some r =>
        if negb (secureRequest (se_trustedProxyCIDRs h) request)
        then fail (MkAuthError "https_required" "This page requires HTTPS." StatusUpgradeRequired)
        else
          let rawToken := accountTokenFromRequest request in
          if rawToken =? "" then fail (MkAuthError "unauthorized" "Authentication is required." StatusUnauthorized)
          else
            let! t := on_world now in
            match ParseValidNow (se_pasetoKey h) rawToken pasetoIssuer pasetoAudience t pasetoImplicitAssertion with
            | None => auditExpiredSession r rawToken ;;; fail (invalid_session "The session is invalid or expired.")
            | Some token =>
                match session_claims token with
                | Err e => fail e
                | Ok (rawSessionID, userID, tokenIP, version) =>
                    let! session := sessions_Get rawSessionID in
                    match session with
                    | None => fail (invalid_session "The session was revoked or is unavailable.")
                    | Some session =>
                        let! t := on_world now in
                        let ip := clientIP (se_trustedProxyCIDRs h) request in
                        if negb (as_UserID session =? userID) || negb (as_AuthVersion session =? version)%Z ||
                           negb (sameCanonicalIP tokenIP ip) || negb (sameCanonicalIP (as_IP session) ip)
                        then
                          sessions_Delete rawSessionID ;;;
                          audit_access (session_event session r ip "SESSION_IP_MISMATCH" "critical"
                            {["issued_ip" := AString (as_IP session)]}) ;;;
                          fail (MkAuthError "session_ip_mismatch"
                            "The session was revoked because the client address changed." StatusUnauthorized)
                        else if (0 <? se_idleTimeout h)%Z && negb (as_Persistent session) &&
                                (se_idleTimeout h <? Sub t (as_LastSeenAt session))%Z
                        then
                          sessions_Delete rawSessionID ;;;
                          audit_access (session_event session r ip "SESSION_IDLE_EXPIRED" "" ∅) ;;;
                          fail (MkAuthError "session_expired" "The session expired due to inactivity." StatusUnauthorized)
                        else authenticate_account rawSessionID userID version t session
                    end
                end
            end
    end.

Definition Logout (request : option Request) : M Gateway (option AuthError) :=
  match request with
  | None => ret None
  | Some _ =>
      let! authenticated := Authenticate request in
      match authenticated with
      | Err e => ret (if (ae_HTTPStatus e =? StatusUnauthorized)%Z then None else Some e)
      | Ok caller =>
          sessions_Delete (id_RawSessionID caller) ;;;
          let account := id_Account caller in
          let session := id_Session caller in
          if negb (po_LoggingEnabled (ac_policy account)) then ret None
          else
            let! err := audit "access" (MkEvent zeroTime "LOGOUT" (ac_ID account) (ac_Username account) (as_ID session)
                                          (as_IP session) (as_UserAgent session) "" ∅) in
            ret (match err with
                 | Some _ => Some (MkAuthError "audit_unavailable"
                               "The session was revoked, but its audit record could not be written." StatusServiceUnavailable)
                 | None => None
                 end)
      end
  end.

(** ** Accounts, sessions and locks for the panel *)

Fixpoint police_all (accounts : list Account) (now : Z) : M Gateway (result storeError (list Account)) :=
  match accounts with
  | [] => ret (Ok [])
  | account :: accounts' =>
      try! account := if ac_AccountLocked account then applyAccountLockPolicy account now else ret (Ok account) in
      try! policed := police_all accounts' now in
      ret (Ok (account :: policed))
  end.
Definition ListAccounts : M Gateway (result storeError (list Account)) :=
  try! accounts := on_store ListAll in
  let! t := on_world now in
  police_all accounts t.
Definition ListSessions (userID : string) : M Gateway (list ActiveSession) := sessions_ListUser userID.
Definition RevokeSession (digest : string) : M Gateway unit := on_registry (fun r => (tt, DeleteDigest digest r)).
Definition RevokeUser (userID : string) : M Gateway (result storeError unit) :=
  let! _ := on_store (ByID userID) in
  try! _ := on_store (BumpAuthVersion (se_postgres h) userID) in
  purgeUserSessionLeases userID ;;; ret (Ok tt).
Definition PurgeUserSessionLeases (userID : string) : M Gateway unit :=
  let! _ := on_store (ByID userID) in purgeUserSessionLeases userID.

(** The pass over the locks at the start and in the background. *)
Fixpoint repair_all (accounts : list Account) (now : Z) : M Gateway (result storeError unit) :=
  match accounts with
  | [] => ret (Ok tt)
  | account :: accounts' =>
      if negb (ac_AccountLocked account) then repair_all accounts' now
      else try! _ := applyAccountLockPolicy account now in repair_all accounts' now
  end.
Definition repairAccountLocks (now : Z) : M Gateway (result storeError unit) :=
  try! accounts := on_store ListAll in repair_all accounts now.
Definition minimumAccountLockRepairInterval : Z := 5 * Second.
Definition maximumAccountLockRepairInterval : Z := 15 * Second.
Definition accountLockRepairInterval (lockDuration : Z) : Z :=
  let interval := Z.quot lockDuration 4 in
  if (interval <? minimumAccountLockRepairInterval)%Z then minimumAccountLockRepairInterval
  else if (maximumAccountLockRepairInterval <? interval)%Z then maximumAccountLockRepairInterval
  else interval.

(** The first administrator of an empty table; [env] is [os.Getenv]. *)
Definition bootstrapFirstAdmin (env : string -> string) (usernameEnv passwordEnv : string) : M Gateway (result storeError unit) :=
  try! count := on_store Count in
  if (0 <? count)%Z then ret (Ok tt)
  else
    let usernameEnv := firstNonBlank [usernameEnv; "HAZE_BOOTSTRAP_ADMIN_USERNAME"] in
    let passwordEnv := firstNonBlank [passwordEnv; "HAZE_BOOTSTRAP_ADMIN_PASSWORD"] in
    let username := firstNonBlank [env usernameEnv; "admin"] in
    let password := if env passwordEnv =? "" then env "ADMIN_PASSWD" else env passwordEnv in
    if password =? "" then ret (Err (storeFailure ("account database is empty and " +:+ passwordEnv +:+ " is not configured")))
    else
      let! hash := on_world (hashPassword (se_pepper h) password) in
      match hash with
      | Err e => ret (Err (storeFailure ("hash bootstrap administrator password: " +:+ e)))
      | Ok hash =>
          let policy := MkPolicy username "" false true ["CIV"; "EAS"; "PEP"; "WXR"] [] false "" false true true 90 true true true [] in
          on_store (Create (se_postgres h)
            (MkAccount "" policy "" zeroTime zeroTime false 0 false false zeroTime zeroTime "" "" 0 0 zeroTime) hash)
      end.

Definition AllowOrigination (caller : Identity) : M Gateway (result AuthError unit) :=
  let account := id_Account caller in
  if negb (po_AllowOrigination (ac_policy account)) then
    fail (MkAuthError "origination_forbidden" "This account is not allowed to originate alerts." StatusForbidden)
  else
    let! t := on_world now in
    let! allowed := fun g =>
      let '(ok, l) := Allow (ac_ID account) (se_originationRate h) Second t (gw_originationLimiter g) in
      (ok, with_originationLimiter l g) in
    if negb allowed then
      fail (MkAuthError "origination_rate_limited"
        ("Alert origination is limited to " +:+ Itoa (se_originationRate h) +:+ " requests per second.") StatusTooManyRequests)
    else ret (Ok tt).
End gateway.
