(* ===== verification/AccountAuthSafety.v ===== *)
(** What a successful sign-in and an accepted session guarantee.

    The operations of [AccountAuth] are described by specifications over the table of
    accounts, from a state to the next: the table evolves only as its own operations
    allow ([evolves]), and a fact that evolution keeps ([stable]) may be carried
    through any of them. *)

From stdpp Require Import stringmap.
From S2P Require Import Prelude UnicodeTables GoStrings SampleCodec GoTime GoValue GoPath GoCrypto GoNet AlertPacket.
From S2P Require Import PlaylistModel World Secrets AlertRequest AudioRetention PlannerState AlertCommit Wav AudioFiles AuditLog.
From S2P Require Import Accounts AccountsSafety Sessions GatewayRequest AccountAuth.

#[local] Open Scope Z_scope.
#[local] Open Scope string_scope.
#[local] Open Scope haze_scope.

(** ** How the table evolves *)

Definition fair (id : string) (o : operation) : Prop :=
  o <> ODelete id /\ match o with OCreate a _ => trimmed_id (ac_ID a) | _ => True end.
Record table_good (us : users) : Prop := {
  good_ok : table_ok us;
  good_ids k : is_Some (us !! k) -> trimmed_id k }.

(** The account [id] is kept, and guarded by its version. *)
Definition evolves (id : string) (us us' : users) : Prop :=
  (table_good us -> table_good us') /\
  forall a, us !! id = Some a -> exists b, us' !! id = Some b /\ guarded a b.
#[export] Instance evolves_preorder id : PreOrder (evolves id).
Proof.
  split.
  - intros us. split; [done|]. intros a Ha. by exists a.
  - intros us1 us2 us3 [G1 K1] [G2 K2]. split; [tauto|]. intros a Ha. destruct (K1 a Ha) as (b & Hb & Hab).
    destruct (K2 b Hb) as (c & Hc & Hbc). exists c. split; [done|]. by trans b.
Qed.

Lemma evolves_change id o us t us' : fair id o -> change_of o t -> txn_ok t -> changes us t us' -> evolves id us us'.
Proof.
  intros [Hdel Hfair] [Hd Hi] Ht Hc. split.
  - intros [Hok Hids]. split; [by eapply changes_ok|]. intros k [b Hb]. destruct (us !! k) as [a|] eqn:E; [by apply Hids|].
    destruct (row_origin _ _ _ k b Hc E Hb) as [-> <-]. destruct (Hi b eq_refl) as (c & hash & -> & Hcb). by apply Hcb.
  - intros a Ha. destruct (row_fate us t us' id a Hc Ha) as [[-> _]|Hb]; [|done]. exfalso. by apply Hdel, Hd.
Qed.

(** A row that was seen before. *)
Definition since (id : string) (b : Account) (us : users) : Prop := exists row, us !! id = Some row /\ guarded b row.
(** An account that was just read. *)
Definition read (a : Account) (us : users) : Prop := exists b, us !! ac_ID b = Some b /\ a = configured b /\ trimmed_id (ac_ID b).
Definition stable (id : string) (P : users -> Prop) : Prop := forall us us', evolves id us us' -> P us -> P us'.
Lemma stable_since id b : stable id (since id b).
Proof.
  intros us us' [_ K] (row & Hrow & Hg). destruct (K row Hrow) as (row' & Hrow' & Hg'). exists row'. split; [done|]. by trans row.
Qed.
Lemma stable_and id P Q : stable id P -> stable id Q -> stable id (fun us => P us /\ Q us).
Proof. intros HP HQ us us' He [? ?]. split; [by eapply HP|by eapply HQ]. Qed.
Lemma stable_impl id (p : Prop) Q : (p -> stable id Q) -> stable id (fun us => p -> Q us).
Proof. intros HQ us us' He H Hp. by eapply HQ; [| |apply H]. Qed.
Lemma stable_pure id (p : Prop) : stable id (fun _ => p).
Proof. by intros us us' _ Hp. Qed.
Lemma stable_ex {A} id (P : A -> users -> Prop) : (forall a, stable id (P a)) -> stable id (fun us => exists a, P a us).
Proof. intros HP us us' He [a Ha]. exists a. by eapply HP. Qed.
Lemma stable_after id us0 : stable id (evolves id us0).
Proof. intros us us' He H. by trans us. Qed.
Create HintDb stable.
#[export] Hint Resolve stable_since stable_and stable_impl stable_pure stable_ex stable_after : stable.

Lemma configured_ID a : ac_ID (configured a) = ac_ID a.
Proof. by destruct a. Qed.
Lemma configured_version a : ac_authVersion (configured a) = ac_authVersion a.
Proof. by destruct a. Qed.
Lemma configured_credentials a : credentials (configured a) = credentials a.
Proof. by destruct a. Qed.
Lemma configured_MFAEnabled a : ac_MFAEnabled (configured a) = ac_MFAEnabled a.
Proof. by destruct a. Qed.

(** ** Specifications *)

Section specs.
Context `{Env} `{Tools} `{AuditCodec} `{SecretTools} `{Paseto} `{Totp} `{Others} (h : AuthSettings).
Context (id : string) (Hothers : forall n, Forall (fair id) (other_operations n)).

Definition accounts_of (g : Gateway) : users := st_users (gw_store g).
Definition spec {A} (P : users -> Prop) (m : M Gateway A) (Q : A -> users -> Prop) : Prop :=
  forall g, table_good (accounts_of g) -> P (accounts_of g) ->
    evolves id (accounts_of g) (accounts_of (m g).2) /\ Q (m g).1 (accounts_of (m g).2).
(** What holds when a handler goes on. *)
Definition going {E A} (Q : A -> users -> Prop) (r : result E A) (us : users) : Prop :=
  match r with Ok a => Q a us | Err _ => True end.

Lemma spec_ret {A} P (a : A) : spec P (ret a) (fun x us => x = a /\ P us).
Proof. by intros g Hg HP. Qed.
Lemma spec_ok {E A} P (a : A) (Q : A -> users -> Prop) :
  (forall us, P us -> Q a us) -> spec P (ret (Ok a : result E A)) (going Q).
Proof. intros HQ g Hg HP. split; [done|by apply HQ]. Qed.
Lemma spec_err {E A} P (e : E) (Q : A -> users -> Prop) : spec P (ret (Err e)) (going Q).
Proof. by intros g Hg HP. Qed.
Lemma spec_bind {A B} P (m : M Gateway A) Q (f : A -> M Gateway B) R :
  spec P m Q -> (forall a, spec (Q a) (f a) R) -> spec P (mbind f m) R.
Proof.
  intros Hm Hf g Hg HP. rewrite mbind_eq. destruct (Hm g Hg HP) as [He HQ].
  destruct (Hf (m g).1 (m g).2) as [He' HR]; [by apply He|done|]. split; [by trans (accounts_of (m g).2)|done].
Qed.
Lemma spec_weaken {A} (P P' : users -> Prop) (m : M Gateway A) (Q Q' : A -> users -> Prop) :
  spec P m Q -> (forall us, table_good us -> P' us -> P us) -> (forall a us, table_good us -> Q a us -> Q' a us) -> spec P' m Q'.
Proof.
  intros Hm HP HQ g Hg HP'. destruct (Hm g Hg) as [He Hq]; [by apply HP|]. split; [done|]. apply HQ; [by apply He|done].
Qed.
Lemma spec_frame {A} P (m : M Gateway A) Q F : stable id F -> spec P m Q ->
  spec (fun us => P us /\ F us) m (fun a us => Q a us /\ F us).
Proof. intros HF Hm g Hg [HP HFg]. destruct (Hm g Hg HP) as [He HQ]. split; [done|]. split; [done|by eapply HF]. Qed.
Lemma spec_frame_going {E A} P (m : M Gateway (result E A)) Q F : stable id F -> spec P m (going Q) ->
  spec (fun us => P us /\ F us) m (going (fun a us => Q a us /\ F us)).
Proof.
  intros HF Hm. eapply spec_weaken; [by apply (spec_frame P m (going Q) F)|done|]. by intros [a|e] us _ [? ?].
Qed.
(** An operation of which only the evolution matters. *)
Definition moves {A} (m : M Gateway A) : Prop := forall P, stable id P -> spec P m (fun _ => P).
Lemma moves_spec {A} (m : M Gateway A) : spec (fun _ => True) m (fun _ _ => True) -> moves m.
Proof. intros Hm P HP g Hg HPg. destruct (Hm g Hg I) as [He _]. split; [done|by eapply HP]. Qed.
Lemma spec_moves {A} (m : M Gateway A) : moves m -> spec (fun _ => True) m (fun _ _ => True).
Proof. intros Hm. apply Hm. intros ????; done. Qed.
Lemma moves_ret {A} (a : A) : moves (ret a).
Proof. by intros P HP g Hg HPg. Qed.
Lemma moves_bind {A B} (m : M Gateway A) (f : A -> M Gateway B) : moves m -> (forall a, moves (f a)) -> moves (mbind f m).
Proof. intros Hm Hf P HP. eapply spec_bind; [by apply Hm|]. intros a. by apply Hf. Qed.
(** An operation that leaves the table as it is. *)
Lemma spec_still {A} P (m : M Gateway A) : (forall g, accounts_of (m g).2 = accounts_of g) -> spec P m (fun _ => P).
Proof. intros Hm g Hg HP. by rewrite Hm. Qed.
Lemma moves_still {A} (m : M Gateway A) : (forall g, accounts_of (m g).2 = accounts_of g) -> moves m.
Proof. intros Hm P _. by apply spec_still. Qed.
Lemma world_still {A} (m : M World A) g : accounts_of (on_world m g).2 = accounts_of g.
Proof. rewrite on_world_eq. by destruct g. Qed.
Lemma spec_world {A} P (m : M World A) : spec P (on_world m) (fun _ => P).
Proof. apply spec_still, world_still. Qed.
Lemma moves_world {A} (m : M World A) : moves (on_world m).
Proof. intros P _. apply spec_world. Qed.

Lemma perform_evolves o s : fair id o -> evolves id (st_users s) (st_users (perform (se_postgres h) o s).2).
Proof.
  intros Ho. destruct (perform_change (se_postgres h) o s) as [->|(t & Hc & Ht & Hch)]; [done|]. by eapply evolves_change.
Qed.
Lemma perform_all_evolves os s : Forall (fair id) os -> evolves id (st_users s) (st_users (perform_all (se_postgres h) os s).2).
Proof.
  intros Hos. revert s. induction Hos as [|o os Ho Hos IH]; intros s; [done|]. cbn [perform_all for_each]. rewrite mbind_eq.
  trans (st_users (perform (se_postgres h) o s).2); [by apply perform_evolves|apply IH].
Qed.
Lemma lift_store_eq {A} (m : M Store A) g : lift_store m g = ((m (gw_store g)).1, with_accounts (m (gw_store g)).2 g).
Proof. unfold lift_store. by destruct (m (gw_store g)). Qed.
Lemma moves_interfere : moves (interfere h).
Proof.
  apply moves_spec. intros g Hg _. split; [|done]. unfold interfere. rewrite !mbind_eq, lift_store_eq.
  cbn [gets modify fst snd]. destruct g as [s r l i o e p]. cbn. by apply perform_all_evolves.
Qed.

(** *** Access to the table and to the registry *)

Lemma ignore_state {A} (m : M Store A) s : (ignore m s).2 = (m s).2.
Proof. unfold ignore. by rewrite mbind_eq. Qed.
Lemma on_store_spec {A} (P : users -> Prop) (m : M Store A) (Q : A -> users -> Prop) : stable id P ->
  (forall s, evolves id (st_users s) (st_users (m s).2)) ->
  (forall s, table_good (st_users s) -> P (st_users s) -> Q (m s).1 (st_users (m s).2)) ->
  spec P (on_store h m) Q.
Proof.
  intros HP He HQ. unfold on_store. eapply spec_bind; [by apply moves_interfere|]. intros _ g Hg HPg.
  rewrite lift_store_eq. destruct g as [s r l i o e p]. split; [apply He|by apply HQ].
Qed.
Lemma moves_store {A} (m : M Store A) : (forall s, evolves id (st_users s) (st_users (m s).2)) -> moves (on_store h m).
Proof. intros He P HP. apply on_store_spec; [done|done|]. intros s Hs HPs. by eapply HP; [apply He|]. Qed.
(** The operations of the store, by the names others have for them. *)
Lemma operation_evolves {A} (m : M Store A) o : perform (se_postgres h) o = ignore m -> fair id o ->
  forall s, evolves id (st_users s) (st_users (m s).2).
Proof. intros Hm Ho s. rewrite <- ignore_state, <- Hm. by apply perform_evolves. Qed.
Lemma query_spec {A} P (f : users -> result storeError A) : stable id P ->
  spec P (on_store h (query f)) (fun r us => P us /\ (r = f us \/ exists d, r = Err (storeFailure d))).
Proof.
  intros HP. apply on_store_spec; [done| |].
  - intros s. rewrite (steady_query f s). reflexivity.
  - intros s _ HPs. rewrite (steady_query f s). split; [done|]. unfold query. rewrite mbind_eq, on_world_eq. cbn [fst snd].
    destruct (attempt (the_world s)).1 as [d|]; [right; by exists d|by left].
Qed.

Lemma moves_modify (f : Gateway -> Gateway) : (forall g, accounts_of (f g) = accounts_of g) -> moves (modify f).
Proof. intros Hf. by apply moves_still. Qed.
Lemma moves_registry {A} (f : registry -> A * registry) : moves (on_registry h f).
Proof.
  apply moves_bind; [apply moves_interfere|]. intros _. apply moves_still. intros g. destruct (f (gw_sessions g)). by destruct g.
Qed.
Lemma moves_sessions {A} (f : Z -> registry -> A * registry) : moves (on_sessions h f).
Proof.
  apply moves_bind; [apply moves_interfere|]. intros _. apply moves_bind; [apply moves_world|]. intros t.
  apply moves_still. intros g. destruct (f t (gw_sessions g)). by destruct g.
Qed.
Lemma moves_audit category event : moves (audit h category event).
Proof. apply moves_world. Qed.
Lemma moves_audit_access event : moves (audit_access h event).
Proof. apply moves_bind; [apply moves_audit|]. intros _. apply moves_ret. Qed.
Lemma spec_audit_access P event : spec P (audit_access h event) (fun _ => P).
Proof. apply spec_still. intros g. unfold audit_access. rewrite mbind_eq. apply world_still. Qed.
Lemma moves_limiter (key : string) limit window now (get : Gateway -> limiter) (put : limiter -> Gateway -> Gateway) :
  (forall l g, accounts_of (put l g) = accounts_of g) ->
  moves (fun g => let '(ok, l) := Allow key limit window now (get g) in (ok, put l g)).
Proof. intros Hp. apply moves_still. intros g. destruct (Allow _ _ _ _ _). apply Hp. Qed.
Lemma moves_whenb b (m : M Gateway unit) : moves m -> moves (whenb b m).
Proof. intros Hm. destruct b; [done|apply moves_ret]. Qed.
End specs.

Create HintDb moves.
#[export] Hint Resolve moves_ret moves_world moves_audit moves_audit_access moves_registry moves_sessions : moves.
(** Operations built of moves. *)
Ltac moving :=
  repeat first
    [ progress intros
    | solve [eauto with moves]
    | apply moves_bind
    | apply moves_whenb
    | apply moves_ret
    | apply moves_world
    | apply moves_limiter; (intros ? []; done)
    | apply moves_modify; (intros []; done)
    | case_match ].

(** ** Reading accounts *)

Lemma good_scan us k b : table_good us -> us !! k = Some b ->
  scanAccount b = Ok (configured b) /\ ac_ID b = k /\ trimmed_id k.
Proof.
  intros [Hok Hids] Hb. split_and!; [|by apply (table_key us Hok)|apply Hids; by eexists].
  apply normal_scan. by destruct (table_row us Hok k b Hb).
Qed.
Lemma read_by_id us k a : table_good us -> by_id k us = Ok a -> read a us /\ ac_ID a = TrimSpace k.
Proof.
  intros Hg. unfold by_id. destruct (us !! TrimSpace k) as [b|] eqn:Hb; [|done]. cbn [or_err rbind].
  destruct (good_scan us _ b Hg Hb) as (-> & Hid & Ht). intros [= <-]. rewrite configured_ID.
  split; [|done]. exists b. by rewrite Hid.
Qed.
Lemma read_by_username us name a : table_good us -> by_username name us = Ok a ->
  read a us /\ lower (ac_Username a) = lower (TrimSpace name).
Proof.
  intros Hg. unfold by_username. destruct (find _ (map_to_list us)) as [[k b]|] eqn:E; [|done]. cbn [or_err rbind snd].
  apply find_some in E as [Hin E]. apply list_elem_of_In, elem_of_map_to_list in Hin.
  destruct (good_scan us k b Hg Hin) as (-> & Hid & Ht). intros [= <-]. split.
  - exists b. by rewrite Hid.
  - unfold same_name in E. cbn [snd] in E. apply String.eqb_eq in E. by destruct b.
Qed.
Lemma read_since us a : read a us -> exists b, a = configured b /\ since (ac_ID a) b us.
Proof. intros (b & Hb & -> & _). exists b. split; [done|]. rewrite configured_ID. exists b. by split. Qed.

Section reading.
Context `{Env} `{Tools} `{AuditCodec} `{SecretTools} `{Paseto} `{Totp} `{Others} (h : AuthSettings).
Context (id : string) (Hothers : forall n, Forall (fair id) (other_operations n)).
Abbreviation spec := (spec id).
Abbreviation stable := (stable id).
Abbreviation moves := (moves id).

Lemma spec_ByID P k : stable P -> spec P (on_store h (ByID k)) (going (fun a us => P us /\ read a us /\ ac_ID a = TrimSpace k)).
Proof.
  intros HP. eapply spec_weaken; [by apply query_spec|done|]. intros r us Hg [HPus [->|[d ->]]]; [|done].
  destruct (by_id k us) as [a|] eqn:E; [|done]. by destruct (read_by_id us k a Hg E).
Qed.
Lemma spec_ByUsername P name : stable P ->
  spec P (on_store h (ByUsername name)) (going (fun a us => P us /\ read a us /\ lower (ac_Username a) = lower (TrimSpace name))).
Proof.
  intros HP. eapply spec_weaken; [by apply query_spec|done|]. intros r us Hg [HPus [->|[d ->]]]; [|done].
  destruct (by_username name us) as [a|] eqn:E; [|done]. by destruct (read_by_username us name a Hg E).
Qed.

Lemma moves_op {A} (m : M Store A) o : perform (se_postgres h) o = ignore m -> fair id o -> moves (on_store h m).
Proof. intros Hm Ho. apply moves_store; [done|]. by eapply operation_evolves. Qed.
Lemma moves_ByID k : moves (on_store h (ByID k)).
Proof.
  apply moves_store; [done|]. intros s. rewrite (steady_query (by_id k) s : st_users (ByID k s).2 = st_users s). reflexivity.
Qed.
Lemma moves_ByUsername k : moves (on_store h (ByUsername k)).
Proof.
  apply moves_store; [done|]. intros s.
  rewrite (steady_query (by_username k) s : st_users (ByUsername k s).2 = st_users s). reflexivity.
Qed.
Lemma moves_preauth event name ip ua severity : moves (auditPreauthenticationFailure h event name ip ua severity).
Proof. unfold auditPreauthenticationFailure. moving. Qed.
Lemma moves_ResetLoginLimits name ip : moves (ResetLoginLimits name ip).
Proof. unfold ResetLoginLimits. moving. Qed.
Lemma moves_purge k : moves (purgeUserSessionLeases h k).
Proof. by apply moves_registry. Qed.

(** The lock policy hands on the account, or reads it again. *)
Lemma spec_lock_policy P a now : stable P ->
  spec (fun us => P us /\ read a us) (applyAccountLockPolicy h a now)
    (going (fun a' us => P us /\ read a' us /\ ac_ID a' = ac_ID a)).
Proof.
  intros HP. unfold applyAccountLockPolicy. destruct (ac_AccountLocked a) eqn:Hl; cbn [negb].
  2:{ apply spec_ok. intros us [? ?]. by split_and!. }
  assert (Hread : spec (fun us => P us /\ ac_ID a = TrimSpace (ac_ID a)) (on_store h (ByID (ac_ID a)))
            (going (fun a' us => P us /\ read a' us /\ ac_ID a' = ac_ID a))).
  { eapply spec_weaken; [apply (spec_ByID (fun us => P us /\ ac_ID a = TrimSpace (ac_ID a)))|done|].
    - apply stable_and; [done|apply stable_pure].
    - intros [a'|] us _; [|done]. intros [[HPus Hid] [Hr Ha]]. split_and!; [done|done|congruence]. }
  assert (Hdown : forall us, table_good us -> P us /\ read a us -> P us /\ ac_ID a = TrimSpace (ac_ID a)).
  { intros us _ [HPus (b & _ & -> & Hb)]. split; [done|]. by rewrite configured_ID. }
  eapply spec_bind; [apply spec_still; intros g; destruct (IsZero now); [apply world_still|done]|]. intros t. cbn zeta.
  destruct (unlock_reason h a t =? "").
  { apply spec_ok. intros us [? ?]. by split_and!. }
  assert (Hstable : stable (fun us => P us /\ ac_ID a = TrimSpace (ac_ID a))) by (apply stable_and; [done|apply stable_pure]).
  eapply spec_weaken; [|exact Hdown|done].
  eapply spec_bind; [apply (moves_op (UnlockLockedIfAuthVersion _ _ _ t) (OUnlockLockedIf (ac_ID a) (ac_authVersion a) t)); [done|by split|exact Hstable]|].
  intros [[]|e]; [|exact Hread|].
  - eapply spec_bind; [by apply moves_ResetLoginLimits|]. intros ?. eapply spec_bind; [by apply moves_purge|]. intros ?.
    eapply spec_bind; [by apply moves_audit|]. intros [e|]; [|exact Hread].
    apply spec_err.
  - apply spec_err.
Qed.
Lemma moves_lock_policy a now : moves (applyAccountLockPolicy h a now).
Proof.
  unfold applyAccountLockPolicy. assert (Hu : forall t, moves (on_store h
    (UnlockLockedIfAuthVersion (se_postgres h) (ac_ID a) (ac_authVersion a) t))).
  { intros t. apply (moves_op _ (OUnlockLockedIf (ac_ID a) (ac_authVersion a) t)); by try split. }
  pose proof moves_ByID. pose proof moves_ResetLoginLimits. pose proof moves_purge. moving.
Qed.
End reading.

(** ** The steps of [Login] *)

(** What admits a request to sign in. *)
Definition admitted_context (h : AuthSettings) (input : LoginInput) (c : LoginContext) : Prop :=
  se_configured h = true /\ lc_username c = TrimSpace (li_Username input) /\
  lc_ip c = clientIP (se_trustedProxyCIDRs h) (li_Request input) /\
  secureRequest (se_trustedProxyCIDRs h) (li_Request input) = true /\
  ipAllowed (lc_ip c) (se_loginCIDRAllowlist h) = true.
(** The password of a hash. *)
Definition password_matches `{SecretTools} (h : AuthSettings) (hash password : string) : Prop :=
  exists params salt expected, parseSecureArgon2Hash hash = Ok (params, salt, expected) /\
    argon2_IDKey (pepperPassword (se_pepper h) password) salt (ap_time params) (ap_memory params) (ap_parallelism params)
      (String.length expected) = expected.
#[export] Instance Ok_inj {E A} : Inj eq eq (@Ok E A).
Proof. by intros a b [= ->]. Qed.
Lemma verifyPassword_matches `{Env} `{SecretTools} h hash password w :
  (verifyPassword (se_pepper h) hash password w).1 = Ok true -> password_matches h hash password.
Proof.
  unfold verifyPassword. destruct (parseSecureArgon2Hash hash) as [[[params salt] expected]|e] eqn:E; [|done].
  rewrite mbind_eq. destruct (attempt w).1; cbn [fst ret]; [done|]. intros Heq%(inj Ok).
  exists params, salt, expected. split; [done|]. by apply String.eqb_eq.
Qed.
(** The account is open to the address. *)
Definition network_allows (ip : string) (p : accountPolicy) : Prop :=
  exists networks, parseCIDRList (po_CIDRWhitelist p) = Some networks /\ ipAllowed ip networks = true.

Section login.
Context `{Env} `{Tools} `{AuditCodec} `{SecretTools} `{Paseto} `{Totp} `{Others} (h : AuthSettings).
Context (id : string) (Hothers : forall n, Forall (fair id) (other_operations n)).
Abbreviation spec := (spec id).
Abbreviation stable := (stable id).
Abbreviation moves := (moves id).

Lemma spec_stop {E A B} P (m : M Gateway A) (e : E) (Q : B -> users -> Prop) : stable P -> moves m ->
  spec P (m ;;; fail e) (going Q).
Proof. intros HP Hm. eapply spec_bind; [by apply Hm|]. intros a. apply spec_err. Qed.
Lemma moves_rate_limited c pairAllowed : moves (rate_limited h c pairAllowed).
Proof.
  unfold rate_limited. pose proof (moves_preauth h id). pose proof (moves_ByUsername h id Hothers).
  pose proof (moves_lock_policy h id Hothers). moving.
Qed.
Lemma moves_admitLoginAttempt pairKey ip ipLimit now : moves (admitLoginAttempt h pairKey ip ipLimit now).
Proof. unfold admitLoginAttempt. moving. Qed.

Lemma spec_admitted P input : stable P ->
  spec P (login_admitted h input) (going (fun c us => P us /\ admitted_context h input c)).
Proof.
  intros HP. unfold login_admitted. destruct (se_configured h) eqn:Hc; cbn [negb]; [|apply spec_err]. cbn zeta.
  destruct (secureRequest _ _) eqn:Hs; cbn [negb]; [|by apply spec_stop, moves_preauth].
  destruct (_ || _ || _); [apply spec_err|].
  destruct (ipAllowed _ _) eqn:Hip; cbn [negb]; [|by apply spec_stop, moves_preauth].
  eapply spec_bind; [apply spec_world|]. intros t. cbn beta. eapply spec_bind; [by apply moves_admitLoginAttempt|].
  intros [pairAllowed ipRateAllowed]. cbn beta. destruct (_ || _).
  - eapply spec_bind; [by apply moves_rate_limited|]. intros e. apply spec_err.
  - apply spec_ok. intros us HPus. split; [done|]. by split_and!.
Qed.

(** The account the name was found under at some moment since [us0]. *)
Definition found_as (us0 : users) (name : string) (aid : string) (us : users) : Prop :=
  exists us1 b, evolves id us0 us1 /\ us1 !! aid = Some b /\ lower (ac_Username b) = lower (TrimSpace name) /\ evolves id us1 us.
Lemma stable_found_as us0 name aid : stable (found_as us0 name aid).
Proof. intros us us' He (us1 & b & E1 & E2 & E3 & E4). exists us1, b. split_and!; [done..|]. by trans us. Qed.

Lemma spec_account us0 input c : 
  spec (evolves id us0) (login_account h input c) (going (fun a us =>
    evolves id us0 us /\ found_as us0 (lc_username c) (ac_ID a) us /\ read a us /\ network_allows (lc_ip c) (ac_policy a))).
Proof.
  unfold login_account. eapply spec_bind; [apply (spec_ByUsername h id Hothers (evolves id us0)), stable_after|].
  intros [a|[]]; cbn [going];
    [|eapply spec_bind; [apply spec_world|intros ?; apply spec_err]|apply spec_err..].
  eapply spec_bind with (Q := going (fun a' us => (evolves id us0 us /\ found_as us0 (lc_username c) (ac_ID a) us) /\
    read a' us /\ ac_ID a' = ac_ID a)).
  { eapply spec_weaken; [apply (spec_lock_policy h id Hothers (fun us => evolves id us0 us /\ found_as us0 (lc_username c) (ac_ID a) us))| |done].
    - apply stable_and; [apply stable_after|apply stable_found_as].
    - intros us Hg (He & Hr & Hname). split; [|done]. split; [done|]. destruct Hr as (b & Hb & -> & _).
      exists us, b. rewrite configured_ID. split_and!; [done|done| |reflexivity]. by destruct b. }
  intros [a'|e]; cbn [going]; [|apply spec_err]. destruct (ac_AccountLocked a'); [apply spec_err|].
  destruct (parseCIDRList _) as [networks|] eqn:En.
  2:{ eapply spec_bind; [apply spec_audit_access|]. intros ?. apply spec_err. }
  destruct (ipAllowed (lc_ip c) networks) eqn:Ei; cbn [negb].
  - apply spec_ok. intros us ((He & Hf) & Hr & Hid). rewrite Hid. split_and!; [done|done|done|by exists networks].
  - eapply spec_bind; [apply spec_audit_access|]. intros ?. apply spec_err.
Qed.

Lemma spec_world_value {A} P (m : M World A) : spec P (on_world m) (fun r us => P us /\ exists w, r = (m w).1).
Proof. intros g Hg HP. rewrite world_still, on_world_eq. split; [reflexivity|]. split; [done|by eexists]. Qed.
Lemma moves_login_failure c a name failed_name detail answer : moves (login_failure h c a name failed_name detail answer).
Proof.
  unfold login_failure. assert (Hr : moves (on_store h (RecordLoginFailureIfAuthVersion (se_postgres h) (ac_ID a)
    (ac_authVersion a) (se_loginLimit h) (se_loginWindow h) (lc_now c)))).
  { by apply (moves_op h id Hothers _ (OLoginFailureIf (ac_ID a) (ac_authVersion a) (se_loginLimit h) (se_loginWindow h) (lc_now c))). }
  unfold sessions_DeleteUser. moving.
Qed.

Lemma spec_password P input c a : stable P ->
  spec P (login_password h input c a) (going (fun _ us => P us /\ password_matches h (ac_passwordHash a) (li_Password input))).
Proof.
  intros HP. unfold login_password. eapply spec_bind; [apply spec_world_value|]. intros [[]|e]; [| |apply spec_err].
  - apply spec_ok. intros us [HPus [w Hw]]. split; [done|]. by eapply verifyPassword_matches.
  - eapply spec_bind; [|intros e; apply spec_err].
    eapply spec_weaken; [by apply moves_login_failure|by intros us _ [? _]|done].
Qed.

Definition refreshed (a a' : Account) : Prop :=
  ac_ID a' = TrimSpace (ac_ID a) /\ ac_authVersion a' = ac_authVersion a /\ ac_AccountLocked a' = false.
Lemma spec_refresh P a : stable P ->
  spec P (refreshLoginAccount h a) (going (fun a' us => P us /\ read a' us /\ refreshed a a')).
Proof.
  intros HP. unfold refreshLoginAccount. eapply spec_bind; [by apply (spec_ByID h id Hothers P)|].
  intros [b|[]]; cbn [going]; [|apply spec_err..].
  eapply spec_bind; [apply spec_world|]. intros t. cbn beta.
  eapply spec_bind with (Q := going (fun a' us => (P us /\ ac_ID b = TrimSpace (ac_ID a)) /\ read a' us /\ ac_ID a' = ac_ID b)).
  { eapply spec_weaken; [apply (spec_lock_policy h id Hothers (fun us => P us /\ ac_ID b = TrimSpace (ac_ID a)))| |done].
    - apply stable_and; [done|apply stable_pure].
    - by intros us _ (? & ? & ?). }
  intros [a'|e]; cbn [going]; [|apply spec_err]. destruct (ac_AccountLocked a') eqn:Hl; [apply spec_err|].
  destruct (Z.eqb_spec (ac_authVersion a') (ac_authVersion a)); cbn [negb]; [|apply spec_err].
  apply spec_ok. intros us ((HPus & Hb) & Hr & Hid). split_and!; [done|done|]. split; [congruence|done].
Qed.

(** A code of the second factor of [a] was accepted, once for all. *)
Definition second_factor (input : LoginInput) (c : LoginContext) (a : Account) (us : users) : Prop :=
  exists secret step, decryptMFASecret (se_mfaKey h) (ac_ID a) (ac_mfaSecret a) = Ok secret /\
    accepted_step_of secret (TrimSpace (li_TOTP input)) (lc_now c) [-1; 0; 1] = Some step /\ step <> 0 /\
    (ac_ID a = id -> exists b, since id b us /\ ac_authVersion b = ac_authVersion a /\ ac_mfaLastStep b = step).
Lemma stable_second_factor input c a : stable (second_factor input c a).
Proof.
  intros us us' He (secret & step & E1 & E2 & E3 & E4). exists secret, step. split_and!; [done..|]. intros E.
  destruct (E4 E) as (b & Hb & ?). exists b. split; [|done]. by eapply stable_since.
Qed.
Lemma spec_validateMFA P input c a : stable P ->
  spec P (validateMFA h a (li_TOTP input) (lc_now c)) (fun r us => P us /\ (r = Ok tt -> second_factor input c a us)).
Proof.
  intros HP. unfold validateMFA.
  assert (Hno : forall e : storeError, spec P (ret (Err e)) (fun r us => P us /\ (r = Ok tt -> second_factor input c a us))).
  { by intros e g Hg HPg. }
  destruct (decryptMFASecret _ _ _) as [secret|e] eqn:Hd; [|apply Hno]. cbn zeta. destruct (negb _); [apply Hno|].
  destruct (accepted_step_of _ _ _ _) as [step|] eqn:Hs; [|apply Hno].
  destruct (Z.eqb_spec step 0); [apply Hno|]. cbn [orb]. destruct (step <=? _)%Z; [apply Hno|].
  set (m := AcceptMFAStep _ _ _ _).
  assert (He : forall s, evolves id (st_users s) (st_users (m s).2)).
  { by apply (operation_evolves h id m (OAcceptMFAStep (ac_ID a) (ac_authVersion a) step)). }
  apply on_store_spec; [done|done|done|].
  intros s Hg HPs. split; [by eapply HP; [apply He|]|]. intros Hok. exists secret, step. split_and!; [done..|]. intros E.
  destruct (accepted_step (se_postgres h) (ac_ID a) (ac_authVersion a) step s Hok) as (_ & b & _ & _ & _ & Hb & Hv & Hstep).
  exists b. split; [|done]. exists b. by rewrite <- E.
Qed.

Lemma moves_startMFAEnrollment c a : moves (startMFAEnrollment h c a).
Proof.
  unfold startMFAEnrollment. assert (Hm : forall secret, moves (on_store h (SetMFAIfAuthVersion (se_postgres h) (ac_ID a) secret (ac_authVersion a)))).
  { intros secret. by apply (moves_op h id Hothers _ (OSetMFAIf (ac_ID a) secret (ac_authVersion a))). }
  moving.
Qed.
(** The factors that are asked of [a] were given. *)
Definition factors (input : LoginInput) (c : LoginContext) (a a' : Account) (us : users) : Prop :=
  ac_ID a' = ac_ID a /\ ac_authVersion a' = ac_authVersion a /\
  (se_enforceMFA h || ac_MFAEnabled a = true -> second_factor input c a us).
Lemma spec_mfa P input c a : stable P ->
  spec P (login_mfa h input c a) (going (fun a' us => P us /\ factors input c a a' us)).
Proof.
  intros HP. unfold login_mfa, factors. destruct (se_enforceMFA h || ac_MFAEnabled a) eqn:Hneed; cbn [negb];
    [|by apply spec_ok].
  destruct (ac_MFAConfigured a); cbn [negb].
  2:{ eapply spec_bind; [by apply moves_startMFAEnrollment|intros stop; apply spec_err]. }
  destruct (TrimSpace (li_TOTP input) =? ""); [apply spec_err|].
  eapply spec_bind; [by apply spec_validateMFA|]. intros [[]|e].
  2:{ eapply spec_bind; [|intros ?; apply spec_err]. eapply spec_weaken; [by apply moves_login_failure|by intros us _ [? _]|done]. }
  destruct (ac_MFAEnabled a) eqn:Hen.
  - apply spec_ok. intros us [HPus Hf]. split_and!; [done..|]. intros _. by apply Hf.
  - assert (Hm : moves (on_store h (EnableMFAIfAuthVersion (se_postgres h) (ac_ID a) (ac_authVersion a)))).
    { by apply (moves_op h id Hothers _ (OEnableMFAIf (ac_ID a) (ac_authVersion a))). }
    eapply spec_bind.
    { eapply spec_weaken; [apply (Hm (fun us => P us /\ second_factor input c a us)), stable_and, stable_second_factor; done| |done].
      intros us _ [HPus Hf]. split; [done|by apply Hf]. }
    intros [r|[]]; [|apply spec_err..]. apply spec_ok. intros us [HPus Hf]. by destruct a.
Qed.

(** The row at which a sign-in was recorded. *)
Definition in_force (a : Account) (us : users) : Prop :=
  exists row, us !! ac_ID a = Some row /\ ac_authVersion row = ac_authVersion a /\ ac_AccountLocked row = false.
Lemma recorded_in_force a ip s : (RecordLoginSuccess (se_postgres h) (ac_ID a) ip (ac_authVersion a) s).1 = Ok tt ->
  in_force a (st_users (RecordLoginSuccess (se_postgres h) (ac_ID a) ip (ac_authVersion a) s).2).
Proof.
  unfold RecordLoginSuccess, checked. destruct (_ <? 1)%Z; [done|]. rewrite mbind_eq, on_world_eq. cbn [fst snd].
  set (s1 := with_world _ s). set (t := TLoginSuccess _ _ _ _). destruct (exec_eq (se_postgres h) true t s1) as [[_ Hf]|E]; [done|].
  intros _. cbn [apply t] in E. apply or_err_Ok, update_if_Some in E as (row & Hrow & Hc & ->).
  apply andb_true_iff in Hc as [Hv Hl]. apply Z.eqb_eq in Hv. apply negb_true_iff in Hl.
  eexists. rewrite lookup_insert_eq. split; [done|]. by destruct row.
Qed.

(** What the result says of the client. *)
Definition session_for (c : LoginContext) (a : Account) (result : LoginResult) : Prop :=
  exists caller, lr_Identity result = Some caller /\ ac_ID (id_Account caller) = ac_ID a /\
    ac_policy (id_Account caller) = ac_policy a /\ as_UserID (id_Session caller) = ac_ID a /\
    as_AuthVersion (id_Session caller) = ac_authVersion a /\ as_IP (id_Session caller) = lc_ip c /\
    id_PasswordChangeRequired caller = passwordExpired a (lc_now c) /\
    exists n, lr_Token result = V4Encrypt n (se_pasetoKey h)
      (MkTokenClaims pasetoIssuer pasetoAudience (ac_ID a) (id_RawSessionID caller) (lc_now c) (Add (lc_now c) (- (5 * Second)))
         (as_ExpiresAt (id_Session caller)) (ac_Username a) (lc_ip c) (ac_IsAdmin a) (passwordExpired a (lc_now c))
         (ac_authVersion a)) pasetoImplicitAssertion.
Lemma spec_session P input c a : stable P ->
  spec P (login_session h input c a) (going (fun result us => P us /\ in_force a us /\ session_for c a result)).
Proof.
  intros HP. unfold login_session. cbn zeta. destruct (_ && _); [apply spec_err|].
  destruct (passwordExpired a (lc_now c) && _); [eapply spec_bind; [apply spec_audit_access|intros ?; apply spec_err]|].
  eapply spec_bind; [apply spec_world|]. intros [raw|]; cbn beta; [|apply spec_err].
  eapply spec_bind; [apply spec_world_value|]. intros token. cbn beta.
  eapply spec_bind; [apply moves_sessions; [done|apply stable_and; [exact HP|apply stable_pure]]|]. intros put. cbn beta. destruct (negb put); [apply spec_err|].
  eapply spec_bind.
  { set (T := exists w, token = _). apply (on_store_spec h id Hothers (fun us => P us /\ T) _ (fun r us => P us /\ T /\ (r = Ok tt -> in_force a us)));
      [apply stable_and; [done|apply stable_pure]| |].
    - by apply (operation_evolves h id _ (OLoginSuccess (ac_ID a) (lc_ip c) (ac_authVersion a))).
    - intros s Hg [HPs HT]. split; [|split; [exact HT|by apply recorded_in_force]]. eapply HP; [|exact HPs].
      by apply (operation_evolves h id _ (OLoginSuccess (ac_ID a) (lc_ip c) (ac_authVersion a))). }
  intros [[]|e]; cbn beta.
  2:{ eapply spec_bind; [|intros ?; apply spec_err]. eapply spec_weaken; [by apply moves_registry|by intros us _ [? _]|done]. }
  eapply spec_bind; [apply spec_still; intros g; destruct (po_LoggingEnabled _); [apply world_still|done]|].
  intros [e|]; cbn beta.
  { eapply spec_bind; [|intros ?; apply spec_err]. eapply spec_weaken; [by apply moves_registry|by intros us _ [? _]|done]. }
  eapply spec_bind; [apply spec_still; by intros []|]. intros ?. cbn beta. apply spec_ok. intros us (HPus & [w ->] & Hf).
  split_and!; [done|by apply Hf|]. eexists. cbn [lr_Identity id_Account id_Session id_RawSessionID id_PasswordChangeRequired
    as_UserID as_AuthVersion as_IP as_ExpiresAt lr_Token]. split; [done|]. split_and!; try by destruct a. by eexists.
Qed.

(** ** Signing in as a whole *)

Lemma spec_try {E A B} P (m : M Gateway (result E A)) Q (f : A -> M Gateway (result E B)) R :
  spec P m (going Q) -> (forall a, spec (Q a) (f a) (going R)) -> spec P (try f m) (going R).
Proof. intros Hm Hf. unfold try. eapply spec_bind; [exact Hm|]. intros [a|e]; [apply Hf|apply spec_err]. Qed.

(** An account that was read at some moment since [us0]. *)
Definition seen (us0 : users) (a : Account) (us : users) : Prop :=
  exists b, a = configured b /\ trimmed_id (ac_ID b) /\
    (ac_ID b = id -> since id b us /\ forall b0, us0 !! id = Some b0 -> guarded b0 b).
Lemma stable_seen us0 a : stable (seen us0 a).
Proof.
  intros us us' He (b & Hb & Ht & Hid). exists b. split_and!; [done..|]. intros E. destruct (Hid E) as [Hs Hg].
  split; [|done]. by eapply stable_since.
Qed.
Lemma read_seen us0 a us : evolves id us0 us -> read a us -> seen us0 a us.
Proof.
  intros [_ K] (b & Hb & -> & Ht). exists b. split_and!; [done..|]. intros <-. split; [by exists b|].
  intros b0 Hb0. destruct (K b0 Hb0) as (b' & Hb' & Hg). congruence.
Qed.

(** What is known after each step. *)
Definition after_account us0 input c a0 us : Prop :=
  evolves id us0 us /\ admitted_context h input c /\ found_as us0 (lc_username c) (ac_ID a0) us /\ seen us0 a0 us /\
  network_allows (lc_ip c) (ac_policy a0).
Definition after_password us0 input c a0 us : Prop :=
  after_account us0 input c a0 us /\ password_matches h (ac_passwordHash a0) (li_Password input).
Definition after_refresh (P : users -> Prop) us0 a a' us : Prop := P us /\ seen us0 a' us /\ refreshed a a'.
Lemma stable_after_account us0 input c a0 : stable (after_account us0 input c a0).
Proof.
  intros us us' He (E1 & E2 & E3 & E4 & E5). split_and!; [by trans us|done| | |done].
  - by eapply stable_found_as.
  - by eapply stable_seen.
Qed.
Lemma stable_after_password us0 input c a0 : stable (after_password us0 input c a0).
Proof. apply stable_and; [apply stable_after_account|apply stable_pure]. Qed.
Lemma stable_after_refresh P us0 a a' : stable P -> stable (after_refresh P us0 a a').
Proof. intros HP us us' He (E1 & E2 & E3). split_and!; [by eapply HP|by eapply stable_seen|done]. Qed.
Lemma stable_factors input c a a' : stable (factors input c a a').
Proof. intros us us' He (E1 & E2 & E3). split_and!; [done|done|]. intros E. eapply stable_second_factor; [done|by apply E3]. Qed.
Lemma spec_refresh_seen P us0 a : stable P -> (forall us, P us -> evolves id us0 us) ->
  spec P (refreshLoginAccount h a) (going (after_refresh P us0 a)).
Proof.
  intros HP He. eapply spec_weaken; [by apply (spec_refresh P)|done|]. intros [a'|e] us _; [|done]. intros (HPus & Hr & Hf).
  split_and!; [done|apply read_seen; [by apply He|done]|done].
Qed.

Definition after_login us0 input result us : Prop :=
  exists c a0 a1 a2 a3,
    after_refresh (fun us => after_refresh (after_password us0 input c a0) us0 a0 a1 us /\ factors input c a1 a2 us) us0 a2 a3 us /\
    in_force a3 us /\ session_for c a3 result.
Lemma spec_login us0 input : spec (evolves id us0) (Login h input) (going (after_login us0 input)).
Proof.
  unfold Login. eapply spec_try; [apply (spec_admitted (evolves id us0)), stable_after|]. intros c. cbn beta.
  eapply spec_try with (Q := after_account us0 input c).
  { eapply spec_weaken.
    - apply spec_frame_going; [apply (stable_pure id (admitted_context h input c))|apply (spec_account us0 input c)].
    - done.
    - intros [a|e] us _; [|done]. intros ((E1 & E2 & E3 & E4) & E5). split_and!; [done..|by apply read_seen|done]. }
  intros a0. cbn beta. eapply spec_try with (Q := fun _ => after_password us0 input c a0).
  { apply spec_password, stable_after_account. }
  intros _. cbn beta. pose (P4 := after_password us0 input c a0).
  assert (HP4 : stable P4) by apply stable_after_password.
  assert (E4 : forall us, P4 us -> evolves id us0 us) by by intros us [[E _] _].
  eapply spec_try; [by apply (spec_refresh_seen P4 us0)|]. intros a1. cbn beta.
  assert (HP5 : stable (after_refresh P4 us0 a0 a1)) by by apply stable_after_refresh.
  eapply spec_try; [by apply spec_mfa|]. intros a2. cbn beta.
  assert (HP6 : stable (fun us => after_refresh P4 us0 a0 a1 us /\ factors input c a1 a2 us)).
  { apply stable_and; [done|apply stable_factors]. }
  eapply spec_try; [apply (spec_refresh_seen _ us0)|]; [done|by intros us ((E & _) & _); apply E4|]. intros a3. cbn beta.
  eapply spec_weaken; [apply spec_session, stable_after_refresh, HP6|done|]. intros [result|e] us _; [|done].
  intros (E1 & E2 & E3). by exists c, a0, a1, a2, a3.
Qed.

Lemma accepted_step_valid secret passcode now offsets step :
  accepted_step_of secret passcode now offsets = Some step -> step <> 0 ->
  exists offset, In offset offsets /\ totp_ValidateCustom passcode secret (Add now (offset * (30 * Second))) = Some true /\
    step = Z.quot (Unix (Add now (offset * (30 * Second)))) 30.
Proof.
  induction offsets as [|offset offsets IH]; cbn [accepted_step_of]; [by intros [= <-]|].
  destruct (totp_ValidateCustom passcode secret _) as [[]|] eqn:E; [| |done].
  - intros [= <-] _. exists offset. split; [by left|done].
  - intros Hs Hn. destruct (IH Hs Hn) as (o & Hin & Ho). exists o. split; [by right|done].
Qed.
(** A read account whose version is still that of the row says what the row says. *)
Lemma seen_row us0 a us row : seen us0 a us -> ac_ID a = id -> us !! id = Some row ->
  ac_authVersion a = ac_authVersion row ->
  credentials a = credentials row /\ forall b0, us0 !! id = Some b0 -> guarded b0 a.
Proof.
  intros (b & -> & _ & Hb) E Hrow Hv. rewrite configured_ID in E. rewrite configured_version in Hv.
  destruct (Hb E) as [(row' & Hrow' & [_ Hsame]) Hfirst]. assert (row' = row) as -> by congruence.
  rewrite configured_credentials. split; [by apply Hsame|]. intros b0 Hb0. destruct (Hfirst b0 Hb0) as [G1 G2]. by destruct b.
Qed.
Lemma refreshed_ID us0 a a' us : seen us0 a us -> refreshed a a' -> ac_ID a' = ac_ID a.
Proof. intros (b & -> & Ht & _) [-> _]. by rewrite !configured_ID. Qed.
Lemma trimmed_refreshed a0 a1 a2 a3 us0 us : seen us0 a0 us -> refreshed a0 a1 -> ac_ID a2 = ac_ID a1 -> refreshed a2 a3 ->
  ac_ID a1 = ac_ID a0 /\ ac_ID a3 = ac_ID a0.
Proof.
  intros Hs Hr E [Hr' _]. pose proof (refreshed_ID us0 a0 a1 us Hs Hr) as Hid. split; [done|].
  destruct Hs as (b & -> & Ht & _). rewrite configured_ID in *. unfold trimmed_id in Ht. congruence.
Qed.

(** The second factor was given for the secret of a row, with a code whose step, and
    every one before it, is used up. *)
Definition second_factor_given (input : LoginInput) (row : Account) : Prop :=
  exists secret t, decryptMFASecret (se_mfaKey h) (ac_ID row) (ac_mfaSecret row) = Ok secret /\
    totp_ValidateCustom (TrimSpace (li_TOTP input)) secret t = Some true /\ Z.quot (Unix t) 30 <= ac_mfaLastStep row.
Lemma second_factor_row input c a us row us0 : seen us0 a us -> second_factor input c a us -> ac_ID a = id ->
  us !! id = Some row -> ac_authVersion a = ac_authVersion row -> second_factor_given input row.
Proof.
  intros Hseen (secret & step & Hd & Hs & Hn & Hb) E Hrow Hv.
  destruct (accepted_step_valid _ _ _ _ _ Hs Hn) as (offset & _ & Hvalid & ->).
  destruct (seen_row us0 a us row Hseen E Hrow Hv) as [Hc _]. injection Hc as Hid _ _ _ _ Hsecret.
  destruct (Hb E) as (b & (row' & Hrow' & [_ Hsame]) & Hvb & Hstep). assert (row' = row) as -> by congruence.
  exists secret. eexists. rewrite <- Hid, <- Hsecret. split_and!; [done|exact Hvalid|].
  destruct Hsame as (_ & _ & Hle); [congruence|]. lia.
Qed.
End login.

(** ** Accepting a session *)

(** What [Authenticate] goes by. *)
Definition authenticated `{Paseto} (h : AuthSettings) (r : Request) (caller : Identity) : Prop :=
  let ip := clientIP (se_trustedProxyCIDRs h) (Some r) in
  secureRequest (se_trustedProxyCIDRs h) (Some r) = true /\
  exists t token raw tokenIP version,
    ParseValidNow (se_pasetoKey h) (accountTokenFromRequest (Some r)) pasetoIssuer pasetoAudience t pasetoImplicitAssertion = Some token /\
    session_claims token = Ok (raw, as_UserID (id_Session caller), tokenIP, version) /\
    as_AuthVersion (id_Session caller) = version /\ ac_authVersion (id_Account caller) = version /\
    sameCanonicalIP tokenIP ip = true /\ sameCanonicalIP (as_IP (id_Session caller)) ip = true /\
    ac_ID (id_Account caller) = TrimSpace (as_UserID (id_Session caller)) /\ ac_AccountLocked (id_Account caller) = false.

Section accepting.
Context `{Env} `{Tools} `{AuditCodec} `{SecretTools} `{Paseto} `{Totp} `{Others} (h : AuthSettings).
Context (id : string) (Hothers : forall n, Forall (fair id) (other_operations n)).
Abbreviation spec := (spec id).
Abbreviation stable := (stable id).
Abbreviation moves := (moves id).

Lemma moves_auditExpiredSession r token : moves (auditExpiredSession h r token).
Proof. unfold auditExpiredSession. pose proof (moves_ByID h id Hothers). moving. Qed.
Lemma spec_dropped P raw e (Q : Identity -> users -> Prop) : stable P -> spec P (dropped h raw e) (going Q).
Proof. intros HP. apply spec_stop; [done|]. by apply moves_registry. Qed.

Lemma spec_authenticate_account us0 raw userID version now session : 
  spec (evolves id us0) (authenticate_account h raw userID version now session) (going (fun caller us =>
    evolves id us0 us /\ seen id us0 (id_Account caller) us /\
    ac_ID (id_Account caller) = TrimSpace userID /\ ac_AccountLocked (id_Account caller) = false /\
    ac_authVersion (id_Account caller) = version /\
    (id_Session caller = session \/ id_Session caller = with_seen now session))).
Proof.
  unfold authenticate_account. eapply spec_bind; [apply (spec_ByID h id Hothers (evolves id us0)), stable_after|].
  intros [a|[]]; cbn [going]; [|apply spec_dropped|apply spec_err..];
    [|by intros us us' _ _].
  assert (Hdown : forall us, table_good us -> evolves id us0 us /\ read a us /\ ac_ID a = TrimSpace userID ->
    evolves id us0 us /\ seen id us0 a us /\ ac_ID a = TrimSpace userID).
  { intros us _ (He & Hr & Hid). split_and!; [done|by apply read_seen|done]. }
  eapply spec_weaken; [|exact Hdown|by intros ???].
  assert (Hstable : stable (fun us => evolves id us0 us /\ seen id us0 a us /\ ac_ID a = TrimSpace userID)).
  { apply stable_and; [apply stable_after|]. apply stable_and; [apply stable_seen|apply stable_pure]. }
  destruct (ac_AccountLocked a) eqn:Hl; [by apply spec_dropped|].
  destruct (Z.eqb_spec (ac_authVersion a) version); cbn [negb]; [|by apply spec_dropped]. cbn zeta.
  destruct (_ <=? _)%Z.
  - eapply spec_bind; [by apply moves_registry|]. intros [|]; cbn [negb]; [|apply spec_err].
    apply spec_ok. intros us (He & Hs & Hid). cbn [id_Account id_Session]. split_and!; [done..|by right].
  - apply spec_ok. intros us (He & Hs & Hid). cbn [id_Account id_Session]. split_and!; [done..|by left].
Qed.
Lemma with_seen_facts t s : as_UserID (with_seen t s) = as_UserID s /\ as_AuthVersion (with_seen t s) = as_AuthVersion s /\
  as_IP (with_seen t s) = as_IP s.
Proof. by destruct s. Qed.

Lemma spec_Authenticate us0 r :
  spec (evolves id us0) (Authenticate h (Some r)) (going (fun caller us =>
    evolves id us0 us /\ seen id us0 (id_Account caller) us /\ authenticated h r caller)).
Proof.
  unfold Authenticate. destruct (se_configured h); cbn [negb]; [|apply spec_err].
  destruct (secureRequest _ _) eqn:Hsecure; cbn [negb]; [|apply spec_err]. cbn zeta.
  destruct (accountTokenFromRequest (Some r) =? ""); [apply spec_err|].
  eapply spec_bind; [apply spec_world|]. intros t. cbn beta.
  destruct (ParseValidNow _ _ _ _ _ _) as [token|] eqn:Hparse.
  2:{ apply spec_stop; [apply stable_after|apply moves_auditExpiredSession]. }
  destruct (session_claims token) as [[[[raw userID] tokenIP] version]|e] eqn:Hclaims; [|apply spec_err].
  eapply spec_bind; [apply moves_sessions; [done|apply stable_after]|]. intros [session|]; cbn beta; [|apply spec_err].
  eapply spec_bind; [apply spec_world|]. intros t2. cbn beta.
  destruct (_ || _) eqn:Hfit.
  { eapply spec_bind; [apply moves_registry; [done|apply stable_after]|]. intros ?. apply spec_stop; [apply stable_after|].
    apply moves_audit_access. }
  rewrite !orb_false_iff, !negb_false_iff in Hfit. destruct Hfit as [[[Huser%String.eqb_eq Hver%Z.eqb_eq] Hip1] Hip2].
  destruct (_ && _).
  { eapply spec_bind; [apply moves_registry; [done|apply stable_after]|]. intros ?. apply spec_stop; [apply stable_after|].
    apply moves_audit_access. }
  eapply spec_weaken; [apply spec_authenticate_account|done|]. intros [caller|e] us _; [|done].
  intros (He & Hs & Hid & Hl & Hv & Hsession). split_and!; [done..|]. split; [done|].
  exists t, token, raw, tokenIP, version. destruct (with_seen_facts t2 session) as (F1 & F2 & F3).
  destruct Hsession as [->| ->]; rewrite ?F1, ?F2, ?F3, Huser; by split_and!.
Qed.

(** *** Any requests *)

Inductive activity :=
| ALogin (input : LoginInput)
| AAuthenticate (r : option Request)
| ALogout (r : option Request)
| AListAccounts
| AListSessions (userID : string)
| ARevokeSession (digest : string)
| ARevokeUser (userID : string)
| APurge (userID : string)
| ARepairLocks (now : Z)
| AOriginate (caller : Identity).
Definition quietly {A} (m : M Gateway A) : M Gateway unit := let! _ := m in ret tt.
Definition serve (a : activity) : M Gateway unit :=
  match a with
  | ALogin input => quietly (Login h input)
  | AAuthenticate r => quietly (Authenticate h r)
  | ALogout r => quietly (Logout h r)
  | AListAccounts => quietly (ListAccounts h)
  | AListSessions userID => quietly (ListSessions h userID)
  | ARevokeSession digest => quietly (RevokeSession h digest)
  | ARevokeUser userID => quietly (RevokeUser h userID)
  | APurge userID => quietly (PurgeUserSessionLeases h userID)
  | ARepairLocks now => quietly (repairAccountLocks h now)
  | AOriginate caller => quietly (AllowOrigination h caller)
  end.
Definition serve_all (l : list activity) : M Gateway unit := for_each serve l.

Lemma moves_evolves {A} (m : M Gateway A) :
  (forall us0, spec (evolves id us0) m (fun _ us => evolves id us0 us)) -> moves m.
Proof.
  intros Hm P HP g Hg HPg. destruct (Hm (accounts_of g) g Hg) as [He _]; [reflexivity|]. split; [done|by eapply HP].
Qed.
Lemma moves_Login input : moves (Login h input).
Proof.
  apply moves_evolves. intros us0 g Hg He. destruct (spec_login h id Hothers us0 input g Hg He) as [He' _].
  split; [done|by trans (accounts_of g)].
Qed.
Lemma moves_Authenticate r : moves (Authenticate h r).
Proof.
  destruct r as [r|]; [|unfold Authenticate; destruct (se_configured h); apply moves_ret].
  apply moves_evolves. intros us0 g Hg He. destruct (spec_Authenticate us0 r g Hg He) as [He' _].
  split; [done|by trans (accounts_of g)].
Qed.
Lemma moves_try {E A B} (m : M Gateway (result E A)) (f : A -> M Gateway (result E B)) :
  moves m -> (forall a, moves (f a)) -> moves (try f m).
Proof. intros Hm Hf. apply moves_bind; [done|]. intros [a|e]; [apply Hf|apply moves_ret]. Qed.
Lemma moves_ListAll : moves (on_store h ListAll).
Proof. apply moves_store; [done|]. intros s. rewrite (steady_query _ s : st_users (ListAll s).2 = st_users s). reflexivity. Qed.
Lemma moves_BumpAuthVersion k : moves (on_store h (BumpAuthVersion (se_postgres h) k)).
Proof. by apply (moves_op h id Hothers _ (OBump k)). Qed.
Lemma moves_police_all l now : moves (police_all h l now).
Proof.
  induction l as [|a l IH]; [apply moves_ret|]. cbn [police_all]. apply moves_try.
  - destruct (ac_AccountLocked a); [by apply moves_lock_policy|apply moves_ret].
  - intros a'. apply moves_try; [done|]. intros l'. apply moves_ret.
Qed.
Lemma moves_repair_all l now : moves (repair_all h l now).
Proof.
  induction l as [|a l IH]; [apply moves_ret|]. cbn [repair_all]. destruct (ac_AccountLocked a); cbn [negb]; [|done].
  apply moves_try; [by apply moves_lock_policy|]. by intros _.
Qed.
Lemma moves_RevokeUser k : moves (RevokeUser h k).
Proof.
  apply moves_bind; [by apply moves_ByID|]. intros ?. apply moves_try; [apply moves_BumpAuthVersion|]. intros ?.
  apply moves_bind; [by apply moves_purge|]. intros ?. apply moves_ret.
Qed.
Lemma moves_serve a : moves (serve a).
Proof.
  destruct a; cbn [serve]; (apply moves_bind; [|intros ?; apply moves_ret]).
  - apply moves_Login.
  - apply moves_Authenticate.
  - unfold Logout. destruct r as [r|]; [|apply moves_ret]. apply moves_bind; [apply moves_Authenticate|].
    intros [caller|e]; [|apply moves_ret]. cbn zeta. apply moves_bind; [by apply moves_registry|]. intros ?. moving.
  - apply moves_try; [apply moves_ListAll|]. intros l. apply moves_bind; [apply moves_world|]. intros t. apply moves_police_all.
  - by apply moves_sessions.
  - by apply moves_registry.
  - apply moves_RevokeUser.
  - apply moves_bind; [by apply moves_ByID|]. intros ?. by apply moves_purge.
  - apply moves_try; [apply moves_ListAll|]. intros l. apply moves_repair_all.
  - unfold AllowOrigination. moving.
Qed.
Lemma moves_serve_all l : moves (serve_all l).
Proof.
  induction l as [|a l IH]; [apply moves_ret|]. apply moves_bind; [apply moves_serve|]. by intros ?.
Qed.
Lemma moves_run {A} (m : M Gateway A) g : moves m -> table_good (accounts_of g) ->
  evolves id (accounts_of g) (accounts_of (m g).2).
Proof. intros Hm Hg. by destruct (Hm (fun _ => True) (stable_pure id True) g Hg I). Qed.

(** Once it is done, a version that no session had before. *)
Definition newer_row (a : Account) (us : users) : Prop := exists b, since id b us /\ ac_authVersion a < ac_authVersion b.
Definition bumps {E A} (m : M Gateway (result E A)) : Prop := forall a, spec (since id a) m (going (fun _ => newer_row a)).
Lemma stable_newer a : stable (newer_row a).
Proof. apply stable_ex. intros b. apply stable_and; [apply stable_since|apply stable_pure]. Qed.
Lemma newer_version a us : newer_row a us -> exists b, us !! id = Some b /\ ac_authVersion a < ac_authVersion b.
Proof. intros (b & (row & Hrow & [Hv _]) & Hlt). exists row. split; [done|lia]. Qed.
Lemma bumps_store (m : M Store (result storeError unit)) o : perform (se_postgres h) o = ignore m -> fair id o ->
  (forall s row, st_users s !! id = Some row -> (m s).1 = Ok tt ->
     exists row', st_users (m s).2 !! id = Some row' /\ ac_authVersion row < ac_authVersion row') ->
  bumps (on_store h m).
Proof.
  intros Hm Ho Hbump a. apply (on_store_spec h id Hothers); [apply stable_since|by eapply operation_evolves|].
  intros s _ (row & Hrow & [Hv _]). destruct (m s).1 as [[]|e] eqn:E; [|done].
  destruct (Hbump s row Hrow E) as (row' & Hrow' & Hlt). exists row'. split; [by exists row'|lia].
Qed.
Lemma bumps_BumpAuthVersion : bumps (on_store h (BumpAuthVersion (se_postgres h) id)).
Proof.
  apply (bumps_store _ (OBump id)); [done|by split|]. intros s row Hrow Hok. unfold BumpAuthVersion in *.
  rewrite mbind_eq, on_world_eq in *. cbn [fst snd] in *.
  set (s1 := with_world _ s) in *. set (t := TBump _ _) in *.
  destruct (exec_eq (se_postgres h) true t s1) as [[_ Hf]|Happly]; [congruence|].
  cbn [apply t] in Happly. apply or_err_Ok, update_if_Some in Happly as (row' & Hrow' & _ & ->).
  change (st_users s1) with (st_users s) in *. assert (row' = row) as -> by congruence.
  eexists. rewrite lookup_insert_eq. split; [done|]. destruct row; cbn; lia.
Qed.
Lemma bumps_bind {E A B} (m : M Gateway A) (f : A -> M Gateway (result E B)) : moves m -> (forall a, bumps (f a)) -> bumps (mbind f m).
Proof. intros Hm Hf a. eapply spec_bind; [apply Hm, stable_since|]. intros x. apply Hf. Qed.
Lemma bumps_try {E A B} (m : M Gateway (result E A)) (f : A -> M Gateway (result E B)) : bumps m -> (forall a, moves (f a)) -> bumps (try f m).
Proof.
  intros Hm Hf a. eapply spec_try; [apply Hm|]. intros x. eapply spec_weaken; [apply (Hf x), stable_newer|done|].
  by intros [y|e] us.
Qed.
Lemma bumps_RevokeUser : bumps (RevokeUser h id).
Proof.
  apply bumps_bind; [by apply moves_ByID|]. intros ?. apply bumps_try; [apply bumps_BumpAuthVersion|]. intros ?.
  apply moves_bind; [by apply moves_purge|]. intros ?. apply moves_ret.
Qed.
Lemma bumps_run {E A} (m : M Gateway (result E A)) g a x : bumps m -> table_good (accounts_of g) -> accounts_of g !! id = Some a ->
  (m g).1 = Ok x ->
  table_good (accounts_of (m g).2) /\ exists b, accounts_of (m g).2 !! id = Some b /\ ac_authVersion a < ac_authVersion b.
Proof.
  intros Hm Hg Ha Hok. destruct (Hm a g Hg) as [[He _] Hpost]; [by exists a|]. rewrite Hok in Hpost.
  split; [by apply He|by apply newer_version].
Qed.
Lemma accepted_version r g caller a : table_good (accounts_of g) -> accounts_of g !! id = Some a ->
  (Authenticate h (Some r) g).1 = Ok caller -> ac_ID (id_Account caller) = id ->
  ac_authVersion a <= ac_authVersion (id_Account caller).
Proof.
  intros Hg Ha Hok Hid. destruct (spec_Authenticate (accounts_of g) r g Hg) as [_ Hpost]; [reflexivity|].
  rewrite Hok in Hpost. destruct Hpost as (_ & (b & Hb & _ & Hs) & _). rewrite Hb, configured_ID in Hid.
  destruct (Hs Hid) as [_ Hfirst]. rewrite Hb, configured_version. by destruct (Hfirst a Ha).
Qed.
End accepting.

Lemma issued_claims `{PasetoOk} key n claims assertion now token :
  ParseValidNow key (V4Encrypt n key claims assertion) (tc_Issuer claims) (tc_Audience claims) now assertion = Some token ->
  token = claims_read claims.
Proof. rewrite parse_valid. destruct (_ && _); congruence. Qed.
Lemma claims_of_session claims raw user ip version : session_claims (claims_read claims) = Ok (raw, user, ip, version) ->
  raw = tc_Jti claims /\ user = tc_Subject claims /\ ip = tc_ip claims /\ version = tc_auth_version claims.
Proof. unfold session_claims, claims_read. cbn. destruct (_ || _); [done|]. intros [= <- <- <- <-]. done. Qed.

(** The token of a sign-in is refused once the version of its account has grown. *)
Lemma outdated_token_refused `{Env} `{Tools} `{AuditCodec} `{SecretTools} `{PasetoOk} `{Totp} `{Others} (h : AuthSettings)
    (id : string) (input : LoginInput) (g : Gateway) (result : LoginResult) (caller : Identity) :
  (forall n, Forall (fair id) (other_operations n)) -> table_good (accounts_of g) ->
  (Login h input g).1 = Ok result -> lr_Identity result = Some caller -> ac_ID (id_Account caller) = id ->
  table_good (accounts_of (Login h input g).2) /\
  exists row, accounts_of (Login h input g).2 !! id = Some row /\
    forall g2 row2 r, table_good (accounts_of g2) -> accounts_of g2 !! id = Some row2 -> ac_authVersion row < ac_authVersion row2 ->
      accountTokenFromRequest (Some r) = lr_Token result -> exists e, (Authenticate h (Some r) g2).1 = Err e.
Proof.
  intros Hothers Hg Hok Hcaller Hid.
  destruct (spec_login h id Hothers (accounts_of g) input g Hg) as [He Hpost]; [reflexivity|]. rewrite Hok in Hpost.
  destruct Hpost as (c & a0 & a1 & a2 & a3 & _ & (row & Hrow & Hver & _) & (caller' & Hc' & Cid & _ & _ & _ & _ & _ & (n & Hn))).
  assert (caller' = caller) as -> by congruence. rewrite <- Cid, Hid in Hrow.
  split; [by apply He|]. exists row. split; [done|]. intros g2 row3 r Hg2 Hrow3 Hlt Htoken.
  destruct (Authenticate h (Some r) g2).1 as [accepted|e] eqn:Haccept; [|by exists e]. exfalso.
  destruct (spec_Authenticate h id Hothers (accounts_of g2) r g2 Hg2) as [_ Hauth]; [reflexivity|].
  rewrite Haccept in Hauth. destruct Hauth as (_ & (b & Hb & Htrim & Hs) & _ & (t & token & raw & tip & v & Hparse & Hclaims & _ & Av & _ & _ & Aid & _)).
  rewrite Htoken, Hn in Hparse.
  assert (Htok : token = claims_read (MkTokenClaims pasetoIssuer pasetoAudience (ac_ID a3) (id_RawSessionID caller) (lc_now c)
    (Add (lc_now c) (- (5 * Second))) (as_ExpiresAt (id_Session caller)) (ac_Username a3) (lc_ip c) (ac_IsAdmin a3)
    (passwordExpired a3 (lc_now c)) (ac_authVersion a3))) by (by eapply issued_claims).
  rewrite Htok in Hclaims. apply claims_of_session in Hclaims as (_ & Huser & _ & Hversion). cbn [tc_Subject tc_auth_version] in Huser, Hversion.
  rewrite Hid in Cid. rewrite Huser, <- Cid in Aid.
  assert (TrimSpace id = id) as Htrimmed by (apply (good_ids _ Hg2); by eexists). rewrite Htrimmed in Aid.
  rewrite Hb, configured_ID in Aid. destruct (Hs Aid) as [_ Hfirst]. destruct (Hfirst row3 Hrow3) as [Hv _].
  rewrite Hb, configured_version in Av. lia.
Qed.

(** ** Theorems *)



(** A revoked token stays out.  After a user signed in, whatever requests were
    served since, once the sessions of the user were revoked, whatever requests are
    served after that, and whatever others do at the same time short of deleting the
    account, the token of that sign-in is refused. *)
Theorem revoked_token_refused `{Env} `{Tools} `{AuditCodec} `{SecretTools} `{PasetoOk} `{Totp} `{Others} (h : AuthSettings)
    (id : string) (input : LoginInput) (g : Gateway) (result : LoginResult) (caller : Identity)
    (before after : list activity) (r : Request) :
  (forall n, Forall (fair id) (other_operations n)) -> table_good (accounts_of g) ->
  (Login h input g).1 = Ok result -> lr_Identity result = Some caller -> ac_ID (id_Account caller) = id ->
  let g1 := (serve_all h before (Login h input g).2).2 in
  (RevokeUser h id g1).1 = Ok tt ->
  let g2 := (serve_all h after (RevokeUser h id g1).2).2 in
  accountTokenFromRequest (Some r) = lr_Token result ->
  exists e, (Authenticate h (Some r) g2).1 = Err e.
Proof.
  intros Hothers Hg Hok Hcaller Hid g1 Hrevoked g2 Htoken.
  destruct (outdated_token_refused h id input g result caller Hothers Hg Hok Hcaller Hid) as (Hg0 & row & Hrow & Hrefused).
  destruct (moves_run id _ _ (moves_serve_all h id Hothers before) Hg0) as [Hgood1 K1].
  destruct (K1 row Hrow) as (row1 & Hrow1 & [Hv1 _]).
  destruct (bumps_run id _ g1 row1 tt (bumps_RevokeUser h id Hothers) (Hgood1 Hg0) Hrow1 Hrevoked) as (Hg2 & row2 & Hrow2 & Hlt).
  destruct (moves_run id _ _ (moves_serve_all h id Hothers after) Hg2) as [Hgood2 K2].
  destruct (K2 row2 Hrow2) as (row3 & Hrow3 & [Hv3 _]).
  apply (Hrefused g2 row3 r); [by apply Hgood2|done|lia|done].
Qed.

(** ** A concrete gateway *)

(** The value of a success. *)
Definition value_or {E A} (default : A) (r : result E A) : A := match r with Ok a => a | Err _ => default end.
Definition succeeds {E A} (r : result E A) : bool := match r with Ok _ => true | Err _ => false end.
Lemma value_or_ok {E A} default (r : result E A) : succeeds r = true -> r = Ok (value_or default r).
Proof. by destruct r. Qed.

(** Tokens that say what they were made of, and codes that say their step. *)
Definition token_text (key issuer audience assertion : string) (c : parsedToken) (issued notBefore : Z) : string :=
  framed key +:+ framed issuer +:+ framed audience +:+ framed assertion +:+ framed (default "" (pt_Jti c)) +:+
  framed (default "" (pt_Subject c)) +:+ framed (default "" (pt_ip c)) +:+ Z_text (default 0 (pt_auth_version c)) +:+
  Z_text (default 0 (pt_Expiration c)) +:+ Z_text issued +:+ Z_text notBefore +:+ "".
Definition read_token (key issuer audience assertion token : string) : option (parsedToken * Z * Z) :=
  k ← read_framed token; i ← read_framed k.2; a ← read_framed i.2; s ← read_framed a.2;
  j ← read_framed s.2; u ← read_framed j.2; p ← read_framed u.2; v ← read_Z p.2; e ← read_Z v.2; t ← read_Z e.2; n ← read_Z t.2;
  if (k.1 =? key) && (i.1 =? issuer) && (a.1 =? audience) && (s.1 =? assertion)
  then Some (MkParsedToken (Some j.1) (Some u.1) (Some p.1) (Some v.1) (Some e.1), t.1, n.1) else None.
#[export] Instance sample_Paseto : Paseto | 1000 := {|
  V4Encrypt _ key c assertion :=
    token_text key (tc_Issuer c) (tc_Audience c) assertion (claims_read c) (tc_IssuedAt c) (tc_NotBefore c);
  ParseValidNow key token issuer audience now assertion :=
    r ← read_token key issuer audience assertion token;
    if (r.2 <=? now)%Z && (r.1.2 <=? now)%Z && (now <=? default 0 (pt_Expiration r.1.1))%Z then Some r.1.1 else None;
  ParseUnchecked key token issuer audience assertion := fst ∘ fst <$> read_token key issuer audience assertion token |}.
Lemma sample_PasetoOk : PasetoOk.
Proof.
  constructor. intros n key c assertion now. cbn [ParseValidNow V4Encrypt sample_Paseto].
  unfold read_token, token_text. repeat (rewrite read_framed_text; cbn [base.mbind option_bind fst snd]).
  repeat (rewrite read_Z_text; cbn [base.mbind option_bind fst snd]). by rewrite !String.eqb_refl.
Qed.
#[export] Existing Instance sample_PasetoOk | 1000.
#[export] Instance sample_Totp : Totp | 1000 := {|
  totp_Generate n issuer name := Some ("JBSWY3DPEHPK3PXP", "otpauth://totp/" +:+ issuer +:+ ":" +:+ name);
  totp_ValidateCustom passcode secret t := Some (passcode =? Itoa (Z.quot (Unix t) 30 mod 1000000)) |}.

(** An operator with a password and a second factor, an administrator, and others who
    bump the administrator's version time and again. *)
Definition alice : Account := demo_account "alice" false.
Definition gateway_users : list operation := [OCreate (demo_account "root" true) "h1"; OCreate alice demo_hash].
Definition alice_id : string := id_of "alice" (perform_all false gateway_users demo_empty).2.
Definition root_id : string := id_of "root" (perform_all false gateway_users demo_empty).2.
Definition alice_secret : string :=
  value_or "" (encryptMFASecret "key" alice_id "JBSWY3DPEHPK3PXP" sample_world).1.
Definition gateway_store : Store :=
  (perform_all false (gateway_users ++ [OSetMFA alice_id alice_secret true])%list demo_empty).2.
#[export] Instance busy_Others : Others | 1000 := {|
  other_operations n := if (n mod 3 =? 0)%nat then [OBump root_id] else [];
  other_sessions n := [] |}.
Definition demo_settings : AuthSettings :=
  MkSettings "paseto" "pepper" "key" "/audit" "audit" false (12 * Hour) (720 * Hour) Hour 5 (15 * Minute) (15 * Minute) 2 [] []
    "" true false false.
Definition demo_gateway : Gateway := MkGateway gateway_store ∅ ∅ ∅ ∅ ∅ ∅.
Definition https (headers : gmap string string) : Request := MkRequest "192.0.2.7:50000" true headers [].
Definition demo_input : LoginInput :=
  MkLoginInput "Alice" "correct horse battery" "152160" false (Some (https ∅)).
Definition demo_login : result LoginStop LoginResult * Gateway := Login demo_settings demo_input demo_gateway.
Definition demo_result : LoginResult := value_or no_result demo_login.1.
Definition demo_caller : Identity := default (MkIdentity alice (MkSession "" "" "" "" "" false 0 0 0 0) false "") (lr_Identity demo_result).
Lemma demo_login_ok : (Login demo_settings demo_input demo_gateway).1 = Ok demo_result /\
  lr_Identity demo_result = Some demo_caller /\ ac_ID (id_Account demo_caller) = alice_id.
Proof. by vm_compute. Qed.
Lemma busy_fair n : Forall (fair alice_id) (other_operations n).
Proof. cbn [other_operations busy_Others]. destruct (_ =? _)%nat; repeat constructor. done. Qed.
Lemma demo_gateway_good : table_good (accounts_of demo_gateway).
Proof.
  apply (perform_all_evolves demo_settings alice_id).
  - repeat constructor; done.
  - split; [apply demo_empty_ok|]. intros k [b Hb]. cbn [st_users demo_empty] in Hb. by rewrite lookup_empty in Hb.
Qed.
Lemma demo_login_good : table_good (accounts_of demo_login.2).
Proof.
  unfold demo_login. pose proof demo_gateway_good as Hg. revert Hg. generalize demo_gateway as g. intros g Hg.
  destruct (spec_login demo_settings alice_id busy_fair (accounts_of g) demo_input g Hg) as [[He _] _]; [reflexivity|]. by apply He.
Qed.

(** The request presents the token, from the address that signed in. *)
Definition with_token : Request := MkRequest "192.0.2.7:50001" true ∅ [(sessionCookieName, lr_Token demo_result)].
Definition demo_accepted : Identity := value_or demo_caller (Authenticate demo_settings (Some with_token) demo_login.2).1.
Lemma demo_accepted_ok : (Authenticate demo_settings (Some with_token) demo_login.2).1 = Ok demo_accepted.
Proof. apply value_or_ok. vm_compute. reflexivity. Qed.
Lemma demo_factor_on : exists b, accounts_of demo_gateway !! alice_id = Some b /\
  ac_authVersion b = as_AuthVersion (id_Session demo_caller) /\ ac_MFAEnabled b = true.
Proof. eexists. split; [vm_compute; reflexivity|]. split; vm_compute; reflexivity. Qed.



(** Alice uses her session, is signed out everywhere, and uses another's page meanwhile. *)
Definition demo_before : list activity := [AAuthenticate (Some with_token); AListSessions alice_id].
Definition demo_after : list activity := [AListAccounts; AAuthenticate (Some (https ∅))].
Lemma revoked_token_refused_witness :
  exists e, (Authenticate demo_settings (Some with_token)
    (serve_all demo_settings demo_after (RevokeUser demo_settings alice_id
      (serve_all demo_settings demo_before demo_login.2).2).2).2).1 = Err e.
Proof.
  destruct demo_login_ok as (Hok & Hcaller & Hid).
  apply (revoked_token_refused demo_settings alice_id demo_input demo_gateway demo_result demo_caller demo_before demo_after with_token
    busy_fair demo_gateway_good Hok Hcaller Hid); by vm_compute.
Defined.
