(* ===== verification/CapSame.v ===== *)
(** From CAP alerts to SAME event codes ([internal/capsame/event.go]).

    The mapping file is JSON and its decoding an interface, with its entries in the
    order in which Go visits the map; so is the quoting of [%q]. *)

From S2P Require Import Prelude UnicodeTables GoStrings GoTime GoValue GoPath AlertPacket.
From S2P Require Import PlaylistModel World AlertRequest AudioRetention GoFloat CapModel PlannerState.
From S2P Require Import AlertCommit Wav AudioFiles.

#[local] Open Scope Z_scope.
#[local] Open Scope string_scope.
#[local] Open Scope haze_scope.

Record EventResolution := MkResolution {
  rs_Event : string; rs_Source : string; rs_Reason : string; rs_Confidence : string;
  rs_AlertClass : string; rs_Phenomenon : string; rs_Evidence : list string }.
Record namedText := MkNamed { nt_Name : string; nt_Value : string }.
Record hazardRule := MkRule {
  rule_Phenomenon : string; rule_Terms : list string; rule_Watch : string; rule_Warning : string;
  rule_Statement : string; rule_Advisory : string; rule_Default : string }.

Definition hazardRules : list hazardRule :=
  [MkRule "tornado" ["tornado"] "TOA" "TOR" "" "" "TOR";
   MkRule "severe thunderstorm" ["severe thunderstorm"] "SVA" "SVR" "SVS" "" "SVR";
   MkRule "thunderstorm" ["thunderstorm"] "SVA" "SVR" "SVS" "" "SVR";
   MkRule "flash flood" ["flash flood"] "FFA" "FFW" "FFS" "" "FFW";
   MkRule "flood" ["flood"] "FLA" "FLW" "FLS" "" "FLW";
   MkRule "snow squall" ["snow squall"; "squall"] "" "SQW" "" "" "SQW";
   MkRule "blizzard" ["blizzard"] "" "BZW" "" "" "BZW";
   MkRule "winter storm" ["winter storm"] "WSA" "WSW" "" "" "WSW";
   MkRule "hurricane" ["hurricane"] "HUA" "HUW" "HLS" "" "HUW";
   MkRule "tropical storm" ["tropical storm"] "TRA" "TRW" "HLS" "" "TRW";
   MkRule "storm surge" ["storm surge"] "SSA" "SSW" "" "" "SSW";
   MkRule "wildfire" ["wildfire"; "wild fire"; "forest fire"] "WFA" "WFW" "" "" "WFW"].

Class SameMapping := {
  json_naadsToEas : bytes -> option (list (string * string));
  Quote : string -> string }.

(** ** Codes *)

Definition is_token_separator (a : Ascii.ascii) : bool :=
  existsb (Z.eqb (byte_val a)) [44; 59; 124; 47; 92; 32; 9; 10; 13].
Definition eventCodeTokens (raw : string) : list string :=
  omap (fun part => let part := ToUpper (TrimSpace part) in if part =? "" then None else Some part)
    (FieldsFunc is_token_separator raw).
Definition originatorCode (value : string) : bool :=
  mem (ToUpper (TrimSpace value)) ["CIV"; "EAS"; "PEP"; "WXR"].
Definition validSAMEEventCode (value : string) : bool :=
  (String.length value =? 3)%nat && negb (originatorCode value) &&
  forallb (fun a => is_upper (byte_val a)) (bytes_of value).

Definition explicitEventCode (name raw : string) : string :=
  let label := ToLower (TrimSpace name) in
  if negb (Contains label "same") && negb (Contains label "eas") then ""
  else default "" (List.find validSAMEEventCode (eventCodeTokens raw)).

Definition evidenceText (name value : string) : string :=
  let name := TrimSpace name in
  let value := TrimSpace value in
  if (name =? "") || (value =? "") then "" else name +:+ "=" +:+ value.
Definition compactEvidence (values : list string) : list string :=
  dedup_loop (fun value => let value := TrimSpace value in
                           if value =? "" then None else Some (value, value)) ∅ values.

(** [""] stands for no resolution, as in the code. *)
Definition no_resolution : EventResolution := MkResolution "" "" "" "" "" "" [].

(** ** Explicit codes *)

Definition code_resolution (source what : string) (pair : NameValue) : option EventResolution :=
  let event := explicitEventCode (nv_Name pair) (nv_Value pair) in
  if event =? "" then None
  else Some (MkResolution event source
    ("CAP " +:+ what +:+ " " +:+ TrimSpace (nv_Name pair) +:+ " supplied explicit SAME/EAS event " +:+ event)
    "high" "" "" [evidenceText (what +:+ " " +:+ nv_Name pair) (nv_Value pair)]).
Definition explicitCAPEvent (info : AlertInfo) : EventResolution :=
  match head (omap (code_resolution "cap_event_code" "eventCode") (info_EventCodes info)) with
  | Some r => r
  | None => default no_resolution (head (omap (code_resolution "cap_parameter" "parameter") (info_Parameters info)))
  end.

(** ** Classes and phrases *)

Definition alertParamContaining (info : AlertInfo) (token : string) : string :=
  let token := ToLower (TrimSpace token) in
  match List.find (fun param => Contains (ToLower (TrimSpace (nv_Name param))) token) (info_Parameters info) with
  | Some param => TrimSpace (nv_Value param)
  | None => ""
  end.

Definition is_word_separator (a : Ascii.ascii) : bool :=
  negb (is_lower (byte_val a)) && negb (is_digit (byte_val a)).
Definition containsWord (raw word : string) : bool :=
  mem (ToLower (TrimSpace word)) (FieldsFunc is_word_separator (ToLower raw)).
Definition containsAnyPhrase (text : string) (phrases : list string) : bool :=
  existsb (fun phrase => Contains text (ToLower phrase)) phrases.

Definition class_fields (info : AlertInfo) : list namedText :=
  [MkNamed "Alert_Type" (alertParamContaining info "alert_type");
   MkNamed "Alert_Name" (alertParamContaining info "alert_name");
   MkNamed "headline" (info_Headline info); MkNamed "event" (info_Event info)].
Fixpoint detect (fields : list namedText) (classes : list string) : string * list string :=
  match classes with
  | [] => ("", [])
  | class :: classes' =>
      match List.find (fun field => containsWord (nt_Value field) class) fields with
      | Some field => (class, [evidenceText (nt_Name field) (nt_Value field)])
      | None => detect fields classes'
      end
  end.
Definition detectAlertClass (info : AlertInfo) : string * list string :=
  detect (class_fields info) ["watch"; "warning"; "advisory"; "statement"].

Definition capTextFields (info : AlertInfo) : list namedText :=
  ([MkNamed "Alert_Name" (alertParamContaining info "alert_name"); MkNamed "headline" (info_Headline info);
    MkNamed "event" (info_Event info); MkNamed "Alert_Type" (alertParamContaining info "alert_type")] ++
   map (fun code => MkNamed ("eventCode " +:+ nv_Name code) (nv_Value code)) (info_EventCodes info))%list.
Definition capTextEvidence (info : AlertInfo) : list string :=
  map (fun field => evidenceText (nt_Name field) (nt_Value field)) (capTextFields info).

Definition first_nonblank (values : list string) : string := default "" (head (trimmed_nonblank values)).
Definition eventForClass (rule : hazardRule) (alertClass : string) : string :=
  if alertClass =? "watch" then first_nonblank [rule_Watch rule; rule_Default rule]
  else if alertClass =? "warning" then first_nonblank [rule_Warning rule; rule_Default rule]
  else if alertClass =? "statement" then first_nonblank [rule_Statement rule; "SPS"]
  else if alertClass =? "advisory" then first_nonblank [rule_Advisory rule; rule_Statement rule; "SPS"]
  else rule_Default rule.

Section resolve.
Context `{SameMapping}.

Definition rule_match (alertClass : string) (classEvidence : list string) (field : namedText)
    (rule : hazardRule) : option EventResolution :=
  if negb (containsAnyPhrase (ToLower (nt_Value field)) (rule_Terms rule)) then None
  else
    let event := eventForClass rule alertClass in
    if event =? "" then None
    else
      let reason := "CAP " +:+ nt_Name field +:+ " " +:+ Quote (TrimSpace (nt_Value field)) +:+ " matched " +:+
        rule_Phenomenon rule in
      let reason := if alertClass =? "" then reason else reason +:+ " with " +:+ alertClass +:+ " metadata" in
      Some (MkResolution event (if alertClass =? "" then "cap_hazard" else "cap_alert_class") reason
        (if alertClass =? "" then "medium" else "high") alertClass (rule_Phenomenon rule)
        (compactEvidence (classEvidence ++ [evidenceText (nt_Name field) (nt_Value field)])%list)).
Definition field_match (alertClass : string) (classEvidence : list string) (field : namedText) :
    list EventResolution :=
  if ToLower (nt_Value field) =? "" then [] else omap (rule_match alertClass classEvidence field) hazardRules.
Definition classifiedEvent (info : AlertInfo) (alertClass : string) (classEvidence : list string) :
    EventResolution :=
  let '(alertClass, classEvidence) :=
    if alertClass =? "" then detectAlertClass info else (alertClass, classEvidence) in
  match head (concat (map (field_match alertClass classEvidence) (capTextFields info))) with
  | Some r => r
  | None =>
      if alertClass =? "statement" then
        MkResolution "SPS" "cap_alert_class"
          "CAP metadata identified a weather statement without a more specific SAME event" "medium" alertClass ""
          (compactEvidence (classEvidence ++ capTextEvidence info)%list)
      else no_resolution
  end.

(** ** The mapping file *)

Definition normalizeEventKey (raw : string) : string :=
  filter_bytes (fun z => is_lower z || is_digit z) (ToLower (TrimSpace raw)).
Definition add_mapping (out : gmap string string) (entry : string * string) : gmap string string :=
  let value := ToUpper (TrimSpace entry.2) in
  if validSAMEEventCode value then <[normalizeEventKey entry.1 := value]> out else out.
Definition mapping_of (payload : list (string * string)) : gmap string string := fold_left add_mapping payload ∅.
Definition loadNAADSToEASMapping `{Env} `{Tools} (baseDir : string) : M World (gmap string string) :=
  let! raw := ReadFile (Clean (JoinPath [baseDir; "managed"; "sameMapping.json"])) in
  ret (match raw with
       | Err _ => ∅
       | Ok raw => match json_naadsToEas raw with Some payload => mapping_of payload | None => ∅ end
       end).
Definition mapped (mapping : gmap string string) (raw : string) : string :=
  default "" (mapping !! normalizeEventKey raw).

(** ** Resolution *)

Definition mapped_code (mapping : gmap string string) (alertClass : string) (classEvidence : list string)
    (code : NameValue) : option EventResolution :=
  let event := mapped mapping (nv_Value code) in
  if event =? "" then None
  else Some (MkResolution event "cap_event_code_mapping"
    ("mapped CAP eventCode " +:+ TrimSpace (nv_Name code) +:+ "=" +:+ Quote (TrimSpace (nv_Value code)) +:+
     " through sameMapping.json") "medium" alertClass ""
    (compactEvidence (classEvidence ++ [evidenceText ("eventCode " +:+ nv_Name code) (nv_Value code)])%list)).
Definition mapped_event (mapping : gmap string string) (alertClass : string) (classEvidence : list string)
    (info : AlertInfo) : option EventResolution :=
  let event := mapped mapping (info_Event info) in
  if event =? "" then None
  else Some (MkResolution event "cap_event_mapping"
    ("mapped CAP event " +:+ Quote (TrimSpace (info_Event info)) +:+ " through sameMapping.json") "medium"
    alertClass "" (compactEvidence (classEvidence ++ [evidenceText "event" (info_Event info)])%list)).

(** The resolution once the mapping file is read. *)
Definition resolve_mapped (info : AlertInfo) (mapping : gmap string string) : EventResolution :=
  let '(alertClass, classEvidence) := detectAlertClass info in
  match head (omap (mapped_code mapping alertClass classEvidence) (info_EventCodes info)) with
  | Some r => r
  | None =>
      match mapped_event mapping alertClass classEvidence info with
      | Some r => r
      | None =>
          let r := classifiedEvent info "" [] in
          if negb (rs_Event r =? "") then
            MkResolution (rs_Event r) "cap_hazard_fallback" (rs_Reason r) "low" (rs_AlertClass r)
              (rs_Phenomenon r) (rs_Evidence r)
          else
            MkResolution "ADR" "default"
              "no explicit SAME code, CAP alert class, known hazard phrase, or NAADS mapping matched" "low"
              alertClass "" (compactEvidence (capTextEvidence info))
      end
  end.

Definition ResolveEvent `{Env} `{Tools} (alert : Alert) (info : AlertInfo) (baseDir : string) :
    M World EventResolution :=
  let explicit := explicitCAPEvent info in
  if negb (rs_Event explicit =? "") then ret explicit
  else
    let '(alertClass, classEvidence) := detectAlertClass info in
    let classified := classifiedEvent info alertClass classEvidence in
    if negb (rs_Event classified =? "") then ret classified
    else
      let! mapping := loadNAADSToEASMapping baseDir in
      ret (resolve_mapped info mapping).
End resolve.

(** ** A reference: the first choice that applies *)

Section reference.
Context `{SameMapping}.

Definition explicit_choices (info : AlertInfo) : list EventResolution :=
  (omap (code_resolution "cap_event_code" "eventCode") (info_EventCodes info) ++
   omap (code_resolution "cap_parameter" "parameter") (info_Parameters info))%list.
Definition class_choices (info : AlertInfo) : list EventResolution :=
  let '(class, evidence) := detectAlertClass info in
  (concat (map (field_match class evidence) (capTextFields info)) ++
   if class =? "statement" then
     [MkResolution "SPS" "cap_alert_class"
        "CAP metadata identified a weather statement without a more specific SAME event" "medium" class ""
        (compactEvidence (evidence ++ capTextEvidence info)%list)]
   else [])%list.
Definition mapping_choices (info : AlertInfo) (mapping : gmap string string) : list EventResolution :=
  let '(class, evidence) := detectAlertClass info in
  (omap (mapped_code mapping class evidence) (info_EventCodes info) ++
   option_list (mapped_event mapping class evidence info))%list.
Definition default_choice (info : AlertInfo) : EventResolution :=
  MkResolution "ADR" "default"
    "no explicit SAME code, CAP alert class, known hazard phrase, or NAADS mapping matched" "low"
    (detectAlertClass info).1 "" (compactEvidence (capTextEvidence info)).
Definition reference (info : AlertInfo) (mapping : gmap string string) : EventResolution :=
  default (default_choice info)
    (head (explicit_choices info ++ class_choices info ++ mapping_choices info mapping)%list).

(** *** Every choice has a SAME event code *)

Definition coded (r : EventResolution) : Prop := validSAMEEventCode (rs_Event r) = true.

Lemma coded_nonempty r : coded r -> (rs_Event r =? "") = false.
Proof. intros Hr. destruct (rs_Event r =? "") eqn:E; [|done]. apply String.eqb_eq in E. unfold coded in Hr. by rewrite E in Hr. Qed.

Lemma explicit_coded info : Forall coded (explicit_choices info).
Proof.
  assert (forall source what l, Forall coded (omap (code_resolution source what) l)) as Hl.
  { intros source what l. apply list.Forall_forall. intros r Hr. apply list_elem_of_omap in Hr as (pair & _ & Hr).
    unfold code_resolution, explicitEventCode in Hr. destruct (_ && _); [done|].
    destruct (List.find _ _) as [e|] eqn:E; [|done]. apply find_some in E as [_ E].
    cbn in Hr. destruct (e =? ""); [done|]. by injection Hr as <-. }
  apply Forall_app. by split.
Qed.

(** The rules have a valid code for every class. *)
Lemma rules_coded : forallb (fun rule => forallb (fun class => validSAMEEventCode (eventForClass rule class))
  ["watch"; "warning"; "statement"; "advisory"; ""]) hazardRules = true.
Proof. by vm_compute. Qed.
Lemma rule_coded rule class : In rule hazardRules -> validSAMEEventCode (eventForClass rule class) = true.
Proof.
  intros Hr. pose proof rules_coded as Ha. rewrite forallb_forall in Ha. specialize (Ha rule Hr).
  rewrite forallb_forall in Ha.
  assert (exists known, In known ["watch"; "warning"; "statement"; "advisory"; ""] /\
    eventForClass rule class = eventForClass rule known) as (known & Hk & ->); [|by apply Ha].
  unfold eventForClass at 1. destruct (class =? "watch"); [exists "watch"; cbn; tauto|].
  destruct (class =? "warning"); [exists "warning"; cbn; tauto|].
  destruct (class =? "statement"); [exists "statement"; cbn; tauto|].
  destruct (class =? "advisory"); [exists "advisory"; cbn; tauto|]. exists ""; cbn; tauto.
Qed.

Lemma class_coded info : Forall coded (class_choices info).
Proof.
  unfold class_choices. destruct (detectAlertClass info) as [class evidence]. apply Forall_app. split.
  - apply List.Forall_forall. intros r Hr. apply in_concat in Hr as (l & Hl & Hr).
    apply in_map_iff in Hl as (field & <- & _). unfold field_match in Hr. destruct (_ =? ""); [done|].
    apply list_elem_of_In, list_elem_of_omap in Hr as (rule & Hrule & Hr). apply list_elem_of_In in Hrule.
    unfold rule_match in Hr. destruct (negb _); [done|]. destruct (eventForClass rule class =? ""); [done|].
    injection Hr as <-. by apply rule_coded.
  - destruct (class =? "statement"); by repeat constructor.
Qed.

Definition mapping_coded (m : gmap string string) : Prop :=
  forall k v, m !! k = Some v -> validSAMEEventCode v = true.
Lemma mapping_of_coded payload : mapping_coded (mapping_of payload).
Proof.
  unfold mapping_of. assert (mapping_coded ∅) as Hm by (intros k v Hk; by rewrite lookup_empty in Hk).
  revert Hm. generalize (∅ : gmap string string). induction payload as [|entry payload IH]; intros m Hm; [done|].
  apply IH. unfold add_mapping. destruct (validSAMEEventCode _) eqn:E; [|done]. intros k v Hk.
  apply lookup_insert_Some in Hk as [[_ <-]|[_ Hk]]; [done|by eapply Hm].
Qed.
Lemma mapped_coded m raw : mapping_coded m -> (mapped m raw =? "") = false ->
  validSAMEEventCode (mapped m raw) = true.
Proof. unfold mapped. intros Hm. destruct (m !! normalizeEventKey raw) eqn:E; [|done]. intros _. by eapply Hm. Qed.
Lemma choices_coded info m : mapping_coded m -> Forall coded (mapping_choices info m).
Proof.
  intros Hm. unfold mapping_choices. destruct (detectAlertClass info) as [class evidence]. apply Forall_app. split.
  - apply list.Forall_forall. intros r Hr. apply list_elem_of_omap in Hr as (code & _ & Hr). unfold mapped_code in Hr.
    destruct (_ =? "") eqn:E; [done|]. injection Hr as <-. by apply mapped_coded.
  - unfold mapped_event. destruct (_ =? "") eqn:E; repeat constructor. by apply mapped_coded.
Qed.

Lemma reference_coded info m : mapping_coded m -> coded (reference info m).
Proof.
  intros Hm. unfold reference. assert (Forall coded (explicit_choices info ++ class_choices info ++ mapping_choices info m)%list) as Hl.
  { apply Forall_app. split; [apply explicit_coded|]. apply Forall_app. split; [apply class_coded|by apply choices_coded]. }
  destruct Hl; [by vm_compute|done].
Qed.

(** *** The code makes the reference's choice *)

Lemma head_app {A} (l l' : list A) : head (l ++ l')%list = match head l with Some a => Some a | None => head l' end.
Proof. by destruct l. Qed.

Lemma explicit_choice info : explicitCAPEvent info = default no_resolution (head (explicit_choices info)).
Proof. unfold explicitCAPEvent, explicit_choices. rewrite head_app. by destruct (head (omap _ (info_EventCodes info))). Qed.

(** Classifying again finds what classifying found. *)
Lemma classified_choice info class evidence :
  class = "" \/ (class, evidence) = detectAlertClass info ->
  classifiedEvent info class evidence = default no_resolution (head (class_choices info)).
Proof.
  intros Hc. unfold classifiedEvent, class_choices.
  assert ((if class =? "" then detectAlertClass info else (class, evidence)) = detectAlertClass info) as ->.
  { destruct Hc as [-> | ->]; [done|]. by destruct (class =? ""). }
  destruct (detectAlertClass info) as [c e]. rewrite head_app.
  destruct (head (concat _)); [done|]. by destruct (c =? "statement").
Qed.

Lemma first_choice (l l' : list EventResolution) k : Forall coded l ->
  (if negb (rs_Event (default no_resolution (head l)) =? "") then default no_resolution (head l)
   else default k (head l')) = default k (head (l ++ l')%list).
Proof. intros Hl. rewrite head_app. destruct Hl as [|r l Hr Hl]; [done|]. cbn. by rewrite (coded_nonempty _ Hr). Qed.
End reference.

Section promises.
Context `{SameMapping} `{Env} `{Tools}.

Lemma load_mapping_coded baseDir w : mapping_coded (loadNAADSToEASMapping baseDir w).1.
Proof.
  unfold loadNAADSToEASMapping. rewrite mbind_eq. cbn [ret fst].
  destruct (ReadFile _ w).1 as [raw|e]; [destruct (json_naadsToEas raw); [apply mapping_of_coded|]|];
    intros k v Hk; by rewrite lookup_empty in Hk.
Qed.

Lemma resolve_mapped_choice info m : class_choices info = [] ->
  resolve_mapped info m = default (default_choice info) (head (mapping_choices info m)).
Proof.
  intros Hn. unfold resolve_mapped, mapping_choices, default_choice.
  rewrite (classified_choice info "" []), Hn by (by left).
  destruct (detectAlertClass info) as [class evidence]. rewrite head_app.
  destruct (head (omap _ _)); [done|]. by destruct (mapped_event _ _ _ _).
Qed.

Lemma resolve_reference alert info baseDir w :
  (ResolveEvent alert info baseDir w).1 = reference info (loadNAADSToEASMapping baseDir w).1.
Proof.
  unfold ResolveEvent, reference. rewrite explicit_choice, head_app.
  pose proof (explicit_coded info) as He. destruct He as [|r l Hr _]; cbn [head default].
  2: { cbn. by rewrite (coded_nonempty _ Hr). }
  cbn [rs_Event no_resolution default head]. rewrite head_app.
  destruct (detectAlertClass info) as [class evidence] eqn:Hd.
  rewrite (classified_choice info class evidence) by (by right).
  pose proof (class_coded info) as Hc. destruct (class_choices info) as [|r l] eqn:Ec; cbn [head default].
  2: { apply list.Forall_cons in Hc as [Hr _]. cbn. by rewrite (coded_nonempty _ Hr). }
  cbn [rs_Event no_resolution]. cbn [String.eqb negb]. rewrite mbind_eq. cbn [ret fst]. by rewrite resolve_mapped_choice.
Qed.

(** Every CAP alert gets a SAME event code: three capital letters, and not
    one of the originator codes. *)
Theorem ResolveEvent_valid (alert : Alert) (info : AlertInfo) (baseDir : string) (w : World) :
  validSAMEEventCode (rs_Event (ResolveEvent alert info baseDir w).1) = true.
Proof. rewrite resolve_reference. apply reference_coded, load_mapping_coded. Qed.

(** The event of an alert is the first choice that applies, of: the codes it
    names, its event codes before its parameters; the hazards its texts mention, in
    the order of fields and of rules, with the code for the alert's class; a
    statement; the mapping file, by event code and by event; and else an
    administrative message.  The fall-back to hazards with low confidence, which
    the code has last, never decides. *)
Theorem ResolveEvent_first_choice (alert : Alert) (info : AlertInfo) (baseDir : string) (w : World) :
  let mapping := (loadNAADSToEASMapping baseDir w).1 in
  let r := (ResolveEvent alert info baseDir w).1 in
  r = default (default_choice info)
        (head (explicit_choices info ++ class_choices info ++ mapping_choices info mapping)%list) /\
  rs_Source r <> "cap_hazard_fallback".
Proof.
  cbv zeta. rewrite resolve_reference. split; [done|]. unfold reference.
  assert (Forall (fun r => rs_Source r <> "cap_hazard_fallback")
    (explicit_choices info ++ class_choices info ++ mapping_choices info (loadNAADSToEASMapping baseDir w).1)%list) as Hl;
    [|by destruct Hl].
  unfold class_choices, mapping_choices. destruct (detectAlertClass info) as [class evidence].
  unfold explicit_choices. rewrite !Forall_app, !list.Forall_forall. split_and!; intros r Hr.
  - apply list_elem_of_omap in Hr as (pair & _ & Hr). unfold code_resolution in Hr. destruct (_ =? ""); [done|].
    by injection Hr as <-.
  - apply list_elem_of_omap in Hr as (pair & _ & Hr). unfold code_resolution in Hr. destruct (_ =? ""); [done|].
    by injection Hr as <-.
  - apply list_elem_of_In, in_concat in Hr as (l & Hl & Hr). apply in_map_iff in Hl as (field & <- & _).
    unfold field_match in Hr. destruct (_ =? ""); [done|].
    apply list_elem_of_In, list_elem_of_omap in Hr as (rule & _ & Hr). unfold rule_match in Hr.
    destruct (negb _); [done|]. destruct (eventForClass rule class =? ""); [done|]. injection Hr as <-.
    cbn. by destruct (class =? "").
  - destruct (class =? "statement"); [|by apply not_elem_of_nil in Hr].
    by apply list_elem_of_singleton in Hr as ->.
  - apply list_elem_of_omap in Hr as (code & _ & Hr). unfold mapped_code in Hr. destruct (_ =? ""); [done|].
    by injection Hr as <-.
  - unfold mapped_event in Hr. destruct (_ =? ""); [by apply not_elem_of_nil in Hr|].
    by apply list_elem_of_singleton in Hr as ->.
Qed.
End promises.

(** ** Surprises *)

#[export] Instance no_mapping : SameMapping | 1000 := {| json_naadsToEas _ := None; Quote s := quoted s |}.

Definition info_with (event headline : string) (parameters : list NameValue) : AlertInfo :=
  MkInfo "en-CA" [] event [] "" "" "" "" "" "" "" "" headline "" "" "" [] [] parameters [] None.

(** The word is looked for in every field before the next class is: a warning
    whose headline says to watch for something is aired as a watch. *)
Theorem warning_aired_as_watch :
  let info := info_with "tornado" "Tornado warning in effect, watch for changing conditions"
    [MkNameValue "layer:EC-MSC-SMC:1.0:Alert_Type" "warning";
     MkNameValue "layer:EC-MSC-SMC:1.0:Alert_Name" "tornado warning"] in
  rs_Event (classifiedEvent info (detectAlertClass info).1 (detectAlertClass info).2) = "TOA" /\
  rs_Confidence (classifiedEvent info (detectAlertClass info).1 (detectAlertClass info).2) = "high".
Proof. by vm_compute. Qed.

(** A parameter counts as an explicit code when its name has "eas" in it, as
    "Increase" does. *)
Theorem unrelated_parameter_read_as_event :
  rs_Event (explicitCAPEvent (info_with "wind" "Wind warning" [MkNameValue "Gust_Increase" "60 kmh"])) = "KMH".
Proof. by vm_compute. Qed.
