(* ===== verification/SameRequest.v ===== *)
(** The SAME generator ([internal/playlist/same.go]): the request made for an
    alert, the locations it names, the run of the host program that encodes it,
    and the audio that comes back. *)

From S2P Require Import Prelude UnicodeTables GoStrings GoTime GoValue GoPath AlertPacket.
From S2P Require Import PlaylistModel World AlertRequest AudioRetention PlannerState AlertCommit Wav.
From S2P Require Import AudioFiles.

#[local] Open Scope Z_scope.
#[local] Open Scope string_scope.
#[local] Open Scope haze_scope.

(** ** Requests and payloads *)

Record sameGenerateRequest := MkSameRequest {
  Originator : string; Event : string; req_Locations : list string; req_Duration : string;
  req_Callsign : string; req_Tone : string; Sequence : string }.

Record sameAudioPayload := MkSamePayload {
  pay_Header : string; pay_Audio : bytes; pay_SampleRate : Z; pay_Channels : Z }.
Definition no_payload : sameAudioPayload := MkSamePayload "" [] 0 0.

(** How a program that was run ended. *)
Inductive execResult :=
| TimedOut
| Failed (err stderr : string)
| Printed (raw : string).

(** The host: the environment, the programs it runs, and the tables of locations. *)
Class Host := {
  Getenv : string -> string;
  windows : bool;
  exec_same : nat -> string -> list string -> execResult;
  (* encoding/json: the object, or the error *)
  json_object : string -> result string obj;
  (* the text of the error of encoding/base64 *)
  base64_error : string -> string;
  (* locationdb: the codes of the snapshot's "clc" places, when one loads *)
  snapshot_clc : string -> option (list string);
  (* encoding/csv: the rows up to the first error, when the file opens *)
  csv_rows : string -> option (list (list string)) }.

(** ** [strconv] *)

Fixpoint digits_value (acc : Z) (s : string) : option Z :=
  match s with
  | EmptyString => Some acc
  | String a s' =>
      if is_digit (byte_val a) then digits_value (10 * acc + (byte_val a - 48)) s' else None
  end.
(** [strconv.Atoi] and [strconv.ParseInt(s, 10, 64)]. *)
Definition Atoi (s : string) : option Z :=
  let parse sign digits :=
    if digits =? "" then None
    else match digits_value 0 digits with
         | Some v => if in_range min_int64 max_int64 (sign * v) then Some (sign * v)%Z else None
         | None => None
         end in
  match s with
  | String "+" s' => parse 1%Z s'
  | String "-" s' => parse (-1)%Z s'
  | _ => parse 1%Z s
  end.

Definition intFromResult (source : obj) (key : string) (fallback : Z) : Z :=
  match source !! key with
  | Some (AFloat value) => f64_trunc value
  | Some (AInt value) => value
  | Some (ANumber value) => default fallback (Atoi value)
  | _ => fallback
  end.

(** ** [base64.StdEncoding] *)

Definition base64_digit (a : Ascii.ascii) : option Z :=
  let z := byte_val a in
  if is_upper z then Some (z - 65)%Z
  else if is_lower z then Some (z - 71)%Z
  else if is_digit z then Some (z + 4)%Z
  else if (z =? 43)%Z then Some 62%Z
  else if (z =? 47)%Z then Some 63%Z
  else None.

Definition pad_char : Ascii.ascii := "="%char.

(** Quanta of four characters; only the last may be padded. *)
Fixpoint base64_quanta (l : bytes) : option bytes :=
  match l with
  | [] => Some []
  | a :: b :: c :: d :: rest =>
      match base64_digit a, base64_digit b with
      | Some a, Some b =>
          if Ascii.eqb d pad_char then
            match rest with
            | _ :: _ => None
            | [] =>
                if Ascii.eqb c pad_char then Some [byte_of (a * 4 + b / 16)]
                else match base64_digit c with
                     | Some c => Some [byte_of (a * 4 + b / 16); byte_of (b mod 16 * 16 + c / 4)]
                     | None => None
                     end
            end
          else
            match base64_digit c, base64_digit d with
            | Some c, Some d =>
                match base64_quanta rest with
                | Some out =>
                    Some (byte_of (a * 4 + b / 16) :: byte_of (b mod 16 * 16 + c / 4) ::
                          byte_of (c mod 4 * 64 + d) :: out)
                | None => None
                end
            | _, _ => None
            end
      | _, _ => None
      end
  | _ => None
  end.

(** [DecodeString]: line breaks are skipped. *)
Definition is_break (a : Ascii.ascii) : bool := (byte_val a =? 10)%Z || (byte_val a =? 13)%Z.
Definition DecodeString (s : string) : option bytes :=
  base64_quanta (List.filter (fun a => negb (is_break a)) (bytes_of s)).

(** ** Locations *)

Definition sameLocationCode (raw : string) : string :=
  let value := filter_bytes is_digit raw in
  if (String.length value =? 6)%nat then value else "".

(** The closures [add]: of [sameLocationsFromData], which stops at 31 codes, and
    of [expandWildcardSAMELocations]. *)
Definition add_code (state : gset string * list string) (raw : string) : gset string * list string :=
  let '(seen, out) := state in
  let code := sameLocationCode raw in
  if code =? "" then state
  else if decide (code ∈ seen) then state
  else ({[code]} ∪ seen, (out ++ [code])%list).
Definition add_code31 (state : gset string * list string) (raw : string) : gset string * list string :=
  if (31 <=? length state.2)%nat then state else add_code state raw.

(** The last loop of [sameLocationsFromData]. *)
Fixpoint add_raw (state : gset string * list string) (l : list string) : gset string * list string :=
  match l with
  | [] => state
  | raw :: l' =>
      let state := add_code31 state raw in
      if (31 <=? length state.2)%nat then state else add_raw state l'
  end.

Definition same_scheme (identifier : LocationIdentifier) : bool :=
  mem (ToLower (TrimSpace (Scheme identifier))) ["same"; "fips"; "clc"].

(** The identifiers a packet contributes, in order. *)
Definition packet_codes (packet : Packet) : list string :=
  flat_map (fun location : LocationReference =>
    if negb (Actionable location) || Ambiguous location || (TrimSpace (CanonicalID location) =? "")
    then []
    else map IdentValue (List.filter same_scheme (CanonicalIdentifiers location)))
  (Locations (PAreas packet)).

Section same.
Context `{JSON} `{Env} `{Tools} `{Host}.

Definition sameLocationsFromData (data : obj) : list string :=
  let locations := stringListAny (firstValue ∅ data ["same_locations"; "locations"]) in
  let state := (∅, []) in
  let '(packet, ok) := FromMap (Some data) in
  let state := if ok then fold_left add_code31 (packet_codes packet) state else state in
  (add_raw state locations).2.

(** The codes of the table below one of the wildcards. *)
Definition wildcard_child (wildcards : list string) (raw : string) : option string :=
  let code := sameLocationCode raw in
  if (code =? "") || HasSuffix code "00" then None
  else if existsb (fun wildcard => HasPrefix code (take_bytes 4 wildcard)) wildcards then Some code
  else None.

Definition clcWildcardChildren (path : string) (wildcards : list string) : list string :=
  match csv_rows path with
  | None | Some [] => []
  | Some (header :: rows) =>
      match list_find (fun column => EqualFold (TrimSpace column) "CLC") header with
      | None => []
      | Some (clcIndex, _) =>
          omap (fun row => match row !! clcIndex with
                           | Some cell => wildcard_child wildcards cell
                           | None => None
                           end) rows
      end
  end.

Definition clcWildcardChildrenForBase (baseDir : string) (wildcards : list string) : list string :=
  let children := match snapshot_clc baseDir with
                  | Some codes => omap (wildcard_child wildcards) codes
                  | None => []
                  end in
  if (0 <? length children)%nat then children
  else clcWildcardChildren (Clean (JoinPath [baseDir; "managed"; "csv"; "CLC_Base_Zone.csv"])) wildcards.

(** The codes themselves, then the children of the wildcards among them. *)
Definition expanded (baseDir : string) (locations : list string) : gset string * list string :=
  let state := fold_left add_code locations (∅, []) in
  let wildcards := List.filter (fun code => HasSuffix code "00" && (String.length code =? 6)%nat)
    (map sameLocationCode locations) in
  if (0 <? length wildcards)%nat
  then fold_left add_code (clcWildcardChildrenForBase baseDir wildcards) state
  else state.
Definition expandWildcardSAMELocations (baseDir : string) (locations : list string) : list string :=
  let out := (expanded baseDir locations).2 in
  if (31 <? length out)%nat then take 31 out else out.

(** The fallback: every region of the feed's coverage and its subregions. *)
Definition coverage_codes (feed : feedXML) : list string :=
  List.filter (fun code => negb (code =? ""))
    (map sameLocationCode (flat_map (fun region => RegionID region :: Subregions region) (Regions feed))).

Definition sameLocationsForData (cfg : loadedConfig) (p : feedPlanner) (data : obj) : list string :=
  let event := ToUpper (fallbackText (firstText ∅ data ["same_event"; "event"]) "ADR") in
  let locations := sameLocationsFromData data in
  let locations := if (length locations =? 0)%nat then coverage_codes (feed p) else locations in
  if negb (event =? "SVR") && negb (event =? "TOR") then locations
  else expandWildcardSAMELocations (BaseDir cfg) locations.

(** ** The request *)

Definition normalizeSAMEDuration (raw : string) : string :=
  let value := filter_bytes is_digit raw in
  if (4 <=? String.length value)%nat then take_bytes 4 value
  else zeros (4 - String.length value) +:+ value.

Definition buildSAMERequest (cfg : loadedConfig) (p : feedPlanner) (data : obj) (sequence : string) :
    sameGenerateRequest :=
  let callsign := fallbackText (firstText ∅ data ["same_callsign"; "callsign"]) (feedCallsign (feed p)) in
  MkSameRequest
    (ToUpper (fallbackText (firstText ∅ data ["same_originator"; "originator"]) "WXR"))
    (ToUpper (fallbackText (firstText ∅ data ["same_event"; "event"]) "ADR"))
    (sameLocationsForData cfg p data)
    (normalizeSAMEDuration (fallbackText (firstText ∅ data ["same_duration"; "duration"]) "0015"))
    (if callsign =? "" then "HAZE" else callsign)
    (ToUpper (fallbackText (firstText ∅ data ["same_tone"; "tone_type"]) "WXR"))
    (ToLower (fallbackText sequence "full")).

(** ** The generator *)

Definition findHostExecutable (baseDir : string) : M World (result string string) :=
  if negb (TrimSpace (Getenv "HAZE_SAME_GENERATOR") =? "")
  then ret (Ok (TrimSpace (Getenv "HAZE_SAME_GENERATOR")))
  else if negb (TrimSpace (Getenv "HAZE_HOST_EXE") =? "")
  then ret (Ok (TrimSpace (Getenv "HAZE_HOST_EXE")))
  else
    let name := if windows then "haze.exe" else "haze" in
    let candidates := map Clean [JoinPath [baseDir; name]; JoinPath [baseDir; "dist"; "haze"; name];
                                 JoinPath [baseDir; ".."; name]] in
    gets (fun w =>
      match List.find (fun path => match files w !! path with Some _ => true | None => false end) candidates with
      | Some clean => Ok clean
      | None => Err "Haze SAME generator executable was not found"
      end).

Definition same_args (request : sameGenerateRequest) : list string :=
  (["same"; "generate"; "--json"; "--originator"; Originator request; "--event"; Event request;
    "--locations"; Join (req_Locations request) ","; "--duration"; req_Duration request;
    "--callsign"; req_Callsign request; "--tone"; req_Tone request] ++
   (if Sequence request =? "" then [] else ["--sequence"; Sequence request]))%list.

(** The program is the [n]-th thing that could fail. *)
Definition runSameGenerator (baseDir : string) (request : sameGenerateRequest) :
    M World (result string obj) :=
  let! executable := findHostExecutable baseDir in
  match executable with
  | Err e => ret (Err e)
  | Ok executable =>
      let! n := gets attempts in
      attempt ;;;
      ret match exec_same n executable (same_args request) with
          | TimedOut => Err "SAME generator timed out"
          | Failed err stderr =>
              let detail := TrimSpace stderr in
              Err ("SAME generator failed: " +:+ (if detail =? "" then err else detail))
          | Printed raw =>
              match json_object raw with
              | Ok result => Ok result
              | Err e => Err ("SAME generator returned invalid JSON: " +:+ e)
              end
          end
  end.

Definition resultText (result : obj) (key : string) : string :=
  match result !! key with Some (AString s) => s | _ => "" end.

Definition sameAudioFromResult (source : obj) (fallbackSampleRate fallbackChannels : Z) :
    result string sameAudioPayload :=
  let audioBase64 := resultText source "audio_base64" in
  if audioBase64 =? "" then Err "SAME generator returned no audio payload"
  else
    match DecodeString audioBase64 with
    | None => Err ("decode SAME audio payload: " +:+ base64_error audioBase64)
    | Some audio =>
        let header := resultText source "header" in
        if header =? "" then Err "SAME generator returned no header"
        else Ok (MkSamePayload header audio (intFromResult source "sample_rate" fallbackSampleRate)
                   (intFromResult source "channels" fallbackChannels))
    end.

Definition generatePrioritySAME (cfg : loadedConfig) (p : feedPlanner) (data : obj) (sequence : string) :
    M World (result string (sameGenerateRequest * obj)) :=
  let request := buildSAMERequest cfg p data sequence in
  if (length (req_Locations request) =? 0)%nat then ret (Err "no SAME locations were supplied")
  else
    let! r := runSameGenerator (BaseDir cfg) request in
    ret (rmap (fun result => (request, result)) r).

(** The header and the end of message are generated side by side; the results
    come in the order [eom_first] says and are filed by their sequence. *)
Definition with_sequence (s : string) (r : sameGenerateRequest) : sameGenerateRequest :=
  MkSameRequest (Originator r) (Event r) (req_Locations r) (req_Duration r) (req_Callsign r)
    (req_Tone r) s.
Definition part_named (sequence : string) (parts : gmap string (result string obj)) : result string obj :=
  default (Ok ∅) (parts !! sequence).

Definition generatePrioritySAMEPair (eom_first : bool) (cfg : loadedConfig) (p : feedPlanner) (data : obj) :
    M World (result string (sameGenerateRequest * sameAudioPayload * sameAudioPayload)) :=
  let headerRequest := buildSAMERequest cfg p data "header" in
  if (length (req_Locations headerRequest) =? 0)%nat
  then ret (Err "SAME header generation failed: no SAME locations were supplied")
  else
    let eomRequest := with_sequence "eom" headerRequest in
    let! headerResult := runSameGenerator (BaseDir cfg) headerRequest in
    let! eomResult := runSameGenerator (BaseDir cfg) eomRequest in
    let results := [(Sequence headerRequest, headerResult); (Sequence eomRequest, eomResult)] in
    let results := if eom_first then rev results else results in
    let parts := fold_left (fun m part => <[part.1 := part.2]> m) results ∅ in
    ret match part_named "header" parts with
        | Err e => Err ("SAME header generation failed: " +:+ e)
        | Ok result =>
            match sameAudioFromResult result (cfgSampleRate (Playout cfg)) (cfgChannels (Playout cfg)) with
            | Err e => Err ("SAME header generation failed: " +:+ e)
            | Ok header =>
                match part_named "eom" parts with
                | Err e => Err ("SAME EOM generation failed: " +:+ e)
                | Ok result =>
                    match sameAudioFromResult result (pay_SampleRate header) (pay_Channels header) with
                    | Err e => Err ("SAME EOM generation failed: " +:+ e)
                    | Ok eom => Ok (headerRequest, header, eom)
                    end
                end
            end
        end.

(** ** SAME audio put on the queue by itself *)

Definition persistPrioritySAME (cfg : loadedConfig) (p : feedPlanner) (alertID : string)
    (request : sameGenerateRequest) (res : obj) (order label : string) : M World (option string) :=
  match sameAudioFromResult res (cfgSampleRate (Playout cfg)) (cfgChannels (Playout cfg)) with
  | Err e => ret (Some e)
  | Ok payload =>
      let label := ToLower (fallbackText label (fallbackText (Sequence request) "same")) in
      let id := safeID (order +:+ "_" +:+ feed_ID (feed p) +:+ "_" +:+ alertID +:+ "_same_" +:+ label) in
      let audioRel := JoinPath ["runtime"; "audio"; "alerts"; id +:+ ".pcm16le"] in
      let audioPath := JoinPath [BaseDir cfg; audioRel] in
      let! err := MkdirAll (Dir audioPath) in
      match err with
      | Some e => ret (Some e)
      | None =>
          let! err := WriteFile (audioPath +:+ ".tmp") (pay_Audio payload) in
          match err with
          | Some e => ret (Some e)
          | None =>
              let! err := Rename (audioPath +:+ ".tmp") audioPath in
              match err with
              | Some e => ret (Some e)
              | None =>
                  let! created := now in
                  writePriorityAlertManifest
                    (JoinPath [BaseDir cfg; "runtime"; "queues"; "alerts"; id +:+ ".json"])
                    (MkManifest id alertID None ("same_" +:+ label) "pending" (FormatRFC3339Nano created)
                       [feed_ID (feed p)] (pay_Header payload) (Event request) "" "" "" "" "" false audioRel
                       "pcm_s16le" (pay_SampleRate payload) (pay_Channels payload) (len (pay_Audio payload))
                       "cap-same" ("same_" +:+ label) "" "")
              end
          end
      end
  end.

Definition queuePrioritySAME (cfg : loadedConfig) (p : feedPlanner) (alertID : string) (data : obj) :
    M World (option string) :=
  let! r := generatePrioritySAME cfg p data "full" in
  match r with
  | Err e => ret (Some e)
  | Ok (request, res) => persistPrioritySAME cfg p alertID request res "000" "full"
  end.
End same.

(** ** Facts: location lists *)

Definition six_digits (code : string) : Prop :=
  String.length code = 6%nat /\ Forall (fun a => is_digit (byte_val a) = true) (bytes_of code).

Lemma sameLocationCode_digits raw : sameLocationCode raw = "" \/ six_digits (sameLocationCode raw).
Proof.
  unfold sameLocationCode. destruct (Nat.eqb_spec (String.length (filter_bytes is_digit raw)) 6) as [E|];
    [right|by left]. split; [done|]. apply filter_bytes_forall.
Qed.

(** What the closures keep true of their state. *)
Record codes_ok (state : gset string * list string) : Prop := {
  co_seen : forall c, c ∈ state.1 <-> In c state.2;
  co_nodup : NoDup state.2;
  co_digits : Forall six_digits state.2 }.

Lemma codes_ok_nil : codes_ok (∅, []).
Proof. split; [set_solver|constructor|constructor]. Qed.

Lemma add_code_ok state raw : codes_ok state -> codes_ok (add_code state raw).
Proof.
  destruct state as [seen out]. intros [Hs Hn Hd]. unfold add_code.
  destruct (sameLocationCode_digits raw) as [->|H6]; [done|].
  destruct (sameLocationCode raw =? ""); [done|]. case_decide as Hin; [done|]. cbn [fst snd] in *.
  assert (Hout : ~ In (sameLocationCode raw) out) by (rewrite <- Hs; done).
  split; cbn [fst snd].
  - intros c. rewrite elem_of_union, elem_of_singleton, in_app_iff, Hs. simpl. intuition.
  - apply list.NoDup_app. split_and!; [done| |apply NoDup_singleton].
    intros x Hx%list_elem_of_In Hx'%list_elem_of_singleton. by subst.
  - apply Forall_app. split; [done|]. by constructor.
Qed.

Lemma add_code_length state raw : (length (add_code state raw).2 <= S (length state.2))%nat.
Proof.
  destruct state as [seen out]. unfold add_code. destruct (_ =? ""); [simpl; lia|].
  case_decide; cbn [snd]; [lia|]. rewrite length_app. simpl. lia.
Qed.

Lemma fold_ok (f : gset string * list string -> string -> gset string * list string) l state :
  (forall s raw, codes_ok s -> codes_ok (f s raw)) ->
  codes_ok state -> codes_ok (fold_left f l state).
Proof. intros Hf. revert state. induction l as [|raw l IH]; intros state Hs; [done|]. simpl. auto. Qed.

Definition at_most_31 (state : gset string * list string) : Prop := (length state.2 <= 31)%nat.

Lemma add_code31_ok state raw : codes_ok state /\ at_most_31 state ->
  codes_ok (add_code31 state raw) /\ at_most_31 (add_code31 state raw).
Proof.
  intros [Hs Hl]. unfold add_code31. destruct (Nat.leb_spec 31 (length state.2)) as [|Hlt]; [done|].
  split; [by apply add_code_ok|]. unfold at_most_31 in *. pose proof (add_code_length state raw). lia.
Qed.

Lemma add_raw_ok l state : codes_ok state /\ at_most_31 state ->
  codes_ok (add_raw state l) /\ at_most_31 (add_raw state l).
Proof.
  revert state. induction l as [|raw l IH]; intros state Hs; [done|]. cbn [add_raw].
  apply (add_code31_ok _ raw) in Hs. destruct (31 <=? _)%nat; [done|]. by apply IH.
Qed.

Lemma sameLocationsFromData_codes `{JSON} data :
  NoDup (sameLocationsFromData data) /\ (length (sameLocationsFromData data) <= 31)%nat /\
  Forall six_digits (sameLocationsFromData data).
Proof.
  unfold sameLocationsFromData. destruct (FromMap (Some data)) as [packet ok]. cbv zeta.
  set (start := if ok then _ else _).
  assert (Hs : codes_ok start /\ at_most_31 start).
  { assert (H0 : codes_ok (∅, []) /\ at_most_31 (∅, [])).
    { split; [apply codes_ok_nil|unfold at_most_31; simpl; lia]. }
    unfold start. destruct ok; [|done]. clear start. revert H0. generalize (∅ : gset string, @nil string).
    induction (packet_codes packet) as [|c l IH]; intros s Hs; [done|]. simpl. apply IH.
    by apply add_code31_ok. }
  destruct (add_raw_ok (stringListAny (firstValue ∅ data ["same_locations"; "locations"])) start Hs)
    as [[_ Hn Hd] Hl].
  by split_and!.
Qed.

Lemma expandWildcard_codes `{Host} baseDir locations :
  NoDup (expandWildcardSAMELocations baseDir locations) /\
  (length (expandWildcardSAMELocations baseDir locations) <= 31)%nat /\
  Forall six_digits (expandWildcardSAMELocations baseDir locations).
Proof.
  unfold expandWildcardSAMELocations. cbv zeta. set (state := expanded baseDir locations).
  assert (Hs : codes_ok state).
  { unfold state, expanded. cbv zeta. destruct (_ <? _)%nat; repeat apply fold_ok; auto using add_code_ok, codes_ok_nil. }
  destruct Hs as [_ Hn Hd]. destruct (Nat.ltb_spec 31 (length state.2)) as [Hlt|Hle].
  - split_and!; [| |by apply Forall_take].
    + rewrite <- (take_drop 31 state.2) in Hn. by apply list.NoDup_app in Hn as [? _].
    + rewrite length_take. lia.
  - by split_and!.
Qed.

Lemma coverage_codes_digits feed : Forall six_digits (coverage_codes feed).
Proof.
  unfold coverage_codes. apply List.Forall_forall. intros c [Hin Hc]%List.filter_In.
  apply in_map_iff in Hin as (raw & <- & _).
  destruct (sameLocationCode_digits raw) as [E|]; [|done]. by rewrite E in Hc.
Qed.

(** ** Facts: the other fields *)

Lemma normalizeSAMEDuration_digits raw :
  String.length (normalizeSAMEDuration raw) = 4%nat /\
  Forall (fun a => is_digit (byte_val a) = true) (bytes_of (normalizeSAMEDuration raw)).
Proof.
  unfold normalizeSAMEDuration. pose proof (filter_bytes_forall is_digit raw) as Hf.
  set (value := filter_bytes is_digit raw) in *.
  assert (Ht : forall n s, Forall (fun a => is_digit (byte_val a) = true) (bytes_of s) ->
    (n <= String.length s)%nat -> String.length (take_bytes n s) = n /\
    Forall (fun a => is_digit (byte_val a) = true) (bytes_of (take_bytes n s))).
  { induction n as [|n IH]; intros s Hs Hn; [by destruct s|]. destruct s as [|a s]; [simpl in Hn; lia|].
    inversion Hs; subst. destruct (IH s) as [E Hd]; [done|simpl in Hn; lia|]. simpl.
    split; [by rewrite E|by constructor]. }
  assert (Hz : forall n, bytes_of (zeros n) = replicate n "0"%char)
    by (induction n as [|n IH]; simpl; [done|by rewrite <- IH]).
  destruct (Nat.leb_spec 4 (String.length value)) as [Hle|Hlt]; [by apply Ht|].
  rewrite <- length_bytes_of, bytes_of_app, Hz, length_app, length_replicate, length_bytes_of. split; [lia|].
  apply Forall_app. split; [|done]. apply List.Forall_forall.
  intros a Ha%list_elem_of_In%elem_of_replicate. by destruct Ha as [-> _].
Qed.

Lemma fallbackText_nonempty value fallback : TrimSpace fallback <> "" -> fallbackText value fallback <> "".
Proof. intros Hf. unfold fallbackText. destruct (String.eqb_spec (TrimSpace value) ""); done. Qed.

Lemma ToUpper_nonempty s : s <> "" -> ToUpper s <> "".
Proof.
  intros Hs E. with_strategy transparent [ToUpper] unfold ToUpper in E. destruct (runes s) as [|r l] eqn:Er; [by apply runes_nil in Er|].
  cbn [map encode] in E. apply (f_equal bytes_of) in E. rewrite bytes_of_app in E.
  assert (Hne : bytes_of (encode_rune (rune_upper r)) <> []).
  { unfold encode_rune. cbv zeta. by repeat case_match. }
  by destruct (bytes_of (encode_rune (rune_upper r))).
Qed.

(** ** Theorems *)

Section theorems.
Context `{JSON} `{Env} `{Tools} `{Host}.

(** C14: the request for the SAME generator is well formed.  For every feed and every alert data
    the codes are of six digits, the duration of four, and the originator, the event, the
    call sign and the tone are not empty; an alert that names its locations, a severe
    thunderstorm and a tornado warning name at most 31 of them, each once. *)
Theorem buildSAMERequest_wellformed (cfg : loadedConfig) (p : feedPlanner) (data : obj) (sequence : string) :
  let request := buildSAMERequest cfg p data sequence in
  Forall six_digits (req_Locations request) /\
  (String.length (req_Duration request) = 4%nat /\
   Forall (fun a => is_digit (byte_val a) = true) (bytes_of (req_Duration request))) /\
  Originator request <> "" /\ Event request <> "" /\ req_Callsign request <> "" /\ req_Tone request <> "" /\
  (sameLocationsFromData data <> [] \/ In (Event request) ["SVR"; "TOR"] ->
   NoDup (req_Locations request) /\ (length (req_Locations request) <= 31)%nat).
Proof.
  cbv zeta. unfold buildSAMERequest. cbn [req_Locations req_Duration Originator Event req_Callsign req_Tone].
  destruct (sameLocationsFromData_codes data) as (Hn & Hl & Hd).
  set (locations := if (length (sameLocationsFromData data) =? 0)%nat then coverage_codes (feed p)
                    else sameLocationsFromData data).
  set (event := ToUpper (fallbackText (firstText ∅ data ["same_event"; "event"]) "ADR")).
  assert (E : sameLocationsForData cfg p data =
    if negb (event =? "SVR") && negb (event =? "TOR") then locations
    else expandWildcardSAMELocations (BaseDir cfg) locations) by done.
  destruct (expandWildcard_codes (BaseDir cfg) locations) as (Hn' & Hl' & Hd').
  assert (Hupper : forall v f, TrimSpace f <> "" -> ToUpper (fallbackText v f) <> "")
    by (intros; by apply ToUpper_nonempty, fallbackText_nonempty).
  split_and!; [|by apply normalizeSAMEDuration_digits..|by apply Hupper|by apply Hupper| |by apply Hupper|].
  - rewrite E. destruct (negb (event =? "SVR") && negb (event =? "TOR")); [|done]. unfold locations.
    destruct (length (sameLocationsFromData data) =? 0)%nat; [apply coverage_codes_digits|done].
  - match goal with |- (if ?c =? "" then _ else _) <> "" => by destruct (String.eqb_spec c "") end.
  - intros Hnamed. rewrite E. destruct (negb (event =? "SVR") && negb (event =? "TOR")) eqn:Ee; [|done].
    destruct Hnamed as [Hne|Hin].
    + unfold locations. by destruct (sameLocationsFromData data).
    + apply andb_true_iff in Ee as [E1%negb_true_iff E2%negb_true_iff].
      apply String.eqb_neq in E1, E2. destruct Hin as [Hin|[Hin|[]]]; congruence.
Qed.

(** The two halves of a SAME pair do not depend on which was generated first. *)
Theorem generatePrioritySAMEPair_order (cfg : loadedConfig) (p : feedPlanner) (data : obj) (w : World) :
  generatePrioritySAMEPair true cfg p data w = generatePrioritySAMEPair false cfg p data w.
Proof.
  unfold generatePrioritySAMEPair. cbv zeta. destruct (_ =? 0)%nat; [done|].
  unfold mbind. destruct (runSameGenerator _ _ w) as [r1 w1].
  destruct (runSameGenerator _ _ w1) as [r2 w2].
  assert (Eh : Sequence (buildSAMERequest cfg p data "header") = "header") by (by vm_compute).
  cbn [with_sequence Sequence rev app fold_left fst snd]. rewrite Eh.
  by rewrite (insert_insert_ne (∅ : gmap string (result string obj)) "eom" "header").
Qed.

(** A feed that covers more than 31 places asks for more SAME locations than a
    header can carry: the limit is not applied to the fallback to its coverage. *)
Theorem coverage_exceeds_limit (cfg : loadedConfig) (p : feedPlanner) :
  Regions (feed p) = map (fun n => MkRegion (pad 6 (Z.of_nat n)) []) (seq 0 40) ->
  length (req_Locations (buildSAMERequest cfg p ∅ "header")) = 40%nat.
Proof.
  intros Hr. unfold buildSAMERequest, sameLocationsForData. cbn [req_Locations].
  assert (E : sameLocationsFromData ∅ = []).
  { unfold sameLocationsFromData. assert (Ef : FromMap (Some ∅) = (Normalize (LegacyFromMap (Some ∅)), false)).
    { unfold FromMap. rewrite lookup_empty. by vm_compute. }
    by rewrite Ef. }
  rewrite E. unfold coverage_codes. rewrite Hr. by vm_compute.
Qed.
End theorems.

(** ** Witnesses *)

#[export] Instance sample_Host : Host | 1000 := {|
  Getenv name := if name =? "HAZE_HOST_EXE" then "/srv/haze" else ""; windows := false;
  exec_same n executable args := Printed (if mem "eom" args then "eom" else "header");
  json_object raw := Ok (message [("header", AString "ZCZC-WXR-TOR"); ("audio_base64", AString "AQIAAA==");
    ("sample_rate", AInt 48000); ("channels", AInt 1)]);
  base64_error s := "illegal base64 data"; snapshot_clc dir := None; csv_rows path := None |}.

Definition wide_feed : feedXML :=
  MkFeed "f1" "" "" "" "" [] (map (fun n => MkRegion (pad 6 (Z.of_nat n)) []) (seq 0 40)) [].
Definition wide_planner : feedPlanner :=
  MkPlanner true wide_feed "running" "" 0 0 false "" 0 0 0 zeroTime zeroTime zeroTime [] None ∅
    "" "" zeroTime.

Lemma coverage_exceeds_limit_witness :
  length (req_Locations (buildSAMERequest sample_config wide_planner ∅ "header")) = 40%nat.
Proof. by apply (coverage_exceeds_limit sample_config wide_planner). Defined.

(** The payload the sample program prints. *)
Example sample_pair :
  match (generatePrioritySAMEPair false sample_config sample_planner
           (message [("same_locations", AStrings ["059110"])]) sample_world).1 with
  | Ok (_, header, eom) => pay_Audio header = [byte_of 1; byte_of 2; zero_byte; zero_byte]
  | Err _ => False
  end.
Proof. by vm_compute. Qed.
