(* ===== verification/PanelPayload.v ===== *)
(** The payloads of the panel's commands, and how they are read
    ([internal/webgateway]: same_gateway.go, server.go, templates.go,
    daemon_settings.go).  A payload is what JSON decodes to, with the texts that
    handlers put into it. *)

From stdpp Require Import stringmap.
From S2P Require Import Prelude UnicodeTables GoStrings GoTime GoValue GoPath AlertPacket PlaylistModel World CapModel CapArchive CapRegistry.
From S2P Require Import PlannerState AlertCommit Wav AudioFiles CapSame SameRequest.

#[local] Open Scope Z_scope.
#[local] Open Scope string_scope.

(** [fmt.Sprint] of a value: there are no structures in a payload. *)
Definition Sprint_payload (v : any) : string := GoValue.Sprint (fun _ => "") v.

Definition stringValue (message : obj) (key : string) : string :=
  match message !! key with Some (AString value) => value | _ => "" end.
Definition stringPayload (payload : obj) (key fallback : string) : string :=
  match present payload key with
  | None => fallback
  | Some value => let text := TrimSpace (Sprint_payload value) in if text =? "" then fallback else text
  end.
Definition stringFromMap (source : obj) (key : string) : string :=
  match present source key with None => "" | Some value => TrimSpace (Sprint_payload value) end.
Definition parseIntText (raw : string) (fallback : Z) : Z := default fallback (Atoi (TrimSpace raw)).
Definition intPayload (payload : obj) (key : string) (fallback : Z) : Z :=
  match payload !! key with
  | Some (AInt typed) | Some (AInt64 typed) => typed
  | Some (AFloat typed) => f64_trunc typed
  | Some (AString typed) => parseIntText typed fallback
  | _ => fallback
  end.
Definition boolPayload (payload : obj) (key : string) (fallback : bool) : bool :=
  match payload !! key with
  | Some (ABool typed) => typed
  | Some (AString typed) => xmlBool typed fallback
  | _ => fallback
  end.
Definition anySlice (value : any) : list any :=
  match value with AList typed => typed | AStrings typed => map AString typed | _ => [] end.
Definition payload_list (value : any) : list string := trimmed_nonblank (map Sprint_payload (anySlice value)).
Definition mapFromAny (value : option any) : obj := match value with Some (AMap m) => m | _ => ∅ end.

(** What is left of a value that is written as JSON and read back. *)
Fixpoint json_any (v : any) : any :=
  match v with
  | AInt z | AInt64 z => AFloat (f64_of_Z z)
  | AStrings l => AList (map AString l)
  | AList l => AList (map json_any l)
  | AMap m => AMap (json_any <$> m)
  | _ => v
  end.
Definition cloneMap (value : obj) : obj := json_any <$> value.

Lemma cloneMap_stringValue m key : stringValue (cloneMap m) key = stringValue m key.
Proof. unfold stringValue, cloneMap. rewrite lookup_fmap. destruct (m !! key) as [[]|]; done. Qed.
Lemma stringValue_insert m k k' s : stringValue (<[k := AString s]> m) k' = if decide (k = k') then s else stringValue m k'.
Proof.
  unfold stringValue. case_decide as E; [subst; by rewrite lookup_insert_eq|by rewrite lookup_insert_ne].
Qed.
Lemma stringPayload_insert m k k' s f : stringPayload (<[k := AString s]> m) k' f =
  if decide (k = k') then (if TrimSpace s =? "" then f else TrimSpace s) else stringPayload m k' f.
Proof.
  unfold stringPayload, present. case_decide as E; [subst; by rewrite lookup_insert_eq|by rewrite lookup_insert_ne].
Qed.
