(* ===== verification/AccountCommands.v ===== *)
(** The panel's commands on accounts ([internal/webgateway/accounts_commands.go]):
    [accountCommand] over the state of [AccountAuth], with a command of its own for
    each case of its switch.

    The lock that orders the commands that change accounts is not needed by any
    theorem: requests of others may come in at every access to the state. *)

From stdpp Require Import stringmap sorting.
From S2P Require Import Prelude UnicodeTables GoStrings SampleCodec GoTime GoValue GoPath GoCrypto GoNet AlertPacket.
From S2P Require Import PlaylistModel World Secrets AlertRequest AudioRetention PlannerState AlertCommit Wav AudioFiles AuditLog.
From S2P Require Import Accounts AccountsSafety Sessions GatewayRequest AccountAuth PanelPayload CapModel.

#[local] Open Scope Z_scope.
#[local] Open Scope string_scope.
#[local] Open Scope haze_scope.

(** ** Errors and replies *)

Inductive commandError := CAuth (e : AuthError) | CStore (e : storeError) | CText (detail : string).
(** What a command answers with; [RWarned] says that its completion was not recorded. *)
Inductive Reply :=
| RAccounts (accounts : list Account) (security : obj)
| RAccountSessions (account : Account) (sessions : list ActiveSession)
| RAccount (account : Account)
| RProfile (account : Account) (session : ActiveSession) (password_change_required : bool)
| RSessions (sessions : list ActiveSession)
| RUpdated | RRevoked | RDeleted
| RWarned (r : Reply)
| RAny (value : obj).

Definition StatusBadRequest : Z := 400.
Definition storeError_text (e : storeError) : string :=
  match e with
  | errAccountNotFound => "account not found"
  | errAccountVersionChanged => "account authentication state changed"
  | storeFailure detail => detail
  end.
Definition commandError_text (e : commandError) : string :=
  match e with CAuth e => ae_Detail e | CStore e => storeError_text e | CText detail => detail end.
Definition infrastructure_markers : list string :=
  ["audit integrity"; "audit log"; "account store"; "session registry"; "redis"; "database"; "context deadline";
   "temporarily unavailable"; "event bridge"; "location service bridge"; "location bridge"; "connect session";
   "open audit"; "read audit"; "write audit"; "sync audit"; "publish "].
Definition commandInfrastructureError (detail : string) : bool := existsb (GoStrings.Contains detail) infrastructure_markers.
(** The status, code and detail of the answer to an error. *)
Definition commandErrorResponse (err : commandError) : Z * string * string :=
  let detail := commandError_text err in
  match err with
  | CAuth e =>
      (if (400 <=? ae_HTTPStatus e)%Z && (ae_HTTPStatus e <=? 599)%Z then ae_HTTPStatus e else StatusBadRequest, ae_Code e, detail)
  | CStore errAccountNotFound => (StatusNotFound, "account_not_found", "The requested account was not found.")
  | _ =>
      let lower := ToLower detail in
      if GoStrings.Contains lower "unique constraint" || GoStrings.Contains lower "duplicate key" then
        (StatusConflict, "account_conflict", "An account with that username already exists.")
      else if commandInfrastructureError lower then
        (StatusServiceUnavailable, "service_unavailable",
         "The command could not be completed because a required service or secure store is unavailable.")
      else (StatusBadRequest, "command_failed", detail)
  end.

(** ** Policies in payloads *)

Definition new_account : Account :=
  MkAccount "" (MkPolicy "" "" false false [] [] false "" false false true 90 true true false []) "" zeroTime zeroTime false 0
    false false zeroTime zeroTime "" "" 0 0 zeroTime.
(** A key that is present with any value, [null] included. *)
Definition text_of_payload (payload : obj) (key : string) (default : string) : string :=
  match payload !! key with Some value => TrimSpace (Sprint_payload value) | None => default end.
Definition list_of_payload (payload : obj) (key : string) (default : list string) : list string :=
  match payload !! key with Some value => payload_list value | None => default end.
Definition accountPolicyFromPayload (account : Account) (payload : obj) : Account :=
  let p := ac_policy account in
  let flag key old := boolPayload payload key old in
  with_policy
    (MkPolicy (text_of_payload payload "username" (po_Username p)) (text_of_payload payload "sender_id" (po_SenderID p))
       (flag "force_sender_id" (po_ForceSenderID p)) (flag "allow_origination" (po_AllowOrigination p))
       (list_of_payload payload "allowed_originators" (po_AllowedOriginators p))
       (list_of_payload payload "blocked_event_codes" (po_BlockedEventCodes p))
       (flag "force_originator_name" (po_ForceOriginatorName p))
       (text_of_payload payload "originator_name_text" (po_OriginatorNameText p))
       (flag "include_ip_in_brackets" (po_IncludeIPInBrackets p)) (flag "can_view_logs" (po_CanViewLogs p))
       (flag "allow_persistent_sessions" (po_AllowPersistentSessions p))
       (intPayload payload "password_expiry_days" (po_PasswordExpiryDays p))
       (flag "allow_user_pw_change" (po_AllowUserPasswordChange p)) (flag "logging_enabled" (po_LoggingEnabled p))
       (flag "is_admin" (po_IsAdmin p))
       (list_of_payload payload "cidr_allowlist" (list_of_payload payload "cidr_whitelist" (po_CIDRWhitelist p))))
    (ac_AccountLocked account) (ac_MFAEnabled account) account.

Definition accountPolicyAuditView (a : Account) : obj :=
  let p := ac_policy a in
  {["username" := AString (po_Username p); "sender_id" := AString (po_SenderID p);
    "force_sender_id" := ABool (po_ForceSenderID p); "allow_origination" := ABool (po_AllowOrigination p);
    "allowed_originators" := AStrings (po_AllowedOriginators p); "blocked_event_codes" := AStrings (po_BlockedEventCodes p);
    "force_originator_name" := ABool (po_ForceOriginatorName p); "originator_name_text" := AString (po_OriginatorNameText p);
    "include_ip_in_brackets" := ABool (po_IncludeIPInBrackets p); "can_view_logs" := ABool (po_CanViewLogs p)]} ∪
  {["allow_persistent_sessions" := ABool (po_AllowPersistentSessions p);
    "password_expiry_days" := AInt (po_PasswordExpiryDays p); "allow_user_pw_change" := ABool (po_AllowUserPasswordChange p);
    "logging_enabled" := ABool (po_LoggingEnabled p); "account_locked" := ABool (ac_AccountLocked a);
    "mfa_enabled" := ABool (ac_MFAEnabled a); "is_admin" := ABool (po_IsAdmin p);
    "cidr_allowlist" := AStrings (po_CIDRWhitelist p)]}.
Definition changed_fields (previous updated : obj) : list string :=
  sort_Strings (base.filter (fun key => Sprint_payload (default ANil (previous !! key)) <>
                                         Sprint_payload (default ANil (updated !! key))) (elements (dom updated))).
Definition accountPolicyAuditDetails (before after : Account) : obj :=
  let previous := accountPolicyAuditView before in
  let updated := accountPolicyAuditView after in
  {["renamed_from" := AString (ac_Username before); "changed_fields" := AStrings (changed_fields previous updated);
    "previous_policy" := AMap previous; "updated_policy" := AMap updated]}.

Definition serializedAccountMutation (command : string) : bool :=
  mem command ["accounts.create"; "accounts.update"; "accounts.password.reset"; "accounts.mfa.reset"; "accounts.unlock";
               "accounts.sessions.revoke"; "accounts.sessions.revoke_all"; "accounts.delete"; "profile.password.change"].
Definition accountCommandName (command : string) : bool := HasPrefix command "accounts." || HasPrefix command "profile.".

Section commands.
Context `{Env} `{Tools} `{AuditCodec} `{SecretTools} `{Paseto} `{Totp} `{Others} (h : AuthSettings).
(** The settings that an administrator is shown. *)
Context (security : obj).

(** ** Steps *)

Abbreviation command := (M Gateway (result commandError Reply)).
(** A step whose error ends the command. *)
Definition step {E A B} (wrap : E -> commandError) (f : A -> M Gateway (result commandError B)) (m : M Gateway (result E A)) :
    M Gateway (result commandError B) :=
  let! r := m in match r with Ok a => f a | Err e => ret (Err (wrap e)) end.
#[local] Notation "'store!' x ':=' m 'in' k" := (step CStore (fun x => k) (on_store h m))
  (at level 10, x pattern, m at level 100, k at level 200).
#[local] Notation "'text!' x ':=' m 'in' k" := (step CText (fun x => k) m) (at level 10, x pattern, m at level 100, k at level 200).
#[local] Notation "'command!' x ':=' m 'in' k" := (step id (fun x => k) m) (at level 10, x pattern, m at level 100, k at level 200).
Definition refuse {A} (detail : string) : M Gateway (result commandError A) := fail (CText detail).

Definition auditWebpanel (actor : Identity) (action : string) (target : Account) (details : obj) : M Gateway (option commandError) :=
  if negb (po_LoggingEnabled (ac_policy (id_Account actor))) then ret None
  else
    let details := <["target_username" := AString (ac_Username target)]> (<["target_account_id" := AString (ac_ID target)]> details) in
    let session := id_Session actor in
    let! err := audit h "webpanel" (MkEvent zeroTime action (ac_ID (id_Account actor)) (ac_Username (id_Account actor))
                                      (as_ID session) (as_IP session) (as_UserAgent session) "" details) in
    ret (match err with Some e => Some (CText ("web panel audit integrity failure: " +:+ e)) | None => None end).
(** What is about to happen is recorded first. *)
Definition announce (actor : Identity) (action : string) (target : Account) (details : obj) (k : command) : command :=
  let! err := auditWebpanel actor action target details in match err with Some e => fail e | None => k end.
(** What happened is recorded, and the answer says when it was not. *)
Definition complete (actor : Identity) (action : string) (target : Account) (details : obj) (r : Reply) : command :=
  let! err := auditWebpanel actor action target details in ret (Ok (match err with Some _ => RWarned r | None => r end)).

Definition requireAnotherAdministrator (excludedID : string) : M Gateway (result commandError unit) :=
  step CStore (fun accounts =>
    if existsb (fun a => negb (ac_ID a =? excludedID) && ac_IsAdmin a && negb (ac_AccountLocked a)) accounts then ret (Ok tt)
    else refuse "at least one other unlocked administrator account is required") (ListAccounts h).
Definition revoke_user (id : string) (k : command) : command := step CStore (fun _ => k) (RevokeUser h id).
(** The session is one of the account's. *)
Definition owned_session (sessions : list ActiveSession) (sessionID : string) : bool := existsb (fun s => as_ID s =? sessionID) sessions.

(** ** Commands of administrators *)

Definition accounts_list : command := step CStore (fun accounts => ret (Ok (RAccounts accounts security))) (ListAccounts h).
Definition accounts_get (payload : obj) : command :=
  store! account := ByID (stringValue payload "id") in
  let! sessions := ListSessions h (ac_ID account) in
  ret (Ok (RAccountSessions account sessions)).
Definition accounts_create (actor : Identity) (payload : obj) : command :=
  let account := accountPolicyFromPayload new_account payload in
  text! hash := on_world (hashPassword (se_pepper h) (stringValue payload "password")) in
  announce actor "ACCOUNT_CREATE_REQUESTED" account {["is_admin" := ABool (ac_IsAdmin account)]}
  (store! _ := Create (se_postgres h) account hash in
   store! created := ByUsername (ac_Username account) in
   complete actor "ACCOUNT_CREATED" created {["is_admin" := ABool (ac_IsAdmin created)]} (RAccount created)).
(** [audit.RenameAccount], when the name changes. *)
Definition rename_audit (renamed : bool) (oldUsername newUsername : string) : M Gateway (option string) :=
  if renamed then on_world (RenameAccount (se_auditDir h) (se_auditKey h) oldUsername newUsername) else ret None.
Definition accounts_update (actor : Identity) (payload : obj) : command :=
  store! original := ByID (stringValue payload "id") in
  text! account := ret (validateAccount (accountPolicyFromPayload original payload)) in
  let details := accountPolicyAuditDetails original account in
  announce actor "ACCOUNT_POLICY_UPDATE_REQUESTED" account details
  (command! _ := if ac_IsAdmin original && negb (ac_IsAdmin account) then requireAnotherAdministrator (ac_ID account) else ret (Ok tt) in
   let renamed := negb (ac_Username original =? ac_Username account) in
   let! err := rename_audit renamed (ac_Username original) (ac_Username account) in
   match err with
   | Some e => refuse e
   | None =>
       let! saved := on_store h (Save (se_postgres h) account) in
       match saved with
       | Err e =>
           let! _ := rename_audit renamed (ac_Username account) (ac_Username original) in
           fail (CStore e)
       | Ok _ =>
           PurgeUserSessionLeases h (ac_ID account) ;;;
           let actor :=
             if ac_ID (id_Account actor) =? ac_ID account then
               let named := with_policy
                 (let '(MkPolicy _ s fs al ao be fn nt ii cl ps pe up le ia cw) := ac_policy (id_Account actor) in
                  MkPolicy (ac_Username account) s fs al ao be fn nt ii cl ps pe up le ia cw)
                 (ac_AccountLocked (id_Account actor)) (ac_MFAEnabled (id_Account actor)) (id_Account actor) in
               MkIdentity named (id_Session actor) (id_PasswordChangeRequired actor) (id_RawSessionID actor)
             else actor in
           complete actor "ACCOUNT_POLICY_UPDATED" account details (RAccount account)
       end
   end).

(** A change of the account of the payload, after which its sessions are over:
    [change] by the store, between the two records. *)
Definition account_reset (actor : Identity) (account : Account) (requested done : string) (change : M Store (result storeError unit)) : command :=
  announce actor requested account ∅
  (store! _ := change in
   ResetLoginLimits (ac_Username account) (ac_LastIP account) ;;;
   revoke_user (ac_ID account) (complete actor done account ∅ RUpdated)).
Definition accounts_password_reset (actor : Identity) (payload : obj) : command :=
  store! account := ByID (stringValue payload "id") in
  text! hash := on_world (hashPassword (se_pepper h) (stringValue payload "password")) in
  account_reset actor account "PASSWORD_RESET_REQUESTED_BY_ADMIN" "PASSWORD_RESET_BY_ADMIN"
    (SetPassword (se_postgres h) (ac_ID account) hash).
Definition accounts_mfa_reset (actor : Identity) (payload : obj) : command :=
  store! account := ByID (stringValue payload "id") in
  account_reset actor account "MFA_RESET_REQUESTED_BY_ADMIN" "MFA_RESET_BY_ADMIN" (SetMFA (se_postgres h) (ac_ID account) "" false).
Definition accounts_unlock (actor : Identity) (payload : obj) : command :=
  store! account := ByID (stringValue payload "id") in
  account_reset actor account "ACCOUNT_UNLOCK_REQUESTED" "ACCOUNT_UNLOCKED" (Unlock (se_postgres h) (ac_ID account)).

(** The session of an account, or a caller, by its digest. *)
Definition session_revoke (actor : Identity) (account : Account) (sessionID requested done missing : string) : command :=
  let! sessions := ListSessions h (ac_ID account) in
  if negb (owned_session sessions sessionID) then refuse missing
  else
    let details : obj := {["session_id" := AString sessionID]} in
    announce actor requested account details
    (RevokeSession h sessionID ;;; complete actor done account details RRevoked).
Definition accounts_sessions_revoke (actor : Identity) (payload : obj) : command :=
  store! account := ByID (stringValue payload "id") in
  session_revoke actor account (stringValue payload "session_id") "SESSION_REVOCATION_REQUESTED_BY_ADMIN" "SESSION_REVOKED_BY_ADMIN"
    "session was not found for the selected account".
Definition accounts_sessions_revoke_all (actor : Identity) (payload : obj) : command :=
  store! account := ByID (stringValue payload "id") in
  announce actor "ALL_SESSIONS_REVOCATION_REQUESTED_BY_ADMIN" account ∅
  (revoke_user (ac_ID account) (complete actor "ALL_SESSIONS_REVOKED_BY_ADMIN" account ∅ RRevoked)).
Definition accounts_delete (actor : Identity) (payload : obj) : command :=
  if negb (stringValue payload "confirmation" =? "DELETE") then refuse "type DELETE to confirm account deletion"
  else
    store! account := ByID (stringValue payload "id") in
    if ac_ID account =? ac_ID (id_Account actor) then refuse "the active administrator account cannot delete itself"
    else
      command! _ := if ac_IsAdmin account then requireAnotherAdministrator (ac_ID account) else ret (Ok tt) in
      announce actor "ACCOUNT_DELETE_REQUESTED" account ∅
      (revoke_user (ac_ID account)
        (store! _ := Delete (se_postgres h) (ac_ID account) in complete actor "ACCOUNT_DELETED" account ∅ RDeleted)).

(** ** Commands of callers for themselves *)

Definition profile_get (actor : Identity) : command :=
  ret (Ok (RProfile (id_Account actor) (id_Session actor) (id_PasswordChangeRequired actor))).
Definition profile_sessions (actor : Identity) : command :=
  let! sessions := ListSessions h (ac_ID (id_Account actor)) in ret (Ok (RSessions sessions)).
Definition profile_session_revoke (actor : Identity) (payload : obj) : command :=
  session_revoke actor (id_Account actor) (stringValue payload "session_id") "SESSION_REVOCATION_REQUESTED_BY_USER"
    "SESSION_REVOKED_BY_USER" "session was not found".
Definition session_changed : AuthError :=
  MkAuthError "session_changed" "The account changed while the password update was in progress. Sign in again." StatusConflict.
Definition profile_password_change (actor : Identity) (payload : obj) : command :=
  let account := id_Account actor in
  if negb (po_AllowUserPasswordChange (ac_policy account)) then
    fail (CAuth (MkAuthError "password_change_forbidden" "This account is not allowed to change its password." StatusForbidden))
  else
    text! ok := on_world (verifyPassword (se_pepper h) (ac_passwordHash account) (stringValue payload "current_password")) in
    if negb ok then refuse "current password is incorrect"
    else
      text! hash := on_world (hashPassword (se_pepper h) (stringValue payload "new_password")) in
      announce actor "PASSWORD_CHANGE_REQUESTED_BY_USER" account ∅
      (let! changed := on_store h (SetPasswordIfAuthVersion (se_postgres h) (ac_ID account) hash (ac_authVersion account)) in
       match changed with
       | Err errAccountVersionChanged => fail (CAuth session_changed)
       | Err e => fail (CStore e)
       | Ok _ =>
           ResetLoginLimits (ac_Username account) (as_IP (id_Session actor)) ;;;
           revoke_user (ac_ID account) (complete actor "PASSWORD_CHANGED_BY_USER" account ∅ RUpdated)
       end).

(** ** The switch *)

(** The commands of administrators, by name. *)
Definition administrator_command (actor : Identity) (name : string) (payload : obj) : option command :=
  if name =? "accounts.list" then Some accounts_list
  else if name =? "accounts.get" then Some (accounts_get payload)
  else if name =? "accounts.create" then Some (accounts_create actor payload)
  else if name =? "accounts.update" then Some (accounts_update actor payload)
  else if name =? "accounts.password.reset" then Some (accounts_password_reset actor payload)
  else if name =? "accounts.mfa.reset" then Some (accounts_mfa_reset actor payload)
  else if name =? "accounts.unlock" then Some (accounts_unlock actor payload)
  else if name =? "accounts.sessions.revoke" then Some (accounts_sessions_revoke actor payload)
  else if name =? "accounts.sessions.revoke_all" then Some (accounts_sessions_revoke_all actor payload)
  else if name =? "accounts.delete" then Some (accounts_delete actor payload)
  else None.
Definition profile_command (actor : Identity) (name : string) (payload : obj) : option command :=
  if name =? "profile.get" then Some (profile_get actor)
  else if name =? "profile.sessions" then Some (profile_sessions actor)
  else if name =? "profile.session.revoke" then Some (profile_session_revoke actor payload)
  else if name =? "profile.password.change" then Some (profile_password_change actor payload)
  else None.
Definition command_for (actor : Identity) (name : string) (payload : obj) : command :=
  match administrator_command actor name payload with
  | Some run => if negb (ac_IsAdmin (id_Account actor)) then refuse "administrator permission is required" else run
  | None => default (refuse ("unsupported account command " +:+ quoted name)) (profile_command actor name payload)
  end.
(** The caller is authenticated again, once the lock is held. *)
Definition accountCommand (request : option Request) (name : string) (payload : obj) : command :=
  step CAuth (fun actor => command_for actor name payload) (Authenticate h request).
End commands.
