(* ===== verification/AccountCommandsSafety.v ===== *)
(** What the panel's commands on accounts may do, and what they achieve. *)

From stdpp Require Import stringmap.
From S2P Require Import Prelude UnicodeTables GoStrings SampleCodec GoTime GoValue GoPath GoCrypto GoNet AlertPacket.
From S2P Require Import PlaylistModel World Secrets AlertRequest AudioRetention PlannerState AlertCommit Wav AudioFiles AuditLog.
From S2P Require Import Accounts AccountsSafety Sessions GatewayRequest AccountAuth AccountAuthSafety PanelPayload CapModel AccountCommands.

#[local] Open Scope Z_scope.
#[local] Open Scope string_scope.
#[local] Open Scope haze_scope.

(** ** The operations that a request performs *)

Section confined.
Context `{Env} `{Tools} `{AuditCodec} `{SecretTools} `{Paseto} `{Totp} `{Others} (h : AuthSettings).

(** The table after operations of a kind, wherever they failed. *)
Definition performs (P : operation -> Prop) (us us' : users) : Prop :=
  exists o s, P o /\ st_users s = us /\ st_users (perform (se_postgres h) o s).2 = us'.
Definition performed (P : operation -> Prop) : users -> users -> Prop := rtc (performs P).
Definition by_others (o : operation) : Prop := exists n, In o (other_operations n).

Context (P : operation -> Prop) (Hothers : forall o, by_others o -> P o).
Definition confined {A} (m : M Gateway A) : Prop := forall g, performed P (accounts_of g) (accounts_of (m g).2).

Lemma confined_still {A} (m : M Gateway A) : (forall g, accounts_of (m g).2 = accounts_of g) -> confined m.
Proof. intros Hm g. rewrite Hm. reflexivity. Qed.
Lemma confined_ret {A} (a : A) : confined (ret a).
Proof. by apply confined_still. Qed.
Lemma confined_bind {A B} (m : M Gateway A) (f : A -> M Gateway B) : confined m -> (forall a, confined (f a)) -> confined (mbind f m).
Proof. intros Hm Hf g. rewrite mbind_eq. etrans; [apply Hm|apply Hf]. Qed.
Lemma confined_world {A} (m : M World A) : confined (on_world m).
Proof. apply confined_still, world_still. Qed.
Lemma performed_all os s : Forall P os -> performed P (st_users s) (st_users (perform_all (se_postgres h) os s).2).
Proof.
  intros Hos. revert s. induction Hos as [|o os Ho Hos IH]; intros s; [reflexivity|]. cbn [perform_all for_each]. rewrite mbind_eq.
  eapply rtc_l; [|apply IH]. by exists o, s.
Qed.
Lemma confined_interfere : confined (interfere h).
Proof.
  intros g. unfold interfere. rewrite !mbind_eq, lift_store_eq. cbn [gets modify fst snd]. destruct g as [s r l i o e p]. cbn.
  apply performed_all. rewrite List.Forall_forall. intros op Hop. apply Hothers. by eexists.
Qed.
Lemma confined_store {A} (m : M Store A) : (forall s, performed P (st_users s) (st_users (m s).2)) -> confined (on_store h m).
Proof.
  intros Hm. apply confined_bind; [apply confined_interfere|]. intros _ g. rewrite lift_store_eq. destruct g. apply Hm.
Qed.
Lemma confined_operation {A} (m : M Store A) o : perform (se_postgres h) o = ignore m -> P o -> confined (on_store h m).
Proof.
  intros Hm Ho. apply confined_store. intros s. rewrite <- ignore_state, <- Hm. apply rtc_once. by exists o, s.
Qed.
Lemma confined_query {A} (f : users -> result storeError A) : confined (on_store h (query f)).
Proof. apply confined_store. intros s. rewrite (steady_query f s). reflexivity. Qed.
Lemma confined_modify (f : Gateway -> Gateway) : (forall g, accounts_of (f g) = accounts_of g) -> confined (modify f).
Proof. intros Hf. by apply confined_still. Qed.
Lemma confined_registry {A} (f : registry -> A * registry) : confined (on_registry h f).
Proof.
  apply confined_bind; [apply confined_interfere|]. intros _. apply confined_still. intros g. destruct (f (gw_sessions g)). by destruct g.
Qed.
Lemma confined_sessions {A} (f : Z -> registry -> A * registry) : confined (on_sessions h f).
Proof.
  apply confined_bind; [apply confined_interfere|]. intros _. apply confined_bind; [apply confined_world|]. intros t.
  apply confined_still. intros g. destruct (f t (gw_sessions g)). by destruct g.
Qed.
Lemma confined_audit_access event : confined (audit_access h event).
Proof. apply confined_bind; [apply confined_world|]. intros _. apply confined_ret. Qed.
Lemma confined_limiter (key : string) limit window now (get : Gateway -> limiter) (put : limiter -> Gateway -> Gateway) :
  (forall l g, accounts_of (put l g) = accounts_of g) ->
  confined (fun g => let '(ok, l) := Allow key limit window now (get g) in (ok, put l g)).
Proof. intros Hp. apply confined_still. intros g. destruct (Allow _ _ _ _ _). apply Hp. Qed.
End confined.

Create HintDb confined.
Create HintDb operations.
#[export] Hint Resolve confined_ret confined_world confined_audit_access confined_registry confined_sessions confined_query : confined.
Ltac confining :=
  repeat first
    [ progress intros
    | solve [eauto with confined]
    | apply confined_bind
    | apply confined_limiter; (intros ? []; done)
    | apply confined_modify; (intros []; done)
    | case_match ].

Section callers.
Context `{Env} `{Tools} `{AuditCodec} `{SecretTools} `{Paseto} `{Totp} `{Others} (h : AuthSettings) (security : obj).

Lemma confined_Authenticate P r : (forall o, by_others o -> P o) -> confined h P (Authenticate h r).
Proof.
  intros HP. unfold Authenticate, auditExpiredSession, dropped, fail, sessions_Delete, sessions_Get.
  confining. all: unfold authenticate_account, dropped, fail, sessions_Delete, sessions_Touch; confining.
Qed.

(** What callers without privileges may have done to the table. *)
Definition own (id : string) (o : operation) : Prop :=
  match o with OSetPasswordIf i _ _ | OBump i => i = id | _ => False end.
Definition allowed (id : string) (o : operation) : Prop := by_others o \/ own id o.

Lemma confined_step {E A B} P (wrap : E -> commandError) (f : A -> M Gateway (result commandError B)) m :
  confined h P m -> (forall a, confined h P (f a)) -> confined h P (step wrap f m).
Proof. intros Hm Hf. apply confined_bind; [done|]. intros [a|e]; [apply Hf|apply confined_ret]. Qed.
Lemma confined_auditWebpanel P actor action target details : confined h P (auditWebpanel h actor action target details).
Proof. unfold auditWebpanel, audit. confining. Qed.
Lemma confined_announce P actor action target details k : confined h P k -> confined h P (announce h actor action target details k).
Proof. intros Hk. apply confined_bind; [apply confined_auditWebpanel|]. intros [e|]; [apply confined_ret|done]. Qed.
Lemma confined_complete P actor action target details r : confined h P (complete h actor action target details r).
Proof. apply confined_bind; [apply confined_auditWebpanel|]. intros ?. apply confined_ret. Qed.
Lemma confined_revoke_user P id k : (forall o, by_others o -> P o) -> P (OBump id) -> confined h P k -> confined h P (revoke_user h id k).
Proof.
  intros HP Hb Hk. apply confined_step; [|done]. apply confined_bind; [by apply confined_query|]. intros ?.
  apply confined_bind; [by apply (confined_operation h P HP _ (OBump id))|]. intros [[]|e]; [|apply confined_ret].
  apply confined_bind; [by apply confined_registry|]. intros ?. apply confined_ret.
Qed.
Lemma confined_ResetLoginLimits P name ip : confined h P (ResetLoginLimits name ip).
Proof. unfold ResetLoginLimits, whenb. confining. Qed.
Lemma confined_session_revoke P actor account sid requested finished missing : (forall o, by_others o -> P o) ->
  confined h P (session_revoke h actor account sid requested finished missing).
Proof.
  intros HP. apply confined_bind; [by apply confined_sessions|]. intros sessions. unfold refuse, fail.
  destruct (negb _); [apply confined_ret|]. apply confined_announce, confined_bind; [by apply confined_registry|].
  intros ?. apply confined_complete.
Qed.
Lemma confined_password_change actor payload :
  confined h (allowed (ac_ID (id_Account actor))) (profile_password_change h actor payload).
Proof.
  assert (HP : forall o, by_others o -> allowed (ac_ID (id_Account actor)) o) by by left.
  unfold profile_password_change, refuse, fail. destruct (negb _); [apply confined_ret|].
  apply confined_step; [apply confined_world|]. intros ok. destruct (negb ok); [apply confined_ret|].
  apply confined_step; [apply confined_world|]. intros hash. apply confined_announce.
  apply confined_bind; [apply (confined_operation h _ HP _ (OSetPasswordIf (ac_ID (id_Account actor)) hash (ac_authVersion (id_Account actor)))); [done|by right]|].
  intros [[]|[]]; try apply confined_ret. apply confined_bind; [apply confined_ResetLoginLimits|]. intros ?.
  apply confined_revoke_user; [done|by right|apply confined_complete].
Qed.
Lemma confined_profile actor name payload run : profile_command h actor name payload = Some run ->
  confined h (allowed (ac_ID (id_Account actor))) run.
Proof.
  unfold profile_command. assert (HP : forall o, by_others o -> allowed (ac_ID (id_Account actor)) o) by by left.
  repeat case_match; intros [= <-].
  - apply confined_ret.
  - apply confined_bind; [by apply confined_sessions|]. intros ?. apply confined_ret.
  - by apply confined_session_revoke.
  - apply confined_password_change.
Qed.
Lemma profile_command_name actor name payload : HasPrefix name "accounts." = true -> profile_command h actor name payload = None.
Proof.
  unfold profile_command. intros Hn.
  repeat match goal with |- context [name =? ?s] => destruct (String.eqb_spec name s) as [->|_]; [by vm_compute in Hn|] end. done.
Qed.
Lemma confined_command_for actor name payload : ac_IsAdmin (id_Account actor) = false ->
  confined h (allowed (ac_ID (id_Account actor))) (command_for h security actor name payload).
Proof.
  intros Hadmin. unfold command_for, refuse, fail. rewrite Hadmin. destruct (administrator_command _ _ _ _); [apply confined_ret|].
  destruct (profile_command h actor name payload) eqn:E; [by eapply confined_profile|apply confined_ret].
Qed.
End callers.

(** ** What those operations can change *)

(** The privileges, the lock and the second factor are as they were, and the password
    too when its owner may not change it. *)
Definition privileges (a : Account) : string * accountPolicy * bool * bool * string * Z :=
  (ac_ID a, ac_policy a, ac_AccountLocked a, ac_MFAEnabled a, ac_mfaSecret a, ac_mfaLastStep a).
Definition kept (a b : Account) : Prop :=
  privileges b = privileges a /\ ac_authVersion a <= ac_authVersion b /\
  (po_AllowUserPasswordChange (ac_policy a) = false -> ac_passwordHash b = ac_passwordHash a).
#[export] Instance kept_preorder : PreOrder kept.
Proof.
  split; [done|]. intros a b c (P1 & V1 & H1) (P2 & V2 & H2). split_and!; [congruence|lia|]. intros E.
  rewrite H2; [by apply H1|]. injection P1 as _ -> _ _ _ _. done.
Qed.
(** Every account but one is as it was, and that one keeps its privileges. *)
Definition confined_to (id : string) (us us' : users) : Prop :=
  (forall k, k <> id -> us' !! k = us !! k) /\
  match us !! id, us' !! id with Some a, Some b => kept a b | None, None => True | _, _ => False end.
#[export] Instance confined_to_preorder id : PreOrder (confined_to id).
Proof.
  split; [split; [done|]; by destruct (x !! id)|]. intros us1 us2 us3 [K1 R1] [K2 R2]. split; [intros k Hk; by rewrite K2, K1|].
  destruct (us1 !! id), (us2 !! id), (us3 !! id); try done. by etrans.
Qed.
Lemma confined_to_insert id us a b : us !! id = Some a -> kept a b -> confined_to id us (<[id := b]> us).
Proof. intros Ha Hk. split; [intros k Hne; by apply lookup_insert_ne|]. by rewrite Ha, lookup_insert_eq. Qed.

Section effects.
Context `{Env} `{SecretTools} (postgres : bool).
Lemma confined_to_exec id counted t s : (forall us us', apply postgres t us = Ok us' -> confined_to id us us') ->
  confined_to id (st_users s) (st_users (exec postgres counted t s).2).
Proof. intros Ht. destruct (exec_eq postgres counted t s) as [[-> _]|E]; [reflexivity|by apply Ht]. Qed.
Lemma bump_row_kept id now us us' : bump_row id now us = Ok us' -> confined_to id us us'.
Proof.
  unfold bump_row, requireAffected. intros (a & Ha & _ & ->)%or_err_Ok%update_if_Some. apply (confined_to_insert _ _ a); [done|].
  destruct a. split_and!; [done|cbn; lia|done].
Qed.
Lemma set_password_if_row_kept id hash v now us us' : set_password_if_row id hash v now us = Ok us' -> confined_to id us us'.
Proof.
  unfold set_password_if_row. intros (a & Ha & Hc & ->)%or_err_Ok%update_if_Some.
  rewrite !andb_true_iff, negb_true_iff in Hc. destruct Hc as [[_ Hopen] Hpw]. apply (confined_to_insert _ _ a); [done|].
  destruct a. cbn in Hopen, Hpw. subst. split_and!; [done|cbn; lia|]. cbn. congruence.
Qed.
Lemma own_effect id o s : own id o -> confined_to id (st_users s) (st_users (perform postgres o s).2).
Proof.
  destruct o; cbn [own perform]; try done; intros ->; rewrite ignore_state.
  - unfold SetPasswordIfAuthVersion, checked. destruct (v <? 1)%Z; [reflexivity|]. rewrite mbind_eq.
    rewrite <- (steady_world now s). apply confined_to_exec. intros us us'. apply set_password_if_row_kept.
  - unfold BumpAuthVersion. rewrite mbind_eq, <- (steady_world now s). apply confined_to_exec. intros us us'. apply bump_row_kept.
Qed.
End effects.


(** ** Commands that end sessions *)

(** A command that does not delete the account [id]. *)
Definition spares (id : string) (name : string) (payload : obj) : Prop :=
  name = "accounts.delete" -> TrimSpace (stringValue payload "id") <> id.

Section sessions.
Context `{Env} `{Tools} `{AuditCodec} `{SecretTools} `{Paseto} `{Totp} `{Others} (h : AuthSettings) (security : obj).
Context (id : string) (Hothers : forall n, Forall (fair id) (other_operations n)).
Abbreviation moves := (moves id).
Abbreviation bumps := (bumps id).

Lemma moves_step {E A B} (wrap : E -> commandError) (f : A -> M Gateway (result commandError B)) m :
  moves m -> (forall a, moves (f a)) -> moves (step wrap f m).
Proof. intros Hm Hf. apply moves_bind; [done|]. intros [a|e]; [apply Hf|apply moves_ret]. Qed.
Lemma bumps_step {E A B} (wrap : E -> commandError) (f : A -> M Gateway (result commandError B)) m :
  moves m -> (forall a, bumps (f a)) -> bumps (step wrap f m).
Proof. intros Hm Hf. apply bumps_bind; [done|]. intros [a|e]; [apply Hf|]. intros b. apply spec_err. Qed.
(** A step that bumps, before others. *)
Lemma bumps_step_here {E A B} (wrap : E -> commandError) (f : A -> M Gateway (result commandError B)) m :
  bumps m -> (forall a, moves (f a)) -> bumps (step wrap f m).
Proof.
  intros Hm Hf a. eapply spec_bind; [apply Hm|]. intros [x|e]; [|apply spec_err].
  eapply spec_weaken; [apply (Hf x), stable_newer|done|]. by intros [y|e] us.
Qed.
(** What a step goes on with is the account of the payload. *)
Lemma spec_ByID_step {B} P Q k (f : Account -> M Gateway (result commandError B)) : stable id P ->
  (forall a, ac_ID a = TrimSpace k -> spec id P (f a) Q) -> (forall e us, P us -> Q (Err e) us) ->
  spec id P (step CStore f (on_store h (ByID k))) Q.
Proof.
  intros HP Hf Herr. eapply spec_bind; [apply on_store_spec with (Q := fun r us => P us /\ match r with Ok a => ac_ID a = TrimSpace k | Err _ => True end); [done|done| |]|].
  - intros s. rewrite (steady_query _ s : st_users (ByID k s).2 = st_users s). reflexivity.
  - intros s Hs HPs. unfold ByID. rewrite (steady_query _ s). split; [done|]. unfold query. rewrite mbind_eq, on_world_eq. cbn [fst snd].
    destruct (attempt (the_world s)).1; [done|]. cbn [gets fst st_users with_world Store_world].
    destruct (by_id k (st_users s)) as [a|] eqn:E; [|done]. by destruct (read_by_id _ k a Hs E).
  - intros [a|e]; cbn beta iota.
    + intros g Hg [HPg Ha]. by apply (Hf a Ha g Hg HPg).
    + intros g Hg [HPg _]. split; [done|by apply Herr].
Qed.
Lemma moves_ByID_step {B} k (f : Account -> M Gateway (result commandError B)) :
  (forall a, ac_ID a = TrimSpace k -> moves (f a)) -> moves (step CStore f (on_store h (ByID k))).
Proof. intros Hf P HP. apply spec_ByID_step; [done|intros a Ha; by apply Hf|done]. Qed.
Lemma bumps_ByID_step {B} k (f : Account -> M Gateway (result commandError B)) :
  (forall a, ac_ID a = TrimSpace k -> bumps (f a)) -> bumps (step CStore f (on_store h (ByID k))).
Proof. intros Hf a. apply spec_ByID_step; [apply stable_since|intros b Hb; by apply Hf|done]. Qed.

Lemma moves_auditWebpanel actor action target details : moves (auditWebpanel h actor action target details).
Proof. unfold auditWebpanel. moving. Qed.
Lemma moves_announce actor action target details k : moves k -> moves (announce h actor action target details k).
Proof. intros Hk. apply moves_bind; [apply moves_auditWebpanel|]. intros [e|]; [apply moves_ret|done]. Qed.
Lemma bumps_announce actor action target details k : bumps k -> bumps (announce h actor action target details k).
Proof. intros Hk. apply bumps_bind; [apply moves_auditWebpanel|]. intros [e|]; [intros a; apply spec_err|done]. Qed.
Lemma moves_complete actor action target details r : moves (complete h actor action target details r).
Proof. apply moves_bind; [apply moves_auditWebpanel|]. intros ?. apply moves_ret. Qed.
Lemma moves_revoke_user k c : moves c -> moves (revoke_user h k c).
Proof. intros Hc. apply moves_step; [by apply moves_RevokeUser|done]. Qed.
Lemma bumps_revoke_user c : moves c -> bumps (revoke_user h id c).
Proof. intros Hc. apply bumps_step_here; [by apply bumps_RevokeUser|done]. Qed.
Lemma moves_ListAccounts : moves (ListAccounts h).
Proof.
  apply moves_try; [by apply moves_ListAll|]. intros l. apply moves_bind; [apply moves_world|]. intros t. by apply moves_police_all.
Qed.
Lemma moves_requireAnotherAdministrator k : moves (requireAnotherAdministrator h k).
Proof. apply moves_step; [apply moves_ListAccounts|]. intros l. unfold refuse, fail. case_match; apply moves_ret. Qed.
Lemma moves_rename b old new : moves (rename_audit h b old new).
Proof. unfold rename_audit. destruct b; [apply moves_world|apply moves_ret]. Qed.
Lemma moves_PurgeUserSessionLeases k : moves (PurgeUserSessionLeases h k).
Proof. apply moves_bind; [by apply moves_ByID|]. intros ?. by apply moves_purge. Qed.

(** *** Each command *)

#[local] Ltac stepping :=
  repeat first
    [ progress intros
    | apply moves_ret
    | apply moves_world
    | apply moves_complete
    | apply moves_announce
    | apply moves_revoke_user
    | apply moves_requireAnotherAdministrator
    | apply moves_ResetLoginLimits
    | apply moves_rename
    | apply moves_PurgeUserSessionLeases
    | apply moves_ListAccounts
    | by apply moves_ByID
    | by apply moves_ByUsername
    | by apply moves_sessions
    | by apply moves_registry
    | apply moves_step
    | apply moves_bind
    | case_match ].
(** A change of a command that is an operation of the store. *)
Definition as_operation (m : M Store (result storeError unit)) : Prop := exists o, perform (se_postgres h) o = ignore m /\ fair id o.
Lemma moves_as_operation m : as_operation m -> moves (on_store h m).
Proof. intros (o & Hm & Ho). by eapply moves_op. Qed.
Lemma as_operation_intro m o : perform (se_postgres h) o = ignore m -> fair id o -> as_operation m.
Proof. intros Hm Ho. by exists o. Qed.

Lemma moves_account_reset actor account requested finished change : as_operation change ->
  moves (account_reset h actor account requested finished change).
Proof. intros Hc. unfold account_reset. apply moves_announce, moves_step; [by apply moves_as_operation|]. stepping. Qed.
Lemma bumps_account_reset actor account requested finished change : as_operation change -> ac_ID account = id ->
  bumps (account_reset h actor account requested finished change).
Proof.
  intros Hc Hid. unfold account_reset. apply bumps_announce, bumps_step; [by apply moves_as_operation|]. intros ?.
  apply bumps_bind; [apply moves_ResetLoginLimits|]. intros ?. rewrite Hid. apply bumps_revoke_user, moves_complete.
Qed.
Lemma moves_session_revoke actor account sid requested finished missing :
  moves (session_revoke h actor account sid requested finished missing).
Proof. unfold session_revoke, refuse, fail. stepping. Qed.
Lemma set_password_operation k hash : as_operation (SetPassword (se_postgres h) k hash).
Proof. by apply (as_operation_intro _ (OSetPassword k hash)). Qed.
Lemma set_mfa_operation k secret enabled : as_operation (SetMFA (se_postgres h) k secret enabled).
Proof. by apply (as_operation_intro _ (OSetMFA k secret enabled)). Qed.
Lemma unlock_operation k : as_operation (Unlock (se_postgres h) k).
Proof. by apply (as_operation_intro _ (OUnlock k)). Qed.
Lemma set_password_if_operation k hash v : as_operation (SetPasswordIfAuthVersion (se_postgres h) k hash v).
Proof. by apply (as_operation_intro _ (OSetPasswordIf k hash v)). Qed.
Lemma save_operation a : as_operation (Save (se_postgres h) a).
Proof. by apply (as_operation_intro _ (OSave a)). Qed.
Lemma create_operation payload hash : as_operation (Create (se_postgres h) (accountPolicyFromPayload new_account payload) hash).
Proof. by apply (as_operation_intro _ (OCreate (accountPolicyFromPayload new_account payload) hash)). Qed.
Lemma delete_operation k : k <> id -> as_operation (Delete (se_postgres h) k).
Proof. intros Hk. apply (as_operation_intro _ (ODelete k)); [done|]. split; [congruence|done]. Qed.
#[local] Hint Resolve moves_as_operation set_password_operation set_mfa_operation unlock_operation set_password_if_operation
  save_operation create_operation moves_account_reset bumps_account_reset moves_session_revoke : operations.

Lemma moves_password_change actor payload : moves (profile_password_change h actor payload).
Proof.
  unfold profile_password_change, refuse, fail. destruct (negb _); [apply moves_ret|].
  apply moves_step; [apply moves_world|]. intros ok. destruct (negb ok); [apply moves_ret|].
  apply moves_step; [apply moves_world|]. intros hash. apply moves_announce, moves_bind; [auto with operations|]. stepping.
Qed.
Lemma moves_update actor payload : moves (accounts_update h actor payload).
Proof.
  unfold accounts_update. apply moves_step; [by apply moves_ByID|]. intros original. apply moves_step; [apply moves_ret|]. intros account.
  cbn zeta. apply moves_announce, moves_step; [destruct (_ && _); [apply moves_requireAnotherAdministrator|apply moves_ret]|]. intros ?.
  apply moves_bind; [apply moves_rename|]. intros [e|]; [apply moves_ret|]. apply moves_bind; [auto with operations|]. stepping.
Qed.
Lemma moves_administrator actor name payload run : spares id name payload -> administrator_command h security actor name payload = Some run ->
  moves run.
Proof.
  intros Hspares. unfold administrator_command.
  repeat (match goal with |- context [name =? ?s] => destruct (String.eqb_spec name s) as [Hn|_] end;
    [intros <-%(inj Some)|]); [..|done]; unfold accounts_list, accounts_get, accounts_create, accounts_password_reset,
      accounts_mfa_reset, accounts_unlock, accounts_sessions_revoke, accounts_sessions_revoke_all, refuse, fail.
  - stepping.
  - stepping.
  - apply moves_step; [apply moves_world|]. intros hash. apply moves_announce, moves_step; [auto with operations|]. stepping.
  - apply moves_update.
  - apply moves_step; [by apply moves_ByID|]. intros a. apply moves_step; [apply moves_world|]. auto with operations.
  - apply moves_step; [by apply moves_ByID|]. auto with operations.
  - apply moves_step; [by apply moves_ByID|]. auto with operations.
  - apply moves_step; [by apply moves_ByID|]. auto with operations.
  - stepping.
  - unfold accounts_delete, refuse, fail. destruct (negb _); [apply moves_ret|]. apply moves_ByID_step. intros a Ha.
    destruct (_ =? _); [apply moves_ret|]. apply moves_step; [destruct (ac_IsAdmin a); [apply moves_requireAnotherAdministrator|apply moves_ret]|].
    intros ?. apply moves_announce, moves_revoke_user, moves_step; [|stepping]. apply moves_as_operation, delete_operation.
    rewrite Ha. by apply Hspares.
Qed.
Lemma moves_command_for actor name payload : spares id name payload -> moves (command_for h security actor name payload).
Proof.
  intros Hspares. unfold command_for, refuse, fail. destruct (administrator_command h security actor name payload) eqn:E.
  { destruct (negb _); [apply moves_ret|]. by eapply moves_administrator. }
  unfold profile_command.
  repeat (match goal with |- context [name =? ?s] => destruct (name =? s) end; [cbn [default]|]); [| | |apply moves_password_change|apply moves_ret].
  - apply moves_ret.
  - unfold profile_sessions. stepping.
  - apply moves_session_revoke.
Qed.
Lemma moves_accountCommand r name payload : spares id name payload -> moves (accountCommand h security r name payload).
Proof. intros Hs. apply moves_step; [by apply moves_Authenticate|]. intros actor. by apply moves_command_for. Qed.

(** *** Commands after which no earlier session counts *)

Lemma bumps_Save a : ac_ID a = id -> bumps (on_store h (Save (se_postgres h) a)).
Proof.
  intros Hid. apply (bumps_store h id Hothers _ (OSave a)); [done|by split|]. intros s row Hrow Hok. unfold Save in *.
  destruct (validateAccount a) as [b|e] eqn:E; [|done]. apply validateAccount_normal in E as (_ & _ & Hb & _).
  rewrite mbind_eq, on_world_eq in *. cbn [fst snd] in *. set (s1 := with_world _ s) in *. set (t := TSave _ _) in *.
  destruct (transaction_eq (se_postgres h) t s1) as [[_ Hf]|[Happly _]]; [congruence|].
  cbn [apply t] in Happly. unfold save_row, requireAffected in Happly. destruct (lockAdministratorMutation _ _ _); [|done].
  cbn [rbind] in Happly. destruct (st_users s1 !! ac_ID b); cbn [or_err rbind] in Happly; [|done].
  destruct (if _ && _ then _ else _); [|done]. cbn [rbind] in Happly. destruct (name_taken _ _ _); [done|].
  apply or_err_Ok, update_if_Some in Happly as (row' & Hrow' & _ & ->). change (st_users s1) with (st_users s) in *.
  rewrite Hb, Hid in *. assert (row' = row) as -> by congruence.
  eexists. rewrite lookup_insert_eq. split; [done|]. destruct row; cbn; lia.
Qed.
Lemma accountPolicyFromPayload_ID a payload : ac_ID (accountPolicyFromPayload a payload) = ac_ID a.
Proof. by destruct a. Qed.
Lemma step_ret_ok {E A B} (wrap : E -> commandError) (f : A -> M Gateway (result commandError B)) a :
  step wrap f (ret (Ok a)) = f a.
Proof. reflexivity. Qed.
Lemma bumps_fail {E A} (e : E) : bumps (fail e : M Gateway (result E A)).
Proof. intros a. apply spec_err. Qed.
Lemma bumps_update actor payload : TrimSpace (stringValue payload "id") = id -> bumps (accounts_update h actor payload).
Proof.
  intros Hid. unfold accounts_update. apply bumps_ByID_step. intros original Ho.
  destruct (validateAccount (accountPolicyFromPayload original payload)) as [account|e] eqn:E; [|apply bumps_fail].
  rewrite step_ret_ok. cbn zeta. apply validateAccount_normal in E as (_ & _ & Haccount & _).
  rewrite accountPolicyFromPayload_ID, Ho, Hid in Haccount. apply bumps_announce, bumps_step.
  { destruct (_ && _); [apply moves_requireAnotherAdministrator|apply moves_ret]. }
  intros ?. apply bumps_bind; [apply moves_rename|]. intros [e|]; [apply bumps_fail|].
  intros old. eapply spec_bind; [by apply bumps_Save|]. intros [[]|e].
  - eapply spec_weaken; [|done|].
    + eapply (moves_bind id); [by apply moves_PurgeUserSessionLeases|intros ?; apply moves_complete|apply stable_newer].
    + by intros [r|e] us.
  - eapply spec_bind; [apply moves_rename, stable_pure with (p := True)|]. intros ?. apply spec_err.
Qed.

Definition ending_commands : list string :=
  ["accounts.update"; "accounts.password.reset"; "accounts.mfa.reset"; "accounts.unlock"; "accounts.sessions.revoke_all"].
Lemma bumps_administrator actor name payload run : In name ending_commands -> TrimSpace (stringValue payload "id") = id ->
  administrator_command h security actor name payload = Some run -> bumps run.
Proof.
  intros Hname Hid. assert (Hreset : forall account, ac_ID account = TrimSpace (stringValue payload "id") -> ac_ID account = id) by congruence.
  destruct Hname as [<-|[<-|[<-|[<-|[<-|[]]]]]]; intros <-%(inj Some).
  - by apply bumps_update.
  - apply bumps_ByID_step. intros a Ha. apply bumps_step; [apply moves_world|]. auto with operations.
  - apply bumps_ByID_step. auto with operations.
  - apply bumps_ByID_step. auto with operations.
  - apply bumps_ByID_step. intros a Ha. apply bumps_announce. rewrite (Hreset a Ha). apply bumps_revoke_user, moves_complete.
Qed.
Lemma bumps_password_change actor payload : ac_ID (id_Account actor) = id -> bumps (profile_password_change h actor payload).
Proof.
  intros Hid. unfold profile_password_change. destruct (negb _); [apply bumps_fail|].
  apply bumps_step; [apply moves_world|]. intros ok. destruct (negb ok); [apply bumps_fail|].
  apply bumps_step; [apply moves_world|]. intros hash. apply bumps_announce, bumps_bind; [auto with operations|].
  intros [[]|[]]; try apply bumps_fail. apply bumps_bind; [apply moves_ResetLoginLimits|]. intros ?. rewrite Hid.
  apply bumps_revoke_user, moves_complete.
Qed.
(** The command of a caller that ends the sessions of [id] when it is done. *)
Definition ends_sessions (caller : Identity) (name : string) (payload : obj) : Prop :=
  (In name ending_commands /\ TrimSpace (stringValue payload "id") = id) \/
  (name = "profile.password.change" /\ ac_ID (id_Account caller) = id).
Lemma bumps_command_for actor name payload : ends_sessions actor name payload -> bumps (command_for h security actor name payload).
Proof.
  unfold command_for, refuse. intros [[Hname Hid]|[-> Hid]]; [|by apply bumps_password_change].
  destruct (administrator_command h security actor name payload) as [run|] eqn:E.
  - destruct (negb _); [apply bumps_fail|]. by eapply bumps_administrator.
  - destruct Hname as [<-|[<-|[<-|[<-|[<-|[]]]]]]; done.
Qed.
End sessions.

(** Requests and commands, in any order. *)
Inductive request := QActivity (a : activity) | QCommand (r : option Request) (name : string) (payload : obj).
Definition spares_request (id : string) (q : request) : Prop :=
  match q with QActivity _ => True | QCommand _ name payload => spares id name payload end.

Section history.
Context `{Env} `{Tools} `{AuditCodec} `{SecretTools} `{Paseto} `{Totp} `{Others} (h : AuthSettings) (security : obj).
Definition answer (q : request) : M Gateway unit :=
  match q with
  | QActivity a => serve h a
  | QCommand r name payload => quietly (accountCommand h security r name payload)
  end.
Definition answer_all (l : list request) : M Gateway unit := for_each answer l.
Context (id : string) (Hothers : forall n, Forall (fair id) (other_operations n)).
Lemma moves_answer_all l : Forall (spares_request id) l -> moves id (answer_all l).
Proof.
  intros Hl. induction Hl as [|q l Hq Hl IH]; [apply moves_ret|]. apply moves_bind; [|by intros ?].
  destruct q; [by apply moves_serve|]. apply moves_bind; [by apply moves_accountCommand|]. intros ?. apply moves_ret.
Qed.
End history.

(** C9: a change of credentials ends the sessions before it.  After a user signed in,
    and whatever requests and commands came since, once a command is done that
    changes the user's account, resets its password or its second factor, unlocks it
    or revokes its sessions, or by which the user changed the password, the token of
    that sign-in is refused, whatever requests and commands come after it and whatever
    others do at the same time, short of deleting the account. *)
Theorem changed_credentials_end_sessions `{Env} `{Tools} `{AuditCodec} `{SecretTools} `{PasetoOk} `{Totp} `{Others}
    (h : AuthSettings) (security : obj) (id : string) (input : LoginInput) (g : Gateway) (result : LoginResult) (caller : Identity)
    (before after : list request) (name : string) (payload : obj) (actor : Identity) (outcome : Reply) (r : option Request) (q : Request) :
  (forall n, Forall (fair id) (other_operations n)) -> Forall (spares_request id) before -> Forall (spares_request id) after ->
  table_good (accounts_of g) -> (Login h input g).1 = Ok result -> lr_Identity result = Some caller -> ac_ID (id_Account caller) = id ->
  let g1 := (answer_all h security before (Login h input g).2).2 in
  (Authenticate h r g1).1 = Ok actor -> ends_sessions id actor name payload ->
  (accountCommand h security r name payload g1).1 = Ok outcome ->
  let g2 := (answer_all h security after (accountCommand h security r name payload g1).2).2 in
  accountTokenFromRequest (Some q) = lr_Token result ->
  exists e, (Authenticate h (Some q) g2).1 = Err e.
Proof.
  intros Hothers Hbefore Hafter Hg Hok Hcaller Hid g1 Hactor Hends Hdone g2 Htoken.
  destruct (outdated_token_refused h id input g result caller Hothers Hg Hok Hcaller Hid) as (Hg0 & row & Hrow & Hrefused).
  destruct (moves_run id _ _ (moves_answer_all h security id Hothers before Hbefore) Hg0) as [Hgood1 K1].
  destruct (K1 row Hrow) as (row1 & Hrow1 & [Hv1 _]). specialize (Hgood1 Hg0). fold g1 in Hgood1, Hrow1.
  destruct (moves_run id _ g1 (moves_Authenticate h id Hothers r) Hgood1) as [HgoodA KA].
  destruct (KA row1 Hrow1) as (rowA & HrowA & [HvA _]).
  assert (Hcommand : accountCommand h security r name payload g1 = command_for h security actor name payload (Authenticate h r g1).2).
  { unfold accountCommand, step. by rewrite mbind_eq, Hactor. }
  unfold g2. clear g2. rewrite Hcommand in *.
  destruct (bumps_run id _ _ rowA outcome (bumps_command_for h security id Hothers actor name payload Hends) (HgoodA Hgood1) HrowA Hdone)
    as (Hg2 & row2 & Hrow2 & Hlt).
  destruct (moves_run id _ _ (moves_answer_all h security id Hothers after Hafter) Hg2) as [Hgood2 K2].
  destruct (K2 row2 Hrow2) as (row3 & Hrow3 & [Hv3 _]).
  apply (Hrefused _ row3 q); [by apply Hgood2|done|lia|done].
Qed.

(** *** Alice, at the panel *)

Definition demo_change : obj :=
  {["current_password" := AString "correct horse battery"; "new_password" := AString "a new battery staple"]}.
Definition alice_asks (name : string) (payload : obj) : result commandError Reply * Gateway :=
  accountCommand demo_settings ∅ (Some with_token) name payload demo_login.2.
Example password_changed : (alice_asks "profile.password.change" demo_change).1 = Ok RUpdated.
Proof. vm_compute. reflexivity. Qed.
Example not_for_operators :
  (alice_asks "accounts.mfa.reset" {["id" := AString root_id]}).1 = Err (CText "administrator permission is required").
Proof. vm_compute. reflexivity. Qed.
Lemma demo_accepted_operator : ac_IsAdmin (id_Account demo_accepted) = false.
Proof. vm_compute. reflexivity. Qed.

Definition demo_g1 : Gateway := (answer_all demo_settings ∅ [QActivity (AListSessions alice_id)] demo_login.2).2.
Definition demo_actor : Identity := value_or demo_caller (Authenticate demo_settings (Some with_token) demo_g1).1.
Lemma demo_actor_ok : (Authenticate demo_settings (Some with_token) demo_g1).1 = Ok demo_actor.
Proof. apply value_or_ok. vm_compute. reflexivity. Qed.
Lemma demo_actor_ends : ends_sessions alice_id demo_actor "profile.password.change" demo_change.
Proof. right. split; vm_compute; reflexivity. Qed.
Lemma demo_change_done :
  (accountCommand demo_settings ∅ (Some with_token) "profile.password.change" demo_change demo_g1).1 = Ok RUpdated.
Proof. vm_compute. reflexivity. Qed.
Definition demo_later : list request :=
  [QCommand (Some with_token) "accounts.delete" {["id" := AString root_id]}; QActivity AListAccounts].
Lemma demo_later_spares : Forall (spares_request alice_id) demo_later.
Proof. repeat constructor. intros _ E. by vm_compute in E. Qed.
Lemma demo_token_presented : accountTokenFromRequest (Some with_token) = lr_Token demo_result.
Proof. vm_compute. reflexivity. Qed.
Lemma changed_credentials_end_sessions_witness :
  exists e, (Authenticate demo_settings (Some with_token) (answer_all demo_settings ∅ demo_later
    (accountCommand demo_settings ∅ (Some with_token) "profile.password.change" demo_change demo_g1).2).2).1 = Err e.
Proof.
  destruct demo_login_ok as (Hok & Hcaller & Hid).
  exact (changed_credentials_end_sessions demo_settings ∅ alice_id demo_input demo_gateway demo_result demo_caller
    [QActivity (AListSessions alice_id)] demo_later "profile.password.change" demo_change demo_actor RUpdated (Some with_token) with_token
    busy_fair ltac:(repeat constructor) demo_later_spares demo_gateway_good Hok Hcaller Hid demo_actor_ok demo_actor_ends
    demo_change_done demo_token_presented).
Defined.
