(* ===== verification/OriginationPolicy.v ===== *)
(** Who may originate what ([internal/webgateway]: account_policy.go, account_audit.go,
    the gate of commands in server.go, and the requests for SAME audio of
    same_gateway.go).

    The gate stands before the commands of the panel.  It authenticates, applies the
    policy of the account to the payload of a command that originates an alert, and
    has the request recorded before the command is executed. *)

From stdpp Require Import stringmap sorting.
From S2P Require Import Prelude UnicodeTables GoStrings SampleCodec GoTime GoValue GoPath GoCrypto GoNet AlertPacket.
From S2P Require Import PlaylistModel World Secrets AlertRequest AudioRetention PlannerState AlertCommit Wav AudioFiles AuditLog.
From S2P Require Import Accounts AccountsSafety Sessions GatewayRequest AccountAuth CapModel CapSame SameRequest PanelPayload AccountCommands.

#[local] Open Scope Z_scope.
#[local] Open Scope string_scope.
#[local] Open Scope haze_scope.

(** ** Which commands *)

Definition archiveActionBroadcasts (payload : obj) : bool :=
  mem (ToLower (TrimSpace (stringValue payload "action")))
    ["rebroadcast"; "force_broadcast"; "rebroadcast_without_same"; "force_broadcast_without_same"].
Definition nonAdminCommandAllowed (command : string) (payload : obj) (account : Account) : bool :=
  let CanViewLogs := po_CanViewLogs (ac_policy account) in
  if mem command ["state"; "health"; "same.event_codes"; "same.location_names"; "same.templates.get"; "same.intro"; "same.generate";
                  "same.test"; "same.air"; "alert.broadcast"; "alert.preview"; "profile.get"; "profile.password.change";
                  "profile.sessions"; "profile.session.revoke"] then true
  else if mem command ["alerts.archive.get"; "logs.list"; "logs.tail"] then CanViewLogs
  else if command =? "alerts.archive.action" then
    let action := ToLower (TrimSpace (stringValue payload "action")) in
    CanViewLogs && (archiveActionBroadcasts payload || (action =? "preview_same"))
  else false.
Definition isOriginationExecution (command : string) (payload : obj) : bool :=
  if mem command ["same.test"; "same.air"; "alert.broadcast"] then true
  else if command =? "playlist.insert" then EqualFold (stringValue payload "kind") "same"
  else if command =? "alerts.archive.action" then archiveActionBroadcasts payload
  else false.
Definition usesOriginationPolicy (command : string) (payload : obj) : bool :=
  if isOriginationExecution command payload || (command =? "same.generate") || (command =? "alert.preview") then true
  else (command =? "alerts.archive.action") && EqualFold (stringValue payload "action") "preview_same".

(** ** The policy *)

(** An archived alert that is broadcast again ([alerts_archive.go]). *)
Definition chooseArchiveInfo (alert : Alert) : AlertInfo :=
  match find (fun info => HasPrefix (ToLower (TrimSpace (info_Language info))) "en") (cap_Infos alert) with
  | Some info => info
  | None => default no_info (head (cap_Infos alert))
  end.
Definition eas_originator (parameter : NameValue) : option string :=
  if negb (EqualFold (TrimSpace (nv_Name parameter)) "eas-org") then None
  else let code := ToUpper (TrimSpace (nv_Value parameter)) in if mem code allowedOriginatorCodes then Some code else None.
Definition canadian_parameter (parameter : NameValue) : bool :=
  let name := ToLower (TrimSpace (nv_Name parameter)) in HasPrefix name "layer:ec-msc-smc" || GoStrings.Contains name "cap-cp".
Definition archiveRecordOriginator (alert : Alert) : string :=
  let parameters := concat (map info_Parameters (chooseArchiveInfo alert :: cap_Infos alert)) in
  match head (omap eas_originator parameters) with
  | Some code => code
  | None =>
      if existsb canadian_parameter parameters then "WXR"
      else
        let sender := ToLower (TrimSpace (cap_Sender alert)) in
        if existsb (GoStrings.Contains sender) ["canada"; "cap-pac"; "weather.gov"; "nws"; "noaa"] then "WXR" else "CIV"
  end.

(** The search of the archive, by alert and feed. *)
Class AlertArchive := { findArchiveAlert : World -> string -> string -> option Alert }.

Definition archive_alert_not_found : AuthError :=
  MkAuthError "archive_alert_not_found" "The archived alert was not found." StatusNotFound.
(** The event a payload names, as the policy reads it. *)
Definition policy_event (payload : obj) : string :=
  firstNonBlank [stringValue payload "same_event"; stringValue payload "event"; stringValue payload "event_code"].
Definition with_event (eventCode : string) (payload : obj) : obj :=
  if eventCode =? "" then payload
  else <["event" := AString eventCode]> (<["same_event" := AString eventCode]> (<["event_code" := AString eventCode]> payload)).
(** A template speaks for what its payload leaves out. *)
Definition from_template (payload : obj) : obj :=
  match payload !! "template" with
  | Some (AMap template) =>
      let same := mapFromAny (template !! "same") in
      let payload :=
        if TrimSpace (stringValue payload "originator") =? ""
        then <["originator" := AString (ToUpper (firstNonBlank [stringFromMap same "originator"; "WXR"]))]> payload else payload in
      if TrimSpace (policy_event payload) =? ""
      then with_event (ToUpper (firstNonBlank [stringFromMap same "event"; stringValue template "sameEvent"])) payload else payload
  | _ => payload
  end.

Section policy.
Context `{Env} `{Tools} `{SameMapping} `{AlertArchive} (baseDir : string).

Definition archiveRecordEvent (alert : Alert) : M World string :=
  let! resolution := ResolveEvent alert (chooseArchiveInfo alert) baseDir in
  ret (ToUpper (TrimSpace (rs_Event resolution))).
Definition prepareAccountOriginationPolicyPayload (command : string) (payload : obj) : M World (result AuthError obj) :=
  let out := cloneMap payload in
  let out := if command =? "same.test" then from_template out else out in
  if negb (command =? "alerts.archive.action") then ret (Ok out)
  else
    let action := ToLower (TrimSpace (stringValue out "action")) in
    if negb (archiveActionBroadcasts out) && negb (action =? "preview_same") then ret (Ok out)
    else
      let! record := gets (fun w => findArchiveAlert w (TrimSpace (stringValue out "id")) (TrimSpace (stringValue out "feed_id"))) in
      match record with
      | None => ret (Err archive_alert_not_found)
      | Some alert =>
          let originator := archiveRecordOriginator alert in
          let out := <["originator" := AString originator]> (<["same_originator" := AString originator]> out) in
          let! eventCode := archiveRecordEvent alert in
          ret (Ok (with_event eventCode out))
      end.
End policy.

Definition originator_name (caller : Identity) : string :=
  let p := ac_policy (id_Account caller) in
  po_OriginatorNameText p +:+ (if po_IncludeIPInBrackets p then " [" +:+ as_IP (id_Session caller) +:+ "]" else "").
Definition attributed (caller : Identity) (payload : obj) : obj :=
  <["originated_by_user_id" := AString (ac_ID (id_Account caller))]>
  (<["originated_by_username" := AString (ac_Username (id_Account caller))]>
  (<["originated_by_session_id" := AString (as_ID (id_Session caller))]>
  (<["originated_from_ip" := AString (as_IP (id_Session caller))]> payload))).
Definition policy_originator (payload : obj) : string :=
  let byDefault :=
    if bool_decide (is_Some (payload !! "same_event")) || negb (stringValue payload "audio_mode" =? "") then "EAS" else "WXR" in
  ToUpper (TrimSpace (firstNonBlank [stringValue payload "originator"; stringValue payload "same_originator"; byDefault])).
Definition applyAccountOriginationPolicy (payload : obj) (caller : Identity) : result AuthError obj :=
  let out := cloneMap payload in
  let p := ac_policy (id_Account caller) in
  let originator := policy_originator out in
  if negb (mem originator (po_AllowedOriginators p)) then
    Err (MkAuthError "originator_forbidden" ("Originator " +:+ originator +:+ " is not permitted for this account.") StatusForbidden)
  else
    let eventCode := ToUpper (TrimSpace (policy_event out)) in
    if negb (eventCode =? "") && existsb (fun blocked => EqualFold blocked eventCode) (po_BlockedEventCodes p) then
      Err (MkAuthError "event_code_forbidden" ("SAME event code " +:+ eventCode +:+ " is blocked for this account.") StatusForbidden)
    else
      let out := <["originator" := AString originator]> (<["same_originator" := AString originator]> out) in
      let out :=
        if po_ForceSenderID p then
          <["sender_id" := AString (po_SenderID p)]> (<["same_callsign" := AString (po_SenderID p)]> out)
        else out in
      let out :=
        if po_ForceOriginatorName p then
          <["originator_name" := AString (originator_name caller)]>
          (<["same_originator_name" := AString (originator_name caller)]> out)
        else out in
      Ok (attributed caller out).

(** ** Requests for SAME audio *)

Record panelSameRequest := MkSameRequest {
  sg_Originator : string; sg_OriginatorName : string; sg_Event : string; sg_Locations : list string; sg_Duration : string;
  sg_Callsign : string; sg_Tone : string; sg_OriginatedByUserID : string; sg_OriginatedByUser : string;
  sg_OriginatedSession : string; sg_OriginatedFromIP : string }.
(** What is read of the configuration: the locations that others stand for, for some
    feeds, and the callsign of a feed. *)
Class StationConfig := { expandSameLocationsForFeeds : list string -> list string -> list string; sameCallsignFromConfig : string -> string }.

(** The digits of a location code; what is trimmed off around them is none. *)
Definition cleanLocationCode (raw : string) : string :=
  let cleaned := string_of (List.filter (fun a => is_digit (byte_val a)) (bytes_of (ToUpper (TrimSpace raw)))) in
  if (String.length cleaned =? 5)%nat then "0" +:+ cleaned else if (String.length cleaned =? 6)%nat then cleaned else "".
Definition nonempty_texts : list string -> list string := base.filter (fun s => s <> "").
Definition stringSlicePayload (payload : obj) (key : string) : list string :=
  let value := default ANil (payload !! key) in
  let values := nonempty_texts (map (fun item => cleanLocationCode (Sprint_payload item)) (anySlice value)) in
  let values :=
    match values with
    | [] => nonempty_texts (map cleanLocationCode (Split ","%char (TrimSpace (Sprint_payload value))))
    | _ => values
    end in
  let values := uniqueStrings values in
  if mem "000000" values then ["000000"] else sort_Strings values.
Definition sameFeedIDsFromPayload (payload : obj) : list string :=
  let feedID := TrimSpace (stringPayload payload "feed_id" "") in
  uniqueStrings (payload_list (default ANil (payload !! "feed_ids")) ++ (if feedID =? "" then [] else [feedID]))%list.
Definition clampInt (value minValue maxValue : Z) : Z :=
  if (value <? minValue)%Z then minValue else if (maxValue <? value)%Z then maxValue else value.
Definition two_digits (n : Z) : string := if (n <? 10)%Z then "0" +:+ Itoa n else Itoa n.
Definition all_digits (s : string) : bool := forallb (fun a => is_digit (byte_val a)) (bytes_of s).
Definition sameDuration (payload : obj) : string :=
  let raw := TrimSpace (stringPayload payload "duration" "") in
  if (String.length raw =? 4)%nat && all_digits raw then raw
  else two_digits (clampInt (intPayload payload "duration_hours" 0) 0 99) +:+
       two_digits (clampInt (intPayload payload "duration_minutes" 15) 0 59).
Definition durationFromTemplate (value : option any) : string :=
  let source := mapFromAny value in
  if bool_decide (source = ∅) then ""
  else two_digits (clampInt (intPayload source "hr" 0) 0 99) +:+ two_digits (clampInt (intPayload source "min" 15) 0 59).
Definition templateSAMEDuration (raw : string) : string :=
  let value := string_of (List.filter (fun a => is_digit (byte_val a)) (bytes_of raw)) in
  if (4 <=? String.length value)%nat then take_bytes 4 value
  else string_of (repeat "0"%char (4 - String.length value)) +:+ value.
Definition template_location (item : any) : string :=
  match item with
  | AString loc => TrimSpace loc
  | AMap loc => let id := TrimSpace (Sprint_payload (default ANil (loc !! "id"))) in if id =? "<nil>" then "" else id
  | _ => ""
  end.
Definition templateLocationIDs (value : option any) : list string :=
  match value with Some (AList typed) => nonempty_texts (map template_location typed) | _ => [] end.

Section requests.
Context `{StationConfig}.

Definition attribution (payload : obj) : string * string * string * string :=
  (stringPayload payload "originated_by_user_id" "", stringPayload payload "originated_by_username" "",
   stringPayload payload "originated_by_session_id" "", stringPayload payload "originated_from_ip" "").
Definition request_of (payload : obj) (event : string) (locations : list string) (duration callsign tone : string) : panelSameRequest :=
  let '(userID, user, session, ip) := attribution payload in
  MkSameRequest (ToUpper (TrimSpace (stringPayload payload "originator" "WXR")))
    (firstNonBlank [stringPayload payload "originator_name" ""; stringPayload payload "same_originator_name" ""])
    event locations duration callsign tone userID user session ip.
Definition buildSameRequest (payload : obj) : result string panelSameRequest :=
  let feedID := stringPayload payload "feed_id" "" in
  let event := ToUpper (TrimSpace (stringPayload payload "event" "RWT")) in
  match stringSlicePayload payload "locations" with
  | [] => Err "at least one SAME location is required"
  | locations =>
      let tone := ToUpper (TrimSpace (stringPayload payload "tone_type" "WXR")) in
      Ok (request_of payload event (expandSameLocationsForFeeds (sameFeedIDsFromPayload payload) locations) (sameDuration payload)
            (firstNonBlank [stringPayload payload "sender_id" ""; stringPayload payload "same_callsign" ""; sameCallsignFromConfig feedID])
            (if tone =? "" then "WXR" else tone))
  end.
Definition buildTemplateSameRequest (template payload : obj) : result string panelSameRequest :=
  let same := mapFromAny (template !! "same") in
  let event := ToUpper (firstNonBlank [stringPayload payload "event_code" ""; stringFromMap template "sameEvent"; stringFromMap same "event"]) in
  if event =? "" then Err "template SAME event is required"
  else
    let locations := templateLocationIDs (same !! "locations") in
    let locations := match locations with [] => stringSlicePayload payload "locations" | _ => locations end in
    match locations with
    | [] => Err "template has no SAME locations"
    | _ =>
        let locations := expandSameLocationsForFeeds (sameFeedIDsFromPayload payload) locations in
        let duration := stringFromMap template "sameExpire" in
        let duration := if duration =? "" then durationFromTemplate (same !! "duration") else duration in
        let duration := if duration =? "" then "0015" else duration in
        let content := mapFromAny (same !! "content") in
        let tone := ToUpper (firstNonBlank [stringPayload payload "tone_type" ""; stringFromMap content "attention_tone"; "WXR"]) in
        let senderID := firstNonBlank [stringPayload payload "sender_id" ""; stringPayload payload "same_callsign" "";
                                       stringFromMap same "sender_id"] in
        let senderID := if senderID =? "" then sameCallsignFromConfig (stringPayload payload "feed_id" "") else senderID in
        Ok (request_of payload event (uniqueStrings locations) (templateSAMEDuration duration) senderID tone)
    end.
(** The request that a command has made into audio.  A test without a template takes
    the locations of the first feed that has any, [tested]. *)
Definition audio_request (command : string) (tested : string * list string) (payload : obj) : result string panelSameRequest :=
  if command =? "same.test" then
    match payload !! "template" with
    | Some (AMap template) => buildTemplateSameRequest template payload
    | _ =>
        let '(feedID, locations) := tested in
        match locations with
        | [] => Err "no configured feed locations are available for SAME test generation"
        | _ =>
            let '(userID, user, session, ip) := attribution payload in
            Ok (MkSameRequest (ToUpper (stringPayload payload "originator" "WXR"))
                  (firstNonBlank [stringPayload payload "originator_name" ""; stringPayload payload "same_originator_name" ""])
                  (ToUpper (TrimSpace (stringPayload payload "event_code" "RWT"))) (uniqueStrings locations) "0015"
                  (firstNonBlank [stringPayload payload "sender_id" ""; sameCallsignFromConfig feedID]) "WXR" userID user session ip)
        end
    end
  else buildSameRequest payload.
End requests.

(** ** Records of commands *)

Definition auditSeverity (event : string) : string := if GoStrings.Contains (ToUpper event) "FAILED" then "error" else "info".
Definition auditedWebpanelMutation (command : string) (payload : obj) : bool :=
  if accountCommandName command || isOriginationExecution command payload then false
  else
    mem command ["daemon.settings.save"; "daemon.service.control"; "dictionary.save"; "tts.save"; "feeds.save"; "feeds.control";
      "bulletins.save"; "bulletins.import"; "bulletins.upload_audio"; "cgen.scenes.save"; "cgen.scenes.delete"; "cgen.save";
      "cgen.action"; "playlist.control"; "playlist.insert"; "alerts.archive.action"; "automations.put"; "same.templates.put";
      "lead_statements.save"; "operator_breakin.upload_preroll"; "operator_breakin.generate_tone"; "operator_breakin.start";
      "operator_breakin.chunk"; "operator_breakin.finish"; "operator_breakin.url"; "operator_breakin.cancel"].

Definition secret_markers : list string :=
  ["password"; "secret"; "token"; "authorization"; "cookie"; "credential"; "private_key"; "api_key"; "apikey"; "dsn"].
Definition secret_key (key : string) : bool := existsb (GoStrings.Contains (ToLower (TrimSpace key))) secret_markers.
Definition bulky_key (key : string) : bool := existsb (GoStrings.Contains (ToLower (TrimSpace key))) ["audio_base64"; "audio_bytes"; "cap_xml"].
(** A value at a depth, as the number of levels that are left of four. *)
Fixpoint sanitizedAuditValue (left : nat) (key : string) (value : any) : any :=
  if secret_key key then AString "[REDACTED]"
  else if bulky_key key then AString "[OMITTED BINARY OR CAP CONTENT]"
  else
    match left with
    | O => AString "[MAX DEPTH]"
    | S left' =>
        match value with
        | AMap typed => AMap (map_imap (fun key item => Some (sanitizedAuditValue left' key item)) typed)
        | AList typed => AList (map (sanitizedAuditValue left' key) (take 50 typed))
        | AStrings typed => AStrings (take 50 typed)
        | AString typed => if (512 <? String.length typed)%nat then AString (take_bytes 512 typed +:+ " [TRUNCATED]") else value
        | _ => value
        end
    end.
Definition sanitizedAuditMap (source : obj) : obj := map_imap (fun key item => Some (sanitizedAuditValue 4 key item)) source.

(** ** The gate *)

(** How the panel signs in: not at all, with the one operator's password, whose
    tokens [AdminTokens] decides on, or with accounts. *)
Inductive signInMode := MDisabled | MOperator (valid : bool) | MAccounts.
Definition AccountMode (mode : signInMode) : bool := match mode with MAccounts => true | _ => false end.
Definition the_operator : Identity :=
  MkIdentity
    (MkAccount "" (MkPolicy "admin" "" false true ["CIV"; "EAS"; "PEP"; "WXR"] [] false "" false false false 0 false false true [])
       "" zeroTime zeroTime false 0 false false zeroTime zeroTime "" "" 0 0 zeroTime)
    (MkSession "" "" "" "" "" false 0 zeroTime zeroTime zeroTime) false "".
Definition result_keys : list string :=
  ["header"; "queue_id"; "alert_id"; "feed_id"; "feeds_aired"; "feed_ids"; "scheduled"; "schedule_at"; "event_type"; "originator"; "sender_id"].

Section gate.
Context `{Env} `{Tools} `{AuditCodec} `{SecretTools} `{Paseto} `{Totp} `{Others} `{SameMapping} `{AlertArchive} (h : AuthSettings).
Context (security : obj) (baseDir : string) (mode : signInMode).
(** The commands that are not about accounts. *)
Context (executeOther : string -> obj -> M Gateway (result commandError Reply)).

Definition the_caller (request : option Request) : M Gateway (result AuthError Identity) :=
  match mode with
  | MDisabled => ret (Ok the_operator)
  | MOperator valid =>
      if valid then ret (Ok the_operator)
      else fail (MkAuthError "unauthorized" "Authentication is required." StatusUnauthorized)
  | MAccounts => Authenticate h request
  end.
Definition auditOrigination (caller : Identity) (command event : string) (payload : obj) (outcome : option obj) :
    M Gateway (option commandError) :=
  if negb (AccountMode mode) || negb (po_LoggingEnabled (ac_policy (id_Account caller))) then ret None
  else
    let text keys := AString (firstNonBlank (map (stringValue payload) keys)) in
    let upper keys := AString (ToUpper (firstNonBlank (map (stringValue payload) keys))) in
    let value key := default ANil (payload !! key) in
    let details : obj :=
      {["command" := AString command; "event_type" := upper ["same_event"; "event"; "event_code"];
        "originator" := upper ["originator"; "same_originator"]; "sender_id" := text ["sender_id"; "same_callsign"];
        "originator_name" := text ["originator_name"; "same_originator_name"]; "locations" := value "locations";
        "feed_id" := value "feed_id"; "feed_ids" := value "feed_ids"; "alert_id" := value "alert_id"]} in
    let outcome := default ∅ outcome in
    let told := base.filter (fun e => e.1 ∈ "error" :: result_keys) outcome in
    let session := id_Session caller in
    let! t := on_world now in
    let! err := audit h "alerts" (MkEvent t event (ac_ID (id_Account caller)) (ac_Username (id_Account caller)) (as_ID session)
                  (as_IP session) (as_UserAgent session) (auditSeverity event) (told ∪ details)) in
    ret (match err with Some e => Some (CText ("alert audit integrity failure: " +:+ e)) | None => None end).
Definition auditGenericWebpanelMutation (caller : Identity) (command phase : string) (payload : obj) : M Gateway (option commandError) :=
  let action := TrimSpace (stringValue payload "action") in
  let details : obj := {["command" := AString command; "payload" := AMap (sanitizedAuditMap payload)]} in
  auditWebpanel h caller ("WEBPANEL_MUTATION_" +:+ phase) (id_Account caller)
    (if action =? "" then details else <["action" := AString action]> details).

Definition executeCommand (request : option Request) (command : string) (payload : obj) : M Gateway (result commandError Reply) :=
  if accountCommandName command then
    if AccountMode mode then accountCommand h security request command payload
    else refuse "account management is unavailable in the current sign-in mode"
  else executeOther command payload.

(** The payload of a command that originates, as the policy leaves it. *)
Definition under_policy (caller : Identity) (command : string) (payload : obj) : M Gateway (result commandError obj) :=
  if negb (usesOriginationPolicy command payload) then ret (Ok payload)
  else
    step CAuth (fun payload =>
      step CAuth (fun _ => ret (match applyAccountOriginationPolicy payload caller with Ok out => Ok out | Err e => Err (CAuth e) end))
        (if AccountMode mode then AllowOrigination h caller else ret (Ok tt)))
      (on_world (prepareAccountOriginationPolicyPayload baseDir command payload)).
(** The records before, of which one that fails ends the command. *)
Definition recorded_first (caller : Identity) (command : string) (payload : obj) : M Gateway (option commandError) :=
  let! err :=
    if AccountMode mode && isOriginationExecution command payload
    then auditOrigination caller command "ALERT_ORIGINATION_REQUESTED" payload None else ret None in
  match err with
  | Some e => ret (Some e)
  | None =>
      if AccountMode mode && auditedWebpanelMutation command payload
      then auditGenericWebpanelMutation caller command "REQUESTED" payload else ret None
  end.
Definition recorded_failure (caller : Identity) (command : string) (payload : obj) (e : commandError) : M Gateway unit :=
  whenb (AccountMode mode && isOriginationExecution command payload)
    (let! _ := auditOrigination caller command "ALERT_ORIGINATION_FAILED" payload (Some {["error" := AString (commandError_text e)]}) in ret tt) ;;;
  whenb (AccountMode mode && auditedWebpanelMutation command payload)
    (let! _ := auditGenericWebpanelMutation caller command "FAILED" payload in ret tt).
Definition recorded_success (caller : Identity) (command : string) (payload : obj) (r : Reply) : M Gateway Reply :=
  let outcome := match r with RAny value => Some value | _ => None end in
  let! err :=
    if AccountMode mode && isOriginationExecution command payload
    then auditOrigination caller command "ALERT_ORIGINATION_ACCEPTED" payload outcome else ret None in
  match err with
  | Some _ => ret (RWarned r)
  | None =>
      let! err :=
        if AccountMode mode && auditedWebpanelMutation command payload
        then auditGenericWebpanelMutation caller command "COMPLETED" payload else ret None in
      ret (match err with Some _ => RWarned r | None => r end)
  end.
Definition password_change_required : AuthError :=
  MkAuthError "password_change_required" "Password change is required before using the panel." StatusForbidden.
Definition command_forbidden (command : string) : AuthError :=
  MkAuthError "command_forbidden" ("Account is not authorized for command " +:+ quoted command +:+ ".") StatusForbidden.
Definition admitted_command (caller : Identity) (command : string) (payload : obj) : result commandError unit :=
  if id_PasswordChangeRequired caller && negb (command =? "profile.password.change") && negb (command =? "profile.get")
  then Err (CAuth password_change_required)
  else if AccountMode mode && negb (ac_IsAdmin (id_Account caller)) && negb (nonAdminCommandAllowed command payload (id_Account caller))
  then Err (CAuth (command_forbidden command))
  else Ok tt.
(** What is left to do after the execution. *)
Definition concluded (caller : Identity) (command : string) (payload : obj) (done : result commandError Reply) :
    M Gateway (result commandError Reply) :=
  match done with
  | Err e => recorded_failure caller command payload e ;;; fail e
  | Ok r => let! r := recorded_success caller command payload r in ret (Ok r)
  end.
Definition handleCommand (request : option Request) (command : string) (payload : obj) : M Gateway (result commandError Reply) :=
  step CAuth (fun caller =>
    step id (fun _ =>
      step id (fun payload =>
        let! err := recorded_first caller command payload in
        match err with
        | Some e => fail e
        | None => let! done := executeCommand request command payload in concluded caller command payload done
        end)
        (under_policy caller command payload))
      (ret (admitted_command caller command payload)))
    (the_caller request).
End gate.
