(* ===== verification/OriginationSafety.v ===== *)
(** What the gate before the commands of the panel guarantees. *)

From stdpp Require Import stringmap.
From S2P Require Import Prelude UnicodeTables GoStrings SampleCodec GoTime GoValue GoPath GoCrypto GoNet AlertPacket.
From S2P Require Import PlaylistModel World Secrets AlertRequest AudioRetention PlannerState AlertCommit Wav AudioFiles AuditLog AuditLogSafety.
From S2P Require Import Accounts AccountsSafety Sessions GatewayRequest AccountAuth AccountAuthSafety CapModel CapSame SameRequest PanelPayload.
From S2P Require Import AccountCommands AccountCommandsSafety OriginationPolicy.

#[local] Open Scope Z_scope.
#[local] Open Scope string_scope.
#[local] Open Scope haze_scope.

(** ** What the policy leaves of a payload *)

Lemma stringValue_other k k' v m : k <> k' -> stringValue (<[k := v]> m) k' = stringValue m k'.
Proof. intros Hk. unfold stringValue. by rewrite lookup_insert_ne. Qed.
(** The keys that decide on what a command is. *)
Definition kind_key (key : string) : Prop := key = "kind" \/ key = "action".
Lemma with_event_kind e m key : kind_key key -> stringValue (with_event e m) key = stringValue m key.
Proof. intros [-> | ->]; unfold with_event; destruct (e =? ""); [done| |done|]; by rewrite !stringValue_other. Qed.
Lemma from_template_kind m key : kind_key key -> stringValue (from_template m) key = stringValue m key.
Proof.
  intros Hk. unfold from_template. destruct (m !! "template") as [[]|]; try done. cbn zeta.
  set (m1 := if TrimSpace (stringValue m "originator") =? "" then _ else m).
  assert (H1 : stringValue m1 key = stringValue m key).
  { unfold m1. destruct (_ =? ""); [|done]. destruct Hk as [-> | ->]; by rewrite stringValue_other. }
  destruct (TrimSpace (policy_event m1) =? ""); [by rewrite with_event_kind|done].
Qed.
Lemma attributed_kind caller m key : kind_key key -> stringValue (attributed caller m) key = stringValue m key.
Proof. intros [-> | ->]; unfold attributed; by rewrite !stringValue_other. Qed.

Definition same_kind (m m' : obj) : Prop := forall key, kind_key key -> stringValue m' key = stringValue m key.
Lemma same_kind_command command m m' : same_kind m m' -> isOriginationExecution command m' = isOriginationExecution command m.
Proof.
  intros Hk. unfold isOriginationExecution, archiveActionBroadcasts. rewrite (Hk "kind"), (Hk "action"); [done|by right|by left].
Qed.
Lemma same_kind_insert k v m : ~ kind_key k -> same_kind m (<[k := v]> m).
Proof. intros Hk key Hkey. apply stringValue_other. congruence. Qed.

Section policy.
Context `{Env} `{Tools} `{SameMapping} `{AlertArchive} (baseDir : string).

Lemma prepared_kind command m w out :
  (prepareAccountOriginationPolicyPayload baseDir command m w).1 = Ok out -> same_kind m out.
Proof.
  unfold prepareAccountOriginationPolicyPayload. cbn zeta.
  set (m1 := if command =? "same.test" then _ else _).
  assert (Hm1 : same_kind m m1).
  { intros key Hk. unfold m1. destruct (command =? "same.test"); [rewrite from_template_kind by done|]; by rewrite cloneMap_stringValue. }
  destruct (negb _); [by intros [= <-]|]. destruct (_ && _); [by intros [= <-]|].
  rewrite mbind_eq. cbn [gets fst snd]. destruct (findArchiveAlert _ _ _) as [alert|]; [|done]. rewrite mbind_eq. cbn [fst ret].
  intros [= <-]. intros key Hk. rewrite with_event_kind by done. rewrite <- (Hm1 key Hk).
  destruct Hk as [-> | ->]; by rewrite !stringValue_other.
Qed.
End policy.

(** What the policy of an account demands of a payload. *)
Record permitted (caller : Identity) (payload out : obj) : Prop := {
  pm_originator : In (stringValue out "originator") (po_AllowedOriginators (ac_policy (id_Account caller)));
  pm_same : stringValue out "same_originator" = stringValue out "originator";
  pm_event code : In code (po_BlockedEventCodes (ac_policy (id_Account caller))) ->
    let event := ToUpper (TrimSpace (policy_event payload)) in event <> "" -> EqualFold code event = false;
  pm_sender : po_ForceSenderID (ac_policy (id_Account caller)) = true ->
    out !! "sender_id" = Some (AString (po_SenderID (ac_policy (id_Account caller)))) /\
    out !! "same_callsign" = Some (AString (po_SenderID (ac_policy (id_Account caller))));
  pm_name : po_ForceOriginatorName (ac_policy (id_Account caller)) = true ->
    out !! "originator_name" = Some (AString (originator_name caller)) /\
    out !! "same_originator_name" = Some (AString (originator_name caller));
  pm_attributed : out !! "originated_by_user_id" = Some (AString (ac_ID (id_Account caller))) /\
    out !! "originated_by_username" = Some (AString (ac_Username (id_Account caller))) /\
    out !! "originated_by_session_id" = Some (AString (as_ID (id_Session caller))) /\
    out !! "originated_from_ip" = Some (AString (as_IP (id_Session caller)));
  pm_rest key : ~ In key ["originator"; "same_originator"; "sender_id"; "same_callsign"; "originator_name"; "same_originator_name";
      "originated_by_user_id"; "originated_by_username"; "originated_by_session_id"; "originated_from_ip"] ->
    out !! key = cloneMap payload !! key }.

Lemma policy_event_clone m : policy_event (cloneMap m) = policy_event m.
Proof. unfold policy_event. by rewrite !cloneMap_stringValue. Qed.
#[local] Ltac look := repeat (rewrite lookup_insert_eq || rewrite lookup_insert_ne by done).
Lemma policy_permitted payload caller out : applyAccountOriginationPolicy payload caller = Ok out -> permitted caller payload out.
Proof.
  unfold applyAccountOriginationPolicy. cbn zeta. rewrite policy_event_clone.
  destruct (mem _ _) eqn:Hm; [|done]. cbn [negb]. apply mem_spec in Hm.
  destruct (negb _ && _) eqn:Hblocked; [done|]. set (o := policy_originator (cloneMap payload)) in *.
  set (m1 := <["originator" := _]> _). set (m2 := if po_ForceSenderID _ then _ else m1).
  set (m3 := if po_ForceOriginatorName _ then _ else m2). intros <-%(inj Ok).
  assert (Ho : attributed caller m3 !! "originator" = Some (AString o)).
  { unfold attributed, m3, m2, m1. destruct (po_ForceOriginatorName _), (po_ForceSenderID _); by look. }
  assert (Hs : attributed caller m3 !! "same_originator" = Some (AString o)).
  { unfold attributed, m3, m2, m1. destruct (po_ForceOriginatorName _), (po_ForceSenderID _); by look. }
  split.
  - unfold stringValue. by rewrite Ho.
  - unfold stringValue. by rewrite Ho, Hs.
  - intros code Hcode event Hne. apply andb_false_iff in Hblocked as [Hb|Hb].
    + apply negb_false_iff, String.eqb_eq in Hb. done.
    + apply not_true_iff_false. intros E. apply not_true_iff_false in Hb. apply Hb, existsb_exists. by exists code.
  - intros Hf. unfold attributed, m3, m2. rewrite Hf. destruct (po_ForceOriginatorName _); by look.
  - intros Hf. unfold attributed, m3. rewrite Hf. by look.
  - unfold attributed. by look.
  - intros key Hkey. cbn [In] in Hkey. unfold attributed, m3, m2, m1.
    destruct (po_ForceOriginatorName _), (po_ForceSenderID _); rewrite !lookup_insert_ne by (intros <-; tauto); done.
Qed.
Lemma permitted_kind caller payload out : permitted caller payload out -> same_kind payload out.
Proof.
  intros Hp key Hk. unfold stringValue. rewrite (pm_rest _ _ _ Hp).
  - apply (cloneMap_stringValue payload key).
  - destruct Hk as [-> | ->]; cbn [In]; intuition discriminate.
Qed.

(** ** What is aired *)

Lemma stringPayload_text m k s : m !! k = Some (AString s) -> stringPayload m k "" = TrimSpace s.
Proof.
  intros E. unfold stringPayload, present. rewrite E. change (Sprint_payload (AString s)) with s. cbn zeta.
  destruct (String.eqb_spec (TrimSpace s) "") as [->|]; done.
Qed.
Lemma firstNonBlank_first x l : TrimSpace x = x -> x <> "" -> firstNonBlank (x :: l) = x.
Proof. intros Hx Hne. cbn [firstNonBlank]. unfold clean. rewrite Hx. by apply String.eqb_neq in Hne as ->. Qed.
Lemma code_text code : In code allowedOriginatorCodes ->
  TrimSpace code = code /\ ToUpper code = code /\ (code =? "") = false.
Proof. intros [<-|[<-|[<-|[<-|[]]]]]; by vm_compute. Qed.

(** The request of a payload that the policy passed, whatever it is made of. *)
Definition follows (caller : Identity) (request : panelSameRequest) : Prop :=
  let account := id_Account caller in
  let p := ac_policy account in
  In (sg_Originator request) (po_AllowedOriginators p) /\
  (po_ForceSenderID p = true -> TrimSpace (po_SenderID p) <> "" -> sg_Callsign request = TrimSpace (po_SenderID p)) /\
  (po_ForceOriginatorName p = true -> TrimSpace (originator_name caller) <> "" ->
   sg_OriginatorName request = TrimSpace (originator_name caller)) /\
  sg_OriginatedByUserID request = TrimSpace (ac_ID account) /\ sg_OriginatedByUser request = TrimSpace (ac_Username account) /\
  sg_OriginatedSession request = TrimSpace (as_ID (id_Session caller)) /\
  sg_OriginatedFromIP request = TrimSpace (as_IP (id_Session caller)).

Section follows.
Context (caller : Identity) (payload out : obj) (Hp : permitted caller payload out).
Context (Hcodes : Forall (fun code => In code allowedOriginatorCodes) (po_AllowedOriginators (ac_policy (id_Account caller)))).

Lemma permitted_originator : ToUpper (TrimSpace (stringPayload out "originator" "WXR")) = stringValue out "originator" /\
  ToUpper (stringPayload out "originator" "WXR") = stringValue out "originator".
Proof.
  pose proof (pm_originator _ _ _ Hp) as Ho. rewrite List.Forall_forall in Hcodes. destruct (code_text _ (Hcodes _ Ho)) as (Ht & Hu & Hne).
  revert Ht Hu Hne. unfold stringValue, stringPayload, present. destruct (out !! "originator") as [[]|]; try done.
  intros Ht Hu Hne. change (Sprint_payload (AString s)) with s. cbn zeta. by rewrite Ht, Hne, Ht, Hu.
Qed.
Lemma permitted_callsign l : po_ForceSenderID (ac_policy (id_Account caller)) = true ->
  TrimSpace (po_SenderID (ac_policy (id_Account caller))) <> "" ->
  firstNonBlank (stringPayload out "sender_id" "" :: l) = TrimSpace (po_SenderID (ac_policy (id_Account caller))).
Proof.
  intros Hf Hne. destruct (pm_sender _ _ _ Hp Hf) as [Hs _]. rewrite (stringPayload_text _ _ _ Hs).
  apply firstNonBlank_first; [apply TrimSpace_idem|done].
Qed.
Lemma permitted_name l : po_ForceOriginatorName (ac_policy (id_Account caller)) = true -> TrimSpace (originator_name caller) <> "" ->
  firstNonBlank (stringPayload out "originator_name" "" :: l) = TrimSpace (originator_name caller).
Proof.
  intros Hf Hne. destruct (pm_name _ _ _ Hp Hf) as [Hs _]. rewrite (stringPayload_text _ _ _ Hs).
  apply firstNonBlank_first; [apply TrimSpace_idem|done].
Qed.
Lemma permitted_attribution : attribution out =
  (TrimSpace (ac_ID (id_Account caller)), TrimSpace (ac_Username (id_Account caller)), TrimSpace (as_ID (id_Session caller)),
   TrimSpace (as_IP (id_Session caller))).
Proof.
  destruct (pm_attributed _ _ _ Hp) as (H1 & H2 & H3 & H4). unfold attribution.
  by rewrite (stringPayload_text _ _ _ H1), (stringPayload_text _ _ _ H2), (stringPayload_text _ _ _ H3), (stringPayload_text _ _ _ H4).
Qed.

Lemma request_follows event locations duration callsign tone :
  (po_ForceSenderID (ac_policy (id_Account caller)) = true -> TrimSpace (po_SenderID (ac_policy (id_Account caller))) <> "" ->
   callsign = TrimSpace (po_SenderID (ac_policy (id_Account caller)))) ->
  follows caller (request_of out event locations duration callsign tone).
Proof.
  intros Hcall. unfold follows, request_of. rewrite permitted_attribution. cbn zeta.
  cbn [sg_Originator sg_Callsign sg_OriginatorName sg_OriginatedByUserID sg_OriginatedByUser sg_OriginatedSession sg_OriginatedFromIP].
  destruct permitted_originator as [-> _]. split_and!; try done; [by apply (pm_originator _ _ _ Hp)|]. intros Hf Hne. by apply permitted_name.
Qed.
Context `{StationConfig}.
Lemma audio_request_follows command tested request : audio_request command tested out = Ok request -> follows caller request.
Proof.
  unfold audio_request. destruct (command =? "same.test").
  - assert (Htest : forall r, (let '(feedID, locations) := tested in match locations with
        | [] => Err "no configured feed locations are available for SAME test generation"
        | _ => let '(userID, user, session, ip) := attribution out in
            Ok (MkSameRequest (ToUpper (stringPayload out "originator" "WXR"))
                  (firstNonBlank [stringPayload out "originator_name" ""; stringPayload out "same_originator_name" ""])
                  (ToUpper (TrimSpace (stringPayload out "event_code" "RWT"))) (uniqueStrings locations) "0015"
                  (firstNonBlank [stringPayload out "sender_id" ""; sameCallsignFromConfig feedID]) "WXR" userID user session ip)
        end) = Ok r -> follows caller r).
    { intros r. destruct tested as [feedID [|x locations]]; [done|]. rewrite permitted_attribution. intros <-%(inj Ok).
      unfold follows. cbn zeta. cbn [sg_Originator sg_Callsign sg_OriginatorName sg_OriginatedByUserID sg_OriginatedByUser
        sg_OriginatedSession sg_OriginatedFromIP]. destruct permitted_originator as [_ ->].
      split_and!; try done; [by apply (pm_originator _ _ _ Hp)|apply permitted_callsign|apply permitted_name]. }
    destruct (out !! "template") as [[]|]; try exact (Htest request). unfold buildTemplateSameRequest. cbn zeta.
    destruct (_ =? ""); [done|]. set (locations := match templateLocationIDs _ with [] => _ | _ => _ end). destruct locations as [|l0 locations]; [done|]. intros <-%(inj Ok). apply request_follows. intros Hf Hne.
    rewrite (permitted_callsign _ Hf Hne). by apply String.eqb_neq in Hne as ->.
  - unfold buildSameRequest. cbn zeta. destruct (stringSlicePayload out "locations"); [done|]. intros <-%(inj Ok).
    apply request_follows. intros Hf Hne. by apply permitted_callsign.
Qed.
End follows.

Lemma aired_event `{StationConfig} caller payload out tested command request : permitted caller payload out ->
  audio_request command tested out = Ok request -> command <> "same.test" -> TrimSpace (stringValue payload "same_event") = "" ->
  TrimSpace (stringValue payload "event") <> "" -> sg_Event request = ToUpper (TrimSpace (policy_event payload)).
Proof.
  intros Hp Hreq Hne Hsame Hevent. apply String.eqb_neq in Hne. unfold audio_request, buildSameRequest in Hreq. rewrite Hne in Hreq.
  cbn zeta in Hreq. destruct (stringSlicePayload out "locations"); [done|]. injection Hreq as <-. unfold request_of.
  destruct (attribution out) as [[[? ?] ?] ?]. cbn [sg_Event].
  assert (He : out !! "event" = cloneMap payload !! "event") by (apply (pm_rest _ _ _ Hp); cbn [In]; intuition discriminate).
  rewrite <- (cloneMap_stringValue payload "event") in Hevent. unfold policy_event. cbn [firstNonBlank]. unfold clean. rewrite Hsame. cbn.
  rewrite <- (cloneMap_stringValue payload "event"). revert He Hevent. unfold stringValue.
  destruct (cloneMap payload !! "event") as [[]|]; try done. intros He Hevent. apply String.eqb_neq in Hevent. rewrite Hevent. cbn.
  unfold stringPayload, present. rewrite He. unfold Sprint_payload. cbn [GoValue.Sprint]. cbn zeta. by rewrite Hevent, !TrimSpace_idem.
Qed.

(** C16: what is made into SAME audio is what the account is permitted.  Of a payload
    that the policy passed, the request has an originator that the account is allowed;
    the account's sender and originator name when these are forced; and the caller's
    own account, session and address as its origin, whatever the payload said.  The
    event is none that the account is denied when the payload names it as the policy
    reads it, as [event] with no [same_event]. *)
Theorem policy_binds_request `{StationConfig} (caller : Identity) (payload out : obj) (command : string) (tested : string * list string)
    (request : panelSameRequest) :
  Forall (fun code => In code allowedOriginatorCodes) (po_AllowedOriginators (ac_policy (id_Account caller))) ->
  applyAccountOriginationPolicy payload caller = Ok out -> audio_request command tested out = Ok request ->
  follows caller request /\
  (command <> "same.test" -> TrimSpace (stringValue payload "same_event") = "" -> TrimSpace (stringValue payload "event") <> "" ->
   forall code, In code (po_BlockedEventCodes (ac_policy (id_Account caller))) -> sg_Event request <> "" ->
     EqualFold code (sg_Event request) = false).
Proof.
  intros Hcodes Hout%policy_permitted Hreq. split; [by eapply audio_request_follows|].
  intros Hc Hs He code Hcode Hne. rewrite (aired_event _ _ _ _ _ _ Hout Hreq Hc Hs He) in *. by apply (pm_event _ _ _ Hout).
Qed.

(** ** The gate *)

Section gate.
Context `{Env} `{Tools} `{AuditCodec} `{SecretTools} `{Paseto} `{Totp} `{Others} `{SameMapping} `{AlertArchive} (h : AuthSettings).
Context (security : obj) (baseDir : string).

Lemma origination_no_account command payload : isOriginationExecution command payload = true ->
  accountCommandName command = false /\ command <> "profile.password.change" /\ command <> "profile.get" /\
  usesOriginationPolicy command payload = true.
Proof.
  intros Ho. assert (Huse : usesOriginationPolicy command payload = true) by (unfold usesOriginationPolicy; by rewrite Ho).
  assert (Hin : In command ["same.test"; "same.air"; "alert.broadcast"; "playlist.insert"; "alerts.archive.action"]).
  { unfold isOriginationExecution in Ho. destruct (mem command _) eqn:Hm; [apply mem_spec in Hm; cbn [In] in *; tauto|].
    destruct (String.eqb_spec command "playlist.insert") as [->|_]; [cbn [In]; tauto|].
    destruct (String.eqb_spec command "alerts.archive.action") as [->|_]; [cbn [In]; tauto|done]. }
  clear Ho. split_and!; [| | |done]; destruct Hin as [<-|[<-|[<-|[<-|[<-|[]]]]]]; reflexivity || discriminate.
Qed.

Lemma under_policy_ok caller command payload g out : usesOriginationPolicy command payload = true ->
  (under_policy h baseDir MAccounts caller command payload g).1 = Ok out ->
  exists prepared g', (prepareAccountOriginationPolicyPayload baseDir command payload (the_world g)).1 = Ok prepared /\
    (AllowOrigination h caller g').1 = Ok tt /\ applyAccountOriginationPolicy prepared caller = Ok out.
Proof.
  intros Huse. unfold under_policy. rewrite Huse. cbn [negb AccountMode]. unfold step. rewrite mbind_eq, on_world_eq. cbn [fst snd].
  destruct (prepareAccountOriginationPolicyPayload _ _ _ _) as [[prepared|e] w']; cbn [fst snd]; [|done]. rewrite mbind_eq.
  set (g' := with_world _ g). destruct (AllowOrigination h caller g') as [[[]|e] g''] eqn:Ea; cbn [fst snd]; [|done].
  destruct (applyAccountOriginationPolicy prepared caller) as [o|e] eqn:Eo; [|done]. intros [= ->].
  exists prepared, g'. split_and!; [done|by rewrite Ea|done].
Qed.
Lemma AllowOrigination_policy caller g : (AllowOrigination h caller g).1 = Ok tt -> po_AllowOrigination (ac_policy (id_Account caller)) = true.
Proof. unfold AllowOrigination. by destruct (po_AllowOrigination _). Qed.
End gate.

Section recorded.
Context `{Env} `{Tools} `{AuditCodecOk} `{SecretTools} `{Paseto} `{Totp} `{Others} (h : AuthSettings) (Hdir : se_auditDir h <> "").

(** The log of a caller holds a record of this kind at its end. *)
Definition alert_recorded (caller : Identity) (event : string) (lg : contents) (w : World) : Prop :=
  exists record t p, ev_Event record = event /\ ev_ActorID record = ac_ID (id_Account caller) /\
    ev_SessionID record = as_ID (id_Session caller) /\ ev_IP record = as_IP (id_Session caller) /\
    event_Marshal (audit_event record t) = Some p /\
    Rep (se_auditDir h) (se_auditKey h) (files w) (add_payload "alerts" (audit_username record) p lg).
Lemma auditOrigination_records caller command event payload outcome g (lg : contents) :
  po_LoggingEnabled (ac_policy (id_Account caller)) = true ->
  Rep (se_auditDir h) (se_auditKey h) (files (the_world g)) lg ->
  (forall u, Z.of_nat (S (length (default [] (lg "alerts" !! u)))) < 2 ^ 64) ->
  (auditOrigination h MAccounts caller command event payload outcome g).1 = None ->
  alert_recorded caller event lg (the_world (auditOrigination h MAccounts caller command event payload outcome g).2).
Proof.
  intros Hlog Hrep Hsize. unfold auditOrigination. rewrite Hlog. cbn [AccountMode negb orb]. cbn zeta. rewrite mbind_eq, on_world_eq. cbn [fst snd].
  set (record := MkEvent _ _ _ _ _ _ _ _ _). set (g1 := with_world _ g). rewrite mbind_eq. unfold audit. rewrite on_world_eq. cbn [fst snd ret].
  destruct (Append (se_auditDir h) (se_auditKey h) "alerts" record (the_world g1)) as [[e|] w] eqn:E; [done|]. intros _. cbn [snd].
  destruct (Append_records (se_auditDir h) (se_auditKey h) Hdir "alerts" record (the_world g1) lg) as (t & p & Hp & _ & Hr).
  - destruct g. done.
  - apply Hsize.
  - by rewrite E.
  - rewrite E in Hr. exists record, t, p. split_and!; try done. by destruct g.
Qed.
End recorded.

Lemma handle_steps `{Env} `{Tools} `{AuditCodec} `{SecretTools} `{Paseto} `{Totp} `{Others} `{SameMapping} `{AlertArchive}
    h security baseDir execute request command payload g :
  handleCommand h security baseDir MAccounts execute request command payload g =
  match Authenticate h request g with
  | (Err e, g1) => (Err (CAuth e), g1)
  | (Ok caller, g1) =>
      match admitted_command MAccounts caller command payload with
      | Err e => (Err e, g1)
      | Ok _ =>
          match under_policy h baseDir MAccounts caller command payload g1 with
          | (Err e, g2) => (Err e, g2)
          | (Ok out, g2) =>
              match recorded_first h MAccounts caller command out g2 with
              | (Some e, g3) => (Err e, g3)
              | (None, g3) =>
                  (let! done := executeCommand h security MAccounts execute request command out in
                   concluded h MAccounts caller command out done) g3
              end
          end
      end
  end.
Proof.
  unfold handleCommand, step. rewrite mbind_eq. cbn [the_caller].
  destruct (Authenticate h request g) as [[caller|e] g1]; cbn [fst snd]; [|done]. rewrite mbind_eq. cbn [fst snd ret].
  destruct (admitted_command MAccounts caller command payload) as [[]|e]; [|done]. rewrite mbind_eq.
  destruct (under_policy h baseDir MAccounts caller command payload g1) as [[out|e] g2]; cbn [fst snd]; [|done]. rewrite mbind_eq.
  by destruct (recorded_first h MAccounts caller command out g2) as [[e|] g3].
Qed.


(** ** A station and its operator *)

#[export] Instance sample_AlertArchive : AlertArchive | 1000 := {| findArchiveAlert _ _ _ := None |}.
#[export] Instance sample_StationConfig : StationConfig | 1000 := {|
  expandSameLocationsForFeeds _ locations := locations; sameCallsignFromConfig _ := "HAZE" |}.

(** Bob may originate as WXR with his sender, and no tornado warnings. *)
Definition bob_policy : accountPolicy :=
  MkPolicy "bob" "KXYZ/NWS" true true ["WXR"] ["TOR"] false "" false false false 90 true true false [].
Definition bob : Account :=
  MkAccount "" bob_policy "" zeroTime zeroTime false 0 false false zeroTime zeroTime "" "" 0 0 zeroTime.
Definition station : Gateway :=
  MkGateway (perform_all false [OCreate (demo_account "root" true) "h1"; OCreate bob demo_hash] demo_empty).2 ∅ ∅ ∅ ∅ ∅ ∅.
Definition bob_login : result LoginStop LoginResult * Gateway :=
  Login demo_settings (MkLoginInput "bob" "correct horse battery" "" false (Some (https ∅))) station.
Definition bob_token : string := lr_Token (value_or no_result bob_login.1).
Definition bob_request : Request := MkRequest "192.0.2.7:50002" true ∅ [(sessionCookieName, bob_token)].
Definition bob_caller : Identity := value_or demo_caller (Authenticate demo_settings (Some bob_request) bob_login.2).1.
(** What is aired: the originator, the event and the callsign. *)
Definition air (command : string) (payload : obj) : M Gateway (result commandError Reply) :=
  match audio_request command ("", []) payload with
  | Ok r => ret (Ok (RAny {["originator" := AString (sg_Originator r); "event" := AString (sg_Event r); "callsign" := AString (sg_Callsign r)]}))
  | Err e => refuse e
  end.
Definition bob_asks (payload : obj) : result commandError Reply :=
  (handleCommand demo_settings ∅ "/srv" MAccounts air (Some bob_request) "same.air" payload bob_login.2).1.
Definition aired (originator event callsign : string) : result commandError Reply :=
  Ok (RAny {["originator" := AString originator; "event" := AString event; "callsign" := AString callsign]}).
Definition asked_for (event : string) : obj :=
  {["originator" := AString "WXR"; "event" := AString event; "locations" := AList [AString "048201"]; "sender_id" := AString "SPOOFED!"]}.
Example bob_airs : bob_asks (asked_for "RWT") = aired "WXR" "RWT" "KXYZ/NWS".
Proof. vm_compute. reflexivity. Qed.
Example bob_denied : bob_asks (asked_for "TOR") =
  Err (CAuth (MkAuthError "event_code_forbidden" "SAME event code TOR is blocked for this account." StatusForbidden)).
Proof. vm_compute. reflexivity. Qed.
(** The policy reads [same_event] first, and the request for audio [event] only. *)
Example blocked_event_aired : bob_asks (<["same_event" := AString "RWT"]> (asked_for "TOR")) = aired "WXR" "TOR" "KXYZ/NWS".
Proof. vm_compute. reflexivity. Qed.

Definition bob_out : obj := value_or ∅ (applyAccountOriginationPolicy (asked_for "RWT") bob_caller).
Definition bob_made : panelSameRequest :=
  value_or (MkSameRequest "" "" "" [] "" "" "" "" "" "" "") (audio_request "same.air" ("", []) bob_out).
Lemma bob_made_ok : Forall (fun code => In code allowedOriginatorCodes) (po_AllowedOriginators (ac_policy (id_Account bob_caller))) /\
  applyAccountOriginationPolicy (asked_for "RWT") bob_caller = Ok bob_out /\ audio_request "same.air" ("", []) bob_out = Ok bob_made.
Proof.
  split_and!; [|apply value_or_ok; vm_compute; reflexivity..].
  replace (po_AllowedOriginators (ac_policy (id_Account bob_caller))) with ["WXR"] by (vm_compute; reflexivity).
  apply List.Forall_forall. intros code [<-|[]]. by right; right; right; left.
Qed.
Lemma policy_binds_request_witness : follows bob_caller bob_made.
Proof.
  destruct bob_made_ok as (Hcodes & Hout & Hmade).
  exact (proj1 (policy_binds_request bob_caller (asked_for "RWT") bob_out "same.air" ("", []) bob_made Hcodes Hout Hmade)).
Defined.
