(* ===== verification/Lead.v ===== *)
(** Alert lead-in and lead-out audio ([internal/lead/lead.go]): the statements of
    [lead.xml], their validation, the choice of a statement for an alert, and
    the audio paths they may name.

    The regular expressions of the Go library and the XML codec are interfaces. *)

From stdpp Require Import sorting.
From S2P Require Import Prelude UnicodeTables GoStrings GoTime GoValue GoPath AlertPacket.
From S2P Require Import PlaylistModel World AlertRequest AudioRetention PlannerState AlertCommit Wav.
From S2P Require Import AudioFiles.

#[local] Open Scope Z_scope.
#[local] Open Scope string_scope.
#[local] Open Scope haze_scope.

Definition maxStatements : nat := 100.
Definition maxConditions : nat := 32.
Definition maxStatementNameRunes : Z := 120.
Definition maxConditionValueRunes : Z := 256.

(** ** Documents *)

Record Condition := MkCondition {
  cond_Type : string; Key : string; cond_Location : string; Equals : string; Includes : string;
  StartsWith : string; EndsWith : string; MatchCase : bool; MatchWhole : bool; UseRegex : bool }.

Record Statement := MkStatement {
  Enabled : bool; st_Name : string; Conditions : list Condition; LeadIn : string; LeadOut : string }.

Record Document := MkDocument { Statements : list Statement }.

(** The facts of an alert: a map of fields, and its locations. *)
Record AlertContext := MkContext { Values : list (string * list string); ctx_Locations : list string }.

(** The shape of the XML. *)
Record conditionXML := MkConditionXML {
  x_Local : string; x_Key : string; x_Location : string; x_Equals : string; x_Includes : string;
  x_StartsWith : string; x_EndsWith : string; x_MatchCase : string; x_MatchWhole : string;
  x_UseRegex : string }.
Record statementXML := MkStatementXML {
  x_Enabled : string; x_Name : string; x_Nodes : list conditionXML; x_LeadIn : string; x_LeadOut : string }.
Abbreviation documentXML := (list statementXML).

Class Codecs := {
  (* regexp.Compile and MatchString *)
  regexp_Compile : string -> option (string -> bool);
  (* encoding/xml on the document's shape *)
  xml_Unmarshal : string -> result string documentXML;
  xml_MarshalIndent : documentXML -> result string string;
  EvalSymlinks : string -> option string }.

(** The errors, by the branch that returns them. *)
Inductive conditionError :=
| HasMatchAttributes (ty : string) | UnknownType | NeedsOneTarget | TargetTooLong
| ValueTooLong (name : string) | NeedsOneOperator | InvalidRegexp | TypeRequired
| NotABoolean (attribute : string).
Inductive pathError := NotRelative | NotUnderAudio | Unsupported (extension : string)
| LeavesAudio | SymlinkLeavesAudio.
Inductive leadError :=
| ParseXML (e : string) | TooManyStatements | NameRequired (index : nat) | NameTooLong (name : string)
| NameDuplicated (name : string) | InLeadIn (name : string) (e : pathError)
| InLeadOut (name : string) (e : pathError) | NeedsAudio (name : string)
| TooManyConditions (name : string) | InCondition (name : string) (index : nat) (e : conditionError)
| InEnabled (index : nat) | InNode (index node : nat) (e : conditionError) | ReadFailed (e : string)
| MarshalFailed (e : string).

(** ** Audio paths *)

Definition SupportedAudioExtensions : list string :=
  [".aac"; ".flac"; ".m4a"; ".mp3"; ".ogg"; ".opus"; ".pcm16le"; ".s16le"; ".wav"].
Definition supportedAudioExtension (extension : string) : bool := mem extension SupportedAudioExtensions.

Definition backslash : Ascii.ascii := "\"%char.
Definition contains_byte (a : Ascii.ascii) (s : string) : bool := existsb (Ascii.eqb a) (bytes_of s).

Definition NormalizeAudioPath (raw : string) : result pathError string :=
  let value := TrimSpace (ReplaceByte backslash slash raw) in
  if value =? "" then Ok ""
  else if contains_byte zero_byte value || HasPrefix value "/" || contains_byte ":"%char value
  then Err NotRelative
  else
    let clean := Clean value in
    if (clean =? ".") || (clean =? "..") || HasPrefix clean "../" || (clean =? "audio") ||
       negb (HasPrefix clean "audio/")
    then Err NotUnderAudio
    else
      let extension := ToLower (Ext clean) in
      if negb (supportedAudioExtension extension) then Err (Unsupported extension) else Ok clean.

Section lead.
Context `{Env} `{Tools} `{Codecs}.

Definition pathInside (root target : string) : bool :=
  let root := Abs cwd (Clean root) in
  let target := Abs cwd (Clean target) in
  match Rel root target with
  | Some relative => negb (relative =? ".") && negb (relative =? "..") && negb (HasPrefix relative "../")
  | None => false
  end.

Definition ResolveAudioPath (baseDir raw : string) : result pathError string :=
  match NormalizeAudioPath raw with
  | Err e => Err e
  | Ok relative =>
      if relative =? "" then Ok ""
      else
        let root := Abs cwd (Clean baseDir) in
        let audioRoot := JoinPath [root; "audio"] in
        let target := JoinPath [root; relative] in
        if negb (pathInside audioRoot target) then Err LeavesAudio
        else match EvalSymlinks target with
             | Some resolved =>
                 if negb (pathInside audioRoot resolved) then Err SymlinkLeavesAudio else Ok target
             | None => Ok target
             end
  end.

(** ** Conditions *)

Definition operators (c : Condition) : list (string * string) :=
  [("equals", Equals c); ("includes", Includes c); ("startswith", StartsWith c); ("endswith", EndsWith c)].
Definition conditionOperator (c : Condition) : string * string :=
  match List.find (fun item => negb (item.2 =? "")) (operators c) with
  | Some item => item
  | None => ("", "")
  end.

(** The pattern a condition compiles. *)
Definition pattern_of (c : Condition) (operator expected : string) : string :=
  if operator =? "startswith" then "^(?:" +:+ expected +:+ ")"
  else if operator =? "endswith" then "(?:" +:+ expected +:+ ")$"
  else if operator =? "equals" then "^(?:" +:+ expected +:+ ")$"
  else if (operator =? "includes") && MatchWhole c then "^(?:" +:+ expected +:+ ")$"
  else expected.

Definition matchesText (c : Condition) (raw : string) : bool :=
  let value := TrimSpace raw in
  let '(operator, expected) := conditionOperator c in
  let value := if MatchCase c then value else ToLower value in
  let expected := if MatchCase c then expected else ToLower expected in
  if UseRegex c then
    match regexp_Compile (pattern_of c operator expected) with
    | Some match_string => match_string value
    | None => false
    end
  else if operator =? "equals" then value =? expected
  else if operator =? "includes" then Contains value expected
  else if operator =? "startswith" then HasPrefix value expected
  else if operator =? "endswith" then HasSuffix value expected
  else false.

(** [Condition.Matches]. *)
Definition condition_values (c : Condition) (context : AlertContext) : list string :=
  if negb (cond_Location c =? "") then ctx_Locations context
  else
    let wantedKey := ToLower (TrimSpace (Key c)) in
    flat_map (fun kv => if EqualFold (TrimSpace kv.1) wantedKey then kv.2 else []) (Values context).
Definition condition_Matches (c : Condition) (context : AlertContext) : bool :=
  existsb (matchesText c) (condition_values c context).

(** [Statement.Matches]: the loop over the tokens. *)
Record matchState := MkMatch { seenExpression : bool; matched : bool; pendingOperator : string }.
Definition match_step (context : AlertContext) (s : matchState) (c : Condition) : matchState :=
  if mem (cond_Type c) ["and"; "or"] then MkMatch (seenExpression s) (matched s) (cond_Type c)
  else if cond_Type c =? "if" then
    let value := condition_Matches c context in
    if negb (seenExpression s) then MkMatch true value "and"
    else if pendingOperator s =? "or" then MkMatch true (matched s || value) "and"
    else MkMatch true (matched s && value) "and"
  else s.
Definition Matches (st : Statement) (context : AlertContext) : bool :=
  if (length (Conditions st) =? 0)%nat then true
  else
    let s := fold_left (match_step context) (Conditions st) (MkMatch false false "and") in
    seenExpression s && matched s.

Definition Select (d : Document) (context : AlertContext) : option Statement :=
  List.find (fun st => Enabled st && Matches st context) (Statements d).

(** ** Validation *)

Definition no_condition (ty : string) : Condition := MkCondition ty "" "" "" "" "" "" false false false.

Definition with_values (c : Condition) (ty key location eq inc sw ew : string) : Condition :=
  MkCondition ty key location eq inc sw ew (MatchCase c) (MatchWhole c) (UseRegex c).

Definition lead_firstNonBlank (values : list string) : string :=
  default "" (List.find (fun v => negb (v =? "")) (map TrimSpace values)).

(** The first operator whose value is too long. *)
Definition long_value (values : list (string * string)) : option string :=
  fst <$> List.find (fun item => (maxConditionValueRunes <? RuneCountInString item.2)%Z) values.

Definition normalizeCondition (source : Condition) : result conditionError Condition :=
  let ty := ToLower (TrimSpace (cond_Type source)) in
  if mem ty ["and"; "or"] then
    if negb (Key source =? "") || negb (cond_Location source =? "") || negb (Equals source =? "") ||
       negb (Includes source =? "") || negb (StartsWith source =? "") || negb (EndsWith source =? "") ||
       MatchCase source || MatchWhole source || UseRegex source
    then Err (HasMatchAttributes ty)
    else Ok (no_condition ty)
  else if negb (ty =? "if") then Err UnknownType
  else
    let key := TrimSpace (Key source) in
    let location := TrimSpace (cond_Location source) in
    if Bool.eqb (key =? "") (location =? "") then Err NeedsOneTarget
    else if (maxConditionValueRunes <? RuneCountInString (lead_firstNonBlank [key; location]))%Z
    then Err TargetTooLong
    else
      let condition := with_values source ty key location (TrimSpace (Equals source))
        (TrimSpace (Includes source)) (TrimSpace (StartsWith source)) (TrimSpace (EndsWith source)) in
      match long_value (operators condition) with
      | Some name => Err (ValueTooLong name)
      | None =>
          if negb (length (List.filter (fun item => negb (item.2 =? "")%string) (operators condition)) =? 1)%nat
          then Err NeedsOneOperator
          else if UseRegex condition then
            match regexp_Compile (conditionOperator condition).2 with
            | Some _ => Ok condition
            | None => Err InvalidRegexp
            end
          else Ok condition
      end.

(** A loop that stops at the first error, with the index of the entry. *)
Fixpoint traverse {E A B} (f : nat -> A -> result E B) (index : nat) (l : list A) : result E (list B) :=
  match l with
  | [] => Ok []
  | a :: l' =>
      let? b := f index a in
      let? bs := traverse f (S index) l' in
      Ok (b :: bs)
  end.

Definition normalizeStatement (seenNames : gset string) (index : nat) (source : Statement) :
    result leadError Statement :=
  let name := TrimSpace (st_Name source) in
  if name =? "" then Err (NameRequired (S index))
  else if (maxStatementNameRunes <? RuneCountInString name)%Z then Err (NameTooLong name)
  else if decide (ToLower name ∈ seenNames) then Err (NameDuplicated name)
  else
    let? leadIn := wrap_err (InLeadIn name) (NormalizeAudioPath (LeadIn source)) in
    let? leadOut := wrap_err (InLeadOut name) (NormalizeAudioPath (LeadOut source)) in
    if Enabled source && (leadIn =? "") && (leadOut =? "") then Err (NeedsAudio name)
    else if (maxConditions <? length (Conditions source))%nat then Err (TooManyConditions name)
    else
      let? conditions := traverse (fun i c => wrap_err (InCondition name (S i)) (normalizeCondition c)) 0
        (Conditions source) in
      Ok (MkStatement (Enabled source) name conditions leadIn leadOut).

Fixpoint normalizeStatements (seenNames : gset string) (index : nat) (l : list Statement) :
    result leadError (list Statement) :=
  match l with
  | [] => Ok []
  | source :: l' =>
      let? statement := normalizeStatement seenNames index source in
      let? rest := normalizeStatements ({[ToLower (st_Name statement)]} ∪ seenNames) (S index) l' in
      Ok (statement :: rest)
  end.

Definition Normalize (d : Document) : result leadError Document :=
  if (maxStatements <? length (Statements d))%nat then Err TooManyStatements
  else rmap MkDocument (normalizeStatements ∅ 0 (Statements d)).

(** ** XML *)

Definition boolAttribute (raw : string) (fallback : bool) : option bool :=
  let value := TrimSpace raw in
  if value =? "" then Some fallback
  else if mem (ToLower value) ["1"; "true"; "yes"; "on"] then Some true
  else if mem (ToLower value) ["0"; "false"; "no"; "off"] then Some false
  else None.

Definition conditionFromXML (source : conditionXML) : result conditionError Condition :=
  let typeName := ToLower (TrimSpace (x_Local source)) in
  if typeName =? "" then Err TypeRequired
  else
    match boolAttribute (x_MatchCase source) false, boolAttribute (x_MatchWhole source) false,
          boolAttribute (x_UseRegex source) false with
    | None, _, _ => Err (NotABoolean "matchcase")
    | _, None, _ => Err (NotABoolean "matchwhole")
    | _, _, None => Err (NotABoolean "useregex")
    | Some matchCase, Some matchWhole, Some useRegex =>
        Ok (MkCondition typeName (x_Key source) (x_Location source) (x_Equals source) (x_Includes source)
              (x_StartsWith source) (x_EndsWith source) matchCase matchWhole useRegex)
    end.

Definition conditionToXML (c : Condition) : conditionXML :=
  MkConditionXML (cond_Type c) (Key c) (cond_Location c) (Equals c) (Includes c) (StartsWith c)
    (EndsWith c) (Sprint_bool (MatchCase c)) (Sprint_bool (MatchWhole c)) (Sprint_bool (UseRegex c)).

Definition statementFromXML (index : nat) (item : statementXML) : result leadError Statement :=
  match boolAttribute (x_Enabled item) true with
  | None => Err (InEnabled (S index))
  | Some enabled =>
      let? conditions := traverse
        (fun i node => wrap_err (InNode (S index) (S i)) (conditionFromXML node)) 0 (x_Nodes item) in
      Ok (MkStatement enabled (x_Name item) conditions (x_LeadIn item) (x_LeadOut item))
  end.
Definition statementToXML (st : Statement) : statementXML :=
  MkStatementXML (Sprint_bool (Enabled st)) (st_Name st) (map conditionToXML (Conditions st))
    (LeadIn st) (LeadOut st).

Definition Parse (raw : string) : result leadError Document :=
  let? parsed := wrap_err ParseXML (xml_Unmarshal raw) in
  let? statements := traverse statementFromXML 0 parsed in
  Normalize (MkDocument statements).

Definition newline : string := String (Ascii.ascii_of_nat 10) "".
Definition dquote : string := String (Ascii.ascii_of_nat 34) "".
Definition xml_Header : string :=
  "<?xml version=" +:+ dquote +:+ "1.0" +:+ dquote +:+ " encoding=" +:+ dquote +:+ "UTF-8" +:+ dquote +:+
  "?>" +:+ newline.
Definition lead_comment : string :=
  "<!-- Alert lead-in and lead-out statements. The first matching enabled lead is used. -->" +:+ newline.
(** What [Encode] puts around the marshalled document. *)
Definition lead_file (raw : string) : string := xml_Header +:+ lead_comment +:+ raw +:+ newline.

Definition Encode (d : Document) : result leadError string :=
  let? normalized := Normalize d in
  rmap lead_file (wrap_err MarshalFailed (xml_MarshalIndent (map statementToXML (Statements normalized)))).

Definition CompactXML (d : Document) : result leadError string := rmap TrimSpace (Encode d).

Definition Load (filename : string) : M World (result leadError Document) :=
  let! err := attempt in
  match err with
  | Some e => ret (Err (ReadFailed e))
  | None => gets (fun w =>
      match files w !! Clean filename with
      | None => Ok (MkDocument [])
      | Some f => Parse (string_of (content_of f))
      end)
  end.

(** ** For pickers *)

Definition path_le (a b : string) : Prop := String.leb a b = true.
#[local] Instance path_le_dec : RelDecision path_le.
Proof. intros a b. unfold path_le. apply _. Defined.

Definition SortedAudioPaths (paths : list string) : list string :=
  merge_sort path_le
    (elements (list_to_set (C := gset string) (omap (fun raw =>
      match NormalizeAudioPath raw with
      | Ok normalized => if normalized =? "" then None else Some normalized
      | Err _ => None
      end) paths))).
End lead.

(** ** Facts: paths below a directory *)

Section below.
Context `{Env} (Hcwd : IsAbs cwd = true).

Lemma Abs_clean path : IsAbs (Abs cwd path) = true /\ Clean (Abs cwd path) = Abs cwd path.
Proof using Hcwd.
  unfold Abs. destruct (IsAbs path) eqn:E; [by rewrite IsAbs_Clean, Clean_idem|].
  assert (Hne : cwd <> "") by (intros Ec; by rewrite Ec in Hcwd).
  unfold JoinPath. rewrite filter_cons_True by done. destruct (decide (path = "")) as [->|Hp].
  - rewrite filter_cons_False by tauto. cbn [Join]. by rewrite IsAbs_Clean, Clean_idem.
  - rewrite filter_cons_True by done. rewrite Clean_idem, IsAbs_Clean. split; [|done].
    change (Join (cwd :: path :: base.filter (fun e => e <> "") []) "/") with (cwd +:+ "/" +:+ path).
    by rewrite IsAbs_app.
Qed.

Lemma absolute_no_dots path : IsAbs path = true -> no_dots (components (Clean path)).
Proof using.
  intros Habs. destruct (decide (resolved path = [])) as [E|Hne].
  { unfold Clean. rewrite E, Habs. constructor. }
  rewrite components_Clean by done. destruct (resolved_climbs path) as (k & down & Er & Hd & Hk).
  rewrite (Hk Habs) in Er. cbn in Er. pose proof (resolved_plain path) as Hp. rewrite Er in Hp |- *.
  apply List.Forall_forall. rewrite List.Forall_forall in Hp. intros c Hin.
  split; [by apply Hp|]. by intros ->.
Qed.

(** An absolute clean path is its components. *)
Lemma absolute_components path : IsAbs path = true -> Clean path = "/" +:+ Join (components (Clean path)) "/".
Proof using.
  intros Habs. destruct (decide (resolved path = [])) as [E|Hne].
  { unfold Clean. by rewrite E, Habs. }
  rewrite components_Clean by done. unfold Clean. by rewrite Habs.
Qed.

Lemma JoinPath_below root relative : IsAbs root = true -> Clean root = root ->
  relative <> "" -> no_dots (components relative) ->
  Clean (JoinPath [root; relative]) = JoinPath [root; relative] /\
  IsAbs (JoinPath [root; relative]) = true /\
  components (JoinPath [root; relative]) = (components root ++ components relative)%list.
Proof using.
  intros Habs Hclean Hne Hd. assert (root <> "") as Hr by by intros ->.
  unfold JoinPath. rewrite !filter_cons_True by done.
  change (Join (root :: relative :: base.filter (fun e => e <> "") []) "/") with (root +:+ "/" +:+ relative).
  rewrite Clean_idem, IsAbs_Clean, IsAbs_app by done. split_and!; [done|done|].
  assert (Er : resolved (root +:+ "/" +:+ relative) = (components root ++ components relative)%list).
  { unfold resolved. rewrite IsAbs_app, components_app_slash by done.
    rewrite resolve_app_no_dots, resolve_no_dots; [done| |done].
    rewrite <- Hclean. by apply absolute_no_dots. }
  destruct (decide (resolved (root +:+ "/" +:+ relative) = [])) as [E|Hn].
  - rewrite <- Er, E. unfold Clean. rewrite E, IsAbs_app by done. by rewrite Habs.
  - by rewrite components_Clean.
Qed.

Lemma pathInside_below root target : pathInside root target = true ->
  exists rest, rest <> [] /\
    components (Abs cwd (Clean target)) = (components (Abs cwd (Clean root)) ++ rest)%list.
Proof using Hcwd.
  unfold pathInside. cbv zeta. destruct (Rel _ _) as [relative|] eqn:Er; [|done].
  rewrite !andb_true_iff, !negb_true_iff. intros [[Hdot Hup] Hup'].
  destruct (Abs_clean (Clean root)) as [Hr1 Hr2]. destruct (Abs_clean (Clean target)) as [Ht1 Ht2].
  destruct (Rel_below _ _ _ Er) as [rest Hrest]; [by rewrite Hr2|by rewrite Hup|].
  rewrite Hr2, Ht2 in Hrest. exists rest. split; [|done]. intros ->. rewrite app_nil_r in Hrest.
  assert (E : Abs cwd (Clean target) = Abs cwd (Clean root)).
  { rewrite <- Ht2, (absolute_components _ Ht1), Ht2, Hrest, <- Hr2 at 1.
    rewrite <- (absolute_components _ Hr1). done. }
  unfold Rel in Er. rewrite E, String.eqb_refl in Er. injection Er as <-. done.
Qed.
End below.

(** ** Facts: bytes of normalised paths *)

Lemma ReplaceByte_no a b s : a <> b -> ~ In a (bytes_of (ReplaceByte a b s)).
Proof.
  intros Hab. induction s as [|c s IH]; simpl; [tauto|]. intros [E|Hin]; [|by apply IH].
  destruct (Ascii.eqb_spec c a); congruence.
Qed.

Lemma ReplaceByte_id a b s : ~ In a (bytes_of s) -> ReplaceByte a b s = s.
Proof.
  induction s as [|c s IH]; simpl; [done|]. intros Hn.
  destruct (Ascii.eqb_spec c a); [tauto|]. by rewrite IH by tauto.
Qed.

Lemma TrimSpace_bytes a s : In a (bytes_of (TrimSpace s)) -> In a (bytes_of s).
Proof.
  with_strategy transparent [TrimSpace] unfold TrimSpace. rewrite bytes_of_string_of.
  unfold trim_right. destruct (strip_suffix space2 space3 (bytes_of s)) as [p Hp].
  change (strip_with space2 space3 (bytes_of s)) with (trim_left (bytes_of s)) in Hp.
  set (l := trim_left (bytes_of s)) in *. rewrite Hp, in_app_iff, <- in_rev. intros Hin. right.
  destruct (strip_suffix (fun a b => space2 b a) (fun a b c => space3 c b a) (rev l)) as [q Hq].
  apply in_rev. rewrite Hq, in_app_iff. by right.
Qed.

Lemma Split_bytes sep s c a : In c (Split sep s) -> In a (bytes_of c) -> In a (bytes_of s).
Proof.
  revert c. induction s as [|x s IH]; simpl; intros c.
  { intros [<-|[]]. done. }
  destruct (Ascii.eqb x sep).
  - intros [<-|Hin]; [done|]. intros Ha. right. eauto.
  - pose proof (Split_nonempty sep s). destruct (Split sep s) as [|p ps]; [done|].
    intros [<-|Hin]; simpl.
    + intros [->|Ha]; [by left|]. right. eapply IH; [by left|done].
    + intros Ha. right. eapply IH; [by right|done].
Qed.

Lemma Join_bytes l sep a : In a (bytes_of (Join l sep)) ->
  In a (bytes_of sep) \/ exists c, In c l /\ In a (bytes_of c).
Proof.
  induction l as [|c l IH]; [done|]. destruct l as [|c' l].
  - intros Ha. right. exists c. split; [by left|done].
  - change (Join (c :: c' :: l) sep) with (c +:+ sep +:+ Join (c' :: l) sep).
    rewrite !bytes_of_app, !in_app_iff. intros [Ha|[Ha|Ha]].
    + right. exists c. split; [by left|done].
    + by left.
    + destruct (IH Ha) as [?|(d & Hd & ?)]; [by left|]. right. exists d. split; [by right|done].
Qed.

Lemma Clean_bytes a path : In a (bytes_of (Clean path)) ->
  a = "/"%char \/ a = "."%char \/ In a (bytes_of path).
Proof.
  assert (Hr : forall c, In c (resolved path) -> In a (bytes_of c) -> a = "."%char \/ In a (bytes_of path)).
  { intros c Hc Ha. apply resolve_subset in Hc as [[]|[[Hc _]| ->]].
    - right. unfold components in Hc. apply list_elem_of_In, list_elem_of_filter in Hc as [_ Hc].
      apply list_elem_of_In in Hc. by eapply Split_bytes.
    - simpl in Ha. intuition. }
  assert (Hj : In a (bytes_of (Join (resolved path) "/")) -> a = "/"%char \/ a = "."%char \/ In a (bytes_of path)).
  { intros [[<-|[]]|(c & Hc & Ha)]%Join_bytes; [by left|]. right. by eapply Hr. }
  unfold Clean, unresolve. destruct (IsAbs path).
  - rewrite bytes_of_app, in_app_iff. intros [[<-|[]]|Ha]; [by left|by apply Hj].
  - destruct (resolved path) eqn:E; [|exact Hj]. simpl. intuition.
Qed.

Lemma contains_byte_spec a s : contains_byte a s = true <-> In a (bytes_of s).
Proof.
  unfold contains_byte. rewrite existsb_exists. split.
  - intros (x & Hx & E). apply Ascii.eqb_eq in E. by subst.
  - intros Ha. exists a. split; [done|]. by apply Ascii.eqb_eq.
Qed.

(** ** Facts: the extension of a path ends it *)

Lemma last_encoded s r l : runes s = (l ++ [r])%list -> r <> RuneError ->
  exists s' e, s = s' +:+ e /\ GoStrings.encoded r e.
Proof.
  intros Hr Hne. remember (String.length s) as n eqn:Hn.
  revert s l Hr Hn. induction (lt_wf n) as [n _ IH]. intros s l Hr ->.
  destruct s as [|a s1]; [by destruct l|].
  destruct (runes_step a s1) as (e & rest & r' & Heq & H & He & Hlen).
  rewrite H in Hr. rewrite Heq. destruct l as [|r0 l]; injection Hr as -> Hrest.
  - apply runes_nil in Hrest as ->. destruct He as [He|He]; [|done].
    exists "", e. split; [by rewrite string_app_nil_r|done].
  - destruct (IH (String.length rest) ltac:(simpl; lia) rest l Hrest eq_refl) as (s' & e' & -> & He').
    exists (e +:+ s'), e'. split; [by rewrite string_app_assoc|done].
Qed.

Lemma drop_bytes_suffix i s : exists front, s = front +:+ drop_bytes i s.
Proof.
  revert s. induction i as [|i IH]; intros s; [by exists ""|]. destruct s as [|a s]; [by exists ""|].
  destruct (IH s) as [front E]. exists (String a front). cbn [drop_bytes]. rewrite E at 1. done.
Qed.

Lemma Split_single sep s p : Split sep s = [p] -> p = s.
Proof.
  revert p. induction s as [|a s IH]; cbn [Split]; intros p; [by intros [= <-]|].
  pose proof (Split_nonempty sep s). destruct (Ascii.eqb a sep); [by intros [= _ E]|].
  destruct (Split sep s) as [|p0 ps]; [done|]. intros [= <- ->]. by rewrite (IH p0 eq_refl).
Qed.

Lemma Split_last_suffix sep s : exists front, s = front +:+ List.last (Split sep s) "".
Proof.
  induction s as [|a s [front E]]; [by exists ""|]. cbn [Split].
  pose proof (Split_nonempty sep s). destruct (Ascii.eqb a sep).
  - exists (String a front). destruct (Split sep s); [done|]. cbn [List.last] in *. rewrite E at 1. done.
  - destruct (Split sep s) as [|p [|p' ps]] eqn:Es; [done| |].
    + exists "". cbn [List.last]. by rewrite (Split_single sep s p Es).
    + exists (String a front). cbn [List.last] in *. rewrite E at 1. done.
Qed.

Lemma Ext_suffix path : exists front, path = front +:+ Ext path.
Proof.
  unfold Ext. destruct (Split_last_suffix slash path) as [front E].
  set (name := List.last (Split slash path) "") in *. destruct (LastIndex name ".") as [i|].
  - destruct (drop_bytes_suffix i name) as [mid Em]. exists (front +:+ mid).
    rewrite E at 1. rewrite Em at 1. by rewrite string_app_assoc.
  - exists path. by rewrite string_app_nil_r.
Qed.

(** White space is its own lower case. *)
Lemma rune_lower_space r : IsSpace r = true -> IsSpace (rune_lower r) = true.
Proof.
  intros Hs. assert (Hin : In r space_runes).
  { unfold IsSpace, in_range in Hs. rewrite !orb_true_iff, !andb_true_iff, !Z.leb_le, !Z.eqb_eq in Hs.
    unfold space_runes. simpl. lia. }
  assert (Hall : forallb (fun r => IsSpace (rune_lower r)) space_runes = true) by (by vm_compute).
  rewrite forallb_forall in Hall. by apply Hall.
Qed.

(** A supported extension does not end in white space. *)
Lemma extension_trimmed path : supportedAudioExtension (ToLower (Ext path)) = true ->
  space_right (bytes_of path) = false.
Proof.
  intros Hs. unfold supportedAudioExtension in Hs. apply GoValue.mem_spec in Hs.
  assert (Hlast : exists l r, runes (ToLower (Ext path)) = (l ++ [r])%list /\ IsSpace r = false /\ r <> RuneError).
  { set (x := ToLower (Ext path)) in *. clearbody x.
    assert (Hall : forallb (fun x => match rev (runes x) with
      | r :: _ => negb (IsSpace r) && negb (r =? RuneError)%Z | [] => false end) SupportedAudioExtensions = true)
      by (by vm_compute).
    rewrite forallb_forall in Hall. specialize (Hall x Hs).
    destruct (rev (runes x)) as [|r l] eqn:E; [done|]. apply andb_true_iff in Hall as [H1 H2].
    exists (rev l), r. split_and!; [|by apply negb_true_iff|by apply Z.eqb_neq, negb_true_iff].
    rewrite <- (rev_involutive (runes x)), E. done. }
  destruct Hlast as (l & r & Hl & Hsp & Hne). rewrite runes_ToLower in Hl.
  apply map_eq_app in Hl as (l1 & l2 & Er & _ & E2). destruct l2 as [|r0 [|? ?]]; [done| |done].
  injection E2 as Er0. destruct (last_encoded (Ext path) r0 l1) as (s' & e & E & He); [done| |].
  { intros ->. by vm_compute in Er0. }
  destruct (Ext_suffix path) as [front ->]. rewrite E, <- string_app_assoc.
  rewrite (space_right_encoded r0) by done.
  destruct (IsSpace r0) eqn:Es; [|done]. apply rune_lower_space in Es. congruence.
Qed.

(** ** Facts: normalised paths *)

(** What [NormalizeAudioPath] returns, when it is not empty. *)
Record audio_path (q : string) : Prop := {
  ap_clean : Clean q = q;
  ap_components : exists rest, components q = "audio" :: rest /\ rest <> [] /\ no_dots (components q);
  ap_relative : IsAbs q = false;
  ap_prefix : HasPrefix q "audio/" = true;
  ap_bytes : forall a, In a [zero_byte; backslash; ":"%char] -> ~ In a (bytes_of q);
  ap_extension : supportedAudioExtension (ToLower (Ext q)) = true }.

Lemma NormalizeAudioPath_ok raw q : NormalizeAudioPath raw = Ok q -> q = "" \/ audio_path q.
Proof.
  unfold NormalizeAudioPath. cbv zeta. set (value := TrimSpace (ReplaceByte backslash slash raw)).
  destruct (value =? ""); [by intros [= <-]; left|].
  destruct (contains_byte zero_byte value || HasPrefix value "/" || contains_byte ":" value) eqn:E1; [done|].
  apply orb_false_iff in E1 as [[E0 Ea]%orb_false_iff Ec].
  destruct (_ || _) eqn:E2; [done|]. apply orb_false_iff in E2 as [E2 Ep]. apply negb_false_iff in Ep.
  destruct (supportedAudioExtension _) eqn:Ee; [|done]. cbn [negb]. intros [= <-]. right.
  assert (Hprefix : exists t, Clean value = "audio/" +:+ t) by by apply HasPrefix_spec.
  destruct Hprefix as [t Et].
  assert (Hres : resolved value <> []).
  { intros E. unfold Clean in Et. rewrite E in Et. by destruct (IsAbs value). }
  pose proof (components_Clean value Hres) as Hc.
  assert (Hct : components (Clean value) = "audio" :: components t).
  { rewrite Et. apply (components_app_slash "audio" t). }
  constructor; [apply Clean_idem| |by rewrite IsAbs_Clean|done| |done].
  - exists (components t). split_and!; [done| |].
    + intros E. rewrite E in Hct. rewrite Hct in Hc. unfold Clean in Et. rewrite <- Hc in Et.
      assert (IsAbs value = false) as Ei by exact Ea. rewrite Ei in Et. discriminate Et.
    + destruct (resolved_climbs value) as (k & down & Er & Hd & _).
      rewrite Hc. pose proof (resolved_plain value) as Hpl. apply List.Forall_forall. intros c Hin.
      rewrite List.Forall_forall in Hpl. split; [by apply Hpl|]. intros ->.
      rewrite Er in Hin. rewrite <- Hc, Hct in Er. destruct k as [|k]; [|done].
      by apply in_app_iff in Hin as [Hin|Hin].
  - intros a Ha Hin. apply Clean_bytes in Hin as [->|[->|Hin]].
    + by destruct Ha as [Ha|[Ha|[Ha|[]]]].
    + by destruct Ha as [Ha|[Ha|[Ha|[]]]].
    + destruct Ha as [<-|[<-|[<-|[]]]].
      * apply contains_byte_spec in Hin. congruence.
      * apply TrimSpace_bytes in Hin. by eapply ReplaceByte_no; [|exact Hin].
      * apply contains_byte_spec in Hin. congruence.
Qed.

Lemma audio_path_trimmed q : audio_path q -> TrimSpace q = q.
Proof.
  intros Hq. apply trimmed_TrimSpace. split; [|by apply extension_trimmed, ap_extension].
  destruct (proj1 (HasPrefix_spec _ _) (ap_prefix _ Hq)) as [t ->].
  change ("audio/" +:+ t) with ("a" +:+ ("udio/" +:+ t)).
  rewrite (space_left_encoded 97); [done|]. by constructor.
Qed.

(** Normalising twice is normalising once. *)
Lemma NormalizeAudioPath_idem raw q : NormalizeAudioPath raw = Ok q -> NormalizeAudioPath q = Ok q.
Proof.
  intros Hraw. destruct (NormalizeAudioPath_ok raw q Hraw) as [->|Hq]; [by vm_compute|].
  pose proof Hq as [Hcl Hco Habs Hpre Hby Hext]. unfold NormalizeAudioPath. cbv zeta.
  rewrite ReplaceByte_id by (apply Hby; right; by left). rewrite audio_path_trimmed by done.
  destruct (String.eqb_spec q "") as [->|_]; [done|].
  assert (Hn : forall a, In a [zero_byte; backslash; ":"%char] -> contains_byte a q = false).
  { intros a Ha. destruct (contains_byte a q) eqn:E; [|done]. apply contains_byte_spec in E. by destruct (Hby a Ha). }
  rewrite (Hn zero_byte), (Hn ":"%char) by (simpl; tauto).
  change (HasPrefix q "/") with (IsAbs q). rewrite Habs, Hcl, Hpre, Hext. cbn [orb negb].
  destruct Hco as (rest & Hc & Hr & Hd).
  destruct (String.eqb_spec q ".") as [->|_]; [done|]. destruct (String.eqb_spec q "..") as [->|_]; [done|].
  destruct (HasPrefix q "../") eqn:E; [|destruct (String.eqb_spec q "audio") as [->|_]; done].
  apply HasPrefix_spec in E as [t1 E1]. apply HasPrefix_spec in Hpre as [t2 E2]. rewrite E1 in E2. discriminate E2.
Qed.

(** ** Facts: normalised documents *)

Lemma traverse_idem {E A} (f : nat -> A -> result E A) n l l' :
  (forall i a b, f i a = Ok b -> f i b = Ok b) -> traverse f n l = Ok l' ->
  traverse f n l' = Ok l' /\ length l' = length l.
Proof.
  intros Hf. revert n l'. induction l as [|a l IH]; intros n l'; cbn [traverse]; [by intros [= <-]|].
  unfold rbind. destruct (f n a) as [b|] eqn:Ea; [|done].
  destruct (traverse f (S n) l) as [bs|] eqn:El; [|done]. intros [= <-].
  destruct (IH _ _ El) as [E1 E2]. cbn [traverse length]. unfold rbind.
  rewrite (Hf _ _ _ Ea), E1. by rewrite E2.
Qed.

Lemma traverse_Forall {E A B} (f : nat -> A -> result E B) (P : B -> Prop) n l l' :
  (forall i a b, f i a = Ok b -> P b) -> traverse f n l = Ok l' -> Forall P l'.
Proof.
  intros Hf. revert n l'. induction l as [|a l IH]; intros n l'; cbn [traverse]; [by intros [= <-]|].
  unfold rbind. destruct (f n a) as [b|] eqn:Ea; [|done].
  destruct (traverse f (S n) l) as [bs|] eqn:El; [|done]. intros [= <-]. constructor; eauto.
Qed.

(** Reading back entry by entry. *)
Lemma traverse_map {E A B} (f : nat -> B -> result E A) (g : A -> B) n l :
  Forall (fun a => forall i, f i (g a) = Ok a) l -> traverse f n (map g l) = Ok l.
Proof.
  intros Hl. revert n. induction Hl as [|a l Ha Hl IH]; intros n; cbn [map traverse]; [done|].
  unfold rbind. by rewrite Ha, IH.
Qed.

Lemma wrap_err_ok {E E' A} (f : E -> E') (m : result E A) a : wrap_err f m = Ok a -> m = Ok a.
Proof. by destruct m; [intros [= ->]|]. Qed.

Section normalised.
Context `{Codecs}.

(** A normalised condition is its own normal form, and its type is a token. *)
Lemma normalizeCondition_idem c c' : normalizeCondition c = Ok c' ->
  normalizeCondition c' = Ok c' /\ In (cond_Type c') ["and"; "or"; "if"].
Proof.
  unfold normalizeCondition at 1. cbv zeta. set (ty := ToLower (TrimSpace (cond_Type c))).
  destruct (mem ty ["and"; "or"]) eqn:Em.
  - destruct (_ || UseRegex c); [done|]. intros [= <-].
    apply GoValue.mem_spec in Em as [<-|[<-|[]]]; (split; [by vm_compute|simpl; tauto]).
  - destruct (String.eqb_spec ty "if") as [->|]; [|done]. cbn [negb].
    set (key := TrimSpace (Key c)). set (location := TrimSpace (cond_Location c)).
    destruct (Bool.eqb (key =? "") (location =? "")) eqn:E1; [done|].
    destruct (_ <? _)%Z eqn:E2; [done|]. set (nc := with_values c _ _ _ _ _ _ _).
    destruct (long_value (operators nc)) eqn:E3; [done|].
    destruct (negb _) eqn:E4; [done|].
    assert (Hfix : forall r, (if UseRegex nc then match regexp_Compile (conditionOperator nc).2 with
        | Some _ => Ok nc | None => Err InvalidRegexp end else Ok nc) = Ok r -> r = nc).
    { intros r. destruct (UseRegex nc); [destruct (regexp_Compile _)|]; by intros [= <-]. }
    intros Hr. pose proof (Hfix _ Hr) as ->. split; [|simpl; tauto].
    unfold normalizeCondition. cbv zeta. change (cond_Type nc) with "if".
    change (mem (ToLower (TrimSpace "if")) ["and"; "or"]) with (mem "if" ["and"; "or"]).
    assert (Eif : ToLower (TrimSpace "if") = "if") by (by vm_compute). rewrite Eif.
    change (mem "if" ["and"; "or"]) with false. change (negb ("if" =? "if")) with false. cbn iota.
    assert (Enc : with_values nc "if" (TrimSpace (Key nc)) (TrimSpace (cond_Location nc))
      (TrimSpace (Equals nc)) (TrimSpace (Includes nc)) (TrimSpace (StartsWith nc)) (TrimSpace (EndsWith nc)) = nc).
    { unfold nc, with_values. cbn. unfold key, location. by rewrite !TrimSpace_idem. }
    rewrite Enc. replace (TrimSpace (Key nc)) with key by (symmetry; apply TrimSpace_idem).
    replace (TrimSpace (cond_Location nc)) with location by (symmetry; apply TrimSpace_idem).
    rewrite E1, E2, E3, E4. exact Hr.
Qed.

Lemma normalizeStatement_idem seen i st st' : normalizeStatement seen i st = Ok st' ->
  (forall j, normalizeStatement seen j st' = Ok st') /\
  Forall (fun c => In (cond_Type c) ["and"; "or"; "if"]) (Conditions st').
Proof.
  unfold normalizeStatement at 1. cbv zeta. set (name := TrimSpace (st_Name st)).
  destruct (name =? "") eqn:E1; [done|]. destruct (_ <? _)%Z eqn:E2; [done|].
  destruct (decide (ToLower name ∈ seen)) as [|E3]; [done|]. unfold rbind.
  destruct (wrap_err (InLeadIn name) _) as [leadIn|] eqn:E4; [|done].
  destruct (wrap_err (InLeadOut name) _) as [leadOut|] eqn:E5; [|done].
  destruct (Enabled st && (leadIn =? "") && (leadOut =? "")) eqn:E6; [done|].
  destruct (_ <? _)%nat eqn:E7; [done|].
  set (f := fun i c => wrap_err (InCondition name (S i)) (normalizeCondition c)).
  destruct (traverse f 0 (Conditions st)) as [conditions|] eqn:E8; [|done]. intros [= <-].
  assert (Hf : forall i c c', f i c = Ok c' -> f i c' = Ok c' /\ In (cond_Type c') ["and"; "or"; "if"]).
  { intros k c c' Hc%wrap_err_ok. destruct (normalizeCondition_idem c c' Hc) as [Hi Ht].
    split; [|done]. unfold f. by rewrite Hi. }
  destruct (traverse_idem f 0 _ _ ltac:(intros; by eapply Hf) E8) as [Hidem Hlen].
  split; [|by eapply traverse_Forall; [|exact E8]; intros; eapply Hf].
  intros j. unfold normalizeStatement. cbn [st_Name Conditions Enabled LeadIn LeadOut].
  replace (TrimSpace name) with name by (symmetry; apply TrimSpace_idem). cbv zeta.
  rewrite E1, E2, decide_False by done. apply wrap_err_ok in E4, E5.
  rewrite (NormalizeAudioPath_idem _ _ E4), (NormalizeAudioPath_idem _ _ E5). unfold rbind, wrap_err.
  rewrite E6, Hlen, E7. change (fun i c => match normalizeCondition c with
    | Ok a => Ok a | Err e => Err (InCondition name (S i) e) end) with f. by rewrite Hidem.
Qed.

Lemma normalizeStatements_idem seen i l l' : normalizeStatements seen i l = Ok l' ->
  (forall j, normalizeStatements seen j l' = Ok l') /\ length l' = length l /\
  Forall (fun st => Forall (fun c => In (cond_Type c) ["and"; "or"; "if"]) (Conditions st)) l'.
Proof.
  revert seen i l'. induction l as [|st l IH]; intros seen i l'; cbn [normalizeStatements];
    [by intros [= <-]|]. unfold rbind.
  destruct (normalizeStatement seen i st) as [st'|] eqn:E1; [|done].
  destruct (normalizeStatements _ (S i) l) as [rest|] eqn:E2; [|done]. intros [= <-].
  destruct (normalizeStatement_idem _ _ _ _ E1) as [H1 H2]. destruct (IH _ _ _ E2) as (H3 & H4 & H5).
  split_and!; [|simpl; by rewrite H4|by constructor]. intros j. cbn [normalizeStatements]. unfold rbind.
  by rewrite H1, H3.
Qed.

Lemma Normalize_document_idem d d' : Normalize d = Ok d' ->
  Normalize d' = Ok d' /\
  Forall (fun st => Forall (fun c => In (cond_Type c) ["and"; "or"; "if"]) (Conditions st)) (Statements d').
Proof.
  unfold Normalize at 1. destruct (_ <? _)%nat eqn:E1; [done|]. unfold rmap, rbind.
  destruct (normalizeStatements ∅ 0 (Statements d)) as [l|] eqn:E2; [|done]. intros [= <-].
  destruct (normalizeStatements_idem _ _ _ _ E2) as (H1 & H2 & H3). split; [|done].
  unfold Normalize. cbn [Statements]. rewrite H2, E1. unfold rmap, rbind. by rewrite H1.
Qed.

Lemma boolAttribute_Sprint b fallback : boolAttribute (Sprint_bool b) fallback = Some b.
Proof. destruct b; by vm_compute. Qed.

Lemma condition_xml c : In (cond_Type c) ["and"; "or"; "if"] -> conditionFromXML (conditionToXML c) = Ok c.
Proof.
  intros Ht. unfold conditionFromXML, conditionToXML. cbn.
  assert (E : ToLower (TrimSpace (cond_Type c)) = cond_Type c /\ (cond_Type c =? "") = false).
  { destruct Ht as [<-|[<-|[<-|[]]]]; by vm_compute. }
  destruct E as [-> ->]. rewrite !boolAttribute_Sprint. by destruct c.
Qed.

Lemma statement_xml i st : Forall (fun c => In (cond_Type c) ["and"; "or"; "if"]) (Conditions st) ->
  statementFromXML i (statementToXML st) = Ok st.
Proof.
  intros Hc. unfold statementFromXML, statementToXML. cbn. rewrite boolAttribute_Sprint.
  rewrite (traverse_map _ conditionToXML); [by destruct st|].
  eapply List.Forall_impl; [|exact Hc]. intros c Ht j. by rewrite condition_xml.
Qed.
End normalised.

(** ** Facts: statements as expressions *)

(** The expressions of a statement, each with the operator in front of it; other
    tokens are passed over. *)
Fixpoint expressions (op : string) (l : list Condition) : list (string * Condition) :=
  match l with
  | [] => []
  | c :: l' =>
      if mem (cond_Type c) ["and"; "or"] then expressions (cond_Type c) l'
      else if cond_Type c =? "if" then (op, c) :: expressions "and" l'
      else expressions op l'
  end.

Section matching.
Context `{Codecs} (context : AlertContext).

Definition combine_op (acc : bool) (e : string * Condition) : bool :=
  if e.1 =? "or" then acc || condition_Matches e.2 context else acc && condition_Matches e.2 context.

(** From left to right, without precedence; the operator before the first
    expression has no meaning. *)
Definition expression_value (l : list (string * Condition)) : bool :=
  match l with
  | [] => false
  | e :: l' => fold_left combine_op l' (condition_Matches e.2 context)
  end.

Lemma match_steps l s : seenExpression s = true ->
  seenExpression (fold_left (match_step context) l s) = true /\
  matched (fold_left (match_step context) l s) =
    fold_left combine_op (expressions (pendingOperator s) l) (matched s).
Proof.
  revert s. induction l as [|c l IH]; intros [seen m op] Hs; cbn in Hs; subst; [done|].
  cbn [fold_left expressions]. unfold match_step at 2 4. cbn [seenExpression matched pendingOperator negb].
  destruct (mem (cond_Type c) ["and"; "or"]); [by apply (IH (MkMatch true m (cond_Type c)))|].
  destruct (cond_Type c =? "if"); [|by apply (IH (MkMatch true m op))].
  cbn [fold_left]. unfold combine_op at 2. cbn [fst snd].
  destruct (op =? "or").
  - by apply (IH (MkMatch true (m || condition_Matches c context) "and")).
  - by apply (IH (MkMatch true (m && condition_Matches c context) "and")).
Qed.

Lemma match_steps_start l s : seenExpression s = false -> matched s = false ->
  seenExpression (fold_left (match_step context) l s) && matched (fold_left (match_step context) l s) =
  expression_value (expressions (pendingOperator s) l).
Proof.
  revert s. induction l as [|c l IH]; intros [seen m op] Hs Hm; cbn in Hs, Hm; subst; [done|].
  cbn [fold_left expressions]. unfold match_step at 2 4. cbn [seenExpression matched pendingOperator negb].
  destruct (mem (cond_Type c) ["and"; "or"]); [by apply (IH (MkMatch false false (cond_Type c)))|].
  destruct (cond_Type c =? "if"); [|by apply (IH (MkMatch false false op))].
  destruct (match_steps l (MkMatch true (condition_Matches c context) "and") eq_refl) as [-> ->]. done.
Qed.

Lemma Matches_value st : Matches st context =
  match Conditions st with [] => true | _ => expression_value (expressions "and" (Conditions st)) end.
Proof.
  unfold Matches. destruct (Conditions st) as [|c l] eqn:E; [done|]. cbn [length Nat.eqb].
  by apply match_steps_start.
Qed.
End matching.

(** ** Properties *)

Section theorems.
Context `{Env} `{Tools} `{Codecs}.

(** C18: the audio file of a lead statement is always a file below the bundle's
    [audio] directory: its path is the path of that directory followed by at
    least one component, none of them a dot, whatever the statement says; and
    when the file system resolves the path through symbolic links, what it
    resolves to lies below that directory too. *)
Theorem lead_audio_confined baseDir raw target :
  IsAbs cwd = true -> ResolveAudioPath baseDir raw = Ok target -> target <> "" ->
  Clean target = target /\ IsAbs target = true /\
  (exists rest, rest <> [] /\ no_dots rest /\
    components target = (components (Abs cwd (Clean baseDir)) ++ "audio" :: rest)%list) /\
  (forall real, EvalSymlinks target = Some real -> exists rest, rest <> [] /\
    components (Abs cwd (Clean real)) = (components (Abs cwd (Clean baseDir)) ++ "audio" :: rest)%list).
Proof.
  intros Hcwd. unfold ResolveAudioPath. destruct (NormalizeAudioPath raw) as [relative|] eqn:En; [|done].
  destruct (String.eqb_spec relative "") as [->|Hne]; [by intros [= <-]|]. cbv zeta.
  destruct (NormalizeAudioPath_ok _ _ En) as [|Hq]; [done|].
  destruct (ap_components _ Hq) as (rest & Hc & Hr & Hd).
  destruct (Abs_clean Hcwd (Clean baseDir)) as [Habs Hclean]. set (root := Abs cwd (Clean baseDir)) in *.
  destruct (JoinPath_below root relative Habs Hclean Hne Hd) as (Ht1 & Ht2 & Ht3).
  destruct (JoinPath_below root "audio" Habs Hclean) as (Ha1 & Ha2 & Ha3); [done|by repeat constructor|].
  set (target' := JoinPath [root; relative]) in *. set (audioRoot := JoinPath [root; "audio"]) in *.
  assert (Hroot : Abs cwd (Clean audioRoot) = audioRoot).
  { unfold Abs. by rewrite IsAbs_Clean, Ha2, Clean_idem. }
  intros Hres Htarget. assert (Hfacts : target = target' /\ forall real, EvalSymlinks target' = Some real ->
    pathInside audioRoot real = true).
  { destruct (negb (pathInside audioRoot target')); [done|].
    destruct (EvalSymlinks target') as [real|] eqn:Er.
    - destruct (pathInside audioRoot real) eqn:Ei; [|done]. injection Hres as <-.
      split; [done|]. by intros ? [= <-].
    - injection Hres as <-. by split. }
  destruct Hfacts as [-> Hreal]. split_and!; [done|done| |].
  - exists rest. rewrite Ht3, Hc. rewrite Hc in Hd.
    split_and!; [done|by inversion Hd|done].
  - intros real Hr'. destruct (pathInside_below Hcwd _ _ (Hreal real Hr')) as (rest' & Hn & E).
    exists rest'. rewrite E, Hroot, Ha3, <- app_assoc. done.
Qed.

(** Writing a lead document and reading it back gives its normal form, for
    every document the validation accepts, whenever the codec reads what it
    wrote; normalising again changes nothing, so saving a document twice gives
    the same compact file. *)
Theorem lead_document_roundtrip d d' raw :
  Normalize d = Ok d' ->
  xml_MarshalIndent (map statementToXML (Statements d')) = Ok raw ->
  xml_Unmarshal (lead_file raw) = Ok (map statementToXML (Statements d')) ->
  Encode d = Ok (lead_file raw) /\ Parse (lead_file raw) = Ok d' /\
  CompactXML d' = CompactXML d.
Proof.
  intros Hn Hm Hu. destruct (Normalize_document_idem _ _ Hn) as [Hn' Htypes].
  split_and!.
  - unfold Encode, rbind. rewrite Hn, Hm. done.
  - unfold Parse, rbind. rewrite Hu. cbn [wrap_err].
    rewrite (traverse_map statementFromXML statementToXML); [by destruct d'|].
    eapply List.Forall_impl; [|exact Htypes]. intros st Hst i. by apply statement_xml.
  - unfold CompactXML, Encode, rbind. by rewrite Hn, Hn'.
Qed.

(** The statement chosen for an alert is the first enabled one whose
    expressions hold, where expressions are combined strictly from left to
    right with the last operator written between them, [and] when there is
    none; operators before the first expression and after the last have no
    effect, a statement without conditions matches every alert, and one with
    operators only matches none. *)
Theorem lead_select_reference d context :
  Select d context =
  List.find (fun st => Enabled st && match Conditions st with
    | [] => true
    | conditions => expression_value context (expressions "and" conditions)
    end) (Statements d).
Proof.
  unfold Select. induction (Statements d) as [|st l IH]; [done|]. cbn [List.find].
  rewrite Matches_value, IH. by destruct (Conditions st).
Qed.

(** A case-insensitive regular expression has its escapes lower-cased: the
    class of non-digits becomes the class of digits, for every engine. *)
Theorem regex_escape_folded key location whole raw :
  matchesText (MkCondition "if" key location "" "^\D+$" "" "" false whole true) raw =
  matchesText (MkCondition "if" key location "" "^\d+$" "" "" false whole true) raw.
Proof.
  unfold matchesText. cbn [conditionOperator operators List.find Equals Includes negb snd String.eqb MatchCase UseRegex].
  replace (ToLower "^\D+$") with (ToLower "^\d+$") by by vm_compute. done.
Qed.
End theorems.

(** ** Witnesses *)

Definition sample_document : Document := MkDocument [
  MkStatement true " Storm " [MkCondition "IF" "event" "" "Tornado" "" "" "" false false false;
    no_condition "or"; MkCondition "if" "" "code" "" "" "059" "" false false false]
    "audio\leads\..\storm.WAV" ""].

Definition sample_normal : Document := MkDocument [
  MkStatement true "Storm" [MkCondition "if" "event" "" "Tornado" "" "" "" false false false;
    no_condition "or"; MkCondition "if" "" "code" "" "" "059" "" false false false]
    "audio/storm.WAV" ""].

#[export] Instance sample_Codecs : Codecs | 1000 := {|
  regexp_Compile pattern := Some (String.eqb pattern);
  xml_Unmarshal raw := if raw =? lead_file "<leads/>" then Ok (map statementToXML (Statements sample_normal))
    else Err "EOF";
  xml_MarshalIndent doc := Ok "<leads/>"; EvalSymlinks path := Some path |}.

Lemma lead_audio_confined_witness :
  Clean "/srv/audio/storm.wav" = "/srv/audio/storm.wav" /\ IsAbs "/srv/audio/storm.wav" = true.
Proof.
  destruct (lead_audio_confined "data/.." "audio/leads/../storm.wav" "/srv/audio/storm.wav") as (H1 & H2 & _);
    [by vm_compute|by vm_compute|done|]. by split.
Defined.

Lemma lead_document_roundtrip_witness : Parse (lead_file "<leads/>") = Ok sample_normal.
Proof. apply (lead_document_roundtrip sample_document sample_normal "<leads/>"); by vm_compute. Defined.
