(* ===== verification/AlertText.v ===== *)
(** The words of an alert ([alertTextFromData] and [bannerTextFromData] of
    [services/go/internal/playlist/service.go], [SpeechFromData] of
    [services/go/internal/alerttext/banner.go]): what is read to the listeners
    and what is shown.

    The SAME translation, the label files and the clean-up of bulletin texts are
    an interface.  Cutting a string out of range ends a Go program; here it is
    an error value. *)

From S2P Require Import Prelude UnicodeTables GoStrings GoTime GoValue GoPath AlertPacket.
From S2P Require Import PlaylistModel World AlertRequest AudioRetention PlannerState AlertCommit Wav.
From S2P Require Import GoFloat AudioFiles SameRequest.

#[local] Open Scope Z_scope.
#[local] Open Scope string_scope.
#[local] Open Scope haze_scope.

(** [alerttext.SAMERequest], as this service fills it. *)
Record translationRequest := MkTranslation {
  tr_Originator : string; tr_OriginatorName : string; tr_Event : string; tr_EventName : string;
  tr_Locations : list string; tr_AreaNames : list string; tr_Callsign : string;
  tr_WeatherService : string; tr_SentAt : Z; tr_BeginsAt : Z; tr_ExpiresAt : Z; tr_MimicENDEC : string }.

Class Texts := {
  BuildSAMETranslation : translationRequest -> string;
  (* the label files next to the configuration *)
  EventLabel : string -> string -> string;
  ResolveAreaNames : string -> list string -> list string -> list string;
  CleanAlertText : string -> string;
  CleanNWSAlertText : string -> string }.

(** [s[i:]] past the end of [s]. *)
Inductive panic := SliceBounds (i capacity : nat).
Definition slice_from (i : nat) (s : string) : result panic string :=
  if (i <=? String.length s)%nat then Ok (drop_bytes i s) else Err (SliceBounds i (String.length s)).

(** ** Text helpers *)

Definition mem_byte (z : Z) (l : list Z) : bool := existsb (Z.eqb z) l.

(** The class [\s] of regular expressions. *)
Definition is_blank (a : Ascii.ascii) : bool := mem_byte (byte_val a) [9; 10; 12; 13; 32].

(** [compactSpaceRE.ReplaceAllString(s, " ")]. *)
Fixpoint compact (blank : bool) (s : string) : string :=
  match s with
  | EmptyString => ""
  | String a s' =>
      if is_blank a then (if blank then compact true s' else String " " (compact true s'))
      else String a (compact false s')
  end.
Definition CleanFragment (s : string) : string := compact false (TrimSpace s).

(** [strings.TrimLeft] with ASCII characters. *)
Fixpoint TrimLeft (cutset : list Z) (s : string) : string :=
  match s with
  | String a s' => if mem_byte (byte_val a) cutset then TrimLeft cutset s' else s
  | EmptyString => ""
  end.

Definition nonEmptyStrings (values : list string) : list string := trimmed_nonblank values.
Definition sentence (parts : list string) : string := TrimSpace (Join (nonEmptyStrings parts) " ").

Definition sameText (parts : list string) (value : string) : bool :=
  existsb (fun part => EqualFold (TrimSpace part) (TrimSpace value)) parts.

(** ** Times *)

(** The layouts of [ParseCAPTime] are forms of RFC 3339. *)
Definition ParseCAPTime (raw : string) : Z := parseTime raw.

Definition parse_layouts (raw : string) : option Z :=
  match time_Parse raw with
  | Some t => Some t
  | None =>
      match time_Parse_plain " " raw with
      | Some t => Some t
      | None => time_Parse_plain "T" raw
      end
  end.

Fixpoint dataTimeValue (data : obj) (keys : list string) : Z :=
  match keys with
  | [] => zeroTime
  | key :: keys' =>
      let raw := TrimSpace (firstText ∅ data [key]) in
      if raw =? "" then dataTimeValue data keys'
      else
        match parse_layouts raw with
        | Some t => t
        | None => if IsZero (ParseCAPTime raw) then dataTimeValue data keys' else ParseCAPTime raw
        end
  end.

Definition intFromString (raw : string) (fallback : Z) : Z := default fallback (Atoi (TrimSpace raw)).

Definition sameDurationToDuration (raw : string) : Z :=
  let raw := normalizeSAMEDuration raw in
  let hours := intFromString (take_bytes 2 raw) 0 in
  let minutes := intFromString (drop_bytes 2 raw) 15 in
  let minutes := if (hours =? 0)%Z && (minutes =? 0)%Z then 15 else minutes in
  (hours * Hour + minutes * Minute)%Z.

(** ** [alerttext.SpeechFromData] *)

Section texts.
Context `{JSON} `{Texts}.

(** [firstMapText]. *)
Fixpoint firstMapText (data : obj) (keys : list string) : string :=
  match keys with
  | [] => ""
  | key :: keys' =>
      match data !! key with
      | Some value =>
          let text := CleanFragment (Sprint value) in
          if negb (text =? "") && negb (text =? "<nil>") then text else firstMapText data keys'
      | None => firstMapText data keys'
      end
  end.

(** [mapBoolValue]: the value, and whether there is one. *)
Definition mapBoolValue (data : obj) (key : string) : bool * bool :=
  match data !! key with
  | None => (false, false)
  | Some (ABool b) => (b, true)
  | Some (AString s) => (mem (ToLower (TrimSpace s)) ["true"; "1"; "yes"; "on"; "enabled"], true)
  | Some (AFloat f) => (negb (f64_eqb f (f64_of_Z 0)), true)
  | Some (AInt z) => (negb (z =? 0)%Z, true)
  | Some v => (mem (ToLower (TrimSpace (Sprint v))) ["true"; "1"; "yes"; "on"; "enabled"], true)
  end.

Definition fallbackSpeechFromData (data : obj) (includeSameTranslation : bool) : string :=
  let keys := ["title"; "header"; "description"; "instruction"] in
  let keys := if includeSameTranslation then "same_translation" :: "same_intro" :: keys else keys in
  Join (base.filter (fun value => value <> "") (map (fun key => firstMapText data [key]) keys)) " ".

(** The text after the first of the intros it starts with; [Ok None] when it
    starts with none. *)
Fixpoint after_intro (text : string) (intros : list string) : result panic (option string) :=
  match intros with
  | [] => Ok None
  | intro :: intros' =>
      if negb (intro =? "") && HasPrefix (ToLower text) (ToLower intro)
      then rmap Some (slice_from (String.length intro) text)
      else after_intro text intros'
  end.

Definition translations (data : obj) : list string :=
  [firstMapText data ["same_translation"]; firstMapText data ["same_intro"]].

Definition stripLeadingSameTranslation (data : obj) (text : string) : result panic string :=
  let? rest := after_intro text (translations data) in
  Ok match rest with
     | Some rest => CleanFragment (TrimLeft [46; 58; 45; 59; 32] (TrimSpace rest))
     | None => text
     end.

Definition sameTranslationOnly (data : obj) (text : string) : bool :=
  existsb (fun intro => negb (intro =? "") &&
    (ToLower (CleanFragment text) =? ToLower (CleanFragment intro))) (translations data).

Definition SpeechFromData (data : obj) : result panic string :=
  let '(prependSame, prependSameSet) := mapBoolValue data "prepend_same_translation" in
  let text := firstMapText data ["alert_text"; "tts_text"; "text"; "message"] in
  if text =? "" then Ok (fallbackSpeechFromData data (negb prependSameSet || prependSame))
  else if prependSameSet && negb prependSame then
    let? stripped := stripLeadingSameTranslation data text in
    Ok (if negb (stripped =? "") then stripped
        else if sameTranslationOnly data text then fallbackSpeechFromData data false
        else text)
  else Ok text.

(** ** The SAME translation *)

Definition sameIntroNeedsRebuild (data : obj) (intro : string) : bool :=
  Contains (ToLower intro) "unknown location (" &&
  negb (length (stringListAny (firstValue ∅ data ["same_locations"; "locations"])) =? 0)%nat.

Definition sameIntroCallsign (data : obj) (feed : feedXML) (includeSourceLabel : bool) : string :=
  if includeSourceLabel
  then fallbackText (firstText ∅ data ["same_callsign"; "callsign"]) (feedCallsign feed) else "".

Definition stripTrailingSourceLabel (text : string) : string :=
  let trimmed := TrimSpace text in
  if (trimmed =? "") || (negb (HasSuffix trimmed ")") && negb (HasSuffix trimmed ").")) then trimmed
  else
    let withoutFinalPeriod := TrimSpace (TrimSuffix trimmed ".") in
    if negb (HasSuffix withoutFinalPeriod ")") then trimmed
    else
      match LastIndex withoutFinalPeriod "(" with
      | None | Some O => trimmed
      | Some open =>
          let label := drop_bytes (S open)
            (take_bytes (String.length withoutFinalPeriod - 1) withoutFinalPeriod) in
          if TrimSpace label =? "" then trimmed
          else
            let prefix := TrimSpace (take_bytes open withoutFinalPeriod) in
            if prefix =? "" then trimmed else CleanFragment prefix
      end.

Definition translation_request (cfg : loadedConfig) (p : feedPlanner) (data : obj)
    (event : string) (locations : list string) (includeSourceLabel : bool) : translationRequest :=
  let configPath := JoinPath [BaseDir cfg; "config.yaml"] in
  let duration := normalizeSAMEDuration
    (fallbackText (firstText ∅ data ["same_duration"; "duration"]) "0015") in
  let beginsAt := dataTimeValue data ["same_begins_at"; "alert_begins_at"; "onset"; "effective";
    "same_sent_at"; "alert_sent_at"; "sent"] in
  let sentAt := dataTimeValue data ["same_sent_at"; "alert_sent_at"; "sent"] in
  let expiresAt := dataTimeValue data ["same_expires_at"; "alert_expires_at"; "expires"] in
  let expiresAt := if IsZero expiresAt && negb (IsZero beginsAt)
    then Add beginsAt (sameDurationToDuration duration) else expiresAt in
  let beginsAt := if IsZero beginsAt && negb (IsZero sentAt) then sentAt else beginsAt in
  MkTranslation (fallbackText (firstText ∅ data ["same_originator"; "originator"]) "WXR")
    (TrimSpace (firstText ∅ data ["same_originator_name"; "originator_name"; "sender_name"]))
    event (fallbackText (firstText ∅ data ["same_event_name"; "event_name"]) (EventLabel configPath event))
    locations (ResolveAreaNames configPath (stringListAny (firstValue ∅ data ["area_names"])) locations)
    (sameIntroCallsign data (feed p) includeSourceLabel)
    (TrimSpace (firstText ∅ data ["same_weather_service"; "weather_service"]))
    sentAt beginsAt expiresAt (fallbackText (firstText ∅ data ["mimic_endec"]) "SAGE").

Definition sameIntroFromDataWithOptions (cfg : loadedConfig) (p : feedPlanner) (data : obj)
    (includeSourceLabel : bool) : string :=
  let intro := TrimSpace (firstText ∅ data ["same_translation"; "same_intro"]) in
  if negb (intro =? "") && negb (sameIntroNeedsRebuild data intro) then
    (if negb includeSourceLabel then stripTrailingSourceLabel intro else intro)
  else
    let event := TrimSpace (firstText ∅ data ["same_event"; "event"]) in
    let locations := stringListAny (firstValue ∅ data ["same_locations"; "locations"]) in
    if (event =? "") || (length locations =? 0)%nat then ""
    else BuildSAMETranslation (translation_request cfg p data event locations includeSourceLabel).
Definition sameIntroFromData (cfg : loadedConfig) (p : feedPlanner) (data : obj) : string :=
  sameIntroFromDataWithOptions cfg p data true.
Definition sameSpeechIntroFromData (cfg : loadedConfig) (p : feedPlanner) (data : obj) : string :=
  sameIntroFromDataWithOptions cfg p data false.

(** ** What is read and what is shown *)

Definition cleanAlertBodyText (capSource raw : string) : string :=
  if EqualFold capSource "nws" then CleanNWSAlertText raw else CleanAlertText raw.

(** The fields of a list that are not blank, cleaned. *)
Definition body_parts (capSource : string) (fields : list string) : list string :=
  map (cleanAlertBodyText capSource) (trimmed_nonblank fields).

Definition cleanPacketBodyParts (capSource : string) (packet : Packet) : list string :=
  let text := TrimSpace (CustomText (PContent packet)) in
  if negb (text =? "") then [cleanAlertBodyText capSource text]
  else body_parts capSource [Description (PContent packet); Instruction (PContent packet)].

Definition data_body_parts (data : obj) : list string :=
  body_parts (firstText ∅ data ["cap_source"])
    [firstText ∅ data ["description"]; firstText ∅ data ["instruction"]].

Definition packetFromData (data : obj) : option Packet :=
  match data !! "alert_packet" with
  | None => None
  | Some _ => match FromMap (Some data) with (packet, true) => Some packet | _ => None end
  end.

(** A part that is left out when it is empty. *)
Definition part (s : string) : list string := if s =? "" then [] else [s].

Definition customAlertTextFromData (data : obj) : result panic string :=
  let text := TrimSpace (firstText ∅ data ["alert_text"; "tts_text"; "text"; "message"]) in
  if text =? "" then Ok ""
  else
    let? rest := after_intro text
      [TrimSpace (firstText ∅ data ["same_translation"]); TrimSpace (firstText ∅ data ["same_intro"])] in
    Ok match rest with Some rest => TrimSpace rest | None => text end.

Section feed_texts.
Context (cfg : loadedConfig) (p : feedPlanner).

Definition alertTextFromPacket (packet : Packet) (data : obj) : string :=
  let capSource := fallbackText (Source packet) (firstText ∅ data ["cap_source"]) in
  if EqualFold capSource "nws" then
    sentence (part (sameSpeechIntroFromData cfg p data) ++ cleanPacketBodyParts capSource packet)%list
  else if negb (TrimSpace (SpeechText (PPresentation packet)) =? "")
  then TrimSpace (SpeechText (PPresentation packet))
  else
    sentence ((if PrependSAMETranslation (POptions packet)
               then part (sameSpeechIntroFromData cfg p data) else []) ++
              cleanPacketBodyParts capSource packet)%list.

Definition alertTextFromData (data : obj) : result panic string :=
  let from_packet :=
    match packetFromData data with
    | Some packet => alertTextFromPacket packet (WithLegacyFields packet data)
    | None => ""
    end in
  if negb (from_packet =? "") then Ok from_packet
  else if EqualFold (firstText ∅ data ["cap_source"]) "nws" &&
          negb (sameSpeechIntroFromData cfg p data =? "")
  then Ok (sentence (sameSpeechIntroFromData cfg p data :: data_body_parts data))
  else SpeechFromData data.

(** The end of both banner texts: custom text when there is nothing but the
    intro, the alert's text when there is nothing at all. *)
Definition banner_sentence (data : obj) (alertText : string) (parts : list string) : result panic string :=
  let? parts :=
    (if (length parts <=? 1)%nat then
       let? custom := customAlertTextFromData data in
       Ok (if negb (custom =? "") && negb (sameText parts custom) then parts ++ [custom] else parts)%list
     else Ok parts) in
  Ok (if (length parts =? 0)%nat then TrimSpace alertText else sentence parts).

Definition bannerTextFromPacket (packet : Packet) (data : obj) (alertText : string) : result panic string :=
  if negb (TrimSpace (BannerText (PPresentation packet)) =? "")
  then Ok (TrimSpace (BannerText (PPresentation packet)))
  else
    let capSource := fallbackText (Source packet) (firstText ∅ data ["cap_source"]) in
    banner_sentence data alertText
      (part (sameIntroFromData cfg p data) ++ cleanPacketBodyParts capSource packet)%list.

Definition bannerTextFromData (data : obj) (alertText : string) : result panic string :=
  let? from_packet :=
    match packetFromData data with
    | Some packet => bannerTextFromPacket packet (WithLegacyFields packet data) alertText
    | None => Ok ""
    end in
  if negb (from_packet =? "") then Ok from_packet
  else if negb (TrimSpace (firstText ∅ data ["banner_text"]) =? "")
  then Ok (TrimSpace (firstText ∅ data ["banner_text"]))
  else banner_sentence data alertText (part (sameIntroFromData cfg p data) ++ data_body_parts data)%list.
End feed_texts.
End texts.

(** ** A text that is cut out of range

    An intro is compared in lower case and its own length is cut off the text.
    The Kelvin sign is three bytes long and its lower case, the letter k, one:
    the cut lies behind the end of the text. *)
Theorem custom_text_out_of_range :
  customAlertTextFromData (message [("alert_text", AString "k"); ("same_intro", AString (encode_rune 8490))]) =
  Err (SliceBounds 3 1).
Proof. by vm_compute. Qed.

(** The cut is in range for an intro without such letters. *)
Lemma after_intro_ok text intros :
  Forall (fun intro => String.length (ToLower intro) = String.length intro) intros ->
  String.length (ToLower text) = String.length text -> exists rest, after_intro text intros = Ok rest.
Proof.
  intros Hi Ht. induction Hi as [|intro intros Hl Hi IH]; [by eexists|]. cbn [after_intro].
  destruct (negb (intro =? "") && HasPrefix (ToLower text) (ToLower intro)) eqn:E; [|done].
  apply andb_true_iff in E as [_ E]. apply HasPrefix_spec in E as [t E].
  assert (Hle : (String.length intro <= String.length text)%nat).
  { rewrite <- Hl, <- Ht, E, <- !length_bytes_of, bytes_of_app, length_app. lia. }
  unfold slice_from. apply Nat.leb_le in Hle. rewrite Hle. by eexists.
Qed.
