(* ===== verification/BridgeClient.v ===== *)
(** Requests to the other services over the event bridge
    ([services/go/internal/playlist/bridge.go], the calling side): rendering a
    product and synthesising speech.

    The answers come from other programs and are an interface: an answer may
    depend on everything sent so far, and a request that is given up (its
    context ends) answers with an error.  What happens on the receiving side of
    the bridge is in [EventBridge]. *)

From S2P Require Import Prelude UnicodeTables GoStrings GoTime GoValue GoPath AlertPacket.
From S2P Require Import PlaylistModel World AlertRequest AudioRetention PlannerState AlertCommit Wav.
From S2P Require Import AudioFiles.

#[local] Open Scope Z_scope.
#[local] Open Scope string_scope.
#[local] Open Scope haze_scope.

Record renderedSegment := MkSegment {
  seg_Kind : string; seg_Label : string; seg_Text : string; seg_AudioPath : string }.
Record renderedProduct := MkProduct {
  prod_ID : string; prod_FeedID : string; prod_PackageID : string; prod_Title : string;
  prod_Text : string; prod_ReaderID : string; prod_Language : string;
  prod_Segments : list renderedSegment; prod_Metadata : list (string * string) }.

Record synthJob := MkSynthJob {
  job_ID : string; VoiceRouteKey : string; job_Text : string; job_ReaderID : string;
  job_Language : string; job_Timezone : string; OutputPath : string; TargetSampleRate : Z;
  TargetChannels : Z; job_Priority : string }.

Class Remote := {
  (* the answer to the last of these messages *)
  rendered : list obj -> result string renderedProduct;
  synthesized : list obj -> result string string;
  (* what speech synthesis left at the output path of the last request *)
  speech_file : list obj -> option bytes }.

Section client.
Context `{Env} `{Tools} `{Remote}.

Definition render_message (requestID feedID packageID language : string) : obj :=
  message [("type", AString "product.render.request"); ("source", AString serviceID);
    ("subject", AString requestID);
    ("data", AMap (message [("request_id", AString requestID); ("feed_id", AString feedID);
       ("package_id", AString packageID); ("pkg_id", AString packageID);
       ("language", AString language)]))].

Definition RenderProduct (requestID feedID packageID language : string) :
    M World (result string renderedProduct) :=
  let! err := Publish (render_message requestID feedID packageID language) in
  match err with
  | Some e => ret (Err e)
  | None => gets (fun w => rendered (published w))
  end.

Definition normalizeSynthesisPriority (raw : string) : string :=
  let value := ToLower (TrimSpace raw) in
  if mem value ["high"; "realtime"; "urgent"; "radio"; "playout"] then "high"
  else if mem value ["low"; "batch"; "background"] then "low"
  else "normal".

Definition synth_message (job : synthJob) (id : string) (deadline : option Z) : obj :=
  let voiceRouteKey := TrimSpace (VoiceRouteKey job) in
  let data := message [("job_id", AString id);
    ("voice_route_key", AString (if voiceRouteKey =? "" then id else voiceRouteKey));
    ("text", AString (job_Text job)); ("reader_id", AString (job_ReaderID job));
    ("language", AString (job_Language job)); ("timezone", AString (job_Timezone job));
    ("output_path", AString (OutputPath job)); ("target_sample_rate", AInt (TargetSampleRate job));
    ("target_channels", AInt (TargetChannels job));
    ("priority", AString (normalizeSynthesisPriority (job_Priority job)))] in
  let data := match deadline with
              | Some t => <["deadline_at" := AString (FormatRFC3339Nano t)]> data
              | None => data
              end in
  message [("type", AString "tts.synthesize"); ("source", AString serviceID);
    ("subject", AString id); ("data", AMap data)].

(** What speech synthesis did in the file system before it answered. *)
Definition speech_arrives (path : string) : M World unit :=
  let! file := gets (fun w => speech_file (published w)) in
  match file with
  | Some b => put path b
  | None => ret tt
  end.

Definition Synthesize (deadline : option Z) (job : synthJob) : M World (result string string) :=
  let! id := (if TrimSpace (job_ID job) =? ""
              then let! t := now in ret ("tts-" +:+ Itoa t) else ret (job_ID job)) in
  let! err := (if OutputPath job =? "" then ret None else MkdirAll (Dir (OutputPath job))) in
  match err with
  | Some e => ret (Err e)
  | None =>
      let! err := Publish (synth_message job id deadline) in
      match err with
      | Some e => ret (Err e)
      | None =>
          speech_arrives (OutputPath job) ;;;
          gets (fun w => synthesized (published w))
      end
  end.
End client.

(** ** Facts *)

(** [m] changes files in [P] only and sends only messages in [T]. *)
Definition within {A} (P : string -> Prop) (T : obj -> Prop) (m : M World A) : Prop :=
  forall w, (forall k, ~ P k -> files (m w).2 !! k = files w !! k) /\
    exists sent, published (m w).2 = (published w ++ sent)%list /\ Forall T sent.

Lemma within_only {A} P T (m : M World A) : only P m -> within P T m.
Proof. intros Hm w. destruct (Hm w) as [Hf ->]. split; [done|]. exists []. by rewrite app_nil_r. Qed.

Lemma within_bind_at {A B} P T (m : M World A) (f : A -> M World B) :
  within P T m -> (forall w, within P T (f (m w).1)) -> within P T (mbind f m).
Proof.
  intros Hm Hf w. rewrite mbind_eq. destruct (Hm w) as (H1 & sent1 & H2 & H3).
  destruct (Hf w (m w).2) as (H4 & sent2 & H5 & H6). split.
  - intros k Hk. rewrite H4, H1; done.
  - exists (sent1 ++ sent2)%list. rewrite H5, H2, app_assoc. split; [done|by apply Forall_app].
Qed.
Lemma within_bind {A B} P T (m : M World A) (f : A -> M World B) :
  within P T m -> (forall a, within P T (f a)) -> within P T (mbind f m).
Proof. intros Hm Hf. by apply within_bind_at. Qed.
Lemma within_bind_with {A B} (Q : A -> Prop) P T (m : M World A) (f : A -> M World B) :
  within P T m -> returns Q m -> (forall a, Q a -> within P T (f a)) -> within P T (mbind f m).
Proof. intros Hm Hq Hf. apply within_bind_at; [done|]. intros w. apply Hf, Hq. Qed.
Lemma within_mono {A} (P Q : string -> Prop) T (m : M World A) :
  (forall k, P k -> Q k) -> within P T m -> within Q T m.
Proof. intros HPQ Hm w. destruct (Hm w) as [H1 H2]. split; [|done]. intros k Hk. apply H1. auto. Qed.

Definition sent_type (l : list string) (m : obj) : Prop := In (stringAt m "type") l.

Section messages.
Context `{Env} `{Tools} `{Remote} (P : string -> Prop) (types : list string).

Lemma within_Publish m : In (stringAt m "type") types -> within P (sent_type types) (Publish m).
Proof.
  intros Hm. unfold Publish.
  apply (within_bind_with (fun m' => stringAt m' "type" = stringAt m "type")).
  - apply within_only. destruct (m !! "timestamp"); only_walk.
  - destruct (m !! "timestamp"); [by apply returns_ret|]. apply returns_bind. intros t.
    apply returns_ret. by rewrite stringAt_insert.
  - intros m' Hm'. apply within_bind; [by apply within_only|]. intros [e|]; [by apply within_only|].
    intros w. rewrite mbind_eq. cbn. split; [done|]. exists [m']. split; [done|].
    repeat constructor. unfold sent_type. by rewrite Hm'.
Qed.

Lemma within_RenderProduct id f k l : In "product.render.request" types ->
  within P (sent_type types) (RenderProduct id f k l).
Proof.
  intros Ht. unfold RenderProduct. apply within_bind; [by apply within_Publish|].
  intros [e|]; by apply within_only.
Qed.

Lemma within_Synthesize d job : In "tts.synthesize" types -> P (OutputPath job) ->
  within P (sent_type types) (Synthesize d job).
Proof.
  intros Ht Hp. unfold Synthesize. apply within_bind.
  { destruct (_ =? _); apply within_only; only_walk. }
  intros id. apply within_bind; [destruct (_ =? _); by apply within_only|].
  intros [e|]; [by apply within_only|]. apply within_bind; [by apply within_Publish|].
  intros [e|]; [by apply within_only|]. apply within_bind; [|by intros; apply within_only].
  apply within_only. unfold speech_arrives. only_walk.
Qed.
End messages.

(** A path that speech synthesis may answer with. *)
Definition answered `{Remote} (k : string) : Prop := exists sent, synthesized sent = Ok k.

Lemma Synthesize_answers `{Env} `{Tools} `{Remote} d job :
  returns (fun r => match r with Ok k => answered k | Err _ => True end) (Synthesize d job).
Proof.
  unfold Synthesize. apply returns_bind. intros id. apply returns_bind. intros [e|]; [done|].
  apply returns_bind. intros [e|]; [done|]. apply returns_bind. intros _ w. cbn.
  destruct (synthesized (published w)) eqn:E; [|done]. by exists (published w).
Qed.

(** Walk through an operation: every branch ends in a hint. *)
Ltac within_walk :=
  repeat first
    [ solve [apply within_only; eauto 2 with files]
    | match goal with
      | |- within _ _ (mbind _ _) => apply within_bind; [|intros ?]
      | |- within _ _ (match ?x with _ => _ end) => destruct x
      | |- within _ _ (let '(_, _) := ?x in _) => destruct x
      | |- within _ _ (let _ := _ in _) => cbv zeta
      | |- within _ _ (whenb ?b _) => destruct b; cbn [whenb]
      end ].
