(* ===== verification/StationText.v ===== *)
(** What the station says of itself ([internal/playlist/config.go] and
    [staticProduct] of [service.go]): the time of day in words, the station's
    identification, and texts that carry a pronunciation.

    The abbreviation of a time zone at an instant is part of the zone database and
    an interface. *)

From S2P Require Import Prelude UnicodeTables GoStrings GoTime GoValue GoPath AlertPacket.
From S2P Require Import PlaylistModel World AlertRequest AudioRetention PlannerState AlertCommit Wav.
From S2P Require Import AudioFiles BridgeClient.

#[local] Open Scope Z_scope.
#[local] Open Scope string_scope.

Class ZoneNames := {
  (* [now.Format("MST")] in the zone of that name, [None] for the local one *)
  abbreviation : option string -> Z -> string }.

(** ** Texts with a pronunciation *)

Definition spoken_keys : list string := ["pronunciation"; "pronounciation"; "text"; "name"].
(** The first of the keys that has a text. *)
Definition first_spoken (texts : gmap string string) : string :=
  default "" (List.find (fun text => negb (text =? "")) (map (fun key => default "" (texts !! key)) spoken_keys)).

Section spoken.
Context `{JSON}.

(** The values of a map are spoken before one of them is chosen; of a list, later
    maps override earlier ones. *)
Fixpoint spokenText (value : any) : string :=
  match value with
  | AString s => TrimSpace s
  | AList l =>
      first_spoken (fold_left (fun merged child => child ∪ merged)
        (map (fun item => match item with AMap m => spokenText <$> m | _ => ∅ end) l) ∅)
  | AMap m => first_spoken (spokenText <$> m)
  | ANil => ""
  | v => TrimSpace (Sprint v)
  end.
End spoken.

Definition spokenNetworkName (t : transmitterXML) : string :=
  default "" (List.find (fun text => negb (text =? ""))
    (map TrimSpace [Pronunciation t; Pronounciation t; NetworkName t])).

(** [spokenCallsign]: the runes of a call sign, one by one. *)
Definition spokenCallsign (callsign : string) : string :=
  let callsign := TrimSpace callsign in
  if callsign =? "" then ""
  else Join (map (fun r => encode_rune (rune_upper r))
         (List.filter (fun r => negb (existsb (Z.eqb r) [45; 32; 95])) (runes callsign))) " ".

(** ** The time of day *)

Definition ones : list string :=
  ["zero"; "one"; "two"; "three"; "four"; "five"; "six"; "seven"; "eight"; "nine"; "ten"; "eleven";
   "twelve"; "thirteen"; "fourteen"; "fifteen"; "sixteen"; "seventeen"; "eighteen"; "nineteen"].
Definition tens : list string := [""; ""; "twenty"; "thirty"; "forty"; "fifty"].
Definition word (l : list string) (n : Z) : string := nth (Z.to_nat n) l "".

Definition numberToWords (value : Z) (hour : bool) : string :=
  let value := if hour && (value =? 0)%Z then 12 else value in
  if (0 <=? value)%Z && (value <? 20)%Z then word ones value
  else if (20 <=? value)%Z && (value <? 60)%Z then
    if (value mod 10 =? 0)%Z then word tens (value / 10)
    else TrimSpace (word tens (value / 10) +:+ " " +:+ word ones (value mod 10))
  else Itoa value.

Definition timezoneName (abbrev : string) : string :=
  match assigned abbrev
    [("CST", Some "Central Standard Time"); ("CDT", Some "Central Daylight Time");
     ("MST", Some "Mountain Standard Time"); ("MDT", Some "Mountain Daylight Time");
     ("EST", Some "Eastern Standard Time"); ("EDT", Some "Eastern Daylight Time");
     ("PST", Some "Pacific Standard Time"); ("PDT", Some "Pacific Daylight Time");
     ("UTC", Some "Coordinated Universal Time")] with
  | Some name => name
  | None => TrimSpace abbrev
  end.

(** A time in its zone: hour and minute of the day, and the zone's abbreviation. *)
Record wallClock := MkClock { Hour_ : Z; Minute_ : Z; Zone_ : string }.

Definition spokenClockTime (c : wallClock) : string :=
  let hour := if (Hour_ c mod 12 =? 0)%Z then "twelve" else numberToWords (Hour_ c mod 12) true in
  let ampm := if (12 <=? Hour_ c)%Z then "P.M." else "A.M." in
  let tz := timezoneName (Zone_ c) in
  if (Minute_ c =? 0)%Z then TrimSpace (hour +:+ " " +:+ ampm +:+ ", " +:+ tz)
  else
    let minuteText := numberToWords (Minute_ c) false in
    let minuteText := if (Minute_ c <? 10)%Z then "oh " +:+ minuteText else minuteText in
    TrimSpace (hour +:+ " " +:+ minuteText +:+ " " +:+ ampm +:+ ", " +:+ tz).

Definition period (hour : Z) : string :=
  if (5 <=? hour)%Z && (hour <? 12)%Z then "morning"
  else if (12 <=? hour)%Z && (hour <? 17)%Z then "afternoon"
  else if (17 <=? hour)%Z && (hour <? 22)%Z then "evening"
  else "night".
Definition timeGreeting (hour : Z) (lang : string) : string :=
  let period := period hour in
  if lang =? "fr" then
    if period =? "morning" then "Bonjour."
    else if period =? "afternoon" then "Bon après-midi."
    else if period =? "evening" then "Bonsoir."
    else "Bonne nuit."
  else if lang =? "es" then
    if period =? "morning" then "Buenos días."
    else if period =? "afternoon" then "Buenas tardes."
    else "Buenas noches."
  else if period =? "morning" then "Good morning."
  else if period =? "afternoon" then "Good afternoon."
  else if period =? "evening" then "Good evening."
  else "Good night.".

Definition short_language (lang : string) : string :=
  let short := ToLower (TrimSpace lang) in
  match Index short "-" with
  | Some (S _ as i) => take_bytes i short
  | _ => short
  end.
Definition dateTimeAnnouncement (c : wallClock) (lang : string) : string :=
  let short := short_language lang in
  let prefix := timeGreeting (Hour_ c) short in
  let timeText := spokenClockTime c in
  if short =? "fr" then TrimSpace (prefix +:+ " Il est actuellement " +:+ timeText +:+ ".")
  else if short =? "es" then TrimSpace (prefix +:+ " La hora actual es " +:+ timeText +:+ ".")
  else TrimSpace (prefix +:+ " The current time is " +:+ timeText +:+ ".").

(** ** The station's own products *)

Section products.
Context `{JSON} `{Zones} `{ZoneNames} (cfg : loadedConfig).

(** [now.In(feedLocation(feed))]. *)
Definition local_clock (f : feedXML) (t : Z) : wallClock :=
  let seconds := t / Second in
  let local := (seconds + feedLocation f seconds) mod 86400 in
  MkClock (local / 3600) (local mod 3600 / 60)
    (abbreviation (match LoadLocation (feedTimezone f) with Some _ => Some (feedTimezone f) | None => None end) t).

Definition replacementStationStatement (f : feedXML) : string :=
  match replacementTransmitter f with
  | None => ""
  | Some transmitter =>
      let callsign := TrimSpace (TxCallsign transmitter) in
      let site := TrimSpace (SiteName transmitter) in
      if (callsign =? "") && (site =? "") then ""
      else
        let network := TrimSpace (spokenNetworkName transmitter) in
        let network := if network =? "" then "Weatheradio Canada" else network in
        Join (["This station replaces former"; network; "station"] ++
              (if callsign =? "" then [] else [callsign]) ++
              (if site =? "" then [] else ["in"; site]))%list " " +:+ "."
  end.

Definition station_parts (f : feedXML) : list string :=
  let onAirName := spokenText (OnAirName cfg) in
  let onAirName := if onAirName =? "" then "Haze Weather Radio" else onAirName in
  let site := feedName f in
  let callsignSpoken := spokenCallsign (feedCallsign f) in
  let frequency := feedFrequencyMHz f in
  let replacement := replacementStationStatement f in
  (["You are listening to " +:+ onAirName +:+ "."] ++
   (if callsignSpoken =? "" then [] else ["Callsign " +:+ callsignSpoken +:+ "."]) ++
   (if negb (frequency =? "") then
      ["Broadcasting from " +:+ fallbackText site (feed_ID f) +:+ " on a frequency of " +:+ frequency +:+ " megahertz."]
    else if negb (site =? "") then ["Serving " +:+ site +:+ "."] else []) ++
   (if replacement =? "" then [] else [replacement]))%list.

Definition staticProduct (f : feedXML) (pkgID language : string) (t : Z) : result string renderedProduct :=
  let language := fallbackText language (feedLanguage f) in
  let id := feed_ID f +:+ "-" +:+ pkgID +:+ "-" +:+ Itoa t in
  let kind := ToLower (TrimSpace pkgID) in
  if kind =? "station_id" then
    Ok (MkProduct id (feed_ID f) pkgID "Station Identification" (Join (station_parts f) " ") "00" language [] [])
  else if kind =? "date_time" then
    Ok (MkProduct id (feed_ID f) pkgID "Date and Time" (dateTimeAnnouncement (local_clock f t) language)
          "00" language [] [])
  else Err ("no static fallback for " +:+ pkgID).
End products.
