(* ===== verification/EventBridge.v ===== *)
(** The receiving side of the event bridge
    ([services/go/internal/playlist/bridge.go]): the read loop, the two event
    lanes, and the requests that wait for an answer.

    One goroutine reads the connection; any number of goroutines wait for
    answers, and the service's loop takes events from the lanes.  They share the
    tables of pending requests, under a mutex, and the channels.  [step] is their
    interleaving: every section under the mutex that cannot block is one step;
    the loop that ends the bridge holds the mutex while it sends, so each of its
    sends is a step and the mutex is taken in between. *)

From stdpp Require Import relations.
From S2P Require Import Prelude UnicodeTables GoStrings GoTime GoValue GoPath AlertPacket.
From S2P Require Import PlaylistModel World AlertRequest AudioRetention PlannerState AlertCommit Wav.
From S2P Require Import AudioFiles BridgeClient.

#[local] Open Scope Z_scope.
#[local] Open Scope string_scope.
#[local] Open Scope haze_scope.

Definition bridgeEventBuffer : nat := Z.to_nat 8192.
Definition bridgeCriticalEventBuffer : nat := Z.to_nat 256.

(** Decoding a product from its JSON value. *)
Class ProductCodec := { json_product : any -> result string renderedProduct }.

(** ** Answers *)

Inductive table := Products | Synths.
#[export] Instance table_eq_dec : EqDecision table.
Proof. solve_decision. Defined.

Inductive reply := ProductReply (r : result string renderedProduct) | SynthReply (r : result string string).

Section answers.
Context `{ProductCodec}.

(** The first half of [handleProductResult] and [handleSynthResult]: the request
    a message answers, and the answer; [None] for other messages. *)
Definition product_result (message : obj) : option (string * reply) :=
  let msgType := stringAt message "type" in
  if negb (msgType =? "product.rendered") && negb (msgType =? "product.render.failed") then None
  else
    let data := mapAt message "data" in
    Some (firstText message data ["request_id"; "subject"],
          ProductReply (if msgType =? "product.render.failed"
                        then Err ("product render failed: " +:+ stringAt data "error")
                        else json_product (default ANil (data !! "product")))).
Definition synth_result (message : obj) : option (string * reply) :=
  let msgType := stringAt message "type" in
  if negb (msgType =? "tts.synthesized") && negb (msgType =? "tts.failed") then None
  else
    let data := mapAt message "data" in
    Some (firstText message data ["job_id"; "subject"],
          SynthReply (if msgType =? "tts.failed"
                      then Err ("TTS failed: " +:+ stringAt data "error")
                      else Ok (stringAt data "output_path"))).
Definition result_of (message : obj) : option (table * string * reply) :=
  match product_result message with
  | Some (id, r) => Some (Products, id, r)
  | None => match synth_result message with Some (id, r) => Some (Synths, id, r) | None => None end
  end.
End answers.

(** What a pending request gets when the connection ends. *)
Definition closed_reply (t : table) (id : string) : reply :=
  let e := "event bridge closed while waiting for " +:+ id in
  match t with Products => ProductReply (Err e) | Synths => SynthReply (Err e) end.

(** ** State *)

(** A request: the code of [RenderProduct] or [Synthesize] in one goroutine, with
    the channel it made, which holds one answer. *)
Inductive outcome := Answered (r : reply) | Expired | Unsent (e : string).
Inductive phase := Registered | Awaiting | Leaving (o : outcome) | Gone (o : outcome).
Record request := MkRequest {
  rq_table : table; rq_id : string; rq_phase : phase; rq_buffer : list reply }.

(** Where the read loop is. *)
Inductive position :=
| Scanning                                (* at [scanner.Scan] *)
| Delivering (i : nat) (r : reply)        (* at the send to a request's channel *)
| Offering (m : obj)                      (* at the first [select] of [enqueueEvent] *)
| Evicting (m : obj)                      (* at the second *)
| Resending (m : obj)                     (* at the third *)
| Blocked (m : obj)                       (* at the [select] of [enqueueCriticalEvent] *)
| Closing (todo : list (table * string * nat))  (* in the last loops, with the mutex *)
| Ended.

Record bridgeState := MkBridge {
  position_ : position; requests : list request;
  pendingProducts : gmap string nat; pendingSynth : gmap string nat;
  events : list obj; criticalEvents : list obj; events_cap : nat; critical_cap : nat;
  stopped : bool;
  (* history: criticals read, events taken, dropped and evicted *)
  criticals_read : list obj; criticals_taken : list obj; dropped : list obj; evicted : list obj;
  heard : list obj }.

Definition connectBridge : bridgeState :=
  MkBridge Scanning [] ∅ ∅ [] [] bridgeEventBuffer bridgeCriticalEventBuffer false [] [] [] [] [].

Definition pending (t : table) (s : bridgeState) : gmap string nat :=
  match t with Products => pendingProducts s | Synths => pendingSynth s end.
Definition set_position (p : position) (s : bridgeState) : bridgeState :=
  MkBridge p (requests s) (pendingProducts s) (pendingSynth s) (events s) (criticalEvents s)
    (events_cap s) (critical_cap s) (stopped s) (criticals_read s) (criticals_taken s) (dropped s)
    (evicted s) (heard s).
Definition set_requests (l : list request) (s : bridgeState) : bridgeState :=
  MkBridge (position_ s) l (pendingProducts s) (pendingSynth s) (events s) (criticalEvents s)
    (events_cap s) (critical_cap s) (stopped s) (criticals_read s) (criticals_taken s) (dropped s)
    (evicted s) (heard s).
Definition set_pending (t : table) (m : gmap string nat) (s : bridgeState) : bridgeState :=
  MkBridge (position_ s) (requests s)
    (match t with Products => m | Synths => pendingProducts s end)
    (match t with Products => pendingSynth s | Synths => m end) (events s) (criticalEvents s)
    (events_cap s) (critical_cap s) (stopped s) (criticals_read s) (criticals_taken s) (dropped s)
    (evicted s) (heard s).
Definition set_events (l : list obj) (s : bridgeState) : bridgeState :=
  MkBridge (position_ s) (requests s) (pendingProducts s) (pendingSynth s) l (criticalEvents s)
    (events_cap s) (critical_cap s) (stopped s) (criticals_read s) (criticals_taken s) (dropped s)
    (evicted s) (heard s).
Definition set_criticals (l taken : list obj) (s : bridgeState) : bridgeState :=
  MkBridge (position_ s) (requests s) (pendingProducts s) (pendingSynth s) (events s) l
    (events_cap s) (critical_cap s) (stopped s) (criticals_read s) taken (dropped s)
    (evicted s) (heard s).
Definition set_stopped (s : bridgeState) : bridgeState :=
  MkBridge (position_ s) (requests s) (pendingProducts s) (pendingSynth s) (events s)
    (criticalEvents s) (events_cap s) (critical_cap s) true (criticals_read s) (criticals_taken s)
    (dropped s) (evicted s) (heard s).
Definition drop (m : obj) (s : bridgeState) : bridgeState :=
  MkBridge (position_ s) (requests s) (pendingProducts s) (pendingSynth s) (events s)
    (criticalEvents s) (events_cap s) (critical_cap s) (stopped s) (criticals_read s)
    (criticals_taken s) (dropped s ++ [m])%list (evicted s) (heard s).
Definition evict (l : list obj) (s : bridgeState) : bridgeState :=
  MkBridge (position_ s) (requests s) (pendingProducts s) (pendingSynth s) (events s)
    (criticalEvents s) (events_cap s) (critical_cap s) (stopped s) (criticals_read s)
    (criticals_taken s) (dropped s) (evicted s ++ l)%list (heard s).
Definition hear (m : obj) (s : bridgeState) : bridgeState :=
  MkBridge (position_ s) (requests s) (pendingProducts s) (pendingSynth s) (events s)
    (criticalEvents s) (events_cap s) (critical_cap s) (stopped s)
    (if playlistCriticalEvent (stringAt m "type") then criticals_read s ++ [m] else criticals_read s)%list
    (criticals_taken s) (dropped s) (evicted s) (heard s ++ [m])%list.

Definition set_phase (p : phase) (rq : request) : request := MkRequest (rq_table rq) (rq_id rq) p (rq_buffer rq).
Definition set_buffer (l : list reply) (rq : request) : request := MkRequest (rq_table rq) (rq_id rq) (rq_phase rq) l.

(** The mutex is free unless the last loops run. *)
Definition mu_free (s : bridgeState) : Prop :=
  match position_ s with Closing _ => False | _ => True end.

(** A send to the channel of request [i], when it does not block. *)
Definition send (i : nat) (r : reply) (s : bridgeState) : option bridgeState :=
  rq ← requests s !! i;
  match rq_buffer rq with
  | [] => Some (set_requests (<[i := set_buffer [r] rq]> (requests s)) s)
  | _ => None
  end.

(** ** The read loop *)

Section steps.
Context `{ProductCodec}.

(** A message was read: an answer is looked up, an event goes to its lane. *)
Definition read_message (m : obj) (s : bridgeState) : bridgeState :=
  match result_of m with
  | Some (t, id, r) =>
      if id =? "" then hear m s
      else match pending t s !! id with
           | None => hear m s
           | Some i => set_position (Delivering i r) (hear m s)
           end
  | None =>
      if playlistCriticalEvent (stringAt m "type") then set_position (Blocked m) (hear m s)
      else set_position (Offering m) (hear m s)
  end.

(** The selects of [enqueueEvent], one after the other. *)
Definition offer (m : obj) (s : bridgeState) : bridgeState :=
  if (length (events s) <? events_cap s)%nat then set_position Scanning (set_events (events s ++ [m])%list s)
  else if negb (playlistLifecycleEvent (stringAt m "type")) then set_position Scanning (drop m s)
  else set_position (Evicting m) s.
Definition evict_oldest (m : obj) (s : bridgeState) : bridgeState :=
  match events s with
  | [] => set_position (Resending m) s
  | e :: l => set_position (Resending m) (set_events l (evict [e] s))
  end.
Definition resend (m : obj) (s : bridgeState) : bridgeState :=
  if (length (events s) <? events_cap s)%nat then set_position Scanning (set_events (events s ++ [m])%list s)
  else set_position Scanning (drop m s).

(** The entries the last loops range over. *)
Definition entries (s : bridgeState) : list (table * string * nat) :=
  (map (fun kv => (Products, kv.1, kv.2)) (map_to_list (pendingProducts s)) ++
   map (fun kv => (Synths, kv.1, kv.2)) (map_to_list (pendingSynth s)))%list.

(** ** Steps *)

Inductive step : bridgeState -> bridgeState -> Prop :=
(* the read loop *)
| step_message m s : position_ s = Scanning -> step s (read_message m s)
| step_deliver i r s s' : position_ s = Delivering i r -> send i r s = Some s' ->
    step s (set_position Scanning s')
| step_offer m s : position_ s = Offering m -> step s (offer m s)
| step_evict m s : position_ s = Evicting m -> step s (evict_oldest m s)
| step_resend m s : position_ s = Resending m -> step s (resend m s)
| step_critical m s : position_ s = Blocked m -> (length (criticalEvents s) < critical_cap s)%nat ->
    step s (set_position Scanning (set_criticals (criticalEvents s ++ [m])%list (criticals_taken s) s))
| step_critical_dropped m s : position_ s = Blocked m -> stopped s = true ->
    step s (set_position Scanning (drop m s))
| step_eof todo s : position_ s = Scanning -> todo ≡ₚ entries s -> step s (set_position (Closing todo) s)
| step_close_send t id i todo s s' : position_ s = Closing ((t, id, i) :: todo) ->
    send i (closed_reply t id) s = Some s' ->
    step s (set_position (Closing todo) (set_pending t (delete id (pending t s')) s'))
| step_close_end s : position_ s = Closing [] -> step s (set_position Ended s)
(* a request *)
| step_register t id s : mu_free s ->
    step s (set_pending t (<[id := length (requests s)]> (pending t s))
              (set_requests (requests s ++ [MkRequest t id Registered []])%list s))
| step_publish i rq s : requests s !! i = Some rq -> rq_phase rq = Registered -> mu_free s ->
    step s (set_requests (<[i := set_phase Awaiting rq]> (requests s)) s)
| step_publish_failed i rq e s : requests s !! i = Some rq -> rq_phase rq = Registered ->
    step s (set_requests (<[i := set_phase (Leaving (Unsent e)) rq]> (requests s)) s)
| step_receive i rq r s : requests s !! i = Some rq -> rq_phase rq = Awaiting -> rq_buffer rq = [r] ->
    step s (set_requests (<[i := set_buffer [] (set_phase (Leaving (Answered r)) rq)]> (requests s)) s)
| step_expire i rq s : requests s !! i = Some rq -> rq_phase rq = Awaiting ->
    step s (set_requests (<[i := set_phase (Leaving Expired) rq]> (requests s)) s)
| step_leave i rq o s : requests s !! i = Some rq -> rq_phase rq = Leaving o -> mu_free s ->
    step s (set_pending (rq_table rq) (delete (rq_id rq) (pending (rq_table rq) s))
              (set_requests (<[i := set_phase (Gone o) rq]> (requests s)) s))
(* the service's loop, and [Close] *)
| step_take_event e l s : events s = e :: l -> step s (set_events l s)
| step_take_critical e l s : criticalEvents s = e :: l ->
    step s (set_criticals l (criticals_taken s ++ [e])%list s)
| step_stop s : step s (set_stopped s).

Definition reachable (s : bridgeState) : Prop := rtc step connectBridge s.
End steps.

(** ** The lanes *)

Section lanes.
Context `{ProductCodec}.

Definition held (s : bridgeState) : list obj :=
  match position_ s with Blocked m => [m] | _ => [] end.
Definition critical (m : obj) : bool := playlistCriticalEvent (stringAt m "type").
Definition lifecycle (m : obj) : bool := playlistLifecycleEvent (stringAt m "type").

(** What the read loop knows about the event it is placing. *)
Definition placing (s : bridgeState) : Prop :=
  match position_ s with
  | Offering m => critical m = false
  | Evicting m => critical m = false /\ lifecycle m = true
  | Resending m => critical m = false /\ lifecycle m = true /\ (length (events s) < events_cap s)%nat
  | Blocked m => critical m = true
  | _ => True
  end.

Record lanes_ok (s : bridgeState) : Prop := {
  caps : events_cap s = bridgeEventBuffer /\ critical_cap s = bridgeCriticalEventBuffer;
  events_fit : (length (events s) <= events_cap s)%nat;
  criticals_fit : (length (criticalEvents s) <= critical_cap s)%nat;
  placing_ok : placing s;
  in_order : (criticals_taken s ++ criticalEvents s ++ held s)%list `sublist_of` criticals_read s;
  complete : stopped s = false ->
    criticals_read s = (criticals_taken s ++ criticalEvents s ++ held s)%list;
  drops_ok : Forall (fun m => lifecycle m = false /\ (critical m = true -> stopped s = true)) (dropped s) }.

#[local] Arguments bridgeEventBuffer : simpl never.
#[local] Arguments bridgeCriticalEventBuffer : simpl never.
#[local] Arguments playlistCriticalEvent _ : simpl never.
#[local] Arguments playlistLifecycleEvent _ : simpl never.
#[local] Arguments critical _ : simpl never.
#[local] Arguments lifecycle _ : simpl never.

Lemma critical_not_lifecycle t : playlistCriticalEvent t = true -> playlistLifecycleEvent t = false.
Proof.
  unfold playlistCriticalEvent, playlistLifecycleEvent. intros Hc. apply mem_spec in Hc.
  destruct Hc as [<-|[<-|[]]]; reflexivity.
Qed.

Lemma answers_not_critical m x : result_of m = Some x -> critical m = false.
Proof.
  unfold result_of, product_result, synth_result, critical. intros Hr.
  destruct (playlistCriticalEvent _) eqn:E; [|done]. unfold playlistCriticalEvent in E.
  apply mem_spec in E.
  destruct (stringAt m "type") as [|c l]; [by destruct E as [E|[E|[]]]|].
  exfalso. revert Hr. generalize dependent (String c l). intros k Hk.
  destruct (decide (k = "product.rendered")) as [->|]; [by destruct Hk as [Hk|[Hk|[]]]|].
  destruct (decide (k = "product.render.failed")) as [->|]; [by destruct Hk as [Hk|[Hk|[]]]|].
  destruct (decide (k = "tts.synthesized")) as [->|]; [by destruct Hk as [Hk|[Hk|[]]]|].
  destruct (decide (k = "tts.failed")) as [->|]; [by destruct Hk as [Hk|[Hk|[]]]|].
  rewrite !(proj2 (String.eqb_neq _ _)) by done. done.
Qed.

(** [lanes_ok] does not look at the requests. *)
Definition same_lanes (s s' : bridgeState) : Prop :=
  exists l p q, s' = MkBridge (position_ s) l p q (events s) (criticalEvents s) (events_cap s)
    (critical_cap s) (stopped s) (criticals_read s) (criticals_taken s) (dropped s) (evicted s) (heard s).

Lemma lanes_requests s s' : same_lanes s s' -> lanes_ok s -> lanes_ok s'.
Proof. intros (l & p & q & ->) [H1 H2 H3 H4 H5 H6 H7]. by split. Qed.

Lemma same_requests l s : same_lanes s (set_requests l s).
Proof. by eexists _, _, _. Qed.
Lemma same_pending t m l s : same_lanes s (set_pending t m (set_requests l s)).
Proof. by destruct t; eexists _, _, _. Qed.

(** The read loop leaves an event where it is, or has placed it. *)
Lemma lanes_position p s :
  lanes_ok s -> held (set_position p s) = held s -> placing (set_position p s) -> lanes_ok (set_position p s).
Proof.
  intros [H1 H2 H3 H4 H5 H6 H7] Hh Hp. split; try done; rewrite Hh; done.
Qed.

Lemma lanes_send i r s s' p :
  send i r s = Some s' -> held s = [] -> (forall m, p <> Offering m) -> lanes_ok s ->
  held (set_position p s') = [] -> placing (set_position p s') -> lanes_ok (set_position p s').
Proof.
  unfold send. intros Hs Hh _ Hl Hh' Hp. destruct (requests s !! i) as [rq|]; cbn in Hs; [|done].
  destruct (rq_buffer rq); [|done]. injection Hs as <-. apply lanes_position; [|by rewrite Hh'|done].
  eapply lanes_requests; [apply same_requests|done].
Qed.

Lemma lanes_message m s : position_ s = Scanning -> lanes_ok s -> lanes_ok (read_message m s).
Proof.
  intros Hp [H1 H2 H3 H4 H5 H6 H7]. unfold held, placing in *. rewrite Hp in *.
  unfold read_message. destruct (result_of m) as [[[t id] r]|] eqn:Hr.
  - pose proof (answers_not_critical _ _ Hr) as Hc. unfold critical in Hc.
    assert (lanes_ok (hear m s)) as Hl.
    { split; unfold held, placing; cbn; rewrite ?Hp, ?Hc; done. }
    destruct (id =? ""); [done|]. destruct (pending t s !! id); [|done].
    apply lanes_position; [done| |done]. unfold held. cbn. by rewrite Hp.
  - destruct (playlistCriticalEvent (stringAt m "type")) eqn:Hc.
    + split; unfold held, placing, critical; cbn; rewrite ?Hc; try done.
      * rewrite app_nil_r in H5. rewrite app_assoc. by apply sublist_app.
      * intros Hs. rewrite (H6 Hs), app_nil_r. by rewrite <-app_assoc.
    + split; unfold held, placing, critical; cbn; rewrite ?Hc; done.
Qed.

Lemma lanes_offer m s : position_ s = Offering m -> lanes_ok s -> lanes_ok (offer m s).
Proof.
  intros Hp [H1 H2 H3 H4 H5 H6 H7]. unfold held, placing in *. rewrite Hp in *. unfold offer.
  destruct (Nat.ltb_spec (length (events s)) (events_cap s)).
  - split; try done. cbn. rewrite length_app. cbn. lia.
  - destruct (playlistLifecycleEvent _) eqn:Hl; cbn [negb]; [by split|].
    split; try done. apply Forall_app. split; [done|]. repeat constructor; [done|].
    congruence.
Qed.

Lemma lanes_evict m s : position_ s = Evicting m -> lanes_ok s -> lanes_ok (evict_oldest m s).
Proof.
  intros Hp [H1 H2 H3 H4 H5 H6 H7]. unfold held, placing in *. rewrite Hp in *. unfold evict_oldest.
  destruct (events s) as [|e l] eqn:He.
  - split; try done; unfold placing; cbn; rewrite ?He; [cbn; lia|].
    split_and!; [apply H4..|]. rewrite (proj1 H1). unfold bridgeEventBuffer. cbn. lia.
  - cbn in H2. split; try done; unfold placing; cbn; [lia|]. split_and!; [apply H4..|lia].
Qed.

Lemma lanes_resend m s : position_ s = Resending m -> lanes_ok s -> lanes_ok (resend m s).
Proof.
  intros Hp [H1 H2 H3 H4 H5 H6 H7]. unfold held, placing in *. rewrite Hp in *. unfold resend.
  rewrite (proj2 (Nat.ltb_lt _ _)) by apply H4. split; try done. cbn. rewrite length_app. cbn. lia.
Qed.

Lemma lanes_take s l : lanes_ok s -> suffix l (events s) -> lanes_ok (set_events l s).
Proof.
  intros [H1 H2 H3 H4 H5 H6 H7] [k Hk]. assert (length l <= length (events s))%nat.
  { rewrite Hk, length_app. lia. }
  split; try done; [cbn; lia|]. unfold placing in *. cbn. destruct (position_ s); try done.
  split_and!; [apply H4..|]. destruct H4 as (_ & _ & ?). lia.
Qed.

Lemma lanes_step s s' : step s s' -> lanes_ok s -> lanes_ok s'.
Proof.
  intros Hs Hl. destruct Hs as [m s Hp|i r s s' Hp Hr|m s Hp|m s Hp|m s Hp|m s Hp Hr|m s Hp Hr
    |todo s Hp _|t id i todo s s' Hp Hr|s Hp| | | | | | |e l s He|e l s He|s].
  - by apply lanes_message.
  - eapply lanes_send; try done. unfold held. by rewrite Hp.
  - by apply lanes_offer.
  - by apply lanes_evict.
  - by apply lanes_resend.
  - destruct Hl as [H1 H2 H3 H4 H5 H6 H7]. unfold held in *. rewrite Hp in *. split; try done; cbn.
    + rewrite length_app. cbn. lia.
    + by rewrite app_nil_r.
    + by rewrite app_nil_r.
  - destruct Hl as [H1 H2 H3 H4 H5 H6 H7]. unfold held, placing in *. rewrite Hp in *. split; try done; cbn.
    + rewrite app_nil_r. etrans; [|exact H5]. rewrite app_assoc. by apply sublist_inserts_r.
    + congruence.
    + apply Forall_app. split; [done|]. repeat constructor; [by apply critical_not_lifecycle|done].
  - apply lanes_position; try done. unfold held. by rewrite Hp.
  - assert (lanes_ok (set_position (Closing todo) s')) as Hl'.
    { eapply lanes_send; try done. unfold held. by rewrite Hp. }
    eapply lanes_requests; [|exact Hl']. destruct s', t; by eexists _, _, _.
  - apply lanes_position; try done. unfold held. by rewrite Hp.
  - eapply lanes_requests; [apply same_pending|done].
  - eapply lanes_requests; [apply same_requests|done].
  - eapply lanes_requests; [apply same_requests|done].
  - eapply lanes_requests; [apply same_requests|done].
  - eapply lanes_requests; [apply same_requests|done].
  - eapply lanes_requests; [apply same_pending|done].
  - apply lanes_take; [done|]. rewrite He. by exists [e].
  - destruct Hl as [H1 H2 H3 H4 H5 H6 H7]. rewrite He in *. split; try done; cbn in *; [lia| |].
    + by rewrite <-app_assoc.
    + by rewrite <-app_assoc.
  - destruct Hl as [H1 H2 H3 H4 H5 H6 H7]. split; try done.
    eapply Forall_impl; [|exact H7]. intros m [Hm _]. by split.
Qed.

Lemma lanes_start : lanes_ok connectBridge.
Proof. split; try done; cbn; [unfold bridgeEventBuffer|]; cbn; lia || done. Qed.

Lemma reachable_lanes s : reachable s -> lanes_ok s.
Proof. apply (rtc_ind_r lanes_ok); [apply lanes_start|]. intros y z _ Hs Hl. by eapply lanes_step. Qed.
End lanes.

(** ** Answers reach the request they are for *)

Section routing.
Context `{ProductCodec}.

(** An answer that came for this table and id: a message, or the end. *)
Definition owned (msgs : list obj) (t : table) (id : string) (r : reply) : Prop :=
  r = closed_reply t id \/ exists m, In m msgs /\ result_of m = Some (t, id, r).
(** The answers a request holds: in its channel, or received. *)
Definition replies (rq : request) : list reply :=
  (rq_buffer rq ++ match rq_phase rq with Leaving (Answered r) | Gone (Answered r) => [r] | _ => [] end)%list.
Definition honest (msgs : list obj) (rq : request) : Prop :=
  Forall (owned msgs (rq_table rq) (rq_id rq)) (replies rq).
Definition names (l : list request) : list (table * string) := map (fun rq => (rq_table rq, rq_id rq)) l.

Record routed (s : bridgeState) : Prop := {
  all_honest : Forall (honest (heard s)) (requests s);
  tables_ok : forall t id i, pending t s !! id = Some i -> names (requests s) !! i = Some (t, id);
  reader_ok : match position_ s with
    | Delivering i r => exists t id, names (requests s) !! i = Some (t, id) /\ owned (heard s) t id r
    | Closing todo => Forall (fun e => names (requests s) !! e.2 = Some e.1) todo
    | _ => True
    end }.

Lemma owned_mono msgs m t id r : owned msgs t id r -> owned (msgs ++ [m])%list t id r.
Proof. intros [->|(m' & Hm & Hr)]; [by left|right]. exists m'. rewrite in_app_iff. auto. Qed.
Lemma honest_mono msgs m rq : honest msgs rq -> honest (msgs ++ [m])%list rq.
Proof. intros Hq. eapply Forall_impl; [|exact Hq]. intros r. apply owned_mono. Qed.

Lemma names_insert i rq rq' l :
  l !! i = Some rq -> (rq_table rq', rq_id rq') = (rq_table rq, rq_id rq) -> names (<[i := rq']> l) = names l.
Proof.
  intros Hl He. unfold names. change (map ?f ?k) with (f <$> k). rewrite list_fmap_insert, He.
  apply list_insert_id. by rewrite list_lookup_fmap, Hl.
Qed.

(** A request changed, and the tables lost entries at most. *)
Lemma routed_update i rq rq' q s :
  routed s -> requests s !! i = Some rq -> (rq_table rq', rq_id rq') = (rq_table rq, rq_id rq) ->
  honest (heard s) rq' -> q ⊆ pending (rq_table rq) s ->
  routed (set_pending (rq_table rq) q (set_requests (<[i := rq']> (requests s)) s)).
Proof.
  intros [R1 R2 R3] Hi He Hh Hq.
  assert (forall t m l, heard (set_pending t m (set_requests l s)) = heard s /\
    requests (set_pending t m (set_requests l s)) = l /\
    position_ (set_pending t m (set_requests l s)) = position_ s) as Hfr by done.
  destruct (Hfr (rq_table rq) q (<[i:=rq']> (requests s))) as (F1 & F2 & F3).
  split; rewrite ?F1, ?F2, ?F3, ?(names_insert _ _ _ _ Hi He); [|intros t id j|done].
  - by apply Forall_insert.
  - intros Hp. apply R2. destruct t, (rq_table rq); cbn in *; eauto using lookup_weaken.
Qed.

Lemma set_pending_same t l s : set_pending t (pending t s) (set_requests l s) = set_requests l s.
Proof. by destruct t. Qed.

Lemma routed_request i rq rq' s :
  routed s -> requests s !! i = Some rq -> (rq_table rq', rq_id rq') = (rq_table rq, rq_id rq) ->
  honest (heard s) rq' -> routed (set_requests (<[i := rq']> (requests s)) s).
Proof.
  intros Hr Hi He Hh. pose proof (routed_update _ _ _ _ _ Hr Hi He Hh (reflexivity _)) as Hu.
  by rewrite set_pending_same in Hu.
Qed.

Lemma routed_position p s : routed s ->
  match p with Delivering _ _ | Closing _ => False | _ => True end -> routed (set_position p s).
Proof. intros [R1 R2 _] Hp. split; [done|done|]. by destruct p. Qed.

(** [routed] does not look at the lanes. *)
Lemma routed_lanes s s' : routed s -> requests s' = requests s -> pendingProducts s' = pendingProducts s ->
  pendingSynth s' = pendingSynth s -> heard s' = heard s -> position_ s' = position_ s -> routed s'.
Proof.
  intros [R1 R2 R3] E1 E2 E3 E4 E5. split; rewrite ?E1, ?E4, ?E5; [done| |done].
  intros t id i. destruct t; cbn; rewrite ?E2, ?E3; [apply (R2 Products)|apply (R2 Synths)].
Qed.

Lemma routed_send i r s s' t id : routed s -> names (requests s) !! i = Some (t, id) ->
  owned (heard s) t id r -> send i r s = Some s' ->
  routed s' /\ heard s' = heard s /\ names (requests s') = names (requests s) /\ position_ s' = position_ s.
Proof.
  unfold send. intros Hr Hn Ho Hs. destruct (requests s !! i) as [rq|] eqn:Hi; cbn in Hs; [|done].
  unfold names in Hn. rewrite list_lookup_fmap, Hi in Hn. injection Hn as <- <-.
  destruct (rq_buffer rq) eqn:Hb; [|done]. injection Hs as <-.
  split_and!; [|done|by eapply names_insert|done]. eapply routed_request; try done.
  destruct Hr as [R1 _ _]. pose proof (Forall_lookup_1 _ _ _ _ R1 Hi) as Hh. unfold honest, replies in *.
  cbn. rewrite Hb in Hh. by constructor.
Qed.

Lemma routed_message m s : position_ s = Scanning -> routed s -> routed (read_message m s).
Proof.
  intros Hp [R1 R2 _]. assert (routed (hear m s)) as Hr.
  { split; [|done|cbn; by rewrite Hp]. eapply Forall_impl; [|exact R1]. intros rq. apply honest_mono. }
  unfold read_message. destruct (result_of m) as [[[t id] r]|] eqn:Hres.
  - destruct (id =? ""); [done|]. destruct (pending t s !! id) as [i|] eqn:Ht; [|done].
    destruct Hr as [Q1 Q2 _]. split; [done..|]. cbn. exists t, id. split; [by apply R2|].
    right. exists m. rewrite in_app_iff. cbn. auto.
  - destruct (playlistCriticalEvent _); by apply routed_position.
Qed.

Lemma routed_eof todo s : todo ≡ₚ entries s -> routed s -> routed (set_position (Closing todo) s).
Proof.
  intros Ht [R1 R2 _]. split; [done..|]. cbn. rewrite Ht. unfold entries. apply Forall_app. split.
  - apply Forall_forall. intros e He. apply in_map_iff in He as ([id i] & <- & Hm).
    apply (R2 Products), elem_of_map_to_list, list_elem_of_In, Hm.
  - apply Forall_forall. intros e He. apply in_map_iff in He as ([id i] & <- & Hm).
    apply (R2 Synths), elem_of_map_to_list, list_elem_of_In, Hm.
Qed.

(** The request moved on, with the answers it had. *)
Lemma honest_same s i rq rq' : routed s -> requests s !! i = Some rq ->
  (rq_table rq', rq_id rq') = (rq_table rq, rq_id rq) -> replies rq' = replies rq -> honest (heard s) rq'.
Proof.
  intros Hr Hi [= E1 E2] E3. unfold honest. rewrite E1, E2, E3.
  exact (Forall_lookup_1 _ _ _ _ (all_honest _ Hr) Hi).
Qed.
Lemma routed_same s i rq rq' : routed s -> requests s !! i = Some rq ->
  (rq_table rq', rq_id rq') = (rq_table rq, rq_id rq) -> replies rq' = replies rq ->
  routed (set_requests (<[i := rq']> (requests s)) s).
Proof. intros. eapply routed_request; try done. by eapply honest_same. Qed.

Lemma routed_close_send t id i todo s s' :
  position_ s = Closing ((t, id, i) :: todo) -> send i (closed_reply t id) s = Some s' -> routed s ->
  routed (set_position (Closing todo) (set_pending t (delete id (pending t s')) s')).
Proof.
  intros Hp Hsd Hr. pose proof (reader_ok _ Hr) as Hk. rewrite Hp in Hk. apply list.Forall_cons in Hk as [Hn Hk].
  destruct (routed_send _ _ _ _ _ _ Hr Hn (or_introl eq_refl) Hsd) as ([R1 R2 _] & Eh & En & _).
  split; [by destruct t| |].
  - intros t' id' j Hj. change (names (requests s') !! j = Some (t', id')). apply R2.
    destruct t, t'; cbn in *; try done; by apply lookup_delete_Some in Hj as [_ Hj].
  - change (Forall (fun e => names (requests s') !! e.2 = Some e.1) todo). by rewrite En.
Qed.

Lemma routed_register t id s : routed s ->
  routed (set_pending t (<[id := length (requests s)]> (pending t s))
            (set_requests (requests s ++ [MkRequest t id Registered []])%list s)).
Proof.
  intros [R1 R2 R3].
  assert (forall j x, names (requests s) !! j = Some x ->
    names (requests s ++ [MkRequest t id Registered []])%list !! j = Some x) as Hmore.
  { intros j x Hj. unfold names in *. rewrite map_app. by apply lookup_app_l_Some. }
  split.
  - cbn. apply Forall_app. split; [done|]. by repeat constructor.
  - intros t' id' j Hj. cbn [set_pending set_requests requests].
    destruct (decide ((t', id') = (t, id))) as [He|He].
    + injection He as -> ->.
      replace j with (length (requests s)) by (destruct t; cbn in Hj; rewrite lookup_insert_eq in Hj; congruence).
      unfold names. rewrite map_app, lookup_app_r by (by rewrite length_map).
      by rewrite length_map, Nat.sub_diag.
    + apply Hmore, R2. destruct t, t'; cbn in *; try done; rewrite lookup_insert_ne in Hj; congruence.
  - cbn. destruct (position_ s); try done; [destruct R3 as (t' & id' & ? & ?); eauto|].
    eapply Forall_impl; [|exact R3]. eauto.
Qed.

Lemma routed_step s s' : step s s' -> routed s -> routed s'.
Proof.
  intros Hs Hr. destruct Hs as [m s Hp|i r s s' Hp Hsd|m s Hp|m s Hp|m s Hp|m s Hp _|m s Hp _
    |todo s Hp Ht|t id i todo s s' Hp Hsd|s Hp|t id s _|i rq s Hi Hph _|i rq e s Hi Hph|i rq r s Hi Hph Hb
    |i rq s Hi Hph|i rq o s Hi Hph _|e l s He|e l s He|s].
  - by apply routed_message.
  - pose proof (reader_ok _ Hr) as Hk. rewrite Hp in Hk. destruct Hk as (t & id & Hn & Ho).
    apply routed_position; [|done]. by eapply routed_send.
  - unfold offer. destruct (_ <? _)%nat; [|destruct (negb _)]; (apply routed_position; [|done]);
      by eapply (routed_lanes s).
  - unfold evict_oldest. destruct (events s); (apply routed_position; [|done]); by eapply (routed_lanes s).
  - unfold resend. destruct (_ <? _)%nat; (apply routed_position; [|done]); by eapply (routed_lanes s).
  - apply routed_position; [|done]. by eapply (routed_lanes s).
  - apply routed_position; [|done]. by eapply (routed_lanes s).
  - by apply routed_eof.
  - by eapply routed_close_send.
  - by apply routed_position.
  - by apply routed_register.
  - eapply routed_same; try done. unfold replies. cbn. by rewrite Hph.
  - eapply routed_same; try done. unfold replies. cbn. by rewrite Hph.
  - eapply routed_same; try done. unfold replies. cbn. by rewrite Hph, Hb.
  - eapply routed_same; try done. unfold replies. cbn. by rewrite Hph.
  - eapply routed_update; try done; [|apply delete_subseteq]. eapply honest_same; try done.
    unfold replies. cbn. by rewrite Hph.
  - by eapply (routed_lanes s).
  - by eapply (routed_lanes s).
  - by eapply (routed_lanes s).
Qed.

Lemma reachable_routed s : reachable s -> routed s.
Proof.
  apply (rtc_ind_r routed); [|intros y z _ Hs Hr; by eapply routed_step].
  split; [constructor| |done]. intros [] id i Hi; cbn in Hi; by rewrite lookup_empty in Hi.
Qed.
End routing.

(** ** The bridge can stop reading *)

Section stalling.
Context `{ProductCodec}.

(** The request left with an answer in its channel. *)
Definition abandoned (rq : request) : Prop :=
  rq_buffer rq <> [] /\ match rq_phase rq with Leaving _ | Gone _ => True | _ => False end.
Definition stalled (s : bridgeState) : Prop :=
  match position_ s with
  | Delivering i _ | Closing ((_, _, i) :: _) => exists rq, requests s !! i = Some rq /\ abandoned rq
  | _ => False
  end.

Lemma abandoned_refuses i r s rq : requests s !! i = Some rq -> abandoned rq -> send i r s = None.
Proof. unfold send. intros -> [Hb _]. cbn. by destruct (rq_buffer rq). Qed.

Lemma stalled_position s s' : position_ s' = position_ s ->
  (forall i rq, requests s !! i = Some rq -> abandoned rq -> exists rq', requests s' !! i = Some rq' /\ abandoned rq') ->
  stalled s -> stalled s'.
Proof.
  unfold stalled. intros -> Hk. destruct (position_ s) as [|i r| | | | |[|[[t id] i] todo]|]; try done.
  all: intros (rq & Hi & Ha); eauto.
Qed.

Lemma abandoned_insert i rq rq' s j rqj : requests s !! i = Some rq -> (abandoned rq -> abandoned rq') ->
  requests s !! j = Some rqj -> abandoned rqj ->
  exists x, <[i := rq']> (requests s) !! j = Some x /\ abandoned x.
Proof.
  intros Hi Hm Hj Ha. destruct (decide (i = j)) as [->|].
  - rewrite list_lookup_insert_eq by (by eapply lookup_lt_Some). replace rqj with rq in Ha by congruence. eauto.
  - rewrite list_lookup_insert_ne by done. eauto.
Qed.

Lemma stalled_step s s' : step s s' -> stalled s -> stalled s' /\ position_ s' = position_ s.
Proof.
  intros Hs Ha.
  assert ((forall i rq, requests s !! i = Some rq -> abandoned rq ->
            exists rq', requests s' !! i = Some rq' /\ abandoned rq') /\ position_ s' = position_ s) as [Hk Hp];
    [|by split; [eapply stalled_position|]].
  unfold stalled in Ha.
  destruct Hs as [m s Hp|i r s s' Hp Hsd|m s Hp|m s Hp|m s Hp|m s Hp _|m s Hp _
    |todo s Hp Ht|t id i todo s s' Hp Hsd|s Hp|t id s _|i rq s Hi Hph _|i rq e s Hi Hph|i rq r s Hi Hph Hb
    |i rq s Hi Hph|i rq o s Hi Hph _|e l s He|e l s He|s]; try (by rewrite Hp in Ha).
  - rewrite Hp in Ha. destruct Ha as (rq & Hi & Ha). by rewrite (abandoned_refuses _ _ _ _ Hi Ha) in Hsd.
  - rewrite Hp in Ha. destruct Ha as (rq & Hi & Ha). by rewrite (abandoned_refuses _ _ _ _ Hi Ha) in Hsd.
  - split; [|done]. intros j rq Hj ?. exists rq. split; [|done]. cbn. by apply lookup_app_l_Some.
  - split; [|done]. intros j rqj. apply (abandoned_insert _ _ _ _ _ _ Hi). intros [_ Hx]. by rewrite Hph in Hx.
  - split; [|done]. intros j rqj. apply (abandoned_insert _ _ _ _ _ _ Hi). intros [_ Hx]. by rewrite Hph in Hx.
  - split; [|done]. intros j rqj. apply (abandoned_insert _ _ _ _ _ _ Hi). intros [_ Hx]. by rewrite Hph in Hx.
  - split; [|done]. intros j rqj. apply (abandoned_insert _ _ _ _ _ _ Hi). intros [_ Hx]. by rewrite Hph in Hx.
  - split; [|by destruct (rq_table rq)]. intros j rqj. apply (abandoned_insert _ _ _ _ _ _ Hi).
    intros [Hx _]. by split.
  - split; [|done]. eauto.
  - split; [|done]. eauto.
  - split; [|done]. eauto.
Qed.

Lemma stalled_forever s s' : rtc step s s' -> stalled s -> position_ s' = position_ s.
Proof.
  intros Hs Ha. enough (stalled s' /\ position_ s' = position_ s) by tauto. revert s' Hs.
  apply rtc_ind_r; [done|]. intros y z _ Hyz [Hy E]. rewrite <-E. by apply stalled_step.
Qed.

(** *** Two runs *)

Definition speech_answer : obj :=
  message [("type", AString "tts.synthesized"); ("job_id", AString "j");
           ("data", AMap (message [("output_path", AString "/tmp/j.wav")]))].
(** A request "j" was sent and its answer is in its channel. *)
Definition answered_once : bridgeState :=
  MkBridge Scanning [MkRequest Synths "j" Awaiting [SynthReply (Ok "/tmp/j.wav")]] ∅ {["j" := 0%nat]} [] []
    bridgeEventBuffer bridgeCriticalEventBuffer false [] [] [] [] [speech_answer].

Lemma speech_answer_for_j : result_of speech_answer = Some (Synths, "j", SynthReply (Ok "/tmp/j.wav")).
Proof. reflexivity. Qed.
Lemma speech_answer_lane : playlistCriticalEvent (stringAt speech_answer "type") = false.
Proof. vm_compute. reflexivity. Qed.

Lemma answered_once_reachable : reachable answered_once.
Proof.
  eapply rtc_l; [apply (step_register Synths "j"); exact I|].
  eapply rtc_l; [by eapply (step_publish 0)|]. cbn.
  eapply rtc_l; [by apply (step_message speech_answer)|].
  unfold read_message. rewrite speech_answer_for_j. cbn.
  rewrite lookup_insert_eq.
  eapply rtc_l; [by eapply (step_deliver 0)|]. cbn. apply rtc_refl.
Qed.

(** The request gave up. *)
Definition expired (s : bridgeState) : bridgeState :=
  set_requests [MkRequest Synths "j" (Leaving Expired) [SynthReply (Ok "/tmp/j.wav")]] s.
Lemma expired_step s : requests s = requests answered_once -> step s (expired s).
Proof. intros Hs. unfold expired. pose proof (step_expire 0 _ s ltac:(by rewrite Hs) eq_refl) as Hx. by rewrite Hs in Hx. Qed.

(** Once a request gave up with an answer in its channel, a second answer stops
    the read loop for good; so does the end of the connection, and then the
    mutex is never released and the channels are never closed. *)
Theorem reader_can_stall :
  (exists s r, reachable s /\ position_ s = Delivering 0 r /\
     forall s', rtc step s s' -> position_ s' = Delivering 0 r) /\
  (exists s todo, reachable s /\ position_ s = Closing todo /\
     forall s', rtc step s s' -> position_ s' = Closing todo).
Proof.
  pose proof answered_once_reachable as Hr. split.
  - exists (expired (set_position (Delivering 0 (SynthReply (Ok "/tmp/j.wav"))) (hear speech_answer answered_once))),
      (SynthReply (Ok "/tmp/j.wav")). split; [|split; [done|]].
    + eapply rtc_r; [eapply rtc_r; [exact Hr|by apply (step_message speech_answer)]|].
      unfold read_message. rewrite speech_answer_for_j. cbn -[expired hear speech_answer].
      rewrite lookup_singleton_eq. by apply expired_step.
    + intros s' Hs. rewrite (stalled_forever _ _ Hs); [done|]. eexists. by split; [|split].
  - exists (expired (set_position (Closing [(Synths, "j", 0%nat)]) answered_once)), [(Synths, "j", 0%nat)].
    split; [|split; [done|]].
    + eapply rtc_r; [eapply rtc_r; [exact Hr|apply step_eof; reflexivity]|]. by apply expired_step.
    + intros s' Hs. rewrite (stalled_forever _ _ Hs); [done|]. eexists. by split; [|split].
Qed.
End stalling.

(** ** What the bridge promises *)

Section promises.
Context `{ProductCodec}.

(** C36: An answer reaches the request it is for.  However requests, messages and
    the end of the connection interleave, what a request got is an answer that a
    message of its own kind carried for its own id, or the notice that the
    connection ended. *)
Theorem bridge_answers_routed (s : bridgeState) (i : nat) (rq : request) (r : reply) :
  reachable s -> requests s !! i = Some rq -> rq_phase rq = Gone (Answered r) ->
  r = closed_reply (rq_table rq) (rq_id rq) \/
  exists m, In m (heard s) /\ result_of m = Some (rq_table rq, rq_id rq, r).
Proof.
  intros Hr Hi Hp. pose proof (Forall_lookup_1 _ _ _ _ (all_honest _ (reachable_routed _ Hr)) Hi) as Hh.
  unfold honest, replies in Hh. rewrite Hp in Hh. apply Forall_app in Hh as [_ Hh].
  by apply list.Forall_cons in Hh as [Hh _].
Qed.

(** The event lanes.  They never hold more than their capacities; until
    [Close], the alert requests and cancellations read so far are exactly those
    taken, those in their lane and the one being placed, in that order, so none is
    lost or reordered; an event on the playout's life cycle is never refused, and an
    alert event only after [Close]. *)
Theorem bridge_lanes (s : bridgeState) : reachable s ->
  (length (events s) <= bridgeEventBuffer /\ length (criticalEvents s) <= bridgeCriticalEventBuffer)%nat /\
  (stopped s = false -> criticals_read s = (criticals_taken s ++ criticalEvents s ++ held s)%list) /\
  (criticals_taken s ++ criticalEvents s)%list `sublist_of` criticals_read s /\
  (forall m, In m (dropped s) -> playlistLifecycleEvent (stringAt m "type") = false /\
     (playlistCriticalEvent (stringAt m "type") = true -> stopped s = true)).
Proof.
  intros Hr. destruct (reachable_lanes _ Hr) as [[E1 E2] H2 H3 H4 H5 H6 H7]. rewrite <-E1, <-E2.
  split_and!; try done.
  - etrans; [|exact H5]. rewrite (app_assoc (criticals_taken s)). by apply sublist_inserts_r.
  - by apply List.Forall_forall.
Qed.
End promises.

#[export] Instance refused_products : ProductCodec | 1000 := { json_product _ := Err "bad product" }.

(** A request that was answered and left. *)
Definition served : bridgeState :=
  set_pending Synths (delete "j" {["j" := 0%nat]})
    (set_requests [MkRequest Synths "j" (Gone (Answered (SynthReply (Ok "/tmp/j.wav")))) []] answered_once).
Lemma served_reachable : reachable served.
Proof.
  eapply rtc_r; [eapply rtc_r; [exact answered_once_reachable|]|].
  - exact (step_receive 0 _ _ answered_once eq_refl eq_refl eq_refl).
  - exact (step_leave 0 (MkRequest Synths "j" (Leaving (Answered (SynthReply (Ok "/tmp/j.wav")))) []) _
             (set_requests [MkRequest Synths "j" (Leaving (Answered (SynthReply (Ok "/tmp/j.wav")))) []] answered_once)
             eq_refl eq_refl I).
Defined.

Lemma bridge_answers_routed_witness :
  SynthReply (Ok "/tmp/j.wav") = closed_reply Synths "j" \/
  exists m, In m [speech_answer] /\ result_of m = Some (Synths, "j", SynthReply (Ok "/tmp/j.wav")).
Proof. exact (bridge_answers_routed _ 0 _ _ served_reachable eq_refl eq_refl). Defined.

(** An alert event waits in its lane. *)
Definition alert_event : obj := message [("type", AString "cap.alert.cancelled")].
Definition alert_waits : bridgeState :=
  set_criticals [alert_event] [] (set_position Scanning (hear alert_event connectBridge)).
Lemma alert_waits_reachable : reachable alert_waits.
Proof.
  eapply rtc_l; [by apply (step_message alert_event)|].
  eapply rtc_l; [apply (step_critical alert_event)|].
  - reflexivity.
  - by apply Nat.ltb_lt.
  - apply rtc_refl.
Defined.
Lemma bridge_lanes_witness : criticals_read alert_waits = [alert_event] /\
  (length (events alert_waits) <= bridgeEventBuffer)%nat.
Proof.
  split; [reflexivity|]. exact (proj1 (proj1 (bridge_lanes alert_waits alert_waits_reachable))).
Defined.
