(* ===== verification/AlertPrepare.v ===== *)
(** Preparing a priority alert ([preparePriorityAlert] and the audio steps it
    takes, [services/go/internal/playlist/service.go]): the SAME header and end
    of message or the attention tone, the configured lead audio, the voice from
    a local file, a download or speech synthesis, the assembled audio file and
    the manifest. *)

From S2P Require Import Prelude UnicodeTables GoStrings GoTime GoValue GoPath AlertPacket.
From S2P Require Import PlaylistModel World AlertRequest AudioRetention PlannerState AlertCommit Wav.
From S2P Require Import AudioFiles SameRequest Lead AlertText BridgeClient.

#[local] Open Scope Z_scope.
#[local] Open Scope string_scope.
#[local] Open Scope haze_scope.

Definition configuredAlertLeadMaxBytes : Z := Z.shiftl 16 20.

(** The random parts: which of two goroutines ends first, and the names
    [os.CreateTemp] picks. *)
Class Chance := { eom_first : nat -> bool; temp_name : nat -> string }.

Definition intFromAny (value : any) (fallback : Z) : Z :=
  match value with
  | AInt z | AInt64 z => z
  | AFloat f => f64_trunc f
  | ANumber s => default fallback (Atoi s)
  | AString s => intFromString s fallback
  | _ => fallback
  end.

Section prepare.
Context `{JSON} `{Env} `{Tools} `{Host} `{Codecs} `{Texts} `{Remote} `{Chance} (cfg : loadedConfig).

(** [os.Remove] where its error counts; a missing file is no error to the caller. *)
Definition Remove (path : string) : M World (option string) :=
  let! err := attempt in
  match err with
  | Some e => ret (Some e)
  | None => remove_file path ;;; ret None
  end.

Definition alerts_dir : string := JoinPath [BaseDir cfg; "runtime"; "audio"; "alerts"].

(** ** Voices *)

Definition downloadAndConvertAlertAudio (sourceURL outputPath : string) (sampleRate channels : Z) :
    M World (option string) :=
  let! err := MkdirAll alerts_dir in
  match err with
  | Some e => ret (Some e)
  | None =>
      let! t := now in
      let inputPath := JoinPath [alerts_dir; safeID ("download-" +:+ Itoa t) +:+ ".bin"] in
      let! err := downloadFile sourceURL inputPath (Z.shiftl 10 20) in
      let! err := match err with
                  | Some e => ret (Some e)
                  | None => convertAlertAudioToPCM inputPath outputPath sampleRate channels
                  end in
      (* deferred *)
      remove_file inputPath ;;; ret err
  end.

Definition resolveAlertAudioPath (rawPath : string) : result string string :=
  let rawPath := TrimSpace rawPath in
  if rawPath =? "" then Err "audio path is required"
  else
    let clean := Clean rawPath in
    if IsAbs clean then Err "alert audio path must be relative to the bundle directory"
    else if (clean =? "..") || HasPrefix clean "../" || HasPrefix clean "/"
    then Err "alert audio path must stay inside the bundle directory"
    else
      let absTarget := Abs cwd (JoinPath [BaseDir cfg; clean]) in
      match Rel (Abs cwd (BaseDir cfg)) absTarget with
      | None => Err "alert audio path must stay inside the bundle directory"
      | Some rel =>
          if (rel =? ".") || (rel =? "..") || HasPrefix rel "../"
          then Err "alert audio path must stay inside the bundle directory"
          else Ok absTarget
      end.

Definition is_raw_audio (audioFormat sourcePath : string) : bool :=
  mem audioFormat ["pcm_s16le"; "raw"; "s16le"] || HasSuffix (ToLower sourcePath) ".pcm16le" ||
  HasSuffix (ToLower sourcePath) ".s16le".

(** The samples of a WAV file in the wanted format. *)
Definition wav_samples (raw : result string bytes) (sampleRate channels : Z) : option bytes :=
  match rbind wavPCM16 raw with
  | Ok (pcm, info) =>
      if (ai_SampleRate info =? sampleRate)%Z && (ai_Channels info =? channels)%Z then Some pcm else None
  | Err _ => None
  end.

Definition prepareLocalAlertAudio (rawPath outputPath : string) (sampleRate channels : Z) (data : obj) :
    M World (option string) :=
  match resolveAlertAudioPath rawPath with
  | Err e => ret (Some e)
  | Ok sourcePath =>
      let audioFormat := ToLower (TrimSpace (firstText ∅ data ["audio_format"; "format"])) in
      let sourceRate := intFromAny (firstValue ∅ data ["audio_sample_rate"; "sample_rate"]) 48000 in
      let sourceChannels := intFromAny (firstValue ∅ data ["audio_channels"; "channels"]) 1 in
      let! raw := ReadFile sourcePath in
      if is_raw_audio audioFormat sourcePath then
        match raw with
        | Err e => ret (Some e)
        | Ok raw =>
            if (length raw =? 0)%nat then ret (Some "alert audio is empty")
            else if (sourceRate =? sampleRate)%Z && (sourceChannels =? channels)%Z
            then writeAlertAudioFile outputPath raw
            else convertRawPCM16FileToPCM sourcePath outputPath sourceRate sourceChannels sampleRate channels
        end
      else
        match wav_samples raw sampleRate channels with
        | Some pcm => writeAlertAudioFile outputPath pcm
        | None => convertAlertAudioToPCM sourcePath outputPath sampleRate channels
        end
  end.

(** [renderAlertTTSAsPCM]: the words to read, the reader and the language. *)
Definition spoken_text (p : feedPlanner) (queueID alertText : string) (data : obj) :
    M World (result string (string * string * string)) :=
  let asked := TrimSpace (firstText ∅ data ["reader_id"; "tts_reader_id"]) in
  let readerID := if asked =? "" then "00" else asked in
  let language := feedLanguage (feed p) in
  if negb (TrimSpace alertText =? "") then ret (Ok (alertText, readerID, language))
  else
    let! product := RenderProduct queueID (feed_ID (feed p)) "alerts" language in
    match product with
    | Err e => ret (Err e)
    | Ok product =>
        if TrimSpace (prod_Text product) =? "" then ret (Err "rendered alert text is empty")
        else ret (Ok (prod_Text product,
                      (if asked =? "" then fallbackText (prod_ReaderID product) readerID else readerID),
                      fallbackText (prod_Language product) language))
    end.

Definition requested_wav (p : feedPlanner) (queueID : string) : string :=
  JoinPath [OutputDir cfg; safeID (feed_ID (feed p)); queueID +:+ ".wav"].

Definition renderAlertTTSAsPCM (p : feedPlanner) (queueID outputPath alertText : string)
    (sampleRate channels : Z) (data : obj) : M World (option string) :=
  let! words := spoken_text p queueID alertText data in
  match words with
  | Err e => ret (Some e)
  | Ok (alertText, readerID, language) =>
      let requestedWAVPath := requested_wav p queueID in
      let! t := now in
      let! path := Synthesize (Some (Add t (90 * Second)))
        (MkSynthJob queueID "" alertText readerID language (feedTimezone (feed p)) requestedWAVPath
           sampleRate channels "high") in
      match path with
      | Err e => remove_file requestedWAVPath ;;; ret (Some e)
      | Ok wavPath =>
          let! err := wavToPCM16File wavPath outputPath sampleRate channels in
          let! err := match err with
                      | None => ret None
                      | Some _ => convertAudioToPCM wavPath outputPath sampleRate channels
                      end in
          (* deferred *)
          whenb (negb (Clean wavPath =? Clean requestedWAVPath)) (remove_file wavPath) ;;;
          remove_file requestedWAVPath ;;; ret err
      end
  end.

(** ** Configured lead audio *)

(** [os.CreateTemp(dir, prefix + "*" + suffix)]: an empty file that was not there. *)
Definition CreateTemp (dir prefix suffix : string) : M World (result string string) :=
  let! n := gets attempts in
  let path := JoinPath [dir; prefix +:+ temp_name n +:+ suffix] in
  let! err := attempt in
  let! exists_ := exists_file path in
  match err with
  | Some e => ret (Err e)
  | None => if (exists_ : bool) then ret (Err "file exists") else put path [] ;;; ret (Ok path)
  end.

(** What [prepareLocalAlertAudio] made of the file, read back and removed. *)
Definition lead_samples (normalized tempPath : string) (sampleRate channels : Z) :
    M World (result string bytes) :=
  let! err := prepareLocalAlertAudio normalized tempPath sampleRate channels ∅ in
  let! r := match err with
            | Some e => ret (Err e)
            | None =>
                let! pcm := ReadFile tempPath in
                ret (let? pcm := pcm in
                     if (length pcm =? 0)%nat || (configuredAlertLeadMaxBytes * 2 <? len pcm)%Z
                     then Err "converted lead audio is outside the allowed size" else Ok pcm)
            end in
  (* deferred *)
  remove_file tempPath ;;; ret r.

Definition loadConfiguredAlertLeadAudio (rawPath workID : string) (sampleRate channels : Z) :
    M World (result string bytes) :=
  match NormalizeAudioPath rawPath with
  | Err _ => ret (Err "lead audio path")
  | Ok normalized =>
      if normalized =? "" then ret (Ok [])
      else
        match ResolveAudioPath (BaseDir cfg) normalized with
        | Err _ => ret (Err "lead audio path")
        | Ok sourcePath =>
            let! size := Stat sourcePath in
            match size with
            | Err e => ret (Err e)
            | Ok size =>
                if (size <=? 0)%Z || (configuredAlertLeadMaxBytes <? size)%Z
                then ret (Err "configured lead audio must be between 1 byte and 16 MiB")
                else
                  let! err := MkdirAll alerts_dir in
                  match err with
                  | Some e => ret (Err e)
                  | None =>
                      let! temp := CreateTemp alerts_dir (safeID ("lead-" +:+ workID) +:+ "-") ".pcm16le" in
                      match temp with
                      | Err e => ret (Err e)
                      | Ok tempPath =>
                          (* temp.Close *)
                          let! err := attempt in
                          match err with
                          | Some e => remove_file tempPath ;;; ret (Err e)
                          | None =>
                              let! err := Remove tempPath in
                              match err with
                              | Some e => ret (Err e)
                              | None => lead_samples normalized tempPath sampleRate channels
                              end
                          end
                      end
                  end
            end
        end
  end.

(** The lead audio of one slot; a failure leaves it out. *)
Definition load_slot (configured : obj) (workID slot : string) (sampleRate channels : Z) : M World bytes :=
  let rawPath := TrimSpace (stringAt configured slot) in
  if rawPath =? "" then ret []
  else
    let! r := loadConfiguredAlertLeadAudio rawPath (workID +:+ "-" +:+ slot) sampleRate channels in
    ret match r with Ok pcm => pcm | Err _ => [] end.

Definition configuredAlertLeadAudio (data : obj) (workID : string) (sampleRate channels : Z) :
    M World (bytes * bytes * string) :=
  let configured := mapAt data "alert_lead" in
  if (size configured =? 0)%nat then ret ([], [], "")
  else
    let! leadIn := load_slot configured workID "lead_in" sampleRate channels in
    let! leadOut := load_slot configured workID "lead_out" sampleRate channels in
    ret (leadIn, leadOut, TrimSpace (stringAt configured "name")).

(** ** Tones *)

Record alertTones := MkTones {
  t_same : bool; t_attention : bool; t_event : string; t_sameHeader : sameAudioPayload;
  t_sameEOM : sameAudioPayload; t_attentionTone : sameAudioPayload; t_rate : Z; t_channels : Z }.

(** [includeSame], with the policy for updates. *)
Definition same_wanted (data : obj) : bool :=
  let includeSame := includeSameAlert data in
  if EqualFold (firstText ∅ data ["status"]) "updated" then
    let policy := ToLower (AlertUpdateTonePolicy cfg) in
    if policy =? "none" then false
    else if policy =? "all" then includeSameAlert data
    else if policy =? "new_locations"
    then includeSameAlert data && (0 <? length (sameLocationsFromData data))%nat
    else includeSame
  else includeSame.

Definition generate_tones (p : feedPlanner) (data : obj) : M World (result string alertTones) :=
  let includeSame := same_wanted data in
  let rate := cfgSampleRate (Playout cfg) in
  let channels := cfgChannels (Playout cfg) in
  if includeSame then
    let! n := gets attempts in
    let! r := generatePrioritySAMEPair (eom_first n) cfg p data in
    ret match r with
        | Err e => Err e
        | Ok (request, header, eom) =>
            if negb (pay_SampleRate header =? pay_SampleRate eom)%Z ||
               negb (pay_Channels header =? pay_Channels eom)%Z
            then Err "SAME header and EOM formats do not match"
            else Ok (MkTones true false (SameRequest.Event request) header eom no_payload
                       (pay_SampleRate header) (pay_Channels header))
        end
  else if alertAttentionToneEnabled data then
    let! r := generatePrioritySAME cfg p data "tone" in
    ret (wrap_err (fun e => "attention tone generation failed: " +:+ e)
      (let? r := r in
       let? tone := sameAudioFromResult r.2 rate channels in
       Ok (MkTones false true "" no_payload no_payload tone (pay_SampleRate tone) (pay_Channels tone))))
  else ret (Ok (MkTones false false "" no_payload no_payload no_payload rate channels)).

(** ** The alert *)

(** The voice of an alert: whether it is broadcast audio, and the error of a
    broadcast audio that could not be used. *)
Definition local_voice (voicePath : string) (rate channels : Z) (data : obj) : M World (bool * option string) :=
  let localAudioPath := TrimSpace (firstText ∅ data ["audio_path"]) in
  if localAudioPath =? "" then ret (false, None)
  else
    let! err := prepareLocalAlertAudio localAudioPath voicePath rate channels data in
    ret (match err with None => true | Some _ => false end, err).
Definition authoritative_url (data : obj) : string :=
  TrimSpace (firstText ∅ data ["audio_url"; "authoritative_url"]).
Definition downloaded_voice (voicePath : string) (rate channels : Z) (data : obj) (r : bool * option string) :
    M World (bool * option string) :=
  if r.1 || (authoritative_url data =? "") then ret r
  else
    let! err := downloadAndConvertAlertAudio (authoritative_url data) voicePath rate channels in
    ret match err with None => (true, r.2) | Some e => (false, Some e) end.

Definition render_voice (p : feedPlanner) (workID voicePath alertText : string) (rate channels : Z)
    (data : obj) : M World (result string (bool * option string)) :=
  let! r := local_voice voicePath rate channels data in
  let! r := downloaded_voice voicePath rate channels data r in
  if (r.1 : bool) then ret (Ok r)
  else
    let! err := renderAlertTTSAsPCM p workID voicePath alertText rate channels data in
    ret match err, r.2 with
        | None, _ => Ok r
        | Some e, Some lastErr => Err ("broadcast audio failed: " +:+ lastErr +:+ "; TTS fallback failed: " +:+ e)
        | Some e, None => Err ("alert TTS fallback failed: " +:+ e)
        end.

(** What is put around the voice, the error of the assembly and the name of the
    source; [None] when the voice is aired as it is. *)
Definition assembly (tones : alertTones) (hasConfiguredLead : bool) :
    option (bytes * bytes * string * string) :=
  if t_same tones then
    Some (pay_Audio (t_sameHeader tones), pay_Audio (t_sameEOM tones), "SAME alert assembly failed: ", "cap-same")
  else if t_attention tones then
    Some (pay_Audio (t_attentionTone tones), [], "attention tone alert assembly failed: ", "cap-tone")
  else if hasConfiguredLead then Some ([], [], "alert lead assembly failed: ", "cap-lead")
  else None.

Definition voice_source (kind : string) (broadcast : bool) : string :=
  if broadcast then kind +:+ "-broadcast-audio" else kind +:+ "-tts".
Definition broadcastAudioSourceSucceeded (source : string) : bool :=
  Contains (ToLower (TrimSpace source)) "broadcast-audio".

Definition alert_queue_id (p : feedPlanner) (alertID : string) (includeSame : bool) : string :=
  if includeSame then safeID ("000_" +:+ feed_ID (feed p) +:+ "_" +:+ alertID +:+ "_same")
  else safeID ("001_" +:+ feed_ID (feed p) +:+ "_" +:+ alertID +:+ "_cap").

Definition audio_rel (id : string) : string := JoinPath ["runtime"; "audio"; "alerts"; id +:+ ".pcm16le"].

Definition alert_manifest (p : feedPlanner) (data : obj) (tones : alertTones) (alertID alertText : string)
    (bannerText source : string) (lastErr : option string) (info : audioInfo) (createdAt : Z) :
    priorityAlertManifest :=
  let id := alert_queue_id p alertID (t_same tones) in
  let lastError :=
    match lastErr with
    | Some e => if broadcastAudioSourceSucceeded source then "" else "broadcast audio fallback: " +:+ e
    | None => ""
    end in
  let manifest := MkManifest id alertID None (if t_same tones then "same_alert" else "cap_alert") "pending"
    (FormatRFC3339Nano createdAt) [feed_ID (feed p)]
    (fallbackText (firstText ∅ data ["title"; "header"]) "Weather Alert")
    (if t_same tones then t_event tones else fallbackText (firstText ∅ data ["event"]) "CAP")
    (TrimSpace alertText) (TrimSpace bannerText) (firstText ∅ data ["alert_sent_at"; "sent"])
    (firstText ∅ data ["alert_expires_at"; "expires"]) (firstText ∅ data ["message_type"; "msg_type"])
    (boolAny (firstValue ∅ data ["broadcast_immediate"]))
    (audio_rel id) "pcm_s16le"
    (ai_SampleRate info) (ai_Channels info) (ai_Bytes info) source
    (if t_same tones then "same" else "cap") (authoritative_url data) lastError in
  MkManifest (man_ID manifest) (man_AlertID manifest)
    (Some (alertPacketForManifest p data manifest alertText (pay_Header (t_sameHeader tones))))
    (man_Type manifest) (man_Status manifest) (man_CreatedAt manifest) (man_FeedIDs manifest)
    (man_Header manifest) (man_Event manifest) (man_AlertText manifest) (man_BannerText manifest)
    (man_AlertSentAt manifest) (man_AlertExpiresAt manifest) (man_MessageType manifest)
    (man_BroadcastImmediate manifest) (man_AudioPath manifest) (man_Format manifest)
    (man_SampleRate manifest) (man_Channels manifest) (man_AudioBytes manifest) (man_Source manifest)
    (man_Priority manifest) (man_AuthoritativeURL manifest) (man_LastError manifest).

Definition zero_preparation : priorityAlertPreparation :=
  MkPreparation (MkManifest "" "" None "" "" "" [] "" "" "" "" "" "" "" false "" "" 0 0 0 "" "" "" "")
    ∅ "" "" "" "".

Definition panic_text (e : panic) : string :=
  match e with
  | SliceBounds i c => "runtime error: slice bounds out of range [" +:+ Itoa (Z.of_nat i) +:+ ":" +:+
      Itoa (Z.of_nat c) +:+ "]"
  end.

(** The texts of the alert; a run-time error would end the program, here it ends
    the preparation. *)
Definition alert_texts (p : feedPlanner) (data : obj) : result string (string * string) :=
  wrap_err panic_text
    (let? alertText := alertTextFromData cfg p data in
     let? bannerText := bannerTextFromData cfg p data alertText in
     Ok (alertText, bannerText)).

(** From the tones to the finished audio file: its source, the broadcast error
    and its size and format. *)
Definition make_audio (p : feedPlanner) (data : obj) (tones : alertTones)
    (workID audioPath alertText : string) (leads : bytes * bytes * string) :
    M World (result string (string * option string * audioInfo)) :=
  let '(leadIn, leadOut, _) := leads in
  let plan := assembly tones ((0 <? length leadIn)%nat || (0 <? length leadOut)%nat) in
  let voicePath := match plan with Some _ => audioPath +:+ ".voice" | None => audioPath end in
  let! voice := render_voice p workID voicePath alertText (t_rate tones) (t_channels tones) data in
  let! r :=
    match voice with
    | Err e => ret (Err e)
    | Ok (broadcast, lastErr) =>
        match plan with
        | None => ret (Ok (if broadcast then "cap-broadcast-audio" else "cap-tts", lastErr))
        | Some (head, tail, failure, kind) =>
            let! err := combineConfiguredLeadAlertAudio audioPath leadIn head voicePath tail leadOut
              (t_rate tones) (t_channels tones) in
            match err with
            | Some e => ret (Err (failure +:+ e))
            | None => ret (Ok (voice_source kind broadcast, lastErr))
            end
        end
    end in
  let! r :=
    match r with
    | Err e => ret (Err e)
    | Ok (source, lastErr) =>
        let! info := pcmInfo audioPath (t_rate tones) (t_channels tones) in
        ret (rmap (fun info => (source, lastErr, info)) info)
    end in
  (* deferred *)
  whenb (match plan with Some _ => true | None => false end) (remove_file voicePath) ;;;
  ret r.

Definition final_audio_path (p : feedPlanner) (alertID : string) (tones : alertTones) : string :=
  JoinPath [BaseDir cfg; audio_rel (alert_queue_id p alertID (t_same tones))].
(** The unfinished audio of an alert: invisible until it is committed. *)
Definition work_audio_path (p : feedPlanner) (alertID : string) (tones : alertTones) (workID : string) : string :=
  final_audio_path p alertID tones +:+ "." +:+ workID +:+ ".tmp".

(** The part of the preparation that writes files, under a work id. *)
Definition finish_alert (p : feedPlanner) (data : obj) (alertID : string) (tones : alertTones)
    (workID : string) : M World (priorityAlertPreparation * option string) :=
  let audioPath := work_audio_path p alertID tones workID in
  let! leads := configuredAlertLeadAudio data workID (t_rate tones) (t_channels tones) in
  let! r :=
    match alert_texts p data with
    | Err e => ret (Err e)
    | Ok (alertText, bannerText) =>
        let! audio := make_audio p data tones workID audioPath alertText leads in
        ret (rmap (fun audio => (alertText, bannerText, audio)) audio)
    end in
  match r with
  | Err e =>
      (* deferred, on errors *)
      for_each remove_file [audioPath; audioPath +:+ ".tmp"; audioPath +:+ ".voice"] ;;;
      ret (zero_preparation, Some e)
  | Ok (alertText, bannerText, (source, lastErr, info)) =>
      let! createdAt := now in
      ret (MkPreparation
        (alert_manifest p data tones alertID alertText bannerText source lastErr info createdAt)
        data alertText (pay_Header (t_sameHeader tones)) audioPath (final_audio_path p alertID tones), None)
  end.

Definition prepare_alert (p : feedPlanner) (data : obj) :
    M World (priorityAlertPreparation * option string) :=
  let! r := normalizePriorityAlertRequest data in
  let! tones := generate_tones p r.1 in
  match tones with
  | Err e => ret (zero_preparation, Some e)
  | Ok tones =>
      let! workID := queueID "alert-prepare" in
      finish_alert p r.1 r.2 tones workID
  end.
End prepare.

(** ** Facts: which files preparing an alert touches *)

(** What the preparation of an alert for a feed may change on disk, when its
    unfinished audio is [audio]: that audio and its voice, downloads and
    converted lead audio, and the audio it asks speech synthesis for. *)
Inductive scratch `{Remote} (cfg : loadedConfig) (p : feedPlanner) (audio : string) : string -> Prop :=
| scratch_audio path k : path = audio \/ path = audio +:+ ".voice" -> at_path path k -> scratch cfg p audio k
| scratch_download t k :
    at_path (JoinPath [alerts_dir cfg; safeID ("download-" +:+ t) +:+ ".bin"]) k -> scratch cfg p audio k
| scratch_lead work suffix k :
    at_path (JoinPath [alerts_dir cfg; (safeID ("lead-" +:+ work) +:+ "-") +:+ suffix +:+ ".pcm16le"]) k ->
    scratch cfg p audio k
| scratch_speech work : scratch cfg p audio (requested_wav cfg p work)
| scratch_answer k : answered k -> scratch cfg p audio k.

Definition request_types : list string := ["product.render.request"; "tts.synthesize"].

Section frames_of_preparation.
Context `{JSON} `{Env} `{Tools} `{Host} `{Codecs} `{Texts} `{Remote} `{Chance} (cfg : loadedConfig).

Lemma only_Remove P path : P path -> only P (Remove path).
Proof. intros. unfold Remove. only_walk. Qed.
Lemma only_prepareLocal raw o rate ch data : only (at_path o) (prepareLocalAlertAudio cfg raw o rate ch data).
Proof.
  unfold prepareLocalAlertAudio, convertRawPCM16FileToPCM, convertAlertAudioToPCM. only_walk.
Qed.
Lemma only_downloadAndConvert (P : string -> Prop) u o rate ch : (forall k, at_path o k -> P k) ->
  (forall t k, at_path (JoinPath [alerts_dir cfg; safeID ("download-" +:+ t) +:+ ".bin"]) k -> P k) ->
  only P (downloadAndConvertAlertAudio cfg u o rate ch).
Proof.
  intros Ho Hd. unfold downloadAndConvertAlertAudio, convertAlertAudioToPCM. apply only_bind; [done|].
  intros [e|]; [done|]. apply only_bind; [done|]. intros t. cbv zeta.
  apply only_bind; [eapply only_mono; [apply (Hd (Itoa t))|apply only_downloadFile]|]. intros err.
  apply only_bind.
  { destruct err; [done|]. eapply only_mono; [exact Ho|apply only_convert]. }
  intros err'. apply only_bind; [|done]. apply only_remove. apply (Hd (Itoa t)). by left.
Qed.

Lemma within_spoken_text P p id text data :
  within P (sent_type request_types) (spoken_text p id text data).
Proof.
  unfold spoken_text. cbv zeta. destruct (negb _); [by apply within_only|].
  apply within_bind; [apply within_RenderProduct; by left|]. intros [product|e]; [|by apply within_only].
  destruct (_ =? _); by apply within_only.
Qed.

Lemma within_renderTTS (P : string -> Prop) p id o text rate ch data : (forall k, at_path o k -> P k) ->
  P (requested_wav cfg p id) -> (forall k, answered k -> P k) ->
  within P (sent_type request_types) (renderAlertTTSAsPCM cfg p id o text rate ch data).
Proof.
  intros Ho Hw Ha. unfold renderAlertTTSAsPCM, convertAudioToPCM.
  apply within_bind; [apply within_spoken_text|]. intros [[[text' reader] language]|e]; [|by apply within_only].
  cbv zeta. apply within_bind; [by apply within_only|]. intros t.
  apply (within_bind_with (fun r => match r with Ok k => answered k | Err _ => True end)).
  - apply within_Synthesize; [by right; left|done].
  - apply Synthesize_answers.
  - intros [wavPath|e] Hans; [|apply within_only; only_walk].
    apply within_bind; [apply within_only; eapply only_mono; [exact Ho|apply only_wavToPCM16File]|].
    intros err. apply within_bind.
    { apply within_only. destruct err; [|done]. eapply only_mono; [exact Ho|apply only_convert]. }
    intros err'. apply Ha in Hans. within_walk.
Qed.

Lemma only_lead_samples (P : string -> Prop) n tmp rate ch : (forall k, at_path tmp k -> P k) ->
  only P (lead_samples cfg n tmp rate ch).
Proof.
  intros Hp. unfold lead_samples. apply only_bind; [eapply only_mono; [exact Hp|apply only_prepareLocal]|].
  intros err. assert (P tmp) by (apply Hp; by left). only_walk.
Qed.

Lemma CreateTemp_name dir prefix suffix :
  returns (fun r => match r with Ok k => exists name, k = JoinPath [dir; prefix +:+ name +:+ suffix] | Err _ => True end)
    (CreateTemp dir prefix suffix).
Proof.
  unfold CreateTemp. apply returns_bind. intros n. cbv zeta. apply returns_bind. intros err.
  apply returns_bind. intros b. destruct err; [done|]. destruct b; [done|]. apply returns_bind. intros _.
  apply returns_ret. eauto.
Qed.
Lemma only_CreateTemp (P : string -> Prop) dir prefix suffix :
  (forall name, P (JoinPath [dir; prefix +:+ name +:+ suffix])) -> only P (CreateTemp dir prefix suffix).
Proof. intros Hp. unfold CreateTemp. only_walk. Qed.

Lemma only_loadConfigured (P : string -> Prop) raw id rate ch :
  (forall work suffix k, at_path (JoinPath [alerts_dir cfg;
     (safeID ("lead-" +:+ work) +:+ "-") +:+ suffix +:+ ".pcm16le"]) k -> P k) ->
  only P (loadConfiguredAlertLeadAudio cfg raw id rate ch).
Proof.
  intros Hp. unfold loadConfiguredAlertLeadAudio. destruct (NormalizeAudioPath raw) as [n|]; [|done].
  destruct (n =? ""); [done|]. destruct (ResolveAudioPath _ _); [|done]. apply only_bind; [apply only_Stat|].
  intros [size|e]; [|done]. destruct (_ || _); [done|]. apply only_bind; [done|]. intros [e|]; [done|].
  apply only_bind_at.
  { apply only_CreateTemp. intros name. apply (Hp id name). by left. }
  intros w. pose proof (CreateTemp_name (alerts_dir cfg) (safeID ("lead-" +:+ id) +:+ "-") ".pcm16le" w) as Hn.
  cbn beta in Hn. destruct ((CreateTemp _ _ _ w).1) as [tmp|e]; [|done]. destruct Hn as [name ->].
  set (tmp := JoinPath _). assert (Ht : forall k, at_path tmp k -> P k) by (intros k; apply (Hp id name)).
  assert (P tmp) by (apply Ht; by left).
  apply only_bind; [done|]. intros [e|]; [only_walk|]. apply only_bind; [by apply only_Remove|].
  intros [e|]; [done|]. by apply only_lead_samples.
Qed.

Lemma only_runSameGenerator P b r : only P (runSameGenerator b r).
Proof. unfold runSameGenerator, findHostExecutable. only_walk. Qed.
Lemma only_generate_tones P p data : only P (generate_tones cfg p data).
Proof.
  unfold generate_tones, generatePrioritySAMEPair, generatePrioritySAME. cbv zeta.
  destruct (same_wanted cfg data); [|destruct (alertAttentionToneEnabled data); [|done]].
  - apply only_bind; [done|]. intros n. apply only_bind; [|done].
    destruct (_ =? _)%nat; [done|]. apply only_bind; [apply only_runSameGenerator|]. intros r1.
    apply only_bind; [apply only_runSameGenerator|done].
  - apply only_bind; [|done]. destruct (_ =? _)%nat; [done|]. apply only_bind; [apply only_runSameGenerator|done].
Qed.

Lemma only_configuredLead (P : string -> Prop) data id rate ch :
  (forall work suffix k, at_path (JoinPath [alerts_dir cfg;
     (safeID ("lead-" +:+ work) +:+ "-") +:+ suffix +:+ ".pcm16le"]) k -> P k) ->
  only P (configuredAlertLeadAudio cfg data id rate ch).
Proof.
  intros Hp. assert (Hslot : forall configured slot, only P (load_slot cfg configured id slot rate ch)).
  { intros configured slot. unfold load_slot. destruct (_ =? _); [done|].
    apply only_bind; [by apply only_loadConfigured|done]. }
  unfold configuredAlertLeadAudio. destruct (_ =? _)%nat; [done|].
  apply only_bind; [done|]. intros leadIn. by apply only_bind.
Qed.

Lemma within_render_voice (P : string -> Prop) p id voicePath text rate ch data :
  (forall k, at_path voicePath k -> P k) ->
  (forall t k, at_path (JoinPath [alerts_dir cfg; safeID ("download-" +:+ t) +:+ ".bin"]) k -> P k) ->
  P (requested_wav cfg p id) -> (forall k, answered k -> P k) ->
  within P (sent_type request_types) (render_voice cfg p id voicePath text rate ch data).
Proof.
  intros Hv Hd Hw Ha. unfold render_voice. apply within_bind.
  { apply within_only. unfold local_voice. destruct (_ =? _); [done|].
    apply only_bind; [|done]. eapply only_mono; [exact Hv|apply only_prepareLocal]. }
  intros r. apply within_bind.
  { apply within_only. unfold downloaded_voice. destruct (_ || _); [done|].
    apply only_bind; [|done]. by apply only_downloadAndConvert. }
  intros r'. destruct (r'.1); [by apply within_only|]. apply within_bind; [by apply within_renderTTS|].
  intros err. by apply within_only.
Qed.

Lemma within_make_audio p data tones work audio text leads :
  within (scratch cfg p audio) (sent_type request_types)
    (make_audio cfg p data tones work audio text leads).
Proof.
  destruct leads as [[leadIn leadOut] name].
  unfold make_audio. cbv zeta. set (plan := assembly tones _).
  set (voicePath := match plan with Some _ => audio +:+ ".voice" | None => audio end).
  assert (Hvoice : voicePath = audio \/ voicePath = audio +:+ ".voice")
    by (unfold voicePath; destruct plan; tauto).
  assert (Hv : forall k, at_path voicePath k -> scratch cfg p audio k) by (intros k; by eapply scratch_audio).
  assert (Ha : forall k, at_path audio k -> scratch cfg p audio k).
  { intros k. apply (scratch_audio _ _ _ audio). by left. }
  apply within_bind.
  { apply within_render_voice; [exact Hv|by apply scratch_download|apply scratch_speech|by apply scratch_answer]. }
  intros voice. apply within_bind.
  { destruct voice as [[broadcast lastErr]|e]; [|by apply within_only].
    destruct plan as [[[[head tail] failure] kind]|]; [|by apply within_only].
    apply within_only. apply only_bind; [|by intros [e|]]. eapply only_mono; [exact Ha|].
    unfold combineConfiguredLeadAlertAudio. apply only_combine. }
  intros r. apply within_bind; [destruct r as [[source lastErr]|e]; apply within_only; only_walk|].
  intros r'. apply within_bind; [|by intros; apply within_only]. apply within_only.
  assert (scratch cfg p audio voicePath) by (apply Hv; by left). destruct plan; cbn [whenb]; eauto with files.
Qed.

Lemma within_finish_alert p data alertID tones work :
  within (scratch cfg p (work_audio_path cfg p alertID tones work)) (sent_type request_types)
    (finish_alert cfg p data alertID tones work).
Proof.
  unfold finish_alert. cbv zeta. set (audio := work_audio_path cfg p alertID tones work).
  apply within_bind; [apply within_only, only_configuredLead, scratch_lead|]. intros leads.
  apply within_bind.
  { destruct (alert_texts cfg p data) as [[text banner]|e]; [|by apply within_only].
    apply within_bind; [apply within_make_audio|]. by intros; apply within_only. }
  intros [[[text banner] [[source lastErr] info]]|e].
  - apply within_bind; [by apply within_only|]. by intros; apply within_only.
  - apply within_bind; [|by intros; apply within_only]. apply within_only. cbn [for_each].
    apply only_bind; [apply only_remove, (scratch_audio _ _ _ audio); [by left|by left]|]. intros _.
    apply only_bind; [apply only_remove, (scratch_audio _ _ _ audio); [by left|by right]|]. intros _.
    apply only_bind; [|done]. apply only_remove, (scratch_audio _ _ _ (audio +:+ ".voice")); [by right|by left].
Qed.
End frames_of_preparation.

(** ** Facts: paths *)

Lemma Clean_plain l : l <> [] -> Forall plain l -> no_dots l -> IsAbs (Join l "/") = false ->
  Clean (Join l "/") = Join l "/".
Proof.
  intros Hne Hp Hd Habs. unfold Clean, resolved. rewrite Habs.
  rewrite components_Join by (eapply List.Forall_impl; [|exact Hp]; by intros c (? & ? & ?)).
  rewrite resolve_no_dots by done. cbn [rev app]. unfold unresolve. by destruct l.
Qed.

Lemma joined_audio_path b id : safe_id id -> JoinPath [b; audio_rel id] = alertAudioPath b id.
Proof.
  intros Hid. destruct (safe_id_plain id ".pcm16le" Hid) as [Hp Hd]; [simpl; lia|apply slash_pcm|].
  set (name := id +:+ ".pcm16le") in *.
  assert (Hrel : audio_rel id = Join ["runtime"; "audio"; "alerts"; name] "/").
  { unfold audio_rel, JoinPath. fold name. rewrite !filter_cons_True by (done || apply Hp).
    apply Clean_plain; [done| |repeat constructor; try done; apply Hp|done].
    repeat constructor; try done; try (intros [|]; done); try apply Hp; simpl; intuition discriminate. }
  unfold alertAudioPath. fold name. rewrite Hrel. unfold JoinPath.
  assert (Hn : Join ["runtime"; "audio"; "alerts"; name] "/" <> "") by done.
  destruct (decide (b = "")) as [->|Hb].
  - rewrite (filter_cons_False _ "") by tauto. rewrite (filter_cons_False _ "") by tauto.
    rewrite !filter_cons_True by (done || apply Hp). done.
  - rewrite !filter_cons_True by (done || apply Hp). done.
Qed.

(** ** Facts: what a preparation makes *)

Section outcomes.
Context `{JSON} `{Env} `{Tools} `{Host} `{Codecs} `{Texts} `{Remote} `{Chance} (cfg : loadedConfig).

Lemma pcmInfo_ok path rate ch w info : (pcmInfo path rate ch w).1 = Ok info ->
  exists b, content_at path (pcmInfo path rate ch w).2 = Some b /\ ai_Bytes info = len b.
Proof.
  rewrite (content_only (fun _ => False)) by (apply only_pcmInfo || tauto).
  unfold pcmInfo, Stat, attempting. rewrite !mbind_eq. unfold attempt.
  destruct (fault (attempts w)); [done|]. cbn [fst snd]. rewrite mbind_eq. cbn [ret fst snd].
  unfold the_file, gets. cbn. unfold content_at. destruct (files w !! path) as [f|]; [|done]. cbn.
  unfold pcm_info. cbv zeta. destruct (_ <=? 0)%Z; [done|]. intros [= <-]. by exists (content_of f).
Qed.

(** What the parts around a voice make of it. *)
Definition around (plan : option (bytes * bytes * string * string)) (leadIn leadOut : bytes) (rate ch : Z)
    (b : bytes) : Prop :=
  match plan with
  | Some (head, tail, _, _) => exists voice, voice <> [] /\ b = assembled leadIn head voice tail leadOut rate ch
  | None => leadIn = [] /\ leadOut = []
  end.

Lemma make_audio_spec p data tones work audio text leadIn leadOut name w :
  let plan := assembly tones ((0 <? length leadIn)%nat || (0 <? length leadOut)%nat) in
  match make_audio cfg p data tones work audio text (leadIn, leadOut, name) w with
  | (Ok (source, lastErr, info), w') => exists b, content_at audio w' = Some b /\ ai_Bytes info = len b /\
      around plan leadIn leadOut (t_rate tones) (t_channels tones) b
  | (Err _, _) => True
  end.
Proof.
  cbv zeta. unfold make_audio. cbv zeta. set (plan := assembly tones _).
  set (voicePath := match plan with Some _ => audio +:+ ".voice" | None => audio end).
  rewrite mbind_eq. generalize ((render_voice cfg p work voicePath text (t_rate tones) (t_channels tones) data w).1).
  intros voice. generalize ((render_voice cfg p work voicePath text (t_rate tones) (t_channels tones) data w).2).
  intros w1. rewrite mbind_eq. set (m1 := match voice with Ok _ => _ | Err _ => _ end).
  assert (Hm : match (m1 w1).1, plan with
               | Ok _, Some (head, tail, _, _) => exists voice, voice <> [] /\
                   content_at audio (m1 w1).2 = Some (assembled leadIn head voice tail leadOut (t_rate tones) (t_channels tones))
               | _, _ => True end).
  { unfold m1. destruct voice as [[broadcast lastErr]|e]; [|done].
    destruct plan as [[[[head tail] failure] kind]|]; [|done]. rewrite mbind_eq.
    pose proof (combine_outcome audio leadIn head voicePath tail leadOut (t_rate tones) (t_channels tones) w1) as Hc.
    unfold combineConfiguredLeadAlertAudio. destruct (combineAlertAudioSegments _ _ _ _ _ _ _ _ w1) as [[e|] w2];
      [done|]. destruct Hc as (v & _ & Hv & Hc). by exists v. }
  generalize dependent ((m1 w1).1). intros r. generalize ((m1 w1).2). intros w2 Hm. clear m1.
  rewrite mbind_eq. destruct r as [[source lastErr]|e]; [|by rewrite mbind_eq].
  rewrite !mbind_eq. cbn [ret fst snd]. pose proof (pcmInfo_ok audio (t_rate tones) (t_channels tones) w2) as Hi.
  rewrite (content_only (fun _ => False)) in Hi by (apply only_pcmInfo || tauto).
  assert (Hsame : content_at audio (pcmInfo audio (t_rate tones) (t_channels tones) w2).2 = content_at audio w2)
    by (apply (content_only (fun _ => False)); [apply only_pcmInfo|tauto]).
  destruct ((pcmInfo audio _ _ w2).1) as [info|e]; [|done].
  destruct (Hi info eq_refl) as (b & Hb & Hl). cbn [rmap rbind].
  set (w3 := (pcmInfo audio _ _ w2).2) in *. exists b. split_and!; [|done|].
  - rewrite (content_only (fun k => plan <> None /\ k = voicePath)); [by rewrite Hsame| |].
    + unfold voicePath. destruct plan; cbn [whenb]; [|done]. by apply only_remove.
    + intros [Hp E]. unfold voicePath in E. destruct plan; [|done]. by apply (app_ne audio ".voice").
  - unfold around. destruct plan as [[[[head tail] failure] kind]|] eqn:Eplan.
    + destruct Hm as (v & Hv & Hc). exists v. split; [done|]. congruence.
    + unfold plan, assembly in Eplan. destruct (t_same tones), (t_attention tones); try done.
      destruct leadIn, leadOut; done.
Qed.

Lemma finish_alert_spec p data alertID tones work w :
  let audio := work_audio_path cfg p alertID tones work in
  match finish_alert cfg p data alertID tones work w with
  | ((prepared, None), w') =>
      prep_AudioPath prepared = audio /\ FinalAudioPath prepared = final_audio_path cfg p alertID tones /\
      SAMEHeader prepared = pay_Header (t_sameHeader tones) /\
      man_ID (Manifest prepared) = alert_queue_id p alertID (t_same tones) /\
      man_FeedIDs (Manifest prepared) = [feed_ID (feed p)] /\
      man_Type (Manifest prepared) = (if t_same tones then "same_alert" else "cap_alert") /\
      exists leadIn leadOut b, content_at audio w' = Some b /\ man_AudioBytes (Manifest prepared) = len b /\
        around (assembly tones ((0 <? length leadIn)%nat || (0 <? length leadOut)%nat)) leadIn leadOut
          (t_rate tones) (t_channels tones) b
  | ((prepared, Some _), w') => prepared = zero_preparation /\
      Forall (fun k => files w' !! k = None) [audio; audio +:+ ".tmp"; audio +:+ ".voice"]
  end.
Proof.
  cbv zeta. unfold finish_alert. cbv zeta. set (audio := work_audio_path cfg p alertID tones work).
  rewrite mbind_eq. generalize ((configuredAlertLeadAudio cfg data work (t_rate tones) (t_channels tones) w).2).
  destruct ((configuredAlertLeadAudio cfg data work (t_rate tones) (t_channels tones) w).1) as [[leadIn leadOut] name].
  intros w1. rewrite mbind_eq.
  assert (Hgone : forall (e : string) w2, let '(r, w') :=
    (for_each remove_file [audio; audio +:+ ".tmp"; audio +:+ ".voice"] ;;; ret (zero_preparation, Some e)) w2 in
    r = (zero_preparation, Some e) /\
    Forall (fun k => files w' !! k = None) [audio; audio +:+ ".tmp"; audio +:+ ".voice"]).
  { intros e w2. rewrite mbind_eq. cbn. split; [done|].
    repeat constructor; rewrite !lookup_delete_None; tauto. }
  destruct (alert_texts cfg p data) as [[text banner]|e].
  2: { cbn [ret fst snd]. specialize (Hgone e w1). destruct (mbind _ _ w1) as [[prepared err] w'].
       destruct Hgone as [[= -> ->] Hg]. by split. }
  rewrite mbind_eq. cbn [ret fst snd].
  pose proof (make_audio_spec p data tones work audio text leadIn leadOut name w1) as Hm. cbv zeta in Hm.
  destruct (make_audio cfg p data tones work audio text (leadIn, leadOut, name) w1) as [[[[source lastErr] info]|e] w2].
  - cbn [rmap rbind fst snd]. rewrite mbind_eq. cbn -[alert_manifest].
    destruct Hm as (b & Hb & Hl & Ha). split_and!; try done. exists leadIn, leadOut, b. by split_and!.
  - cbn [rmap rbind fst snd]. specialize (Hgone e w2). destruct (mbind _ _ w2) as [[prepared err] w'].
    destruct Hgone as [[= -> ->] Hg]. by split.
Qed.
End outcomes.

(** What a preparation of an alert leaves behind, whatever happens: [audio] is
    its unfinished audio, and nothing but scratch files and requests for speech
    come of it.  On success the unfinished audio is complete, of the length the
    manifest says, and a SAME alert's is assembled around a voice; on failure it
    is gone. *)
Definition preparation_outcome `{Remote} `{Tools} (cfg : loadedConfig) (p : feedPlanner) (w : World)
    (audio : string) (prepared : priorityAlertPreparation) (err : option string) (w' : World) : Prop :=
  (forall k, ~ scratch cfg p audio k -> files w' !! k = files w !! k) /\
  (exists sent, published w' = (published w ++ sent)%list /\ Forall (sent_type request_types) sent) /\
  match err with
  | None =>
      prep_AudioPath prepared = audio /\ prepared_paths cfg prepared /\
      man_FeedIDs (Manifest prepared) = [feed_ID (feed p)] /\
      exists b, content_at audio w' = Some b /\ man_AudioBytes (Manifest prepared) = len b /\
        (man_Type (Manifest prepared) = "same_alert" ->
         exists preRoll header voice eom postRoll rate ch,
           voice <> [] /\ b = assembled preRoll header voice eom postRoll rate ch)
  | Some _ => prepared = zero_preparation /\
      Forall (fun k => files w' !! k = None \/ files w' !! k = files w !! k)
        [audio; audio +:+ ".tmp"; audio +:+ ".voice"]
  end.

Section preparation.
Context `{JSON} `{Env} `{Tools} `{Host} `{Codecs} `{Texts} `{Remote} `{Chance} (cfg : loadedConfig).

Lemma work_audio_paths p alertID tones work prepared :
  prep_AudioPath prepared = work_audio_path cfg p alertID tones work ->
  FinalAudioPath prepared = final_audio_path cfg p alertID tones ->
  man_ID (Manifest prepared) = alert_queue_id p alertID (t_same tones) -> prepared_paths cfg prepared.
Proof.
  intros Ha Hf Hid. assert (Hsafe : safe_id (man_ID (Manifest prepared))).
  { rewrite Hid. unfold alert_queue_id. destruct (t_same tones); by eexists. }
  split; [done|]. split.
  - rewrite Hf. unfold final_audio_path. rewrite <- Hid. by apply joined_audio_path.
  - rewrite Ha. unfold work_audio_path. eexists. by rewrite <- !string_app_assoc.
Qed.

(** SAME tones have the format of their header. *)
Lemma same_tones_format p data w tones : (generate_tones cfg p data w).1 = Ok tones -> t_same tones = true ->
  t_rate tones = pay_SampleRate (t_sameHeader tones) /\ t_channels tones = pay_Channels (t_sameHeader tones).
Proof.
  unfold generate_tones. cbv zeta. destruct (same_wanted cfg data).
  - rewrite mbind_eq. rewrite mbind_eq. cbn [ret fst snd].
    destruct ((generatePrioritySAMEPair _ _ _ _ _).1) as [[[request header] eom]|e]; [|done].
    destruct (_ || _); [done|]. by intros [= <-].
  - destruct (alertAttentionToneEnabled data); [|by intros [= <-]].
    rewrite mbind_eq. cbn [ret fst snd].
    destruct ((generatePrioritySAME _ _ _ _ _).1) as [r|e]; [|done]. cbn [rbind].
    destruct (sameAudioFromResult _ _ _) as [tone|e]; [|done]. by intros [= <-].
Qed.

(** The stages before the work id: they change no file and send nothing. *)
Lemma prepare_alert_stages p data w :
  exists data' alertID w1, files w1 = files w /\ published w1 = published w /\
    match (generate_tones cfg p data' w1).1 with
    | Err e => prepare_alert cfg p data w = ((zero_preparation, Some e), (generate_tones cfg p data' w1).2)
    | Ok tones => exists work w2, files w2 = files w /\ published w2 = published w /\
        prepare_alert cfg p data w = finish_alert cfg p data' alertID tones work w2
    end.
Proof.
  assert (Hsame : forall A (m : M World A) w, (forall P, only P m) ->
    files (m w).2 = files w /\ published (m w).2 = published w).
  { intros A m w' Hm. destruct (Hm (fun _ => False) w') as [Hf Hp]. split; [|done].
    apply map_eq. intros k. apply Hf. tauto. }
  unfold prepare_alert. rewrite mbind_eq.
  destruct (Hsame _ (normalizePriorityAlertRequest data) w) as [Hf1 Hp1].
  { intros P. unfold normalizePriorityAlertRequest. only_walk. }
  destruct (normalizePriorityAlertRequest data w) as [[data' alertID] w1]. cbn [fst snd] in *.
  exists data', alertID, w1. split_and!; [done|done|]. rewrite mbind_eq.
  destruct (Hsame _ (generate_tones cfg p data') w1) as [Hf2 Hp2]; [intros P; apply only_generate_tones|].
  destruct ((generate_tones cfg p data' w1).1) as [tones|e]; [|done]. rewrite mbind_eq.
  destruct (Hsame _ (queueID "alert-prepare") (generate_tones cfg p data' w1).2) as [Hf3 Hp3];
    [intros P; apply only_queueID|].
  eexists _, _. split_and!; [| |reflexivity]; congruence.
Qed.

Lemma prepare_alert_outcome p data w :
  let '((prepared, err), w') := prepare_alert cfg p data w in
  exists audio, preparation_outcome cfg p w audio prepared err w'.
Proof.
  destruct (prepare_alert_stages p data w) as (data' & alertID & w1 & Hf1 & Hp1 & Hstage).
  destruct ((generate_tones cfg p data' w1).1) as [tones|e].
  - destruct Hstage as (work & w2 & Hf2 & Hp2 & ->).
    destruct (within_finish_alert cfg p data' alertID tones work w2) as [Hf (sent & Hp & Hs)].
    pose proof (finish_alert_spec cfg p data' alertID tones work w2) as Ho. cbv zeta in Ho.
    destruct (finish_alert cfg p data' alertID tones work w2) as [[prepared err] w']. cbn [fst snd] in *.
    exists (work_audio_path cfg p alertID tones work). split; [|split].
    + intros k Hk. rewrite <- Hf2. by apply Hf.
    + exists sent. rewrite <- Hp2. by split.
    + destruct err as [e|].
      * destruct Ho as [-> Hgone]. split; [done|]. eapply List.Forall_impl; [|exact Hgone]. by left.
      * destruct Ho as (Ha & Hfin & _ & Hid & Hfeeds & Hty & leadIn & leadOut & b & Hb & Hl & Har).
        split_and!; [done|by eapply work_audio_paths|done|]. exists b. split_and!; [done|done|].
        intros Hsame. assert (Ht : t_same tones = true) by (rewrite Hsame in Hty; by destruct (t_same tones)).
        unfold assembly in Har. rewrite Ht in Har. destruct Har as (voice & Hv & ->).
        eexists _, _, voice, _, _, _, _. by split.
  - rewrite Hstage. exists "". destruct (only_generate_tones cfg (fun _ => False) p data' w1) as [Hf Hp].
    assert (Hall : forall k, files (generate_tones cfg p data' w1).2 !! k = files w !! k)
      by (intros k; rewrite <- Hf1; apply Hf; tauto).
    split; [|split].
    + intros k _. apply Hall.
    + exists []. rewrite app_nil_r, Hp. by split.
    + split; [done|]. apply List.Forall_forall. intros k _. by right.
Qed.


End preparation.

(** ** Samples *)

#[export] Instance sample_Texts : Texts | 1000 := {|
  BuildSAMETranslation request := tr_Event request; EventLabel path event := event;
  ResolveAreaNames path provided codes := provided; CleanAlertText text := text;
  CleanNWSAlertText text := text |}.

(** Speech synthesis that leaves its file where it was asked to. *)
#[export] Instance sample_Remote : Remote | 1000 := {|
  rendered sent := Err "context deadline exceeded";
  synthesized sent := match rev sent with
                      | m :: _ => Ok (stringAt (mapAt m "data") "output_path")
                      | [] => Err "context deadline exceeded"
                      end;
  speech_file sent := Some (wav_file 40 [] [] [] (fmt_body 8 1) sample_pcm) |}.

(** A generator of tones at eight samples a second, so that the gaps are short. *)
#[export] Instance slow_Host : Host | 900 := {|
  Getenv name := if name =? "HAZE_HOST_EXE" then "/srv/haze" else ""; windows := false;
  exec_same n executable args := Printed (if mem "eom" args then "eom" else "header");
  json_object raw := Ok (message [("header", AString "ZCZC-WXR-TOR"); ("audio_base64", AString "AQIAAA==");
    ("sample_rate", AInt 8); ("channels", AInt 1)]);
  base64_error s := "illegal base64 data"; snapshot_clc dir := None; csv_rows path := None |}.

#[export] Instance sample_Chance : Chance | 1000 := {| eom_first n := true; temp_name n := Itoa (Z.of_nat n) |}.

Definition spoken_request : obj :=
  message [("alert_id", AString "t1"); ("include_same", ABool true); ("same_event", AString "TOR");
    ("same_locations", AStrings ["059110"]); ("alert_text", AString "Take cover.");
    ("sent", AString "2024-05-01T11:59:00Z")].

(** The sample alert is prepared: its audio is the header, a second of silence, the
    voice and the end of message. *)
Example sample_alert_prepared :
  match prepare_alert sample_config sample_planner spoken_request (MkWorld 0 0 ∅ [] None) with
  | ((prepared, None), w) =>
      man_Type (Manifest prepared) = "same_alert" /\
      content_at (prep_AudioPath prepared) w =
        Some (assembled [] sample_pcm sample_pcm sample_pcm [] 8 1)
  | _ => False
  end.
Proof. vm_compute. split; reflexivity. Qed.

(** A conversion that ends well without a sample, as of an empty recording. *)
Definition mute_Tools : Tools := {|
  partial := @partial sample_Tools; encoded := @encoded sample_Tools; FFMPEG := "";
  http_get := @http_get sample_Tools; run_ffmpeg n args fs := MkRun None "" (Some "") |}.
Definition mute_Remote : Remote := {|
  rendered := @rendered sample_Remote; synthesized := @synthesized sample_Remote;
  speech_file sent := Some (wav_file 36 [] [] [] (fmt_body 48000 1) []) |}.

(** An alert without tones and lead audio is accepted without a voice. *)
Theorem silent_alert_accepted :
  match prepare_alert (H1 := mute_Tools) (H5 := mute_Remote) sample_config sample_planner
    (message [("alert_id", AString "t1"); ("alert_text", AString "Take cover.")]) (MkWorld 0 0 ∅ [] None) with
  | ((prepared, None), w) => man_AudioBytes (Manifest prepared) = 0
  | _ => False
  end.
Proof. by vm_compute. Qed.
