(* ===== verification/RoutinePlan.v ===== *)
(** Routine planning ([services/go/internal/playlist/service.go]): the package
    rotation, the language rotation, events fixed to the clock, the startup
    primer, and the tick that fills the queue.

    Making the audio of one item is the part of [Builder]; the laws the planner
    relies on are [BuilderOk]: building an item leaves the programme and the
    rotation to the planner. *)

From S2P Require Import Prelude UnicodeTables GoStrings GoTime GoValue GoPath AlertPacket.
From S2P Require Import PlaylistModel World AlertRequest AudioRetention PlannerState.

#[local] Open Scope Z_scope.
#[local] Open Scope string_scope.
#[local] Open Scope haze_scope.

Definition routineRetryDelay : Z := 30 * Second.

Class Builder := {
  buildProduct : string -> string -> string -> Z -> Z -> PM (result string playlistItem);
  buildChime : fixedEvent -> Z -> Z -> PM (result string playlistItem);
  buildTextItem : string -> string -> Z -> PM (result string playlistItem);
  buildAudioItem : string -> string -> Z -> PM (result string playlistItem);
  hasRoutineAlerts : Z -> PM bool;
  ctx_done : World -> bool }.

(** What a build leaves alone. *)
Definition plan_kept (p p' : feedPlanner) : Prop :=
  queue p' = queue p /\ current p' = current p /\ cursor p' = cursor p /\ mode p' = mode p /\
  priorityActive p' = priorityActive p /\ bridge p' = bridge p /\ feed p' = feed p /\
  lastFixed p' = lastFixed p.

Class BuilderOk `{Builder} := {
  buildProduct_kept pkg source target e t s : plan_kept s.1 (buildProduct pkg source target e t s).2.1;
  buildChime_kept ev e t s : plan_kept s.1 (buildChime ev e t s).2.1;
  hasRoutineAlerts_kept t s : plan_kept s.1 (hasRoutineAlerts t s).2.1 }.

(** ** Languages *)

Definition languageInterval (raw : string) : Z :=
  match ParseInt (TrimSpace raw) with
  | Some interval => if (interval <? 1)%Z then 1 else interval
  | None => 1
  end.

Definition productQueuePrefix (pkgID language : string) : string :=
  let language := normalizeLangKey language in
  if language =? "" then pkgID else pkgID +:+ "-" +:+ language.

Definition due_languages (count : Z) (languages : list feedLangXML) : list feedLangXML :=
  List.filter (fun lang => (Z.rem count (wrap64 (languageInterval (Interval lang) + 1)) =? 0)%Z) languages.

Definition nextRoutineLanguage : PM string :=
  let! p := gets fst in
  match feedLanguages (feed p) with
  | [] => ret "en-US"
  | [lang] => ret (Code lang)
  | primary :: others =>
      let count := wrap64 (routineLanguageCount p + 1) in
      modp (set_routineLanguageCount count) ;;;
      match due_languages count others with
      | [] => ret (Code primary)
      | (first :: _) as due =>
          let i := routineAltLangIndex p in
          let selected := nth (Z.to_nat (Z.rem i (Z.of_nat (length due)))) due first in
          modp (set_routineAltLangIndex (wrap64 (i + 1))) ;;;
          ret (Code selected)
      end
  end.

Definition productLanguageForBuild (source : string) : PM string :=
  let! p := gets fst in
  if negb (EqualFold source "routine") then ret (feedLanguage (feed p)) else nextRoutineLanguage.

(** ** Events fixed to the clock *)

(** [time.Date] at the given local second, in a zone. *)
Definition time_Date (loc : Location) (local : Z) : Z := local - loc (local - loc local).

(** The minute of the local hour of [from]. *)
Definition minute_base (loc : Location) (from minute : Z) : Z :=
  let local := from / Second + loc (from / Second) in
  time_Date loc (local - local mod 3600 + minute * 60) * Second.

(** [for base.Before(from) { base = base.Add(time.Hour) }]. *)
Fixpoint advance_hours (fuel : nat) (base from : Z) : Z :=
  match fuel with
  | O => base
  | S fuel' => if Before base from then advance_hours fuel' (Add base Hour) from else base
  end.

Definition minuteTarget (loc : Location) (from until minute : Z) : option Z :=
  let base := minute_base loc from minute in
  let base := advance_hours (Z.to_nat ((from - base) / Hour + 1)) base from in
  if After base until then None else Some base.

Definition fixedEventKey (event : fixedEvent) : string :=
  fixed_Kind event +:+ ":" +:+ FormatRFC3339 (Target event).

Definition fixed_targets (loc : Location) (from until : Z) (kind package title : string)
    (minutes : list Z) : list fixedEvent :=
  omap (fun minute => MkFixed kind package title <$> minuteTarget loc from until minute) minutes.

Definition default_station_minutes : list Z := [0; 15; 30; 45].
Definition default_date_time_minutes : list Z := [0; 5; 10; 15; 20; 25; 30; 35; 40; 45; 50; 55].

Definition fixed_candidates `{Zones} (cfg : loadedConfig) (p : feedPlanner) (t : Z) : list fixedEvent :=
  let loc := feedLocation (feed p) in
  let from := Add t (- Second) in
  let until := Add t (3 * Minute) in
  let pl := Playout cfg in
  ((if schedule_enabled (StationIDSchedule pl) true then
      fixed_targets loc from until "station_id" "station_id" "Station Identification"
        (minutesOr (StationIDSchedule pl) default_station_minutes) else []) ++
   (if schedule_enabled (DateTimeSchedule pl) true then
      fixed_targets loc from until "date_time" "date_time" "Date and Time"
        (minutesOr (DateTimeSchedule pl) default_date_time_minutes) else []) ++
   (if chimesEnabled (Chimes pl) then
      fixed_targets loc from until "chime" "chime" "Chime"
        (List.filter (fun minute =>
           negb ((minute =? 0)%Z && negb (topOfHourEnabled (Chimes pl))) &&
           negb ((minute =? 30)%Z && negb (halfHourEnabled (Chimes pl)))) [0; 30]) else []))%list.

(** Not yet played, and not more than two seconds past. *)
Definition fixed_open (p : feedPlanner) (t : Z) (c : fixedEvent) : bool :=
  negb (match lastFixed p !! fixedEventKey c with
        | Some last => (last =? Target c)%Z
        | None => false
        end) &&
  After (Target c) (Add t (- (2 * Second))).

(** The loop over the candidates; the zero time stands for no event yet. *)
Definition better_fixed (p : feedPlanner) (t : Z) (best : fixedEvent) (c : fixedEvent) : fixedEvent :=
  if negb (fixed_open p t c) then best
  else if IsZero (Target best) || Before (Target c) (Target best) then c else best.

Definition noFixed : fixedEvent := MkFixed "" "" "" zeroTime.

Definition nextFixedEvent `{Zones} (cfg : loadedConfig) (p : feedPlanner) (t : Z) : option fixedEvent :=
  let best := fold_left (better_fixed p t) (fixed_candidates cfg p t) noFixed in
  if IsZero (Target best) then None else Some best.

Definition shouldFrontLoadFixed (timelineEnd : Z) (event : fixedEvent) (toleranceSeconds : Z) : bool :=
  if IsZero (Target event) then false
  else
    let tolerance := wrap64 (toleranceSeconds * Second) in
    negb (Before timelineEnd (Add (Target event) (- tolerance))).

Definition routineItemWouldCrowdFixed (item : playlistItem) (event : fixedEvent)
    (toleranceSeconds : Z) : bool :=
  if IsZero (Target event) then false
  else
    let finish := parseTime (PredictedFinishAt item) in
    if IsZero finish then false
    else After finish (Add (Target event) (wrap64 (toleranceSeconds * Second))).

Section plan.
Context `{Env} `{Zones} `{Builder} (cfg : loadedConfig).

Definition order : list string := PlaylistOrder (Playout cfg).

(** ** The package rotation *)

Definition entry_at (c : Z) : string :=
  TrimSpace (nth (Z.to_nat (Z.rem c (Z.of_nat (length order)))) order "").

Fixpoint next_package (tries : nat) : PM string :=
  match tries with
  | O => ret ""
  | S tries' =>
      let! p := gets fst in
      let pkgID := entry_at (cursor p) in
      modp (set_cursor (wrap64 (cursor p + 1))) ;;;
      if pkgID =? "" then next_package tries'
      else if pkgID =? "alerts" then
        let! t := io now in
        let! has := hasRoutineAlerts t in
        if (has : bool) then ret pkgID else next_package tries'
      else ret pkgID
  end.
Definition nextRoutinePackage : PM string := next_package (length order).

Fixpoint index_of (f : string -> bool) (l : list string) : option nat :=
  match l with
  | [] => None
  | x :: l' => if f x then Some O else S <$> index_of f l'
  end.

Definition advanceRoutineCursorPast (pkgID : string) : PM unit :=
  match index_of (fun candidate => EqualFold (TrimSpace candidate) (TrimSpace pkgID)) order with
  | Some i => modp (set_cursor (Z.of_nat i + 1))
  | None => ret tt
  end.

(** ** The next item *)

Definition buildFixed (event : fixedEvent) (timelineEnd t : Z) : PM (result string playlistItem) :=
  if fixed_Kind event =? "chime" then buildChime event timelineEnd t
  else
    let! p := gets fst in
    let zone := feedLocation (feed p) (Target event / Second) in
    buildProduct (fixed_PackageID event) "fixed" (FormatRFC3339NanoIn zone (Target event)) timelineEnd t.

(** Build the fixed event and note that it was given its turn. *)
Definition take_fixed (event : fixedEvent) (timelineEnd t : Z) : PM (option playlistItem) :=
  let! r := buildFixed event timelineEnd t in
  match r with
  | Err e => modp (set_lastError e) ;;; ret None
  | Ok item =>
      modp (fun p => set_lastFixed (<[fixedEventKey event := Target event]> (lastFixed p)) p) ;;;
      ret (Some item)
  end.

(** The attempts of the rotation.  [inl] is a decided result, [inr] the failures
    collected when every attempt failed. *)
Fixpoint try_packages (attempts_left : nat) (pkgID : string) (failures : list string)
    (fixed : option fixedEvent) (timelineEnd t : Z) : PM (option playlistItem + list string) :=
  match attempts_left with
  | O => ret (inr failures)
  | S attempts' =>
      if pkgID =? "" then ret (inr failures)
      else
        let! r := buildProduct pkgID "routine" "" timelineEnd t in
        match r with
        | Ok item =>
            modp (set_nextRoutineRetryAt zeroTime) ;;; modp (set_lastError "") ;;;
            match fixed with
            | Some event =>
                if shouldFrontLoadFixed t event (FixedToleranceS cfg) &&
                   routineItemWouldCrowdFixed item event (FixedToleranceS cfg)
                then let! r := take_fixed event timelineEnd t in ret (inl r)
                else ret (inl (Some item))
            | None => ret (inl (Some item))
            end
        | Err e =>
            modp (set_lastError e) ;;;
            let! pkg' := nextRoutinePackage in
            try_packages attempts' pkg' (failures ++ [pkgID +:+ ": " +:+ e])%list fixed timelineEnd t
        end
  end.

(** The rotation part of [nextPlannedItem]: the packages are tried in turn, and
    planning rests for a while when all of them fail. *)
Definition plan_routine (fixed : option fixedEvent) (timelineEnd t : Z) : PM (option playlistItem) :=
  let! pkgID := nextRoutinePackage in
  let! r := try_packages (length order) pkgID [] fixed timelineEnd t in
  match r with
  | inl result => ret result
  | inr failures =>
      let retry := Add t routineRetryDelay in
      modp (set_nextRoutineRetryAt retry) ;;;
      let detail := Join failures "; " in
      let detail := if detail =? "" then "no routine package could be selected" else detail in
      modp (set_lastError ("routine products unavailable (" +:+ detail +:+ "); retrying at " +:+
        FormatRFC3339 retry)) ;;;
      ret None
  end.

Definition nextPlannedItem (t : Z) : PM (option playlistItem) :=
  let! p := gets fst in
  if negb (IsZero (nextRoutineRetryAt p)) && Before t (nextRoutineRetryAt p) then ret None
  else
    let timeline_end := timelineEnd p t in
    let fixed := nextFixedEvent cfg p t in
    match fixed with
    | Some event =>
        if shouldFrontLoadFixed t event (FixedToleranceS cfg) then take_fixed event timeline_end t
        else plan_routine fixed timeline_end t
    | None => plan_routine fixed timeline_end t
    end.

(** ** The startup primer *)

Definition primer_packages : list (bool * string) :=
  [(true, "station_id"); (false, "date_time"); (false, "current_conditions")].

Fixpoint startup_primer (packages : list (bool * string)) (items : list playlistItem)
    (timelineEnd t : Z) : PM (list playlistItem) :=
  match packages with
  | [] => ret items
  | (first, pkgID) :: packages' =>
      let! p := gets fst in
      let! stop := io (gets ctx_done) in
      if stop || negb (mode p =? "running") || (0 <? priorityActive p)%Z then ret items
      else
        let targetRaw :=
          if first && negb (IsZero (startupPrimerAt p)) then FormatRFC3339Nano (startupPrimerAt p)
          else "" in
        let! r := buildProduct pkgID "startup" targetRaw timelineEnd t in
        match r with
        | Err e =>
            whenb (negb (pkgID =? "current_conditions")) (modp (set_lastError e)) ;;;
            startup_primer packages' items timelineEnd t
        | Ok item =>
            whenb (pkgID =? "current_conditions") (advanceRoutineCursorPast pkgID) ;;;
            let finish := parseTime (PredictedFinishAt item) in
            let timelineEnd := if IsZero finish then timelineEnd else finish in
            let! t := io now in
            startup_primer packages' (items ++ [item])%list timelineEnd t
        end
  end.

Definition prepareStartupPrimer (t : Z) : PM (list playlistItem) :=
  let! p := gets fst in
  startup_primer primer_packages [] (timelineEnd p t) t.

(** [p.queue = append(p.queue, item)] and its announcement. *)
Definition enqueue (item : playlistItem) : PM bool :=
  modp (fun p => set_queue (queue p ++ [item])%list p) ;;; publish_or_stop item.

Definition queueStartupPrimer (t : Z) : PM unit :=
  let! items := prepareStartupPrimer t in
  for_until enqueue items ;;; ret tt.

(** ** The tick *)

(** The loop of [tick]; each round adds an item, so that [MaxQueued] rounds are
    enough. *)
Fixpoint fill_queue (fuel : nat) (lookahead t : Z) : PM unit :=
  match fuel with
  | O => ret tt
  | S fuel' =>
      let! p := gets fst in
      if (queuedCount p <? MaxQueued cfg)%Z && Before (timelineEnd p t) (Add t lookahead) then
        let! next := nextPlannedItem t in
        match next with
        | None => ret tt
        | Some item =>
            let! stop := enqueue item in
            if (stop : bool) then ret tt else fill_queue fuel' lookahead t
        end
      else ret tt
  end.

Definition fill_fuel (p : feedPlanner) : nat := Z.to_nat (MaxQueued cfg - queuedCount p).

Definition tick (t lookahead : Z) : PM unit :=
  let! p := gets fst in
  if negb (feedRoutineEnabled (feed p)) then ret tt
  else if negb (mode p =? "running") then writeState cfg
  else if (0 <? priorityActive p)%Z then writeState cfg
  else if startupPrimerPending p then
    if Before t (startupPrimerAt p) then writeState cfg
    else
      queueStartupPrimer t ;;; modp (set_startupPrimerPending false) ;;; writeState cfg
  else
    dropCompleted ;;;
    replayPendingItemsIfDue t ;;;
    let! p := gets fst in
    fill_queue (fill_fuel p) lookahead t ;;;
    writeState cfg.

(** ** Operator inserts *)

(** What a preparation returns: the planner it worked on, and its items. *)
Record routinePreparation := MkRoutine {
  r_planner : option feedPlanner; r_items : list playlistItem; r_ok : bool }.

Definition prepareInsert (data : obj) : PM routinePreparation :=
  let kind := ToLower (firstText ∅ data ["kind"]) in
  let! t := io now in
  let! p := gets fst in
  if negb (bridge p) && ((kind =? "product") || (kind =? "tts")) then
    modp (set_lastError "event bridge is unavailable") ;;;
    let! p := gets fst in ret (MkRoutine (Some p) [] false)
  else
    let! r :=
      if kind =? "product" then
        buildProduct (firstText ∅ data ["package_id"; "pkg_id"]) "operator" "" (timelineEnd p t) t
      else if kind =? "tts" then
        buildTextItem (firstText ∅ data ["title"]) (firstText ∅ data ["text"]) t
      else if kind =? "audio" then
        buildAudioItem (firstText ∅ data ["title"]) (firstText ∅ data ["audio_path"]) t
      else if kind =? "same" then
        ret (Err "SAME playlist insertion is staged for the SAME queue integration path")
      else ret (Err "unknown insert kind") in
    match r with
    | Err e =>
        modp (set_lastError e) ;;;
        let! p := gets fst in ret (MkRoutine (Some p) [] false)
    | Ok item => let! p := gets fst in ret (MkRoutine (Some p) [item] true)
    end.

Definition insert (data : obj) : PM unit :=
  prepareInsertPosition data ;;;
  let! prepared := prepareInsert data in
  modp (applyRoutinePlanningState (r_planner prepared)) ;;;
  if negb (r_ok prepared) then writeState cfg
  else for_until enqueue (r_items prepared) ;;; writeState cfg.

End plan.

(** ** The minute of the hour *)

Lemma advance_hours_spec fuel base from :
  (from - base) / Hour + 1 <= Z.of_nat fuel ->
  let r := advance_hours fuel base from in
  from <= r /\ (r = base \/ r - Hour < from) /\ exists k, 0 <= k /\ r = base + k * Hour.
Proof.
  revert base. induction fuel as [|fuel IH]; intros base Hf; simpl.
  - assert (from < base).
    { destruct (Z.lt_ge_cases from base) as [|Hge]; [done|].
      pose proof (Z.div_pos (from - base) Hour ltac:(lia) ltac:(done)). lia. }
    split; [lia|]. split; [by left|]. exists 0. lia.
  - unfold Before, Add in *. destruct (Z.ltb_spec base from).
    + destruct (IH (base + Hour)) as (H1 & H2 & k & Hk & H3).
      { replace (from - (base + Hour)) with (from - base + (-1) * Hour) by lia.
        rewrite Z.div_add by done. lia. }
      split; [done|]. split; [right; destruct H2 as [->|]; lia|]. exists (k + 1). lia.
    + split; [done|]. split; [by left|]. exists 0. lia.
Qed.

(** [t] is a whole second of local minute [minute]. *)
Definition at_minute (off minute t : Z) : Prop :=
  t mod Second = 0 /\ (t / Second + off) mod 3600 = minute * 60.

Lemma at_minute_same off minute x y :
  at_minute off minute x -> at_minute off minute y -> x - Hour < y -> x <= y.
Proof.
  unfold at_minute. change Hour with (3600 * Second). intros [Hx Hx'] [Hy Hy'] Hlt.
  assert (0 < Second) by done.
  pose proof (Z.div_mod x Second ltac:(lia)). pose proof (Z.div_mod y Second ltac:(lia)).
  set (a := x / Second) in *. set (b := y / Second) in *.
  pose proof (Z.div_mod (a + off) 3600 ltac:(lia)). pose proof (Z.div_mod (b + off) 3600 ltac:(lia)).
  assert (a - 3600 < b) by nia. assert (a <= b) by lia. nia.
Qed.

(** The soonest whole local minute, whatever the fixed offset. *)
Lemma minute_base_spec off from minute :
  0 <= minute < 60 ->
  let base := minute_base (fun _ => off) from minute in
  at_minute off minute base /\ base - Hour < from /\ from - Hour < base.
Proof.
  intros Hm. unfold minute_base, time_Date, at_minute. cbv beta zeta.
  change Hour with (3600 * Second). assert (0 < Second) by done.
  set (local := from / Second + off).
  pose proof (Z.div_mod from Second ltac:(lia)). pose proof (Z.mod_pos_bound from Second ltac:(lia)).
  pose proof (Z.mod_pos_bound local 3600 ltac:(lia)). pose proof (Z.div_mod local 3600 ltac:(lia)).
  rewrite Z.mod_mul, Z.div_mul by lia.
  replace (local - local mod 3600 + minute * 60 - off + off)
    with (minute * 60 + local / 3600 * 3600) by lia.
  rewrite Z.mod_add, Z.mod_small by lia. split; [done|]. unfold local in *. nia.
Qed.

Lemma minuteTarget_bounds loc from until minute x :
  minuteTarget loc from until minute = Some x -> from <= x <= until.
Proof.
  unfold minuteTarget. cbv zeta.
  destruct (advance_hours_spec (Z.to_nat ((from - minute_base loc from minute) / Hour + 1))
    (minute_base loc from minute) from) as (H1 & _); [lia|].
  unfold After. destruct (Z.ltb_spec until (advance_hours
    (Z.to_nat ((from - minute_base loc from minute) / Hour + 1))
    (minute_base loc from minute) from)); [done|]. intros [= <-]. lia.
Qed.

(** ** Choosing the fixed event *)

Definition played (p : feedPlanner) (c : fixedEvent) : Prop :=
  lastFixed p !! fixedEventKey c = Some (Target c).

Lemma fixed_open_spec p t c :
  fixed_open p t c = true <-> ~ played p c /\ t - 2 * Second < Target c.
Proof.
  unfold fixed_open, played, After, Add. rewrite andb_true_iff, negb_true_iff, Z.ltb_lt.
  replace (t + - (2 * Second)) with (t - 2 * Second) by lia.
  apply and_iff_compat_r. destruct (_ !! _) as [last|]; [|naive_solver].
  rewrite Z.eqb_neq. naive_solver.
Qed.

(** After the candidates [seen], [best] is their earliest open one. *)
Definition best_of (p : feedPlanner) (t : Z) (seen : list fixedEvent) (best : fixedEvent) : Prop :=
  (Target best <> zeroTime -> In best seen /\ fixed_open p t best = true) /\
  forall c, In c seen -> fixed_open p t c = true ->
    Target best <> zeroTime /\ Target best <= Target c.

Lemma best_of_fold p t l seen best :
  zeroTime <= t - 2 * Second -> best_of p t seen best ->
  best_of p t (seen ++ l) (fold_left (better_fixed p t) l best).
Proof.
  intros Ht. revert seen best. induction l as [|c l IH]; intros seen best [Hin Hmin].
  { rewrite app_nil_r. done. }
  change (c :: l)%list with ([c] ++ l)%list. rewrite app_assoc. simpl. apply IH.
  unfold better_fixed. destruct (fixed_open p t c) eqn:Ho; cbn [negb].
  - pose proof (proj1 (fixed_open_spec p t c) Ho) as [_ Hlate]. unfold IsZero, Before.
    destruct (Z.eqb_spec (Target best) zeroTime) as [Hz|Hz]; cbn [orb].
    + split; [intros _; split; [apply in_or_app; right; by left|done]|].
      intros d [Hd|[<-|[]]]%in_app_or Hdo; [|lia]. by destruct (Hmin d Hd Hdo).
    + destruct (Hin Hz) as [? Hbo].
      destruct (Z.ltb_spec (Target c) (Target best)) as [Hlt|Hge].
      * split; [intros _; split; [apply in_or_app; right; by left|done]|].
        intros d [Hd|[<-|[]]]%in_app_or Hdo; [|lia]. destruct (Hmin d Hd Hdo). lia.
      * split; [intros _; split; [apply in_or_app; by left|done]|].
        intros d [Hd|[<-|[]]]%in_app_or Hdo; [by apply Hmin|done].
  - split; [intros Hz; destruct (Hin Hz); split; [apply in_or_app; by left|done]|].
    intros d [Hd|[<-|[]]]%in_app_or Hdo; [by apply Hmin|congruence].
Qed.

Lemma fixed_targets_in loc from until kind package title minutes c :
  In c (fixed_targets loc from until kind package title minutes) -> from <= Target c <= until.
Proof.
  unfold fixed_targets. intros Hc%list_elem_of_In%list_elem_of_omap.
  destruct Hc as (m & _ & Hm). destruct (minuteTarget loc from until m) as [x|] eqn:E; [|done].
  injection Hm as <-. by apply (minuteTarget_bounds loc from until m).
Qed.

Lemma fixed_candidates_in `{Zones} cfg p t c :
  In c (fixed_candidates cfg p t) -> t - Second <= Target c <= t + 3 * Minute.
Proof.
  unfold fixed_candidates. cbv zeta. unfold Add.
  intros [Hc|[Hc|Hc]%in_app_or]%in_app_or; case_match; try done; apply fixed_targets_in in Hc; lia.
Qed.

Lemma nextFixedEvent_best `{Zones} cfg p t :
  zeroTime <= t - 2 * Second ->
  match nextFixedEvent cfg p t with
  | Some e => In e (fixed_candidates cfg p t) /\ ~ played p e /\
      forall c, In c (fixed_candidates cfg p t) -> ~ played p c -> Target e <= Target c
  | None => forall c, In c (fixed_candidates cfg p t) -> played p c
  end.
Proof.
  intros Ht. unfold nextFixedEvent. cbv zeta.
  destruct (best_of_fold p t (fixed_candidates cfg p t) [] noFixed Ht) as [Hin Hmin].
  { split; [by intros []|done]. }
  set (best := fold_left _ _ _) in *. simpl in Hin, Hmin.
  assert (Hopen : forall c, In c (fixed_candidates cfg p t) -> ~ played p c -> fixed_open p t c = true).
  { intros c Hc Hp. apply fixed_open_spec. split; [done|].
    pose proof (fixed_candidates_in _ _ _ _ Hc). assert (0 < Second) by done. lia. }
  unfold IsZero. destruct (Z.eqb_spec (Target best) zeroTime) as [Hz|Hz].
  - intros c Hc. unfold played. destruct (decide (lastFixed p !! fixedEventKey c = Some (Target c))); [done|].
    by destruct (Hmin c Hc (Hopen c Hc ltac:(done))).
  - destruct (Hin Hz) as [Hb Ho]. apply fixed_open_spec in Ho as [Hp _].
    split; [done|]. split; [done|]. intros c Hc Hcp. by destruct (Hmin c Hc (Hopen c Hc Hcp)).
Qed.

(** ** What planning leaves alone *)

Definition slots_kept (p p' : feedPlanner) : Prop := queue p' = queue p /\ current p' = current p.
Definition keeps {A} (m : PM A) : Prop := forall s, slots_kept s.1 (m s).2.1.

Create HintDb slots.
Lemma keeps_ret {A} (a : A) : keeps (ret a).
Proof. done. Qed.
Lemma keeps_gets {A} (f : feedPlanner * World -> A) : keeps (gets f).
Proof. done. Qed.
Lemma keeps_io {A} (m : M World A) : keeps (io m).
Proof. intros [p w]. unfold io. by destruct (m (p, w).2). Qed.
Lemma keeps_modp f : (forall p, slots_kept p (f p)) -> keeps (modp f).
Proof. intros Hf [p w]. apply Hf. Qed.
Lemma keeps_bind {A B} (f : A -> PM B) (m : PM A) :
  keeps m -> (forall a, keeps (f a)) -> keeps (mbind f m).
Proof.
  intros Hm Hf s. rewrite mbind_eq. destruct (Hm s) as [H1 H2], (Hf (m s).1 (m s).2) as [H3 H4].
  split; congruence.
Qed.
#[export] Hint Resolve keeps_ret keeps_gets keeps_io : slots.
Lemma keeps_whenb (b : bool) m : keeps m -> keeps (whenb b m).
Proof. intros. unfold whenb. by case_match. Qed.

(** Walk through the statements of an operation. *)
Ltac slots := repeat first
  [ solve [eauto with slots]
  | apply keeps_bind; intros
  | apply keeps_modp; by intros []
  | apply keeps_whenb
  | progress case_match ].

Lemma plan_kept_slots p p' : plan_kept p p' -> slots_kept p p'.
Proof. intros H. split; apply H. Qed.

Section planning.
Context `{Env} `{Zones} {HB : Builder} {HBok : BuilderOk} (cfg : loadedConfig).

Lemma keeps_buildProduct pkg source target e t : keeps (buildProduct pkg source target e t).
Proof. intros s. apply plan_kept_slots, buildProduct_kept. Qed.
Lemma keeps_buildChime ev e t : keeps (buildChime ev e t).
Proof. intros s. apply plan_kept_slots, buildChime_kept. Qed.
Lemma keeps_hasRoutineAlerts t : keeps (hasRoutineAlerts t).
Proof. intros s. apply plan_kept_slots, hasRoutineAlerts_kept. Qed.
#[local] Hint Resolve keeps_buildProduct keeps_buildChime keeps_hasRoutineAlerts : slots.

Lemma keeps_next_package n : keeps (next_package cfg n).
Proof. induction n as [|n IH]; simpl; slots. Qed.
#[local] Hint Resolve keeps_next_package : slots.

Lemma keeps_take_fixed event e t : keeps (take_fixed event e t).
Proof. unfold take_fixed, buildFixed. slots. Qed.
#[local] Hint Resolve keeps_take_fixed : slots.

Lemma keeps_try_packages n pkg failures fixed e t :
  keeps (try_packages cfg n pkg failures fixed e t).
Proof.
  revert pkg failures. induction n as [|n IH]; intros; simpl; unfold nextRoutinePackage; slots.
Qed.
#[local] Hint Resolve keeps_try_packages : slots.

Lemma keeps_nextPlannedItem t : keeps (nextPlannedItem cfg t).
Proof. unfold nextPlannedItem, plan_routine, nextRoutinePackage. cbv zeta. slots. Qed.

Lemma keeps_publish_or_stop item : keeps (publish_or_stop item).
Proof. unfold publish_or_stop, publishReady. slots. Qed.

Lemma keeps_writeState : keeps (writeState cfg).
Proof.
  intros [p w]. pose proof (writeState_frame cfg p w) as Hf.
  destruct (writeState cfg (p, w)) as [u [p' w']]. destruct Hf as [Hb _].
  apply bare_fields in Hb as (_ & _ & _ & _ & _ & Hq & Hc & _). by split.
Qed.

Lemma keeps_for_until {A} (f : A -> PM bool) l : (forall a, keeps (f a)) -> keeps (for_until f l).
Proof. intros Hf. induction l as [|a l IH]; simpl; slots. Qed.

Lemma keeps_replay t : keeps (replayPendingItemsIfDue t).
Proof.
  unfold replayPendingItemsIfDue, replayItemsAt. cbv zeta.
  repeat (slots; try (apply keeps_for_until, keeps_publish_or_stop)).
Qed.

(** An item joins the end of the queue. *)
Lemma enqueue_slots item s :
  let s' := (enqueue item s).2 in
  queue s'.1 = (queue s.1 ++ [item])%list /\ current s'.1 = current s.1.
Proof.
  unfold enqueue. destruct s as [p w]. rewrite mbind_eq. cbn [modp modify fst snd].
  apply (keeps_publish_or_stop item (set_queue (queue p ++ [item])%list p, w)).
Qed.

Lemma slots_queuedCount p p' : slots_kept p p' -> queuedCount p' = queuedCount p.
Proof. unfold queuedCount. intros [-> ->]. done. Qed.

Lemma enqueue_count item s : queuedCount (enqueue item s).2.1 = queuedCount s.1 + 1.
Proof.
  destruct (enqueue_slots item s) as [Hq Hc]. unfold queuedCount.
  rewrite Hq, Hc, length_app. simpl. case_match; lia.
Qed.

(** ** The fill loop *)

Lemma fill_queue_S fuel lookahead t p w :
  fill_queue cfg (S fuel) lookahead t (p, w) =
  if (queuedCount p <? MaxQueued cfg)%Z && Before (timelineEnd p t) (Add t lookahead) then
    let r := nextPlannedItem cfg t (p, w) in
    match r.1 with
    | None => (tt, r.2)
    | Some item =>
        let e := enqueue item r.2 in
        if e.1 : bool then (tt, e.2) else fill_queue cfg fuel lookahead t e.2
    end
  else (tt, (p, w)).
Proof.
  simpl. rewrite mbind_eq. cbn [gets fst snd]. destruct (_ && _); [|done].
  rewrite mbind_eq. cbv zeta. destruct (nextPlannedItem cfg t (p, w)) as [[item|] s]; [|done].
  cbn [fst snd]. rewrite mbind_eq. by destruct (enqueue item s).1.
Qed.

Lemma next_item_count t s item :
  queuedCount (enqueue item (nextPlannedItem cfg t s).2).2.1 = queuedCount s.1 + 1.
Proof. rewrite enqueue_count. f_equal. apply slots_queuedCount, keeps_nextPlannedItem. Qed.

Lemma fill_queue_enough fuel extra lookahead t s :
  (fill_fuel cfg s.1 <= fuel)%nat ->
  fill_queue cfg (fuel + extra) lookahead t s = fill_queue cfg fuel lookahead t s.
Proof.
  unfold fill_fuel. revert s. induction fuel as [|fuel IH]; intros [p w] Hf.
  - destruct extra as [|extra]; [done|]. cbn [fst] in Hf.
    rewrite Nat.add_0_l, fill_queue_S.
    rewrite (proj2 (Z.ltb_ge _ _)) by lia. done.
  - rewrite Nat.add_succ_l, !fill_queue_S. destruct (_ && _) eqn:E; [|done]. cbv zeta.
    destruct (nextPlannedItem cfg t (p, w)).1 as [item|]; [|done].
    destruct (enqueue item (nextPlannedItem cfg t (p, w)).2).1; [done|]. apply IH.
    rewrite next_item_count. cbn [fst] in *. lia.
Qed.

Lemma fill_queue_bound fuel lookahead t s :
  queuedCount s.1 <= queuedCount (fill_queue cfg fuel lookahead t s).2.1
    <= Z.max (MaxQueued cfg) (queuedCount s.1).
Proof.
  revert s. induction fuel as [|fuel IH]; intros [p w].
  - simpl. lia.
  - rewrite fill_queue_S. cbn [fst]. destruct (_ && _) eqn:E; [|cbn [fst snd]; lia]. bool_hyps. cbv zeta.
    destruct (nextPlannedItem cfg t (p, w)).1 as [item|] eqn:Ei.
    + pose proof (next_item_count t (p, w) item) as Hc. cbn [fst] in Hc.
      destruct (enqueue item (nextPlannedItem cfg t (p, w)).2).1; [cbn [fst snd]; lia|].
      specialize (IH (enqueue item (nextPlannedItem cfg t (p, w)).2).2). lia.
    + pose proof (slots_queuedCount _ _ (keeps_nextPlannedItem t (p, w))) as Hc. cbn [fst snd] in *. lia.
Qed.

End planning.

(** ** The rotation *)

(** The entries the rotation may pass over. *)
Definition passed_over (pkg : string) : Prop := pkg = "" \/ pkg = "alerts".

(** The packages of [n] selections in a row. *)
Fixpoint selections `{Env} `{Builder} (cfg : loadedConfig) (n : nat) : PM (list string) :=
  match n with
  | O => ret []
  | S n' =>
      let! pkg := nextRoutinePackage cfg in
      let! l := selections cfg n' in ret (pkg :: l)
  end.

Section rotation.
Context `{Env} `{Zones} {HB : Builder} {HBok : BuilderOk} (cfg : loadedConfig).

(** The cursor goes from [c] to [c'], selecting [pkg] or passing everything over. *)
Definition selects (pkg : string) (c c' : Z) : Prop :=
  c < c' /\ (pkg = "" \/ pkg = entry_at cfg (c' - 1)) /\
  forall j, c <= j < c' -> passed_over (entry_at cfg j) \/ pkg = entry_at cfg j.

Lemma next_package_spec n p w :
  (n <> 0)%nat -> 0 <= cursor p -> cursor p + Z.of_nat n < 2 ^ 63 ->
  let r := next_package cfg n (p, w) in
  selects r.1 (cursor p) (cursor r.2.1) /\ cursor r.2.1 <= cursor p + Z.of_nat n /\
  (r.1 = "" -> cursor r.2.1 = cursor p + Z.of_nat n).
Proof.
  revert p w. induction n as [|n IH]; intros p w Hn Hc Hb; [done|]. cbv zeta. clear Hn.
  set (pkg := entry_at cfg (cursor p)).
  (* the rest of the loop, when this entry is passed over *)
  assert (Hrest : passed_over pkg -> forall p' w', cursor p' = cursor p + 1 ->
    let r := next_package cfg n (p', w') in
    selects r.1 (cursor p) (cursor r.2.1) /\ cursor r.2.1 <= cursor p + Z.of_nat (S n) /\
    (r.1 = "" -> cursor r.2.1 = cursor p + Z.of_nat (S n))).
  { intros Hpass p' w' Hc'. destruct n as [|n].
    - cbn [next_package ret fst snd]. rewrite Hc'. split; [|split; [lia|intros; lia]].
      split; [lia|]. split; [by left|]. intros j Hj. left. by replace j with (cursor p) by lia.
    - destruct (IH p' w' ltac:(done) ltac:(lia) ltac:(lia)) as ((H1 & H2 & H3) & H4 & H5).
      split; [|split; [lia|intros E; specialize (H5 E); lia]]. split; [lia|]. split; [done|]. intros j Hj.
      destruct (decide (j = cursor p)) as [->|]; [by left|]. apply H3. lia. }
  assert (Hthis : pkg <> "" -> forall p' : feedPlanner, cursor p' = cursor p + 1 ->
    selects pkg (cursor p) (cursor p') /\ cursor p' <= cursor p + Z.of_nat (S n) /\
    (pkg = "" -> cursor p' = cursor p + Z.of_nat (S n))).
  { intros Hne p' Hc'. rewrite Hc'. split; [|split; [lia|done]]. split; [lia|].
    split; [right; by replace (cursor p + 1 - 1) with (cursor p) by lia|].
    intros j Hj. right. by replace j with (cursor p) by lia. }
  cbn [next_package]. rewrite mbind_eq. cbn [gets fst snd]. rewrite mbind_eq. cbn [modp modify fst snd].
  fold pkg. set (p1 := set_cursor _ p).
  assert (Hp1 : cursor p1 = cursor p + 1) by (apply wrap64_id; unfold int64_ok; lia).
  clearbody p1. destruct (String.eqb_spec pkg "") as [E|E]; [apply Hrest; [by left|done]|].
  destruct (String.eqb_spec pkg "alerts") as [E'|E']; [|by apply Hthis].
  rewrite mbind_eq. change (io now (p1, w)) with (clock (reads w), (p1, (now w).2)).
  cbn [fst snd]. rewrite mbind_eq.
  pose proof (hasRoutineAlerts_kept (clock (reads w)) (p1, (now w).2)) as (_ & _ & Hk & _).
  destruct (hasRoutineAlerts _ _) as [has [p2 w2]].
  cbn [fst snd] in *. destruct has; [apply Hthis; [done|]|apply Hrest; [by right|]]; cbn; lia.
Qed.

(** Everything the cursor went over was selected or may be passed over. *)
Lemma selections_cover n p w :
  order cfg <> [] -> 0 <= cursor p ->
  cursor p + Z.of_nat n * Z.of_nat (length (order cfg)) < 2 ^ 63 ->
  let r := selections cfg n (p, w) in
  cursor p + Z.of_nat n <= cursor r.2.1 /\
  forall j, cursor p <= j < cursor r.2.1 -> passed_over (entry_at cfg j) \/ In (entry_at cfg j) r.1.
Proof.
  intros Ho. revert p w. induction n as [|n IH]; intros p w Hc Hb; cbn [selections].
  { cbn. split; [lia|]. intros j Hj. lia. }
  rewrite !mbind_eq.
  assert (Hlen : (length (order cfg) <> 0)%nat) by (by intros E%length_zero_iff_nil).
  destruct (next_package_spec (length (order cfg)) p w) as ((Hlt & _ & Hover) & Hle & _); [done..|nia|].
  fold (nextRoutinePackage cfg) in *.
  destruct (nextRoutinePackage cfg (p, w)) as [pkg [p1 w1]]. cbn [fst snd] in *.
  destruct (IH p1 w1 ltac:(lia) ltac:(nia)) as [Hge Hrest].
  destruct (selections cfg n (p1, w1)) as [l [p2 w2]]. cbn [fst snd ret] in *.
  split; [lia|]. intros j Hj. destruct (Z.lt_ge_cases j (cursor p1)).
  - destruct (Hover j ltac:(lia)) as [Hp|Hp]; [by left|]. right. rewrite <- Hp. by left.
  - destruct (Hrest j ltac:(lia)) as [Hp|Hp]; [by left|]. right. by right.
Qed.

(** Every entry comes up in any [length order] positions in a row. *)
Lemma entry_in_window c x :
  0 <= c -> In x (order cfg) ->
  exists j, c <= j < c + Z.of_nat (length (order cfg)) /\ entry_at cfg j = TrimSpace x.
Proof.
  intros Hc Hx. apply (In_nth _ _ "") in Hx as (i & Hi & Hx).
  set (L := Z.of_nat (length (order cfg))). assert (0 < L) by lia.
  exists (c + (Z.of_nat i - c) mod L).
  pose proof (Z.mod_pos_bound (Z.of_nat i - c) L ltac:(done)).
  split; [lia|]. unfold entry_at. fold L. do 2 f_equal. rewrite <- Hx. f_equal.
  rewrite Z.rem_mod_nonneg by lia.
  replace ((c + (Z.of_nat i - c) mod L) mod L) with (Z.of_nat i); [apply Nat2Z.id|].
  rewrite Z.add_mod_idemp_r by lia. replace (c + (Z.of_nat i - c)) with (Z.of_nat i) by lia.
  rewrite Z.mod_small; lia.
Qed.

End rotation.

(** ** Languages over many builds *)

(** The languages of [n] routine builds in a row. *)
Fixpoint languages_of (n : nat) : PM (list string) :=
  match n with
  | O => ret []
  | S n' =>
      let! code := productLanguageForBuild "routine" in
      let! l := languages_of n' in ret (code :: l)
  end.

Lemma two_languages_step p w primary other k :
  feedLanguages (feed p) = [primary; other] -> int64_ok (languageInterval (Interval other) + 1) ->
  0 <= routineLanguageCount p < 2 ^ 63 - 1 ->
  k = languageInterval (Interval other) + 1 ->
  exists p', nextRoutineLanguage (p, w) =
    (if (routineLanguageCount p + 1) mod k =? 0 then Code other else Code primary, (p', w))%Z /\
  feed p' = feed p /\ routineLanguageCount p' = routineLanguageCount p + 1.
Proof.
  intros Hl Hi Hc ->. unfold nextRoutineLanguage. rewrite mbind_eq. cbn [gets fst snd]. rewrite Hl.
  rewrite (wrap64_id (routineLanguageCount p + 1)) by (unfold int64_ok; lia).
  assert (1 <= languageInterval (Interval other)).
  { unfold languageInterval. destruct (ParseInt _); [|done]. case_match; [done|bool_hyps; lia]. }
  unfold due_languages. cbn [List.filter]. rewrite wrap64_id, Z.rem_mod_nonneg by (done || lia).
  destruct (_ =? 0)%Z; [|eexists; cbn; done].
  unfold mbind, modp, modify, ret. cbn [length fst snd].
  change (Z.of_nat 1) with 1. rewrite Z.rem_1_r. eexists. cbn. done.
Qed.

Lemma languages_of_two n p w primary other k :
  feedLanguages (feed p) = [primary; other] -> int64_ok (languageInterval (Interval other) + 1) ->
  0 <= routineLanguageCount p -> routineLanguageCount p + Z.of_nat n < 2 ^ 63 ->
  k = languageInterval (Interval other) + 1 ->
  (languages_of n (p, w)).1 =
    map (fun c => if (Z.of_nat c mod k =? 0)%Z then Code other else Code primary)
      (seq (Z.to_nat (routineLanguageCount p) + 1) n).
Proof.
  revert p w. induction n as [|n IH]; intros p w Hl Hi H0 Hb Hk; [done|].
  cbn [languages_of seq map]. unfold productLanguageForBuild.
  rewrite !mbind_eq. cbn [gets fst snd].
  replace (EqualFold "routine" "routine") with true by (by vm_compute). cbn [negb].
  destruct (two_languages_step p w primary other k) as (p' & E & Hf & Hc); [done..|lia|done|].
  rewrite E. cbn [ret fst snd].
  rewrite IH by (congruence || lia). f_equal.
  - by replace (Z.of_nat (Z.to_nat (routineLanguageCount p) + 1)) with (routineLanguageCount p + 1) by lia.
  - rewrite Hc. by replace (Z.to_nat (routineLanguageCount p + 1) + 1)%nat
      with (S (Z.to_nat (routineLanguageCount p) + 1)) by lia.
Qed.

(** ** Properties *)

(** The rotation is fair.  Whatever alerts there are, each package of the
    playlist order that is neither blank nor the alerts package is selected at
    least once in any [length order] selections in a row. *)
Theorem rotation_fair `{Env} `{Zones} {HB : Builder} {HBok : BuilderOk} (cfg : loadedConfig)
    (p : feedPlanner) (w : World) (x : string) :
  let n := length (order cfg) in
  0 <= cursor p -> cursor p + Z.of_nat n * Z.of_nat n < 2 ^ 63 ->
  In x (order cfg) -> TrimSpace x <> "" -> TrimSpace x <> "alerts" ->
  In (TrimSpace x) (selections cfg n (p, w)).1.
Proof.
  intros n Hc Hb Hx Hne Hna.
  assert (Ho : order cfg <> []) by (intros E; rewrite E in Hx; done).
  destruct (selections_cover cfg n p w Ho Hc Hb) as [Hge Hcover].
  destruct (entry_in_window cfg (cursor p) x Hc Hx) as (j & Hj & Ej).
  destruct (Hcover j ltac:(lia)) as [Hp|Hin]; [|by rewrite Ej in Hin].
  rewrite Ej in Hp. destruct Hp; done.
Qed.

(** In a zone with a fixed offset, [minuteTarget] is the soonest whole
    local minute in the window, and reports none only when there is none. *)
Theorem minuteTarget_soonest (off from until minute : Z) :
  0 <= minute < 60 ->
  match minuteTarget (fun _ => off) from until minute with
  | Some x => from <= x <= until /\ at_minute off minute x /\
      forall y, from <= y -> at_minute off minute y -> x <= y
  | None => forall y, from <= y <= until -> ~ at_minute off minute y
  end.
Proof.
  intros Hm. destruct (minute_base_spec off from minute Hm) as (Hat & Hlo & Hhi).
  unfold minuteTarget. set (base := minute_base _ _ _) in *. cbv zeta.
  set (fuel := Z.to_nat ((from - base) / Hour + 1)).
  destruct (advance_hours_spec fuel base from) as (Hge & Hprev & k & Hk & Er); [lia|].
  set (r := advance_hours fuel base from) in *.
  assert (Hr : at_minute off minute r).
  { rewrite Er. unfold at_minute in *. change Hour with (3600 * Second). assert (0 < Second) by done.
    replace (base + k * (3600 * Second)) with (base + (k * 3600) * Second) by lia.
    rewrite Z.mod_add, Z.div_add by lia. split; [apply Hat|].
    replace (base / Second + k * 3600 + off) with (base / Second + off + k * 3600) by lia.
    rewrite Z.mod_add by lia. apply Hat. }
  assert (Hmin : forall y, from <= y -> at_minute off minute y -> r <= y).
  { intros y Hy Hym. apply (at_minute_same off minute); [done..|]. destruct Hprev as [->|]; lia. }
  unfold After. destruct (Z.ltb_spec until r); [|done].
  intros y Hy Hym. specialize (Hmin y ltac:(lia) Hym). lia.
Qed.

(** The next fixed event lies between a second ago and three minutes ahead,
    has not been played, and is the earliest such candidate; there is none only
    when every candidate has been played. *)
Theorem nextFixedEvent_earliest `{Zones} (cfg : loadedConfig) (p : feedPlanner) (t : Z) :
  zeroTime + 2 * Second <= t ->
  match nextFixedEvent cfg p t with
  | Some e => In e (fixed_candidates cfg p t) /\ t - Second <= Target e <= t + 3 * Minute /\
      ~ played p e /\
      forall c, In c (fixed_candidates cfg p t) -> ~ played p c -> Target e <= Target c
  | None => forall c, In c (fixed_candidates cfg p t) -> played p c
  end.
Proof.
  intros Ht. pose proof (nextFixedEvent_best cfg p t ltac:(lia)) as Hbest.
  destruct (nextFixedEvent cfg p t) as [e|]; [|done]. destruct Hbest as (Hin & Hp & Hmin).
  pose proof (fixed_candidates_in cfg p t e Hin) as [? ?]. split_and!; done.
Qed.

(** A fixed event is played at most once.  When its item was built, no later
    planning picks an event with its key and target; when building failed, what
    was played is unchanged, so that it is tried again. *)
Theorem fixed_event_once `{Env} `{Zones} {HB : Builder} {HBok : BuilderOk} (cfg : loadedConfig)
    (event e : fixedEvent) (timeline_end t t' : Z) (p : feedPlanner) (w : World) :
  zeroTime + 2 * Second <= t' ->
  let '(built, (p', w')) := take_fixed event timeline_end t (p, w) in
  match built with
  | Some _ => nextFixedEvent cfg p' t' = Some e -> fixedEventKey e = fixedEventKey event ->
      Target e <> Target event
  | None => lastFixed p' = lastFixed p
  end.
Proof.
  intros Ht. unfold take_fixed. rewrite mbind_eq.
  assert (Hkept : lastFixed (buildFixed event timeline_end t (p, w)).2.1 = lastFixed p).
  { unfold buildFixed. case_match; [apply (buildChime_kept event timeline_end t (p, w))|].
    rewrite mbind_eq. cbn [gets fst snd]. apply (buildProduct_kept _ _ _ _ _ (p, w)). }
  destruct (buildFixed event timeline_end t (p, w)) as [[item|err] [p1 w1]]; cbn [fst snd] in *.
  - rewrite mbind_eq. cbn [modp modify ret fst snd]. intros Hnext Hkey Htarget.
    pose proof (nextFixedEvent_best cfg
      (set_lastFixed (<[fixedEventKey event := Target event]> (lastFixed p1)) p1) t' ltac:(lia)) as Hb.
    rewrite Hnext in Hb. destruct Hb as (_ & Hp & _). apply Hp.
    unfold played. rewrite Hkey, Htarget. cbn. apply lookup_insert_eq.
  - rewrite mbind_eq. cbn. done.
Qed.

(** C38: the loop that fills the queue ends by its own tests: more rounds than
    [fill_fuel] change nothing, the queue never shrinks, and it never grows
    beyond the configured length. *)
Theorem fill_queue_terminates `{Env} `{Zones} {HB : Builder} {HBok : BuilderOk} (cfg : loadedConfig)
    (lookahead t : Z) (extra : nat) (p : feedPlanner) (w : World) :
  let n := fill_fuel cfg p in
  let p' := (fill_queue cfg n lookahead t (p, w)).2.1 in
  fill_queue cfg (n + extra) lookahead t (p, w) = fill_queue cfg n lookahead t (p, w) /\
  queuedCount p <= queuedCount p' <= Z.max (MaxQueued cfg) (queuedCount p).
Proof.
  intros n p'. split; [by apply fill_queue_enough|]. apply (fill_queue_bound cfg n lookahead t (p, w)).
Qed.

(** With two languages, the second one airs on every [(i + 1)]-th routine
    build, [i] being its interval, and the first one on all the others. *)
Theorem two_languages_share (p : feedPlanner) (w : World) (primary other : feedLangXML) (n : nat) :
  let k := languageInterval (Interval other) + 1 in
  feedLanguages (feed p) = [primary; other] -> int64_ok k ->
  routineLanguageCount p = 0 -> Z.of_nat n < 2 ^ 63 ->
  (languages_of n (p, w)).1 =
    map (fun c => if (Z.of_nat c mod k =? 0)%Z then Code other else Code primary) (seq 1 n).
Proof.
  intros k Hl Hi H0 Hn.
  rewrite (languages_of_two n p w primary other k) by (done || lia). by rewrite H0.
Qed.

(** A tick plans nothing while routine programming is off, the planner is
    not running, an alert is on air or the startup time has not come: the
    planner keeps its state and no message is sent.  Otherwise, once the primer
    has been played, a tick never takes the queue beyond the configured length. *)
Theorem tick_gated `{Env} `{Zones} {HB : Builder} {HBok : BuilderOk} (cfg : loadedConfig)
    (t lookahead : Z) (p : feedPlanner) (w : World) :
  let s' := (tick cfg t lookahead (p, w)).2 in
  (feedRoutineEnabled (feed p) = false \/ mode p <> "running" \/ 0 < priorityActive p \/
     (startupPrimerPending p = true /\ t < startupPrimerAt p) ->
   bare s'.1 = bare p /\ published s'.2 = published w) /\
  (startupPrimerPending p = false ->
   queuedCount s'.1 <= Z.max (MaxQueued cfg) (queuedCount p)).
Proof.
  assert (Hstate : let s' := (writeState cfg (p, w)).2 in
    bare s'.1 = bare p /\ published s'.2 = published w).
  { pose proof (writeState_frame cfg p w) as Hf. destruct (writeState cfg (p, w)) as [u [p' w']].
    split; apply Hf. }
  assert (Hcount : forall s, queuedCount (writeState cfg s).2.1 = queuedCount s.1).
  { intros s. apply slots_queuedCount, keeps_writeState. }
  cbv zeta. unfold tick. rewrite mbind_eq. cbn [gets fst snd].
  destruct (feedRoutineEnabled (feed p)) eqn:Ef; cbn [negb]; [|cbn; split; [done|lia]].
  destruct (String.eqb_spec (mode p) "running") as [Em|Em]; cbn [negb];
    [|split; [done|rewrite Hcount; cbn; lia]].
  destruct (Z.ltb_spec 0 (priorityActive p)); [split; [done|rewrite Hcount; cbn; lia]|].
  destruct (startupPrimerPending p) eqn:Ep; unfold Before.
  - split; [|done]. destruct (Z.ltb_spec t (startupPrimerAt p)); [done|].
    intros [|[|[|[_ ?]]]]; done || lia.
  - split; [intros [|[|[|[? _]]]]; done || lia|]. intros _.
    rewrite !mbind_eq. cbn [gets fst snd]. rewrite Hcount.
    set (s1 := (dropCompleted (p, w)).2). set (s2 := (replayPendingItemsIfDue t s1).2).
    assert (Hs2 : queuedCount s2.1 = queuedCount s1.1) by apply slots_queuedCount, keeps_replay.
    assert (Hs1 : queuedCount s1.1 <= queuedCount p).
    { unfold s1, dropCompleted. rewrite mbind_eq. cbn [modp modify io fst snd now].
      unfold queuedCount. cbn. pose proof (filter_length_le (fun item =>
        negb (negb (IsZero (parseTime (PredictedFinishAt item))) &&
          Before (parseTime (PredictedFinishAt item)) (Add (clock (reads w)) (- (5 * Minute)))))
        (queue p)). case_match; lia. }
    destruct s2 as [p2 w2]. pose proof (fill_queue_bound cfg (fill_fuel cfg p2) lookahead t (p2, w2)).
    cbn [fst snd] in *. lia.
Qed.

(** ** Witnesses *)

(** Products that are always built, thirty seconds long. *)
#[export] Instance sample_Builder : Builder | 1000 := {|
  buildProduct pkg source target e t :=
    ret (Ok (sample_item pkg pkg (FormatRFC3339Nano (e + 30 * Second))));
  buildChime ev e t := ret (Err "no chime");
  buildTextItem title text t := ret (Err "no text");
  buildAudioItem title path t := ret (Err "no audio");
  hasRoutineAlerts t := ret false;
  ctx_done _ := false |}.
#[export] Instance sample_BuilderOk : BuilderOk | 1000.
Proof. by split. Qed.
#[export] Instance sample_Zones : Zones | 1000 := {|
  LoadLocation _ := None; LocalZone _ := -21600 |}.

Definition rotation_config : loadedConfig :=
  MkConfig false 4 20 (MkPlayout 48000 1 ["weather"; ""; "alerts"; " marine "] (f64_of_Z 0)
    (MkMinuteSchedule None []) (MkMinuteSchedule None []) (MkChimes true true true)) ANil ""
    [sample_feed] "/srv" "/out".

Lemma rotation_fair_witness : In "marine" (selections rotation_config 4 (sample_planner, sample_world)).1.
Proof.
  replace "marine" with (TrimSpace " marine ") by (by vm_compute).
  apply (rotation_fair rotation_config sample_planner sample_world " marine ");
    [by vm_compute..|by vm_compute; auto|by vm_compute|by vm_compute].
Defined.

Lemma minuteTarget_soonest_witness :
  minuteTarget (fun _ => -21600) noon (noon + 3 * Minute) 2 = Some (noon + 2 * Minute) /\
  at_minute (-21600) 2 (noon + 2 * Minute).
Proof.
  pose proof (minuteTarget_soonest (-21600) noon (noon + 3 * Minute) 2) as Hm.
  assert (E : minuteTarget (fun _ => -21600) noon (noon + 3 * Minute) 2 = Some (noon + 2 * Minute))
    by (by vm_compute).
  rewrite E in Hm. split; [exact E|]. apply Hm. lia.
Defined.

Lemma nextFixedEvent_earliest_witness :
  let event := MkFixed "station_id" "station_id" "Station Identification" noon in
  nextFixedEvent rotation_config sample_planner noon = Some event /\
  ~ played sample_planner event /\
  (forallb (fun c => (noon <=? Target c)%Z) (fixed_candidates rotation_config sample_planner noon) = true).
Proof.
  intros event. pose proof (nextFixedEvent_earliest rotation_config sample_planner noon) as Hn.
  assert (E : nextFixedEvent rotation_config sample_planner noon = Some event) by (by vm_compute).
  rewrite E in Hn. destruct Hn as (_ & _ & Hp & Hmin); [by vm_compute|].
  split_and!; [exact E|exact Hp|]. apply forallb_forall. intros c Hc. apply Z.leb_le, Hmin; [done|].
  unfold played. by rewrite (lookup_empty (fixedEventKey c) : lastFixed sample_planner !! _ = None).
Defined.

Lemma fixed_event_once_witness :
  let event := MkFixed "station_id" "station_id" "Station Identification" noon in
  nextFixedEvent rotation_config (take_fixed event noon noon (sample_planner, sample_world)).2.1 noon
  <> Some event.
Proof.
  intros event E.
  exact (fixed_event_once rotation_config event event noon noon noon sample_planner sample_world
    ltac:(by vm_compute) E eq_refl eq_refl).
Defined.

Definition bilingual : feedPlanner :=
  MkPlanner true (MkFeed "f1" "" "" "" "" [MkFeedLang "en-CA" ""; MkFeedLang "fr-CA" "2"] [] [])
    "running" "" 0 0 false "" 0 0 0 zeroTime zeroTime zeroTime [] None ∅ "" "" zeroTime.

Lemma two_languages_share_witness :
  (languages_of 6 (bilingual, sample_world)).1 = ["en-CA"; "en-CA"; "fr-CA"; "en-CA"; "en-CA"; "fr-CA"].
Proof.
  rewrite (two_languages_share bilingual sample_world (MkFeedLang "en-CA" "") (MkFeedLang "fr-CA" "2") 6);
    [by vm_compute|by vm_compute|by vm_compute|by vm_compute|by vm_compute].
Defined.

Lemma fill_queue_terminates_witness :
  queuedCount sample_planner <=
    queuedCount (fill_queue rotation_config (fill_fuel rotation_config sample_planner) Hour noon
      (sample_planner, sample_world)).2.1 <= 4.
Proof.
  destruct (fill_queue_terminates rotation_config Hour noon 5 sample_planner sample_world) as [_ [H1 H2]].
  split; [exact H1|]. etrans; [exact H2|by vm_compute].
Defined.

Lemma tick_gated_witness :
  queuedCount (tick rotation_config noon Hour (sample_planner, sample_world)).2.1 <= 4.
Proof.
  destruct (tick_gated rotation_config noon Hour sample_planner sample_world) as [_ Hq].
  etrans; [apply Hq; by vm_compute|by vm_compute].
Defined.
