(* ===== verification/RoutineBuild.v ===== *)
(** Building the audio of a routine item ([buildProduct] and the steps it takes,
    [services/go/internal/playlist/service.go]): rendering, products that are
    audio already, speech, products in segments, chimes, operator inserts, and
    the finished audio that stands in when speech fails.

    This is the implementation of the interface [Builder] the planner is written
    against.  The segments of a batch are prepared by parallel workers; here one
    after the other, in an order the oracle [Workers] chooses. *)

From S2P Require Import Prelude UnicodeTables GoStrings GoTime GoValue GoPath AlertPacket.
From S2P Require Import PlaylistModel World AlertRequest AudioRetention CapModel CapRegistry.
From S2P Require Import PlannerState AlertCommit Wav AudioFiles BridgeClient StationText AlertPrepare.
From S2P Require Import RoutinePlan.

#[local] Open Scope Z_scope.
#[local] Open Scope string_scope.
#[local] Open Scope haze_scope.

Definition cachedRoutineFallbackMaxAge : Z := 15 * Minute.
Definition productSegmentWorkerLimit : nat := 4.

(** [ctx_error] is the error of a context that has ended; [next_job n k] picks
    which of [k] waiting segments is prepared next. *)
Class Workers := {
  ctx_error : World -> option string;
  next_job : nat -> nat -> nat }.

(** ** Segments *)

Definition blank (s : string) : bool := TrimSpace s =? "".

Definition playableProductSegments (product : renderedProduct) : list renderedSegment :=
  List.filter (fun s => negb (blank (seg_AudioPath s) && blank (seg_Text s))) (prod_Segments product).
Definition productShouldUseSegments (segments : list renderedSegment) : bool :=
  match segments with
  | [] => false
  | [s] => negb (blank (seg_AudioPath s))
  | _ => true
  end.
Definition productContainsAudioSegment (product : renderedProduct) : bool :=
  existsb (fun s => negb (blank (seg_AudioPath s))) (prod_Segments product).

Definition productSegmentPause (segment : renderedSegment) : Z :=
  let kind := ToLower (TrimSpace (seg_Kind segment)) in
  if mem kind ["audio"; "opener"] then 400 * Millisecond
  else if kind =? "warning" then 350 * Millisecond
  else if kind =? "closure" then 300 * Millisecond
  else 240 * Millisecond.

(** The entries of the map in the order it was ranged over. *)
Definition metadataText (metadata : list (string * string)) (key : string) : string :=
  match List.find (fun entry => EqualFold (TrimSpace entry.1) key) metadata with
  | Some (_, value) => TrimSpace value
  | None => ""
  end.

(** [%02d] of an index. *)
Definition pad2 (n : nat) : string :=
  if (n <? 10)%nat then "0" +:+ Itoa (Z.of_nat n) else Itoa (Z.of_nat n).

(** ** Finished audio *)

(** The digits that end the name of a segment's scratch file. *)
Definition scratch_suffix (base marker : string) : bool :=
  match LastIndex base marker with
  | None => false
  | Some i =>
      let suffix := drop_bytes (i + String.length marker) base in
      (2 <=? String.length suffix)%nat && all_bytes is_digit suffix
  end.
Definition isProductSegmentScratchName (name : string) : bool :=
  let base := TrimSuffix (ToLower (TrimSpace name)) ".wav" in
  existsb (scratch_suffix base) ["-text-"; "-audio-"].

Definition cachedProductAudioEligible (pkgID : string) : bool :=
  negb (mem (ToLower (TrimSpace pkgID)) ["alerts"; "date_time"]).
Definition cacheFallbackMaxAge (source : string) : Z :=
  if EqualFold source "startup" then cachedStartupFallbackMaxAge else cachedRoutineFallbackMaxAge.

Section build.
Context `{JSON} `{Env} `{Tools} `{Zones} `{ZoneNames} `{Remote} `{Documents} `{Workers}.
Context (cfg : loadedConfig) (p : feedPlanner).

Definition output_wav (queueID : string) : string :=
  JoinPath [OutputDir cfg; safeID (feed_ID (feed p)); queueID +:+ ".wav"].

(** The item of a finished file. *)
Definition item_of (queueID kind pkgID title path : string) (info : audioInfo) (target : string)
    (start t : Z) (source : string) : playlistItem :=
  MkItem queueID (feed_ID (feed p)) kind pkgID title path (ai_DurationMS info)
    (FormatRFC3339Nano t) target (FormatRFC3339Nano start)
    (FormatRFC3339Nano (Add start (itemScheduleDuration cfg (ai_DurationMS info)))) "queued" source.
Definition scheduled (queueID kind pkgID title path : string) (info : audioInfo) (targetRaw : string)
    (timelineEnd t : Z) (source : string) : playlistItem :=
  let target := parseTime targetRaw in
  item_of queueID kind pkgID title path info (formatOptionalTime target)
    (predictedStart t timelineEnd target) t source.

(** The newest usable file whose name starts with [prefix]. *)
Definition cached_candidate (prefix name : string) : bool :=
  HasPrefix name prefix && HasSuffix (ToLower name) ".wav" && negb (isProductSegmentScratchName name).
Fixpoint newest_cached (dir prefix : string) (maxAge : Z) (entries : list (string * File))
    (best : option (string * Z)) : M World (option (string * Z)) :=
  match entries with
  | [] => ret best
  | (name, f) :: entries' =>
      if negb (cached_candidate prefix name) then newest_cached dir prefix maxAge entries' best
      else
        let! err := attempt in
        match err with
        | Some _ => newest_cached dir prefix maxAge entries' best
        | None =>
            let modified := f_modified f in
            let! old := (if (0 <? maxAge)%Z
                         then let! t := now in ret (maxAge <? Sub t modified)%Z else ret false) in
            let newer := match best with None => true | Some (_, b) => After modified b end in
            newest_cached dir prefix maxAge entries'
              (if negb old && newer then Some (JoinPath [dir; name], modified) else best)
        end
  end.
Definition latestCachedProductAudioPath (dir : string) (entries : list (string * File))
    (prefix : string) (maxAge : Z) : M World string :=
  let! best := newest_cached dir prefix maxAge entries None in
  ret (match best with Some (path, _) => path | None => "" end).

Definition cached_prefixes (pkgID language : string) : list string :=
  let current_ := safeID (productQueuePrefix pkgID language) +:+ "-" in
  let legacy := safeID pkgID +:+ "-" in
  current_ :: (if (normalizeLangKey language =? normalizeLangKey (feedLanguage (feed p))) &&
                  negb (legacy =? current_) then [legacy] else []).

Fixpoint first_cached (dir : string) (entries : list (string * File)) (maxAge : Z)
    (prefixes : list string) : M World (option (string * audioInfo)) :=
  match prefixes with
  | [] => ret None
  | prefix :: prefixes' =>
      let! path := latestCachedProductAudioPath dir entries prefix maxAge in
      if path =? "" then first_cached dir entries maxAge prefixes'
      else
        let! info := wavInfo path in
        match info with
        | Err _ => first_cached dir entries maxAge prefixes'
        | Ok info =>
            if negb (ai_SampleRate info =? cfgSampleRate (Playout cfg))%Z ||
               negb (ai_Channels info =? cfgChannels (Playout cfg))%Z
            then first_cached dir entries maxAge prefixes'
            else ret (Some (path, info))
        end
  end.
Definition latestCachedProductAudio (pkgID language : string) (maxAge : Z) :
    M World (option (string * audioInfo)) :=
  let dir := JoinPath [OutputDir cfg; safeID (feed_ID (feed p))] in
  let! err := attempt in
  match err with
  | Some _ => ret None
  | None =>
      let! entries := gets (fun w => ReadDir dir (files w)) in
      first_cached dir entries maxAge (cached_prefixes pkgID language)
  end.

Definition cachedProductItem (pkgID : string) (product : renderedProduct) (source targetRaw : string)
    (timelineEnd t maxAge : Z) : M World (option playlistItem) :=
  if negb (cachedProductAudioEligible pkgID) then ret None
  else
    let! found := latestCachedProductAudio pkgID (prod_Language product) maxAge in
    match found with
    | None => ret None
    | Some (path, info) =>
        let! id := queueID (productQueuePrefix pkgID (prod_Language product)) in
        ret (Some (scheduled id "product" pkgID (fallbackText (prod_Title product) pkgID) path info
          targetRaw timelineEnd t (fallbackText source "cached")))
    end.

Definition startupCachedProductItem (pkgID : string) (product : renderedProduct)
    (source targetRaw : string) (timelineEnd t : Z) : M World (option playlistItem) :=
  if negb (EqualFold source "startup") || EqualFold pkgID "date_time" then ret None
  else cachedProductItem pkgID product source targetRaw timelineEnd t cachedStartupFallbackMaxAge.

Definition synthesisTimeoutForBuild (pkgID source language : string) : M World Z :=
  if EqualFold source "startup" then ret (8 * Second)
  else
    let! found := (if cachedProductAudioEligible pkgID
                   then latestCachedProductAudio pkgID language cachedRoutineFallbackMaxAge else ret None) in
    ret (match found with Some _ => 12 * Second | None => 90 * Second end).

(** ** Rendering *)

Definition renderProductForBuild (queueID pkgID source language : string) (t : Z) :
    M World (result string renderedProduct) :=
  if (source =? "startup") && ((pkgID =? "station_id") || (pkgID =? "date_time"))
  then ret (staticProduct cfg (feed p) pkgID language t)
  else
    let! product := RenderProduct queueID (feed_ID (feed p)) pkgID language in
    ret match product with
        | Ok product => Ok product
        | Err e => match staticProduct cfg (feed p) pkgID language t with
                   | Ok fallback => Ok fallback
                   | Err _ => Err e
                   end
        end.

(** ** Products that are audio *)

Definition resolveRoutineAudioPath (rawPath : string) : result string string :=
  let rawPath := TrimSpace rawPath in
  if rawPath =? "" then Err "audio path is required"
  else
    let clean := Clean rawPath in
    if IsAbs clean then Ok clean
    else if (clean =? "..") || HasPrefix clean "../" || HasPrefix clean "/"
    then Err "audio path must stay inside the bundle directory"
    else Ok (JoinPath [BaseDir cfg; clean]).

(** A file that is WAV already is used as it is, another one is converted. *)
Definition wav_or_convert (input output : string) : M World (result string string) :=
  let! info := wavInfo input in
  match info with
  | Ok _ => ret (Ok input)
  | Err _ =>
      let! err := convertAudioToWAV input output (cfgSampleRate (Playout cfg)) (cfgChannels (Playout cfg)) in
      ret (match err with Some e => Err e | None => Ok output end)
  end.

Definition downloadRoutineAudio (sourceURL queueID outputPath : string) : M World (result string string) :=
  match url_Parse (TrimSpace sourceURL) with
  | Some parsed =>
      if (negb (url_Scheme parsed =? "http") && negb (url_Scheme parsed =? "https")) || (url_Host parsed =? "")
      then ret (Err "audio URL must be http or https")
      else
        let inputPath := JoinPath [Dir outputPath; queueID +:+ ".download"] in
        let! err := downloadFile (url_String parsed) inputPath (Z.shiftl 20 20) in
        match err with
        | Some e => ret (Err e)
        | None => wav_or_convert inputPath outputPath
        end
  | None => ret (Err "audio URL must be http or https")
  end.

Definition prepareRoutineAudio (rawPath outputPath : string) : M World (result string string) :=
  match resolveRoutineAudioPath rawPath with
  | Err e => ret (Err e)
  | Ok sourcePath => wav_or_convert sourcePath outputPath
  end.

(** [None]: the product is not audio. *)
Definition buildProductAudioItem (product : renderedProduct) (pkgID source targetRaw : string)
    (timelineEnd t : Z) (queueID : string) : M World (option (result string playlistItem)) :=
  if negb (EqualFold (metadataText (prod_Metadata product) "content_type") "audio") then ret None
  else
    let audioPath := metadataText (prod_Metadata product) "audio_path" in
    let audioURL := metadataText (prod_Metadata product) "audio_url" in
    if (audioPath =? "") && (audioURL =? "")
    then ret (Some (Err ("product " +:+ pkgID +:+ " declared audio content without audio_path or audio_url")))
    else
      let outputPath := output_wav queueID in
      let! path := (if negb (audioURL =? "") then downloadRoutineAudio audioURL queueID outputPath
                    else prepareRoutineAudio audioPath outputPath) in
      match path with
      | Err e => ret (Some (Err e))
      | Ok finalPath =>
          let! info := wavInfo finalPath in
          ret (Some (rmap (fun info => scheduled queueID "audio" pkgID
            (fallbackText (prod_Title product) pkgID) finalPath info targetRaw timelineEnd t source) info))
      end.

(** ** Segments of a product *)

Definition format_fits (info : audioInfo) (sampleRate channels : Z) : bool :=
  (ai_SampleRate info =? sampleRate)%Z && (ai_Channels info =? channels)%Z.

(** The samples of a file in the wanted format, converted when they must be. *)
Definition playbackWAVPCM (sourcePath normalizedPath : string) (sampleRate channels : Z) :
    M World (result string bytes) :=
  let! raw := ReadFile sourcePath in
  match wav_samples raw sampleRate channels with
  | Some pcm => ret (Ok pcm)
  | None =>
      let! err := convertAudioToWAV sourcePath normalizedPath sampleRate channels in
      match err with
      | Some e => ret (match raw with Err readErr => Err readErr | Ok _ => Err e end)
      | None =>
          let! raw := ReadFile normalizedPath in
          ret (let? raw := raw in
               let? (pcm, info) := wavPCM16 raw in
               if format_fits info sampleRate channels then Ok pcm
               else Err "normalized WAV format mismatch")
      end
  end.

Definition synthesizeSegmentPCM (queueID : string) (index : nat) (text : string) (product : renderedProduct)
    (source outputPath : string) (sampleRate channels : Z) : M World (result string bytes) :=
  let! timeout := synthesisTimeoutForBuild (prod_PackageID product) source (prod_Language product) in
  let! t := now in
  let! wav := Synthesize (Some (Add t timeout))
    (MkSynthJob (queueID +:+ "-seg-" +:+ pad2 index) queueID text (prod_ReaderID product)
       (fallbackText (prod_Language product) (feedLanguage (feed p))) (feedTimezone (feed p)) outputPath
       sampleRate channels "normal") in
  match wav with
  | Err e => ret (Err e)
  | Ok wavPath =>
      let! pcm := playbackWAVPCM wavPath (outputPath +:+ ".normalized.wav") sampleRate channels in
      (* deferred *)
      remove_file outputPath ;;; remove_file (outputPath +:+ ".normalized.wav") ;;;
      whenb (negb (Clean wavPath =? Clean outputPath)) (remove_file wavPath) ;;;
      ret pcm
  end.

Definition routineAudioSegmentPCM (rawPath scratchPath : string) (sampleRate channels : Z) :
    M World (result string bytes) :=
  match resolveRoutineAudioPath rawPath with
  | Err e => ret (Err e)
  | Ok sourcePath =>
      let! pcm := playbackWAVPCM sourcePath scratchPath sampleRate channels in
      (* deferred *)
      whenb (negb (Clean sourcePath =? Clean scratchPath)) (remove_file scratchPath) ;;;
      ret pcm
  end.

(** [preparedProductSegment] without its error. *)
Record preparedProductSegment := MkPreparedSegment { audioPCM : bytes; textPCM : bytes }.
Definition unprepared : preparedProductSegment := MkPreparedSegment [] [].
Definition first_error (failure : option string) (r : result string preparedProductSegment) : option string :=
  match failure with
  | Some e => Some e
  | None => match r with Err e => Some e | Ok _ => None end
  end.

Definition scratch_wav (outputDir queueID kind : string) (index : nat) : string :=
  JoinPath [outputDir; queueID +:+ "-" +:+ kind +:+ "-" +:+ pad2 index +:+ ".wav"].

Section segments.
Context (product : renderedProduct) (source outputDir queueID : string) (sampleRate channels : Z).

(** One job of a worker. *)
Definition prepare_segment (index : nat) (segment : renderedSegment) :
    M World (result string preparedProductSegment) :=
  let! done := gets ctx_error in
  match done with
  | Some e => ret (Err e)
  | None =>
      let audioPath := TrimSpace (seg_AudioPath segment) in
      let text := TrimSpace (seg_Text segment) in
      let! audio :=
        (if audioPath =? "" then ret (Ok [])
         else routineAudioSegmentPCM audioPath (scratch_wav outputDir queueID "audio" index) sampleRate channels) in
      match audio with
      | Err e => ret (Err e)
      | Ok audio =>
          let! speech :=
            (if text =? "" then ret (Ok [])
             else synthesizeSegmentPCM queueID index text product source
                    (scratch_wav outputDir queueID "text" index) sampleRate channels) in
          ret (rmap (MkPreparedSegment audio) speech)
      end
  end.

(** The jobs of a batch as they are done; a result goes to its own place
    ([indexed] pairs the place with the segment), the first error is kept. *)
Fixpoint prepare_jobs (fuel : nat) (indexOffset : nat) (jobs : list (nat * renderedSegment))
    (prepared : list preparedProductSegment) (failure : option string) :
    M World (list preparedProductSegment * option string) :=
  match fuel, jobs with
  | S fuel', first :: _ =>
      let! n := gets attempts in
      let i := Nat.modulo (next_job n (length jobs)) (length jobs) in
      let '(index, segment) := nth i jobs first in
      let! r := prepare_segment (indexOffset + index) segment in
      let prepared := match r with Ok s => <[index := s]> prepared | Err _ => prepared end in
      prepare_jobs fuel' indexOffset (take i jobs ++ drop (S i) jobs)%list prepared
        (first_error failure r)
  | _, _ => ret (prepared, failure)
  end.

Definition prepareProductSegments (segments : list renderedSegment) (indexOffset : nat) :
    M World (result string (list preparedProductSegment)) :=
  let! r := prepare_jobs (length segments) indexOffset (combine (seq 0 (length segments)) segments)
    (map (fun _ => unprepared) segments) None in
  ret (match r.2 with Some e => Err e | None => Ok r.1 end).

(** What is written for a segment: its audio, its speech and, but after the last
    one, a pause. *)
Definition segment_pieces (last : bool) (segment : renderedSegment) (prepared : preparedProductSegment) :
    list bytes :=
  (nonempty [audioPCM prepared; textPCM prepared] ++
   (if last then [] else [silencePCM sampleRate channels (productSegmentPause segment)]))%list.
Definition segment_audible (prepared : preparedProductSegment) : bool :=
  (0 <? length (nonempty [audioPCM prepared; textPCM prepared]))%nat.

Fixpoint batch_pieces (total index : nat) (segments : list renderedSegment)
    (prepared : list preparedProductSegment) : list bytes :=
  match segments, prepared with
  | segment :: segments', s :: prepared' =>
      (segment_pieces (total <=? S index)%nat segment s ++ batch_pieces total (S index) segments' prepared')%list
  | _, _ => []
  end.

Fixpoint append_pieces (l : list bytes) (stream : pcm16WAVStream) : M World (result string pcm16WAVStream) :=
  match l with
  | [] => ret (Ok stream)
  | pcm :: l' =>
      let! r := Append pcm stream in
      match r with
      | (Some e, _) => ret (Err e)
      | (None, stream) => append_pieces l' stream
      end
  end.

(** The batches, from segment [batchStart] on. *)
Fixpoint write_batches (fuel total batchStart : nat) (segments : list renderedSegment)
    (stream : pcm16WAVStream) (hasAudio : bool) : M World (result string (pcm16WAVStream * bool)) :=
  match fuel, segments with
  | S fuel', _ :: _ =>
      let batch := take productSegmentWorkerLimit segments in
      let! prepared := prepareProductSegments batch batchStart in
      match prepared with
      | Err e => ret (Err e)
      | Ok prepared =>
          let! r := append_pieces (batch_pieces total batchStart batch prepared) stream in
          match r with
          | Err e => ret (Err e)
          | Ok stream =>
              write_batches fuel' total (batchStart + length batch)
                (drop productSegmentWorkerLimit segments) stream (hasAudio || existsb segment_audible prepared)
          end
      end
  | _, _ => ret (Ok (stream, hasAudio))
  end.

(** The file of the segments, under its final name when all went well. *)
Definition write_segments (outputPath : string) (segments : list renderedSegment) (pkgID : string) :
    M World (result string audioInfo) :=
  let! stream := newPCM16WAVStream outputPath sampleRate channels in
  match stream with
  | Err e => ret (Err e)
  | Ok stream =>
      let! r := write_batches (length segments) (length segments) 0 segments stream false in
      let! r :=
        match r with
        | Err e => ret (Err e)
        | Ok (stream, hasAudio) =>
            if negb hasAudio then ret (Err ("product " +:+ pkgID +:+ " rendered no playable segments"))
            else
              let! err := Commit stream in
              match err.1 with
              | Some e => ret (Err e)
              | None => wavInfo outputPath
              end
        end in
      (* deferred *)
      Abandon stream ;;; ret r
  end.
End segments.

(** [None]: the product is not made of segments. *)
Definition buildSegmentedProductItem (product : renderedProduct) (pkgID source targetRaw : string)
    (timelineEnd t : Z) (queueID : string) : M World (option (result string playlistItem)) :=
  let segments := playableProductSegments product in
  if negb (productShouldUseSegments segments) then ret None
  else
    let outputPath := output_wav queueID in
    let sampleRate := or_default (cfgSampleRate (Playout cfg)) 48000 in
    let channels := or_default (cfgChannels (Playout cfg)) 1 in
    let! info := write_segments product source (Dir outputPath) queueID sampleRate channels outputPath
      segments pkgID in
    ret (Some (rmap (fun info => scheduled queueID "product" pkgID (fallbackText (prod_Title product) pkgID)
      outputPath info targetRaw timelineEnd t source) info)).

(** ** Products *)

(** What a build returns: the item or an error, and what it notes as the
    planner's last error. *)
Definition built : Type := result string playlistItem * option string.

(** Finished audio in place of what could not be made. *)
Definition or_cached (pkgID : string) (product : renderedProduct) (source targetRaw : string)
    (timelineEnd t : Z) (reason err : string) : M World built :=
  let! cached := cachedProductItem pkgID product source targetRaw timelineEnd t (cacheFallbackMaxAge source) in
  ret (match cached with
       | Some item => (Ok item, Some ("using cached " +:+ pkgID +:+ " audio after " +:+ reason +:+ ": " +:+ err))
       | None => (Err err, None)
       end).

(** A product read as one text. *)
Definition build_spoken (product : renderedProduct) (pkgID source targetRaw : string) (timelineEnd t : Z)
    (queueID : string) : M World built :=
  if blank (prod_Text product) then ret (Err ("product " +:+ pkgID +:+ " rendered empty text"), None)
  else
    let! cached := startupCachedProductItem pkgID product source targetRaw timelineEnd t in
    match cached with
    | Some item => ret (Ok item, None)
    | None =>
        let! timeout := synthesisTimeoutForBuild pkgID source (prod_Language product) in
        let! started := now in
        let! wav := Synthesize (Some (Add started timeout))
          (MkSynthJob queueID "" (prod_Text product) (prod_ReaderID product)
             (fallbackText (prod_Language product) (feedLanguage (feed p))) (feedTimezone (feed p))
             (output_wav queueID) (cfgSampleRate (Playout cfg)) (cfgChannels (Playout cfg)) "normal") in
        match wav with
        | Err e => or_cached pkgID product source targetRaw timelineEnd t "synthesis failed" e
        | Ok wavPath =>
            let! info := wavInfo wavPath in
            match info with
            | Err e => or_cached pkgID product source targetRaw timelineEnd t
                "synthesized WAV could not be read" e
            | Ok info =>
                ret (Ok (scheduled queueID "product" pkgID (fallbackText (prod_Title product) pkgID) wavPath
                  info targetRaw timelineEnd t source), None)
            end
        end
    end.

Definition build_product (language pkgID source targetRaw : string) (timelineEnd t : Z) : M World built :=
  let! id := queueID (productQueuePrefix pkgID language) in
  let! product := renderProductForBuild id pkgID source language t in
  match product with
  | Err e => ret (Err e, None)
  | Ok product =>
      let! audio := buildProductAudioItem product pkgID source targetRaw timelineEnd t id in
      match audio with
      | Some r => ret (r, None)
      | None =>
          let! cached := (if productContainsAudioSegment product then ret None
                          else startupCachedProductItem pkgID product source targetRaw timelineEnd t) in
          match cached with
          | Some item => ret (Ok item, None)
          | None =>
              let! segmented := buildSegmentedProductItem product pkgID source targetRaw timelineEnd t id in
              match segmented with
              | Some (Ok item) => ret (Ok item, None)
              | Some (Err e) =>
                  or_cached pkgID product source targetRaw timelineEnd t "segmented synthesis failed" e
              | None => build_spoken product pkgID source targetRaw timelineEnd t id
              end
          end
      end
  end.

(** ** Chimes and operator inserts *)

Definition build_chime (event : fixedEvent) (timelineEnd t : Z) : M World (result string playlistItem) :=
  let source := JoinPath [BaseDir cfg; "audio"; "8-step_chime.wav"] in
  let! info := wavInfo source in
  match info with
  | Err e => ret (Err e)
  | Ok info =>
      let! id := queueID "chime" in
      ret (Ok (item_of id "audio" "chime" "Chime" source info (FormatRFC3339Nano (Target event))
        (predictedStart t timelineEnd (Target event)) t "fixed"))
  end.

Definition build_text (title text : string) (t : Z) : M World (result string playlistItem) :=
  if blank text then ret (Err "text is required")
  else
    let! id := queueID "operator_text" in
    let! wav := Synthesize None
      (MkSynthJob id "" text "" (feedLanguage (feed p)) (feedTimezone (feed p)) (output_wav id)
         (cfgSampleRate (Playout cfg)) (cfgChannels (Playout cfg)) "normal") in
    match wav with
    | Err e => ret (Err e)
    | Ok wavPath =>
        let! info := wavInfo wavPath in
        ret (rmap (fun info => item_of id "tts" "" (fallbackText title "Operator Text") wavPath info ""
          (predictedStart t (timelineEnd p t) zeroTime) t "operator") info)
    end.

Definition build_audio (title path : string) (t : Z) : M World (result string playlistItem) :=
  if blank path then ret (Err "audio path is required")
  else
    let path := if IsAbs path then path else JoinPath [BaseDir cfg; path] in
    let! info := wavInfo path in
    match info with
    | Err e => ret (Err e)
    | Ok info =>
        let! id := queueID "operator_audio" in
        ret (Ok (item_of id "audio" "" (fallbackText title (Base path)) path info ""
          (predictedStart t (timelineEnd p t) zeroTime) t "operator"))
    end.
End build.

(** ** The planner's builder *)

Section builder.
Context `{JSON} `{Env} `{Tools} `{Zones} `{ZoneNames} `{Remote} `{Documents} `{Workers} (cfg : loadedConfig).

#[export] Instance routine_Builder : Builder | 500 := {|
  buildProduct pkgID source targetRaw timelineEnd t :=
    let! language := productLanguageForBuild source in
    let! p := gets fst in
    let! r := io (build_product cfg p language pkgID source targetRaw timelineEnd t) in
    match r.2 with Some note => modp (set_lastError note) | None => ret tt end ;;;
    ret r.1;
  buildChime event timelineEnd t := let! p := gets fst in io (build_chime cfg p event timelineEnd t);
  buildTextItem title text t := let! p := gets fst in io (build_text cfg p title text t);
  buildAudioItem title path t := let! p := gets fst in io (build_audio cfg p title path t);
  hasRoutineAlerts t := let! p := gets fst in io (hasRoutineAlerts_of (feed_ID (feed p)) t);
  ctx_done w := match ctx_error w with Some _ => true | None => false end |}.
End builder.
