(* ===== verification/RoutineBuildSafety.v ===== *)
(** What building a routine item guarantees ([RoutineBuild]): the item plays, the
    disk changes in its own files only, segments are joined in their order
    whatever order their workers end in, and the newest finished audio stands in
    for a failure. *)

From S2P Require Import Prelude UnicodeTables GoStrings GoTime GoValue GoPath AlertPacket.
From S2P Require Import PlaylistModel World AlertRequest AudioRetention CapModel CapRegistry.
From S2P Require Import PlannerState AlertCommit Wav AudioFiles BridgeClient StationText AlertPrepare.
From S2P Require Import RoutinePlan RoutineBuild.

#[local] Open Scope Z_scope.
#[local] Open Scope string_scope.
#[local] Open Scope haze_scope.

(** ** Operations by what they return and leave *)

Definition yields {A} (Q : A -> World -> Prop) (m : M World A) : Prop := forall w, Q (m w).1 (m w).2.

Lemma yields_ret {A} (Q : A -> World -> Prop) a : (forall w, Q a w) -> yields Q (ret a).
Proof. intros Hq w. apply Hq. Qed.
Lemma yields_bind_with {A B} (P : A -> World -> Prop) (Q : B -> World -> Prop) (m : M World A)
    (f : A -> M World B) :
  yields P m -> (forall a w, P a w -> Q (f a w).1 (f a w).2) -> yields Q (mbind f m).
Proof. intros Hm Hf w. rewrite mbind_eq. apply Hf, Hm. Qed.
Lemma yields_bind {A B} (Q : B -> World -> Prop) (m : M World A) (f : A -> M World B) :
  (forall a, yields Q (f a)) -> yields Q (mbind f m).
Proof. intros Hf w. rewrite mbind_eq. apply Hf. Qed.

Section playable.
Context `{JSON} `{Env} `{Tools} `{Zones} `{ZoneNames} `{Remote} `{Documents} `{Workers}.

(** The file at [path] is read as WAV with this information. *)
Definition reads_as (path : string) (info : audioInfo) (w : World) : Prop :=
  exists b, content_at path w = Some b /\ wav_info b = Ok info.

Lemma reads_as_only {A} P (m : M World A) path info w : only P m -> ~ P path ->
  reads_as path info w -> reads_as path info (m w).2.
Proof. intros Hm Hp (b & Hb & Hi). exists b. split; [|done]. by rewrite (content_only P). Qed.
Lemma reads_as_same {A} (m : M World A) path info w : (forall P, only P m) ->
  reads_as path info w -> reads_as path info (m w).2.
Proof. intros Hm. apply (reads_as_only (fun _ => False)); [apply Hm|tauto]. Qed.

Definition info_reads (path : string) (r : result string audioInfo) (w : World) : Prop :=
  match r with Ok info => reads_as path info w | Err _ => True end.

Lemma wavInfo_reads path : yields (info_reads path) (wavInfo path).
Proof.
  intros w. destruct ((wavInfo path w).1) as [info|] eqn:E; [|done]. unfold info_reads, reads_as.
  assert (Es : content_at path (wavInfo path w).2 = content_at path w)
    by (apply (content_only (fun _ => False)); [apply only_wavInfo|tauto]).
  rewrite Es. unfold wavInfo in E. rewrite mbind_eq in E. cbn [ret fst] in E.
  destruct ((ReadFile path w).1) as [b|] eqn:Eb; [|done]. exists b. split; [|exact E].
  by apply ReadFile_ok.
Qed.

Context (cfg : loadedConfig) (p : feedPlanner).

(** The item is of this feed, waits, is read as WAV with its duration, and has a
    slot that begins neither before [t] nor before [e]. *)
Record item_ready (t e : Z) (item : playlistItem) (w : World) : Prop := {
  ready_feed : item_FeedID item = feed_ID (feed p);
  ready_status : Status item = "queued";
  ready_plays : exists info, reads_as (AudioPath item) info w /\ DurationMS item = ai_DurationMS info;
  ready_slot : exists start, t <= start /\ e <= start /\
    PredictedStartAt item = FormatRFC3339Nano start /\
    PredictedFinishAt item = FormatRFC3339Nano (Add start (itemScheduleDuration cfg (DurationMS item))) }.

Definition ready_result (t e : Z) (r : result string playlistItem) (w : World) : Prop :=
  match r with Ok item => item_ready t e item w | Err _ => True end.
Definition ready_option (t e : Z) (r : option playlistItem) (w : World) : Prop :=
  match r with Some item => item_ready t e item w | None => True end.

Definition built_ready (t e : Z) (r : built) (w : World) : Prop := ready_result t e r.1 w.

Lemma predictedStart_after t e target : t <= predictedStart t e target /\ e <= predictedStart t e target.
Proof.
  unfold predictedStart, Before. destruct (Z.ltb_spec e t), (negb _ && _) eqn:E; bool_hyps; lia.
Qed.

Lemma item_of_ready q kind pkg title path info target e' t e src w : reads_as path info w ->
  t <= e' -> e <= e' -> item_ready t e (item_of cfg p q kind pkg title path info target e' t src) w.
Proof. intros Hr Ht He. split; [done|done| |]; [by exists info|by exists e']. Qed.
Lemma scheduled_ready q kind pkg title path info target e t src w : reads_as path info w ->
  item_ready t e (scheduled cfg p q kind pkg title path info target e t src) w.
Proof.
  intros Hr. destruct (predictedStart_after t e (parseTime target)). by apply item_of_ready.
Qed.

(** [wavInfo] and then an item made of the file. *)
Lemma wavInfo_item t e path (make : audioInfo -> playlistItem) :
  (forall info w, reads_as path info w -> item_ready t e (make info) w) ->
  yields (ready_result t e) (let! info := wavInfo path in ret (rmap make info)).
Proof.
  intros Hm. eapply yields_bind_with; [apply wavInfo_reads|]. intros [info|err] w Hr; [|done].
  by apply Hm.
Qed.

Definition found_reads (r : option (string * audioInfo)) (w : World) : Prop :=
  match r with Some (path, info) => reads_as path info w | None => True end.

Lemma first_cached_reads dir entries maxAge prefixes :
  yields found_reads (first_cached cfg dir entries maxAge prefixes).
Proof.
  induction prefixes as [|prefix prefixes IH]; [done|]. cbn [first_cached]. apply yields_bind. intros path.
  destruct (_ =? _); [exact IH|]. eapply yields_bind_with; [apply wavInfo_reads|].
  intros [info|err] w Hr; [|apply IH]. destruct (_ || _); [apply IH|exact Hr].
Qed.
Lemma latestCached_reads pkg language maxAge :
  yields found_reads (latestCachedProductAudio cfg p pkg language maxAge).
Proof.
  unfold latestCachedProductAudio. apply yields_bind. intros [err|]; [done|]. apply yields_bind. intros entries.
  apply first_cached_reads.
Qed.

Lemma cached_ready pkg product source target e t maxAge :
  yields (ready_option t e) (cachedProductItem cfg p pkg product source target e t maxAge).
Proof.
  unfold cachedProductItem. destruct (negb _); [done|].
  eapply yields_bind_with; [apply latestCached_reads|]. intros [[path info]|] w Hr; [|done].
  rewrite mbind_eq. cbn [ret fst snd]. apply scheduled_ready. apply reads_as_same; [|exact Hr].
  intros P. apply only_queueID.
Qed.
Lemma startup_ready pkg product source target e t :
  yields (ready_option t e) (startupCachedProductItem cfg p pkg product source target e t).
Proof. unfold startupCachedProductItem. destruct (_ || _); [done|apply cached_ready]. Qed.
Lemma or_cached_ready pkg product source target e t reason err :
  yields (built_ready t e) (or_cached cfg p pkg product source target e t reason err).
Proof.
  unfold or_cached. eapply yields_bind_with; [apply cached_ready|]. by intros [item|] w Hr.
Qed.

Definition ready_when (t e : Z) (r : option (result string playlistItem)) (w : World) : Prop :=
  match r with Some r => ready_result t e r w | None => True end.

Lemma audio_ready product pkg source target e t q :
  yields (ready_when t e) (buildProductAudioItem cfg p product pkg source target e t q).
Proof.
  unfold buildProductAudioItem. destruct (negb _); [done|]. cbv zeta. destruct (_ && _); [done|].
  apply yields_bind. intros [path|err]; [|done].
  eapply yields_bind_with; [apply wavInfo_reads|]. intros [info|err] w Hr; [|done].
  by apply scheduled_ready.
Qed.

Lemma write_segments_reads product source dir q rate ch out segments pkg :
  yields (info_reads out) (write_segments cfg p product source dir q rate ch out segments pkg).
Proof.
  unfold write_segments. eapply (yields_bind_with (fun r _ => match r with Ok s => named out s | Err _ => True end)).
  { intros w. apply newPCM16WAVStream_named. }
  intros [stream|err] w0 Hn; [|done]. destruct Hn as [_ Htmp]. revert w0. apply yields_bind. intros r.
  eapply yields_bind_with.
  { instantiate (1 := info_reads out).
    destruct r as [[s hasAudio]|err]; [|done]. destruct (negb hasAudio); [done|].
    apply yields_bind. intros [[err|] s']; [done|apply wavInfo_reads]. }
  intros [info|err] w Hr; rewrite mbind_eq; [|done]. cbn [ret fst snd].
  apply (reads_as_only (eq (out +:+ ".tmp"))); [|apply not_eq_sym, app_ne; done|done].
  unfold Abandon. rewrite Htmp. eauto with files.
Qed.

Lemma segmented_ready product pkg source target e t q :
  yields (ready_when t e) (buildSegmentedProductItem cfg p product pkg source target e t q).
Proof.
  unfold buildSegmentedProductItem. cbv zeta. destruct (negb _); [done|].
  eapply yields_bind_with; [apply write_segments_reads|]. intros [info|err] w Hr; [|done].
  by apply scheduled_ready.
Qed.

Lemma spoken_ready product pkg source target e t q :
  yields (built_ready t e) (build_spoken cfg p product pkg source target e t q).
Proof.
  unfold build_spoken. destruct (blank _); [done|].
  eapply yields_bind_with; [apply startup_ready|]. intros [item|] w Hr; [exact Hr|]. revert w Hr.
  change (forall w, True -> ?G w) with (forall w, True -> G w). intros w _. revert w.
  apply yields_bind. intros timeout. apply yields_bind. intros started. apply yields_bind.
  intros [wavPath|err]; [|apply or_cached_ready].
  eapply yields_bind_with; [apply wavInfo_reads|]. intros [info|err] w Hr; [by apply scheduled_ready|].
  apply or_cached_ready.
Qed.

Lemma build_product_ready language pkg source target e t :
  yields (built_ready t e) (build_product cfg p language pkg source target e t).
Proof.
  unfold build_product. apply yields_bind. intros id. apply yields_bind. intros [product|err]; [|done].
  eapply yields_bind_with; [apply audio_ready|]. intros [r|] w Hr; [exact Hr|]. clear Hr. revert w.
  eapply (yields_bind_with (ready_option t e)); [destruct (productContainsAudioSegment product); [done|apply startup_ready]|].
  intros [item|] w Hr; [exact Hr|]. clear Hr. revert w.
  eapply yields_bind_with; [apply segmented_ready|].
  intros [[item|err]|] w Hr; [exact Hr|apply or_cached_ready|apply spoken_ready].
Qed.

Lemma build_chime_ready event e t : yields (ready_result t e) (build_chime cfg p event e t).
Proof.
  unfold build_chime. eapply yields_bind_with; [apply wavInfo_reads|]. intros [info|err] w Hr; [|done].
  rewrite mbind_eq. cbn [ret fst snd]. destruct (predictedStart_after t e (Target event)).
  apply item_of_ready; [|done|done]. apply reads_as_same; [|exact Hr]. intros P. apply only_queueID.
Qed.
End playable.

(** ** Which files change *)

(** The files of the segments of product [q]: scratch files, what they are
    converted to, and what speech synthesis answers with. *)
Inductive segment_file `{Remote} (dir q : string) : string -> Prop :=
| segment_scratch kind i k : In kind ["audio"; "text"] -> at_path (scratch_wav dir q kind i) k ->
    segment_file dir q k
| segment_normalized i k : at_path (scratch_wav dir q "text" i +:+ ".normalized.wav") k -> segment_file dir q k
| segment_answer k : answered k -> segment_file dir q k.

(** The files of product [q]: its output and its download, and those of its
    segments. *)
Inductive product_file `{Remote} (cfg : loadedConfig) (p : feedPlanner) (q : string) : string -> Prop :=
| product_output k : at_path (output_wav cfg p q) k -> product_file cfg p q k
| product_download k : at_path (JoinPath [Dir (output_wav cfg p q); q +:+ ".download"]) k -> product_file cfg p q k
| product_segment k : segment_file (Dir (output_wav cfg p q)) q k -> product_file cfg p q k.

Abbreviation asks := (sent_type request_types).

Section confined.
Context `{JSON} `{Env} `{Tools} `{Zones} `{ZoneNames} `{Remote} `{Documents} `{Workers}.
Context (cfg : loadedConfig) (p : feedPlanner).

Lemma only_newest_cached P dir prefix maxAge entries best : only P (newest_cached dir prefix maxAge entries best).
Proof.
  revert best. induction entries as [|[name f] entries IH]; intros best; [done|]. cbn [newest_cached].
  destruct (negb _); [apply IH|]. apply only_bind; [done|]. intros [err|]; [apply IH|].
  apply only_bind; [destruct (0 <? maxAge)%Z; done|]. intros old. apply IH.
Qed.
Lemma only_first_cached P dir entries maxAge prefixes : only P (first_cached cfg dir entries maxAge prefixes).
Proof.
  induction prefixes as [|prefix prefixes IH]; [done|]. cbn [first_cached].
  apply only_bind; [apply only_bind; [apply only_newest_cached|done]|]. intros path.
  destruct (_ =? _); [done|]. apply only_bind; [apply only_wavInfo|]. intros [info|err]; [|done].
  by destruct (_ || _).
Qed.
Lemma only_latestCached P pkg language maxAge : only P (latestCachedProductAudio cfg p pkg language maxAge).
Proof.
  unfold latestCachedProductAudio. apply only_bind; [done|]. intros [err|]; [done|].
  apply only_bind; [done|]. intros entries. apply only_first_cached.
Qed.
Lemma only_cachedItem P pkg product source target e t maxAge :
  only P (cachedProductItem cfg p pkg product source target e t maxAge).
Proof.
  unfold cachedProductItem. destruct (negb _); [done|]. apply only_bind; [apply only_latestCached|].
  intros [[path info]|]; [|done]. apply only_bind; [apply only_queueID|done].
Qed.
Lemma only_startup P pkg product source target e t :
  only P (startupCachedProductItem cfg p pkg product source target e t).
Proof. unfold startupCachedProductItem. destruct (_ || _); [done|apply only_cachedItem]. Qed.
Lemma only_or_cached P pkg product source target e t reason err :
  only P (or_cached cfg p pkg product source target e t reason err).
Proof. apply only_bind; [apply only_cachedItem|done]. Qed.
Lemma only_timeout P pkg source language : only P (synthesisTimeoutForBuild cfg p pkg source language).
Proof.
  unfold synthesisTimeoutForBuild. destruct (EqualFold _ _); [done|]. apply only_bind; [|done].
  destruct (cachedProductAudioEligible pkg); [apply only_latestCached|done].
Qed.

Lemma only_wav_or_convert input output : only (at_path output) (wav_or_convert cfg input output).
Proof. unfold wav_or_convert, convertAudioToWAV. only_walk. Qed.
Lemma only_playback source normalized rate ch : only (at_path normalized) (playbackWAVPCM source normalized rate ch).
Proof. unfold playbackWAVPCM, convertAudioToWAV. only_walk. Qed.

Section of_segments.
Context (product : renderedProduct) (source dir q : string) (rate ch : Z).

Lemma within_synthesizeSegment i text : within (segment_file dir q) asks
  (synthesizeSegmentPCM cfg p q i text product source (scratch_wav dir q "text" i) rate ch).
Proof.
  assert (Hs : segment_file dir q (scratch_wav dir q "text" i)).
  { apply (segment_scratch _ _ "text" i); [by right; left|by left]. }
  assert (Hn : segment_file dir q (scratch_wav dir q "text" i +:+ ".normalized.wav"))
    by (apply (segment_normalized _ _ i); by left).
  unfold synthesizeSegmentPCM. apply within_bind; [apply within_only, only_timeout|]. intros timeout.
  apply within_bind; [by apply within_only|]. intros t.
  apply (within_bind_with (fun r => match r with Ok k => answered k | Err _ => True end)).
  - apply within_Synthesize; [by right; left|exact Hs].
  - apply Synthesize_answers.
  - intros [wav|err] Ha; [|by apply within_only]. apply within_only. apply only_bind.
    { eapply only_mono; [|apply only_playback]. intros k Hk. by apply (segment_normalized _ _ i). }
    intros pcm. apply segment_answer with (dir := dir) (q := q) in Ha. only_walk.
    destruct (negb _); cbn [whenb]; [|done]. by apply only_remove.
Qed.

Lemma only_routineAudioSegment raw i : only (segment_file dir q)
  (routineAudioSegmentPCM cfg raw (scratch_wav dir q "audio" i) rate ch).
Proof.
  assert (Hs : forall k, at_path (scratch_wav dir q "audio" i) k -> segment_file dir q k).
  { intros k. apply (segment_scratch _ _ "audio" i). by left. }
  unfold routineAudioSegmentPCM. destruct (resolveRoutineAudioPath cfg raw) as [path|]; [|done].
  apply only_bind; [eapply only_mono; [exact Hs|apply only_playback]|]. intros pcm.
  apply only_bind; [|done]. destruct (negb _); cbn [whenb]; [|done]. apply only_remove, Hs. by left.
Qed.

Lemma within_prepare_segment i segment : within (segment_file dir q) asks
  (prepare_segment cfg p product source dir q rate ch i segment).
Proof.
  unfold prepare_segment. apply within_bind; [by apply within_only|]. intros [err|]; [by apply within_only|].
  cbv zeta. apply within_bind.
  { apply within_only. destruct (_ =? _); [done|apply only_routineAudioSegment]. }
  intros [audio|err]; [|by apply within_only]. apply within_bind; [|by intros; apply within_only].
  destruct (_ =? _); [by apply within_only|apply within_synthesizeSegment].
Qed.

Lemma within_prepare_jobs fuel offset jobs prepared failure : within (segment_file dir q) asks
  (prepare_jobs cfg p product source dir q rate ch fuel offset jobs prepared failure).
Proof.
  revert jobs prepared failure. induction fuel as [|fuel IH]; intros jobs prepared failure;
    [by apply within_only|]. cbn [prepare_jobs]. destruct jobs as [|first jobs]; [by apply within_only|].
  apply within_bind; [by apply within_only|]. intros n. cbv zeta. destruct (nth _ _ _) as [i segment].
  apply within_bind; [apply within_prepare_segment|]. intros r. apply IH.
Qed.

Lemma append_pieces_named path l s : named path s ->
  returns (fun r => match r with Ok s' => named path s' | Err _ => True end) (append_pieces l s).
Proof.
  revert s. induction l as [|pcm l IH]; intros s Hs; [by apply returns_ret|]. cbn [append_pieces].
  eapply returns_bind_with; [by apply (Append_named path)|]. intros [[err|] s'] Hs'; [done|by apply IH].
Qed.
Lemma only_append_pieces path l s : named path s -> only (at_path path) (append_pieces l s).
Proof.
  revert s. induction l as [|pcm l IH]; intros s Hs; [done|]. cbn [append_pieces]. apply only_bind_at.
  { apply only_Append. destruct Hs as [_ ->]. by right. }
  intros w. pose proof (Append_named path pcm s Hs w) as Hn. cbn beta in Hn.
  destruct ((Append pcm s w).1) as [[err|] s']; [done|by apply IH].
Qed.

Lemma within_write_batches (P : string -> Prop) path fuel total start segments s hasAudio :
  (forall k, segment_file dir q k -> P k) -> (forall k, at_path path k -> P k) -> named path s ->
  within P asks (write_batches cfg p product source dir q rate ch fuel total start segments s hasAudio).
Proof.
  intros Hseg Hpath. revert start segments s hasAudio. induction fuel as [|fuel IH];
    intros start segments s hasAudio Hs; [by apply within_only|]. cbn [write_batches].
  destruct segments as [|first segments]; [by apply within_only|]. cbv zeta. apply within_bind.
  { eapply within_mono; [exact Hseg|]. apply within_bind; [apply within_prepare_jobs|].
    intros r. by apply within_only. }
  intros [prepared|err]; [|by apply within_only].
  apply (within_bind_with (fun r => match r with Ok s' => named path s' | Err _ => True end)).
  - apply within_only. eapply only_mono; [exact Hpath|by apply only_append_pieces].
  - by apply append_pieces_named.
  - intros [s'|err] Hn; [by apply IH|by apply within_only].
Qed.
Lemma write_batches_named path fuel total start segments s hasAudio : named path s ->
  returns (fun r => match r with Ok r => named path r.1 | Err _ => True end)
    (write_batches cfg p product source dir q rate ch fuel total start segments s hasAudio).
Proof.
  revert start segments s hasAudio. induction fuel as [|fuel IH]; intros start segments s hasAudio Hs;
    [by apply returns_ret|]. cbn [write_batches]. destruct segments as [|first segments]; [by apply returns_ret|].
  cbv zeta. apply returns_bind. intros [prepared|err]; [|done].
  eapply returns_bind_with; [by apply (append_pieces_named path)|]. intros [s'|err] Hn; [by apply IH|done].
Qed.

Lemma within_write_segments (P : string -> Prop) path segments pkg :
  (forall k, segment_file dir q k -> P k) -> (forall k, at_path path k -> P k) ->
  within P asks (write_segments cfg p product source dir q rate ch path segments pkg).
Proof.
  intros Hseg Hpath. unfold write_segments.
  apply (within_bind_with (fun r => match r with Ok s => named path s | Err _ => True end)).
  - apply within_only. eapply only_mono; [|apply only_newPCM16WAVStream]. intros k <-. apply Hpath. by right.
  - apply newPCM16WAVStream_named.
  - intros [s|err] Hs; [|by apply within_only].
    assert (Htmp : forall s', named path s' -> P (ws_tmp s')) by (intros s' [_ ->]; apply Hpath; by right).
    eapply within_bind_with; [by apply (within_write_batches P path)|by apply (write_batches_named path)|].
    intros r Hr. apply within_only. apply only_bind; [|intros r'; apply only_bind; [|done]].
    + destruct r as [[s' hasAudio]|err]; [|done]. cbn [fst] in Hr. destruct (negb hasAudio); [done|].
      apply only_bind; [apply only_Commit; [by apply Htmp|destruct Hr as [-> _]; apply Hpath; by left]|].
      intros [[err|] s'']; [done|apply only_wavInfo].
    + apply only_remove. by apply Htmp.
Qed.
End of_segments.

Lemma within_renderProduct P q pkg source language t :
  within P asks (renderProductForBuild cfg p q pkg source language t).
Proof.
  unfold renderProductForBuild. destruct (_ && _); [by apply within_only|].
  apply within_bind; [apply within_RenderProduct; by left|]. intros r. by apply within_only.
Qed.

Lemma only_audioItem product pkg source target e t q :
  only (product_file cfg p q) (buildProductAudioItem cfg p product pkg source target e t q).
Proof.
  unfold buildProductAudioItem. destruct (negb _); [done|]. cbv zeta. destruct (_ && _); [done|].
  assert (Ho : forall input, only (product_file cfg p q) (wav_or_convert cfg input (output_wav cfg p q))).
  { intros input. eapply only_mono; [|apply only_wav_or_convert]. apply product_output. }
  apply only_bind.
  - destruct (negb _).
    + unfold downloadRoutineAudio. destruct (url_Parse _) as [parsed|]; [|done]. destruct (_ || _); [done|].
      cbv zeta. apply only_bind; [eapply only_mono; [|apply only_downloadFile]; apply product_download|].
      intros [err|]; [done|apply Ho].
    + unfold prepareRoutineAudio. destruct (resolveRoutineAudioPath _ _); [apply Ho|done].
  - intros [path|err]; [|done]. apply only_bind; [apply only_wavInfo|done].
Qed.

Lemma within_spoken product pkg source target e t q :
  within (product_file cfg p q) asks (build_spoken cfg p product pkg source target e t q).
Proof.
  unfold build_spoken. destruct (blank _); [by apply within_only|].
  apply within_bind; [apply within_only, only_startup|]. intros [item|]; [by apply within_only|].
  apply within_bind; [apply within_only, only_timeout|]. intros timeout.
  apply within_bind; [by apply within_only|]. intros started.
  apply within_bind.
  { apply within_Synthesize; [by right; left|]. apply product_output. by left. }
  intros [wav|err]; apply within_only; [|apply only_or_cached].
  apply only_bind; [apply only_wavInfo|]. intros [info|err]; [done|apply only_or_cached].
Qed.

(** The work on a product after its id was chosen. *)
Lemma within_build_product language pkg source target e t w :
  exists q, safe_id q /\
    (forall k, ~ product_file cfg p q k ->
      files (build_product cfg p language pkg source target e t w).2 !! k = files w !! k) /\
    exists sent, published (build_product cfg p language pkg source target e t w).2 = (published w ++ sent)%list /\
      Forall asks sent.
Proof.
  unfold build_product. rewrite mbind_eq.
  assert (Hq : safe_id (queueID (productQueuePrefix pkg language) w).1).
  { unfold queueID. destruct (random_hex (reads w)); cbn; by eexists. }
  destruct (only_queueID (fun _ => False) (productQueuePrefix pkg language) w) as [Hf Hp].
  destruct (queueID _ w) as [q w1]. cbn [fst snd] in *. exists q. split; [done|].
  match goal with |- context [?m w1] => assert (Hm : within (product_file cfg p q) asks m) end.
  { apply within_bind; [apply within_renderProduct|]. intros [product|err]; [|by apply within_only].
    apply within_bind; [apply within_only, only_audioItem|]. intros [r|]; [by apply within_only|].
    apply within_bind; [apply within_only; destruct (productContainsAudioSegment product); [done|apply only_startup]|].
    intros [item|]; [by apply within_only|]. apply within_bind.
    { unfold buildSegmentedProductItem. cbv zeta. destruct (negb _); [by apply within_only|].
      apply within_bind; [|by intros; apply within_only].
      apply within_write_segments; [apply product_segment|apply product_output]. }
    intros [[item|err]|]; [by apply within_only|apply within_only, only_or_cached|apply within_spoken]. }
  destruct (Hm w1) as [Hfm Hpm]. rewrite Hp in Hpm. split; [|exact Hpm].
  intros k Hk. rewrite Hfm by done. apply Hf. tauto.
Qed.
End confined.

(** ** Segments in their order *)

Section joined.
Context `{JSON} `{Env} `{Tools} `{Zones} `{ZoneNames} `{Remote} `{Documents} `{Workers}.
Context (cfg : loadedConfig) (p : feedPlanner).
Context (product : renderedProduct) (source dir q : string) (rate ch : Z).

(** A worker made [s] of the segment at this place. *)
Definition made (index : nat) (segment : renderedSegment) (s : preparedProductSegment) : Prop :=
  exists w, (prepare_segment cfg p product source dir q rate ch index segment w).1 = Ok s.
(** Of each segment from place [start] on. *)
Definition all_made (start : nat) (segments : list renderedSegment) (prepared : list preparedProductSegment) : Prop :=
  length prepared = length segments /\
  forall i segment, segments !! i = Some segment ->
    exists s, prepared !! i = Some s /\ made (start + i) segment s.

Lemma all_made_app start l1 l2 p1 p2 : all_made start l1 p1 -> all_made (start + length l1) l2 p2 ->
  all_made start (l1 ++ l2) (p1 ++ p2).
Proof.
  intros [E1 M1] [E2 M2]. split; [rewrite !length_app; lia|]. intros i segment.
  rewrite lookup_app_Some. intros [Hi|[Hle Hi]].
  - destruct (M1 i segment Hi) as (s & Hs & Hm). exists s. split; [|exact Hm].
    by apply lookup_app_l_Some.
  - destruct (M2 _ segment Hi) as (s & Hs & Hm). exists s. rewrite lookup_app_r by lia.
    rewrite E1. split; [exact Hs|]. by replace (start + i)%nat with (start + length l1 + (i - length l1))%nat by lia.
Qed.

Lemma prepare_jobs_spec fuel offset jobs prepared failure w :
  (length jobs <= fuel)%nat -> NoDup (map fst jobs) ->
  (forall i segment, In (i, segment) jobs -> (i < length prepared)%nat) ->
  let r := (prepare_jobs cfg p product source dir q rate ch fuel offset jobs prepared failure w).1 in
  length r.1 = length prepared /\
  (r.2 = None -> failure = None /\
    (forall i segment, In (i, segment) jobs -> exists s, r.1 !! i = Some s /\ made (offset + i) segment s) /\
    forall i, ~ In i (map fst jobs) -> r.1 !! i = prepared !! i).
Proof.
  revert jobs prepared failure w. induction fuel as [|fuel IH]; intros jobs prepared failure w Hfuel Hdup Hlt.
  { destruct jobs; [|simpl in Hfuel; lia]. by split_and!. }
  cbn [prepare_jobs]. destruct jobs as [|first jobs]; [by split_and!|]. cbv zeta.
  set (all := first :: jobs) in *. rewrite mbind_eq. cbn [gets fst snd].
  set (i := Nat.modulo _ _). assert (Hi : (i < length all)%nat) by (apply Nat.mod_upper_bound; done).
  destruct (lookup_lt_is_Some_2 all i Hi) as [job Hjob].
  assert (Hn : nth i all first = job) by (rewrite nth_lookup, Hjob; done). rewrite Hn.
  pose proof (take_drop_middle all i job Hjob) as Hsplit.
  set (rest := (take i all ++ drop (S i) all)%list).
  assert (Hperm : Permutation all (job :: rest)).
  { rewrite <- Hsplit at 1. symmetry. apply Permutation_middle. }
  destruct job as [index segment]. rewrite mbind_eq.
  set (r := (prepare_segment _ _ _ _ _ _ _ _ _ _ w).1).
  set (w1 := (prepare_segment _ _ _ _ _ _ _ _ _ _ w).2).
  set (prepared' := match r with Ok s => _ | Err _ => _ end).
  set (failure' := first_error failure r).
  assert (Hlen : length prepared' = length prepared) by (unfold prepared'; destruct r; [apply length_insert|done]).
  assert (Hdup' : NoDup (index :: map fst rest)).
  { change (NoDup (map fst ((index, segment) :: rest))). by rewrite <- Hperm. }
  apply list.NoDup_cons in Hdup' as [Hfresh Hdup'].
  rewrite list_elem_of_In in Hfresh.
  destruct (IH rest prepared' failure' w1) as [Hl Hr].
  - apply Permutation_length in Hperm. simpl in Hperm, Hfuel. lia.
  - exact Hdup'.
  - intros j s Hj. rewrite Hlen. apply (Hlt j s). rewrite Hperm. by right.
  - split; [congruence|]. intros Hnone. destruct (Hr Hnone) as (Hf & Hm & Hsame).
    assert (Hok : exists s, r = Ok s /\ failure = None).
    { unfold failure', first_error in Hf. destruct failure, r; try done. eauto. }
    destruct Hok as (s & Hs & ->). split; [done|]. split.
    + intros j seg Hj. rewrite Hperm in Hj. destruct Hj as [[= <- <-]|Hj]; [|by apply Hm].
      exists s. split; [|by exists w]. rewrite Hsame by exact Hfresh. unfold prepared'. rewrite Hs.
      apply list_lookup_insert_eq. apply (Hlt index segment). rewrite Hperm. by left.
    + intros j Hj. rewrite (Permutation_map fst Hperm) in Hj. cbn [map fst In] in Hj.
      rewrite Hsame by tauto. unfold prepared'. rewrite Hs. apply list_lookup_insert_ne. tauto.
Qed.

Lemma in_combine_seq {A} (l : list A) n i a : In (i, a) (combine (seq n (length l)) l) <->
  (n <= i)%nat /\ l !! (i - n)%nat = Some a.
Proof.
  revert n. induction l as [|x l IH]; intros n; cbn [length seq combine In]; [by split; [|intros [_ ?]]|].
  rewrite IH. split.
  - intros [[= -> ->]|[Hle Hl]]; [split; [lia|by rewrite Nat.sub_diag]|].
    split; [lia|]. by replace (i - n)%nat with (S (i - S n)) by lia.
  - intros [Hle Hl]. destruct (decide (i = n)) as [->|Hne].
    + left. rewrite Nat.sub_diag in Hl. simpl in Hl. congruence.
    + right. split; [lia|]. by replace (i - n)%nat with (S (i - S n)) in Hl by lia.
Qed.
Lemma map_fst_combine_seq {A} (l : list A) n : map fst (combine (seq n (length l)) l) = seq n (length l).
Proof. revert n. induction l as [|x l IH]; intros n; [done|]. cbn [length seq combine map fst]. by rewrite IH. Qed.

Lemma prepareProductSegments_spec segments offset w :
  match (prepareProductSegments cfg p product source dir q rate ch segments offset w).1 with
  | Ok prepared => all_made offset segments prepared
  | Err _ => True
  end.
Proof.
  unfold prepareProductSegments. rewrite mbind_eq. cbn [ret fst snd].
  set (jobs := combine _ _). set (blank_ := map _ segments).
  assert (Hb : length blank_ = length segments) by apply length_map.
  destruct (prepare_jobs_spec (length segments) offset jobs blank_ None w) as [Hl Hr].
  - unfold jobs. rewrite length_combine, length_seq. lia.
  - unfold jobs. rewrite map_fst_combine_seq. apply NoDup_seq.
  - intros i segment [_ Hi]%in_combine_seq. rewrite Hb. rewrite Nat.sub_0_r in Hi. by eapply lookup_lt_Some.
  - destruct ((prepare_jobs _ _ _ _ _ _ _ _ _ _ _ _ _ w).1) as [prepared [err|]]; cbn [fst snd] in *; [done|].
    destruct (Hr eq_refl) as (_ & Hm & _). split; [congruence|]. intros i segment Hi. apply Hm.
    apply in_combine_seq. rewrite Nat.sub_0_r. split; [lia|exact Hi].
Qed.

Lemma append_pieces_spec l s pcm w : open_stream s pcm w -> 0 < ws_channels s ->
  match append_pieces l s w with
  | (Ok s', w') => open_stream s' (pcm ++ concat l) w' /\ ws_path s' = ws_path s /\
      ws_sampleRate s' = ws_sampleRate s /\ ws_channels s' = ws_channels s
  | (Err _, _) => True
  end.
Proof.
  revert s pcm w. induction l as [|b l IH]; intros s pcm w Hs Hc.
  { cbn. by rewrite app_nil_r. }
  cbn [append_pieces]. rewrite mbind_eq. pose proof (Append_spec s pcm b w Hs Hc) as Ha.
  destruct (Append b s w) as [[[err|] s'] w1]; cbn [fst snd] in *; [done|].
  destruct Ha as (_ & Hp & Ha). destruct (Ha eq_refl) as (Hs' & _ & Hr' & Hc').
  specialize (IH s' (pcm ++ b)%list w1 Hs' ltac:(lia)).
  destruct (append_pieces l s' w1) as [[s''|err] w2]; [|done].
  cbn [concat]. rewrite <- app_assoc in IH. destruct IH as (? & ? & ? & ?). split_and!; congruence || done.
Qed.

Lemma batch_pieces_app total start l1 l2 p1 p2 : length p1 = length l1 ->
  batch_pieces rate ch total start (l1 ++ l2) (p1 ++ p2) =
  (batch_pieces rate ch total start l1 p1 ++ batch_pieces rate ch total (start + length l1) l2 p2)%list.
Proof.
  revert start p1. induction l1 as [|x l1 IH]; intros start [|y p1] E; try done; cbn [app batch_pieces length].
  - by rewrite Nat.add_0_r.
  - simpl in E. rewrite IH by lia. rewrite app_assoc. do 2 f_equal. lia.
Qed.

(** The samples of a product: what was made of its segments, in order, with the pauses between them. *)
Definition joined (total start : nat) (segments : list renderedSegment)
    (prepared : list preparedProductSegment) : bytes :=
  concat (batch_pieces rate ch total start segments prepared).

Section stream.
Context (path : string) (Htmp : ~ segment_file dir q (path +:+ ".tmp")) (Hrate : 0 < rate) (Hch : 0 < ch).

(** An open stream of this format. *)
Definition stream_of (s : pcm16WAVStream) (pcm : bytes) (w : World) : Prop :=
  open_stream s pcm w /\ ws_path s = path /\ ws_sampleRate s = rate /\ ws_channels s = ch.

Lemma stream_of_prepared segments offset s pcm w : stream_of s pcm w ->
  stream_of s pcm (prepareProductSegments cfg p product source dir q rate ch segments offset w).2.
Proof.
  intros (Ho & Hp & Hr & Hc). split; [|done]. destruct Ho. constructor; try done.
  assert (Hw : within (segment_file dir q) asks
    (prepareProductSegments cfg p product source dir q rate ch segments offset)).
  { apply within_bind; [apply within_prepare_jobs|]. intros r. by apply within_only. }
  unfold content_at. rewrite (proj1 (Hw w)) by (by rewrite os_tmp, Hp). done.
Qed.

Lemma write_batches_spec fuel total start segments s hasAudio pcm w :
  (length segments <= fuel)%nat -> stream_of s pcm w ->
  match write_batches cfg p product source dir q rate ch fuel total start segments s hasAudio w with
  | (Ok (s', has), w') => exists prepared, all_made start segments prepared /\
      stream_of s' (pcm ++ joined total start segments prepared) w' /\
      has = hasAudio || existsb segment_audible prepared
  | (Err _, _) => True
  end.
Proof.
  revert start segments s hasAudio pcm w.
  induction fuel as [|fuel IH]; intros start segments s hasAudio pcm w Hfuel Hs.
  { destruct segments; [|simpl in Hfuel; lia]. exists []. cbn. rewrite app_nil_r, orb_false_r.
    split_and!; [done|exact Hs|done]. }
  cbn [write_batches]. destruct segments as [|first segments].
  { exists []. cbn. rewrite app_nil_r, orb_false_r. split_and!; [done|exact Hs|done]. }
  set (all := first :: segments) in *. cbv zeta. rewrite mbind_eq.
  set (batch := take productSegmentWorkerLimit all).
  pose proof (prepareProductSegments_spec batch start w) as Hm.
  pose proof (stream_of_prepared batch start s pcm w Hs) as Hs1.
  destruct (prepareProductSegments _ _ _ _ _ _ _ _ batch start w) as [[prepared|err] w1]; cbn [fst snd] in *; [|done].
  rewrite mbind_eq. destruct Hs1 as (Ho & Hp & Hr & Hc).
  pose proof (append_pieces_spec (batch_pieces rate ch total start batch prepared) s pcm w1 Ho ltac:(lia)) as Ha.
  destruct (append_pieces _ s w1) as [[s1|err] w2]; cbn [fst snd]; [|done].
  destruct Ha as (Ho1 & Hp1 & Hr1 & Hc1).
  assert (Hlen : (length (drop productSegmentWorkerLimit all) <= fuel)%nat).
  { rewrite length_drop. unfold all in *. simpl in *. unfold productSegmentWorkerLimit. lia. }
  assert (Hs2 : stream_of s1 (pcm ++ concat (batch_pieces rate ch total start batch prepared)) w2)
    by (split; [exact Ho1|split_and!; congruence]).
  specialize (IH (start + length batch)%nat (drop productSegmentWorkerLimit all) s1
    (hasAudio || existsb segment_audible prepared) _ w2 Hlen Hs2). clear Hs2.
  destruct (write_batches _ _ _ _ _ _ _ _ fuel _ _ _ _ _ w2) as [[[s2 has]|err] w3]; [|done].
  destruct IH as (prepared2 & Hm2 & Hs2 & ->). exists (prepared ++ prepared2)%list.
  pose proof (take_drop productSegmentWorkerLimit all) as Hall. fold batch in Hall.
  unfold joined. rewrite <- Hall, batch_pieces_app by (by destruct Hm). rewrite Hall, concat_app, app_assoc.
  split_and!.
  - rewrite <- Hall. by apply all_made_app.
  - exact Hs2.
  - by rewrite existsb_app, orb_assoc.
Qed.

Lemma write_segments_spec segments pkg w :
  match write_segments cfg p product source dir q rate ch path segments pkg w with
  | (Ok info, w') => exists prepared, all_made 0 segments prepared /\ existsb segment_audible prepared = true /\
      let pcm := joined (length segments) 0 segments prepared in
      whole_frames pcm ch /\ len pcm <= max_uint32 /\
      content_at path w' = Some (wav_header rate ch (len pcm) ++ pcm)%list
  | (Err _, _) => True
  end.
Proof.
  unfold write_segments. rewrite mbind_eq. pose proof (newPCM16WAVStream_spec path rate ch w Hrate Hch) as Hn.
  destruct (newPCM16WAVStream path rate ch w) as [[s|err] w1]; cbn [fst snd]; [|done].
  rewrite mbind_eq. pose proof (write_batches_spec (length segments) (length segments) 0 segments s false [] w1
    ltac:(lia) Hn) as Hb.
  destruct (write_batches _ _ _ _ _ _ _ _ _ _ _ _ s false w1) as [[[s1 has]|err] w2]; cbn [fst snd]; [|done].
  destruct Hb as (prepared & Hm & Hs1 & ->). cbn [orb]. rewrite mbind_eq.
  destruct (existsb segment_audible prepared) eqn:Eh; cbn [negb]; [|done].
  rewrite !mbind_eq. destruct Hs1 as (Ho & Hp & Hr & Hc).
  pose proof (Commit_spec s1 _ w2 Ho) as Hcm. destruct (Commit s1 w2) as [[[err|] s2] w3]; cbn [fst snd]; [done|].
  destruct Hcm as [_ Hcm]. rewrite Hp, Hr, Hc in Hcm. cbn [app] in Hcm.
  cbn [ret fst snd]. destruct ((wavInfo path w3).1) as [info|err]; [|done].
  pose proof (os_limit _ _ _ Ho) as Hlimit. pose proof (os_frames _ _ _ Ho) as Hframes. rewrite Hc in Hframes.
  cbn [app] in *. exists prepared. split_and!; try done.
  destruct Hn as (Ho0 & Hp0 & _). rewrite (content_only (eq (path +:+ ".tmp"))).
  - rewrite <- Hcm. apply (content_only (fun _ => False)); [apply only_wavInfo|tauto].
  - unfold Abandon. rewrite (os_tmp _ _ _ Ho0), Hp0. eauto with files.
  - apply not_eq_sym, app_ne. done.
Qed.
End stream.
End joined.

(** ** The stream of a product is nobody else's *)

(** Speech synthesis answers with WAV files. *)
Class SpeechIsWAV `{Remote} := answer_is_wav k : answered k -> HasSuffix k ".wav" = true.

Lemma Clean_nonempty path : Clean path <> "".
Proof.
  unfold Clean, unresolve. destruct (IsAbs path); [done|].
  pose proof (resolved_plain path) as Hp. destruct Hp as [|c l (Hne & _) Hl]; [done|].
  destruct l as [|c' l]; [exact Hne|]. cbn [Join]. by destruct c.
Qed.
Lemma Dir_nonempty path : Dir path <> "".
Proof. unfold Dir. destruct (LastIndex path "/"); [apply Clean_nonempty|done]. Qed.

Lemma pad2_digits n : Forall (fun a => is_digit (byte_val a) = true) (bytes_of (pad2 n)).
Proof.
  unfold pad2. destruct (n <? 10)%nat; [|apply Itoa_digits; lia].
  rewrite bytes_of_app. apply Forall_app. split; [by repeat constructor|apply Itoa_digits; lia].
Qed.

(** A written-out name without a slash. *)
Ltac no_slash := cbn in *; intuition discriminate.

(** What follows the id in the name of a scratch file. *)
Definition scratch_ext (kind : string) (i : nat) : string := "-" +:+ kind +:+ "-" +:+ pad2 i +:+ ".wav".

Lemma scratch_ext_ok kind i : In kind ["audio"; "text"] ->
  (5 < String.length (scratch_ext kind i))%nat /\ ~ In slash (bytes_of (scratch_ext kind i)).
Proof.
  intros Hk. pose proof (pad2_digits i) as Hd. rewrite List.Forall_forall in Hd. unfold scratch_ext.
  rewrite <- length_bytes_of, !bytes_of_app, !length_app, !in_app_iff. split.
  - destruct Hk as [<- | [<- | []]]; simpl; lia.
  - intros Hin. destruct Hin as [Hin|[Hin|[Hin|[Hin|Hin]]]].
    + simpl in Hin. by destruct Hin as [|[]].
    + destruct Hk as [<- | [<- | []]]; by no_slash.
    + simpl in Hin. by destruct Hin as [|[]].
    + by apply Hd in Hin.
    + by no_slash.
Qed.

Section apart.
Context `{Remote} (cfg : loadedConfig) (p : feedPlanner) (q : string) (Hq : safe_id q).

Lemma output_dir_nonempty : base.filter (fun e => e <> "") [OutputDir cfg; safeID (feed_ID (feed p))] <> [].
Proof.
  intros E. assert (Hin : safeID (feed_ID (feed p)) ∈ base.filter (fun e => e <> "") [OutputDir cfg; safeID (feed_ID (feed p))]).
  { apply list_elem_of_filter. split; [apply safeID_nonempty|]. by right; left. }
  rewrite E in Hin. by apply list_elem_of_In in Hin.
Qed.

Lemma Base_output : Base (output_wav cfg p q) = q +:+ ".wav".
Proof.
  destruct (safe_id_plain q ".wav" Hq ltac:(simpl; lia) ltac:(no_slash)) as [Hp Hd].
  apply (Base_JoinPath [OutputDir cfg; safeID (feed_ID (feed p))]); [apply output_dir_nonempty|done|done].
Qed.

Lemma Base_scratch dir kind i ext : dir <> "" -> In kind ["audio"; "text"] -> ~ In slash (bytes_of ext) ->
  Base (scratch_wav dir q kind i +:+ ext) = q +:+ (scratch_ext kind i +:+ ext).
Proof.
  intros Hdir Hk Hext. destruct (scratch_ext_ok kind i Hk) as [Hlen Hsl].
  destruct (safe_id_plain q (scratch_ext kind i) Hq ltac:(lia) Hsl) as [Hp Hd].
  destruct (safe_id_plain q (scratch_ext kind i +:+ ext) Hq) as [Hp' Hd'].
  { rewrite <- length_bytes_of, bytes_of_app, length_app, !length_bytes_of. lia. }
  { rewrite bytes_of_app, in_app_iff. tauto. }
  assert (Hne : base.filter (fun e => e <> "") [dir] <> []) by (by rewrite filter_cons_True).
  rewrite <- string_app_assoc in Hp', Hd'. rewrite <- string_app_assoc.
  unfold scratch_wav. fold (scratch_ext kind i). change [dir; q +:+ scratch_ext kind i] with ([dir] ++ [q +:+ scratch_ext kind i])%list.
  rewrite JoinPath_extend by done. by apply Base_JoinPath.
Qed.

Lemma suffix_clash s t u v : length (bytes_of u) = length (bytes_of v) -> s +:+ u = t +:+ v -> u = v.
Proof.
  intros Hl E%(f_equal bytes_of). rewrite !bytes_of_app in E. apply bytes_of_inj.
  by apply app_inj_2 in E as [_ ?].
Qed.

Lemma output_tmp_apart : SpeechIsWAV -> ~ segment_file (Dir (output_wav cfg p q)) q (output_wav cfg p q +:+ ".tmp").
Proof.
  intros Hwav Hin. assert (Hb : forall kind i ext, In kind ["audio"; "text"] -> ~ In slash (bytes_of ext) ->
    output_wav cfg p q <> scratch_wav (Dir (output_wav cfg p q)) q kind i +:+ ext).
  { intros kind i ext Hk Hext E. apply (f_equal Base) in E.
    rewrite Base_output, Base_scratch in E by (apply Dir_nonempty || done).
    apply (f_equal (fun s => length (bytes_of s))) in E. rewrite !bytes_of_app, !length_app in E.
    destruct (scratch_ext_ok kind i Hk) as [Hl _]. rewrite <- length_bytes_of in Hl.
    change (length (bytes_of ".wav")) with 4%nat in E. lia. }
  assert (Hwt : forall s, output_wav cfg p q +:+ ".tmp" <> s +:+ ".wav").
  { intros s E. by apply suffix_clash in E. }
  inversion Hin as [kind i k Hk [E|E]|i k [E|E]|k Ha]; subst.
  - destruct (JoinPath_suffix [Dir (output_wav cfg p q)] (q +:+ scratch_ext kind i)) as [front Ef].
    { rewrite filter_cons_True; [done|]. apply Dir_nonempty. }
    1, 2: destruct (scratch_ext_ok kind i Hk); apply safe_id_plain; (done || lia).
    unfold scratch_wav in E. fold (scratch_ext kind i) in E. cbn [app] in Ef. rewrite Ef in E.
    unfold scratch_ext in E. rewrite <- !string_app_assoc in E. by apply Hwt in E.
  - apply string_app_inj_r in E. apply (Hb kind i ""); [done|intros []|].
    etransitivity; [exact E|]. symmetry. apply string_app_nil_r.
  - apply (Hwt (scratch_wav (Dir (output_wav cfg p q)) q "text" i +:+ ".normalized")). rewrite E.
    by rewrite string_app_assoc.
  - apply string_app_inj_r in E. apply (Hb "text" i ".normalized.wav"); [by right; left|no_slash|exact E].
  - apply Hwav in Ha. apply HasSuffix_spec in Ha as [s E]. by apply Hwt in E.
Qed.
End apart.

(** ** Theorems *)

Section theorems.
Context `{JSON} `{Env} `{Tools} `{Zones} `{ZoneNames} `{Remote} `{Documents} `{Workers}.
Context (cfg : loadedConfig).

Lemma buildProduct_outcome (pkgID source targetRaw : string) (timelineEnd t : Z) (p : feedPlanner)
    (w : World) :
  let '(r, (p', w')) := buildProduct (Builder := routine_Builder cfg) pkgID source targetRaw timelineEnd t (p, w) in
  match r with Ok item => item_ready cfg p t timelineEnd item w' | Err _ => True end /\
  plan_kept p p' /\
  exists q, safe_id q /\ (forall k, ~ product_file cfg p q k -> files w' !! k = files w !! k) /\
    exists sent, published w' = (published w ++ sent)%list /\ Forall asks sent.
Proof.
  assert (Hlang : forall s, exists language p1, productLanguageForBuild source s = (language, (p1, s.2)) /\
    plan_kept s.1 p1).
  { intros [p0 w0]. unfold productLanguageForBuild, nextRoutineLanguage. rewrite mbind_eq. cbn [gets fst snd].
    destruct (negb _); [by eexists _, _|]. rewrite mbind_eq. cbn [gets fst snd].
    destruct (feedLanguages (feed p0)) as [|l1 [|l2 ls]]; [by eexists _, _..|].
    unfold mbind, modp, modify. cbn [fst snd]. destruct (due_languages _ _); by eexists _, _. }
  destruct (Hlang (p, w)) as (language & p1 & El & Hk). cbn [routine_Builder buildProduct].
  rewrite mbind_eq, El. cbn [fst snd]. rewrite mbind_eq. cbn [gets fst snd]. rewrite mbind_eq.
  unfold io. cbn [fst snd].
  pose proof (build_product_ready cfg p1 language pkgID source targetRaw timelineEnd t w) as Hr.
  destruct (within_build_product cfg p1 language pkgID source targetRaw timelineEnd t w) as (q & Hq & Hf & Hs).
  destruct (build_product _ _ _ _ _ _ _ _ w) as [[r note] w']. unfold built_ready in Hr. cbn [fst snd] in *.
  assert (Hfeed : feed p1 = feed p) by apply Hk.
  assert (Hready : match r with Ok item => item_ready cfg p t timelineEnd item w' | Err _ => True end).
  { destruct r as [item|]; [|done]. destruct Hr. rewrite Hfeed in *. by constructor. }
  assert (Hpf : forall k, product_file cfg p1 q k -> product_file cfg p q k).
  { intros k Hpk. assert (E : output_wav cfg p1 q = output_wav cfg p q) by (unfold output_wav; by rewrite Hfeed).
    destruct Hpk; [apply product_output|apply product_download|apply product_segment]; by rewrite <- E. }
  rewrite mbind_eq. destruct note; cbn; (split; [exact Hready|split; [exact Hk|]]); exists q; split_and!; auto.
Qed.

(** C26: what the planner builds can be played.  When [buildProduct] returns an item,
    the item belongs to the feed, waits in the queue's state, names a file that is
    there and is read as WAV with the item's duration, and has a slot that begins
    neither before now nor before the programme's end and lasts as long as the audio
    and the gap.  However it ends, the disk changes in the files of one product only,
    and only requests for texts and speech are sent. *)
Theorem buildProduct_contract (pkgID source targetRaw : string) (timelineEnd t : Z) (p : feedPlanner)
    (w : World) :
  let '(r, (p', w')) := buildProduct (Builder := routine_Builder cfg) pkgID source targetRaw timelineEnd t (p, w) in
  match r with Ok item => item_ready cfg p t timelineEnd item w' | Err _ => True end /\
  plan_kept p p' /\
  exists q, safe_id q /\ (forall k, ~ product_file cfg p q k -> files w' !! k = files w !! k) /\
    exists sent, published w' = (published w ++ sent)%list /\ Forall asks sent.
Proof. exact (buildProduct_outcome pkgID source targetRaw timelineEnd t p w). Qed.

(** C29: a product of segments is read in its order.  When [buildSegmentedProductItem]
    makes an item, its file holds, for every playable segment in the order of the
    product, the samples a worker made of that very segment, its audio before its
    speech, with the pause of its kind after each but the last, whatever order
    the workers ended in; some of it is not silence, and the WAV header gives the
    configured format and the length of the samples. *)
Theorem segments_in_order `{!SpeechIsWAV} (p : feedPlanner) (product : renderedProduct)
    (pkgID source targetRaw : string) (timelineEnd t : Z) (q : string) (w : World) :
  safe_id q ->
  let rate := or_default (cfgSampleRate (Playout cfg)) 48000 in
  let ch := or_default (cfgChannels (Playout cfg)) 1 in
  let segments := playableProductSegments product in
  match buildSegmentedProductItem cfg p product pkgID source targetRaw timelineEnd t q w with
  | (Some (Ok item), w') => AudioPath item = output_wav cfg p q /\
      exists prepared, all_made cfg p product source (Dir (output_wav cfg p q)) q rate ch 0 segments prepared /\
        existsb segment_audible prepared = true /\
        let pcm := joined rate ch (length segments) 0 segments prepared in
        whole_frames pcm ch /\ len pcm <= max_uint32 /\
        content_at (AudioPath item) w' = Some (wav_header rate ch (len pcm) ++ pcm)%list
  | _ => True
  end.
Proof.
  intros Hq. cbv zeta. unfold buildSegmentedProductItem. cbv zeta. destruct (negb _); [done|].
  rewrite mbind_eq. set (rate := or_default _ 48000). set (ch := or_default _ 1).
  assert (Hrate : 0 < rate) by (unfold rate, or_default; destruct (Z.leb_spec (cfgSampleRate (Playout cfg)) 0); lia).
  assert (Hch : 0 < ch) by (unfold ch, or_default; destruct (Z.leb_spec (cfgChannels (Playout cfg)) 0); lia).
  pose proof (write_segments_spec cfg p product source (Dir (output_wav cfg p q)) q rate ch (output_wav cfg p q)
    (output_tmp_apart cfg p q Hq _) Hrate Hch (playableProductSegments product) pkgID w) as Hs.
  destruct (write_segments _ _ _ _ _ _ _ _ _ _ _ w) as [[info|err] w']; [|done]. by split.
Qed.

(** The builder keeps what the planner relies on. *)
#[export] Instance routine_BuilderOk : BuilderOk (H := routine_Builder cfg) | 500.
Proof.
  split.
  - intros pkg source target e t [p w]. pose proof (buildProduct_outcome pkg source target e t p w) as Hb.
    cbn [fst snd]. destruct (buildProduct pkg source target e t (p, w)) as [r [p' w']]. apply Hb.
  - intros event e t [p w]. cbn [buildChime routine_Builder]. rewrite mbind_eq. cbn [gets fst snd].
    unfold io. cbn [fst snd]. by destruct (build_chime _ _ _ _ _ w).
  - intros t [p w]. cbn [hasRoutineAlerts routine_Builder]. rewrite mbind_eq. cbn [gets fst snd].
    unfold io. cbn [fst snd]. by destruct (hasRoutineAlerts_of _ _ w).
Qed.
End theorems.

(** A download is no generated file for the pruning pass, whatever its product. *)
Theorem download_never_pruned (dir q : string) (f : File) :
  generated_candidates dir [(q +:+ ".download", f)] = [].
Proof.
  unfold generated_candidates, generatedProductAudio. cbn [omap list_omap].
  destruct (HasSuffix (q +:+ ".download") ".wav") eqn:E; [|done].
  apply HasSuffix_spec in E as [s E]. apply (f_equal (fun s => rev (bytes_of s))) in E.
  by rewrite !bytes_of_app, !rev_app_distr in E.
Qed.

(** ** Witnesses *)

(** Two texts; the second one is finished first. *)
Definition two_segments : renderedProduct :=
  MkProduct "p" "f1" "weather" "Weather" "" "00" "en"
    [MkSegment "opener" "" "Good morning." ""; MkSegment "" "" "It is sunny." ""; MkSegment "" "" " " ""] [].
(** Speech of one sample for the first segment, of two for the second. *)
#[export] Instance wav_Remote : Remote | 1100 := {|
  rendered sent := Ok two_segments;
  synthesized sent :=
    match rev sent with
    | m :: _ => let path := stringAt (mapAt m "data") "output_path" in
                if HasSuffix path ".wav" then Ok path else Err "no audio"
    | [] => Err "no audio"
    end;
  speech_file sent :=
    match rev sent with
    | m :: _ => let pcm := if stringAt (mapAt m "data") "text" =? "It is sunny." then sample_pcm else take 2 sample_pcm in
                Some (wav_file (36 + len pcm) [] [] [] (fmt_body 8 1) pcm)
    | [] => None
    end |}.
#[export] Instance wav_Remote_ok : SpeechIsWAV (H := wav_Remote) | 1000.
Proof.
  intros k [sent Hs]. cbn in Hs. destruct (rev sent) as [|m l]; [done|].
  destruct (HasSuffix _ ".wav") eqn:E; [|done]. by injection Hs as <-.
Qed.
#[export] Instance last_first_Workers : Workers | 1000 := {| ctx_error w := None; next_job n k := pred k |}.
#[export] Instance sample_ZoneNames : ZoneNames | 1000 := {| abbreviation name t := "CST" |}.
Definition slow_config : loadedConfig :=
  MkConfig false 4 20 (MkPlayout 8 1 ["weather"] (f64_of_Z 0) (MkMinuteSchedule None [])
    (MkMinuteSchedule None []) (MkChimes false false false)) ANil "" [sample_feed] "/srv" "/out".
Definition built_segments : option (result string playlistItem) * World :=
  buildSegmentedProductItem (H4 := wav_Remote) slow_config sample_planner two_segments "weather" "routine" "" noon noon
    (safeID "weather-1") sample_world.

Lemma segments_in_order_witness :
  content_at "/out/f1/weather-1.wav" built_segments.2 =
    Some (wav_header 8 1 12 ++ take 2 sample_pcm ++ make_bytes 6 ++ sample_pcm)%list /\
  exists item prepared,
    built_segments.1 = Some (Ok item) /\
    content_at (AudioPath item) built_segments.2 =
      Some (wav_header 8 1 (len (joined 8 1 2 0 (take 2 (prod_Segments two_segments)) prepared)) ++
            joined 8 1 2 0 (take 2 (prod_Segments two_segments)) prepared)%list.
Proof.
  split; [by vm_compute|].
  pose proof (segments_in_order slow_config sample_planner two_segments "weather" "routine" "" noon noon
    (safeID "weather-1") sample_world ltac:(by eexists)) as Hs. cbv zeta in Hs.
  assert (E : exists item, built_segments.1 = Some (Ok item)) by (eexists; vm_compute; reflexivity).
  destruct E as [item E]. fold built_segments in Hs. destruct built_segments as [r w']. cbn [fst snd] in *. subst r.
  destruct Hs as (_ & prepared & _ & _ & _ & _ & Hc). by exists item, prepared.
Defined.
