(* ===== verification/Preparation.v ===== *)
(** The playlist service's event loop and its background preparation work
    ([services/go/internal/playlist/async.go] and the [Service] of
    [service.go]).

    [Service] is one process: [handleEvent], [tickFeeds] and
    [handlePreparationResult] run one at a time in [runConnected], while workers
    prepare audio on copies of the planners and hand their results over a
    channel.  [step] is the interleaving of the loop with the workers; the work
    of one worker, which touches its own copy and new files, is one step. *)

From S2P Require Import Prelude UnicodeTables GoStrings GoTime GoValue GoPath AlertPacket.
From S2P Require Import PlaylistModel World AlertRequest AudioRetention PlannerState.
From S2P Require Import AlertCommit RoutinePlan.

#[local] Open Scope Z_scope.
#[local] Open Scope string_scope.
#[local] Open Scope haze_scope.

Definition routinePreparationWorkerLimit : nat := 4.
Definition priorityPreparationWorkerLimit : nat := 4.
Definition priorityPreparationBacklog : Z := 64.

(** [uint64] counters. *)
Definition next64 (z : Z) : Z := (z + 1) mod 2 ^ 64.

(** ** Data *)

Record priorityPreparationJob := MkJob {
  job_token : Z; job_feedID : string; job_alertID : string; job_version : Z; job_data : obj }.

Record routinePreparationResult := MkRoutineResult {
  rr_feedID : string; rr_token : Z; rr_generation : Z; rr_startup : bool; rr_insert : bool;
  rr_prepared : routinePreparation }.

Record priorityPreparationResult := MkPriorityResult {
  pr_job : priorityPreparationJob; pr_prepared : priorityAlertPreparation; pr_err : option string }.

(** One of the two pointers of the Go struct is set. *)
Inductive preparationResult :=
| RoutineResult (r : routinePreparationResult)
| PriorityResult (r : priorityPreparationResult).

(** What a worker was started for. *)
Inductive work :=
| RoutineWork (feedID : string) (token generation : Z) (startup : bool) (t : Z)
| InsertWork (feedID : string) (token generation : Z) (data : obj)
| PriorityWork (job : priorityPreparationJob).

(** A worker goroutine: its copy of the planner, whether its context was
    cancelled, and its result once the work is done and its slot given back. *)
Record worker := MkWorker {
  w_work : work; w_snapshot : feedPlanner; w_cancelled : bool; w_result : option preparationResult }.

(** The channels are the numbers of tokens they hold, with their capacities. *)
Record preparationCoordinator := MkCoordinator {
  routineWorkers : nat; priorityWorkers : nat;
  results : list preparationResult; resultSlots : nat; routineSlots : nat; prioritySlots : nat;
  workers : list worker }.

Definition newPreparationCoordinator (routineWorkers priorityWorkers : Z) : preparationCoordinator :=
  let r := if (routineWorkers <=? 0)%Z then routinePreparationWorkerLimit else Z.to_nat routineWorkers in
  let p := if (priorityWorkers <=? 0)%Z then priorityPreparationWorkerLimit else Z.to_nat priorityWorkers in
  MkCoordinator r p [] 0 0 0 [].

(** A cancel function stands for the worker it was made for. *)
Record activePriorityPreparation := MkActive {
  active_token : Z; active_alertID : string; active_version : Z }.

Record feedPreparationState := MkPrep {
  routineGeneration : Z; routineToken : Z; routineInFlight : bool; routineCancel : option Z;
  priorityVersions : gmap string Z; active : option activePriorityPreparation }.

Record Service := MkService {
  feeds : gmap string feedPlanner; preparations : preparationCoordinator;
  preparationStates : gmap string feedPreparationState;
  priorityPending : list priorityPreparationJob; nextPreparationToken : Z;
  maxPriorityPending : Z; lastAlertAudioCleanup : Z;
  ctxDone : bool;       (* the context of the connection is cancelled *)
  rangings : nat }.     (* loops over the feeds so far *)

Definition set_feeds f s := MkService f (preparations s) (preparationStates s) (priorityPending s)
  (nextPreparationToken s) (maxPriorityPending s) (lastAlertAudioCleanup s) (ctxDone s) (rangings s).
Definition set_preparations c s := MkService (feeds s) c (preparationStates s) (priorityPending s)
  (nextPreparationToken s) (maxPriorityPending s) (lastAlertAudioCleanup s) (ctxDone s) (rangings s).
Definition set_preparationStates m s := MkService (feeds s) (preparations s) m (priorityPending s)
  (nextPreparationToken s) (maxPriorityPending s) (lastAlertAudioCleanup s) (ctxDone s) (rangings s).
Definition set_priorityPending l s := MkService (feeds s) (preparations s) (preparationStates s) l
  (nextPreparationToken s) (maxPriorityPending s) (lastAlertAudioCleanup s) (ctxDone s) (rangings s).
Definition set_nextPreparationToken n s := MkService (feeds s) (preparations s) (preparationStates s)
  (priorityPending s) n (maxPriorityPending s) (lastAlertAudioCleanup s) (ctxDone s) (rangings s).
Definition set_lastAlertAudioCleanup t s := MkService (feeds s) (preparations s)
  (preparationStates s) (priorityPending s) (nextPreparationToken s) (maxPriorityPending s) t
  (ctxDone s) (rangings s).
Definition set_ctxDone b s := MkService (feeds s) (preparations s) (preparationStates s)
  (priorityPending s) (nextPreparationToken s) (maxPriorityPending s) (lastAlertAudioCleanup s) b
  (rangings s).
Definition set_rangings n s := MkService (feeds s) (preparations s) (preparationStates s)
  (priorityPending s) (nextPreparationToken s) (maxPriorityPending s) (lastAlertAudioCleanup s)
  (ctxDone s) n.

Definition set_workers l c := MkCoordinator (routineWorkers c) (priorityWorkers c) (results c)
  (resultSlots c) (routineSlots c) (prioritySlots c) l.
Definition set_results l c := MkCoordinator (routineWorkers c) (priorityWorkers c) l
  (resultSlots c) (routineSlots c) (prioritySlots c) (workers c).
Definition set_resultSlots n c := MkCoordinator (routineWorkers c) (priorityWorkers c) (results c)
  n (routineSlots c) (prioritySlots c) (workers c).
Definition set_routineSlots n c := MkCoordinator (routineWorkers c) (priorityWorkers c) (results c)
  (resultSlots c) n (prioritySlots c) (workers c).
Definition set_prioritySlots n c := MkCoordinator (routineWorkers c) (priorityWorkers c) (results c)
  (resultSlots c) (routineSlots c) n (workers c).

(** The order in which Go ranges over a map is unspecified: the [n]-th loop
    takes some permutation of the keys. *)
Class MapOrder := {
  range_order : nat -> list string -> list string;
  range_order_perm n l : range_order n l ≡ₚ l }.

(** Rendering a priority alert. *)
Class PriorityBuilder := {
  preparePriorityAlert : obj -> PM (priorityAlertPreparation * option string) }.

(** ** The coordinator *)

Definition reserveResultSlot (c : preparationCoordinator) : option preparationCoordinator :=
  if (resultSlots c <? routineWorkers c + priorityWorkers c)%nat
  then Some (set_resultSlots (S (resultSlots c)) c) else None.

Definition releaseResultSlot (c : preparationCoordinator) : preparationCoordinator :=
  set_resultSlots (pred (resultSlots c)) c.

Definition start_worker (w : work) (planner : feedPlanner) (c : preparationCoordinator) :
    preparationCoordinator :=
  set_workers (workers c ++ [MkWorker w planner false None])%list c.

(** The common start of [tryStartRoutine] and [tryStartInsert]; [None] leaves
    the coordinator as it was. *)
Definition try_routine_slot (w : work) (planner : feedPlanner) (c : preparationCoordinator) :
    option preparationCoordinator :=
  if (routineSlots c <? routineWorkers c)%nat then
    match reserveResultSlot (set_routineSlots (S (routineSlots c)) c) with
    | None => None
    | Some c => Some (start_worker w planner c)
    end
  else None.

Definition tryStartRoutine (planner : feedPlanner) (token generation : Z) (startup : bool) (t : Z) :=
  try_routine_slot (RoutineWork (feed_ID (feed planner)) token generation startup t) planner.
Definition tryStartInsert (planner : feedPlanner) (token generation : Z) (data : obj) :=
  try_routine_slot (InsertWork (feed_ID (feed planner)) token generation data) planner.
Definition tryStartPriority (planner : feedPlanner) (job : priorityPreparationJob)
    (c : preparationCoordinator) : option preparationCoordinator :=
  if (prioritySlots c <? priorityWorkers c)%nat then
    match reserveResultSlot (set_prioritySlots (S (prioritySlots c)) c) with
    | None => None
    | Some c => Some (start_worker (PriorityWork job) planner c)
    end
  else None.

(** The routine work of a feed under a token, and the priority work of a token. *)
Definition is_routine_of (feedID : string) (token : Z) (w : work) : bool :=
  match w with
  | RoutineWork f tok _ _ _ | InsertWork f tok _ _ => (f =? feedID) && (tok =? token)%Z
  | PriorityWork _ => false
  end.
Definition is_priority_of (token : Z) (w : work) : bool :=
  match w with
  | PriorityWork job => (job_token job =? token)%Z
  | _ => false
  end.
Definition cancel_workers (which : work -> bool) (c : preparationCoordinator) :
    preparationCoordinator :=
  set_workers (map (fun w => if which (w_work w)
    then MkWorker (w_work w) (w_snapshot w) true (w_result w) else w) (workers c)) c.

(** [prepareRoutine] and [prepareInsert] of the coordinator, on the copy. *)
Definition prepareRoutine `{Env} `{Zones} `{Builder} (cfg : loadedConfig) (startup : bool) (t : Z) :
    PM routinePreparation :=
  if startup then
    let! items := prepareStartupPrimer cfg t in
    let! p := gets fst in ret (MkRoutine (Some p) items true)
  else
    let! next := nextPlannedItem cfg t in
    let! p := gets fst in
    match next with
    | None => ret (MkRoutine (Some p) [] false)
    | Some item => ret (MkRoutine (Some p) [item] true)
    end.

(** The body of a worker. *)
Definition perform `{Env} `{Zones} `{Builder} `{PriorityBuilder} (cfg : loadedConfig) (w : work) :
    PM preparationResult :=
  match w with
  | RoutineWork feedID token generation startup t =>
      let! prepared := prepareRoutine cfg startup t in
      ret (RoutineResult (MkRoutineResult feedID token generation startup false prepared))
  | InsertWork feedID token generation data =>
      let! prepared := prepareInsert data in
      ret (RoutineResult (MkRoutineResult feedID token generation false true prepared))
  | PriorityWork job =>
      let! r := preparePriorityAlert (job_data job) in
      ret (PriorityResult (MkPriorityResult job r.1 r.2))
  end.

(** The slot a worker gives back when its work is done. *)
Definition release_slot (w : work) (c : preparationCoordinator) : preparationCoordinator :=
  match w with
  | PriorityWork _ => set_prioritySlots (pred (prioritySlots c)) c
  | _ => set_routineSlots (pred (routineSlots c)) c
  end.

(** ** The service *)

Abbreviation SM := (M (Service * World)).

Definition mods (f : Service -> Service) : SM unit := modify (fun s => (f s.1, s.2)).
Definition svc {A} (f : Service -> A) : SM A := gets (fun s => f s.1).
Definition outside {A} (m : M World A) : SM A := fun s => let '(a, w) := m s.2 in (a, (s.1, w)).

(** Run an operation of the planner stored under a key. *)
Definition on_planner (k : string) (m : PM unit) : SM unit := fun s =>
  match feeds s.1 !! k with
  | Some p => let '(_, (p', w')) := m (p, s.2) in (tt, (set_feeds (<[k := p']> (feeds s.1)) s.1, w'))
  | None => (tt, s)
  end.

Definition newState : feedPreparationState := MkPrep 0 0 false None ∅ None.

(** [s.preparationState(feedID)]: the state, created when missing. *)
Definition stateOf (feedID : string) (s : Service) : feedPreparationState :=
  default newState (preparationStates s !! feedID).
Definition preparationState (feedID : string) : SM feedPreparationState :=
  let! st := svc (stateOf feedID) in
  mods (fun s => set_preparationStates (<[feedID := st]> (preparationStates s)) s) ;;; ret st.
Definition set_state (feedID : string) (st : feedPreparationState) : SM unit :=
  mods (fun s => set_preparationStates (<[feedID := st]> (preparationStates s)) s).

Definition cancel_routine (feedID : string) (st : feedPreparationState) : SM unit :=
  match routineCancel st with
  | Some token =>
      mods (fun s => set_preparations (cancel_workers (is_routine_of feedID token) (preparations s)) s)
  | None => ret tt
  end.
Definition cancel_priority (a : activePriorityPreparation) : SM unit :=
  mods (fun s =>
    set_preparations (cancel_workers (is_priority_of (active_token a)) (preparations s)) s).

Definition set_routine (generation token : Z) (inFlight : bool) (cancel : option Z)
    (st : feedPreparationState) : feedPreparationState :=
  MkPrep generation token inFlight cancel (priorityVersions st) (active st).
Definition set_versions (m : gmap string Z) (st : feedPreparationState) : feedPreparationState :=
  MkPrep (routineGeneration st) (routineToken st) (routineInFlight st) (routineCancel st) m (active st).
Definition set_active (a : option activePriorityPreparation) (st : feedPreparationState) :
    feedPreparationState :=
  MkPrep (routineGeneration st) (routineToken st) (routineInFlight st) (routineCancel st)
    (priorityVersions st) a.

(** The keys of [s.feeds], in the order of this loop. *)
Definition range_feeds `{MapOrder} : SM (list string) :=
  let! n := svc rangings in
  let! keys := svc (fun s => map fst (map_to_list (feeds s))) in
  mods (set_rangings (S n)) ;;; ret (range_order n keys).

Definition matchFeeds `{MapOrder} (feedID : string) : SM (list string) :=
  let feedID := TrimSpace feedID in
  if (feedID =? "") || (feedID =? "*") then range_feeds
  else
    let! fs := svc feeds in
    match fs !! feedID with
    | Some _ => ret [feedID]
    | None => ret []
    end.

(** [add]: planners already listed are left out. *)
Definition add_feeds (fs : gmap string feedPlanner) (out : list string) (found : list string) :
    list string :=
  fold_left (fun out k =>
    let id := default "" (feed_ID ∘ feed <$> fs !! k) in
    if mem id (map (fun k => default "" (feed_ID ∘ feed <$> fs !! k)) out) then out
    else out ++ [k])%list found out.

Fixpoint match_each `{MapOrder} (ids : list string) (out : list string) : SM (list string) :=
  match ids with
  | [] => ret out
  | id :: ids' =>
      let! found := matchFeeds id in
      let! fs := svc feeds in
      match_each ids' (add_feeds fs out found)
  end.

Definition matchFeedsFromEvent `{MapOrder} `{JSON} (event : obj) : SM (list string) :=
  let data := mapAt event "data" in
  let feedID := firstText event data ["feed_id"] in
  match_each ((if feedID =? "" then [] else [feedID]) ++
    stringListAny (firstValue event data ["feed_ids"]))%list [].

Section service.
Context `{JSON} `{Env} `{Zones} `{Builder} `{PriorityBuilder} `{MapOrder} (cfg : loadedConfig).

(** [options.Lookahead]. *)
Context (Lookahead : Z).

(** The loop of [newService] and the service it makes. *)
Fixpoint new_planners (fs : list feedXML) (m : gmap string feedPlanner) :
    M World (gmap string feedPlanner) :=
  match fs with
  | [] => ret m
  | f :: fs' => let! p := newFeedPlanner f in new_planners fs' (<[feed_ID f := p]> m)
  end.
Definition newService : M World Service :=
  let! m := new_planners (enabledFeeds cfg) ∅ in
  ret (MkService m (newPreparationCoordinator 0 0) ∅ [] 0 priorityPreparationBacklog zeroTime false 0).

(** ** Routine work *)

Definition invalidateRoutinePreparation (feedID : string) : SM unit :=
  let! st := preparationState feedID in
  set_state feedID (set_routine (next64 (routineGeneration st)) (routineToken st)
    (routineInFlight st) (routineCancel st) st) ;;;
  cancel_routine feedID st.

Definition hasPriorityPreparation (feedID : string) : SM bool :=
  svc (fun s =>
    match preparationStates s !! feedID with
    | Some st => match active st with Some _ => true | None => false end
    | None => false
    end || existsb (fun pending => job_feedID pending =? feedID) (priorityPending s)).

Definition startRoutinePreparation (planner : feedPlanner) (t : Z) (startup : bool) : SM unit :=
  let feedID := feed_ID (feed planner) in
  let! st := preparationState feedID in
  if routineInFlight st then ret tt
  else
    let token := next64 (routineToken st) in
    set_state feedID (set_routine (routineGeneration st) token false (routineCancel st) st) ;;;
    let! c := svc preparations in
    match tryStartRoutine planner token (routineGeneration st) startup t c with
    | None => ret tt
    | Some c =>
        mods (set_preparations c) ;;;
        set_state feedID (set_routine (routineGeneration st) token true (Some token) st)
    end.

Definition startRoutineInsert (k : string) (planner : feedPlanner) (data : obj) : SM unit :=
  let feedID := feed_ID (feed planner) in
  let! st := preparationState feedID in
  let token := next64 (routineToken st) in
  let! c := svc preparations in
  match tryStartInsert planner token (routineGeneration st) data c with
  | None =>
      on_planner k
        (modp (set_lastError "routine preparation worker pool is full; insert was dropped") ;;;
         writeState cfg)
  | Some c =>
      mods (set_preparations c) ;;;
      set_state feedID (set_routine (routineGeneration st) token true (Some token) st)
  end.

Definition tickFeedAsync (t : Z) (k : string) : SM unit :=
  let! fs := svc feeds in
  match fs !! k with
  | None => ret tt
  | Some p =>
      let! busy := hasPriorityPreparation (feed_ID (feed p)) in
      if negb (feedRoutineEnabled (feed p)) then ret tt
      else if negb (mode p =? "running") || (0 <? priorityActive p)%Z || busy then
        on_planner k (writeState cfg)
      else if startupPrimerPending p then
        if Before t (startupPrimerAt p) then on_planner k (writeState cfg)
        else startRoutinePreparation p t true ;;; on_planner k (writeState cfg)
      else
        on_planner k dropCompleted ;;;
        on_planner k (replayPendingItemsIfDue t) ;;;
        let! fs := svc feeds in
        let p := default p (fs !! k) in
        if negb (IsZero (nextRoutineRetryAt p)) && Before t (nextRoutineRetryAt p) then
          on_planner k (writeState cfg)
        else
          let lookahead := if (Lookahead <=? 0)%Z then 2 * Minute else Lookahead in
          if (MaxQueued cfg <=? queuedCount p)%Z ||
             negb (Before (timelineEnd p t) (Add t lookahead)) then on_planner k (writeState cfg)
          else startRoutinePreparation p t false ;;; on_planner k (writeState cfg)
  end.

Definition tickFeeds (t : Z) (completedFeedID : string) : SM unit :=
  let! stop := svc ctxDone in
  if (stop : bool) then ret tt
  else
    let! keys := range_feeds in
    for_each (tickFeedAsync t) (List.filter (fun k => negb (k =? completedFeedID)) keys) ;;;
    if completedFeedID =? "" then ret tt else tickFeedAsync t completedFeedID.

(** ** Priority work *)

Definition releasePriorityVersion (feedID alertID : string) : SM unit :=
  let! sts := svc preparationStates in
  match sts !! feedID with
  | None => ret tt
  | Some st =>
      let! pending := svc priorityPending in
      if match active st with Some a => active_alertID a =? alertID | None => false end then ret tt
      else if existsb (fun j => (job_feedID j =? feedID) && (job_alertID j =? alertID)) pending
      then ret tt
      else set_state feedID (set_versions (delete alertID (priorityVersions st)) st)
  end.

Definition stale_at (t : Z) (j : priorityPreparationJob) : bool :=
  priorityAlertRequestStale (job_data j) t.

Definition pruneStalePriorityPreparations (t : Z) : SM unit :=
  let! pending := svc priorityPending in
  let! fs := svc feeds in
  let removed := List.filter (stale_at t) pending in
  for_each (fun j => match fs !! job_feedID j with
    | Some _ => outside (cleanupSupersededAlertQueueParts (BaseDir cfg) (job_feedID j) (job_alertID j) "")
    | None => ret tt
    end) removed ;;;
  mods (set_priorityPending (List.filter (fun j => negb (stale_at t j)) pending)) ;;;
  for_each (fun j => releasePriorityVersion (job_feedID j) (job_alertID j)) removed.

(** The first pending job whose feed is served and has no active preparation,
    with the jobs around it. *)
Fixpoint startable (s : Service) (before rest : list priorityPreparationJob) :
    option (list priorityPreparationJob * priorityPreparationJob * list priorityPreparationJob) :=
  match rest with
  | [] => None
  | j :: rest' =>
      match feeds s !! job_feedID j, active (stateOf (job_feedID j) s) with
      | Some _, None => Some (before, j, rest')
      | _, _ => startable s (before ++ [j])%list rest'
      end
  end.

(** The feeds whose states the search creates. *)
Definition touch_states (s : Service) : Service :=
  let scanned :=
    match startable s [] (priorityPending s) with
    | Some (before, j, _) => before ++ [j]
    | None => priorityPending s
    end%list in
  set_preparationStates (fold_left (fun m j =>
    match feeds s !! job_feedID j, m !! job_feedID j with
    | Some _, None => <[job_feedID j := newState]> m
    | _, _ => m
    end) scanned (preparationStates s)) s.

(** The loop; each round starts a job, so that the length of the backlog bounds
    the rounds. *)
Fixpoint start_pending (rounds : nat) : SM unit :=
  match rounds with
  | O => ret tt
  | S rounds' =>
      let! found := svc (fun s => startable s [] (priorityPending s)) in
      mods touch_states ;;;
      match found with
      | None => ret tt
      | Some (before, job, rest) =>
          let! fs := svc feeds in
          let! c := svc preparations in
          match fs !! job_feedID job with
          | None => ret tt
          | Some planner =>
              match tryStartPriority planner job c with
              | None => ret tt
              | Some c =>
                  mods (set_preparations c) ;;;
                  mods (set_priorityPending (before ++ rest)%list) ;;;
                  let! st := preparationState (job_feedID job) in
                  set_state (job_feedID job) (set_active
                    (Some (MkActive (job_token job) (job_alertID job) (job_version job))) st) ;;;
                  start_pending rounds'
              end
          end
      end
  end.

Definition startPendingPriorityPreparations : SM unit :=
  let! stop := svc ctxDone in
  if (stop : bool) then ret tt
  else
    let! t := outside now in
    pruneStalePriorityPreparations t ;;;
    let! pending := svc priorityPending in
    start_pending (S (length pending)).

Definition same_request (feedID alertID : string) (j : priorityPreparationJob) : bool :=
  (job_feedID j =? feedID) && (job_alertID j =? alertID).

Definition enqueuePriorityPreparation (k : string) (planner : feedPlanner) (data : obj) :
    SM (option string) :=
  let feedID := feed_ID (feed planner) in
  let! r := outside (normalizePriorityAlertRequest data) in
  let '(data, alertID) := r in
  let! t := outside now in
  if priorityAlertRequestStale data t then
    outside (cleanupSupersededAlertQueueParts (BaseDir cfg) feedID alertID "") ;;;
    on_planner k (modp (set_lastError "") ;;; writeState cfg) ;;;
    ret (Some "priority alert request is stale")
  else
    invalidateRoutinePreparation feedID ;;;
    preparationState feedID ;;;
    let! t := outside now in
    pruneStalePriorityPreparations t ;;;
    let! pending := svc priorityPending in
    let filtered := List.filter (fun j => negb (same_request feedID alertID j)) pending in
    let! max := svc maxPriorityPending in
    let limit := if (max <=? 0)%Z then priorityPreparationBacklog else max in
    if (limit <=? Z.of_nat (length filtered))%Z then
      let e := "priority preparation backlog is full (" +:+ Itoa limit +:+ ")" in
      on_planner k (modp (set_lastError e) ;;; writeState cfg) ;;;
      ret (Some ("enqueue priority alert: " +:+ e))
    else
      mods (set_priorityPending filtered) ;;;
      let! st := preparationState feedID in
      let version := next64 (default 0 (priorityVersions st !! alertID)) in
      set_state feedID (set_versions (<[alertID := version]> (priorityVersions st)) st) ;;;
      match active st with
      | Some a => if active_alertID a =? alertID then cancel_priority a else ret tt
      | None => ret tt
      end ;;;
      let! n := svc nextPreparationToken in
      mods (set_nextPreparationToken (next64 n)) ;;;
      mods (fun s => set_priorityPending (priorityPending s ++
        [MkJob (next64 n) feedID alertID version data])%list s) ;;;
      startPendingPriorityPreparations ;;;
      ret None.

Definition cancelPriorityPreparations (planner : feedPlanner) (data : obj) : SM unit :=
  let feedID := feed_ID (feed planner) in
  let ids := priorityAlertIDs data in
  if (length ids =? 0)%nat then ret tt
  else
    let! st := preparationState feedID in
    set_state feedID (set_versions (fold_left (fun m id => <[id := next64 (default 0 (m !! id))]> m)
      ids (priorityVersions st)) st) ;;;
    mods (fun s => set_priorityPending (List.filter (fun j =>
      negb ((job_feedID j =? feedID) && mem (job_alertID j) ids)) (priorityPending s)) s) ;;;
    match active st with
    | Some a => if mem (active_alertID a) ids then cancel_priority a else ret tt
    | None => ret tt
    end ;;;
    for_each (releasePriorityVersion feedID) ids.

(** ** Results *)

(** [discardRoutinePreparation]: the planner it came with decides. *)
Definition discard_routine (prepared : routinePreparation) : M World unit :=
  discardRoutinePreparation cfg (match r_planner prepared with Some _ => true | None => false end)
    (r_items prepared).

(** One prepared item joins the queue, placed against the programme as it now
    is. *)
Definition append_prepared (item : playlistItem) : PM bool :=
  let! t := io now in
  let! p := gets fst in
  let item := rebasePreparedItem cfg p item t in
  enqueue item.
Definition append_all (items : list playlistItem) : PM unit :=
  for_until append_prepared items ;;; ret tt.

Definition handleRoutinePreparationResult (result : routinePreparationResult) : SM unit :=
  let k := rr_feedID result in
  let prepared := rr_prepared result in
  let! fs := svc feeds in
  match fs !! k with
  | None => ret tt
  | Some _ =>
      let! st := preparationState k in
      (if routineInFlight st && (routineToken st =? rr_token result)%Z then
         cancel_routine k st ;;;
         set_state k (set_routine (routineGeneration st) (routineToken st) false None st)
       else ret tt) ;;;
      if negb (rr_generation result =? routineGeneration st)%Z ||
         negb (routineToken st =? rr_token result)%Z then
        outside (discard_routine prepared) ;;;
        let! t := outside now in tickFeeds t k
      else
        on_planner k (modp (applyRoutinePlanningState (r_planner prepared))) ;;;
        (if rr_insert result then
           whenb (r_ok prepared) (on_planner k (append_all (r_items prepared)))
         else
           whenb (rr_startup result) (on_planner k (modp (set_startupPrimerPending false))) ;;;
           let! fs := svc feeds in
           if r_ok prepared &&
              match fs !! k with
              | Some p => (mode p =? "running") && (priorityActive p =? 0)%Z
              | None => false
              end
           then on_planner k (append_all (r_items prepared))
           else outside (discard_routine prepared)) ;;;
        on_planner k (writeState cfg) ;;;
        let! t := outside now in tickFeeds t k
  end.

(** The commit of a result that is current: the alert goes on air, or the
    failure is recorded and reported. *)
Definition commit_prepared (job : priorityPreparationJob) (prepared : priorityAlertPreparation) :
    PM unit :=
  let! err := commitPriorityAlert cfg prepared in
  match err with
  | Some e =>
      io (discardPriorityAlertPreparation prepared) ;;;
      modp (set_lastError e) ;;;
      publishAutomationDispatchStatus (job_data job) "failed" e
  | None => modp (set_lastError "")
  end ;;;
  writeState cfg.

Definition fail_prepared (job : priorityPreparationJob) (prepared : priorityAlertPreparation)
    (e : string) : PM unit :=
  io (discardPriorityAlertPreparation prepared) ;;;
  modp (set_lastError e) ;;;
  writeState cfg ;;;
  let! p := gets fst in
  publishAutomationDispatchStatus (job_data job) "failed" (lastError p).

Definition handlePriorityPreparationResult (result : priorityPreparationResult) : SM unit :=
  let job := pr_job result in
  let k := job_feedID job in
  let! fs := svc feeds in
  match fs !! k with
  | None => ret tt
  | Some planner =>
      let! st := preparationState k in
      let mine := match active st with
                  | Some a => (active_token a =? job_token job)%Z
                  | None => false
                  end in
      (if mine then
         match active st with Some a => cancel_priority a | None => ret tt end ;;;
         set_state k (set_active None st)
       else ret tt) ;;;
      let isCurrent := (default 0 (priorityVersions st !! job_alertID job) =? job_version job)%Z in
      let! stale :=
        if mine && isCurrent
        then let! t := outside now in ret (priorityAlertRequestStale (job_data job) t)
        else ret false in
      (if negb mine || negb isCurrent || stale then
         on_planner k (io (discardPriorityAlertPreparation (pr_prepared result))) ;;;
         whenb isCurrent
           (let! t := outside now in
            whenb (priorityAlertRequestStale (job_data job) t)
              (outside (cleanupSupersededAlertQueueParts (BaseDir cfg) (feed_ID (feed planner))
                 (job_alertID job) "") ;;;
               on_planner k (publishAutomationDispatchStatus (job_data job) "failed"
                 "priority alert request became stale during preparation"))) ;;;
         startPendingPriorityPreparations
       else
         match pr_err result with
         | Some e =>
             on_planner k (fail_prepared job (pr_prepared result) e) ;;;
             startPendingPriorityPreparations
         | None =>
             on_planner k (commit_prepared job (pr_prepared result)) ;;;
             startPendingPriorityPreparations
         end) ;;;
      (* deferred *)
      releasePriorityVersion k (job_alertID job)
  end.

Definition handlePreparationResult (result : preparationResult) : SM unit :=
  mods (fun s => set_preparations (releaseResultSlot (preparations s)) s) ;;;
  match result with
  | RoutineResult r => handleRoutinePreparationResult r
  | PriorityResult r => handlePriorityPreparationResult r
  end.

(** ** Events *)

(** The feed a player message is about: its planner's key. *)
Definition event_feed (event : obj) : string :=
  let data := mapAt event "data" in
  let feedID := firstText event data ["feed_id"] in
  if feedID =? "" then stringAt event "feed_id" else feedID.

(** The state's id for the planner under a key. *)
Definition with_planner (f : string -> feedPlanner -> SM unit) (k : string) : SM unit :=
  let! fs := svc feeds in
  match fs !! k with
  | Some p => f k p
  | None => ret tt
  end.

Definition on_control (action : string) (k : string) (p : feedPlanner) : SM unit :=
  invalidateRoutinePreparation (feed_ID (feed p)) ;;; on_planner k (applyControl cfg action).

Definition on_insert (data : obj) (k : string) (p : feedPlanner) : SM unit :=
  invalidateRoutinePreparation (feed_ID (feed p)) ;;;
  on_planner k (prepareInsertPosition data) ;;;
  with_planner (fun k p => startRoutineInsert k p data) k.

Definition on_requested (data : obj) (k : string) (p : feedPlanner) : SM unit :=
  let! err := enqueuePriorityPreparation k p data in
  match err with
  | Some e => on_planner k (publishAutomationDispatchStatus data "failed" e)
  | None => on_planner k (publishAutomationDispatchStatus data "accepted" "")
  end.

Definition on_cancelled (data : obj) (k : string) (p : feedPlanner) : SM unit :=
  cancelPriorityPreparations p data ;;;
  invalidateRoutinePreparation (feed_ID (feed p)) ;;;
  on_planner k (cancelPriorityAlerts cfg data) ;;;
  on_planner k (invalidateRoutineAlerts cfg true).

Definition handleEvent (event : obj) : SM unit :=
  let type := stringAt event "type" in
  let data := mapAt event "data" in
  if shouldDeferCAPPlayoutToRust (RustPlayoutEnabled cfg) event then ret tt
  else if type =? "playlist.control" then
    let! ks := matchFeeds (firstText event data ["feed_id"]) in
    for_each (with_planner (on_control (firstText event data ["action"]))) ks
  else if type =? "playlist.insert" then
    let! ks := matchFeeds (firstText event data ["feed_id"]) in
    for_each (with_planner (on_insert data)) ks
  else if type =? "cap.alert.broadcast.requested" then
    let! ks := matchFeedsFromEvent event in
    for_each (with_planner (on_requested (eventDataWithIdentity event))) ks
  else if type =? "cap.alert.cancelled" then
    let! ks := matchFeedsFromEvent event in
    for_each (with_planner (on_cancelled (eventDataWithIdentity event))) ks
  else if type =? "cap.alert.registry.updated" then
    let! ks := matchFeedsFromEvent event in
    for_each (with_planner (fun k p => invalidateRoutinePreparation (feed_ID (feed p)) ;;;
      on_planner k (invalidateRoutineAlerts cfg false))) ks
  else if type =? "playout.started" then
    on_planner (event_feed event) (markStarted cfg (firstText event data ["queue_id"]))
  else if type =? "playout.interrupted" then
    on_planner (event_feed event) (markInterrupted cfg (firstText event data ["queue_id"]))
  else if type =? "playout.completed" then
    on_planner (event_feed event) (markCompleted cfg (firstText event data ["queue_id"]))
  else if type =? "alert.playout.started" then
    let! ks := matchFeedsFromEvent event in
    for_each (with_planner (fun k p => invalidateRoutinePreparation (feed_ID (feed p)) ;;;
      on_planner k (markPriorityStarted cfg))) ks
  else if type =? "alert.playout.completed" then
    let! t := outside now in
    let! last := svc lastAlertAudioCleanup in
    let! last := outside (pruneCompletedAlertAudio cfg last t) in
    mods (set_lastAlertAudioCleanup last) ;;;
    let! ks := matchFeedsFromEvent event in
    for_each (fun k => on_planner k (markPriorityCompleted cfg)) ks
  else if type =? "service.ready" then
    if negb (isPlayoutReadyEvent event) then ret tt
    else let! ks := range_feeds in for_each (fun k => on_planner k replayPendingItems) ks
  else ret tt.

(** ** The loop and the workers *)

(** A worker does its work on its copy of the planner; then it gives its slot
    back and holds the result. *)
Definition finish_worker (before : list worker) (w : worker) (after : list worker) : SM unit :=
  fun s =>
    let '(r, (_, world)) := perform cfg (w_work w) (w_snapshot w, s.2) in
    let c := release_slot (w_work w) (preparations s.1) in
    let w' := MkWorker (w_work w) (w_snapshot w) (w_cancelled w) (Some r) in
    (tt, (set_preparations (set_workers (before ++ w' :: after)%list c) s.1, world)).

(** Its result goes into the channel, and the goroutine ends. *)
Definition send_result (before : list worker) (r : preparationResult) (after : list worker) : SM unit :=
  mods (fun s => set_preparations
    (set_results (results (preparations s) ++ [r])%list
       (set_workers (before ++ after)%list (preparations s))) s).

Definition discard_result (r : preparationResult) : SM unit :=
  match r with
  | RoutineResult r => outside (discard_routine (rr_prepared r))
  | PriorityResult r => outside (discardPriorityAlertPreparation (pr_prepared r))
  end.

(** The connection is over: the result is thrown away with its files. *)
Definition abandon_result (before : list worker) (r : preparationResult) (after : list worker) :
    SM unit :=
  discard_result r ;;;
  mods (fun s => set_preparations
    (releaseResultSlot (set_workers (before ++ after)%list (preparations s))) s).

(** [case result := <-results]. *)
Definition take_result : SM unit :=
  let! c := svc preparations in
  match results c with
  | [] => ret tt
  | r :: rest => mods (set_preparations (set_results rest c)) ;;; handlePreparationResult r
  end.

Definition channel_room (c : preparationCoordinator) : Prop :=
  (length (results c) < routineWorkers c + priorityWorkers c)%nat.

(** One step of the process: of the event loop while it runs, and of the
    workers at any time. *)
Inductive step : Service * World -> Service * World -> Prop :=
| step_event event s : ctxDone s.1 = false -> step s (handleEvent event s).2
| step_tick t s : ctxDone s.1 = false -> step s (tickFeeds t "" s).2
| step_result s : ctxDone s.1 = false -> results (preparations s.1) <> [] -> step s (take_result s).2
| step_stop s : step s (set_ctxDone true s.1, s.2)
| step_work before w after s :
    workers (preparations s.1) = (before ++ w :: after)%list -> w_result w = None ->
    step s (finish_worker before w after s).2
| step_send before w r after s :
    workers (preparations s.1) = (before ++ w :: after)%list -> w_result w = Some r ->
    channel_room (preparations s.1) -> step s (send_result before r after s).2
| step_abandon before w r after s :
    workers (preparations s.1) = (before ++ w :: after)%list -> w_result w = Some r ->
    ctxDone s.1 = true -> step s (abandon_result before r after s).2.

(** States reached in [n] steps. *)
Inductive reaches (s0 : Service * World) : nat -> Service * World -> Prop :=
| reaches_0 : reaches s0 0 s0
| reaches_S n s s' : reaches s0 n s -> step s s' -> reaches s0 (S n) s'.

(** [discardUncommittedPreparations]: after the workers have ended, what is left
    in the channel is thrown away. *)
Fixpoint drain (fuel : nat) : SM unit :=
  match fuel with
  | O => ret tt
  | S fuel' =>
      let! c := svc preparations in
      match results c with
      | [] => ret tt
      | r :: rest =>
          mods (set_preparations (releaseResultSlot (set_results rest c))) ;;;
          match r with
          | RoutineResult r => outside (discard_routine (rr_prepared r))
          | PriorityResult r =>
              on_planner (job_feedID (pr_job r)) (io (discardPriorityAlertPreparation (pr_prepared r)))
          end ;;;
          drain fuel'
      end
  end.
Definition discardUncommittedPreparations : SM unit :=
  let! c := svc preparations in drain (length (results c)).

End service.
