(* ===== verification/AlertQueue.v ===== *)
(** Queueing an alert in one go ([queuePriorityAlert],
    [services/go/internal/playlist/service.go]), and the contract between the
    part that prepares alerts and the part that airs them.

    [LawfulBuilder] is that contract.  [queuePriorityAlert_announces] is proved
    against it; the service's own preparation fulfils it. *)

From S2P Require Import Prelude UnicodeTables GoStrings GoTime GoValue GoPath AlertPacket.
From S2P Require Import PlaylistModel World AlertRequest AudioRetention PlannerState AlertCommit Wav.
From S2P Require Import AudioFiles SameRequest Lead AlertText BridgeClient AlertPrepare.
From S2P Require Import RoutinePlan Preparation.

#[local] Open Scope Z_scope.
#[local] Open Scope string_scope.
#[local] Open Scope haze_scope.

(** The service's own preparation. *)
Definition service_builder `{JSON} `{Env} `{Tools} `{Host} `{Codecs} `{Texts} `{Remote} `{Chance}
    (cfg : loadedConfig) : PriorityBuilder := {|
  preparePriorityAlert data := let! p := gets fst in io (prepare_alert cfg p data) |}.

(** What a builder of alerts promises. *)
Class LawfulBuilder `{Remote} `{Tools} `{PriorityBuilder} (cfg : loadedConfig) : Prop :=
  prepare_lawful : forall data p w,
    let '((prepared, err), (p', w')) := preparePriorityAlert data (p, w) in
    p' = p /\ exists audio, preparation_outcome cfg p w audio prepared err w'.

Section queue.
Context `{JSON} `{Env} `{PriorityBuilder} (cfg : loadedConfig).

(** The end of a request that is not aired. *)
Definition withdraw_alert (data : obj) (lastError reason : string) : PM unit :=
  modp (set_lastError lastError) ;;;
  writeState cfg ;;;
  publishAutomationDispatchStatus data "failed" reason.

Definition queuePriorityAlert (data : obj) : PM unit :=
  let! r := io (normalizePriorityAlertRequest data) in
  let '(data, alertID) := r in
  let! p := gets fst in
  let cleanup := io (cleanupSupersededAlertQueueParts (BaseDir cfg) (feed_ID (feed p)) alertID "") in
  let! t := io now in
  if priorityAlertRequestStale data t then
    cleanup ;;; withdraw_alert data "" "priority alert request is stale"
  else
    let! r := preparePriorityAlert data in
    let '(prepared, err) := r in
    match err with
    | Some e => withdraw_alert data e e
    | None =>
        let! t := io now in
        if priorityAlertRequestStale data t then
          cleanup ;;; io (discardPriorityAlertPreparation prepared) ;;;
          withdraw_alert data "" "priority alert request became stale during preparation"
        else
          let! err := commitPriorityAlert cfg prepared in
          match err with
          | Some e => withdraw_alert data e e
          | None => modp (set_lastError "") ;;; writeState cfg
          end
    end.
End queue.

(** ** Facts: messages *)

(** The announcement of an alert to the player. *)
Definition announces (m : obj) : Prop := stringAt m "type" = "cap.alert.audio.ready".

(** No alert is announced between two worlds. *)
Definition quiet (w w' : World) : Prop := forall m, In m (published w') -> announces m -> In m (published w).

Lemma quiet_refl w w' : published w' = published w -> quiet w w'.
Proof. intros E m. by rewrite E. Qed.
Lemma quiet_trans w w1 w2 : quiet w w1 -> quiet w1 w2 -> quiet w w2.
Proof. intros H1 H2 m Hm Ha. apply H1; [|done]. by apply H2. Qed.
Lemma quiet_sent types w w' sent : ~ In "cap.alert.audio.ready" types ->
  published w' = (published w ++ sent)%list -> Forall (sent_type types) sent -> quiet w w'.
Proof.
  intros Ht E Hs m Hm Ha. rewrite E, in_app_iff in Hm. destruct Hm as [|Hm]; [done|].
  rewrite List.Forall_forall in Hs. specialize (Hs m Hm). unfold sent_type in Hs. by rewrite Ha in Hs.
Qed.

Section quiet.
Context `{JSON} `{Env} `{Tools} `{Remote} (cfg : loadedConfig).

Lemma quiet_failed data reason p w :
  let '(_, (p', w')) := publishAutomationDispatchStatus data "failed" reason (p, w) in quiet w w'.
Proof.
  unfold publishAutomationDispatchStatus, mbind, gets, io, ret. cbn [fst snd].
  destruct (_ || _); [by apply quiet_refl|]. replace (ToLower (TrimSpace "failed")) with "failed" by by vm_compute.
  destruct (negb _); [by apply quiet_refl|]. cbn [fst snd].
  match goal with |- context [Publish ?m w] =>
    destruct (within_Publish (fun _ => True) ["automation.dispatch.failed"] m (or_introl eq_refl) w) as (_ & sent & E & Hs);
    destruct (Publish m w) as [e w'] end.
  cbn [fst snd] in *. apply (quiet_sent ["automation.dispatch.failed"] w w' sent); [|done|done].
  by intros [E'|[]].
Qed.

Lemma quiet_writeState p w : let '(_, (p', w')) := writeState cfg (p, w) in quiet w w'.
Proof.
  pose proof (writeState_frame cfg p w) as Hf. destruct (writeState cfg (p, w)) as [u [p' w']].
  by apply quiet_refl, Hf.
Qed.

Lemma quiet_give_up data e reason p w : let '(_, (p', w')) := withdraw_alert cfg data e reason (p, w) in quiet w w'.
Proof.
  unfold withdraw_alert. rewrite mbind_eq. unfold modp. cbn [modify fst snd]. rewrite mbind_eq.
  pose proof (quiet_writeState (set_lastError e p) w) as Hw.
  destruct (writeState cfg (set_lastError e p, w)) as [u [p1 w1]]. cbn [snd].
  pose proof (quiet_failed data reason p1 w1) as Hs.
  destruct (publishAutomationDispatchStatus _ _ _ _) as [u' [p2 w2]]. by eapply quiet_trans.
Qed.

Lemma quiet_cleanup feedID alertID w :
  quiet w (cleanupSupersededAlertQueueParts (BaseDir cfg) feedID alertID "" w).2.
Proof.
  apply quiet_refl. apply (cleanup_keeps_temporary _ _ _ _ ".tmp"). by exists "".
Qed.

Lemma quiet_discard prepared w : quiet w (discardPriorityAlertPreparation prepared w).2.
Proof.
  apply quiet_refl. unfold discardPriorityAlertPreparation. by destruct (_ =? _).
Qed.
End quiet.

(** ** Facts: paths of the queue and of the state file *)

Definition file_name (c : string) : Prop := plain c /\ c <> "..".

Lemma file_name_literal c :
  negb (c =? "") && negb (c =? ".") && negb (c =? "..") && negb (contains_byte slash c) = true -> file_name c.
Proof.
  intros Hb. bool_hyps. split; [|done]. split; [done|]. split; [done|].
  intros Hin%contains_byte_spec. congruence.
Qed.

Lemma resolved_below b l : l <> [] -> Forall file_name l ->
  resolved (JoinPath (b :: l)) = (resolve (IsAbs b) [] (components b) ++ l)%list.
Proof.
  intros Hl Hf.
  assert (Hc : Forall (fun c => c <> "" /\ ~ In slash (bytes_of c)) l)
    by (eapply List.Forall_impl; [|exact Hf]; by intros c [(? & ? & ?) ?]).
  assert (Hd : no_dots l) by (eapply List.Forall_impl; [|exact Hf]; by intros c [(? & ? & ?) ?]).
  assert (Hne : Forall (fun c => c <> "") l) by (eapply List.Forall_impl; [|exact Hc]; by intros c []).
  unfold JoinPath. destruct (decide (b = "")) as [->|Hb].
  - rewrite filter_cons_False by tauto. rewrite filter_nonempty by done.
    destruct l as [|c l]; [done|]. rewrite resolved_Clean. unfold resolved. rewrite components_Join by done.
    assert (Habs : IsAbs (unresolve false (c :: l)) = false).
    { apply IsAbs_unresolve. eapply List.Forall_impl; [|exact Hf]. by intros ? []. }
    change (unresolve false (c :: l)) with (Join (c :: l) "/") in Habs.
    by rewrite Habs, resolve_no_dots.
  - rewrite filter_cons_True by done. rewrite filter_nonempty by done. rewrite resolved_Clean.
    destruct l as [|c l]; [done|]. change (Join (b :: c :: l) "/") with (b +:+ "/" +:+ Join (c :: l) "/").
    unfold resolved. rewrite IsAbs_app, components_app_slash, components_Join by done.
    by rewrite resolve_app_no_dots.
Qed.

Lemma state_queue_apart `{Env} cfg p dir id ext : safe_id id -> (2 < String.length ext)%nat ->
  ~ In slash (bytes_of ext) -> file_name dir ->
  JoinPath [BaseDir cfg; "runtime"; dir; "alerts"; id +:+ ext] <> statePath cfg p.
Proof.
  intros Hid Hl Hs Hdir E. apply (f_equal resolved) in E. unfold statePath in E.
  assert (Hrun : file_name "runtime") by by apply file_name_literal.
  assert (Hpl : file_name "playlists") by by apply file_name_literal.
  assert (Hal : file_name "alerts") by by apply file_name_literal.
  assert (Hn : file_name (id +:+ ext)) by by apply safe_id_plain.
  assert (Hn' : file_name (safeID (feed_ID (feed p)) +:+ ".json"))
    by (apply safe_id_plain; [by eexists|simpl; lia|apply slash_json]).
  rewrite !resolved_below in E by (done || (repeat (apply Forall_cons_2; [assumption|]); apply Forall_nil_2)).
  apply app_inv_head in E. by injection E.
Qed.

(** ** Properties *)

(** An alert is on the queue: its manifest, and its audio of the length the
    manifest says; the audio of a SAME alert is assembled around a voice. *)
Definition on_queue `{Tools} (cfg : loadedConfig) (p : feedPlanner) (w : World) : Prop :=
  exists manifest b,
    safe_id (man_ID manifest) /\ man_FeedIDs manifest = [feed_ID (feed p)] /\
    (exists t, files w !! alertManifestPath (BaseDir cfg) (man_ID manifest) = Some (MkFile (ManifestFile manifest) t)) /\
    content_at (alertAudioPath (BaseDir cfg) (man_ID manifest)) w = Some b /\
    man_AudioBytes manifest = len b /\
    (man_Type manifest = "same_alert" -> exists preRoll header voice eom postRoll rate ch,
       voice <> [] /\ b = assembled preRoll header voice eom postRoll rate ch).

Section announcement.
Context `{JSON} `{Env} `{Tools} `{Remote} `{PriorityBuilder} (cfg : loadedConfig) `{!LawfulBuilder cfg}.

Lemma on_queue_state p w u w' : on_queue cfg p w ->
  (forall k, k <> statePath cfg u -> files w' !! k = files w !! k) -> on_queue cfg p w'.
Proof.
  intros (m & b & Hid & Hf & [t Hm] & Hb & Hrest) Hk. exists m, b. split_and!; [done|done| | |apply Hrest|apply Hrest].
  - exists t. rewrite Hk; [done|].
    apply state_queue_apart; [done|simpl; lia|apply slash_json|by apply file_name_literal].
  - unfold content_at. rewrite Hk; [done|].
    apply state_queue_apart; [done|simpl; lia|apply slash_pcm|by apply file_name_literal].
Qed.

(** Preparing and committing, with nothing but clock readings in between. *)
Lemma prepare_and_commit data p w :
  let '((prepared, err), (p1, w1)) := preparePriorityAlert data (p, w) in
  p1 = p /\ quiet w w1 /\
  match err with
  | None => forall w1', files w1' = files w1 -> published w1' = published w1 ->
      let '(err, (p2, w2)) := commitPriorityAlert cfg prepared (p, w1') in
      p2 = p /\ match err with None => on_queue cfg p w2 | Some _ => quiet w w2 end
  | Some _ => True
  end.
Proof.
  pose proof (prepare_lawful data p w) as Hl.
  destruct (preparePriorityAlert data (p, w)) as [[prepared err] [p1 w1]].
  destruct Hl as (-> & audio & _ & (sent & Hsent & Htypes) & Hres). split; [done|].
  assert (Hq : quiet w w1).
  { apply (quiet_sent request_types w w1 sent); [|done|done]. intros [E|[E|[]]]; discriminate E. }
  split; [done|]. destruct err as [e|]; [done|].
  destruct Hres as (Ha & Hpaths & Hfeeds & b & Hb & Hlen & Hsame).
  intros w1' Hf1 Hp1. pose proof (commit_outcome cfg prepared p w1' Hpaths) as Hc.
  destruct (commitPriorityAlert cfg prepared (p, w1')) as [err [p2 w2]]. destruct Hc as [-> Hc]. split; [done|].
  destruct err as [e|]; [eapply quiet_trans; [exact Hq|apply quiet_refl; congruence]|].
  destruct Hc as (Hm & f & Hf0 & Hf). destruct Hpaths as (Hid & Hfinal & _).
  exists (Manifest prepared), b. split_and!; try done. rewrite <- Hfinal. unfold content_at in *.
  rewrite Hf. rewrite Ha, Hf1 in Hf0. by rewrite Hf0 in Hb.
Qed.

Lemma io_bind {A B} (m : M World A) (k : A -> PM B) q w0 :
  mbind k (io m) (q, w0) = k (m w0).1 (q, (m w0).2).
Proof. unfold mbind, io. cbn [fst snd]. by destruct (m w0). Qed.

(** C2: an alert is announced only when it can be played.  For every builder of
    alerts that keeps its contract, queueing an alert either announces nothing,
    or leaves on the queue a manifest for this feed and the alert's audio, of
    exactly the length the manifest says, a SAME alert's with a voice between
    header and end of message, and the planner reports no error. *)
Theorem queuePriorityAlert_announces (data : obj) (p : feedPlanner) (w : World) :
  let '(_, (p', w')) := queuePriorityAlert cfg data (p, w) in
  quiet w w' \/ on_queue cfg p w' /\ lastError p' = "".
Proof.
  unfold queuePriorityAlert. rewrite io_bind.
  assert (Hn : published (normalizePriorityAlertRequest data w).2 = published w).
  { assert (Ho : only (fun _ => False) (normalizePriorityAlertRequest data))
      by (unfold normalizePriorityAlertRequest; only_walk). apply Ho. }
  destruct (normalizePriorityAlertRequest data w) as [[data' alertID] w1]. cbn [fst snd] in *.
  apply quiet_refl in Hn. rewrite mbind_eq. cbn [gets fst snd]. cbv zeta. rewrite io_bind. cbn [now fst snd].
  set (w2 := MkWorld _ _ _ _ _). assert (Hq2 : quiet w w2) by exact Hn.
  destruct (priorityAlertRequestStale data' (clock (reads w1))).
  { rewrite io_bind. pose proof (quiet_cleanup cfg (feed_ID (feed p)) alertID w2) as Hc.
    destruct (cleanupSupersededAlertQueueParts _ _ _ _ w2) as [u w3]. cbn [fst snd] in *.
    pose proof (quiet_give_up cfg data' "" "priority alert request is stale" p w3) as Hg.
    destruct (withdraw_alert _ _ _ _ _) as [u' [p4 w4]]. left. eauto using quiet_trans. }
  rewrite mbind_eq. pose proof (prepare_and_commit data' p w2) as Hp.
  destruct (preparePriorityAlert data' (p, w2)) as [[prepared err] [p1 w3]].
  destruct Hp as (-> & Hq3 & Hc). cbn [fst snd].
  assert (Hq : quiet w w3) by eauto using quiet_trans. destruct err as [e|].
  { pose proof (quiet_give_up cfg data' e e p w3) as Hg.
    destruct (withdraw_alert _ _ _ _ _) as [u' [p4 w4]]. left. eauto using quiet_trans. }
  rewrite io_bind. cbn [now fst snd]. set (w4 := MkWorld _ _ _ _ _). assert (Hq4 : quiet w w4) by exact Hq.
  destruct (priorityAlertRequestStale data' (clock (reads w3))).
  { rewrite io_bind. pose proof (quiet_cleanup cfg (feed_ID (feed p)) alertID w4) as Hc4.
    destruct (cleanupSupersededAlertQueueParts _ _ _ _ w4) as [u w5]. cbn [fst snd] in *. rewrite io_bind.
    pose proof (quiet_discard prepared w5) as Hd.
    destruct (discardPriorityAlertPreparation prepared w5) as [u5 w6]. cbn [fst snd] in *.
    pose proof (quiet_give_up cfg data' "" "priority alert request became stale during preparation" p w6) as Hg.
    destruct (withdraw_alert _ _ _ _ _) as [u' [p7 w7]]. left. eauto 6 using quiet_trans. }
  rewrite mbind_eq. specialize (Hc w4 eq_refl eq_refl).
  destruct (commitPriorityAlert cfg prepared (p, w4)) as [err [p5 w5]]. destruct Hc as [-> Hc]. cbn [fst snd].
  destruct err as [e|].
  { pose proof (quiet_give_up cfg data' e e p w5) as Hg.
    destruct (withdraw_alert _ _ _ _ _) as [u' [p6 w6]]. left. eauto using quiet_trans. }
  rewrite mbind_eq. cbn [modp modify fst snd]. pose proof (writeState_frame cfg (set_lastError "" p) w5) as Hw.
  destruct (writeState cfg (set_lastError "" p, w5)) as [u [p6 w6]]. destruct Hw as (Hbare & _ & Hk).
  right. split; [by eapply on_queue_state|]. by apply (f_equal lastError) in Hbare.
Qed.
End announcement.

(** ** The service's own builder *)

Lemma service_lawful `{JSON} `{Env} `{Tools} `{Host} `{Codecs} `{Texts} `{Remote} `{Chance} cfg :
  LawfulBuilder (H1 := service_builder cfg) cfg.
Proof.
  intros data p w. cbn. pose proof (prepare_alert_outcome cfg p data w) as Ho.
  unfold mbind, io, gets. cbn [fst snd]. destruct (prepare_alert cfg p data w) as [[prepared err] w'].
  by split.
Qed.

Definition empty_world : World := MkWorld 0 0 ∅ [] None.

(** A planner that is connected, and an alert that is spoken and aired. *)
Lemma queuePriorityAlert_announces_witness :
  on_queue sample_config sample_planner
    (queuePriorityAlert (H1 := service_builder sample_config) sample_config spoken_request
       (sample_planner, empty_world)).2.2.
Proof.
  pose proof (queuePriorityAlert_announces (H3 := service_builder sample_config) sample_config
    (LawfulBuilder0 := service_lawful sample_config) spoken_request sample_planner empty_world) as Ho.
  set (run := queuePriorityAlert (H1 := service_builder sample_config) sample_config spoken_request
    (sample_planner, empty_world)) in *.
  assert (Ha : existsb (fun m => stringAt m "type" =? "cap.alert.audio.ready") (published run.2.2) = true)
    by (by vm_compute).
  destruct run as [u [p' w']]. cbn [fst snd] in *. destruct Ho as [Hq|[Ho _]]; [|exact Ho].
  apply existsb_exists in Ha as (m & Hm & Ht). apply String.eqb_eq in Ht. destruct (Hq m Hm Ht).
Defined.
