(* ===== verification/PreparationSafety.v ===== *)
(** Safety of the preparation work ([Preparation.v]): what holds of the service
    in every state the event loop and the workers can reach.

    The proofs use a small Hoare logic over the service's operations.  [Inv] is
    the invariant; [same_view] says that two states cannot be told apart by it,
    and [quiet] operations keep the view. *)

From S2P Require Import Prelude UnicodeTables GoStrings GoTime GoValue GoPath AlertPacket.
From S2P Require Import PlaylistModel World AlertRequest AudioRetention PlannerState.
From S2P Require Import AlertCommit RoutinePlan Preparation.

#[local] Open Scope Z_scope.
#[local] Open Scope string_scope.
#[local] Open Scope haze_scope.

(** ** What is in preparation *)

Definition work_jobs (w : work) : list priorityPreparationJob :=
  match w with PriorityWork j => [j] | _ => [] end.
Definition result_jobs (r : preparationResult) : list priorityPreparationJob :=
  match r with PriorityResult r => [pr_job r] | _ => [] end.
Definition work_routines (w : work) : list (string * Z) :=
  match w with RoutineWork f t _ _ _ | InsertWork f t _ _ => [(f, t)] | _ => [] end.
Definition result_routines (r : preparationResult) : list (string * Z) :=
  match r with RoutineResult r => [(rr_feedID r, rr_token r)] | _ => [] end.

(** Alert requests, and feeds with tokens of routine work, that a worker or the
    result channel holds. *)
Definition inflight (c : preparationCoordinator) : list priorityPreparationJob :=
  (flat_map (work_jobs ∘ w_work) (workers c) ++ flat_map result_jobs (results c))%list.
Definition routines (c : preparationCoordinator) : list (string * Z) :=
  (flat_map (work_routines ∘ w_work) (workers c) ++ flat_map result_routines (results c))%list.

Definition answers (w : work) (r : preparationResult) : Prop :=
  work_jobs w = result_jobs r /\ work_routines w = result_routines r.

Definition is_priority (w : work) : bool := match w with PriorityWork _ => true | _ => false end.
Definition preparing (priority : bool) (w : worker) : bool :=
  match w_result w with
  | None => Bool.eqb (is_priority (w_work w)) priority
  | Some _ => false
  end.

(** The coordinator's channels agree with its workers. *)
Record slots_ok (c : preparationCoordinator) : Prop := {
  so_results : (resultSlots c = length (workers c) + length (results c))%nat;
  so_sizes : routineWorkers c = routinePreparationWorkerLimit /\
    priorityWorkers c = priorityPreparationWorkerLimit;
  so_capacity : (resultSlots c <= routineWorkers c + priorityWorkers c)%nat;
  so_routine : routineSlots c = length (List.filter (preparing false) (workers c));
  so_routine_cap : (routineSlots c <= routineWorkers c)%nat;
  so_priority : prioritySlots c = length (List.filter (preparing true) (workers c));
  so_priority_cap : (prioritySlots c <= priorityWorkers c)%nat;
  so_answers w r : In w (workers c) -> w_result w = Some r -> answers (w_work w) r }.

(** ** The invariant *)

Definition ids (s : Service) : gmap string string := feed_ID ∘ feed <$> feeds s.
Definition versions (s : Service) (f a : string) : option Z := priorityVersions (stateOf f s) !! a.
Definition as_active (j : priorityPreparationJob) : activePriorityPreparation :=
  MkActive (job_token j) (job_alertID j) (job_version j).
Definition request_key (j : priorityPreparationJob) : string * string := (job_feedID j, job_alertID j).

(** A newer request, or a cancellation, has come for the alert of [j]. *)
Definition superseded (s : Service) (j : priorityPreparationJob) : Prop :=
  exists v, versions s (job_feedID j) (job_alertID j) = Some v /\ job_version j < v.

(** A request followed through a step. *)
Inductive ghost :=
| Untracked
| Dead (j : priorityPreparationJob)    (* in preparation and superseded *)
| Gone (j : priorityPreparationJob).   (* no longer in preparation nor waiting *)

(** [js] and [rs] are work whose results are being handled; [bound] bounds the
    version counters of a feed. *)
Record Inv (g : ghost) (js : list priorityPreparationJob) (rs : list (string * Z))
    (bound : string -> Z) (s : Service) : Prop := {
  inv_ids k id : ids s !! k = Some id -> id = k;
  inv_slots : slots_ok (preparations s);
  inv_one : NoDup (map job_feedID (js ++ inflight (preparations s)));
  inv_active f a : active (stateOf f s) = Some a <->
    exists j, In j (js ++ inflight (preparations s))%list /\ job_feedID j = f /\ as_active j = a;
  inv_served j : In j (js ++ inflight (preparations s) ++ priorityPending s)%list ->
    is_Some (ids s !! job_feedID j);
  inv_version j : In j (js ++ inflight (preparations s))%list ->
    exists v, versions s (job_feedID j) (job_alertID j) = Some v /\ job_version j <= v;
  inv_pending j : In j (priorityPending s) ->
    versions s (job_feedID j) (job_alertID j) = Some (job_version j);
  inv_distinct : NoDup (map request_key (priorityPending s));
  inv_bound f a v : versions s f a = Some v -> 0 <= v <= bound f;
  inv_backlog : Z.of_nat (length (priorityPending s)) <= priorityPreparationBacklog;
  inv_limit : maxPriorityPending s = priorityPreparationBacklog;
  inv_routine f : is_Some (ids s !! f) -> routineInFlight (stateOf f s) = true ->
    In (f, routineToken (stateOf f s)) (rs ++ routines (preparations s))%list;
  inv_ghost : match g with
    | Untracked => True
    | Dead j => In j (js ++ inflight (preparations s))%list /\ superseded s j
    | Gone j => ~ In j (js ++ inflight (preparations s) ++ priorityPending s)%list
    end }.

(** ** States the invariant cannot tell apart *)

Definition same_view (s s' : Service) : Prop :=
  ids s' = ids s /\ preparations s' = preparations s /\ (forall f, stateOf f s' = stateOf f s) /\
  priorityPending s' = priorityPending s /\ maxPriorityPending s' = maxPriorityPending s.

Lemma same_view_refl s : same_view s s.
Proof. done. Qed.
Lemma same_view_trans s1 s2 s3 : same_view s1 s2 -> same_view s2 s3 -> same_view s1 s3.
Proof.
  intros (? & ? & Ha & ? & ?) (? & ? & Hb & ? & ?). split_and!; congruence.
Qed.

Lemma Inv_view g js rs bound s s' : same_view s s' -> Inv g js rs bound s -> Inv g js rs bound s'.
Proof.
  intros (Hi & Hc & Hst & Hp & Hm) [].
  split; unfold superseded, versions in *; setoid_rewrite Hst || idtac; rewrite ?Hi, ?Hc, ?Hp, ?Hm; try done.
  destruct g; [done|by rewrite Hst|done].
Qed.

(** ** A Hoare logic for the service *)

Definition hoare {A} (P : Service * World -> Prop) (m : SM A) (Q : A -> Service * World -> Prop) :
    Prop :=
  forall s, P s -> Q (m s).1 (m s).2.

Lemma hoare_bind {A B} (f : A -> SM B) (m : SM A) P Q R :
  hoare P m Q -> (forall a, hoare (Q a) (f a) R) -> hoare P (mbind f m) R.
Proof. intros Hm Hf s Hs. rewrite mbind_eq. apply Hf, Hm, Hs. Qed.
Lemma hoare_seq {A B} (m : SM A) (k : SM B) P Q R :
  hoare P m (fun _ => Q) -> hoare Q k R -> hoare P (m ;;; k) R.
Proof. intros Hm Hk. by eapply hoare_bind. Qed.
Lemma hoare_ret {A} (a : A) (P : Service * World -> Prop) : hoare P (ret a) (fun b s => b = a /\ P s).
Proof. by intros s Hs. Qed.
Lemma hoare_svc {A} (f : Service -> A) (P : Service * World -> Prop) :
  hoare P (svc f) (fun a s => a = f s.1 /\ P s).
Proof. by intros s Hs. Qed.
Lemma hoare_mods f (P Q : Service * World -> Prop) :
  (forall s w, P (s, w) -> Q (f s, w)) -> hoare P (mods f) (fun _ => Q).
Proof. intros Hf [s w] Hs. by apply Hf. Qed.
Lemma hoare_pre {A} P P' (m : SM A) Q :
  (forall s, P s -> P' s) -> hoare P' m Q -> hoare P m Q.
Proof. intros HP Hm s Hs. apply Hm, HP, Hs. Qed.
Lemma hoare_post {A} P (m : SM A) (Q Q' : A -> Service * World -> Prop) :
  hoare P m Q -> (forall a s, Q a s -> Q' a s) -> hoare P m Q'.
Proof. intros Hm HQ s Hs. apply HQ, Hm, Hs. Qed.
Lemma hoare_fact {A} (F : Prop) P (m : SM A) Q :
  (F -> hoare P m Q) -> hoare (fun s => F /\ P s) m Q.
Proof. intros Hm s [HF Hs]. by apply Hm. Qed.
Lemma hoare_for_each {A} (f : A -> SM unit) l (P : Service * World -> Prop) :
  (forall a, In a l -> hoare P (f a) (fun _ => P)) -> hoare P (for_each f l) (fun _ => P).
Proof.
  intros Hf s Hs. pose proof (for_each_ind P f l s Hs) as Hind.
  apply Hind. intros a s' Ha Hs'. by apply (Hf a Ha).
Qed.

(** Predicates on the service alone that the view decides. *)
Definition on_svc (P : Service -> Prop) (s : Service * World) : Prop := P s.1.
Definition viewed (P : Service -> Prop) : Prop := forall s s', same_view s s' -> P s -> P s'.
Definition quiet {A} (m : SM A) : Prop := forall s, same_view s.1 (m s).2.1.

Lemma hoare_quiet {A} (m : SM A) P :
  quiet m -> viewed P -> hoare (on_svc P) m (fun _ => on_svc P).
Proof. intros Hq HP s Hs. by apply (HP s.1). Qed.

Create HintDb quiet.
Lemma quiet_ret {A} (a : A) : quiet (ret a).
Proof. done. Qed.
Lemma quiet_svc {A} (f : Service -> A) : quiet (svc f).
Proof. done. Qed.
Lemma quiet_outside {A} (m : M World A) : quiet (outside m).
Proof. intros [s w]. unfold outside. by destruct (m (s, w).2). Qed.
Lemma quiet_bind {A B} (f : A -> SM B) (m : SM A) :
  quiet m -> (forall a, quiet (f a)) -> quiet (mbind f m).
Proof. intros Hm Hf s. rewrite mbind_eq. eapply same_view_trans; [apply Hm|apply Hf]. Qed.
Lemma quiet_whenb (b : bool) m : quiet m -> quiet (whenb b m).
Proof. intros. unfold whenb. by case_match. Qed.
Lemma quiet_for_each {A} (f : A -> SM unit) l : (forall a, quiet (f a)) -> quiet (for_each f l).
Proof.
  intros Hf s. apply (for_each_ind (fun s' => same_view s.1 s'.1)); [apply same_view_refl|].
  intros a s' _ Hs. eapply same_view_trans; [exact Hs|apply Hf].
Qed.
#[export] Hint Resolve quiet_ret quiet_svc quiet_outside : quiet.

Lemma stateOf_insert f st f' s :
  stateOf f' (set_preparationStates (<[f := st]> (preparationStates s)) s) =
  if decide (f = f') then st else stateOf f' s.
Proof.
  unfold stateOf. cbn. case_decide as E; [subst; by rewrite lookup_insert_eq|by rewrite lookup_insert_ne].
Qed.

Lemma quiet_preparationState f : quiet (preparationState f).
Proof.
  intros [s w]. unfold preparationState. cbn. split_and!; try done.
  intros f'. rewrite stateOf_insert. by case_decide; subst.
Qed.
Lemma quiet_range_feeds `{MapOrder} : quiet range_feeds.
Proof. by intros [s w]. Qed.
#[export] Hint Resolve quiet_preparationState quiet_range_feeds : quiet.
Lemma quiet_matchFeeds `{MapOrder} k : quiet (matchFeeds k).
Proof.
  unfold matchFeeds. cbv zeta. case_match; [auto with quiet|].
  apply quiet_bind; [auto with quiet|]. intros fs. case_match; auto with quiet.
Qed.
Lemma quiet_match_each `{MapOrder} l out : quiet (match_each l out).
Proof.
  revert out. induction l as [|k l IH]; intros out; simpl; [auto with quiet|].
  apply quiet_bind; [apply quiet_matchFeeds|]. intros found.
  apply quiet_bind; [auto with quiet|]. intros fs. apply IH.
Qed.
Lemma quiet_matchFeedsFromEvent `{MapOrder} `{JSON} e : quiet (matchFeedsFromEvent e).
Proof. apply quiet_match_each. Qed.

(** An operation of a planner that keeps its feed is quiet. *)
Definition feed_kept {A} (m : PM A) : Prop := forall s, feed (m s).2.1 = feed s.1.

Lemma quiet_on_planner k m : feed_kept m -> quiet (on_planner k m).
Proof.
  intros Hm [s w]. unfold on_planner. cbn. destruct (feeds s !! k) as [p|] eqn:E; [|done].
  specialize (Hm (p, w)). destruct (m (p, w)) as [u [p' w']]. cbn in *. split_and!; try done.
  unfold ids. cbn. apply map_eq. intros k'. rewrite !lookup_fmap.
  destruct (decide (k = k')) as [->|]; [|by rewrite lookup_insert_ne].
  rewrite lookup_insert_eq, E. cbn. by rewrite Hm.
Qed.

(** ** Planner operations keep the feed *)

Create HintDb feeds.
Lemma feed_kept_ret {A} (a : A) : feed_kept (ret a).
Proof. done. Qed.
Lemma feed_kept_gets {A} (f : feedPlanner * World -> A) : feed_kept (gets f).
Proof. done. Qed.
Lemma feed_kept_io {A} (m : M World A) : feed_kept (io m).
Proof. intros [p w]. unfold io. by destruct (m (p, w).2). Qed.
Lemma feed_kept_modp f : (forall p, feed (f p) = feed p) -> feed_kept (modp f).
Proof. intros Hf [p w]. apply Hf. Qed.
Lemma feed_kept_bind {A B} (f : A -> PM B) (m : PM A) :
  feed_kept m -> (forall a, feed_kept (f a)) -> feed_kept (mbind f m).
Proof. intros Hm Hf s. rewrite mbind_eq. etrans; [apply Hf|apply Hm]. Qed.
Lemma feed_kept_whenb (b : bool) m : feed_kept m -> feed_kept (whenb b m).
Proof. intros. unfold whenb. by case_match. Qed.
Lemma feed_kept_for_until {A} (f : A -> PM bool) l :
  (forall a, feed_kept (f a)) -> feed_kept (for_until f l).
Proof.
  intros Hf. induction l as [|a l IH]; simpl; [done|].
  apply feed_kept_bind; [done|]. intros b. by case_match.
Qed.
Lemma feed_kept_for_each {A} (f : A -> PM unit) l : (forall a, feed_kept (f a)) -> feed_kept (for_each f l).
Proof. intros Hf. induction l as [|a l IH]; simpl; [done|]. by apply feed_kept_bind. Qed.
#[export] Hint Resolve feed_kept_ret feed_kept_gets feed_kept_io : feeds.

(** Walk through the statements of an operation. *)
Ltac keep_feed := repeat first
  [ solve [eauto with feeds]
  | apply feed_kept_bind; intros
  | apply feed_kept_modp; intros []; reflexivity
  | apply feed_kept_whenb
  | apply feed_kept_for_until; intros
  | apply feed_kept_for_each; intros
  | progress cbv zeta
  | progress case_match ].

Section planner_operations.
Context `{JSON} `{Env} (cfg : loadedConfig).

Lemma feed_kept_writeState : feed_kept (writeState cfg).
Proof.
  intros [p w]. pose proof (writeState_frame cfg p w) as Hf.
  destruct (writeState cfg (p, w)) as [u [p' w']]. destruct Hf as [Hb _].
  by apply bare_fields in Hb as (_ & Hfeed & _).
Qed.
#[local] Hint Resolve feed_kept_writeState : feeds.
Lemma feed_kept_publishPlayoutControl a : feed_kept (publishPlayoutControl a).
Proof. unfold publishPlayoutControl. keep_feed. Qed.
#[local] Hint Resolve feed_kept_publishPlayoutControl : feeds.

Lemma feed_kept_applyControl a : feed_kept (applyControl cfg a).
Proof.
  unfold applyControl. apply feed_kept_bind; [|intros; keep_feed].
  apply feed_kept_modp. intros p. unfold control_mode. by repeat case_match.
Qed.
Lemma feed_kept_markPriorityStarted : feed_kept (markPriorityStarted cfg).
Proof. unfold markPriorityStarted. keep_feed. Qed.
Lemma feed_kept_markPriorityCompleted : feed_kept (markPriorityCompleted cfg).
Proof. unfold markPriorityCompleted. keep_feed. Qed.
Lemma feed_kept_markStarted q : feed_kept (markStarted cfg q).
Proof. unfold markStarted. keep_feed. Qed.
Lemma feed_kept_markInterrupted q : feed_kept (markInterrupted cfg q).
Proof. unfold markInterrupted. keep_feed. Qed.
Lemma feed_kept_markCompleted q : feed_kept (markCompleted cfg q).
Proof.
  unfold markCompleted, prunePlaylistAudio.
  apply feed_kept_bind; [apply feed_kept_modp; intros p; by case_match|intros _].
  apply feed_kept_bind; [|intros _; keep_feed].
  apply feed_kept_modp. intros p. unfold after_current. by repeat case_match.
Qed.
Lemma feed_kept_dropCompleted : feed_kept dropCompleted.
Proof. unfold dropCompleted. keep_feed. Qed.
Lemma feed_kept_publish_or_stop i : feed_kept (publish_or_stop i).
Proof. unfold publish_or_stop, publishReady. keep_feed. Qed.
#[local] Hint Resolve feed_kept_publish_or_stop : feeds.
Lemma feed_kept_replayItemsAt t b : feed_kept (replayItemsAt t b).
Proof. unfold replayItemsAt. cbv zeta. keep_feed. Qed.
#[local] Hint Resolve feed_kept_replayItemsAt : feeds.
Lemma feed_kept_replayPendingItems : feed_kept replayPendingItems.
Proof. unfold replayPendingItems. keep_feed. Qed.
Lemma feed_kept_replayPendingItemsIfDue t : feed_kept (replayPendingItemsIfDue t).
Proof. unfold replayPendingItemsIfDue. keep_feed. Qed.
Lemma feed_kept_invalidateRoutineAlerts b : feed_kept (invalidateRoutineAlerts cfg b).
Proof. unfold invalidateRoutineAlerts. cbv zeta. keep_feed. Qed.
Lemma feed_kept_prepareInsertPosition d : feed_kept (prepareInsertPosition d).
Proof. unfold prepareInsertPosition. keep_feed. Qed.
Lemma feed_kept_cancelPriorityAlerts d : feed_kept (cancelPriorityAlerts cfg d).
Proof. unfold cancelPriorityAlerts. keep_feed. Qed.
Lemma feed_kept_append_all l : feed_kept (append_all cfg l).
Proof. unfold append_all, append_prepared, enqueue. cbv zeta. keep_feed. Qed.
Lemma feed_kept_status d a b : feed_kept (publishAutomationDispatchStatus d a b).
Proof. unfold publishAutomationDispatchStatus. cbv zeta. keep_feed. Qed.
#[local] Hint Resolve feed_kept_status : feeds.
Lemma feed_kept_applyRoutine r : feed_kept (modp (applyRoutinePlanningState r)).
Proof. apply feed_kept_modp. intros p. unfold applyRoutinePlanningState. by case_match. Qed.
Lemma feed_kept_error e : feed_kept (modp (set_lastError e) ;;; writeState cfg).
Proof. keep_feed. Qed.
Lemma feed_kept_commit j r : feed_kept (commit_prepared cfg j r).
Proof. unfold commit_prepared, commitPriorityAlert, publishAlertAudioReady. cbv zeta. keep_feed. Qed.
Lemma feed_kept_fail j r e : feed_kept (fail_prepared cfg j r e).
Proof. unfold fail_prepared. keep_feed. Qed.
End planner_operations.
#[export] Hint Resolve feed_kept_writeState feed_kept_publishPlayoutControl feed_kept_applyControl
  feed_kept_markPriorityStarted feed_kept_markPriorityCompleted feed_kept_markStarted
  feed_kept_markInterrupted feed_kept_markCompleted feed_kept_dropCompleted
  feed_kept_replayPendingItems feed_kept_replayPendingItemsIfDue feed_kept_invalidateRoutineAlerts
  feed_kept_prepareInsertPosition feed_kept_cancelPriorityAlerts feed_kept_append_all
  feed_kept_status feed_kept_applyRoutine feed_kept_commit feed_kept_fail feed_kept_error : feeds.
#[export] Hint Resolve quiet_on_planner : quiet.

(** ** The coordinator *)

Lemma flat_map_snoc {A B} (f : A -> list B) l x : flat_map f (l ++ [x]) = (flat_map f l ++ f x)%list.
Proof. rewrite flat_map_app. simpl. by rewrite app_nil_r. Qed.

Lemma filter_snoc_length {A} (f : A -> bool) l x :
  length (List.filter f (l ++ [x])) = (length (List.filter f l) + if f x then 1 else 0)%nat.
Proof. rewrite List.filter_app, length_app. simpl. by destruct (f x). Qed.

Lemma filter_mid_length {A} (f : A -> bool) l x l' :
  length (List.filter f (l ++ x :: l')) =
    (length (List.filter f l) + (if f x then 1 else 0) + length (List.filter f l'))%nat.
Proof. rewrite List.filter_app, length_app. simpl. destruct (f x); simpl; lia. Qed.

Lemma slots_new : slots_ok (newPreparationCoordinator 0 0).
Proof. by split; simpl; try lia. Qed.

(** A worker joins. *)
Lemma slots_start w planner c c' :
  slots_ok c ->
  match w with
  | PriorityWork job => tryStartPriority planner job c = Some c'
  | _ => try_routine_slot w planner c = Some c'
  end ->
  slots_ok c' /\ inflight c' ≡ₚ (inflight c ++ work_jobs w)%list /\
  routines c' ≡ₚ (routines c ++ work_routines w)%list.
Proof.
  intros [Hr Hsz Hcap Hrs Hrc Hps Hpc Ha] Hstart.
  assert (Hc' : workers c' = (workers c ++ [MkWorker w planner false None])%list /\
    results c' = results c /\ resultSlots c' = S (resultSlots c) /\
    routineWorkers c' = routineWorkers c /\ priorityWorkers c' = priorityWorkers c /\
    (resultSlots c < routineWorkers c + priorityWorkers c)%nat /\
    (if is_priority w
     then (prioritySlots c < priorityWorkers c)%nat /\
          prioritySlots c' = S (prioritySlots c) /\ routineSlots c' = routineSlots c
     else (routineSlots c < routineWorkers c)%nat /\
          prioritySlots c' = prioritySlots c /\ routineSlots c' = S (routineSlots c))).
  { destruct w; unfold tryStartPriority, try_routine_slot, reserveResultSlot in Hstart;
      (destruct (_ <? _)%nat eqn:E1 in Hstart; [|done]);
      (destruct (_ <? _)%nat eqn:E2 in Hstart; [|done]); injection Hstart as <-; bool_hyps;
      split_and!; done. }
  destruct Hc' as (Ew & Er & Es & E1 & E2 & Hlt & Hslot).
  assert (Hfilter : forall b, length (List.filter (preparing b) (workers c')) =
    (length (List.filter (preparing b) (workers c)) + if Bool.eqb (is_priority w) b then 1 else 0)%nat).
  { intros b. by rewrite Ew, filter_snoc_length. }
  unfold inflight, routines. rewrite Ew, Er, !flat_map_snoc. split; [|split].
  - split; rewrite ?Ew, ?Er, ?Es, ?E1, ?E2, <- ?Ew, ?Hfilter; rewrite ?Ew, ?length_app; simpl; try lia;
      try (destruct (is_priority w); simpl; lia).
    intros w0 r [Hin|[<-|[]]]%in_app_or; [by apply Ha|done].
  - rewrite <- !app_assoc. f_equiv. apply Permutation_app_comm.
  - rewrite <- !app_assoc. f_equiv. apply Permutation_app_comm.
Qed.

Lemma slots_cancel which c :
  slots_ok c ->
  slots_ok (cancel_workers which c) /\ inflight (cancel_workers which c) = inflight c /\
  routines (cancel_workers which c) = routines c.
Proof.
  intros [Hr Hsz Hcap Hrs Hrc Hps Hpc Ha].
  set (mark := fun w => if which (w_work w) then MkWorker (w_work w) (w_snapshot w) true (w_result w) else w).
  assert (Hmark : forall w, w_work (mark w) = w_work w /\ w_result (mark w) = w_result w).
  { intros w. unfold mark. by case_match. }
  assert (Hfilter : forall b l, length (List.filter (preparing b) (map mark l)) =
    length (List.filter (preparing b) l)).
  { intros b l. induction l as [|w l IH]; [done|]. simpl.
    assert (preparing b (mark w) = preparing b w) as -> by
      (unfold preparing; by destruct (Hmark w) as [-> ->]).
    destruct (preparing b w); simpl; congruence. }
  assert (Hflat : forall B (f : work -> list B) l,
    flat_map (f ∘ w_work) (map mark l) = flat_map (f ∘ w_work) l).
  { intros B f l. induction l as [|w l IH]; [done|]. simpl. rewrite IH. by destruct (Hmark w) as [-> _]. }
  unfold inflight, routines, cancel_workers. fold mark. cbn. rewrite !Hflat.
  split; [|done]. split; cbn; rewrite ?length_map, ?Hfilter; try done.
  intros w r (w0 & <- & Hin)%in_map_iff. destruct (Hmark w0) as [-> ->]. by apply Ha.
Qed.

(** A worker finishes its work: it gives its slot back and holds a result. *)
Lemma slots_finish c before w r after :
  slots_ok c -> workers c = (before ++ w :: after)%list -> w_result w = None ->
  answers (w_work w) r ->
  let w' := MkWorker (w_work w) (w_snapshot w) (w_cancelled w) (Some r) in
  let c' := set_workers (before ++ w' :: after)%list (release_slot (w_work w) c) in
  slots_ok c' /\ inflight c' = inflight c /\ routines c' = routines c.
Proof.
  intros [Hr Hsz Hcap Hrs Hrc Hps Hpc Ha] Ew En Hans w' c'.
  rewrite Ew in Hr, Hrs, Hps. rewrite filter_mid_length in Hrs, Hps. rewrite length_app in Hr.
  assert (Hp : forall b, preparing b w = Bool.eqb (is_priority (w_work w)) b) by (intros; unfold preparing; by rewrite En).
  rewrite Hp in Hrs, Hps.
  assert (Hw : workers c' = (before ++ w' :: after)%list) by done.
  assert (Hres : results c' = results c) by (unfold c'; by destruct (w_work w)).
  split; [|unfold inflight, routines; rewrite Hw, Hres, Ew, !flat_map_app; done].
  assert (Hslots : resultSlots c' = resultSlots c /\ routineWorkers c' = routineWorkers c /\
    priorityWorkers c' = priorityWorkers c /\
    routineSlots c' = (routineSlots c - if is_priority (w_work w) then 0 else 1)%nat /\
    prioritySlots c' = (prioritySlots c - if is_priority (w_work w) then 1 else 0)%nat).
  { unfold c'. destruct (w_work w); cbn; split_and!; lia. }
  destruct Hslots as (E1 & E2 & E3 & E4 & E5).
  split; rewrite ?Hw, ?Hres, ?E1, ?E2, ?E3, ?E4, ?E5, ?filter_mid_length, ?length_app;
    unfold preparing in *; cbn [w_result w'] in *; simpl in *; try lia;
    try (destruct (is_priority (w_work w)); simpl in *; lia).
  intros w0 r0 [Hin|[<-|Hin]]%in_app_or; cbn.
  - apply Ha. rewrite Ew. apply in_or_app. by left.
  - by intros [= <-].
  - apply Ha. rewrite Ew. apply in_or_app. right. by right.
Qed.

(** A worker ends, its result put at the end of the channel ([Some r]) or thrown
    away. *)
Lemma slots_leave c before w r after :
  slots_ok c -> workers c = (before ++ w :: after)%list -> w_result w = Some r ->
  let sent := set_results (results c ++ [r])%list (set_workers (before ++ after)%list c) in
  let thrown := releaseResultSlot (set_workers (before ++ after)%list c) in
  slots_ok sent /\ inflight sent ≡ₚ inflight c /\ routines sent ≡ₚ routines c /\ slots_ok thrown.
Proof.
  intros [Hr Hsz Hcap Hrs Hrc Hps Hpc Ha] Ew Er sent thrown.
  destruct (Ha w r) as [Hj Hro]; [rewrite Ew; apply in_or_app; right; by left|done|].
  assert (Hp : forall b, preparing b w = false) by (intros; unfold preparing; by rewrite Er).
  assert (Hf : forall b, length (List.filter (preparing b) (workers c)) =
    length (List.filter (preparing b) (before ++ after))).
  { intros b. by rewrite Ew, filter_mid_length, Hp, List.filter_app, length_app, Nat.add_0_r. }
  assert (Hl : (length (workers c) = S (length (before ++ after)))%nat)
    by (rewrite Ew, !length_app; simpl; lia).
  assert (Hin : forall w0, In w0 (before ++ after) -> In w0 (workers c)).
  { intros w0 [?|?]%in_app_or; rewrite Ew; apply in_or_app; [by left|right; by right]. }
  split_and!.
  - split; cbn; rewrite ?length_app, <- ?Hf; simpl; try lia; eauto. rewrite length_app in Hl. lia.
  - unfold inflight. cbn. rewrite Ew, flat_map_snoc, !flat_map_app. simpl. rewrite Hj. solve_Permutation.
  - unfold routines. cbn. rewrite Ew, flat_map_snoc, !flat_map_app. simpl. rewrite Hro. solve_Permutation.
  - split; cbn; rewrite <- ?Hf; simpl; try lia; eauto.
Qed.

(** The loop takes a result and gives its place back. *)
Lemma slots_take c r rest :
  slots_ok c -> results c = r :: rest ->
  let c' := releaseResultSlot (set_results rest c) in
  slots_ok c' /\ inflight c ≡ₚ (result_jobs r ++ inflight c')%list /\
  routines c ≡ₚ (result_routines r ++ routines c')%list.
Proof.
  intros [Hr Hsz Hcap Hrs Hrc Hps Hpc Ha] Er c'. rewrite Er in Hr. simpl in Hr.
  split_and!.
  - split; cbn; try done; lia.
  - unfold inflight. cbn. rewrite Er. simpl. solve_Permutation.
  - unfold routines. cbn. rewrite Er. simpl. solve_Permutation.
Qed.

(** ** Changes of state that keep the invariant *)

Definition put (f : string) (st : feedPreparationState) (s : Service) : Service :=
  set_preparationStates (<[f := st]> (preparationStates s)) s.

Lemma stateOf_put f st s f' : stateOf f' (put f st s) = if decide (f = f') then st else stateOf f' s.
Proof. apply stateOf_insert. Qed.
Lemma versions_put f st s f' a :
  versions (put f st s) f' a = if decide (f = f') then priorityVersions st !! a else versions s f' a.
Proof. unfold versions. rewrite stateOf_put. by case_decide. Qed.

Lemma in_permuted {A} (l l' : list A) x : l ≡ₚ l' -> In x l <-> In x l'.
Proof. intros Hp. split; apply Permutation_in; [done|by symmetry]. Qed.

(** The coordinator and the routine part of the states change. *)
Lemma Inv_change g js rs rs' bound s s' :
  Inv g js rs bound s ->
  ids s' = ids s -> slots_ok (preparations s') ->
  inflight (preparations s') ≡ₚ inflight (preparations s) ->
  (forall f, active (stateOf f s') = active (stateOf f s)) ->
  (forall f a, versions s' f a = versions s f a) ->
  priorityPending s' = priorityPending s -> maxPriorityPending s' = maxPriorityPending s ->
  (forall f, is_Some (ids s' !! f) -> routineInFlight (stateOf f s') = true ->
     In (f, routineToken (stateOf f s')) (rs' ++ routines (preparations s'))%list) ->
  Inv g js rs' bound s'.
Proof.
  intros [] Hi Hso Hin Hact Hv Hp Hm Hr.
  assert (HIn : forall j l l', In j (l ++ inflight (preparations s') ++ l')%list <->
    In j (l ++ inflight (preparations s) ++ l')%list).
  { intros j l l'. rewrite !in_app_iff, (in_permuted _ _ _ Hin). done. }
  assert (HIn' : forall j, In j (js ++ inflight (preparations s'))%list <->
    In j (js ++ inflight (preparations s))%list).
  { intros j. rewrite !in_app_iff, (in_permuted _ _ _ Hin). done. }
  split; rewrite ?Hi, ?Hp, ?Hm; try done.
  - by rewrite Hin.
  - intros f a. rewrite Hact, inv_active0. by setoid_rewrite HIn'.
  - intros j Hj%HIn. eauto.
  - intros j Hj%HIn'. rewrite Hv. eauto.
  - intros j Hj. rewrite Hv. eauto.
  - intros f a v. rewrite Hv. eauto.
  - intros f Hs. apply Hr. by rewrite Hi.
  - destruct g; [done|unfold superseded; rewrite HIn', Hv; done|by rewrite HIn].
Qed.

Lemma Inv_coord g js rs bound s c' :
  Inv g js rs bound s -> slots_ok c' -> inflight c' ≡ₚ inflight (preparations s) ->
  (forall x, In x (routines (preparations s)) -> In x (routines c')) ->
  Inv g js rs bound (set_preparations c' s).
Proof.
  intros HI Hso Hin Hr. eapply Inv_change; [exact HI|done..|].
  intros f Hs Hf. destruct HI. specialize (inv_routine0 f Hs Hf). rewrite in_app_iff in *. cbn.
  destruct inv_routine0; [by left|right]. by apply Hr.
Qed.

Lemma Inv_put_routine g js rs rs' bound s f st :
  Inv g js rs bound s ->
  active st = active (stateOf f s) -> priorityVersions st = priorityVersions (stateOf f s) ->
  (is_Some (ids s !! f) -> routineInFlight st = true ->
     In (f, routineToken st) (rs' ++ routines (preparations s))%list) ->
  (forall f', f' <> f -> is_Some (ids s !! f') -> routineInFlight (stateOf f' s) = true ->
     In (f', routineToken (stateOf f' s)) (rs' ++ routines (preparations s))%list) ->
  Inv g js rs' bound (put f st s).
Proof.
  intros HI Ha Hv Hf Hr. eapply Inv_change; [exact HI|try done..|].
  - apply HI.
  - intros f'. rewrite stateOf_put. case_decide; [by subst|done].
  - intros f' a. rewrite versions_put. case_decide; [subst; by rewrite Hv|done].
  - intros f' Hs. rewrite stateOf_put. case_decide; [subst; by apply Hf|]. by apply Hr.
Qed.

Lemma NoDup_keys_filter (keep : priorityPreparationJob -> bool) l :
  NoDup (map request_key l) -> NoDup (map request_key (List.filter keep l)).
Proof.
  induction l as [|j l IH]; simpl; [done|]. intros [Hn Hd]%list.NoDup_cons.
  destruct (keep j); [|by apply IH]. simpl. apply list.NoDup_cons. split; [|by apply IH].
  intros Hin. apply Hn. apply list_elem_of_In. apply list_elem_of_In in Hin.
  apply in_map_iff in Hin as (j' & E & Hj'). apply filter_In in Hj' as [? _].
  apply in_map_iff. eauto.
Qed.

(** Waiting requests are dropped. *)
Lemma Inv_filter g js rs bound s keep :
  Inv g js rs bound s ->
  Inv g js rs bound (set_priorityPending (List.filter keep (priorityPending s)) s).
Proof.
  intros [].
  assert (Hsub : forall j, In j (List.filter keep (priorityPending s)) -> In j (priorityPending s))
    by (intros j [? _]%filter_In; done).
  split; cbn; try done.
  - intros j Hj. apply inv_served0. rewrite !in_app_iff in *.
    destruct Hj as [?|[?|?%Hsub]]; tauto.
  - eauto.
  - by apply NoDup_keys_filter.
  - pose proof (filter_length_le keep (priorityPending s)). lia.
  - destruct g; [done..|]. rewrite !in_app_iff in *. intros [?|[?|?%Hsub]]; tauto.
Qed.

Lemma active_alert g js rs bound s j :
  Inv g js rs bound s -> In j (js ++ inflight (preparations s))%list ->
  active (stateOf (job_feedID j) s) = Some (as_active j).
Proof. intros [] Hj. apply inv_active0. eauto. Qed.

(** A version counter nobody needs is dropped. *)
Lemma Inv_release g js rs bound s f a :
  Inv g js rs bound s ->
  (forall act, active (stateOf f s) = Some act -> active_alertID act <> a) ->
  (forall j, In j (priorityPending s) -> job_feedID j = f -> job_alertID j <> a) ->
  Inv g js rs bound (put f (set_versions (delete a (priorityVersions (stateOf f s))) (stateOf f s)) s).
Proof.
  intros HI Hact Hpend.
  assert (Hv : forall f' a', (f', a') <> (f, a) ->
    versions (put f (set_versions (delete a (priorityVersions (stateOf f s))) (stateOf f s)) s) f' a' =
    versions s f' a').
  { intros f' a' Hne. rewrite versions_put. case_decide as E; [subst|done]. cbn.
    rewrite lookup_delete_ne; [done|]. intros ->. done. }
  assert (Hfly : forall j, In j (js ++ inflight (preparations s))%list ->
    (job_feedID j, job_alertID j) <> (f, a)).
  { intros j Hj [= <- <-]. by apply (Hact (as_active j)); [eapply active_alert|]. }
  assert (Hst : forall f', active (stateOf f' (put f (set_versions
    (delete a (priorityVersions (stateOf f s))) (stateOf f s)) s)) = active (stateOf f' s) /\
    routineInFlight (stateOf f' (put f (set_versions
    (delete a (priorityVersions (stateOf f s))) (stateOf f s)) s)) = routineInFlight (stateOf f' s) /\
    routineToken (stateOf f' (put f (set_versions
    (delete a (priorityVersions (stateOf f s))) (stateOf f s)) s)) = routineToken (stateOf f' s)).
  { intros f'. rewrite stateOf_put. by case_decide; subst. }
  destruct HI. split; try done.
  - intros f' act. rewrite (proj1 (Hst f')). apply inv_active0.
  - intros j Hj. rewrite Hv by by apply Hfly. eauto.
  - intros j Hj. rewrite Hv; [by apply inv_pending0|]. intros [= Ef Ea]. by apply (Hpend j).
  - intros f' a' v. rewrite versions_put. case_decide as E; [subst|apply inv_bound0]. cbn.
    intros Hl. apply lookup_delete_Some in Hl as [_ Hl]. by apply (inv_bound0 f' a').
  - intros f'. destruct (Hst f') as (_ & -> & ->). apply inv_routine0.
  - destruct g; try done. destruct inv_ghost0 as [Hj Hs]. split; [done|].
    unfold superseded. rewrite Hv by by apply Hfly. done.
Qed.

Lemma NoDup_snoc_perm {A} (l l' : list A) x : l' ≡ₚ (l ++ [x])%list -> x ∉ l -> NoDup l -> NoDup l'.
Proof.
  intros Hp Hx Hl. rewrite Hp. apply list.NoDup_app. split; [done|]. split; [|apply NoDup_singleton].
  intros y Hy Hyx. apply list_elem_of_singleton in Hyx. by subst.
Qed.

Lemma in_mid {A} (l l' : list A) x y : In y (l ++ x :: l') <-> y = x \/ In y (l ++ l').
Proof. rewrite !in_app_iff. simpl. intuition (subst; auto). Qed.

(** A waiting request goes into preparation. *)
Lemma Inv_start g js rs bound s before job rest c' :
  Inv g js rs bound s -> priorityPending s = (before ++ job :: rest)%list ->
  active (stateOf (job_feedID job) s) = None ->
  slots_ok c' -> inflight c' ≡ₚ (inflight (preparations s) ++ [job])%list ->
  (forall x, In x (routines (preparations s)) -> In x (routines c')) ->
  Inv g js rs bound
    (put (job_feedID job) (set_active (Some (as_active job)) (stateOf (job_feedID job) s))
       (set_priorityPending (before ++ rest)%list (set_preparations c' s))).
Proof.
  intros HI Hp Hnone Hso Hin Hr. set (f0 := job_feedID job) in *.
  set (st' := set_active _ _). set (s1 := set_priorityPending _ _).
  assert (Hfly : forall j, In j (js ++ inflight c')%list <-> j = job \/ In j (js ++ inflight (preparations s))%list).
  { intros j. rewrite !in_app_iff, (in_permuted _ _ _ Hin), in_app_iff. simpl. intuition (subst; auto). }
  assert (Hv : forall f a, versions (put f0 st' s1) f a = versions s f a).
  { intros f a. rewrite versions_put. case_decide; [by subst|done]. }
  assert (Hpend : forall j, In j (priorityPending s) <-> j = job \/ In j (before ++ rest))
    by (intros j; rewrite Hp; apply in_mid).
  assert (Hnew : forall j, In j (js ++ inflight (preparations s))%list -> job_feedID j <> f0).
  { intros j Hj E. pose proof (active_alert _ _ _ _ _ _ HI Hj) as Ha. rewrite E in Ha. congruence. }
  assert (Hjob : versions s f0 (job_alertID job) = Some (job_version job))
    by (apply HI, Hpend; by left).
  destruct HI. split; try done; try change (preparations (put f0 st' s1)) with c'.
  - eapply (NoDup_snoc_perm (map job_feedID (js ++ inflight (preparations s))) _ f0); [|..|done].
    + by rewrite Hin, app_assoc, (map_app _ _ [job]).
    + rewrite list_elem_of_In, in_map_iff. intros (j & E & Hj). by apply (Hnew j).
  - intros f a. rewrite stateOf_put. setoid_rewrite Hfly. case_decide as E.
    + subst f. cbn. split.
      * intros [= <-]. exists job. auto.
      * intros (j & [->|Hj] & Ef & <-); [done|]. by apply Hnew in Hj.
    + rewrite (inv_active0 f a : active (stateOf f s1) = Some a <-> _). split.
      * intros (j & Hj & ?). eauto.
      * intros (j & [->|Hj] & ? & ?); [done|]. eauto.
  - intros j Hj. apply inv_served0. rewrite app_assoc, in_app_iff in Hj. rewrite app_assoc, in_app_iff.
    destruct Hj as [[->|?]%Hfly|Hj]; [right; apply Hpend; by left|by left|right; apply Hpend; by right].
  - intros j [->|Hj]%Hfly; rewrite Hv; [exists (job_version job); split; [done|lia]|eauto].
  - intros j Hj. rewrite Hv. apply inv_pending0, Hpend. by right.
  - cbn. rewrite Hp in inv_distinct0. rewrite map_app in inv_distinct0 |- *. simpl in inv_distinct0.
    rewrite <- Permutation_middle in inv_distinct0. by apply list.NoDup_cons in inv_distinct0 as [_ ?].
  - intros f a v. rewrite Hv. apply inv_bound0.
  - cbn. rewrite Hp in inv_backlog0. rewrite length_app in *. simpl in inv_backlog0. lia.
  - intros f Hserved. rewrite stateOf_put. intros Hf.
    assert (Hf' : routineInFlight (stateOf f s) = true /\ routineToken (stateOf f s) =
      routineToken (if decide (f0 = f) then st' else stateOf f s1)) by (case_decide; by subst).
    destruct Hf' as [Hf1 Hf2]. specialize (inv_routine0 f Hserved Hf1). rewrite <- Hf2.
    rewrite in_app_iff in *. destruct inv_routine0; [by left|right]. by apply Hr.
  - destruct g as [|j|j]; [done|..].
    + unfold superseded. rewrite Hv. split; [|apply inv_ghost0]. apply Hfly. right. apply inv_ghost0.
    + intros Hj. apply inv_ghost0. rewrite app_assoc, in_app_iff in Hj. rewrite app_assoc, in_app_iff.
      destruct Hj as [[->|?]%Hfly|Hj]; [right; apply Hpend; by left|by left|right; apply Hpend; by right].
Qed.

Definition not_gone (g : ghost) : Prop := match g with Gone _ => False | _ => True end.

(** A request joins the backlog. *)
Lemma Inv_append g js rs bound s job :
  Inv g js rs bound s -> not_gone g -> is_Some (ids s !! job_feedID job) ->
  versions s (job_feedID job) (job_alertID job) = Some (job_version job) ->
  (forall j, In j (priorityPending s) -> request_key j <> request_key job) ->
  Z.of_nat (length (priorityPending s)) < priorityPreparationBacklog ->
  Inv g js rs bound (set_priorityPending (priorityPending s ++ [job])%list s).
Proof.
  intros [] Hg Hserved Hv Hnew Hlen.
  assert (Hin : forall j, In j (priorityPending s ++ [job])%list <-> In j (priorityPending s) \/ j = job).
  { intros j. rewrite in_app_iff. simpl. intuition (subst; auto). }
  split; cbn; try done.
  - intros j. rewrite app_assoc, in_app_iff. intros [Hj|[Hj| ->]%Hin]; [| |done];
      apply inv_served0; rewrite app_assoc, in_app_iff; auto.
  - intros j [Hj| ->]%Hin; [by apply inv_pending0|done].
  - eapply (NoDup_snoc_perm _ _ (request_key job)); [by rewrite map_app| |done].
    rewrite list_elem_of_In, in_map_iff. intros (j & E & Hj). by apply (Hnew j).
  - rewrite length_app. simpl. lia.
  - by destruct g.
Qed.

Definition bump (f : string) (bound : string -> Z) (f' : string) : Z :=
  if decide (f' = f) then bound f + 1 else bound f'.

(** The version counters of some alerts of a feed go up by one. *)
Lemma Inv_bump g js rs bound s f m (A : string -> Prop) :
  Inv g js rs bound s -> (forall a, A a \/ ~ A a) ->
  (forall a, A a -> m !! a = Some (default 0 (versions s f a) + 1)) ->
  (forall a, ~ A a -> m !! a = versions s f a) ->
  (forall j, In j (priorityPending s) -> job_feedID j = f -> ~ A (job_alertID j)) ->
  0 <= bound f ->
  Inv g js rs (bump f bound) (put f (set_versions m (stateOf f s)) s).
Proof.
  intros HI Hdec Hm1 Hm2 Hpend Hb.
  set (s' := put f _ s).
  assert (Hv : forall f' a, versions s' f' a = if decide (f = f') then m !! a else versions s f' a).
  { intros f' a. unfold s'. rewrite versions_put. done. }
  assert (Hup : forall f' a v, versions s f' a = Some v -> exists v', versions s' f' a = Some v' /\ v <= v').
  { intros f' a v E. rewrite Hv. case_decide; [subst|by exists v].
    destruct (Hdec a) as [Ha|Ha]; [rewrite (Hm1 a Ha), E; simpl; exists (v + 1); split; [done|lia]|].
    exists v. by rewrite (Hm2 a Ha), E. }
  assert (Hst : forall f', active (stateOf f' s') = active (stateOf f' s) /\
    routineInFlight (stateOf f' s') = routineInFlight (stateOf f' s) /\
    routineToken (stateOf f' s') = routineToken (stateOf f' s)).
  { intros f'. unfold s'. rewrite stateOf_put. by case_decide; subst. }
  destruct HI. split; try done.
  - intros f' a. rewrite (proj1 (Hst f')). apply inv_active0.
  - intros j Hj. destruct (inv_version0 j Hj) as (v & E & Hle).
    destruct (Hup _ _ _ E) as (v' & ? & ?). exists v'. split; [done|lia].
  - intros j Hj. rewrite Hv. case_decide; [subst f|by apply inv_pending0].
    rewrite Hm2; [by apply inv_pending0|by apply Hpend].
  - intros f' a v. rewrite Hv. unfold bump. case_decide as E1; case_decide as E2; try congruence.
    + subst f'. destruct (Hdec a) as [Ha|Ha]; [rewrite (Hm1 a Ha)|rewrite (Hm2 a Ha)].
      * intros [= <-]. destruct (versions s f a) as [v0|] eqn:E; simpl; [|lia].
        specialize (inv_bound0 f a v0 E). lia.
      * intros E. specialize (inv_bound0 f a v E). lia.
    + apply inv_bound0.
  - intros f'. destruct (Hst f') as (_ & -> & ->). apply inv_routine0.
  - destruct g; try done. destruct inv_ghost0 as [Hj (v & E & Hlt)]. split; [done|].
    destruct (Hup _ _ _ E) as (v' & ? & ?). exists v'. split; [done|lia].
Qed.

(** The result of a worker is taken for handling. *)
Lemma Inv_take g bound s r rest :
  Inv g [] [] bound s -> results (preparations s) = r :: rest ->
  Inv g (result_jobs r) (result_routines r) bound
    (set_preparations (releaseResultSlot (set_results rest (preparations s))) s).
Proof.
  intros [] Er. destruct (slots_take _ _ _ inv_slots0 Er) as (Hso & Hin & Hro).
  set (c' := releaseResultSlot _) in *. clearbody c'. cbn [app] in *.
  assert (HIn : forall j, In j (result_jobs r ++ inflight c') <-> In j (inflight (preparations s)))
    by (intros j; symmetry; by apply in_permuted).
  split; cbn; try done.
  - by rewrite <- Hin.
  - intros f a. rewrite (inv_active0 f a : active (stateOf f (set_preparations c' s)) = Some a <-> _).
    by setoid_rewrite HIn.
  - intros j. rewrite app_assoc, in_app_iff. intros Hj. apply inv_served0. rewrite in_app_iff.
    by rewrite HIn in Hj.
  - intros j Hj%HIn. by apply inv_version0.
  - intros f Hs Hf. by apply (in_permuted _ _ _ Hro), inv_routine0.
  - destruct g; [done|..].
    + split; [apply HIn, inv_ghost0|apply inv_ghost0].
    + rewrite app_assoc, in_app_iff, HIn, <- in_app_iff. done.
Qed.

(** The request whose result is handled is no longer active. *)
Inductive settles (j : priorityPreparationJob) (c : preparationCoordinator) : ghost -> ghost -> Prop :=
| settles_untracked : settles j c Untracked Untracked
| settles_self : settles j c (Dead j) (Gone j)
| settles_other j' : In j' (inflight c) -> settles j c (Dead j') (Dead j').

Lemma Inv_clear g g' rs bound s j :
  Inv g [j] rs bound s -> settles j (preparations s) g g' ->
  Inv g' [] rs bound (put (job_feedID j) (set_active None (stateOf (job_feedID j) s)) s).
Proof.
  intros HI Hset.
  pose proof (active_alert _ _ _ _ _ j HI (or_introl eq_refl)) as Hact.
  destruct HI. cbn [app map] in *. set (f0 := job_feedID j) in *. set (s' := put _ _ s).
  apply list.NoDup_cons in inv_one0 as [Hj Hone].
  assert (Hother : forall j', In j' (inflight (preparations s)) -> job_feedID j' <> f0).
  { intros j' Hj' E. apply Hj, list_elem_of_In, in_map_iff. eauto. }
  assert (Hst : forall f, versions s' f = versions s f /\
    routineInFlight (stateOf f s') = routineInFlight (stateOf f s) /\
    routineToken (stateOf f s') = routineToken (stateOf f s) /\
    active (stateOf f s') = if decide (f0 = f) then None else active (stateOf f s)).
  { intros f. unfold versions, s'. rewrite stateOf_put. by case_decide; subst. }
  split; cbn [app]; try done.
  - intros f a. destruct (Hst f) as (_ & _ & _ & ->). case_decide as E.
    + subst f. split; [done|]. intros (j' & Hj' & Ef & _). by apply Hother in Hj'.
    + rewrite inv_active0. split; intros (j' & Hj' & Ef & <-); [|exists j'; split; [by right|done]].
      destruct Hj' as [->|Hj']; [done|by exists j'].
  - intros j' Hj'. apply inv_served0. by right.
  - intros j' Hj'. rewrite (proj1 (Hst _)). apply inv_version0. by right.
  - intros j' Hj'. rewrite (proj1 (Hst _)). by apply inv_pending0.
  - intros f a v. rewrite (proj1 (Hst _)). apply inv_bound0.
  - intros f. destruct (Hst f) as (_ & -> & -> & _). apply inv_routine0.
  - destruct Hset as [| |j' Hj']; [done|..].
    + rewrite in_app_iff. destruct inv_ghost0 as [_ (v & E & Hlt)]. intros [Hin|Hin].
      * by apply Hother in Hin.
      * apply inv_pending0 in Hin. rewrite E in Hin. injection Hin. lia.
    + split; [done|]. unfold superseded. rewrite (proj1 (Hst _)). apply inv_ghost0.
Qed.

(** ** The feeds served never change *)

Definition ids_kept {A} (m : SM A) : Prop := forall s, ids (m s).2.1 = ids s.1.

Create HintDb served.
Lemma ids_kept_quiet {A} (m : SM A) : quiet m -> ids_kept m.
Proof. intros Hm s. by destruct (Hm s). Qed.
Lemma ids_kept_ret {A} (a : A) : ids_kept (ret a).
Proof. done. Qed.
Lemma ids_kept_svc {A} (f : Service -> A) : ids_kept (svc f).
Proof. done. Qed.
Lemma ids_kept_mods f : (forall s, feeds (f s) = feeds s) -> ids_kept (mods f).
Proof. intros Hf [s w]. unfold ids. cbn. by rewrite Hf. Qed.
Lemma ids_kept_bind {A B} (f : A -> SM B) (m : SM A) :
  ids_kept m -> (forall a, ids_kept (f a)) -> ids_kept (mbind f m).
Proof. intros Hm Hf s. rewrite mbind_eq. etrans; [apply Hf|apply Hm]. Qed.
Lemma ids_kept_for_each {A} (f : A -> SM unit) l : (forall a, ids_kept (f a)) -> ids_kept (for_each f l).
Proof. intros Hf. induction l as [|a l IH]; simpl; [done|]. by apply ids_kept_bind. Qed.
Lemma ids_kept_set_state f st : ids_kept (set_state f st).
Proof. by apply ids_kept_mods. Qed.
#[export] Hint Resolve ids_kept_ret ids_kept_svc ids_kept_set_state : served.

(** Walk through the statements of an operation. *)
Ltac keep_ids := repeat first
  [ solve [eauto with served]
  | apply ids_kept_quiet; solve [auto with quiet feeds]
  | apply ids_kept_mods; reflexivity
  | apply ids_kept_bind; intros
  | apply ids_kept_for_each; intros
  | progress cbv zeta
  | progress case_match ].

Lemma hoare_ids {A} F (m : SM A) P (Q : A -> Service * World -> Prop) :
  ids_kept m -> hoare P m Q ->
  hoare (fun s => P s /\ F (ids s.1)) m (fun a s => Q a s /\ F (ids s.1)).
Proof. intros Hk Hm s [HP HF]. split; [by apply Hm|by rewrite Hk]. Qed.

Section served.
Context `{JSON} `{Env} `{Zones} `{Builder} `{PriorityBuilder} `{MapOrder} (cfg : loadedConfig).

Lemma ids_kept_invalidate f : ids_kept (invalidateRoutinePreparation f).
Proof. unfold invalidateRoutinePreparation, cancel_routine. keep_ids. Qed.
Lemma ids_kept_release f a : ids_kept (releasePriorityVersion f a).
Proof. unfold releasePriorityVersion. keep_ids. Qed.
Lemma ids_kept_prune t : ids_kept (pruneStalePriorityPreparations cfg t).
Proof.
  pose proof ids_kept_release. unfold pruneStalePriorityPreparations. keep_ids.
Qed.
Lemma ids_kept_start_pending n : ids_kept (start_pending n).
Proof. induction n as [|n IH]; cbn [start_pending]; [keep_ids|]. keep_ids. Qed.
Lemma ids_kept_start : ids_kept (startPendingPriorityPreparations cfg).
Proof.
  pose proof ids_kept_prune. pose proof ids_kept_start_pending.
  unfold startPendingPriorityPreparations. keep_ids.
Qed.
Lemma ids_kept_enqueue k p d : ids_kept (enqueuePriorityPreparation cfg k p d).
Proof.
  pose proof ids_kept_prune. pose proof ids_kept_start. pose proof ids_kept_invalidate.
  unfold enqueuePriorityPreparation, cancel_priority. cbv zeta. keep_ids.
Qed.
Lemma ids_kept_cancel p d : ids_kept (cancelPriorityPreparations p d).
Proof.
  pose proof ids_kept_release. unfold cancelPriorityPreparations, cancel_priority. keep_ids.
Qed.
End served.

(** ** The operations keep the invariant *)

Lemma Inv_viewed g js rs bound : viewed (Inv g js rs bound).
Proof. intros s s' Hv. by apply Inv_view. Qed.

Lemma hoare_preparationState f P :
  viewed P -> hoare (on_svc P) (preparationState f) (fun st s => st = stateOf f s.1 /\ on_svc P s).
Proof.
  intros HP s Hs. split.
  - pose proof (quiet_preparationState f s) as (_ & _ & Hst & _). rewrite Hst. done.
  - apply (HP s.1); [apply quiet_preparationState|done].
Qed.

Lemma Inv_cancel_workers g js rs bound which s :
  Inv g js rs bound s -> Inv g js rs bound (set_preparations (cancel_workers which (preparations s)) s).
Proof.
  intros HI. destruct (slots_cancel which (preparations s)) as (Hso & Hin & Hro); [apply HI|].
  apply Inv_coord; [done..|by rewrite Hin|by rewrite Hro].
Qed.

(** Run the operations from the left, each by its rule. *)
Tactic Notation "run" uconstr(H) := eapply hoare_bind; [apply H|].
Ltac run_quiet := eapply hoare_bind; [apply hoare_quiet; [auto with quiet feeds|try apply Inv_viewed]|intros ?; cbv beta].

Lemma startable_spec s before rest b j r :
  startable s before rest = Some (b, j, r) ->
  (b ++ j :: r = before ++ rest)%list /\ is_Some (feeds s !! job_feedID j) /\
  active (stateOf (job_feedID j) s) = None.
Proof.
  revert before. induction rest as [|j' rest IH]; intros before; [done|]. simpl.
  assert (Hrest : startable s (before ++ [j'])%list rest = Some (b, j, r) ->
    (b ++ j :: r = before ++ j' :: rest)%list /\ is_Some (feeds s !! job_feedID j) /\
    active (stateOf (job_feedID j) s) = None).
  { intros E. destruct (IH _ E) as (El & ?). rewrite <- app_assoc in El. done. }
  destruct (feeds s !! job_feedID j') as [p|] eqn:Ef; [|done].
  destruct (active (stateOf (job_feedID j') s)) eqn:Ea; [done|].
  intros [= <- <- <-]. by rewrite Ef, Ea.
Qed.

Lemma touch_states_view s : same_view s (touch_states s).
Proof.
  unfold touch_states. split_and!; try done. intros f. unfold stateOf. cbn.
  generalize (match startable s [] (priorityPending s) with
    | Some (before, j, _) => (before ++ [j])%list | None => priorityPending s end) as l.
  intros l. generalize (preparationStates s) as m. induction l as [|j l IH]; intros m; [done|].
  simpl. rewrite IH. destruct (feeds s !! job_feedID j); [|done].
  destruct (m !! job_feedID j) eqn:E; [done|].
  destruct (decide (job_feedID j = f)) as [<-|]; [by rewrite lookup_insert_eq, E|by rewrite lookup_insert_ne].
Qed.

Section operations.
Context (g : ghost) (bound : string -> Z).
Abbreviation I := (on_svc (Inv g [] [] bound)).

Lemma hoare_cancel_routine f st : hoare I (cancel_routine f st) (fun _ => I).
Proof.
  unfold cancel_routine. case_match; [|by intros s Hs].
  apply hoare_mods. intros s w Hs. by apply Inv_cancel_workers.
Qed.

Lemma hoare_invalidate f : hoare I (invalidateRoutinePreparation f) (fun _ => I).
Proof.
  unfold invalidateRoutinePreparation. run hoare_preparationState; [apply Inv_viewed|intros st].
  eapply hoare_seq; [|apply hoare_cancel_routine].
  apply hoare_mods. intros s w [-> HI]. apply (Inv_put_routine _ _ []); try done; intros; by apply (inv_routine _ _ _ _ _ HI).
Qed.

(** Starting routine work: the state takes a new token, and the work under it is
    in preparation. *)
Lemma Inv_start_routine s c' w token st f :
  Inv g [] [] bound s -> slots_ok c' ->
  inflight c' ≡ₚ (inflight (preparations s) ++ work_jobs w)%list -> work_jobs w = [] ->
  routines c' ≡ₚ (routines (preparations s) ++ work_routines w)%list ->
  work_routines w = [(f, token)] -> st = stateOf f s ->
  Inv g [] [] bound (put f (set_routine (routineGeneration st) token true (Some token) st)
    (set_preparations c' s)).
Proof.
  intros HI Hso Hin Hj Hr Hw ->. rewrite Hj, app_nil_r in Hin.
  assert (Hsub : forall x, In x (routines (preparations s)) -> In x (routines c')).
  { intros x Hx. apply (in_permuted _ _ _ Hr), in_app_iff. by left. }
  apply (Inv_put_routine _ _ []).
  - by apply Inv_coord.
  - done.
  - done.
  - intros _ _. apply (in_permuted _ _ _ Hr), in_app_iff. right. rewrite Hw. by left.
  - intros f' _ Hs Hf. apply Hsub. destruct HI. by apply inv_routine0.
Qed.

Lemma hoare_startRoutinePreparation planner t startup :
  hoare I (startRoutinePreparation planner t startup) (fun _ => I).
Proof.
  unfold startRoutinePreparation. run hoare_preparationState; [apply Inv_viewed|intros st].
  case_match eqn:Ef; [by intros s [_ Hs]|]. set (f := feed_ID (feed planner)). cbv zeta.
  set (token := next64 _).
  eapply hoare_seq with (Q := fun s => stateOf f s.1 =
    set_routine (routineGeneration st) token false (routineCancel st) st /\ I s).
  - apply hoare_mods. intros s w [-> HI]. split; [cbn [fst]; by rewrite stateOf_insert, decide_True|].
    apply (Inv_put_routine _ _ []); try done; intros; by apply (inv_routine _ _ _ _ _ HI).
  - run hoare_svc. intros c. case_match eqn:Ec; [|by intros s (_ & _ & Hs)].
    rename p into c'.
    intros s (-> & Hst & HI). rewrite mbind_eq. cbn [fst snd mods modify set_state].
    pose proof (slots_start (RoutineWork f token (routineGeneration st) startup t) planner _ _
      (inv_slots _ _ _ _ _ HI) Ec) as (Hso & Hin & Hr).
    eapply Inv_view; [|eapply (Inv_start_routine s.1 c' _ token _ f HI Hso Hin); done]. done.
Qed.

Context `{JSON} `{Env} `{Zones} `{Builder} `{PriorityBuilder} `{MapOrder} (cfg : loadedConfig) (Lookahead : Z).

Lemma hoare_quiet_Inv {A} (m : SM A) : quiet m -> hoare I m (fun _ => I).
Proof. intros Hm. apply hoare_quiet; [done|apply Inv_viewed]. Qed.
Lemma hoare_planner k m : feed_kept m -> hoare I (on_planner k m) (fun _ => I).
Proof. intros Hm. by apply hoare_quiet_Inv, quiet_on_planner. Qed.
Lemma hoare_planner_seq {B} k m (n : SM B) R :
  feed_kept m -> hoare I n R -> hoare I (on_planner k m ;;; n) R.
Proof. intros Hm Hn. eapply hoare_seq; [by apply hoare_planner|done]. Qed.

Lemma hoare_startRoutineInsert k planner data :
  hoare I (startRoutineInsert cfg k planner data) (fun _ => I).
Proof.
  unfold startRoutineInsert. run hoare_preparationState; [apply Inv_viewed|intros st]. cbv zeta.
  set (f := feed_ID (feed planner)). set (token := next64 _). run hoare_svc. intros c.
  case_match eqn:Ec.
  - rename p into c'. intros s (-> & Hst & HI). rewrite mbind_eq. cbn [fst snd mods modify set_state].
    pose proof (slots_start (InsertWork f token (routineGeneration st) data) planner _ _
      (inv_slots _ _ _ _ _ HI) Ec) as (Hso & Hin & Hr).
    eapply Inv_view; [|eapply (Inv_start_routine s.1 c' _ token st f HI Hso Hin); done]. done.
  - eapply hoare_pre; [|apply hoare_planner; auto with feeds]. by intros s (_ & _ & Hs).
Qed.

Lemma hoare_tickFeedAsync t k : hoare I (tickFeedAsync cfg Lookahead t k) (fun _ => I).
Proof.
  unfold tickFeedAsync. eapply hoare_bind; [by apply hoare_quiet_Inv|intros fs]. cbv beta.
  destruct (fs !! k) as [p|]; [|by intros s Hs].
  eapply hoare_bind; [by apply hoare_quiet_Inv|intros busy]. cbv beta.
  pose proof (feed_kept_writeState cfg) as Hw.
  case_match; [by intros s Hs|]. case_match; [by apply hoare_planner|]. case_match.
  - case_match; [by apply hoare_planner|].
    eapply hoare_seq; [apply hoare_startRoutinePreparation|by apply hoare_planner].
  - apply hoare_planner_seq; [auto with feeds|]. apply hoare_planner_seq; [auto with feeds|].
    eapply hoare_bind; [by apply hoare_quiet_Inv|intros fs']. cbv beta zeta.
    case_match; [by apply hoare_planner|]. case_match; [by apply hoare_planner|].
    eapply hoare_seq; [apply hoare_startRoutinePreparation|by apply hoare_planner].
Qed.

Lemma hoare_tickFeeds t k : hoare I (tickFeeds cfg Lookahead t k) (fun _ => I).
Proof.
  unfold tickFeeds. eapply hoare_bind; [by apply hoare_quiet_Inv|intros stop]. cbv beta.
  case_match; [by intros s Hs|].
  eapply hoare_bind; [apply hoare_quiet_Inv; auto with quiet|intros keys]. cbv beta.
  eapply hoare_seq; [apply hoare_for_each; intros; apply hoare_tickFeedAsync|].
  case_match; [by intros s Hs|apply hoare_tickFeedAsync].
Qed.

(** *** Priority work *)

Lemma hoare_release f a : hoare I (releasePriorityVersion f a) (fun _ => I).
Proof.
  intros s HI. unfold releasePriorityVersion. rewrite mbind_eq. cbn [svc gets fst snd].
  destruct (preparationStates s.1 !! f) as [st|] eqn:Est; [|done].
  rewrite mbind_eq. cbn [svc gets fst snd].
  assert (Hst : stateOf f s.1 = st) by (unfold stateOf; by rewrite Est).
  destruct (match active st with Some _ => _ | None => false end) eqn:Ea; [done|].
  destruct (existsb _ _) eqn:Ep; [done|].
  unfold on_svc. cbn. rewrite <- Hst. apply Inv_release; [done|..].
  - intros act. rewrite Hst. intros E Ha. rewrite E, Ha in Ea. by rewrite String.eqb_refl in Ea.
  - intros j Hj Ef Ha. apply not_true_iff_false in Ep. apply Ep, existsb_exists.
    exists j. split; [done|]. by rewrite Ef, Ha, !String.eqb_refl.
Qed.

Lemma hoare_prune t : hoare I (pruneStalePriorityPreparations cfg t) (fun _ => I).
Proof.
  unfold pruneStalePriorityPreparations.
  eapply hoare_bind with (Q := fun pending s => pending = priorityPending s.1 /\ I s).
  { apply hoare_svc. }
  intros pending.
  eapply hoare_bind with (Q := fun fs s => pending = priorityPending s.1 /\ I s).
  { by intros s Hs. }
  intros fs. cbv zeta.
  assert (Hv : viewed (fun s => pending = priorityPending s /\ Inv g [] [] bound s)).
  { intros s s' Hv [-> HI]. split; [by destruct Hv as (_ & _ & _ & -> & _)|by apply (Inv_viewed _ _ _ _ s)]. }
  eapply hoare_seq with (Q := on_svc (fun s => pending = priorityPending s /\ Inv g [] [] bound s)).
  { apply (hoare_quiet _ (fun s => pending = priorityPending s /\ Inv g [] [] bound s)); [|done].
    apply quiet_for_each. intros j. case_match; auto with quiet. }
  eapply hoare_seq with (Q := I).
  { apply hoare_mods. intros s w [-> HI]. by apply Inv_filter. }
  apply hoare_for_each. intros j _. apply hoare_release.
Qed.

Lemma start_pending_S n s :
  start_pending (S n) s =
  match startable s.1 [] (priorityPending s.1) with
  | None => (tt, (touch_states s.1, s.2))
  | Some (before, job, rest) =>
      match feeds s.1 !! job_feedID job with
      | None => (tt, (touch_states s.1, s.2))
      | Some planner =>
          match tryStartPriority planner job (preparations s.1) with
          | None => (tt, (touch_states s.1, s.2))
          | Some c =>
              let s1 := set_priorityPending (before ++ rest)%list
                (set_preparations c (touch_states s.1)) in
              let st := stateOf (job_feedID job) s1 in
              start_pending n (put (job_feedID job) (set_active (Some (as_active job)) st)
                (put (job_feedID job) st s1), s.2)
          end
      end
  end.
Proof.
  destruct s as [s w]. cbn [start_pending]. rewrite mbind_eq. cbn [svc gets fst snd].
  rewrite mbind_eq. cbn [mods modify fst snd].
  destruct (startable s [] (priorityPending s)) as [[[before job] rest]|]; [|done].
  rewrite !mbind_eq. cbn [svc gets fst snd].
  change (feeds (touch_states s)) with (feeds s). destruct (feeds s !! job_feedID job); [|done].
  change (preparations (touch_states s)) with (preparations s).
  destruct (tryStartPriority _ _ _); [|done]. rewrite !mbind_eq. done.
Qed.

Lemma hoare_start_pending n : hoare I (start_pending n) (fun _ => I).
Proof.
  induction n as [|n IH]; intros s HI; [done|]. rewrite start_pending_S.
  assert (Ht : I (touch_states s.1, s.2)) by (apply (Inv_view _ _ _ _ s.1); [apply touch_states_view|done]).
  destruct (startable _ _ _) as [[[before job] rest]|] eqn:E; [|done].
  apply startable_spec in E as (El & [p Ep] & Hnone). cbn [app] in El.
  rewrite Ep. destruct (tryStartPriority p job (preparations s.1)) as [c'|] eqn:Ec; [|done].
  cbv zeta. set (s1 := set_priorityPending _ _). apply IH.
  pose proof (touch_states_view s.1) as Hv.
  destruct (slots_start (PriorityWork job) p _ _ (inv_slots _ _ _ _ _ HI) Ec) as (Hso & Hin & Hr).
  eapply Inv_view; [|eapply (Inv_start _ _ _ _ s.1 before job rest c'); [done..|]].
  - destruct Hv as (_ & _ & Hst & _). split_and!; try done.
    intros f. cbn [fst]. rewrite !stateOf_put.
    assert (E1 : forall f', stateOf f' s1 = stateOf f' s.1) by (intros; apply Hst).
    rewrite !E1. by repeat case_decide.
  - intros x Hx. apply (in_permuted _ _ _ Hr), in_app_iff. by left.
Qed.

Lemma hoare_start : hoare I (startPendingPriorityPreparations cfg) (fun _ => I).
Proof.
  unfold startPendingPriorityPreparations.
  eapply hoare_bind; [by apply hoare_quiet_Inv|intros stop]. cbv beta.
  case_match; [by intros s Hs|].
  eapply hoare_bind; [apply hoare_quiet_Inv; auto with quiet|intros t]. cbv beta.
  eapply hoare_seq; [apply hoare_prune|].
  eapply hoare_bind; [by apply hoare_quiet_Inv|intros pending]. apply hoare_start_pending.
Qed.

End operations.

Lemma Inv_weaken g js rs bound bound' s :
  (forall f, bound f <= bound' f) -> Inv g js rs bound s -> Inv g js rs bound' s.
Proof.
  intros Hle []. split; try done. intros f a v E. specialize (inv_bound0 f a v E).
  specialize (Hle f). lia.
Qed.

Lemma next64_small z : 0 <= z -> z + 1 < 2 ^ 64 -> next64 z = z + 1.
Proof. intros. unfold next64. apply Z.mod_small. lia. Qed.

Lemma version_default g js rs bound s f a :
  Inv g js rs bound s -> 0 <= bound f -> 0 <= default 0 (versions s f a) <= bound f.
Proof.
  intros [] Hb. destruct (versions s f a) as [v|] eqn:E; simpl; [by apply (inv_bound0 f a)|lia].
Qed.

Section requests.
Context (g : ghost) (bound : string -> Z) (f : string) (Hb : 0 <= bound f) (Hmax : bound f + 1 < 2 ^ 64).
Context `{JSON} `{Env} `{Zones} `{Builder} `{PriorityBuilder} `{MapOrder} (cfg : loadedConfig).
Abbreviation I := (on_svc (Inv g [] [] bound)).
Abbreviation I' := (on_svc (Inv g [] [] (bump f bound))).

Lemma bump_le f' : bound f' <= bump f bound f'.
Proof. unfold bump. case_decide; [subst|]; lia. Qed.
Lemma I_weaken s : I s -> I' s.
Proof. apply Inv_weaken, bump_le. Qed.

(** The tail of [enqueuePriorityPreparation], once the backlog has room. *)
Definition enqueue_tail (alertID : string) (data : obj) (filtered : list priorityPreparationJob) :
    SM (option string) :=
  mods (set_priorityPending filtered) ;;;
  let! st := preparationState f in
  let version := next64 (default 0 (priorityVersions st !! alertID)) in
  set_state f (set_versions (<[alertID := version]> (priorityVersions st)) st) ;;;
  match active st with
  | Some a => if active_alertID a =? alertID then cancel_priority a else ret tt
  | None => ret tt
  end ;;;
  let! n := svc nextPreparationToken in
  mods (set_nextPreparationToken (next64 n)) ;;;
  mods (fun s => set_priorityPending (priorityPending s ++
    [MkJob (next64 n) f alertID version data])%list s) ;;;
  startPendingPriorityPreparations cfg ;;;
  ret None.

(** What holds between the bump of the version and the new request. *)
Definition room (alertID : string) (version : Z) (s : Service) : Prop :=
  Inv g [] [] (bump f bound) s /\ is_Some (ids s !! f) /\
  versions s f alertID = Some version /\
  (forall j, In j (priorityPending s) -> request_key j <> (f, alertID)) /\
  Z.of_nat (length (priorityPending s)) < priorityPreparationBacklog.

Lemma room_viewed a v : viewed (room a v).
Proof.
  intros s s' Hv (HI & Hf & Hver & Hp & Hl). split; [by apply (Inv_view _ _ _ _ s)|].
  destruct Hv as (-> & _ & Hst & -> & _). unfold versions in *. by rewrite Hst.
Qed.

Lemma hoare_enqueue_tail alertID data filtered :
  not_gone g ->
  (forall j, In j filtered -> request_key j <> (f, alertID)) ->
  Z.of_nat (length filtered) < priorityPreparationBacklog ->
  hoare (fun s => Inv g [] [] bound (set_priorityPending filtered s.1) /\ is_Some (ids s.1 !! f))
    (enqueue_tail alertID data filtered) (fun _ => I').
Proof.
  intros Hg Hfresh Hlen. unfold enqueue_tail.
  eapply hoare_seq with (Q := on_svc (fun s => Inv g [] [] bound s /\ is_Some (ids s !! f) /\
    priorityPending s = filtered)).
  { apply hoare_mods. by intros s w [HI Hf]. }
  eapply hoare_bind.
  { apply hoare_preparationState. intros s s' Hv (HI & Hf & Hp). split; [by apply (Inv_view _ _ _ _ s)|].
    by destruct Hv as (-> & _ & _ & -> & _). }
  intros st. cbv beta zeta. set (version := next64 _).
  eapply hoare_seq with (Q := on_svc (room alertID version)).
  { apply hoare_mods. intros s w [-> (HI & Hf & Hp)]. cbn [fst] in *.
    assert (Ev : version = default 0 (versions s f alertID) + 1).
    { pose proof (version_default _ _ _ _ _ f alertID HI Hb). apply next64_small; unfold versions in *; lia. }
    split; [|split; [done|split; [|by rewrite <- Hp in *]]].
    - apply (Inv_bump _ _ _ _ _ _ _ (fun a => a = alertID)); try done.
      + intros a. destruct (decide (a = alertID)); auto.
      + intros a ->. by rewrite lookup_insert_eq, Ev.
      + intros a Ha. by rewrite lookup_insert_ne.
      + intros j Hj <- <-. rewrite Hp in Hj. by apply (Hfresh j).
    - unfold versions. cbn [fst]. rewrite stateOf_insert, decide_True by done. apply lookup_insert_eq. }
  eapply hoare_seq with (Q := on_svc (room alertID version)).
  { assert (Hret : hoare (on_svc (room alertID version)) (ret tt) (fun _ => on_svc (room alertID version)))
      by by intros s Hs.
    case_match; [|done]. case_match; [|done]. apply hoare_mods. intros s w (HI & Hr).
    split; [by apply Inv_cancel_workers|done]. }
  eapply hoare_bind; [apply hoare_quiet; [done|apply room_viewed]|intros n; cbv beta].
  eapply hoare_seq with (Q := on_svc (room alertID version)).
  { apply hoare_quiet; [by intros [s w]|apply room_viewed]. }
  eapply hoare_seq with (Q := I').
  { apply hoare_mods. intros s w (HI & Hf & Hv & Hp & Hl). by apply Inv_append. }
  eapply hoare_seq; [apply hoare_start|]. by intros s Hs.
Qed.

Lemma hoare_enqueue k planner data :
  f = feed_ID (feed planner) -> not_gone g ->
  hoare (fun s => I s /\ is_Some (ids s.1 !! f)) (enqueuePriorityPreparation cfg k planner data)
    (fun _ => I').
Proof.
  intros Ef Hg. unfold enqueuePriorityPreparation. rewrite <- Ef. cbv zeta.
  set (F := fun m : gmap string string => is_Some (m !! f)).
  assert (Hq : forall A (m : SM A), quiet m -> hoare (fun s => I s /\ F (ids s.1)) m
    (fun _ s => I s /\ F (ids s.1))).
  { intros A m Hm. apply (hoare_ids F _ I (fun _ => I)); [by apply ids_kept_quiet|by apply hoare_quiet_Inv]. }
  eapply hoare_bind; [apply Hq; auto with quiet|intros [data' alertID]; cbv beta].
  eapply hoare_bind; [apply Hq; auto with quiet|intros t; cbv beta].
  case_match.
  { eapply hoare_post; [|intros a s Hs; apply I_weaken, Hs].
    eapply hoare_pre; [intros s [Hs _]; exact Hs|]. apply hoare_quiet_Inv.
    apply quiet_bind; [auto with quiet|intros _].
    apply quiet_bind; [auto with quiet feeds|intros _; auto with quiet]. }
  eapply hoare_seq; [apply (hoare_ids F _ I (fun _ => I)); [apply ids_kept_invalidate|apply hoare_invalidate]|].
  eapply hoare_seq; [apply Hq; auto with quiet|].
  eapply hoare_bind; [apply Hq; auto with quiet|intros t'; cbv beta].
  eapply hoare_seq; [apply (hoare_ids F _ I (fun _ => I)); [apply ids_kept_prune|apply hoare_prune]|].
  (* the backlog *)
  intros [s w] [HI HF]. rewrite mbind_eq. cbn [svc gets fst snd]. rewrite mbind_eq. cbn [svc gets fst snd].
  assert (Hlimit : maxPriorityPending s = priorityPreparationBacklog) by apply HI.
  rewrite Hlimit. change (priorityPreparationBacklog <=? 0)%Z with false. cbv iota.
  set (filtered := List.filter _ _).
  destruct (priorityPreparationBacklog <=? Z.of_nat (length filtered))%Z eqn:El.
  { apply I_weaken. apply (hoare_planner_seq g bound k _ (ret _) (fun _ => I)); [auto with feeds|by intros ? ?|done]. }
  bool_hyps. apply (hoare_enqueue_tail alertID data' filtered); [done|..|done|].
  - intros j [_ Hj]%filter_In [= E1 E2]. unfold same_request in Hj.
    by rewrite E1, E2, !String.eqb_refl in Hj.
  - split; [by apply Inv_filter|done].
Qed.
Lemma mem_cases x l : Bool.reflect (In x l) (mem x l).
Proof. apply iff_reflect. by rewrite mem_spec. Qed.

Lemma bump_ids (m : gmap string Z) (l : list string) :
  NoDup l -> (forall a, 0 <= default 0 (m !! a) <= bound f) ->
  forall a, fold_left (fun (m : gmap string Z) id => <[id := next64 (default 0 (m !! id))]> m) l m !! a =
    if mem a l then Some (default 0 (m !! a) + 1) else m !! a.
Proof.
  revert m. induction l as [|x l IH] using rev_ind; intros m Hn Hm a; [done|].
  apply list.NoDup_app in Hn as (Hl & Hx & _). rewrite fold_left_app. simpl.
  assert (Hnx : ~ In x l) by (intros Hin; apply (Hx x); [by apply list_elem_of_In|by left]).
  destruct (mem_cases a (l ++ [x])) as [Ha|Ha]; rewrite in_app_iff in Ha; simpl in Ha.
  - destruct (decide (x = a)) as [->|Hne].
    + rewrite lookup_insert_eq, (IH m Hl Hm a). destruct (mem_cases a l); [done|].
      f_equal. apply next64_small; specialize (Hm a); lia.
    + rewrite lookup_insert_ne, (IH m Hl Hm a) by done. destruct (mem_cases a l); [done|tauto].
  - rewrite lookup_insert_ne, (IH m Hl Hm a) by tauto. destruct (mem_cases a l); [tauto|done].
Qed.

Lemma priorityAlertIDs_NoDup data : NoDup (priorityAlertIDs data).
Proof.
  unfold priorityAlertIDs, uniqueStrings.
  match goal with |- NoDup (dedup_loop ?e ?s ?l) =>
    destruct (dedup_loop_keys e id s l) as [Hn _] end.
  - intros a k b. unfold uniqueStrings_entry. cbv zeta. case_match; [done|]. by intros [= <- <-].
  - by rewrite map_id in Hn.
Qed.

Lemma hoare_cancel planner data :
  f = feed_ID (feed planner) -> hoare I (cancelPriorityPreparations planner data) (fun _ => I').
Proof.
  intros Ef. unfold cancelPriorityPreparations. rewrite <- Ef. cbv zeta.
  set (l := priorityAlertIDs data).
  case_match; [intros s Hs; by apply I_weaken|].
  run hoare_preparationState; [apply Inv_viewed|intros st].
  (* the two updates are one change for the invariant *)
  intros [s w] [-> HI]. rewrite mbind_eq. cbn [set_state mods modify fst snd].
  rewrite mbind_eq. cbn [set_state mods modify fst snd].
  set (m := fold_left _ _ _). set (keep := fun j => negb ((job_feedID j =? f) && _)).
  set (s1 := set_priorityPending _ _).
  assert (HI1 : Inv g [] [] (bump f bound) s1).
  { change s1 with (put f (set_versions m (stateOf f (set_priorityPending (List.filter keep (priorityPending s)) s)))
      (set_priorityPending (List.filter keep (priorityPending s)) s)).
    assert (Hm := bump_ids (priorityVersions (stateOf f s)) l (priorityAlertIDs_NoDup data)
      (fun a => version_default _ _ _ _ _ f a HI Hb)).
    apply (Inv_bump _ _ _ _ _ _ _ (fun a => In a l)); try done.
    - by apply Inv_filter.
    - intros a. destruct (mem_cases a l); auto.
    - intros a Ha. unfold m. rewrite Hm. by destruct (mem_cases a l).
    - intros a Ha. unfold m. rewrite Hm. by destruct (mem_cases a l).
    - intros j [_ Hk]%filter_In Hf Hin. unfold keep in Hk.
      by rewrite Hf, String.eqb_refl, (proj2 (mem_spec _ _) Hin) in Hk. }
  revert HI1. generalize s1. intros s2 Hs2. revert Hs2.
  apply (hoare_seq _ _ I' I' (fun _ => I')) with (s := (s2, w));
    [|apply hoare_for_each; intros a _; apply hoare_release].
  case_match; [|by intros ? ?]. case_match; [|by intros ? ?].
  apply hoare_mods. intros s' w' Hs'. by apply Inv_cancel_workers.
Qed.
End requests.

(** ** Results *)

Lemma Inv_routine_done g bound s k t :
  Inv g [] [(k, t)] bound s ->
  (is_Some (ids s !! k) -> routineInFlight (stateOf k s) = true -> routineToken (stateOf k s) <> t) ->
  Inv g [] [] bound s.
Proof.
  intros HI Hk. eapply Inv_change; [exact HI|try done..|]; [apply HI|].
  intros f Hs Hf. pose proof (inv_routine _ _ _ _ _ HI f Hs Hf) as [[= -> ->]|Hin]; [|done].
  by apply Hk in Hf.
Qed.

Lemma Inv_routine_cleared g bound s k t :
  Inv g [] [(k, t)] bound s -> 
  Inv g [] [] bound (put k (set_routine (routineGeneration (stateOf k s)) (routineToken (stateOf k s))
    false None (stateOf k s)) s).
Proof.
  intros HI. apply (Inv_put_routine _ _ [(k, t)]); try done.
  intros f Hne Hs Hf. pose proof (inv_routine _ _ _ _ _ HI f Hs Hf) as [[= E _]|Hin]; [by subst|done].
Qed.

Section results.
Context (g : ghost) (bound : string -> Z).
Context `{JSON} `{Env} `{Zones} `{Builder} `{PriorityBuilder} `{MapOrder} (cfg : loadedConfig) (Lookahead : Z).
Abbreviation I := (on_svc (Inv g [] [] bound)).

(** A routine result is applied, or thrown away when it is out of date. *)
Definition apply_routine (result : routinePreparationResult) (st : feedPreparationState) : SM unit :=
  let k := rr_feedID result in
  let prepared := rr_prepared result in
  if negb (rr_generation result =? routineGeneration st)%Z ||
     negb (routineToken st =? rr_token result)%Z then
    outside (discard_routine cfg prepared) ;;;
    let! t := outside now in tickFeeds cfg Lookahead t k
  else
    on_planner k (modp (applyRoutinePlanningState (r_planner prepared))) ;;;
    (if rr_insert result then
       whenb (r_ok prepared) (on_planner k (append_all cfg (r_items prepared)))
     else
       whenb (rr_startup result) (on_planner k (modp (set_startupPrimerPending false))) ;;;
       let! fs := svc feeds in
       if r_ok prepared &&
          match fs !! k with
          | Some p => (mode p =? "running") && (priorityActive p =? 0)%Z
          | None => false
          end
       then on_planner k (append_all cfg (r_items prepared))
       else outside (discard_routine cfg prepared)) ;;;
    on_planner k (writeState cfg) ;;;
    let! t := outside now in tickFeeds cfg Lookahead t k.

Lemma hoare_apply_routine result st : hoare I (apply_routine result st) (fun _ => I).
Proof.
  assert (Htick : forall k, hoare I (let! t := outside now in tickFeeds cfg Lookahead t k) (fun _ => I)).
  { intros k. eapply hoare_bind; [apply hoare_quiet_Inv; auto with quiet|intros t; apply hoare_tickFeeds]. }
  unfold apply_routine. cbv zeta. case_match.
  { eapply hoare_seq; [apply hoare_quiet_Inv; auto with quiet|apply Htick]. }
  apply hoare_planner_seq; [auto with feeds|]. eapply hoare_seq with (Q := I).
  - case_match; apply hoare_quiet_Inv.
    + apply quiet_whenb. auto with quiet feeds.
    + apply quiet_bind; [apply quiet_whenb, quiet_on_planner, feed_kept_modp; by intros []|intros _].
      apply quiet_bind; [auto with quiet|intros fs]. case_match; auto with quiet feeds.
  - apply hoare_planner_seq; [auto with feeds|apply Htick].
Qed.

Lemma hoare_routine_result r :
  hoare (on_svc (Inv g [] [(rr_feedID r, rr_token r)] bound))
    (handleRoutinePreparationResult cfg Lookahead r) (fun _ => I).
Proof.
  intros s HI. unfold handleRoutinePreparationResult. cbv zeta. set (k := rr_feedID r) in *.
  rewrite mbind_eq. cbn [svc gets fst snd].
  destruct (feeds s.1 !! k) as [p|] eqn:Ek.
  2:{ apply (Inv_routine_done _ _ _ k (rr_token r)); [done|]. unfold ids.
      rewrite lookup_fmap. cbn. rewrite Ek. by intros []. }
  clear Ek. revert s HI.
  change (hoare (on_svc (Inv g [] [(k, rr_token r)] bound)) (let! st := preparationState k in
    (if routineInFlight st && (routineToken st =? rr_token r)%Z then
       cancel_routine k st ;;;
       set_state k (set_routine (routineGeneration st) (routineToken st) false None st)
     else ret tt) ;;; apply_routine r st) (fun _ => I)).
  run hoare_preparationState; [apply Inv_viewed|intros st].
  eapply hoare_seq; [|apply hoare_apply_routine].
  case_match eqn:Ef.
  - eapply hoare_seq with (Q := fun s => st = stateOf k s.1 /\ on_svc (Inv g [] [(k, rr_token r)] bound) s).
    { unfold cancel_routine. case_match; [|by intros s Hs]. apply hoare_mods.
      intros s w [-> HI]. split; [done|by apply Inv_cancel_workers]. }
    apply hoare_mods. intros s w [-> HI]. by apply (Inv_routine_cleared _ _ _ _ (rr_token r)).
  - intros s [-> HI]. apply (Inv_routine_done g bound s.1 k (rr_token r)); [done|].
    intros _ Hf Ht. by rewrite Hf, Ht, Z.eqb_refl in Ef.
Qed.

(** What follows once the feed's slot is free. *)
Definition finish_priority (result : priorityPreparationResult) (planner : feedPlanner)
    (st : feedPreparationState) (mine : bool) : SM unit :=
  let job := pr_job result in
  let k := job_feedID job in
  let isCurrent := (default 0 (priorityVersions st !! job_alertID job) =? job_version job)%Z in
  let! stale :=
    if mine && isCurrent
    then let! t := outside now in ret (priorityAlertRequestStale (job_data job) t)
    else ret false in
  (if negb mine || negb isCurrent || stale then
     on_planner k (io (discardPriorityAlertPreparation (pr_prepared result))) ;;;
     whenb isCurrent
       (let! t := outside now in
        whenb (priorityAlertRequestStale (job_data job) t)
          (outside (cleanupSupersededAlertQueueParts (BaseDir cfg) (feed_ID (feed planner))
             (job_alertID job) "") ;;;
           on_planner k (publishAutomationDispatchStatus (job_data job) "failed"
             "priority alert request became stale during preparation"))) ;;;
     startPendingPriorityPreparations cfg
   else
     match pr_err result with
     | Some e =>
         on_planner k (fail_prepared cfg job (pr_prepared result) e) ;;;
         startPendingPriorityPreparations cfg
     | None =>
         on_planner k (commit_prepared cfg job (pr_prepared result)) ;;;
         startPendingPriorityPreparations cfg
     end) ;;;
  releasePriorityVersion k (job_alertID job).

Lemma hoare_finish_priority result planner st mine :
  hoare I (finish_priority result planner st mine) (fun _ => I).
Proof.
  unfold finish_priority. cbv zeta.
  eapply hoare_bind with (Q := fun _ => I).
  { apply hoare_quiet_Inv. case_match; [|auto with quiet]. apply quiet_bind; auto with quiet. }
  intros stale. eapply hoare_seq; [|apply hoare_release].
  case_match; [|case_match; apply hoare_planner_seq; auto with feeds; apply hoare_start].
  apply hoare_planner_seq; [auto with feeds|]. eapply hoare_seq; [|apply hoare_start].
  apply hoare_quiet_Inv, quiet_whenb, quiet_bind; [auto with quiet|intros t].
  apply quiet_whenb, quiet_bind; [auto with quiet|intros _]. auto with quiet feeds.
Qed.

(** The handler, when the result is of the active request. *)
Lemma handle_priority_eq result planner s :
  let job := pr_job result in
  let k := job_feedID job in
  feeds s.1 !! k = Some planner -> active (stateOf k s.1) = Some (as_active job) ->
  handlePriorityPreparationResult cfg result s =
  finish_priority result planner (stateOf k s.1) true
    (put k (set_active None (stateOf k s.1))
       (set_preparations (cancel_workers (is_priority_of (job_token job)) (preparations s.1))
          (put k (stateOf k s.1) s.1)), s.2).
Proof.
  intros job k Hp Ha. unfold handlePriorityPreparationResult. cbv zeta. fold job k.
  rewrite mbind_eq. cbn [svc gets fst snd]. rewrite Hp.
  rewrite mbind_eq. change (preparationState k s) with
    (stateOf k s.1, (put k (stateOf k s.1) s.1, s.2)).
  cbn [fst snd]. rewrite Ha. cbn [as_active active_token]. rewrite Z.eqb_refl.
  rewrite (mbind_eq (fun _ => _) (cancel_priority _ ;;; _)). done.
Qed.
End results.

Lemma hoare_priority_result g' bound result `{JSON} `{Env} `{Zones} `{Builder} `{PriorityBuilder}
    `{MapOrder} cfg :
  hoare (fun s => exists g, Inv g [pr_job result] [] bound s.1 /\
      settles (pr_job result) (preparations s.1) g g')
    (handlePriorityPreparationResult cfg result) (fun _ => on_svc (Inv g' [] [] bound)).
Proof.
  intros [s w] (g & HI & Hset). cbn [fst] in *. set (job := pr_job result) in *.
  set (k := job_feedID job).
  assert (Hserved : is_Some (ids s !! k)) by (apply HI; by left).
  unfold ids in Hserved. rewrite lookup_fmap in Hserved.
  destruct (feeds s !! k) as [planner|] eqn:Ep; [clear Hserved|by destruct Hserved].
  assert (Ha : active (stateOf k s) = Some (as_active job)) by (eapply active_alert; [exact HI|by left]).
  rewrite (handle_priority_eq _ _ planner) by done. apply hoare_finish_priority.
  unfold on_svc. cbn [fst]. fold job k. set (s1 := set_preparations _ _).
  assert (HI1 : Inv g [job] [] bound s1).
  { apply (Inv_cancel_workers _ _ _ _ _ (put k (stateOf k s) s)). apply (Inv_view _ _ _ _ s); [|done].
    split_and!; try done. intros f. rewrite stateOf_put. by case_decide; subst. }
  assert (E : stateOf k s = stateOf k s1).
  { change (stateOf k s1) with (stateOf k (put k (stateOf k s) s)). by rewrite stateOf_put, decide_True. }
  rewrite E. apply (Inv_clear g); [done|].
  destruct (slots_cancel (is_priority_of (job_token job)) (preparations s)) as (_ & Hin & _); [apply HI|].
  destruct Hset; constructor. by rewrite <- Hin in *.
Qed.

(** ** Events *)

Lemma add_feeds_NoDup fs out found : NoDup out -> NoDup (add_feeds fs out found).
Proof.
  unfold add_feeds. revert out. induction found as [|k found IH]; intros out Hn; [done|]. simpl.
  apply IH. case_match eqn:Em; [done|].
  apply (NoDup_snoc_perm out _ k); [done| |done]. intros Hin.
  apply not_true_iff_false in Em. apply Em, mem_spec, in_map_iff.
  exists k. split; [done|by apply list_elem_of_In].
Qed.

Lemma match_each_NoDup `{MapOrder} l out s : NoDup out -> NoDup (match_each l out s).1.
Proof.
  revert out s. induction l as [|k l IH]; intros out s Hn; [done|]. cbn [match_each].
  rewrite !mbind_eq. by apply IH, add_feeds_NoDup.
Qed.

Lemma matchFeedsFromEvent_NoDup `{MapOrder} `{JSON} e s : NoDup (matchFeedsFromEvent e s).1.
Proof. apply match_each_NoDup, NoDup_nil_2. Qed.

Section events.
Context (g : ghost) (n : Z) (Hn : 0 <= n) (Hmax : n + 1 < 2 ^ 64) (Hg : not_gone g).
Context `{JSON} `{Env} `{Zones} `{Builder} `{PriorityBuilder} `{MapOrder} (cfg : loadedConfig) (Lookahead : Z).
Abbreviation I b := (on_svc (Inv g [] [] b)).

(** A loop over distinct feeds raises each feed's counters at most once. *)
Lemma hoare_each_feed (body : string -> SM unit) ks b :
  (forall k b, b k = n -> hoare (I b) (body k) (fun _ => I (bump k b))) ->
  NoDup ks -> (forall k, In k ks -> b k = n) -> (forall f, n <= b f <= n + 1) ->
  hoare (I b) (for_each body ks) (fun _ => I (fun _ => n + 1)).
Proof.
  intros Hbody. revert b. induction ks as [|k ks IH]; intros b Hks Hb Hle.
  - intros s Hs. apply (Inv_weaken _ _ _ b); [|done]. intros f. apply Hle.
  - apply list.NoDup_cons in Hks as [Hk Hks]. cbn [for_each].
    eapply hoare_seq; [apply Hbody, Hb; by left|]. apply IH; [done|..].
    + intros k' Hk'. unfold bump. rewrite decide_False; [apply Hb; by right|].
      intros ->. by apply Hk, list_elem_of_In.
    + intros f. unfold bump. case_decide; [|apply Hle]. rewrite (Hb k) by by left. lia.
Qed.

(** An operation on the planner under a key, whose feed has that id. *)
Lemma hoare_with_planner b b' (body : string -> feedPlanner -> SM unit) k :
  (forall p, feed_ID (feed p) = k -> 
     hoare (fun s => I b s /\ is_Some (ids s.1 !! k)) (body k p) (fun _ => I b')) ->
  (forall f, b f <= b' f) ->
  hoare (I b) (with_planner body k) (fun _ => I b').
Proof.
  intros Hbody Hle s HI. unfold with_planner. rewrite mbind_eq. cbn [svc gets fst snd].
  destruct (feeds s.1 !! k) as [p|] eqn:E; [|by apply (Inv_weaken _ _ _ b)].
  assert (Hid : ids s.1 !! k = Some (feed_ID (feed p))) by (unfold ids; by rewrite lookup_fmap, E).
  apply Hbody; [by apply HI in Hid|]. split; [done|by rewrite Hid].
Qed.

Lemma bump_le' b k f : b f <= bump k b f.
Proof. unfold bump. case_decide; [subst|]; lia. Qed.

Lemma hoare_requested data k b :
  b k = n -> hoare (I b) (with_planner (on_requested cfg data) k) (fun _ => I (bump k b)).
Proof.
  intros Hb. apply hoare_with_planner; [|apply bump_le'].
  intros p Hp. unfold on_requested.
  eapply hoare_bind; [apply (hoare_enqueue g b k); [lia|lia|done|done]|].
  intros err. cbv beta. case_match; apply hoare_planner; auto with feeds.
Qed.

Lemma hoare_cancelled data k b :
  b k = n -> hoare (I b) (with_planner (on_cancelled cfg data) k) (fun _ => I (bump k b)).
Proof.
  intros Hb. apply hoare_with_planner; [|apply bump_le'].
  intros p Hp. unfold on_cancelled.
  eapply hoare_seq.
  { eapply hoare_pre; [intros s [Hs _]; exact Hs|]. apply (hoare_cancel g b k); [lia|lia|done]. }
  eapply hoare_seq; [apply hoare_invalidate|].
  apply hoare_planner_seq; [auto with feeds|]. apply hoare_planner. auto with feeds.
Qed.

Abbreviation In0 := (I (fun _ => n)).
Abbreviation In1 := (I (fun _ => n + 1)).

Lemma hoare_weaken {A} (m : SM A) : hoare In0 m (fun _ => In0) -> hoare In0 m (fun _ => In1).
Proof.
  intros Hm s Hs. apply (Inv_weaken _ _ _ (fun _ => n)); [intros; lia|]. by apply (Hm s).
Qed.

(** Loops that touch no version counter. *)
Lemma hoare_each body ks :
  (forall k p, hoare In0 (body k p) (fun _ => In0)) ->
  hoare In0 (for_each (with_planner body) ks) (fun _ => In0).
Proof.
  intros Hb. apply hoare_for_each. intros k _. apply hoare_with_planner; [|intros; lia].
  intros p _. eapply hoare_pre; [intros s [Hs _]; exact Hs|apply Hb].
Qed.

Lemma hoare_invalidate_then f k m :
  feed_kept m -> hoare In0 (invalidateRoutinePreparation f ;;; on_planner k m) (fun _ => In0).
Proof. intros Hm. eapply hoare_seq; [apply hoare_invalidate|by apply hoare_planner]. Qed.

Lemma hoare_on_insert data k p : hoare In0 (on_insert cfg data k p) (fun _ => In0).
Proof.
  unfold on_insert. eapply hoare_seq; [apply hoare_invalidate|].
  apply hoare_planner_seq; [auto with feeds|].
  apply hoare_with_planner; [|intros; lia]. intros p' _.
  eapply hoare_pre; [intros s [Hs _]; exact Hs|]. by apply hoare_startRoutineInsert.
Qed.

Lemma hoare_matched {B} (m : SM (list string)) (k : list string -> SM B) R :
  quiet m -> (forall ks, hoare In0 (k ks) R) -> hoare In0 (mbind k m) R.
Proof. intros Hm Hk. eapply hoare_bind; [by apply hoare_quiet_Inv|exact Hk]. Qed.

Lemma hoare_matched_once event (body : string -> SM unit) :
  (forall k b, b k = n -> hoare (I b) (body k) (fun _ => I (bump k b))) ->
  hoare In0 (let! ks := matchFeedsFromEvent event in for_each body ks) (fun _ => In1).
Proof.
  intros Hbody s Hs. rewrite mbind_eq. apply (hoare_each_feed _ _ (fun _ => n)); [done|..].
  - apply matchFeedsFromEvent_NoDup.
  - done.
  - intros. lia.
  - by apply (hoare_quiet_Inv g _ _ (quiet_matchFeedsFromEvent event)).
Qed.

Lemma hoare_event event : hoare In0 (handleEvent cfg event) (fun _ => In1).
Proof.
  unfold handleEvent. cbv zeta.
  pose proof quiet_matchFeeds. pose proof quiet_matchFeedsFromEvent.
  case_match; [apply hoare_weaken; by intros ? ?|].
  case_match; [apply hoare_weaken, hoare_matched; [done|intros ks; apply hoare_each; intros;
    apply hoare_invalidate_then; auto with feeds]|].
  case_match; [apply hoare_weaken, hoare_matched; [done|intros ks; apply hoare_each; intros;
    apply hoare_on_insert]|].
  case_match; [apply hoare_matched_once; intros; by apply hoare_requested|].
  case_match; [apply hoare_matched_once; intros; by apply hoare_cancelled|].
  case_match; [apply hoare_weaken, hoare_matched; [done|intros ks; apply hoare_each; intros;
    apply hoare_invalidate_then; auto with feeds]|].
  do 3 (case_match; [apply hoare_weaken, hoare_planner; auto with feeds|]).
  case_match; [apply hoare_weaken, hoare_matched; [done|intros ks; apply hoare_each; intros;
    apply hoare_invalidate_then; auto with feeds]|].
  apply hoare_weaken, hoare_quiet_Inv.
  case_match; [|case_match; [case_match|]]; auto with quiet.
  - repeat (apply quiet_bind; [by auto with quiet || intros []|intros]).
    apply quiet_for_each. auto with quiet feeds.
  - apply quiet_bind; [auto with quiet|intros]. apply quiet_for_each. auto with quiet feeds.
Qed.
End events.
