(* ===== verification/PreparationRuns.v ===== *)
(** The runs of the preparation machinery: the invariant of
    [PreparationSafety.v] holds in every state the process reaches, and what
    follows from it for the alerts. *)

From S2P Require Import Prelude UnicodeTables GoStrings GoTime GoValue GoPath AlertPacket.
From S2P Require Import PlaylistModel World AlertRequest AudioRetention PlannerState.
From S2P Require Import AlertCommit RoutinePlan Preparation PreparationSafety.

#[local] Open Scope Z_scope.
#[local] Open Scope string_scope.
#[local] Open Scope haze_scope.

(** ** Nothing is sent while a result is thrown away *)

Definition silent {A} (m : SM A) : Prop := forall s, published (m s).2.2 = published s.2.

Lemma silent_bind {A B} (f : A -> SM B) (m : SM A) :
  silent m -> (forall a, silent (f a)) -> silent (mbind f m).
Proof. intros Hm Hf s. rewrite mbind_eq. etrans; [apply Hf|apply Hm]. Qed.
Lemma silent_mods f : silent (mods f).
Proof. done. Qed.
Lemma silent_ret {A} (a : A) : silent (ret a).
Proof. done. Qed.
Lemma silent_svc {A} (f : Service -> A) : silent (svc f).
Proof. done. Qed.
Lemma silent_set_state f st : silent (set_state f st).
Proof. done. Qed.
Lemma silent_preparationState f : silent (preparationState f).
Proof. done. Qed.
Lemma silent_outside {A} (m : M World A) :
  (forall w, published (m w).2 = published w) -> silent (outside m).
Proof. intros Hm [s w]. unfold outside. cbn. specialize (Hm w). by destruct (m w). Qed.
Lemma silent_for_each {A} (f : A -> SM unit) l : (forall a, silent (f a)) -> silent (for_each f l).
Proof. intros Hf. induction l as [|a l IH]; simpl; [done|]. by apply silent_bind. Qed.

Section silence.
Context `{JSON} `{Env} (cfg : loadedConfig).

Lemma silent_cleanup b f a k : silent (outside (cleanupSupersededAlertQueueParts b f a k)).
Proof.
  apply silent_outside. intros w. unfold cleanupSupersededAlertQueueParts.
  apply (for_each_ind (fun w' => published w' = published w)); [done|].
  intros id w' _ <-. by destruct (cleanup_entry_files b k id w') as (_ & _ & -> & _).
Qed.

Lemma discard_silent prepared w :
  published (discardPriorityAlertPreparation prepared w).2 = published w.
Proof. unfold discardPriorityAlertPreparation. by case_match. Qed.

Lemma silent_discard k prepared :
  silent (on_planner k (io (discardPriorityAlertPreparation prepared))).
Proof.
  intros [s w]. unfold on_planner. cbn. destruct (feeds s !! k); [|done].
  unfold io. cbn. pose proof (discard_silent prepared w). by destruct (discardPriorityAlertPreparation _ w).
Qed.

Lemma silent_release f a : silent (releasePriorityVersion f a).
Proof.
  unfold releasePriorityVersion. apply silent_bind; [done|]. intros sts. case_match; [|done].
  apply silent_bind; [done|]. intros pending. by repeat case_match.
Qed.

Lemma silent_start_pending n : silent (start_pending n).
Proof.
  induction n as [|n IH]; intros s; [done|]. rewrite start_pending_S.
  repeat case_match; try done. cbv zeta. by rewrite IH.
Qed.

Lemma silent_start : silent (startPendingPriorityPreparations cfg).
Proof.
  unfold startPendingPriorityPreparations. apply silent_bind; [done|]. intros stop. case_match; [done|].
  apply silent_bind; [by apply silent_outside|]. intros t. apply silent_bind.
  - unfold pruneStalePriorityPreparations. apply silent_bind; [done|]. intros pending.
    apply silent_bind; [done|]. intros fs. apply silent_bind.
    + apply silent_for_each. intros j. case_match; [apply silent_cleanup|done].
    + intros _. apply silent_bind; [done|]. intros _. apply silent_for_each. intros. apply silent_release.
  - intros _. apply silent_bind; [done|]. intros pending. apply silent_start_pending.
Qed.

(** A result whose request was superseded. *)
Lemma silent_superseded result planner st :
  default 0 (priorityVersions st !! job_alertID (pr_job result)) <> job_version (pr_job result) ->
  silent (finish_priority cfg result planner st true).
Proof.
  intros Hne. unfold finish_priority. cbv zeta.
  rewrite (proj2 (Z.eqb_neq _ _) Hne). cbn [andb negb orb whenb].
  apply silent_bind; [done|]. intros stale. apply silent_bind; [|intros; apply silent_release].
  apply silent_bind; [apply silent_discard|]. intros _.
  apply silent_bind; [done|]. intros _. apply silent_start.
Qed.
End silence.

(** ** Steps *)

Section steps.
Context `{JSON} `{Env} `{Zones} `{Builder} `{PriorityBuilder} `{MapOrder} (cfg : loadedConfig) (Lookahead : Z).

Lemma perform_answers w s : answers w (perform cfg w s).1.
Proof. by destruct w; unfold perform; rewrite mbind_eq. Qed.

(** The handling of the next result, from the state it is taken in. *)
Lemma take_result_eq s r rest :
  results (preparations s.1) = r :: rest ->
  take_result cfg Lookahead s =
    match r with
    | RoutineResult r => handleRoutinePreparationResult cfg Lookahead r
    | PriorityResult r => handlePriorityPreparationResult cfg r
    end (set_preparations (releaseResultSlot (set_results rest (preparations s.1))) s.1, s.2).
Proof.
  intros Er. unfold take_result. rewrite mbind_eq. cbn [svc gets fst snd]. rewrite Er.
  rewrite mbind_eq. cbn [mods modify fst snd]. unfold handlePreparationResult. by rewrite mbind_eq.
Qed.

Lemma finish_worker_Inv g bound s before w after :
  Inv g [] [] bound s.1 -> workers (preparations s.1) = (before ++ w :: after)%list ->
  w_result w = None -> Inv g [] [] bound (finish_worker cfg before w after s).2.1.
Proof.
  intros HI Ew En. unfold finish_worker.
  pose proof (perform_answers (w_work w) (w_snapshot w, s.2)) as Ha.
  destruct (perform cfg (w_work w) (w_snapshot w, s.2)) as [r [p' world]]. cbn [fst snd] in *.
  destruct (slots_finish (preparations s.1) before w r after) as (Hso & Hin & Hr);
    [apply HI|done..|].
  apply Inv_coord; [done..|by rewrite Hin|by rewrite Hr].
Qed.

(** One step of a running process. *)
Lemma step_Inv g n s s' :
  step cfg Lookahead s s' -> ctxDone s.1 = false -> not_gone g -> 0 <= n -> n + 1 < 2 ^ 64 ->
  Inv g [] [] (fun _ => n) s.1 ->
  Inv g [] [] (fun _ => n + 1) s'.1 \/
  exists j, g = Dead j /\ Inv (Gone j) [] [] (fun _ => n + 1) s'.1 /\
    published s'.2 = published s.2.
Proof.
  intros Hstep Hrun Hg Hn Hmax HI.
  assert (Hweak : forall (s' : Service * World), Inv g [] [] (fun _ => n) s'.1 ->
    Inv g [] [] (fun _ => n + 1) s'.1) 
    by (intros ? ?; apply (Inv_weaken _ _ _ (fun _ => n)); [intros; lia|done]).
  destruct Hstep as [event s _|t s _|s _ Hres|s|before w after s Ew En|before w r after s Ew Er Hroom
    |before w r after s Ew Er Hdone].
  - left. by apply (hoare_event g n Hn Hmax Hg cfg).
  - left. apply Hweak. by apply (hoare_tickFeeds g (fun _ => n)).
  - destruct (results (preparations s.1)) as [|r rest] eqn:Er; [done|].
    rewrite (take_result_eq s r rest Er). set (s1 := set_preparations _ s.1).
    pose proof (Inv_take _ _ _ _ _ HI Er) as HI1. fold s1 in HI1.
    destruct r as [r|r]; cbn [result_jobs result_routines] in HI1.
    + left. apply Hweak. by apply (hoare_routine_result g (fun _ => n)).
    + assert (Hpost : forall g', settles (pr_job r) (preparations s1) g g' ->
        Inv g' [] [] (fun _ => n + 1) (handlePriorityPreparationResult cfg r (s1, s.2)).2.1).
      { intros g' Hset. apply (Inv_weaken _ _ _ (fun _ => n)); [intros; lia|].
        apply (hoare_priority_result g' (fun _ => n) r cfg (s1, s.2)). by exists g. }
      destruct g as [|j|j]; [left; apply Hpost; constructor| |done].
      destruct (inv_ghost _ _ _ _ _ HI1) as [[<-|Hj] (v & Ev & Hlt)].
      * right. exists (pr_job r). split; [done|]. split; [apply Hpost; constructor|].
        pose proof (active_alert _ _ _ _ _ (pr_job r) HI1 (or_introl eq_refl)) as Ha.
        assert (Hserved : is_Some (ids s1 !! job_feedID (pr_job r))) by (apply HI1; by left).
        unfold ids in Hserved. rewrite lookup_fmap in Hserved.
        destruct (feeds s1 !! job_feedID (pr_job r)) as [p|] eqn:Ep; [|by destruct Hserved].
        rewrite (handle_priority_eq cfg r p (s1, s.2)) by done. rewrite silent_superseded; [done|].
        unfold versions in Ev. cbn [fst]. rewrite Ev. simpl. lia.
      * left. apply Hpost. by constructor.
  - left. apply Hweak. by apply (Inv_view _ _ _ _ s.1).
  - left. apply Hweak. by apply finish_worker_Inv.
  - left. apply Hweak. destruct (slots_leave _ _ _ _ _ (inv_slots _ _ _ _ _ HI) Ew Er) as (Hso & Hin & Hr & _).
    cbn. apply Inv_coord; [done..|]. intros x. by apply (in_permuted _ _ _ (symmetry Hr)).
  - congruence.
Qed.

(** Steps after the connection has ended keep the channels in order. *)
Lemma step_slots s s' :
  step cfg Lookahead s s' -> ctxDone s.1 = true -> slots_ok (preparations s.1) ->
  slots_ok (preparations s'.1) /\ ctxDone s'.1 = true.
Proof.
  intros Hstep Hdone Hso.
  destruct Hstep as [event s Hrun|t s Hrun|s Hrun|s|before w after s Ew En|before w r after s Ew Er Hroom
    |before w r after s Ew Er _]; try congruence.
  - done.
  - unfold finish_worker. pose proof (perform_answers (w_work w) (w_snapshot w, s.2)) as Ha.
    destruct (perform cfg (w_work w) (w_snapshot w, s.2)) as [r [p' world]]. cbn [fst snd] in *.
    split; [|done]. by apply (slots_finish (preparations s.1) before w r after).
  - split; [|done]. by apply (slots_leave _ _ _ _ _ Hso Ew Er).
  - unfold abandon_result. rewrite mbind_eq. cbn [mods modify fst snd].
    assert (Hq : preparations (discard_result cfg r s).2.1 = preparations s.1 /\
      ctxDone (discard_result cfg r s).2.1 = ctxDone s.1).
    { destruct s as [s w']. unfold discard_result, outside. cbn. destruct r; by case_match. }
    destruct Hq as [Hp Hc]. rewrite Hp. split; [by apply (slots_leave _ _ _ _ _ Hso Ew Er)|].
    unfold set_preparations. cbn. congruence.
Qed.

End steps.

(** ** Reachable states *)

Section reachable.
Context `{JSON} `{Env} `{Zones} `{Builder} `{PriorityBuilder} `{MapOrder} (cfg : loadedConfig) (Lookahead : Z).

Lemma new_planners_ids fs m w :
  (forall k p, m !! k = Some p -> feed_ID (feed p) = k) ->
  forall k p, (new_planners fs m w).1 !! k = Some p -> feed_ID (feed p) = k.
Proof.
  revert m w. induction fs as [|f fs IH]; intros m w Hm; [exact Hm|].
  cbn [new_planners]. rewrite mbind_eq. apply IH. intros k p.
  destruct (decide (feed_ID f = k)) as [<-|Hne].
  - rewrite lookup_insert_eq. by intros [= <-].
  - rewrite lookup_insert_ne by done. apply Hm.
Qed.

Lemma newService_Inv w : Inv Untracked [] [] (fun _ => 0) (newService cfg w).1.
Proof.
  unfold newService. rewrite mbind_eq. cbn [ret fst].
  pose proof (new_planners_ids (enabledFeeds cfg) ∅ w) as Hids.
  destruct (new_planners (enabledFeeds cfg) ∅ w) as [m w']. cbn [fst snd] in *.
  assert (Hst : forall f, stateOf f (MkService m (newPreparationCoordinator 0 0) ∅ [] 0
    priorityPreparationBacklog zeroTime false 0) = newState) by (intros; done).
  split; unfold versions; cbn; try done.
  - intros k id. unfold ids. cbn. rewrite lookup_fmap. destruct (m !! k) as [p|] eqn:E; [|done].
    intros [= <-]. by apply Hids.
  - apply slots_new.
  - apply NoDup_nil_2.
  - intros f a. rewrite Hst. split; [done|by intros (j & [] & _)].
  - apply NoDup_nil_2.
Qed.

Lemma reaches_Inv w0 n s :
  reaches cfg Lookahead (newService cfg w0) n s -> Z.of_nat n < 2 ^ 64 ->
  slots_ok (preparations s.1) /\
  (ctxDone s.1 = false -> Inv Untracked [] [] (fun _ => Z.of_nat n) s.1).
Proof.
  intros Hr. induction Hr as [|n s s' Hr IH Hstep]; intros Hn.
  { split; [|intros _]; apply newService_Inv. }
  destruct IH as [Hso HI]; [lia|]. destruct (ctxDone s.1) eqn:Hrun.
  - destruct (step_slots cfg Lookahead s s') as [? ->]; done.
  - destruct (step_Inv cfg Lookahead Untracked (Z.of_nat n) s s') as [HI'|(j & [=] & _)];
      [done|done|done|lia|lia|by apply HI|].
    split; [apply HI'|]. intros _.
    apply (Inv_weaken _ _ _ (fun _ => Z.of_nat n + 1)); [intros; lia|done].
Qed.
End reachable.

(** ** Starting what can be started *)

Section starting.
Context `{JSON} `{Env} (cfg : loadedConfig).

(** Nothing more can be started: every waiting request of a served feed waits
    for the request its feed has in preparation, or the workers are all busy. *)
Definition settled (s : Service) : Prop :=
  (forall j, In j (priorityPending s) -> is_Some (feeds s !! job_feedID j) ->
     is_Some (active (stateOf (job_feedID j) s))) \/
  (priorityWorkers (preparations s) <= prioritySlots (preparations s))%nat \/
  (routineWorkers (preparations s) + priorityWorkers (preparations s)
     <= resultSlots (preparations s))%nat.

Lemma startable_none s before rest :
  startable s before rest = None -> forall j, In j rest -> is_Some (feeds s !! job_feedID j) ->
  is_Some (active (stateOf (job_feedID j) s)).
Proof.
  revert before. induction rest as [|j' rest IH]; intros before; [done|]. simpl.
  destruct (feeds s !! job_feedID j') as [p|] eqn:Ef;
    [destruct (active (stateOf (job_feedID j') s)) eqn:Ea|]; try done;
    intros E j [<-|Hj] Hs; try by apply (IH (before ++ [j'])%list).
  - by rewrite Ea.
  - rewrite Ef in Hs. by destruct Hs.
Qed.

Lemma startable_length s before rest b j r :
  startable s before rest = Some (b, j, r) ->
  (length (b ++ r) < length (before ++ rest))%nat.
Proof.
  intros E. apply startable_spec in E as (El & _). apply (f_equal length) in El.
  rewrite !length_app in *. simpl in *. lia.
Qed.

Lemma start_pending_settles n s :
  (length (priorityPending s.1) < n)%nat -> settled (start_pending n s).2.1.
Proof.
  revert s. induction n as [|n IH]; intros s Hl; [lia|]. rewrite start_pending_S.
  pose proof (touch_states_view s.1) as (_ & Ec & Hst & Ep & _).
  destruct (startable s.1 [] (priorityPending s.1)) as [[[b j] r]|] eqn:E.
  - pose proof (startable_length _ _ _ _ _ _ E) as Hlen. apply startable_spec in E as (_ & [p Hp] & _).
    rewrite Hp. destruct (tryStartPriority p j (preparations s.1)) as [c'|] eqn:Et.
    + apply IH. cbn in *. lia.
    + right. cbn [fst snd]. rewrite Ec. unfold tryStartPriority, reserveResultSlot in Et.
      destruct (_ <? _)%nat eqn:E1 in Et; [|left; by apply Nat.ltb_ge].
      destruct (_ <? _)%nat eqn:E2 in Et; [done|]. right. by apply Nat.ltb_ge.
  - left. cbn [fst snd]. intros j Hj Hs. rewrite Hst. rewrite Ep in Hj.
    by apply (startable_none _ _ _ E).
Qed.
End starting.

(** ** Draining the channel *)

Lemma silent_discard_routine `{Env} cfg prepared : silent (outside (discard_routine cfg prepared)).
Proof.
  apply silent_outside. intros w. unfold discard_routine, discardRoutinePreparation.
  case_match; [done|]. apply (for_each_ind (fun w' => published w' = published w)); [done|].
  intros item w' _ <-. unfold discard_item. cbv zeta. by repeat case_match.
Qed.

Lemma drain_spec `{Env} cfg s :
  resultSlots (preparations s.1) = length (results (preparations s.1)) ->
  let s' := (drain cfg (length (results (preparations s.1))) s).2 in
  results (preparations s'.1) = [] /\ resultSlots (preparations s'.1) = 0%nat /\
  published s'.2 = published s.2.
Proof.
  remember (length (results (preparations s.1))) as k eqn:Ek. revert s Ek.
  induction k as [|k IH]; intros s Ek Hslots.
  { cbn. by destruct (results (preparations s.1)). }
  cbn [drain]. rewrite mbind_eq. cbn [svc gets fst snd].
  destruct (results (preparations s.1)) as [|r rest] eqn:Er; [done|].
  rewrite !mbind_eq. cbn [mods modify fst snd].
  set (s1 := set_preparations _ s.1).
  set (body := match r with RoutineResult _ => _ | PriorityResult _ => _ end).
  assert (Hbody : preparations (body (s1, s.2)).2.1 = preparations s1 /\
    published (body (s1, s.2)).2.2 = published s.2).
  { unfold body. destruct r as [r|r].
    - split; [|by apply (silent_discard_routine cfg (rr_prepared r) (s1, s.2))].
      unfold outside. cbn [fst snd]. by destruct (discard_routine cfg (rr_prepared r) s.2).
    - split; [|by apply (silent_discard _ (pr_prepared r) (s1, s.2))].
      apply (quiet_on_planner _ _ (feed_kept_io _) (s1, s.2)). }
  destruct Hbody as [Hprep Hpub]. destruct (IH (body (s1, s.2)).2) as (H1 & H2 & H3).
  - rewrite Hprep. cbn in *. lia.
  - rewrite Hprep. cbn in *. lia.
  - rewrite H3, Hpub. by split_and!.
Qed.

(** ** Properties *)

(** C21: the pools hold.  In every state the service reaches, at most four
    workers prepare routine audio and at most four prepare alerts, a worker with
    a result always finds room in the result channel, so that none ever blocks,
    and while the service runs at most sixty-four alerts wait. *)
Theorem preparation_bounds `{JSON} `{Env} `{Zones} `{Builder} `{PriorityBuilder} `{MapOrder}
    (cfg : loadedConfig) (Lookahead : Z) (w0 : World) (n : nat) (s : Service * World) :
  reaches cfg Lookahead (newService cfg w0) n s -> Z.of_nat n < 2 ^ 64 ->
  let c := preparations s.1 in
  (length (List.filter (preparing false) (workers c)) <= 4)%nat /\
  (length (List.filter (preparing true) (workers c)) <= 4)%nat /\
  (forall w r, In w (workers c) -> w_result w = Some r -> channel_room c) /\
  (ctxDone s.1 = false -> Z.of_nat (length (priorityPending s.1)) <= 64).
Proof.
  intros Hr Hn. destruct (reaches_Inv cfg Lookahead w0 n s Hr Hn) as [[] HI].
  destruct so_sizes as [E1 E2]. cbv zeta.
  unfold routinePreparationWorkerLimit, priorityPreparationWorkerLimit in *.
  split_and!; [lia|lia| |intros Hrun; apply (HI Hrun)].
  intros w r Hw _. unfold channel_room. rewrite E1, E2 in *.
  destruct (workers (preparations s.1)); [done|]. simpl in *. lia.
Qed.

(** C4: alerts of one feed are prepared one at a time.  While the service runs,
    at most one alert of a feed is in preparation, it is the one the feed's state
    records, and its result will be taken as the active one's; the waiting
    requests are at most one for each alert of a feed and carry the alert's
    current version. *)
Theorem one_alert_per_feed `{JSON} `{Env} `{Zones} `{Builder} `{PriorityBuilder} `{MapOrder}
    (cfg : loadedConfig) (Lookahead : Z) (w0 : World) (n : nat) (s : Service * World) :
  reaches cfg Lookahead (newService cfg w0) n s -> Z.of_nat n < 2 ^ 64 -> ctxDone s.1 = false ->
  let c := preparations s.1 in
  NoDup (map job_feedID (inflight c)) /\
  (forall f a, active (stateOf f s.1) = Some a <->
     exists j, In j (inflight c) /\ job_feedID j = f /\ as_active j = a) /\
  NoDup (map request_key (priorityPending s.1)) /\
  (forall j, In j (priorityPending s.1) ->
     versions s.1 (job_feedID j) (job_alertID j) = Some (job_version j)).
Proof.
  intros Hr Hn Hrun c. destruct (reaches_Inv cfg Lookahead w0 n s Hr Hn) as [_ HI].
  destruct (HI Hrun). by split_and!.
Qed.


(** C25: routine planning is never stuck.  While the service runs, a served feed
    that waits for routine work has that very work in preparation. *)
Theorem routine_never_stuck `{JSON} `{Env} `{Zones} `{Builder} `{PriorityBuilder} `{MapOrder}
    (cfg : loadedConfig) (Lookahead : Z) (w0 : World) (n : nat) (s : Service * World) (f : string) :
  reaches cfg Lookahead (newService cfg w0) n s -> Z.of_nat n < 2 ^ 64 -> ctxDone s.1 = false ->
  is_Some (feeds s.1 !! f) -> routineInFlight (stateOf f s.1) = true ->
  In (f, routineToken (stateOf f s.1)) (routines (preparations s.1)).
Proof.
  intros Hr Hn Hrun Hs Hf. destruct (reaches_Inv cfg Lookahead w0 n s Hr Hn) as [_ HI].
  specialize (HI Hrun). apply (inv_routine _ _ _ _ _ HI); [|done].
  unfold ids. rewrite lookup_fmap. destruct Hs as [p ->]. by eexists.
Qed.

(** C27: no alert waits without a reason.  After waiting alerts were started,
    each one left waits for an alert its feed has in preparation, unless all the
    workers are taken. *)
Theorem startPending_settles `{JSON} `{Env} (cfg : loadedConfig) (s : Service * World) :
  ctxDone s.1 = false -> settled (startPendingPriorityPreparations cfg s).2.1.
Proof.
  intros Hrun. unfold startPendingPriorityPreparations. rewrite mbind_eq. cbn [svc gets fst snd].
  rewrite Hrun. rewrite !mbind_eq. cbn [svc gets fst snd]. apply start_pending_settles. lia.
Qed.

(** A shutdown leaves nothing behind.  When the connection has ended and its
    workers have gone, [discardUncommittedPreparations] empties the channel, gives
    every place back and sends nothing. *)
Theorem shutdown_drains `{JSON} `{Env} `{Zones} `{Builder} `{PriorityBuilder} `{MapOrder}
    (cfg : loadedConfig) (Lookahead : Z) (w0 : World) (n : nat) (s : Service * World) :
  reaches cfg Lookahead (newService cfg w0) n s -> Z.of_nat n < 2 ^ 64 ->
  workers (preparations s.1) = [] ->
  let s' := (discardUncommittedPreparations cfg s).2 in
  results (preparations s'.1) = [] /\ resultSlots (preparations s'.1) = 0%nat /\
  published s'.2 = published s.2.
Proof.
  intros Hr Hn Hw. destruct (reaches_Inv cfg Lookahead w0 n s Hr Hn) as [Hso _].
  pose proof (so_results _ Hso) as Hslots. rewrite Hw in Hslots.
  unfold discardUncommittedPreparations. rewrite mbind_eq. by apply drain_spec.
Qed.

(** ** Witnesses *)

(** Alerts whose preparation fails. *)
#[export] Instance sample_PriorityBuilder : PriorityBuilder | 1000 := {|
  preparePriorityAlert data := ret (sample_prepared, Some "no voice") |}.
#[export] Instance listed_order : MapOrder | 1000 := {|
  range_order n l := l; range_order_perm n l := reflexivity l |}.

(** A request for the alert [id]. *)
Definition request (id : string) : obj :=
  message [("type", AString "cap.alert.broadcast.requested"); ("feed_id", AString "f1");
    ("data", AMap (message [("alert_id", AString id); ("headline", AString "Tornado warning")]))].

Definition started : Service * World := newService sample_config sample_world.
(** The alert is asked for twice before its first preparation is over. *)
Definition asked_once : Service * World := (handleEvent sample_config (request "a1") started).2.
Definition asked_twice : Service * World := (handleEvent sample_config (request "a1") asked_once).2.

Lemma asked_twice_reached : reaches sample_config Minute started 2 asked_twice.
Proof.
  unfold asked_twice, asked_once.
  apply reaches_S with (s := (handleEvent sample_config (request "a1") started).2);
    [|apply step_event; by vm_compute].
  apply reaches_S with (s := started); [apply reaches_0|apply step_event; by vm_compute].
Qed.

(** The worker of the first request ends, its result reaches the loop, and the loop takes it. *)
Definition no_job : priorityPreparationJob := MkJob 0 "" "" 0 ∅.
Definition first_request : priorityPreparationJob := hd no_job (inflight (preparations asked_twice.1)).
Definition no_result : preparationResult := PriorityResult (MkPriorityResult no_job sample_prepared None).
Definition worker_of (s : Service * World) : worker :=
  hd (MkWorker (PriorityWork no_job) sample_planner false None) (workers (preparations s.1)).
Definition prepared_twice : Service * World :=
  (finish_worker sample_config [] (worker_of asked_twice) [] asked_twice).2.
Definition sent_twice : Service * World :=
  (send_result [] (default no_result (w_result (worker_of prepared_twice))) [] prepared_twice).2.

Lemma sent_twice_reached : reaches sample_config Minute started 4 sent_twice.
Proof.
  apply reaches_S with (s := prepared_twice).
  - apply reaches_S with (s := asked_twice); [exact asked_twice_reached|].
    by apply step_work; vm_compute.
  - apply (step_send sample_config Minute [] (worker_of prepared_twice));
      [by vm_compute|by vm_compute|vm_compute; lia].
Qed.

Lemma first_request_in_preparation : In first_request (inflight (preparations sent_twice.1)).
Proof. by vm_compute; left. Qed.
Lemma first_request_superseded : superseded sent_twice.1 first_request.
Proof. exists 2. by split; vm_compute. Qed.
Lemma first_request_taken :
  step sample_config Minute sent_twice (take_result sample_config Minute sent_twice).2.
Proof. by apply step_result; vm_compute. Qed.

Lemma preparation_bounds_witness :
  (length (List.filter (preparing true) (workers (preparations asked_twice.1))) <= 4)%nat.
Proof.
  apply (preparation_bounds sample_config Minute sample_world 2 asked_twice);
    [exact asked_twice_reached|by vm_compute].
Defined.

Lemma one_alert_per_feed_witness : NoDup (map job_feedID (inflight (preparations asked_twice.1))).
Proof.
  apply (one_alert_per_feed sample_config Minute sample_world 2 asked_twice);
    [exact asked_twice_reached|by vm_compute|by vm_compute].
Defined.


(** A planner past its startup asks for routine audio at its first tick. *)
Definition planning : Service * World := (tickFeeds sample_config Minute (noon + Hour) "" started).2.

Lemma planning_reached : reaches sample_config Minute started 1 planning.
Proof.
  apply reaches_S with (s := started); [apply reaches_0|apply step_tick; by vm_compute].
Qed.

Lemma routine_never_stuck_witness : In ("f1", 1) (routines (preparations planning.1)).
Proof.
  replace 1 with (routineToken (stateOf "f1" planning.1)) by (by vm_compute).
  apply (routine_never_stuck sample_config Minute sample_world 1 planning "f1");
    [exact planning_reached|by vm_compute|by vm_compute|by vm_compute; eexists|by vm_compute].
Defined.

Lemma startPending_settles_witness :
  settled (startPendingPriorityPreparations sample_config asked_twice).2.1.
Proof. apply (startPending_settles sample_config asked_twice). by vm_compute. Defined.

Lemma shutdown_drains_witness :
  length (results (preparations sent_twice.1)) = 1%nat /\
  resultSlots (preparations (discardUncommittedPreparations sample_config sent_twice).2.1) = 0%nat.
Proof.
  split; [by vm_compute|].
  apply (shutdown_drains sample_config Minute sample_world 4 sent_twice);
    [exact sent_twice_reached|by vm_compute|by vm_compute].
Defined.
